(* ===== verification/_CoqProject ===== *)
-Q . S2P
Prelude.v
MachineInt.v
RustStr.v
StrText.v
Constants.v
Errors.v
HttpWire.v
Framing.v
Effect.v
Attributes.v
Gregorian.v
DateTime.v
Interval.v
ExasolTypes.v
ResultParser.v
ResultCodec.v
ResultSafety.v
Float64.v
Json.v
Messages.v
Lifecycle.v
Encryption.v
Handshake.v
HandshakeCodec.v
Tls.v
HttpTunnel.v
HttpClient.v
HttpRuns.v
HttpBodies.v
TunnelStates.v
ParamEncoding.v
ParamCodec.v
ParamSplit.v
NativeTransport.v
NativeInvariant.v
NativeReach.v
NativeExchange.v
NativeConversation.v
NativeWitness.v
Statement.v
StatementText.v
StatementSafety.v
PreparedRows.v
Infer.v
Clauses.v
ImportQuery.v
ExportQuery.v
ConnectionString.v
ConnectionText.v
Session.v
Csv.v
CsvImport.v
CsvStream.v
ParallelImport.v
CsvExport.v
ExportSettle.v
TunnelWitness.v
RowMajor.v
ArrayBuilders.v
ArrowConverter.v
Conversions.v
JsonColumns.v
ArrowExport.v
ResultSets.v
ResultPages.v
NativeResults.v
ArrowCsv.v
ArrowRows.v
ParquetImport.v
Connection.v
ConnectionRules.v
ParquetExport.v
AdbcFfi.v
AdbcDriver.v
AdbcRules.v
WsPassword.v
WsMessages.v
WebSocket.v
WsRules.v
ResultWitness.v
