(* ===== verification/Prelude.v ===== *)
(** * exarrow-rs: a verification development

    exarrow-rs is an Exasol driver written in Rust, with results as Arrow record batches.
    This library translates the driver's own logic into Rocq and states what makes it
    correct. Source paths are relative to the crate, [src/src/].

    ** The program

    A connection string ([connection/params.rs]) gives the parameters of a session
    ([connection/session.rs]), which drives a transport. The native transport
    ([transport/native/]) speaks Exasol's binary protocol: messages with a header
    ([framing.rs]) and attributes ([attributes.rs]), encrypted ([encryption.rs]) with keys
    that a login agrees on ([handshake.rs]), over TCP or TLS ([transport/tls.rs]), under the
    deadline and the state rules that all transports share ([deadline.rs], [lifecycle.rs]).
    Statements ([query/statement.rs]) send SQL text with literals or bind parameter rows
    ([query/prepared.rs]), responses are parsed ([result_parser.rs]) to cells or JSON rows
    ([deserialize.rs]), and result sets ([query/results.rs]) fetch the pages and make record
    batches of them ([arrow_conversion/]). Imports and exports build an IMPORT or EXPORT
    statement ([query/import.rs], [query/export.rs]) and send the data through a second
    connection, on which the driver answers Exasol's HTTP requests
    ([transport/http_transport.rs], [import/], [export/]).

    ** The library

    Foundations:
    - [Prelude]: outcomes of fallible code ([Ok], [Err] and [Panic]), byte readers, shared
      lemmas and tactics; [MachineInt]: fixed-width integers in [Z]; [RustStr], [StrText]:
      strings as their UTF-8 bytes, the [str] methods, quoted SQL tokens; [Float64]: [f64] and
      its text; [Json]: serde_json values; [Effect]: state passing with cancellation at an
      [await]; [Gregorian]: the calendar, as a specification; [Errors]: the error enums of
      [error.rs].
    The native protocol:
    - [Constants], [Framing], [Attributes], [Encryption], [Handshake], [Tls], [Lifecycle],
      [ResultParser], [Messages], [ParamEncoding] model the files of the same name, and
      [NativeTransport] models [transport/native/mod.rs] over all of them: the record
      [NativeTcpTransport] is its struct, an operation of [&mut self] is an action on the
      world (clock, cancellation, random draws) and that record.
    - [HandshakeCodec], [ResultCodec], [ParamCodec]: the server's side of these formats;
      [ResultSafety]: hostile responses; [ParamSplit], [PreparedRows]: parameter rows;
      [NativeInvariant], [NativeReach]: reachable states; [NativeExchange],
      [NativeConversation]: the driver and a server in step; [NativeWitness]: a server
      without TLS to evaluate on.
    The WebSocket protocol:
    - [WsMessages]: the JSON requests and responses of [transport/messages.rs];
      [WsPassword]: the encryption of the login's password; [WebSocket]:
      [transport/websocket.rs] over both, an instance of the same interfaces as the native
      transport in [WsRules].
    Types and text:
    - [ExasolTypes]: types, names and Arrow counterparts; [DateTime], [Interval]: temporal
      text; [Infer]: schemas of imported files.
    Statements, connections, sessions:
    - [Statement], [StatementText], [StatementSafety]: literals and parameters in SQL;
      [Clauses], [ImportQuery], [ExportQuery]: the IMPORT and EXPORT statements;
      [ConnectionString], [ConnectionText]: connection strings; [Session]: also the requests
      of [connection/auth.rs]; [Connection]:
      [adbc/connection.rs] over the class [TransportProtocol], with [ConnectionRules] its
      theorems against the class [SessionSettings] of what a server keeps of attributes.
    - [AdbcFfi]: the SQL texts, catalog batches and options of [adbc_ffi.rs]; [AdbcDriver]:
      its connection and statement objects over [Connection]; [AdbcRules]: their theorems.
    Results:
    - [RowMajor], [ArrayBuilders], [ArrowConverter], [Conversions]: JSON rows to
      batches by the converter; [JsonColumns]: the same by a result set;
      [ResultSets], [ResultPages]: pagination over the interface [ResultTransport];
      [NativeResults]: the native transport as its instance; [ArrowCsv]:
      [import/arrow.rs] with its decimal text, batches to CSV rows, read back by [ArrowRows];
      [ResultWitness]: a toy server for result sets, connections and the ADBC objects.
    The data tunnel:
    - [HttpWire], [HttpTunnel], [HttpClient] model [http_transport.rs]; [HttpRuns],
      [HttpBodies], [TunnelStates] its theorems; [Csv], [CsvImport],
      [CsvExport] model [import/csv.rs] and [export/csv.rs]; [CsvStream], [ExportSettle]
      their theorems; [ParallelImport]: several files at once, [import/parallel.rs], with
      its tasks and the statement as events of a state machine; [ParquetImport]:
      [import/parquet.rs], with the producer and the tunnel of a file as another;
      [TunnelWitness]; [ArrowExport], [ParquetExport]: [export/arrow.rs] and
      [export/parquet.rs], exported rows to record batches and files.

    A comment [(* code: <file> <lines> <symbol> *)] before a definition names what it
    translates.

    ** What the theorems show

    - Formats are inverted by readers that the server's side is written as: responses and
      fetch replies ([ResultCodec]), attributes, parameter payloads ([ParamCodec]), the login
      message ([HandshakeCodec]), encrypted messages, connection strings, CSV rows; IMPORT
      statements too, exactly if no file name holds a quote ([ImportQuery]).
    - The native transport keeps an invariant in every reachable state and refines the
      abstract connection states ([NativeReach]); a command reaches the server as it is and
      the driver waits exactly for its result, without the CMD_CONTINUE that the protocol
      specification requires ([NativeExchange]); parameter rows arrive once and in order
      ([NativeConversation]); the rows of a result set are the server's, in order, and as many
      as announced unless the first page alone has more ([ResultPages], [NativeResults]).
    - The WebSocket transport keeps the same lifecycle rules; a request is answered by the
      first JSON object that arrives, and the rows of a result set are the server's, in order
      ([WsRules]); the server decrypts the password that was given ([WsPassword]).
    - Conversions are typed, and every cell is the reading of its JSON value
      ([Conversions]); a result set reads the same cells, with exceptions that are proved too
      ([JsonColumns]); rows are the columns that were sent ([RowMajor]).
    - Placeholders are found as a grammar of SQL tokens has them ([StatementText]), and
      substituted literals do not change the structure of a statement unless a minus sign or a
      quote meets one at the edge of a literal ([StatementSafety]); errors do not repeat secrets
      ([ConnectionText]); a TLS tunnel carries nothing in the clear ([TunnelStates]); what
      the certificate verifiers accept ([Tls]).
    - Exports end by the documented rules in every interleaving ([ExportSettle]); import
      bodies are complete or refused ([CsvStream]), those of several files too, whose import
      fails fast and leaves no stream running ([ParallelImport]); a Parquet file is sent as
      the CSV of its batches, or with an error and no end ([ParquetImport]); Parquet ranges
      are exact, and the body of an EXPORT request reaches its consumer in order
      ([HttpBodies]); the CSV of a record batch reads back as its values ([ArrowRows]);
      exported batches hold every row once and in order, or an error names a row that does
      not fit, and a file is left only when all of it was written ([ParquetExport],
      [ArrowExport]).
    - A connection's timeouts, transactions and closing follow their rules, with the cases
      in which a statement runs under another's timeout ([ConnectionRules]); ADBC statements
      execute each bound row, refuse an ingest before they create a table, and prepare the
      text they hold ([AdbcRules]); catalog batches lose no object and the DDL of an ingest
      reads back ([AdbcFfi]).

    ** Fuel and bounds

    Loops of the source are structural where their data is. The others take fuel, with what
    happens without it as a parameter ([exhausted]), and a theorem that enough fuel makes the
    parameter irrelevant: the recursive response parser consumes its payload
    ([legacy_parser_terminates]), the wait for a result consumes the bytes received
    ([wait_ends]), a poll of an export makes progress ([export_returns]), and the pages of a
    result set with a known total are bounded by its missing rows ([fetch_all_terminates]);
    without a total the server decides, as in the source. Integers keep their width: a sum
    or cast that can leave it goes through [arith] (a panic with overflow checks, a wrap
    without, by [BuildProfile]), [wrap] or [checked].

    ** Libraries outside the repository

    chrono, arrow, serde_json, num-bigint, ChaCha20, the random source, rustls, tokio's
    sockets and clock, flate2 and bzip2, percent decoding, hash-map order and the Unicode
    tables are type classes; a class of laws states the documented behaviour a theorem uses,
    and instances show that the laws can hold.

    ** Not modelled

    The encodings of Arrow IPC and Parquet files, which belong to the arrow and parquet
    crates; the JSON reader of the responses of [connection/auth.rs]; the constructors of
    drivers and databases, the C entry points and tables of constants of the ADBC interface; the
    wrappers of [adbc/connection.rs] that pair an import or export with a tunnel, and its
    blocking variants; the support code of tests. *)

From stdpp Require Export base tactics list option strings gmap.
From Stdlib Require Export ZArith Lia.

(** ** Outcomes of Rust code

    A Rust function that returns [Result<A, E>] ends in one of three ways: it
    returns [Ok], it returns [Err], or it panics (an index or slice out of
    range, an arithmetic overflow in a build with overflow checks, a failed
    [expect]). *)
Inductive outcome (E A : Type) : Type :=
| Ok (a : A)
| Err (e : E)
| Panic.
Arguments Ok {E A} a.
Arguments Err {E A} e.
Arguments Panic {E A}.

#[global] Instance outcome_eq_dec E A `{EqDecision E, EqDecision A} :
  EqDecision (outcome E A).
Proof. solve_decision. Defined.

#[global] Instance outcome_ret E : MRet (outcome E) := λ A a, Ok a.
#[global] Instance outcome_bind E : MBind (outcome E) := λ A B f m,
  match m with Ok a => f a | Err e => Err e | Panic => Panic end.
#[global] Instance outcome_fmap E : FMap (outcome E) := λ A B f m,
  match m with Ok a => Ok (f a) | Err e => Err e | Panic => Panic end.

(** [Result::map_err]. *)
Definition map_err {E F A} (f : E → F) (m : outcome E A) : outcome F A :=
  match m with Ok a => Ok a | Err e => Err (f e) | Panic => Panic end.

(** [Option::ok_or]. *)
Definition ok_or {E A} (e : E) (o : option A) : outcome E A :=
  match o with Some a => Ok a | None => Err e end.

(** A call that did not panic. *)
Definition no_panic {E A} (m : outcome E A) : Prop := m ≠ Panic.

(** ** Byte readers

    The parsers of the native protocol take the whole payload [data] and a
    mutable [offset]. A reader is the function of both that returns the value
    and the advanced offset. A failed reader returns no offset: every caller in
    the source propagates the error. *)
Definition reader (E A : Type) : Type := list Byte.byte → nat → outcome E (A * nat).

#[global] Instance reader_ret E : MRet (reader E) := λ A a data off, Ok (a, off).
#[global] Instance reader_bind E : MBind (reader E) := λ A B f m data off,
  match m data off with
  | Ok (a, off') => f a data off'
  | Err e => Err e
  | Panic => Panic
  end.

(** Lift an outcome that does not read. *)
Definition lift {E A} (m : outcome E A) : reader E A := λ data off,
  match m with Ok a => Ok (a, off) | Err e => Err e | Panic => Panic end.

(** [for _ in 0..n { out.push(r?) }]. *)
Fixpoint read_times {E A} (n : nat) (r : reader E A) : reader E (list A) :=
  match n with
  | O => mret []
  | S n => x ← r; xs ← read_times n r; mret (x :: xs)
  end.

(** [for x in xs { out.push(r(x)?) }]. *)
Fixpoint read_each {E A B} (r : A → reader E B) (xs : list A) : reader E (list B) :=
  match xs with
  | [] => mret []
  | x :: xs => y ← r x; ys ← read_each r xs; mret (y :: ys)
  end.

(** The payload lengths that can occur: a parser whose offsets can overflow relies
    on the bound of every allocation, others on nothing. *)
Class PayloadBound := payload_fits : nat → Prop.

(** [reads r bs a]: wherever the bytes [bs] lie in the payload, the reader [r]
    placed at their start returns [a] and stops at their end. *)
Definition reads `{PayloadBound} {E A} (r : reader E A) (bs : list Byte.byte) (a : A) : Prop :=
  ∀ pre suf, payload_fits (length (pre ++ bs ++ suf)) →
    r (pre ++ bs ++ suf) (length pre) = Ok (a, length pre + length bs).

(** The same for bytes that end the payload. *)
Definition reads_end `{PayloadBound} {E A} (r : reader E A) (bs : list Byte.byte) (a : A) : Prop :=
  ∀ pre, payload_fits (length (pre ++ bs)) →
    r (pre ++ bs) (length pre) = Ok (a, length (pre ++ bs)).

(** A reader that never moves its offset backwards or past the end of the data. *)
Definition advances {E A} (r : reader E A) : Prop :=
  ∀ data off a off', off ≤ length data → r data off = Ok (a, off') →
    off ≤ off' ≤ length data.

(** ** Tactics and hints of the development *)
Create HintDb codec.
Create HintDb adv.

(** Run the binds of an [outcome] in a hypothesis or in the goal. *)
Ltac unfold_monad :=
  unfold mbind, mret, fmap, outcome_bind, outcome_ret, outcome_fmap,
    reader_bind, reader_ret in *.

(** Case analysis on every scrutinee of the hypothesis [H], which ends in a
    contradiction or in the only surviving branch. *)
Ltac invert_run H :=
  unfold_monad;
  repeat (case_match; simplify_eq/=; try done).

(** Prove a closed decidable proposition by evaluating its decision procedure. *)
Ltac by_decision := apply (bool_decide_unpack _); vm_compute; exact I.

(** ** Lemmas on outcomes *)
Lemma bind_ok {E A B} (m : outcome E A) (f : A → outcome E B) b :
  m ≫= f = Ok b ↔ ∃ a, m = Ok a ∧ f a = Ok b.
Proof. unfold_monad. destruct m; naive_solver. Qed.

Lemma bind_panic {E A B} (m : outcome E A) (f : A → outcome E B) :
  m ≫= f = Panic ↔ m = Panic ∨ ∃ a, m = Ok a ∧ f a = Panic.
Proof. unfold_monad. destruct m; naive_solver. Qed.

Lemma no_panic_bind {E A B} (m : outcome E A) (f : A → outcome E B) :
  no_panic m → (∀ a, m = Ok a → no_panic (f a)) → no_panic (m ≫= f).
Proof. unfold no_panic. intros Hm Hf [?|(a & ? & ?)]%bind_panic; naive_solver. Qed.

Lemma fmap_ok {E A B} (f : A → B) (m : outcome E A) b :
  f <$> m = Ok b ↔ ∃ a, m = Ok a ∧ b = f a.
Proof. unfold_monad. destruct m; naive_solver. Qed.

(** [mapM] runs from left to right and stops at the first failure. *)
Lemma mapM_outcome_app {E A B} (f : A → outcome E B) xs ys :
  mapM f (xs ++ ys) = (us ← mapM f xs; vs ← mapM f ys; Ok (us ++ vs)).
Proof.
  induction xs as [|x xs IH]; cbn [app mapM]; unfold_monad; [by destruct (mapM f ys)|].
  rewrite IH. destruct (f x); [|done..]. destruct (mapM f xs); [|done..].
  by destruct (mapM f ys).
Qed.

(** The first element that fails gives the error. *)
Lemma mapM_outcome_err {E A B} (f : A → outcome E B) xs e :
  mapM f xs = Err e →
  ∃ i x, xs !! i = Some x ∧ f x = Err e ∧ Forall (λ x, ∃ y, f x = Ok y) (take i xs).
Proof.
  induction xs as [|x xs IH]; cbn [mapM]; unfold_monad; [done|].
  destruct (f x) as [y|e'|] eqn:Ex; [|intros [= ->]; by exists O, x|done].
  destruct (mapM f xs) as [ys|e'|]; [done| |done]. intros [= ->].
  destruct IH as (i & z & Hi & Hz & Hp); [done|]. exists (S i), z. split; [done|]. split; [done|].
  cbn. constructor; [by exists y|done].
Qed.

Lemma mapM_outcome_fmap {E A B C} (f : A → outcome E B) (h : B → C) (g : A → outcome E C) xs :
  Forall (λ x, g x = h <$> f x) xs → mapM g xs = (λ ys, h <$> ys) <$> mapM f xs.
Proof.
  induction 1 as [|x xs Hx _ IH]; [done|]. cbn [mapM]. rewrite Hx, IH. unfold_monad.
  destruct (f x); [|done..]. by destruct (mapM f xs).
Qed.

Lemma mapM_outcome_ok {E A B} (f : A → outcome E B) xs ys :
  mapM f xs = Ok ys ↔ Forall2 (λ x y, f x = Ok y) xs ys.
Proof.
  revert ys. induction xs as [|x xs IH]; intros ys; cbn [mapM]; unfold_monad.
  - split; [intros [= <-]; constructor|by inversion 1].
  - split.
    + destruct (f x) eqn:Hx; [|done..]. destruct (mapM f xs) eqn:Hxs; [|done..].
      intros [= <-]. constructor; [done|]. by apply IH.
    + inversion 1 as [|? y ? ys' Hx Hxs]; subst. rewrite Hx.
      apply IH in Hxs. by rewrite Hxs.
Qed.

(** ** Lemmas on readers *)
Section Reads.
Context `{PayloadBound}.

Lemma reads_ret {E A} (a : A) : reads (E := E) (mret a) [] a.
Proof. intros pre suf _. unfold_monad. cbn. by rewrite Nat.add_0_r. Qed.

Lemma reads_bind {E A B} (r : reader E A) (k : A → reader E B) bs1 bs2 a b :
  reads r bs1 a → reads (k a) bs2 b → reads (r ≫= k) (bs1 ++ bs2) b.
Proof.
  intros H1 H2 pre suf Hf. unfold mbind, reader_bind.
  rewrite <- app_assoc in *. rewrite H1 by done.
  specialize (H2 (pre ++ bs1) suf).
  rewrite <- app_assoc, (length_app pre bs1) in H2. rewrite H2, length_app by done.
  do 2 f_equal. lia.
Qed.

Lemma reads_bind_nil {E A B} (r : reader E A) (k : A → reader E B) bs a b :
  reads r [] a → reads (k a) bs b → reads (r ≫= k) bs b.
Proof. apply (reads_bind r k []). Qed.

Lemma reads_bind_ret {E A B} (r : reader E A) (f : A → B) bs a b :
  reads r bs a → b = f a → reads (x ← r; mret (f x)) bs b.
Proof.
  intros Hr ->. rewrite <- (app_nil_r bs). eapply reads_bind; [done|]. apply reads_ret.
Qed.

Lemma reads_lift {E A} (m : outcome E A) a : m = Ok a → reads (lift m) [] a.
Proof. intros -> pre suf _. unfold lift. by rewrite Nat.add_0_r. Qed.

Lemma reads_times_map {E A B} (r : reader E B) (enc : A → list Byte.byte) (val : A → B) xs :
  Forall (λ x, reads r (enc x) (val x)) xs →
  reads (read_times (length xs) r) (concat (enc <$> xs)) (val <$> xs).
Proof.
  induction 1 as [|x xs Hx _ IH]; cbn [length read_times fmap list_fmap concat].
  - apply reads_ret.
  - eapply reads_bind; [done|]. eapply reads_bind_ret; done.
Qed.

Lemma reads_times {E A} (r : reader E A) (enc : A → list Byte.byte) xs :
  Forall (λ x, reads r (enc x) x) xs →
  reads (read_times (length xs) r) (concat (enc <$> xs)) xs.
Proof. intros Hx. rewrite <- (list_fmap_id xs) at 3. by apply reads_times_map. Qed.

Lemma reads_each {E A B C} (r : A → reader E B) (enc : C → list Byte.byte) (arg : C → A)
    (val : C → B) xs :
  Forall (λ x, reads (r (arg x)) (enc x) (val x)) xs →
  reads (read_each r (arg <$> xs)) (concat (enc <$> xs)) (val <$> xs).
Proof.
  induction 1 as [|x xs Hx _ IH]; cbn [read_each fmap list_fmap concat].
  - apply reads_ret.
  - eapply reads_bind; [done|]. eapply reads_bind_ret; done.
Qed.

Lemma reads_end_reads {E A} (r : reader E A) bs a : reads r bs a → reads_end r bs a.
Proof.
  intros Hr pre Hf. specialize (Hr pre []). rewrite app_nil_r in Hr.
  by rewrite Hr, length_app.
Qed.

Lemma reads_end_bind {E A B} (r : reader E A) (k : A → reader E B) bs1 bs2 a b :
  reads r bs1 a → reads_end (k a) bs2 b → reads_end (r ≫= k) (bs1 ++ bs2) b.
Proof.
  intros H1 H2 pre Hf. unfold mbind, reader_bind. rewrite H1 by done.
  specialize (H2 (pre ++ bs1)). rewrite <- app_assoc, (length_app pre bs1) in H2. by rewrite H2.
Qed.

Lemma reads_end_bind_ret {E A B} (r : reader E A) (k : A → reader E B) bs a b :
  reads_end r bs a → (∀ data off, k a data off = Ok (b, off)) → reads_end (r ≫= k) bs b.
Proof. intros H1 H2 pre Hf. unfold mbind, reader_bind. by rewrite H1, H2. Qed.

(** The reader applied at offset 0 of the encoding. *)
Lemma reads_run_suffix {E A} (r : reader E A) bs suf a :
  payload_fits (length (bs ++ suf)) → reads r bs a → r (bs ++ suf) 0 = Ok (a, length bs).
Proof. intros Hf Hr. exact (Hr [] suf Hf). Qed.

Lemma reads_run {E A} (r : reader E A) bs a :
  payload_fits (length bs) → reads r bs a → r bs 0 = Ok (a, length bs).
Proof.
  intros Hf Hr. rewrite <- (app_nil_r bs) at 1. apply reads_run_suffix; [|done].
  by rewrite app_nil_r.
Qed.
End Reads.

Lemma advances_ret {E A} (a : A) : advances (E := E) (mret a).
Proof. intros data off ? ? ? [= <- <-]. lia. Qed.

Lemma advances_bind {E A B} (r : reader E A) (k : A → reader E B) :
  advances r → (∀ a, advances (k a)) → advances (r ≫= k).
Proof.
  intros Hr Hk data off b off' Hle H. unfold mbind, reader_bind in H.
  destruct (r data off) as [[a off1]| |] eqn:E1; try done.
  apply Hr in E1; [|done]. apply Hk in H; lia.
Qed.

Lemma advances_lift {E A} (m : outcome E A) : advances (lift m).
Proof. intros data off a off' Hle H. destruct m; simplify_eq/=; lia. Qed.

Lemma advances_times {E A} n (r : reader E A) : advances r → advances (read_times n r).
Proof.
  intros Hr. induction n as [|n IH]; cbn [read_times]; [apply advances_ret|].
  apply advances_bind; [done|]. intros a. apply advances_bind; [done|].
  intros; apply advances_ret.
Qed.

Lemma advances_each {E A B} (r : A → reader E B) xs :
  (∀ x, advances (r x)) → advances (read_each r xs).
Proof.
  intros Hr. induction xs as [|x xs IH]; cbn [read_each]; [apply advances_ret|].
  apply advances_bind; [done|]. intros a. apply advances_bind; [done|].
  intros; apply advances_ret.
Qed.

#[export] Hint Resolve reads_ret reads_bind_ret reads_lift : codec.
#[export] Hint Resolve advances_ret advances_bind advances_lift advances_times
  advances_each : adv.

(** ** Lemmas on lists *)
Lemma take_drop_mid {A} (pre bs suf : list A) :
  take (length bs) (drop (length pre) (pre ++ bs ++ suf)) = bs.
Proof. by rewrite drop_app_length, take_app_length. Qed.

Lemma concat_fmap_length_const {A B} (f : A → list B) n xs :
  (∀ x, length (f x) = n) → length (concat (f <$> xs)) = n * length xs.
Proof.
  intros Hf. induction xs as [|x xs IH]; [cbn; lia|].
  rewrite fmap_cons. cbn [concat length]. rewrite length_app, Hf, IH. lia.
Qed.
