(* ===== verification/MachineInt.v ===== *)
(** * Machine integers

    Rust's fixed-width integers as [Z], with the ranges, the wrap-around of
    [as] casts, the checked operations and the little-endian byte encodings
    the program uses. *)
From S2P Require Import Prelude.
From Stdlib Require Export Init.Byte Strings.Byte.

#[local] Open Scope Z_scope.

(** The integer types of the program; [usize] is 64 bits wide on every platform
    the driver supports. *)
Inductive ity := U8 | U16 | U32 | U64 | USize | I8 | I16 | I32 | I64 | I128.

#[global] Instance ity_eq_dec : EqDecision ity.
Proof. solve_decision. Defined.

Definition ibytes (t : ity) : nat :=
  match t with
  | U8 | I8 => 1 | U16 | I16 => 2 | U32 | I32 => 4
  | U64 | USize | I64 => 8 | I128 => 16
  end%nat.

Definition ibits (t : ity) : Z := 8 * Z.of_nat (ibytes t).

Definition isigned (t : ity) : bool :=
  match t with I8 | I16 | I32 | I64 | I128 => true | _ => false end.

(** [T::MIN] and [T::MAX]. *)
Definition imin (t : ity) : Z := if isigned t then - 2 ^ (ibits t - 1) else 0.
Definition imax (t : ity) : Z :=
  if isigned t then 2 ^ (ibits t - 1) - 1 else 2 ^ ibits t - 1.

Definition in_range (t : ity) (z : Z) : Prop := imin t ≤ z ≤ imax t.

Definition in_rangeb (t : ity) (z : Z) : bool := (imin t <=? z) && (z <=? imax t).

(** The value of [z as T], and of an operation that wraps around. *)
Definition wrap (t : ity) (z : Z) : Z :=
  if isigned t
  then (z + 2 ^ (ibits t - 1)) mod 2 ^ ibits t - 2 ^ (ibits t - 1)
  else z mod 2 ^ ibits t.

(** [checked_add], [checked_mul], [T::try_from] of the exact result [z]. *)
Definition checked (t : ity) (z : Z) : option Z :=
  if in_rangeb t z then Some z else None.

(** [saturating_mul] of the exact result [z]. *)
Definition saturating (t : ity) (z : Z) : Z := Z.max (imin t) (Z.min (imax t) z).

(** Plain [+], [-], [*] panic on overflow in a build with overflow checks (the
    [dev] and [test] profiles) and wrap in a build without ([release]). Every
    definition that uses them is stated for both kinds of build. *)
Class BuildProfile := overflow_checks : bool.

Definition arith `{BuildProfile} {E} (t : ity) (z : Z) : outcome E Z :=
  if in_rangeb t z then Ok z
  else if overflow_checks then Panic else Ok (wrap t z).

Definition dev_profile : BuildProfile := true.
Definition release_profile : BuildProfile := false.

(** ** Bytes *)
#[global] Instance byte_eq_dec : EqDecision byte := Byte.byte_eq_dec.

Definition byte_val (b : byte) : Z := Z.of_N (Byte.to_N b).

Definition byte_of (z : Z) : byte :=
  match Byte.of_N (Z.to_N (z mod 256)) with Some b => b | None => x00 end.

(** [T::to_le_bytes] for a type of [n] bytes. *)
Fixpoint to_le (n : nat) (z : Z) : list byte :=
  match n with O => [] | S n => byte_of z :: to_le n (z / 256) end.

(** The unsigned value of little-endian bytes. *)
Fixpoint le_val (bs : list byte) : Z :=
  match bs with [] => 0 | b :: bs => byte_val b + 256 * le_val bs end.

Definition to_le_bytes (t : ity) (z : Z) : list byte := to_le (ibytes t) z.
Definition from_le_bytes (t : ity) (bs : list byte) : Z := wrap t (le_val bs).

(** ** Ranges *)
Lemma in_rangeb_true t z : in_rangeb t z = true ↔ in_range t z.
Proof. unfold in_rangeb, in_range. rewrite andb_true_iff, !Z.leb_le. done. Qed.

Lemma in_rangeb_false t z : in_rangeb t z = false ↔ ¬ in_range t z.
Proof. rewrite <- in_rangeb_true. by destruct (in_rangeb t z). Qed.

#[global] Instance in_range_dec t z : Decision (in_range t z).
Proof.
  destruct (in_rangeb t z) eqn:E; [left|right];
    [by apply in_rangeb_true | by apply in_rangeb_false].
Defined.

Lemma ibits_pos t : 8 ≤ ibits t.
Proof. destruct t; cbv; congruence. Qed.

Lemma pow2_half t : 2 ^ ibits t = 2 * 2 ^ (ibits t - 1).
Proof.
  pose proof (ibits_pos t). rewrite <- Z.pow_succ_r by lia. f_equal. lia.
Qed.

Lemma pow2_half_pos t : 0 < 2 ^ (ibits t - 1).
Proof. pose proof (ibits_pos t). apply Z.pow_pos_nonneg; lia. Qed.

Lemma imin_imax t : imin t ≤ 0 < imax t.
Proof. destruct t; cbv; split; congruence. Qed.

Lemma wrap_in_range t z : in_range t (wrap t z).
Proof.
  pose proof (pow2_half_pos t). pose proof (pow2_half t).
  unfold in_range, wrap, imin, imax. destruct (isigned t).
  - pose proof (Z.mod_pos_bound (z + 2 ^ (ibits t - 1)) (2 ^ ibits t)). lia.
  - pose proof (Z.mod_pos_bound z (2 ^ ibits t)). lia.
Qed.

Lemma wrap_id t z : in_range t z → wrap t z = z.
Proof.
  pose proof (pow2_half t).
  unfold in_range, wrap, imin, imax. destruct (isigned t); intros.
  - rewrite Z.mod_small; lia.
  - rewrite Z.mod_small; lia.
Qed.

Lemma wrap_mod t z : wrap t z mod 2 ^ ibits t = z mod 2 ^ ibits t.
Proof.
  unfold wrap. destruct (isigned t).
  - rewrite Zminus_mod_idemp_l. f_equal. lia.
  - apply Zmod_mod.
Qed.

Lemma wrap_congr t z1 z2 : z1 mod 2 ^ ibits t = z2 mod 2 ^ ibits t → wrap t z1 = wrap t z2.
Proof.
  intros H. unfold wrap. destruct (isigned t); [|done].
  rewrite <- (Zplus_mod_idemp_l z1), <- (Zplus_mod_idemp_l z2). by rewrite H.
Qed.

Lemma wrap_idemp t z : wrap t (wrap t z) = wrap t z.
Proof. apply wrap_id, wrap_in_range. Qed.

Lemma checked_Some t z r : checked t z = Some r ↔ r = z ∧ in_range t z.
Proof.
  unfold checked. destruct (in_rangeb t z) eqn:E.
  - apply in_rangeb_true in E. naive_solver.
  - apply in_rangeb_false in E. naive_solver.
Qed.

Lemma checked_in t z : in_range t z → checked t z = Some z.
Proof. intros. by apply checked_Some. Qed.

Lemma arith_in `{BuildProfile} {E} t z : in_range t z → arith (E := E) t z = Ok z.
Proof. intros Hz%in_rangeb_true. unfold arith. by rewrite Hz. Qed.

Lemma saturating_in t z : in_range t z → saturating t z = z.
Proof. unfold saturating, in_range. lia. Qed.

(** ** Bytes and little-endian encodings *)
Lemma byte_val_range b : 0 ≤ byte_val b < 256.
Proof.
  unfold byte_val. pose proof (Byte.to_N_bounded b). lia.
Qed.

Lemma byte_val_of z : byte_val (byte_of z) = z mod 256.
Proof.
  unfold byte_val, byte_of.
  pose proof (Z.mod_pos_bound z 256 ltac:(lia)) as Hb.
  destruct (Byte.of_N (Z.to_N (z mod 256))) as [b|] eqn:E.
  - apply Byte.to_of_N in E. rewrite E. lia.
  - apply Byte.of_N_None_iff in E. lia.
Qed.

Lemma byte_of_val b : byte_of (byte_val b) = b.
Proof.
  unfold byte_of. pose proof (byte_val_range b). rewrite Z.mod_small by lia.
  unfold byte_val. rewrite N2Z.id, Byte.of_to_N. done.
Qed.

Lemma byte_val_inj b1 b2 : byte_val b1 = byte_val b2 → b1 = b2.
Proof. intros H. by rewrite <- (byte_of_val b1), H, byte_of_val. Qed.

Lemma byte_of_mod z : byte_of (z mod 256) = byte_of z.
Proof. unfold byte_of. by rewrite Zmod_mod. Qed.

Lemma length_to_le n z : length (to_le n z) = n.
Proof. revert z. induction n; cbn; intros; [done|]. by rewrite IHn. Qed.

Lemma length_to_le_bytes t z : length (to_le_bytes t z) = ibytes t.
Proof. apply length_to_le. Qed.

Lemma le_val_range bs : 0 ≤ le_val bs < 256 ^ Z.of_nat (length bs).
Proof.
  induction bs as [|b bs IH]; cbn [le_val length]; [cbv; split; congruence|].
  rewrite Nat2Z.inj_succ, Z.pow_succ_r by lia. pose proof (byte_val_range b). lia.
Qed.

Lemma le_val_to_le n z : le_val (to_le n z) = z mod 256 ^ Z.of_nat n.
Proof.
  revert z. induction n as [|n IH]; intros z; cbn [to_le le_val].
  - by rewrite Z.mod_1_r.
  - rewrite IH, byte_val_of, Nat2Z.inj_succ, Z.pow_succ_r by lia.
    rewrite Z.rem_mul_r by (try apply Z.pow_nonzero; lia). done.
Qed.

Lemma to_le_le_val bs : to_le (length bs) (le_val bs) = bs.
Proof.
  induction bs as [|b bs IH]; cbn [to_le le_val length]; [done|].
  pose proof (byte_val_range b). f_equal.
  - rewrite <- byte_of_mod, Z.mul_comm, Z_mod_plus_full, byte_of_mod. apply byte_of_val.
  - rewrite Z.mul_comm, Z_div_plus_full, Z.div_small, Z.add_0_l by lia. done.
Qed.

Lemma to_le_congr n z1 z2 :
  z1 mod 256 ^ Z.of_nat n = z2 mod 256 ^ Z.of_nat n → to_le n z1 = to_le n z2.
Proof.
  intros H. rewrite <- (to_le_le_val (to_le n z1)), <- (to_le_le_val (to_le n z2)).
  by rewrite !length_to_le, !le_val_to_le, H.
Qed.

Lemma pow256 t : 256 ^ Z.of_nat (ibytes t) = 2 ^ ibits t.
Proof. destruct t; reflexivity. Qed.

(** [T::from_le_bytes(z.to_le_bytes()) == z]. *)
Lemma from_to_le_bytes t z : in_range t z → from_le_bytes t (to_le_bytes t z) = z.
Proof.
  intros Hz. unfold from_le_bytes, to_le_bytes. rewrite le_val_to_le, pow256.
  rewrite (wrap_congr t _ z); [by apply wrap_id|]. by rewrite Zmod_mod.
Qed.

(** [T::from_le_bytes(bs).to_le_bytes() == bs]. *)
Lemma to_from_le_bytes t bs :
  length bs = ibytes t → to_le_bytes t (from_le_bytes t bs) = bs.
Proof.
  intros Hl. unfold from_le_bytes, to_le_bytes.
  rewrite <- (to_le_le_val bs) at 2. rewrite Hl.
  apply to_le_congr. rewrite pow256. apply wrap_mod.
Qed.

Lemma from_le_bytes_in_range t bs : in_range t (from_le_bytes t bs).
Proof. apply wrap_in_range. Qed.

Lemma le_val_app bs1 bs2 :
  le_val (bs1 ++ bs2) = le_val bs1 + 256 ^ Z.of_nat (length bs1) * le_val bs2.
Proof.
  induction bs1 as [|b bs1 IH]; cbn [app le_val length]; [cbn; lia|].
  rewrite IH, Nat2Z.inj_succ, Z.pow_succ_r by lia. lia.
Qed.

(** Solve [in_range] goals on concrete bounds: every bound becomes a numeral. *)
Ltac range :=
  unfold in_range, imin, imax in *; cbn [isigned] in *;
  cbv [ibits ibytes] in *; cbn [Z.of_nat] in *; simpl Z.mul in *;
  simpl Z.sub in *; simpl Z.pow in *; lia.

(** The same on closed terms, by evaluation. *)
Ltac vm_range := apply in_rangeb_true; vm_compute; reflexivity.

(** Run a chain of checked operations whose results are all in range. *)
Ltac run_arith :=
  repeat (progress cbn [mbind outcome_bind] || (rewrite arith_in by range)).
