(* ===== verification/RustStr.v ===== *)
(** * Rust strings

    A [String] or [&str] is a Rocq [string] that holds its UTF-8 bytes, one
    [ascii] per byte; a [Vec<u8>] is a [list byte]. This file models the parts
    of [core::str] and [core::fmt] the program uses: UTF-8 validation, slicing,
    splitting at ASCII characters, integer parsing and integer formatting. *)
From S2P Require Import Prelude MachineInt.
From Stdlib Require Import Ascii.
From Stdlib Require String.

#[local] Open Scope Z_scope.

Definition as_bytes (s : string) : list byte := String.list_byte_of_string s.
Definition str_of_bytes (bs : list byte) : string := String.string_of_list_byte bs.

(** [s.len()], in bytes. *)
Definition str_len (s : string) : nat := String.length s.

(** ** UTF-8 validation: [core::str::from_utf8] *)

(** [Utf8Error]: [valid_up_to], and [error_len], which is [None] for an input
    that ends inside a character. *)
Record utf8_error := Utf8Error { valid_up_to : nat; error_len : option nat }.

#[global] Instance utf8_error_eq_dec : EqDecision utf8_error.
Proof. solve_decision. Defined.

Definition byte_in (lo hi : Z) (b : byte) : bool :=
  (lo <=? byte_val b) && (byte_val b <=? hi).

Definition is_cont (b : byte) : bool := byte_in 128 191 b.

(** The second byte a three- or four-byte character may have after [first]. *)
Definition second_of_3 (first b : byte) : bool :=
  let f := byte_val first in
  if f =? 224 then byte_in 160 191 b
  else if f =? 237 then byte_in 128 159 b
  else is_cont b.

Definition second_of_4 (first b : byte) : bool :=
  let f := byte_val first in
  if f =? 240 then byte_in 144 191 b
  else if f =? 244 then byte_in 128 143 b
  else is_cont b.

Fixpoint utf8_check (i : nat) (bs : list byte) : option utf8_error :=
  let err n := Some (Utf8Error i n) in
  match bs with
  | [] => None
  | b :: r =>
    if byte_val b <? 128 then utf8_check (i + 1) r
    else if byte_in 194 223 b then
      match r with
      | [] => err None
      | b1 :: r => if is_cont b1 then utf8_check (i + 2) r else err (Some 1%nat)
      end
    else if byte_in 224 239 b then
      match r with
      | [] => err None
      | b1 :: r =>
        if second_of_3 b b1 then
          match r with
          | [] => err None
          | b2 :: r => if is_cont b2 then utf8_check (i + 3) r else err (Some 2%nat)
          end
        else err (Some 1%nat)
      end
    else if byte_in 240 244 b then
      match r with
      | [] => err None
      | b1 :: r =>
        if second_of_4 b b1 then
          match r with
          | [] => err None
          | b2 :: r =>
            if is_cont b2 then
              match r with
              | [] => err None
              | b3 :: r => if is_cont b3 then utf8_check (i + 4) r else err (Some 3%nat)
              end
            else err (Some 2%nat)
          end
        else err (Some 1%nat)
      end
    else err (Some 1%nat)
  end.

Definition from_utf8 (bs : list byte) : outcome utf8_error string :=
  match utf8_check 0 bs with None => Ok (str_of_bytes bs) | Some e => Err e end.

(** The invariant of every Rust string. *)
Definition valid_str (s : string) : Prop := utf8_check 0 (as_bytes s) = None.

#[global] Instance valid_str_dec s : Decision (valid_str s).
Proof. unfold valid_str. apply _. Defined.

(** ** Slicing *)
Definition str_take (n : nat) (s : string) : string := String.substring 0 n s.
Definition str_drop (n : nat) (s : string) : string :=
  String.substring n (String.length s - n) s.

(** [s.is_char_boundary(i)]. *)
Definition is_char_boundary (s : string) (i : nat) : bool :=
  if (i =? str_len s)%nat then true
  else match String.get i s with
       | Some a => negb (is_cont (byte_of_ascii a))
       | None => false
       end.

(** [&s[..n]], which panics off a character boundary. *)
Definition str_slice_to {E} (n : nat) (s : string) : outcome E string :=
  if is_char_boundary s n then Ok (str_take n s) else Panic.

(** ** Splitting at an ASCII character *)
Fixpoint split_on (c : ascii) (s : string) : list string :=
  match s with
  | EmptyString => [""%string]
  | String a s =>
    if Ascii.eqb a c then ""%string :: split_on c s
    else match split_on c s with
         | [] => [String a ""]
         | w :: ws => String a w :: ws
         end
  end.

(** [s.split_once(c)]: at the first occurrence. *)
Fixpoint split_once (c : ascii) (s : string) : option (string * string) :=
  match s with
  | EmptyString => None
  | String a s =>
    if Ascii.eqb a c then Some (""%string, s)
    else match split_once c s with
         | Some (l, r) => Some (String a l, r)
         | None => None
         end
  end.

(** [s.rsplit_once(c)]: at the last occurrence. *)
Fixpoint rsplit_once (c : ascii) (s : string) : option (string * string) :=
  match s with
  | EmptyString => None
  | String a s =>
    match rsplit_once c s with
    | Some (l, r) => Some (String a l, r)
    | None => if Ascii.eqb a c then Some (""%string, s) else None
    end
  end.

(** [s.contains(c)]. *)
Fixpoint contains_char (c : ascii) (s : string) : bool :=
  match s with
  | EmptyString => false
  | String a s => Ascii.eqb a c || contains_char c s
  end.

(** [s.strip_prefix(p)] and [s.starts_with(p)]. *)
Fixpoint strip_prefix (p s : string) : option string :=
  match p, s with
  | EmptyString, _ => Some s
  | String a p, String b s => if Ascii.eqb a b then strip_prefix p s else None
  | String _ _, EmptyString => None
  end.

Definition starts_with (p s : string) : bool :=
  match strip_prefix p s with Some _ => true | None => false end.

(** [v.join(sep)]. *)
Definition join (sep : string) (ws : list string) : string := String.concat sep ws.

(** [s.replace(c, r)] for an ASCII character [c]. *)
Fixpoint replace_char (c : ascii) (r : string) (s : string) : string :=
  match s with
  | EmptyString => ""
  | String a s => (if Ascii.eqb a c then r else String a "") +:+ replace_char c r s
  end.

Fixpoint str_forall (P : ascii → bool) (s : string) : bool :=
  match s with EmptyString => true | String a s => P a && str_forall P s end.

#[global] Arguments split_on _%_char _%_stdpp.
#[global] Arguments split_once _%_char _%_stdpp.
#[global] Arguments rsplit_once _%_char _%_stdpp.
#[global] Arguments contains_char _%_char _%_stdpp.
#[global] Arguments replace_char _%_char _%_stdpp _%_stdpp.

(** ** Integers as text *)
Definition is_digit (a : ascii) : bool :=
  (48 <=? Z.of_nat (nat_of_ascii a)) && (Z.of_nat (nat_of_ascii a) <=? 57).

Definition digit_val (a : ascii) : Z := Z.of_nat (nat_of_ascii a) - 48.
Definition digit_char (d : Z) : ascii := ascii_of_nat (Z.to_nat (d + 48)).

(** Digits read left to right onto [acc]; [None] at a character that is no digit. *)
Fixpoint parse_digits (acc : Z) (s : string) : option Z :=
  match s with
  | EmptyString => Some acc
  | String a s => if is_digit a then parse_digits (10 * acc + digit_val a) s else None
  end.

Definition parse_nat (s : string) : option Z :=
  match s with EmptyString => None | _ => parse_digits 0 s end.

(** [s.parse::<T>()]: an optional [+], or [-] for a signed type, then one or
    more digits, with the value in the range of [T]. *)
Definition parse_int (t : ity) (s : string) : option Z :=
  let magnitude :=
    match s with
    | String "+" s => parse_nat s
    | String "-" s => if isigned t then Z.opp <$> parse_nat s else None
    | _ => parse_nat s
    end%char in
  magnitude ≫= checked t.

(** The decimal digits of [z >= 0] in front of [acc]. *)
Fixpoint show_digits (fuel : nat) (z : Z) (acc : string) : string :=
  match fuel with
  | O => acc
  | S fuel =>
    let acc := String (digit_char (z mod 10)) acc in
    if z <? 10 then acc else show_digits fuel (z / 10) acc
  end.

Definition show_nat (z : Z) : string := show_digits (S (Z.to_nat (Z.log2 z))) z "".

(** [z.to_string()]. *)
Definition show_int (z : Z) : string :=
  if z <? 0 then String "-" (show_nat (- z)) else show_nat z.

Fixpoint str_repeat (n : nat) (c : ascii) : string :=
  match n with O => "" | S n => String c (str_repeat n c) end.

(** A length in a message. *)
Definition show_count (n : nat) : string := show_nat (Z.of_nat n).

(** [{:0w}] of a non-negative number, and [{s:c<w}]. *)
Definition show_padded (w : nat) (z : Z) : string :=
  let s := show_nat z in str_repeat (w - str_len s) "0" +:+ s.

Definition pad_right (w : nat) (c : ascii) (s : string) : string :=
  s +:+ str_repeat (w - str_len s) c.

#[global] Arguments pad_right _%_nat _%_char _%_stdpp.

(** [Display] of a [Utf8Error]. *)
Definition show_utf8_error (e : utf8_error) : string :=
  match error_len e with
  | Some n => "invalid utf-8 sequence of " +:+ show_nat (Z.of_nat n)
              +:+ " bytes from index " +:+ show_nat (Z.of_nat (valid_up_to e))
  | None => "incomplete utf-8 byte sequence from index "
              +:+ show_nat (Z.of_nat (valid_up_to e))
  end.

(** [{:02x?}] of a byte slice. *)
Definition hex_char (d : Z) : ascii :=
  ascii_of_nat (Z.to_nat (if d <? 10 then d + 48 else d + 87)).

Definition show_hex_byte (b : byte) : string :=
  String (hex_char (byte_val b / 16)) (String (hex_char (byte_val b mod 16)) "").

Definition show_hex_bytes (bs : list byte) : string :=
  "[" +:+ join ", " (show_hex_byte <$> bs) +:+ "]".

(** ** Bytes of a string *)
Lemma str_of_as_bytes s : str_of_bytes (as_bytes s) = s.
Proof. apply String.string_of_list_byte_of_string. Qed.

Lemma as_bytes_of_str bs : as_bytes (str_of_bytes bs) = bs.
Proof. apply String.list_byte_of_string_of_list_byte. Qed.

Lemma str_app_cons a s1 s2 : String a s1 +:+ s2 = String a (s1 +:+ s2).
Proof. done. Qed.

Lemma str_app_nil_l s : "" +:+ s = s.
Proof. done. Qed.

Lemma str_app_char a s : String a "" +:+ s = String a s.
Proof. done. Qed.

Lemma as_bytes_app s1 s2 : as_bytes (s1 +:+ s2) = as_bytes s1 ++ as_bytes s2.
Proof.
  unfold as_bytes, String.list_byte_of_string.
  induction s1 as [|a s1 IH]; [done|]. rewrite str_app_cons. cbn. f_equal. exact IH.
Qed.

Lemma length_as_bytes s : length (as_bytes s) = str_len s.
Proof.
  unfold as_bytes, String.list_byte_of_string, str_len.
  induction s as [|a s IH]; [done|]. cbn. f_equal. exact IH.
Qed.

Lemma str_len_app s1 s2 : str_len (s1 +:+ s2) = (str_len s1 + str_len s2)%nat.
Proof. by rewrite <- !length_as_bytes, as_bytes_app, length_app. Qed.

Lemma str_app_assoc s1 s2 s3 : (s1 +:+ s2) +:+ s3 = s1 +:+ (s2 +:+ s3).
Proof. induction s1 as [|a s1 IH]; [done|]. rewrite !str_app_cons. f_equal. exact IH. Qed.

Lemma str_app_nil_r s : s +:+ "" = s.
Proof. induction s as [|a s IH]; [done|]. rewrite str_app_cons. f_equal. exact IH. Qed.

Lemma from_utf8_as_bytes s : valid_str s → from_utf8 (as_bytes s) = Ok s.
Proof. intros H. unfold from_utf8. by rewrite H, str_of_as_bytes. Qed.

(** A valid string is one that [from_utf8] produces. *)
Lemma from_utf8_valid bs s : from_utf8 bs = Ok s → as_bytes s = bs ∧ valid_str s.
Proof.
  unfold from_utf8. destruct (utf8_check 0 bs) eqn:E; [done|]. intros [= <-].
  unfold valid_str. by rewrite as_bytes_of_str.
Qed.

Lemma utf8_check_ascii i bs :
  Forall (λ b, byte_val b < 128) bs → utf8_check i bs = None.
Proof.
  intros H. revert i. induction H as [|b bs Hb _ IH]; intros i; cbn [utf8_check]; [done|].
  by rewrite (proj2 (Z.ltb_lt _ _) Hb).
Qed.

(** ** Characters *)
Lemma str_forall_app P s1 s2 :
  str_forall P (s1 +:+ s2) = str_forall P s1 && str_forall P s2.
Proof.
  induction s1 as [|a s1 IH]; [done|]. rewrite str_app_cons. cbn.
  by rewrite IH, andb_assoc.
Qed.

Lemma str_forall_impl (P Q : ascii → bool) s :
  (∀ a, P a = true → Q a = true) → str_forall P s = true → str_forall Q s = true.
Proof.
  intros HPQ. induction s as [|a s IH]; [done|]. cbn.
  rewrite !andb_true_iff. naive_solver.
Qed.

Lemma contains_char_app c s1 s2 :
  contains_char c (s1 +:+ s2) = contains_char c s1 || contains_char c s2.
Proof.
  induction s1 as [|a s1 IH]; [done|]. rewrite str_app_cons. cbn.
  by rewrite IH, orb_assoc.
Qed.

Lemma contains_char_forall c P s :
  P c = false → str_forall P s = true → contains_char c s = false.
Proof.
  intros Hc. induction s as [|a s IH]; [done|]. cbn. rewrite andb_true_iff.
  intros [Ha Hs]. rewrite IH by done.
  destruct (Ascii.eqb_spec a c) as [->|]; [congruence|done].
Qed.

(** ** Splitting *)
Lemma split_on_absent c s : contains_char c s = false → split_on c s = [s].
Proof.
  induction s as [|a s IH]; [done|]. cbn. rewrite orb_false_iff.
  intros [-> Hs]. by rewrite IH.
Qed.

Lemma split_on_cons c s1 s2 :
  contains_char c s1 = false → split_on c (s1 +:+ String c s2) = s1 :: split_on c s2.
Proof.
  induction s1 as [|a s1 IH]; intros Hc.
  - rewrite str_app_nil_l. cbn. by rewrite Ascii.eqb_refl.
  - cbn in Hc. apply orb_false_iff in Hc as [Ha Hc].
    rewrite str_app_cons. cbn. by rewrite Ha, IH.
Qed.

Lemma split_on_not_nil c s : split_on c s ≠ [].
Proof. destruct s as [|a s]; cbn; [done|]. repeat case_match; done. Qed.

(** The parts of a split contain no separator, and joining them gives [s] back. *)
Lemma split_on_parts c s : Forall (λ w, contains_char c w = false) (split_on c s).
Proof.
  induction s as [|a s IH]; cbn; [by repeat constructor|].
  destruct (Ascii.eqb_spec a c) as [->|Hne]; [by constructor|].
  destruct (split_on c s) as [|w ws]; [by repeat constructor; cbn; apply orb_false_iff; split; [apply Ascii.eqb_neq|]|].
  inversion_clear IH. constructor; [|done]. cbn. apply orb_false_iff.
  split; [by apply Ascii.eqb_neq|done].
Qed.

Lemma split_once_absent c s : contains_char c s = false → split_once c s = None.
Proof.
  induction s as [|a s IH]; [done|]. cbn. rewrite orb_false_iff. intros [-> Hs].
  by rewrite IH.
Qed.

Lemma split_once_cons c s1 s2 :
  contains_char c s1 = false → split_once c (s1 +:+ String c s2) = Some (s1, s2).
Proof.
  induction s1 as [|a s1 IH]; intros Hc.
  - rewrite str_app_nil_l. cbn. by rewrite Ascii.eqb_refl.
  - cbn in Hc. apply orb_false_iff in Hc as [Ha Hc].
    rewrite str_app_cons. cbn. by rewrite Ha, IH.
Qed.

Lemma split_once_None c s : split_once c s = None → contains_char c s = false.
Proof.
  induction s as [|a s IH]; [done|]. cbn. destruct (Ascii.eqb a c); [done|].
  destruct (split_once c s) as [[]|]; [done|]. by intros ->%IH.
Qed.

Lemma replace_char_app c r s1 s2 :
  replace_char c r (s1 +:+ s2) = replace_char c r s1 +:+ replace_char c r s2.
Proof.
  induction s1 as [|a s1 IH]; [done|]. rewrite str_app_cons. cbn [replace_char].
  by rewrite IH, str_app_assoc.
Qed.

Lemma replace_char_absent c r s : contains_char c s = false → replace_char c r s = s.
Proof.
  induction s as [|a s IH]; [done|]. cbn [contains_char replace_char].
  rewrite orb_false_iff. intros [Ha Hs]. by rewrite Ha, IH, str_app_char.
Qed.

Lemma split_once_Some c s l r :
  split_once c s = Some (l, r) → s = l +:+ String c r ∧ contains_char c l = false.
Proof.
  revert l. induction s as [|a s IH]; intros l; [done|]. cbn.
  destruct (Ascii.eqb_spec a c) as [->|Hne]; [by intros [= <- <-]|].
  destruct (split_once c s) as [[l' r']|]; [|done]. intros [= <- <-].
  destruct (IH _ eq_refl) as [-> Hl]. split; [done|]. cbn.
  apply orb_false_iff. split; [by apply Ascii.eqb_neq|done].
Qed.

Lemma strip_prefix_app p s : strip_prefix p (p +:+ s) = Some s.
Proof.
  induction p as [|a p IH]; [by destruct s|]. rewrite str_app_cons. cbn.
  by rewrite Ascii.eqb_refl.
Qed.

Lemma strip_prefix_Some p s r : strip_prefix p s = Some r → s = p +:+ r.
Proof.
  revert s. induction p as [|a p IH]; intros s; [by intros [= <-]|].
  destruct s as [|b s]; [done|]. cbn. destruct (Ascii.eqb_spec a b) as [->|]; [|done].
  intros ->%IH. done.
Qed.

(** ** Printing and parsing integers *)
Lemma nat_of_digit_char d : 0 ≤ d < 10 → nat_of_ascii (digit_char d) = Z.to_nat (d + 48).
Proof. intros. unfold digit_char. apply nat_ascii_embedding. lia. Qed.

Lemma digit_val_char d : 0 ≤ d < 10 → digit_val (digit_char d) = d.
Proof. intros. unfold digit_val. rewrite nat_of_digit_char by done. lia. Qed.

Lemma is_digit_char d : 0 ≤ d < 10 → is_digit (digit_char d) = true.
Proof.
  intros. unfold is_digit. rewrite nat_of_digit_char by done.
  apply andb_true_iff. rewrite !Z.leb_le. lia.
Qed.

Lemma digit_val_range a : is_digit a = true → 0 ≤ digit_val a ≤ 9.
Proof.
  unfold is_digit, digit_val. rewrite andb_true_iff, !Z.leb_le. lia.
Qed.

Lemma parse_digits_app acc s1 s2 :
  parse_digits acc (s1 +:+ s2) = parse_digits acc s1 ≫= λ acc, parse_digits acc s2.
Proof.
  revert acc. induction s1 as [|a s1 IH]; intros acc; [done|].
  rewrite str_app_cons. cbn. case_match; [apply IH|done].
Qed.

(** Appending a digit string: its value and the shift it makes. *)
Lemma parse_digits_shift acc s v :
  parse_digits 0 s = Some v →
  parse_digits acc s = Some (acc * 10 ^ Z.of_nat (str_len s) + v).
Proof.
  assert (∀ s acc, parse_digits acc s =
    (λ v, acc * 10 ^ Z.of_nat (str_len s) + v) <$> parse_digits 0 s) as Hgen.
  { clear. induction s as [|a s IH]; intros acc; cbn [parse_digits].
    - cbn. f_equal. lia.
    - destruct (is_digit a); [|done].
      rewrite (IH (10 * acc + digit_val a)), (IH (10 * 0 + digit_val a)). destruct (parse_digits 0 s); [|done]. cbn [fmap option_fmap option_map]. f_equal.
      change (str_len (String a s)) with (S (str_len s)).
      rewrite Nat2Z.inj_succ, Z.pow_succ_r by lia. lia. }
  intros H. by rewrite Hgen, H.
Qed.

Lemma show_digits_spec fuel z acc :
  0 ≤ z < 2 ^ Z.of_nat fuel →
  ∃ s, show_digits fuel z acc = s +:+ acc ∧ parse_digits 0 s = Some z ∧
       (fuel ≠ 0%nat → s ≠ ""%string) ∧ str_forall is_digit s = true.
Proof.
  revert z acc. induction fuel as [|fuel IH]; intros z acc Hz.
  { exists ""%string. rewrite Z.pow_0_r in Hz. repeat split; [|done].
    cbn. f_equal. lia. }
  pose proof (Z.mod_pos_bound z 10 ltac:(lia)) as Hm. cbn [show_digits].
  destruct (Z.ltb_spec z 10).
  - exists (String (digit_char (z mod 10)) ""). repeat split; [|done|].
    + cbn. rewrite is_digit_char, digit_val_char by done.
      f_equal. rewrite Z.mod_small; lia.
    + cbn. by rewrite is_digit_char.
  - rewrite Nat2Z.inj_succ, Z.pow_succ_r in Hz by lia.
    destruct (IH (z / 10) (String (digit_char (z mod 10)) acc)) as (s & Hs & Hp & _ & Hd).
    { split; [apply Z.div_pos; lia|]. apply Z.div_lt_upper_bound; lia. }
    exists (s +:+ String (digit_char (z mod 10)) ""). rewrite Hs. repeat split.
    + by rewrite str_app_assoc.
    + rewrite parse_digits_app, Hp. cbn.
      rewrite is_digit_char, digit_val_char by done. f_equal.
      pose proof (Z.div_mod z 10). lia.
    + by destruct s.
    + rewrite str_forall_app, Hd. cbn. by rewrite is_digit_char.
Qed.

Lemma show_nat_spec z :
  0 ≤ z → parse_digits 0 (show_nat z) = Some z ∧ show_nat z ≠ ""%string ∧
          str_forall is_digit (show_nat z) = true.
Proof.
  intros Hz. unfold show_nat.
  destruct (show_digits_spec (S (Z.to_nat (Z.log2 z))) z "") as (s & -> & Hp & Hne & Hd).
  - split; [done|]. rewrite Nat2Z.inj_succ, Z2Nat.id by apply Z.log2_nonneg.
    destruct (decide (z = 0)) as [->|]; [done|]. apply Z.log2_spec. lia.
  - rewrite str_app_nil_r. repeat split; [done|by apply Hne|done].
Qed.

Lemma str_repeat_zeros n acc s :
  parse_digits 0 s = Some acc → parse_digits 0 (str_repeat n "0" +:+ s) = Some acc.
Proof. induction n as [|n IH]; [done|]. intros H. rewrite <- (IH H). done. Qed.

Lemma str_forall_repeat P n c : P c = true → str_forall P (str_repeat n c) = true.
Proof. intros Hc. induction n as [|n IH]; [done|]. cbn. by rewrite Hc. Qed.

Lemma str_len_repeat n c : str_len (str_repeat n c) = n.
Proof. induction n as [|n IH]; [done|]. cbn. f_equal. exact IH. Qed.

(** Zero-padded digits read back as the number. *)
Lemma show_padded_spec w z :
  0 ≤ z → parse_digits 0 (show_padded w z) = Some z ∧ show_padded w z ≠ ""%string ∧
          str_forall is_digit (show_padded w z) = true.
Proof.
  intros Hz. destruct (show_nat_spec z Hz) as (Hp & Hne & Hd). unfold show_padded.
  repeat split.
  - by apply str_repeat_zeros.
  - destruct (w - str_len (show_nat z))%nat; [done|discriminate].
  - by rewrite str_forall_app, Hd, str_forall_repeat.
Qed.

(** A digit string parses as a type whose range holds its value. *)
Lemma parse_int_digits t s z :
  s ≠ ""%string → str_forall is_digit s = true → parse_digits 0 s = Some z →
  parse_int t s = checked t z.
Proof.
  intros Hne Hd Hp. unfold parse_int. destruct s as [|a s]; [done|].
  cbn in Hd. apply andb_true_iff in Hd as [Ha _].
  assert (parse_nat (String a s) = Some z) as Hn by done.
  destruct (Ascii.eqb_spec a "+") as [->|H1]; [done|].
  destruct (Ascii.eqb_spec a "-") as [->|H2]; [done|].
  replace (match String a s with
    | String "+" s0 => parse_nat s0
    | String "-" s0 => if isigned t then Z.opp <$> parse_nat s0 else None
    | _ => parse_nat (String a s) end)%char with (parse_nat (String a s)).
  { by rewrite Hn. }
  clear Hn. destruct a as [[] [] [] [] [] [] [] []]; done.
Qed.

Lemma parse_int_show_padded t w z :
  0 ≤ z → in_range t z → parse_int t (show_padded w z) = Some z.
Proof.
  intros Hz Hr. destruct (show_padded_spec w z Hz) as (? & ? & ?).
  by rewrite (parse_int_digits t _ z), checked_in.
Qed.

Lemma parse_int_show_nat t z : 0 ≤ z → in_range t z → parse_int t (show_nat z) = Some z.
Proof.
  intros Hz Hr. destruct (show_nat_spec z Hz) as (? & ? & ?).
  by rewrite (parse_int_digits t _ z), checked_in.
Qed.

(** [z.to_string().parse::<T>() == Ok(z)] for every value of [T]. *)
Lemma parse_int_show_int t z : in_range t z → parse_int t (show_int z) = Some z.
Proof.
  intros Hr. unfold show_int. destruct (Z.ltb_spec z 0); [|by apply parse_int_show_nat].
  destruct (show_nat_spec (- z)) as (Hp & Hne & _); [lia|].
  assert (isigned t = true) as Hs by (revert Hr; destruct t; cbn; range).
  unfold parse_int. rewrite Hs. unfold parse_nat.
  destruct (show_nat (- z)) as [|a s]; [done|]. rewrite Hp. cbn.
  rewrite Z.opp_involutive. by apply checked_in.
Qed.

Lemma digit_not c a : is_digit c = false → is_digit a = true → Ascii.eqb a c = false.
Proof. intros Hc Ha. apply Ascii.eqb_neq. congruence. Qed.

Lemma digits_no_char c s :
  is_digit c = false → str_forall is_digit s = true → contains_char c s = false.
Proof. apply contains_char_forall. Qed.

Lemma show_nat_no_char c z :
  is_digit c = false → 0 ≤ z → contains_char c (show_nat z) = false.
Proof. intros Hc Hz. apply digits_no_char; [done|]. by apply show_nat_spec. Qed.

Lemma show_padded_no_char c w z :
  is_digit c = false → 0 ≤ z → contains_char c (show_padded w z) = false.
Proof. intros Hc Hz. apply digits_no_char; [done|]. by apply show_padded_spec. Qed.

(** A number below [10^w] has at most [w] digits, and exactly [w] when padded. *)
Lemma str_len_show_digits fuel z acc w :
  0 ≤ z < 10 ^ Z.of_nat w → (1 ≤ w)%nat →
  (str_len (show_digits fuel z acc) ≤ w + str_len acc)%nat.
Proof.
  revert z acc w. induction fuel as [|fuel IH]; intros z acc w Hz Hw; cbn [show_digits].
  { lia. }
  change (str_len (String ?a ?s)) with (S (str_len s)) in *.
  case_match; [cbn; unfold str_len in *; lia|].
  destruct w as [|[|w]]; [lia|change (10 ^ Z.of_nat 1) with 10 in Hz; lia|].
  etrans; [apply (IH _ _ (S w)); [|lia]|].
  - rewrite Nat2Z.inj_succ, Z.pow_succ_r in Hz by lia.
    split; [apply Z.div_pos; lia|]. apply Z.div_lt_upper_bound; lia.
  - change (str_len (String ?a acc)) with (S (str_len acc)). lia.
Qed.

Lemma str_len_show_nat z w :
  0 ≤ z < 10 ^ Z.of_nat w → (1 ≤ w)%nat → (1 ≤ str_len (show_nat z) ≤ w)%nat.
Proof.
  intros Hz Hw. split.
  - destruct (show_nat_spec z) as (_ & Hne & _); [lia|].
    destruct (show_nat z); [done|cbn; lia].
  - unfold show_nat. etrans; [by apply str_len_show_digits|]. cbn. lia.
Qed.

Lemma str_len_show_padded z w :
  0 ≤ z < 10 ^ Z.of_nat w → (1 ≤ w)%nat → str_len (show_padded w z) = w.
Proof.
  intros Hz Hw. pose proof (str_len_show_nat z w Hz Hw). unfold show_padded.
  rewrite str_len_app, str_len_repeat. lia.
Qed.

(** ** Slices of digit strings *)
Lemma is_digit_not_cont a : is_digit a = true → is_cont (byte_of_ascii a) = false.
Proof. destruct a as [[] [] [] [] [] [] [] []]; done. Qed.

Lemma parse_digits_none acc s : parse_digits 0 s = None → parse_digits acc s = None.
Proof.
  revert acc. induction s as [|b s IH]; intros acc; [done|]. cbn [parse_digits].
  destruct (is_digit b); [|done]. intros Hs.
  destruct (parse_digits 0 s) as [w|] eqn:E; [|by apply IH].
  by rewrite (parse_digits_shift _ s w) in Hs.
Qed.

Lemma parse_digits_bound s v :
  parse_digits 0 s = Some v → 0 ≤ v < 10 ^ Z.of_nat (str_len s).
Proof.
  revert v. induction s as [|a s IH]; intros v; cbn [parse_digits]; [intros [= <-]; done|].
  destruct (is_digit a) eqn:Ha; [|done]. apply digit_val_range in Ha.
  destruct (parse_digits 0 s) as [w|] eqn:E.
  - rewrite (parse_digits_shift _ s w) by done. intros [= <-].
    specialize (IH w eq_refl). change (str_len (String a s)) with (S (str_len s)).
    rewrite Nat2Z.inj_succ, Z.pow_succ_r by lia. nia.
  - by rewrite parse_digits_none.
Qed.

Lemma str_slice_to_digits {E} n s :
  str_forall is_digit s = true → (n ≤ str_len s)%nat →
  str_slice_to (E := E) n s = Ok (str_take n s) ∧ str_forall is_digit (str_take n s) = true ∧
  str_len (str_take n s) = n ∧
  ∃ r, s = str_take n s +:+ r ∧ str_len r = (str_len s - n)%nat ∧ str_forall is_digit r = true.
Proof.
  intros Hd Hn. assert (is_char_boundary s n = true ∧ str_forall is_digit (str_take n s) = true ∧
    str_len (str_take n s) = n ∧
    ∃ r, s = str_take n s +:+ r ∧ str_len r = (str_len s - n)%nat ∧ str_forall is_digit r = true)
    as (Hb & ?); [|unfold str_slice_to; by rewrite Hb].
  unfold is_char_boundary, str_take, str_len in *.
  revert s Hd Hn. induction n as [|n IH]; intros s Hd Hn.
  - destruct s as [|a s]; [by eauto 10|]. cbn in Hd. apply andb_true_iff in Hd as [Ha Hd].
    cbn. rewrite is_digit_not_cont by done. split; [done|]. split; [done|]. split; [done|].
    exists (String a s). rewrite str_app_nil_l. cbn. by rewrite Ha, Hd.
  - destruct s as [|a s]; [cbn in Hn; lia|]. cbn in Hd, Hn.
    apply andb_true_iff in Hd as [Ha Hd].
    destruct (IH s Hd ltac:(lia)) as (Hb & Ht & Hl & r & Hr & Hrl & Hrd).
    cbn. rewrite Ha, Ht, Hl. split; [exact Hb|]. split; [done|]. split; [done|].
    exists r. rewrite str_app_cons. split; [by f_equal|done].
Qed.

(** The value of a prefix of a digit string is its value with the last digits cut. *)
Lemma parse_digits_take n s v :
  parse_digits 0 s = Some v → str_forall is_digit s = true → (n ≤ str_len s)%nat →
  parse_digits 0 (str_take n s) = Some (v / 10 ^ Z.of_nat (str_len s - n)).
Proof.
  intros Hv Hd Hn.
  destruct (str_slice_to_digits (E := unit) n s Hd Hn) as (_ & _ & _ & r & Hr & Hl & _).
  rewrite Hr, parse_digits_app in Hv.
  destruct (parse_digits 0 (str_take n s)) as [p|]; [|done]. cbn in Hv.
  rewrite <- Hl. destruct (parse_digits 0 r) as [q|] eqn:Eq.
  - rewrite (parse_digits_shift _ r q) in Hv by done. injection Hv as <-.
    apply parse_digits_bound in Eq. f_equal.
    rewrite Z.div_add_l, Z.div_small; lia.
  - by rewrite parse_digits_none in Hv.
Qed.

Lemma parse_digits_all acc s v : parse_digits acc s = Some v → str_forall is_digit s = true.
Proof.
  revert acc. induction s as [|a s IH]; intros acc; [done|]. cbn [parse_digits str_forall].
  destruct (is_digit a); [|done]. apply IH.
Qed.
