(* ===== verification/StrText.v ===== *)
(** * Text operations

    The [str] methods of the standard library that the URI, SQL and type-name
    code uses: searching, slicing, trimming and case mapping. Case mapping of
    ASCII text is defined; the Unicode tables beyond ASCII are the class
    [UnicodeCase]. Then the
    SQL tokens the statement builders write: quoted strings and identifiers, and their
    readers. *)
From S2P Require Import Prelude MachineInt RustStr.
From Stdlib Require Import Ascii.

#[local] Open Scope Z_scope.

(** ** Searching *)
Definition str_rev (s : string) : string :=
  String.string_of_list_ascii (reverse (String.list_ascii_of_string s)).

Definition strip_suffix (p s : string) : option string :=
  str_rev <$> strip_prefix (str_rev p) (str_rev s).

Definition ends_with (p s : string) : bool :=
  match strip_prefix (str_rev p) (str_rev s) with Some _ => true | None => false end.

(** [s.contains(p)]. *)
Fixpoint contains_str (p s : string) : bool :=
  starts_with p s ||
  match s with EmptyString => false | String _ s => contains_str p s end.

(** [s.find(c)] and [s.rfind(c)], byte positions. *)
Fixpoint find_char (c : ascii) (s : string) : option nat :=
  match s with
  | EmptyString => None
  | String a s => if Ascii.eqb a c then Some 0%nat else S <$> find_char c s
  end.

Fixpoint rfind_char (c : ascii) (s : string) : option nat :=
  match s with
  | EmptyString => None
  | String a s =>
    match rfind_char c s with
    | Some i => Some (S i)
    | None => if Ascii.eqb a c then Some 0%nat else None
    end
  end.

#[global] Arguments find_char _%_char _%_stdpp.
#[global] Arguments rfind_char _%_char _%_stdpp.

(** [&s[a..b]] and [&s[a..]], which panic out of order or off a boundary. *)
Definition str_slice {E} (a b : nat) (s : string) : outcome E string :=
  if (a <=? b)%nat && is_char_boundary s a && is_char_boundary s b
  then Ok (String.substring a (b - a) s) else Panic.

Definition str_slice_from {E} (a : nat) (s : string) : outcome E string :=
  str_slice a (str_len s) s.

(** ** Characters *)
(** [s.chars()]: a character is a byte and the continuation bytes behind it. *)
Definition starts_cont (s : string) : bool :=
  match s with String a _ => is_cont (byte_of_ascii a) | EmptyString => false end.

Fixpoint chars (s : string) : list string :=
  match s with
  | EmptyString => []
  | String a r =>
    match chars r with
    | c :: cs => if starts_cont c then String a c :: cs else String a "" :: c :: cs
    | [] => [String a ""]
    end
  end.

(** [s.find(p)] of a text, a byte position. *)
Fixpoint find_str (p s : string) : option nat :=
  if starts_with p s then Some 0%nat
  else match s with EmptyString => None | String _ s => S <$> find_str p s end.

(** ** White space *)

(** The UTF-8 text of the characters with the Unicode property [White_Space]. *)
Definition white_space : list string :=
  (λ bs, str_of_bytes (byte_of <$> bs)) <$>
  [[9]; [10]; [11]; [12]; [13]; [32]; [194; 133]; [194; 160]; [225; 154; 128];
   [226; 128; 128]; [226; 128; 129]; [226; 128; 130]; [226; 128; 131]; [226; 128; 132];
   [226; 128; 133]; [226; 128; 134]; [226; 128; 135]; [226; 128; 136]; [226; 128; 137];
   [226; 128; 138]; [226; 128; 168]; [226; 128; 169]; [226; 128; 175]; [226; 129; 159];
   [227; 128; 128]].

(** The text after the first of [prefixes] that [s] starts with. *)
Fixpoint strip_any (prefixes : list string) (s : string) : option string :=
  match prefixes with
  | [] => None
  | p :: ps => match strip_prefix p s with Some r => Some r | None => strip_any ps s end
  end.

Fixpoint strip_all (fuel : nat) (prefixes : list string) (s : string) : string :=
  match fuel with
  | O => s
  | S fuel => match strip_any prefixes s with
              | Some r => strip_all fuel prefixes r
              | None => s
              end
  end.

Definition trim_start (s : string) : string := strip_all (str_len s) white_space s.
Definition trim_end (s : string) : string :=
  str_rev (strip_all (str_len s) (str_rev <$> white_space) (str_rev s)).

(** [s.trim()]. *)
Definition trim (s : string) : string := trim_end (trim_start s).

(** ** Case *)
Definition ascii_code (a : ascii) : Z := Z.of_nat (nat_of_ascii a).
Definition is_ascii_char (a : ascii) : bool := ascii_code a <? 128.
Definition is_ascii_upper (a : ascii) : bool := (65 <=? ascii_code a) && (ascii_code a <=? 90).
Definition is_ascii_lower (a : ascii) : bool := (97 <=? ascii_code a) && (ascii_code a <=? 122).
Definition is_ascii_alphabetic (a : ascii) : bool := is_ascii_upper a || is_ascii_lower a.
Definition is_ascii_alphanumeric (a : ascii) : bool := is_ascii_alphabetic a || is_digit a.

Definition upper_char (a : ascii) : ascii :=
  if is_ascii_lower a then ascii_of_nat (nat_of_ascii a - 32) else a.
Definition lower_char (a : ascii) : ascii :=
  if is_ascii_upper a then ascii_of_nat (nat_of_ascii a + 32) else a.

Fixpoint str_map (f : ascii → ascii) (s : string) : string :=
  match s with EmptyString => "" | String a s => String (f a) (str_map f s) end.

(** [to_ascii_uppercase], [to_ascii_lowercase] and [eq_ignore_ascii_case]. *)
Definition to_ascii_uppercase : string → string := str_map upper_char.
Definition to_ascii_lowercase : string → string := str_map lower_char.
Definition eq_ignore_ascii_case (s1 s2 : string) : bool :=
  bool_decide (to_ascii_lowercase s1 = to_ascii_lowercase s2).

(** The Unicode case tables, used for text that is not ASCII. *)
Class UnicodeCase := {
  unicode_uppercase : string → string;
  unicode_lowercase : string → string;
}.

(** [to_uppercase] and [to_lowercase]. *)
Definition to_uppercase `{UnicodeCase} (s : string) : string :=
  if str_forall is_ascii_char s then to_ascii_uppercase s else unicode_uppercase s.
Definition to_lowercase `{UnicodeCase} (s : string) : string :=
  if str_forall is_ascii_char s then to_ascii_lowercase s else unicode_lowercase s.

(** ** Lemmas *)
Lemma list_ascii_app s1 s2 :
  String.list_ascii_of_string (s1 +:+ s2)
  = String.list_ascii_of_string s1 ++ String.list_ascii_of_string s2.
Proof. induction s1 as [|a s1 IH]; [done|]. rewrite str_app_cons. cbn. by rewrite IH. Qed.

Lemma string_of_list_app l1 l2 :
  String.string_of_list_ascii (l1 ++ l2)
  = String.string_of_list_ascii l1 +:+ String.string_of_list_ascii l2.
Proof. induction l1 as [|a l1 IH]; [done|]. cbn. rewrite str_app_cons. by rewrite IH. Qed.

Lemma str_rev_app s1 s2 : str_rev (s1 +:+ s2) = str_rev s2 +:+ str_rev s1.
Proof. unfold str_rev. by rewrite list_ascii_app, reverse_app, string_of_list_app. Qed.

Lemma str_rev_involutive s : str_rev (str_rev s) = s.
Proof.
  unfold str_rev. rewrite String.list_ascii_of_string_of_list_ascii, reverse_involutive.
  apply String.string_of_list_ascii_of_string.
Qed.

Lemma ends_with_app p s : ends_with p (s +:+ p) = true.
Proof. unfold ends_with. by rewrite str_rev_app, strip_prefix_app. Qed.

Lemma strip_suffix_app p s : strip_suffix p (s +:+ p) = Some s.
Proof.
  unfold strip_suffix. rewrite str_rev_app, strip_prefix_app. cbn.
  by rewrite str_rev_involutive.
Qed.

Lemma starts_with_app p s : starts_with p (p +:+ s) = true.
Proof. unfold starts_with. by rewrite strip_prefix_app. Qed.

Lemma find_char_app c s1 s2 :
  contains_char c s1 = false → find_char c (s1 +:+ String c s2) = Some (str_len s1).
Proof.
  induction s1 as [|a s1 IH]; intros Hc.
  - rewrite str_app_nil_l. cbn. by rewrite Ascii.eqb_refl.
  - cbn in Hc. apply orb_false_iff in Hc as [Ha Hc]. rewrite str_app_cons. cbn [find_char].
    by rewrite Ha, IH.
Qed.

Lemma rfind_char_absent c s : contains_char c s = false → rfind_char c s = None.
Proof.
  induction s as [|a s IH]; [done|]. cbn. rewrite orb_false_iff. intros [Ha Hs].
  by rewrite IH, Ha.
Qed.

Lemma rfind_char_app c s1 s2 :
  contains_char c s2 = false → rfind_char c (s1 +:+ String c s2) = Some (str_len s1).
Proof.
  intros Hc. induction s1 as [|a s1 IH].
  - rewrite str_app_nil_l. cbn. by rewrite rfind_char_absent, Ascii.eqb_refl.
  - rewrite str_app_cons. cbn [rfind_char]. by rewrite IH.
Qed.

Lemma substring_app s1 s2 s3 :
  String.substring (str_len s1) (str_len s2) (s1 +:+ s2 +:+ s3) = s2.
Proof.
  induction s1 as [|a s1 IH].
  - rewrite str_app_nil_l. induction s2 as [|b s2 IH].
    + rewrite str_app_nil_l. by destruct s3.
    + rewrite str_app_cons. cbn. f_equal. exact IH.
  - rewrite str_app_cons. exact IH.
Qed.

(** ASCII text has a boundary everywhere. *)
Lemma ascii_not_cont a : is_ascii_char a = true → is_cont (byte_of_ascii a) = false.
Proof. destruct a as [[] [] [] [] [] [] [] []]; done. Qed.

Lemma ascii_boundary s i :
  str_forall is_ascii_char s = true → (i ≤ str_len s)%nat → is_char_boundary s i = true.
Proof.
  unfold is_char_boundary, str_len. revert i.
  induction s as [|a s IH]; intros i Hs Hi; [by destruct i; [|cbn in Hi; lia]|].
  cbn in Hs. apply andb_true_iff in Hs as [Ha Hs]. destruct i as [|i].
  - cbn. by rewrite ascii_not_cont.
  - cbn in Hi. specialize (IH i Hs ltac:(lia)). cbn. exact IH.
Qed.

Lemma str_slice_app {E} s1 s2 s3 :
  str_forall is_ascii_char (s1 +:+ s2 +:+ s3) = true →
  str_slice (E := E) (str_len s1) (str_len s1 + str_len s2) (s1 +:+ s2 +:+ s3) = Ok s2.
Proof.
  intros Ha. unfold str_slice.
  rewrite !ascii_boundary by (done || (rewrite !str_len_app; lia)).
  rewrite (proj2 (Nat.leb_le _ _)) by lia. cbn [andb].
  replace (str_len s1 + str_len s2 - str_len s1)%nat with (str_len s2) by lia.
  by rewrite substring_app.
Qed.

(** Trimming text that begins and ends with a visible ASCII character. *)
Definition is_graphic (a : ascii) : bool := (33 <=? ascii_code a) && (ascii_code a <=? 126).

Lemma strip_prefix_head a b p s :
  Ascii.eqb b a = false → strip_prefix (String b p) (String a s) = None.
Proof. intros H. cbn. by rewrite H. Qed.

Lemma strip_ws_graphic (rev : bool) a s :
  is_graphic a = true →
  strip_any (if rev then str_rev <$> white_space else white_space) (String a s) = None.
Proof.
  intros Ha.
  destruct rev; destruct a as [[] [] [] [] [] [] [] []]; try done; vm_compute; reflexivity.
Qed.

Lemma strip_all_graphic fuel (rev : bool) a s :
  is_graphic a = true →
  strip_all fuel (if rev then str_rev <$> white_space else white_space) (String a s)
  = String a s.
Proof. intros Ha. destruct fuel; [done|]. cbn [strip_all]. by rewrite strip_ws_graphic. Qed.

(** Text whose first and last character is visible. *)
Definition graphic_head (s : string) : bool :=
  match s with String a _ => is_graphic a | EmptyString => true end.
Definition graphic_ends (s : string) : bool := graphic_head s && graphic_head (str_rev s).

Lemma strip_all_graphic_head fuel (rev : bool) s :
  graphic_head s = true →
  strip_all fuel (if rev then str_rev <$> white_space else white_space) s = s.
Proof.
  destruct s as [|a s]; [|apply strip_all_graphic]. intros _.
  by destruct fuel; [|destruct rev].
Qed.

Lemma trim_graphic s : graphic_ends s = true → trim s = s.
Proof.
  unfold graphic_ends, trim, trim_end, trim_start. rewrite andb_true_iff. intros [H1 H2].
  rewrite (strip_all_graphic_head _ false), (strip_all_graphic_head _ true) by done.
  apply str_rev_involutive.
Qed.

Lemma str_rev_not_nil s : s ≠ ""%string → str_rev s ≠ ""%string.
Proof.
  intros Hs E. apply (f_equal str_rev) in E. by rewrite str_rev_involutive in E.
Qed.

Lemma str_forall_rev P s : str_forall P s = true → str_forall P (str_rev s) = true.
Proof.
  induction s as [|a s IH]; [done|]. cbn [str_forall]. rewrite andb_true_iff. intros [Ha Hs].
  change (String a s) with (String a "" +:+ s).
  rewrite str_rev_app, str_forall_app, IH by done. cbn. by rewrite Ha.
Qed.

Lemma graphic_head_app s1 s2 :
  s1 ≠ ""%string → str_forall is_graphic s1 = true → graphic_head (s1 +:+ s2) = true.
Proof.
  destruct s1 as [|a s1]; [done|]. intros _. rewrite str_app_cons. cbn [str_forall graphic_head].
  rewrite andb_true_iff. by intros [? _].
Qed.

Lemma graphic_ends_forall s : str_forall is_graphic s = true → graphic_ends s = true.
Proof.
  intros H. unfold graphic_ends. pose proof (str_forall_rev _ _ H) as H'.
  destruct s as [|a s]; [done|]. cbn [graphic_head str_forall] in *.
  apply andb_true_iff in H as [-> _]. destruct (str_rev _) as [|b r]; [done|].
  cbn [graphic_head str_forall] in *. by apply andb_true_iff in H' as [-> _].
Qed.

Lemma graphic_ends_app s1 s2 s3 :
  s1 ≠ ""%string → s3 ≠ ""%string →
  str_forall is_graphic s1 = true → str_forall is_graphic s3 = true →
  graphic_ends (s1 +:+ s2 +:+ s3) = true.
Proof.
  intros Hn1 Hn3 H1 H3. unfold graphic_ends. rewrite graphic_head_app by done.
  rewrite !str_rev_app, str_app_assoc, graphic_head_app; [done| |].
  - by apply str_rev_not_nil.
  - by apply str_forall_rev.
Qed.

Lemma digit_graphic a : is_digit a = true → is_graphic a = true.
Proof. destruct a as [[] [] [] [] [] [] [] []]; done. Qed.

Lemma digit_ascii a : is_digit a = true → is_ascii_char a = true.
Proof. destruct a as [[] [] [] [] [] [] [] []]; done. Qed.

(** ** Case *)
Lemma str_map_app f s1 s2 : str_map f (s1 +:+ s2) = str_map f s1 +:+ str_map f s2.
Proof. induction s1 as [|a s1 IH]; [done|]. rewrite str_app_cons. cbn [str_map]. by rewrite IH. Qed.

Lemma str_map_id f s : str_forall (λ a, Ascii.eqb (f a) a) s = true → str_map f s = s.
Proof.
  induction s as [|a s IH]; [done|]. cbn. rewrite andb_true_iff.
  intros [Ha%Ascii.eqb_eq Hs]. by rewrite Ha, IH.
Qed.

(** ASCII text without lower-case letters is its own upper case. *)
Lemma to_uppercase_id `{UnicodeCase} s :
  str_forall is_ascii_char s = true →
  str_forall (λ a, negb (is_ascii_lower a)) s = true → to_uppercase s = s.
Proof.
  intros Ha Hl. unfold to_uppercase. rewrite Ha. apply str_map_id.
  eapply str_forall_impl; [|exact Hl]. intros a. cbn. unfold upper_char.
  destruct (is_ascii_lower a); [done|]. intros _. apply Ascii.eqb_refl.
Qed.

(** ** Quoted SQL tokens *)
Definition dquote : ascii := ascii_of_nat 34.
Definition squote : ascii := ascii_of_nat 39.

(** A character that begins no quoted text of [q]: end of text, or another. *)
Definition not_quote_head (q : ascii) (s : string) : bool :=
  match s with String a _ => negb (Ascii.eqb a q) | EmptyString => true end.

(** Read a quoted text after its opening delimiter: the content and the rest. *)
Fixpoint read_quoted_body (q : ascii) (s : string) : option (string * string) :=
  match s with
  | EmptyString => None
  | String a s' =>
    if Ascii.eqb a q then
      match s' with
      | String b s'' =>
        if Ascii.eqb b q then
          match read_quoted_body q s'' with
          | Some (c, r) => Some (String q c, r)
          | None => None
          end
        else Some (""%string, s')
      | EmptyString => Some (""%string, s')
      end
    else match read_quoted_body q s' with
         | Some (c, r) => Some (String a c, r)
         | None => None
         end
  end.

Definition read_quoted (q : ascii) (s : string) : option (string * string) :=
  match s with
  | String a s => if Ascii.eqb a q then read_quoted_body q s else None
  | EmptyString => None
  end.

(** [s.replace(q, qq)] between two [q]. *)
Definition quoted (q : ascii) (s : string) : string :=
  String q (replace_char q (String q (String q "")) s +:+ String q "").

(** What is quoted is read back, and reading stops at its end. *)
Lemma read_quoted_quoted q s r :
  not_quote_head q r = true → read_quoted q (quoted q s +:+ r) = Some (s, r).
Proof.
  intros Hr. unfold read_quoted, quoted. rewrite str_app_cons, Ascii.eqb_refl.
  induction s as [|a s IH].
  - cbn [replace_char]. rewrite str_app_nil_l, str_app_char. cbn [read_quoted_body].
    rewrite Ascii.eqb_refl. destruct r as [|b r]; [done|]. cbn in Hr.
    apply negb_true_iff in Hr. by rewrite Hr.
  - cbn [replace_char]. destruct (Ascii.eqb_spec a q) as [->|Hne].
    + rewrite !str_app_cons, str_app_nil_l. cbn [read_quoted_body].
      rewrite !Ascii.eqb_refl. by rewrite IH.
    + rewrite str_app_char, !str_app_cons. cbn [read_quoted_body].
      rewrite (proj2 (Ascii.eqb_neq _ _)) by done. by rewrite IH.
Qed.

Lemma quoted_inj q s1 s2 : quoted q s1 = quoted q s2 → s1 = s2.
Proof.
  intros H. pose proof (read_quoted_quoted q s1 "" eq_refl) as H1.
  rewrite H, read_quoted_quoted in H1 by done. by injection H1.
Qed.
