(* ===== verification/Constants.v ===== *)
(** * Constants of the native protocol

    [transport/native/constants.rs]: the login constants, command codes, result
    part types, attribute identifiers and wire type identifiers. *)
From S2P Require Import Prelude.

#[local] Open Scope Z_scope.

(* code: transport/native/constants.rs 1-2 LOGIN_MAGIC *)
Definition LOGIN_MAGIC : Z := 17961473.
(* code: transport/native/constants.rs 4-5 PROTOCOL_VERSION *)
Definition PROTOCOL_VERSION : Z := 21.
(* code: transport/native/constants.rs 7-8 MIN_PROTOCOL_VERSION *)
Definition MIN_PROTOCOL_VERSION : Z := 14.
(* code: transport/native/constants.rs 10-11 CHANGE_DATE *)
Definition CHANGE_DATE : Z := 200131112.
(* code: transport/native/constants.rs 13-14 CMD_CREATE_PREPARED *)
Definition CMD_CREATE_PREPARED : Z := 10.
(* code: transport/native/constants.rs 16-17 CMD_EXECUTE_PREPARED *)
Definition CMD_EXECUTE_PREPARED : Z := 11.
(* code: transport/native/constants.rs 19-20 CMD_EXECUTE *)
Definition CMD_EXECUTE : Z := 12.
(* code: transport/native/constants.rs 22-23 CMD_CLOSE_RESULTSET *)
Definition CMD_CLOSE_RESULTSET : Z := 13.
(* code: transport/native/constants.rs 25-26 CMD_CLOSE_PREPARED *)
Definition CMD_CLOSE_PREPARED : Z := 18.
(* code: transport/native/constants.rs 28-29 CMD_DISCONNECT *)
Definition CMD_DISCONNECT : Z := 32.
(* code: transport/native/constants.rs 31-32 CMD_GET_ATTRIBUTES *)
Definition CMD_GET_ATTRIBUTES : Z := 34.
(* code: transport/native/constants.rs 34-35 CMD_SET_ATTRIBUTES *)
Definition CMD_SET_ATTRIBUTES : Z := 35.
(* code: transport/native/constants.rs 37-38 CMD_FETCH2 *)
Definition CMD_FETCH2 : Z := 36.
(* code: transport/native/constants.rs 40-41 R_ROW_COUNT *)
Definition R_ROW_COUNT : Z := 0.
(* code: transport/native/constants.rs 43-44 R_RESULT_SET *)
Definition R_RESULT_SET : Z := 1.
(* code: transport/native/constants.rs 46-47 R_HANDLE *)
Definition R_HANDLE : Z := 2.
(* code: transport/native/constants.rs 49-50 R_COLUMN_COUNT *)
Definition R_COLUMN_COUNT : Z := 3.
(* code: transport/native/constants.rs 52-53 R_WARNING *)
Definition R_WARNING : Z := 4.
(* code: transport/native/constants.rs 55-56 R_STILL_EXECUTING *)
Definition R_STILL_EXECUTING : Z := 5.
(* code: transport/native/constants.rs 58-59 R_MORE_ROWS *)
Definition R_MORE_ROWS : Z := 6.
(* code: transport/native/constants.rs 61-62 R_EXCEPTION *)
Definition R_EXCEPTION : Z := -1.
(* code: transport/native/constants.rs 64-65 R_EMPTY *)
Definition R_EMPTY : Z := -2.
(* code: transport/native/constants.rs 67-68 SMALL_RESULTSET *)
Definition SMALL_RESULTSET : Z := -3.
(* code: transport/native/constants.rs 70-71 PARAMETER_DESCRIPTION *)
Definition PARAMETER_DESCRIPTION : Z := -5.
(* code: transport/native/constants.rs 73-73 ATTR_USERNAME *)
Definition ATTR_USERNAME : Z := 1.
(* code: transport/native/constants.rs 74-74 ATTR_CLIENTNAME *)
Definition ATTR_CLIENTNAME : Z := 2.
(* code: transport/native/constants.rs 75-75 ATTR_CLIENTOS *)
Definition ATTR_CLIENTOS : Z := 3.
(* code: transport/native/constants.rs 76-76 ATTR_DRIVERNAME *)
Definition ATTR_DRIVERNAME : Z := 4.
(* code: transport/native/constants.rs 77-77 ATTR_SESSIONID *)
Definition ATTR_SESSIONID : Z := 6.
(* code: transport/native/constants.rs 78-78 ATTR_AUTOCOMMIT *)
Definition ATTR_AUTOCOMMIT : Z := 7.
(* code: transport/native/constants.rs 79-79 ATTR_CLIENTVERSION *)
Definition ATTR_CLIENTVERSION : Z := 10.
(* code: transport/native/constants.rs 80-80 ATTR_TRANSACTION_STATE *)
Definition ATTR_TRANSACTION_STATE : Z := 17.
(* code: transport/native/constants.rs 81-81 ATTR_PROTOCOL_VERSION *)
Definition ATTR_PROTOCOL_VERSION : Z := 19.
(* code: transport/native/constants.rs 82-82 ATTR_CURRENT_SCHEMA *)
Definition ATTR_CURRENT_SCHEMA : Z := 22.
(* code: transport/native/constants.rs 83-83 ATTR_DATA_MESSAGE_SIZE *)
Definition ATTR_DATA_MESSAGE_SIZE : Z := 26.
(* code: transport/native/constants.rs 84-84 ATTR_PUBLIC_KEY *)
Definition ATTR_PUBLIC_KEY : Z := 32.
(* code: transport/native/constants.rs 85-85 ATTR_RANDOM_PHRASE *)
Definition ATTR_RANDOM_PHRASE : Z := 33.
(* code: transport/native/constants.rs 86-86 ATTR_ENCODED_PASSWORD *)
Definition ATTR_ENCODED_PASSWORD : Z := 34.
(* code: transport/native/constants.rs 87-87 ATTR_QUERY_TIMEOUT *)
Definition ATTR_QUERY_TIMEOUT : Z := 35.
(* code: transport/native/constants.rs 88-88 ATTR_TIMEZONE *)
Definition ATTR_TIMEZONE : Z := 47.
(* code: transport/native/constants.rs 89-89 ATTR_TSUTC_ENABLED *)
Definition ATTR_TSUTC_ENABLED : Z := 51.
(* code: transport/native/constants.rs 90-90 ATTR_QUERY_CACHE_ACCESS *)
Definition ATTR_QUERY_CACHE_ACCESS : Z := 52.
(* code: transport/native/constants.rs 91-91 ATTR_CLIENT_RECEIVE_KEY *)
Definition ATTR_CLIENT_RECEIVE_KEY : Z := 53.
(* code: transport/native/constants.rs 92-92 ATTR_CLIENT_SEND_KEY *)
Definition ATTR_CLIENT_SEND_KEY : Z := 54.
(* code: transport/native/constants.rs 93-93 ATTR_SNAPSHOT_TRANSACTIONS_ENABLED *)
Definition ATTR_SNAPSHOT_TRANSACTIONS_ENABLED : Z := 55.
(* code: transport/native/constants.rs 94-94 ATTR_CLIENT_KEYS_LEN *)
Definition ATTR_CLIENT_KEYS_LEN : Z := 56.
(* code: transport/native/constants.rs 95-95 ATTR_ENCRYPTION_REQUIRED *)
Definition ATTR_ENCRYPTION_REQUIRED : Z := 57.
(* code: transport/native/constants.rs 97-97 ATTR_RELEASE_VERSION *)
Definition ATTR_RELEASE_VERSION : Z := 8.
(* code: transport/native/constants.rs 98-98 ATTR_DATABASE_NAME *)
Definition ATTR_DATABASE_NAME : Z := 37.
(* code: transport/native/constants.rs 99-99 ATTR_PRODUCT_NAME *)
Definition ATTR_PRODUCT_NAME : Z := 38.
(* code: transport/native/constants.rs 106-106 ATTR_SQL_TEXT *)
Definition ATTR_SQL_TEXT : Z := 200.
(* code: transport/native/constants.rs 107-107 ATTR_RESULT_SET_HANDLE *)
Definition ATTR_RESULT_SET_HANDLE : Z := 201.
(* code: transport/native/constants.rs 108-108 ATTR_STATEMENT_HANDLE *)
Definition ATTR_STATEMENT_HANDLE : Z := 202.
(* code: transport/native/constants.rs 109-109 ATTR_NUM_ROWS *)
Definition ATTR_NUM_ROWS : Z := 203.
(* code: transport/native/constants.rs 111-112 T_SMALLINT *)
Definition T_SMALLINT : Z := 4.
(* code: transport/native/constants.rs 114-115 T_INTEGER *)
Definition T_INTEGER : Z := 5.
(* code: transport/native/constants.rs 117-118 SMALLINT_DECIMAL_PRECISION *)
Definition SMALLINT_DECIMAL_PRECISION : Z := 9.
(* code: transport/native/constants.rs 120-121 INTEGER_DECIMAL_PRECISION *)
Definition INTEGER_DECIMAL_PRECISION : Z := 18.
(* code: transport/native/constants.rs 123-124 T_DECIMAL *)
Definition T_DECIMAL : Z := 6.
(* code: transport/native/constants.rs 126-127 T_REAL *)
Definition T_REAL : Z := 7.
(* code: transport/native/constants.rs 129-130 T_DOUBLE *)
Definition T_DOUBLE : Z := 8.
(* code: transport/native/constants.rs 132-133 T_CHAR *)
Definition T_CHAR : Z := 10.
(* code: transport/native/constants.rs 135-136 T_DATE *)
Definition T_DATE : Z := 14.
(* code: transport/native/constants.rs 138-139 T_BINARY *)
Definition T_BINARY : Z := 15.
(* code: transport/native/constants.rs 141-142 T_INTERVAL_YEAR *)
Definition T_INTERVAL_YEAR : Z := 16.
(* code: transport/native/constants.rs 144-145 T_INTERVAL_DAY *)
Definition T_INTERVAL_DAY : Z := 17.
(* code: transport/native/constants.rs 147-148 T_TIMESTAMP *)
Definition T_TIMESTAMP : Z := 21.
(* code: transport/native/constants.rs 150-151 T_BOOLEAN *)
Definition T_BOOLEAN : Z := 9.
(* code: transport/native/constants.rs 153-154 T_GEOMETRY *)
Definition T_GEOMETRY : Z := 123.
(* code: transport/native/constants.rs 156-157 T_TIMESTAMP_LOCAL_TZ *)
Definition T_TIMESTAMP_LOCAL_TZ : Z := 124.
(* code: transport/native/constants.rs 159-160 T_TIMESTAMP_UTC *)
Definition T_TIMESTAMP_UTC : Z := 125.
(* code: transport/native/constants.rs 162-163 T_HASHTYPE *)
Definition T_HASHTYPE : Z := 126.
(* code: transport/native/constants.rs 165-166 T_SMALLDECIMAL *)
Definition T_SMALLDECIMAL : Z := 63.
(* code: transport/native/constants.rs 168-169 T_BIGDECIMAL *)
Definition T_BIGDECIMAL : Z := 64.
(* code: transport/native/constants.rs 171-175 IS_VARCHAR *)
Definition IS_VARCHAR : Z := 1.
(* code: transport/native/constants.rs 177-178 IS_UTF8 *)
Definition IS_UTF8 : Z := 16.
(* code: transport/native/constants.rs 180-181 HEADER_SIZE *)
Definition HEADER_SIZE : nat := 21%nat.
(* code: transport/native/constants.rs 183-184 MAX_DATA_MESSAGE_SIZE *)
Definition MAX_DATA_MESSAGE_SIZE : Z := 64 * 1024 * 1024.
(* code: transport/native/constants.rs 186-187 CHACHA20_KEY_LEN *)
Definition CHACHA20_KEY_LEN : nat := 32%nat.
(* code: transport/native/constants.rs 189-191 TIMESTAMP_PARAM_PRECISION *)
Definition TIMESTAMP_PARAM_PRECISION : Z := 9.
