(* ===== verification/Errors.v ===== *)
(** * Error types

    [error.rs]: the error enums the modelled functions return, with the
    constructors of the source. *)
From S2P Require Import Prelude.

(* code: error.rs 246-284 TransportError *)
Inductive TransportError :=
| WebSocketError (message : string)
| SerializationError (message : string)
| DeserializationError (message : string)
| ProtocolError (message : string)
| InvalidResponse (message : string)
| IoError (message : string)
| SendError (message : string)
| ReceiveError (message : string)
| TlsError (message : string).

#[global] Instance TransportError_eq_dec : EqDecision TransportError.
Proof. solve_decision. Defined.

(* code: error.rs 27-61 ConnectionError *)
Inductive ConnectionError :=
| ConnectionFailed (host : string) (port : Z) (message : string)
| AuthenticationFailed (message : string)
| InvalidParameter (parameter message : string)
| ParseError (message : string)
| Timeout (timeout_ms : Z)
| ConnectionClosed
| ConnectionTlsError (message : string).

#[global] Instance ConnectionError_eq_dec : EqDecision ConnectionError.
Proof. solve_decision. Defined.

(** [ImportError]; the payloads that are foreign errors are their text. *)
(* code: import/mod.rs 70-145 ImportError *)
Inductive ImportError :=
| ImportIoError (message : string)
| ParquetError (message : string)
| ArrowError (message : string)
| ImportTransportError (error : TransportError)
| ImportQueryError (message : string)
| ImportConversionError (message : string)
| InvalidConfig (message : string)
| CsvWriteError (message : string)
| ArrowIpcError (message : string)
| SqlError (message : string)
| HttpTransportError (message : string)
| StreamError (message : string)
| CompressionError (message : string)
| InvalidSessionState (message : string)
| ChannelError (message : string)
| ParallelImportError (message : string)
| SchemaInferenceError (message : string)
| SchemaMismatchError (message : string).

#[global] Instance ImportError_eq_dec : EqDecision ImportError.
Proof. solve_decision. Defined.

(* code: error.rs 63-105 QueryError *)
Inductive QueryError :=
| SyntaxError (position : nat) (message : string)
| ExecutionFailed (message : string)
| QueryTimeout (timeout_ms : Z)
| InvalidState (message : string)
| ParameterBindingError (index : nat) (message : string)
| NoResultSet (message : string)
| TransactionError (message : string)
| SqlInjectionDetected
| StatementClosed
| UnexpectedResultSet.

#[global] Instance QueryError_eq_dec : EqDecision QueryError.
Proof. solve_decision. Defined.

(** [Display] of a [TransportError]. *)
(* code: error.rs 246-284 TransportError *)
Definition show_transport_error (e : TransportError) : string :=
  match e with
  | WebSocketError m => "WebSocket error: " +:+ m
  | SerializationError m => "Serialization error: " +:+ m
  | DeserializationError m => "Deserialization error: " +:+ m
  | ProtocolError m => "Protocol error: " +:+ m
  | InvalidResponse m => "Invalid server response: " +:+ m
  | IoError m => "Network I/O error: " +:+ m
  | SendError m => "Failed to send message: " +:+ m
  | ReceiveError m => "Failed to receive message: " +:+ m
  | TlsError m => "TLS error: " +:+ m
  end.

(** [Display] of an [ImportError]. *)
(* code: import/mod.rs 70-145 ImportError *)
Definition show_import_error (e : ImportError) : string :=
  match e with
  | ImportIoError m => "IO error: " +:+ m
  | ParquetError m => "Parquet error: " +:+ m
  | ArrowError m => "Arrow error: " +:+ m
  | ImportTransportError e => "Transport error: " +:+ show_transport_error e
  | ImportQueryError m => "Query error: " +:+ m
  | ImportConversionError m => "Conversion error: " +:+ m
  | InvalidConfig m => "Invalid configuration: " +:+ m
  | CsvWriteError m => "CSV write error: " +:+ m
  | ArrowIpcError m => "Arrow IPC error: " +:+ m
  | SqlError m => "SQL execution failed: " +:+ m
  | HttpTransportError m => "HTTP transport failed: " +:+ m
  | StreamError m => "Data streaming error: " +:+ m
  | CompressionError m => "Compression error: " +:+ m
  | InvalidSessionState m => "Invalid session state: " +:+ m
  | ChannelError m => "Channel error: " +:+ m
  | ParallelImportError m => "Parallel import error: " +:+ m
  | SchemaInferenceError m => "Schema inference failed: " +:+ m
  | SchemaMismatchError m => "Schema mismatch between files: " +:+ m
  end.
