(* ===== verification/HttpWire.v ===== *)
(** * HTTP text of the data tunnel

    [transport/http_transport.rs], the part without a stream: the packets of the EXA
    handshake, chunk sizes and chunks, requests and their headers, responses and byte
    ranges. *)
From S2P Require Import Prelude MachineInt RustStr StrText Errors.
From Stdlib Require Import Ascii.

#[local] Open Scope Z_scope.

Definition cr : ascii := ascii_of_nat 13.
Definition lf : ascii := ascii_of_nat 10.
Definition crlf : string := String cr (String lf "").

(** ** Rust text *)
(** [String::from_utf8_lossy]: each maximal ill-formed part becomes U+FFFD. *)
Definition replacement_char : string := str_of_bytes (byte_of <$> [239; 191; 189]).

Fixpoint lossy (fuel : nat) (bs : list byte) : string :=
  match utf8_check 0 bs with
  | None => str_of_bytes bs
  | Some e =>
    str_of_bytes (take (valid_up_to e) bs) +:+ replacement_char +:+
    match error_len e, fuel with
    | Some n, S fuel => lossy fuel (drop (valid_up_to e + n) bs)
    | _, _ => ""
    end
  end.

Definition from_utf8_lossy (bs : list byte) : string := lossy (length bs) bs.

(** [s.trim_end_matches(c)]. *)
Fixpoint drop_leading (c : ascii) (s : string) : string :=
  match s with
  | EmptyString => ""
  | String a r => if Ascii.eqb a c then drop_leading c r else s
  end.
Definition trim_end_matches (c : ascii) (s : string) : string :=
  str_rev (drop_leading c (str_rev s)).

(** [s.split_whitespace()]. [word] is the word so far, reversed. *)
Fixpoint split_words (fuel : nat) (word s : string) : list string :=
  let finish := match word with EmptyString => [] | _ => [str_rev word] end in
  match fuel, s with
  | S fuel, String a r =>
    match strip_any white_space s with
    | Some r => finish ++ split_words fuel "" r
    | None => split_words fuel (String a word) r
    end
  | _, _ => finish
  end.
Definition split_whitespace (s : string) : list string := split_words (str_len s) "" s.

(** [{:X}] and [{:08X}] of a non-negative number. *)
Definition upper_hex (d : Z) : ascii :=
  ascii_of_nat (Z.to_nat (if d <? 10 then d + 48 else d + 55)).

Fixpoint show_hex_digits (fuel : nat) (z : Z) (acc : string) : string :=
  match fuel with
  | O => acc
  | S fuel =>
    let acc := String (upper_hex (z mod 16)) acc in
    if z <? 16 then acc else show_hex_digits fuel (z / 16) acc
  end.

Definition show_hex (z : Z) : string := show_hex_digits (S (Z.to_nat (Z.log2 z))) z "".
Definition show_hex_padded (w : nat) (z : Z) : string :=
  let s := show_hex z in str_repeat (w - str_len s) "0" +:+ s.

(** [c.to_digit(16)]. *)
Definition hex_digit (a : ascii) : option Z :=
  let c := ascii_code a in
  if is_digit a then Some (c - 48)
  else if (65 <=? c) && (c <=? 70) then Some (c - 55)
  else if (97 <=? c) && (c <=? 102) then Some (c - 87)
  else None.

(** [IntErrorKind], by its text. *)
Definition empty_digits : string := "cannot parse integer from empty string".
Definition invalid_digit : string := "invalid digit found in string".
Definition pos_overflow : string := "number too large to fit in target type".

Fixpoint hex_digits (t : ity) (acc : Z) (s : string) : outcome string Z :=
  match s with
  | EmptyString => Ok acc
  | String a s =>
    match hex_digit a with
    | None => Err invalid_digit
    | Some d => match checked t (16 * acc + d) with
                | Some acc => hex_digits t acc s
                | None => Err pos_overflow
                end
    end
  end.

(** [T::from_str_radix(s, 16)] for an unsigned [T]. *)
Definition from_str_radix_16 (t : ity) (s : string) : outcome string Z :=
  match s with
  | EmptyString => Err empty_digits
  | String a EmptyString =>
    if Ascii.eqb a "+" || Ascii.eqb a "-" then Err invalid_digit else hex_digits t 0 s
  | String a r => if Ascii.eqb a "+" then hex_digits t 0 r else hex_digits t 0 s
  end.

(** ** The EXA handshake *)
(* code: transport/http_transport.rs 41-43 EXA_MAGIC_NUMBER *)
Definition EXA_MAGIC_NUMBER : Z := 0x02212102.
(* code: transport/http_transport.rs 45-46 EXA_PROTOCOL_VERSION_MAJOR *)
Definition EXA_PROTOCOL_VERSION_MAJOR : Z := 1.
(* code: transport/http_transport.rs 48-49 EXA_PROTOCOL_VERSION_MINOR *)
Definition EXA_PROTOCOL_VERSION_MINOR : Z := 1.
(* code: transport/http_transport.rs 51-52 EXA_MAGIC_PACKET_SIZE *)
Definition EXA_MAGIC_PACKET_SIZE : nat := 12.
(* code: transport/http_transport.rs 54-55 EXA_RESPONSE_PACKET_SIZE *)
Definition EXA_RESPONSE_PACKET_SIZE : nat := 24.
(* code: transport/http_transport.rs 57-58 HTTP_CHUNK_SIZE *)
Definition HTTP_CHUNK_SIZE : Z := 64 * 1024.
(* code: transport/http_transport.rs 60-62 EXPORT_PIECE_MAX_BYTES *)
Definition EXPORT_PIECE_MAX_BYTES : Z := 64 * 1024.
(** In nanoseconds. *)
(* code: transport/http_transport.rs 64-66 TUNNEL_SETUP_TIMEOUT *)
Definition TUNNEL_SETUP_TIMEOUT : Z := 30 * 10 ^ 9.

(* code: transport/http_transport.rs 79-85 generate_magic_packet *)
Definition generate_magic_packet : list byte :=
  to_le_bytes U32 EXA_MAGIC_NUMBER ++ to_le_bytes U32 EXA_PROTOCOL_VERSION_MAJOR ++
  to_le_bytes U32 EXA_PROTOCOL_VERSION_MINOR.

(** The four bytes at [i]. *)
Definition word_at (t : ity) (packet : list byte) (i : nat) : Z :=
  from_le_bytes t (take 4 (drop i packet)).

(* code: transport/http_transport.rs 100-121 parse_magic_packet *)
Definition parse_magic_packet (packet : list byte) : outcome TransportError (Z * Z * Z) :=
  if (length packet <? EXA_MAGIC_PACKET_SIZE)%nat then
    Err (ProtocolError ("Magic packet too short: expected "
      +:+ show_nat (Z.of_nat EXA_MAGIC_PACKET_SIZE) +:+ " bytes, got "
      +:+ show_nat (Z.of_nat (length packet))))
  else
    let magic := word_at U32 packet 0 in
    let major := word_at U32 packet 4 in
    let minor := word_at U32 packet 8 in
    if magic =? EXA_MAGIC_NUMBER then Ok (magic, major, minor)
    else Err (ProtocolError ("Invalid magic number: expected 0x"
           +:+ show_hex_padded 8 EXA_MAGIC_NUMBER +:+ ", got 0x" +:+ show_hex_padded 8 magic)).

(* code: transport/http_transport.rs 141-175 parse_response_packet *)
Definition parse_response_packet (packet : list byte) : outcome TransportError (string * Z) :=
  if (length packet <? EXA_RESPONSE_PACKET_SIZE)%nat then
    Err (ProtocolError ("Response packet too short: expected "
      +:+ show_nat (Z.of_nat EXA_RESPONSE_PACKET_SIZE) +:+ " bytes, got "
      +:+ show_nat (Z.of_nat (length packet))))
  else
    let port := word_at I32 packet 4 in
    if (port <? 0) || (imax U16 <? port) then
      Err (ProtocolError ("Invalid port in response packet: " +:+ show_int port))
    else
      let ip_bytes := take 16 (drop 8 packet) in
      let ip_string := trim_end_matches zero (from_utf8_lossy ip_bytes) in
      if String.eqb ip_string "" then
        Err (ProtocolError "Empty IP address in response packet")
      else Ok (ip_string, wrap U16 port).

(** ** Fingerprints *)
(** sha2 and base64. *)
Class FingerprintLib := {
  sha2_256 : list byte → list byte;
  base64_standard : list byte → string;
}.

(* code: transport/http_transport.rs 848-854 compute_sha256_fingerprint *)
Definition compute_sha256_fingerprint `{FingerprintLib} (data : list byte) : string :=
  base64_standard (sha2_256 data).

(* code: transport/http_transport.rs 868-872 compute_public_key_fingerprint *)
Definition compute_public_key_fingerprint `{FingerprintLib} (public_key_der : list byte) : string :=
  "sha256//" +:+ compute_sha256_fingerprint public_key_der.

(** ** Chunks *)
(* code: transport/http_transport.rs 940-953 encode_chunk *)
Definition encode_chunk (data : list byte) : list byte :=
  match data with
  | [] => as_bytes ("0" +:+ crlf +:+ crlf)
  | _ => as_bytes (show_hex (Z.of_nat (length data)) +:+ crlf) ++ data ++ as_bytes crlf
  end.

(* code: transport/http_transport.rs 971-977 parse_chunk_size *)
Definition parse_chunk_size (size_line : string) : outcome TransportError Z :=
  let size_str := trim (default size_line (head (split_on ";" size_line))) in
  map_err (λ e, ProtocolError ("Invalid chunk size '" +:+ size_str +:+ "': " +:+ e))
    (from_str_radix_16 USize size_str).

(** [data.chunks(n)], for a positive [n]. *)
Fixpoint chunks_from {A} (fuel n : nat) (xs : list A) : list (list A) :=
  match xs, fuel with
  | [], _ | _, O => []
  | _, S fuel => take n xs :: chunks_from fuel n (drop n xs)
  end.
Definition chunks {A} (n : nat) (xs : list A) : list (list A) := chunks_from (length xs) n xs.

(** ** Requests *)
(* code: transport/http_transport.rs 1279-1288 HttpMethod *)
Inductive HttpMethod := Get | Put | Head.

#[global] Instance HttpMethod_eq_dec : EqDecision HttpMethod.
Proof. solve_decision. Defined.

(* code: transport/http_transport.rs 1290-1298 HttpMethod::fmt *)
Definition show_method (m : HttpMethod) : string :=
  match m with Get => "GET" | Put => "PUT" | Head => "HEAD" end.

(* code: transport/http_transport.rs 1300-1309 HttpRequest *)
Record HttpRequest := {
  method : HttpMethod;
  path : string;
  headers : gmap string string;
}.

Section Requests.
Context `{UnicodeCase}.

(* code: transport/http_transport.rs 1312-1318 HttpRequest::content_length *)
Definition content_length (r : HttpRequest) : option Z :=
  headers r !! "content-length"%string ≫= parse_int USize.

(* code: transport/http_transport.rs 1320-1327 HttpRequest::is_chunked *)
Definition is_chunked (r : HttpRequest) : bool :=
  match headers r !! "transfer-encoding"%string with
  | Some v => contains_str "chunked" (to_lowercase v)
  | None => false
  end.

(* code: transport/http_transport.rs 1329-1333 HttpRequest::host *)
Definition host (r : HttpRequest) : option string := headers r !! "host"%string.

(* code: transport/http_transport.rs 1359-1377 parse_http_request *)
Definition parse_request_line (request_line : string)
    : outcome TransportError (HttpMethod * string) :=
  let method_of (name : string) : outcome TransportError HttpMethod :=
    if String.eqb name "GET" then Ok Get
    else if String.eqb name "PUT" then Ok Put
    else if String.eqb name "HEAD" then Ok Head
    else Err (ProtocolError ("Unsupported HTTP method: '" +:+ name +:+ "'")) in
  match split_whitespace request_line with
  | name :: path :: _ :: _ => m ← method_of name; Ok (m, path)
  | _ => Err (ProtocolError ("Invalid HTTP request line: '" +:+ request_line +:+ "'"))
  end.

(* code: transport/http_transport.rs 1390-1393 parse_http_request *)
Definition add_header (line : string) (headers : gmap string string) : gmap string string :=
  match split_once ":" line with
  | Some (name, value) => <[to_lowercase (trim name) := trim value]> headers
  | None => headers
  end.
End Requests.

(* code: transport/http_transport.rs 1240-1245 parse_byte_range *)
Definition parse_byte_range (range_header : string) : option (Z * Z) :=
  span ← strip_prefix "bytes=" range_header;
  '(start_str, end_str) ← split_once "-" span;
  start ← parse_int U64 (trim start_str);
  last ← parse_int U64 (trim end_str);
  Some (start, last).

(** ** Responses *)
(* code: transport/http_transport.rs 1415-1446 build_http_response *)
Definition build_http_response (status_code : Z) (status_text : string)
    (headers : list (string * string)) (body : option (list byte)) : list byte :=
  let status := "HTTP/1.1 " +:+ show_nat status_code +:+ " " +:+ status_text +:+ crlf in
  let lines := String.concat "" ((λ '(name, value), name +:+ ": " +:+ value +:+ crlf) <$> headers) in
  let length_line :=
    match body with
    | Some data =>
      if existsb (λ '(n, _), eq_ignore_ascii_case n "content-length") headers then ""
      else "Content-Length: " +:+ show_nat (Z.of_nat (length data)) +:+ crlf
    | None => ""
    end in
  as_bytes (status +:+ lines +:+ length_line +:+ crlf) ++ default [] body.

(* code: transport/http_transport.rs 1455-1466 build_chunked_response_headers *)
Definition build_chunked_response_headers : list byte :=
  build_http_response 200 "OK"
    [("Content-Type", "application/octet-stream"); ("Transfer-Encoding", "chunked")]%string None.

(* code: transport/http_transport.rs 1475-1478 build_ok_response *)
Definition build_ok_response : list byte := build_http_response 200 "OK" [] None.

(** ** Lemmas *)
Lemma chunks_from_fuel {A} f1 f2 n (xs : list A) :
  (0 < n)%nat → (length xs ≤ f1)%nat → (length xs ≤ f2)%nat →
  chunks_from f1 n xs = chunks_from f2 n xs.
Proof.
  intros Hn. revert f2 xs. induction f1 as [|f1 IH]; intros f2 xs H1 H2; [destruct xs; [by destruct f2|cbn in H1; lia]|].
  destruct xs as [|x xs]; [by destruct f2|]. destruct f2 as [|f2]; [cbn in H2; lia|].
  cbn [chunks_from]. f_equal. cbn [length] in *.
  apply IH; rewrite length_drop; cbn [length]; lia.
Qed.

Lemma chunks_cons {A} n (xs : list A) :
  (0 < n)%nat → xs ≠ [] → chunks n xs = take n xs :: chunks n (drop n xs).
Proof.
  intros Hn Hx. destruct xs as [|x xs]; [done|]. unfold chunks at 1. cbn [length chunks_from].
  f_equal. apply chunks_from_fuel; [done| |done]. rewrite length_drop. cbn [length]. lia.
Qed.

Lemma chunks_ind {A} n (P : list A → Prop) :
  (0 < n)%nat → P [] → (∀ xs, xs ≠ [] → P (drop n xs) → P xs) → ∀ xs, P xs.
Proof.
  intros Hn Hnil Hstep xs. remember (length xs) as l eqn:El. revert xs El.
  induction (lt_wf l) as [l _ IH]. intros xs ->. destruct xs as [|x xs]; [done|].
  apply Hstep; [done|]. eapply IH; [|reflexivity]. rewrite length_drop. cbn [length]. lia.
Qed.

Lemma concat_chunks {A} n (xs : list A) : (0 < n)%nat → concat (chunks n xs) = xs.
Proof.
  intros Hn. pattern xs. apply (chunks_ind n); clear xs; [done..|]. intros xs Hx IH.
  rewrite chunks_cons by done. cbn [concat]. by rewrite IH, take_drop.
Qed.

Lemma chunks_sizes {A} n (xs : list A) :
  (0 < n)%nat → Forall (λ c, 0 < length c ≤ n)%nat (chunks n xs).
Proof.
  intros Hn. pattern xs. apply (chunks_ind n); clear xs; [done|constructor|]. intros xs Hx IH.
  rewrite chunks_cons by done. constructor; [|done]. rewrite length_take.
  destruct xs; [done|]. cbn [length]. lia.
Qed.

(** Chunk sizes. *)
Definition is_hex (a : ascii) : bool := match hex_digit a with Some _ => true | None => false end.

Lemma hex_digit_upper d : 0 ≤ d < 16 → hex_digit (upper_hex d) = Some d.
Proof.
  intros Hd. assert (d ∈ seqZ 0 16) as Hin by (apply elem_of_seqZ; lia).
  clear Hd. revert d Hin. apply Forall_forall. by_decision.
Qed.

Lemma hex_digits_app t acc s1 s2 :
  hex_digits t acc (s1 +:+ s2) = (acc ← hex_digits t acc s1; hex_digits t acc s2).
Proof.
  revert acc. induction s1 as [|a s1 IH]; intros acc; [done|]. rewrite str_app_cons. cbn.
  destruct (hex_digit a); [|done]. by destruct (checked t _).
Qed.

Lemma show_hex_digits_spec t fuel z acc :
  0 ≤ z < 2 ^ Z.of_nat fuel → z ≤ imax t →
  ∃ s, show_hex_digits fuel z acc = s +:+ acc ∧ hex_digits t 0 s = Ok z ∧
       (fuel ≠ 0%nat → s ≠ ""%string) ∧ str_forall is_hex s = true.
Proof.
  pose proof (imin_imax t) as Ht.
  revert z acc. induction fuel as [|fuel IH]; intros z acc Hz Hm.
  { exists ""%string. rewrite Z.pow_0_r in Hz. repeat split; [|done]. cbn. f_equal. lia. }
  pose proof (Z.mod_pos_bound z 16 ltac:(lia)) as Hd. cbn [show_hex_digits].
  assert (is_hex (upper_hex (z mod 16)) = true) as Hx
    by (unfold is_hex; by rewrite hex_digit_upper).
  destruct (Z.ltb_spec z 16).
  - exists (String (upper_hex (z mod 16)) ""). repeat split; [|done|].
    + cbn [hex_digits]. rewrite hex_digit_upper, checked_in by (rewrite ?Z.mod_small by lia; unfold in_range; lia).
      f_equal. rewrite Z.mod_small; lia.
    + cbn. by rewrite Hx.
  - rewrite Nat2Z.inj_succ, Z.pow_succ_r in Hz by lia.
    pose proof (Z.div_mod z 16). pose proof (Z.div_pos z 16).
    destruct (IH (z / 16) (String (upper_hex (z mod 16)) acc)) as (s & Hs & Hp & _ & Hf).
    { split; [lia|]. apply Z.div_lt_upper_bound; lia. }
    { lia. }
    exists (s +:+ String (upper_hex (z mod 16)) ""). rewrite Hs. repeat split.
    + by rewrite str_app_assoc.
    + rewrite hex_digits_app, Hp. cbn [mbind outcome_bind hex_digits].
      rewrite hex_digit_upper, checked_in by (done || unfold in_range; lia). f_equal. lia.
    + by destruct s.
    + rewrite str_forall_app, Hf. cbn. by rewrite Hx.
Qed.

Lemma show_hex_spec t z :
  0 ≤ z ≤ imax t →
  hex_digits t 0 (show_hex z) = Ok z ∧ show_hex z ≠ ""%string ∧
  str_forall is_hex (show_hex z) = true.
Proof.
  intros Hz. unfold show_hex.
  destruct (show_hex_digits_spec t (S (Z.to_nat (Z.log2 z))) z "") as (s & -> & Hp & Hne & Hd).
  - split; [lia|]. rewrite Nat2Z.inj_succ, Z2Nat.id by apply Z.log2_nonneg.
    destruct (decide (z = 0)) as [->|]; [done|]. apply Z.log2_spec. lia.
  - lia.
  - rewrite str_app_nil_r. repeat split; [done|by apply Hne|done].
Qed.

Lemma is_hex_plain a : is_hex a = true →
  is_graphic a = true ∧ is_ascii_char a = true ∧ Ascii.eqb a "+" = false ∧
  Ascii.eqb a "-" = false ∧ Ascii.eqb a ";" = false ∧ Ascii.eqb a cr = false.
Proof. by destruct a as [[] [] [] [] [] [] [] []]. Qed.

(** A chunk size reads back, whatever extension follows it. *)
Lemma parse_chunk_size_show n ext :
  0 ≤ n ≤ imax USize → ext = ""%string ∨ (∃ e, ext = String ";" e) →
  parse_chunk_size (show_hex n +:+ ext) = Ok n.
Proof.
  intros Hn He. destruct (show_hex_spec USize n Hn) as (Hp & Hne & Hx).
  assert (∀ P : ascii → bool, (∀ a, is_hex a = true → P a = true) →
    str_forall P (show_hex n) = true) as HP
    by (intros P HP; eapply str_forall_impl; [exact HP|exact Hx]).
  unfold parse_chunk_size.
  assert (default (show_hex n +:+ ext) (head (split_on ";" (show_hex n +:+ ext))) = show_hex n) as ->.
  { assert (contains_char ";" (show_hex n) = false) as Hc
      by (by apply (contains_char_forall _ is_hex)).
    destruct He as [->|[e ->]].
    - rewrite str_app_nil_r, split_on_absent by done. done.
    - rewrite split_on_cons by done. done. }
  rewrite trim_graphic by (apply graphic_ends_forall, HP; intros a Ha; by apply is_hex_plain).
  unfold from_str_radix_16. destruct (show_hex n) as [|a s]; [done|].
  cbn [str_forall] in Hx. apply andb_true_iff in Hx as [Ha _].
  destruct (is_hex_plain a Ha) as (_ & _ & -> & -> & _). cbn [orb].
  destruct s; by rewrite Hp.
Qed.
