(* ===== verification/Framing.v ===== *)
(** * Message framing

    [transport/native/framing.rs]: the 21-byte message header and the serial
    counter of the native protocol; and the readers of little-endian integers
    that the formats of the protocol share. *)
From S2P Require Import Prelude MachineInt Constants Errors.

#[local] Open Scope Z_scope.

(* code: transport/native/framing.rs 6-25 MessageHeader *)
Record MessageHeader := {
  message_length : Z;
  command : Z;
  serial : Z;
  num_attributes : Z;
  attribute_data_len : Z;
  num_result_parts : Z;
}.

#[global] Instance MessageHeader_eq_dec : EqDecision MessageHeader.
Proof. solve_decision. Defined.

(** The Rust type of a header: five [u32] fields and one [u8]. *)
Definition header_ok (h : MessageHeader) : Prop :=
  in_range U32 (message_length h) ∧ in_range U8 (command h) ∧
  in_range U32 (serial h) ∧ in_range U32 (num_attributes h) ∧
  in_range U32 (attribute_data_len h) ∧ in_range U32 (num_result_parts h).

(* code: transport/native/framing.rs 28-45 MessageHeader::new *)
Definition MessageHeader_new (cmd ser nattrs attr_len nparts : Z) : MessageHeader :=
  {| message_length := attr_len; command := cmd; serial := ser;
     num_attributes := nattrs; attribute_data_len := attr_len;
     num_result_parts := nparts |}.

(* code: transport/native/framing.rs 47-57 MessageHeader::serialize *)
Definition header_serialize (h : MessageHeader) : list byte :=
  to_le_bytes U32 (message_length h) ++
  to_le_bytes U8 (command h) ++
  to_le_bytes U32 (serial h) ++
  to_le_bytes U32 (num_attributes h) ++
  to_le_bytes U32 (attribute_data_len h) ++
  to_le_bytes U32 (num_result_parts h).

(** [u32::from_le_bytes([data[i], data[i+1], data[i+2], data[i+3]])]. *)
Definition field (t : ity) (data : list byte) (i : nat) : Z :=
  from_le_bytes t (take (ibytes t) (drop i data)).

(* code: transport/native/framing.rs 59-76 MessageHeader::parse *)
Definition header_parse (data : list byte) : outcome TransportError MessageHeader :=
  Ok {| message_length := field U32 data 0;
        command := field U8 data 4;
        serial := field U32 data 5;
        num_attributes := field U32 data 9;
        attribute_data_len := field U32 data 13;
        num_result_parts := field U32 data 17 |}.

(** ** Serial numbers *)
(* code: transport/native/framing.rs 79-82 SerialCounter *)
Record SerialCounter := { next : Z }.

(* code: transport/native/framing.rs 84-89 SerialCounter::new *)
Definition SerialCounter_new : SerialCounter := {| next := 1 |}.

(** [fetch_add] wraps around. *)
(* code: transport/native/framing.rs 91-94 SerialCounter::next *)
Definition serial_next (c : SerialCounter) : Z * SerialCounter :=
  (next c, {| next := wrap U32 (next c + 1) |}).

(** The serials of [n] consecutive calls. *)
Fixpoint serials (n : nat) (c : SerialCounter) : list Z :=
  match n with
  | O => []
  | S n => let '(s, c) := serial_next c in s :: serials n c
  end.

(** ** Lemmas *)
Lemma length_header_serialize h : length (header_serialize h) = HEADER_SIZE.
Proof. unfold header_serialize. by rewrite !length_app, !length_to_le_bytes. Qed.

Lemma field_head t z suf : in_range t z → field t (to_le_bytes t z ++ suf) 0 = z.
Proof.
  intros Hz. unfold field. rewrite drop_0.
  rewrite take_app_le by (rewrite length_to_le_bytes; done).
  rewrite take_ge by (rewrite length_to_le_bytes; done). by apply from_to_le_bytes.
Qed.

Lemma field_skip t u z suf i :
  (ibytes u ≤ i)%nat →
  field t (to_le_bytes u z ++ suf) i = field t suf (i - ibytes u).
Proof.
  intros Hi. unfold field. rewrite drop_app_ge by (rewrite length_to_le_bytes; done).
  by rewrite length_to_le_bytes.
Qed.

Lemma header_parse_serialize h : header_ok h → header_parse (header_serialize h) = Ok h.
Proof.
  intros (H1 & H2 & H3 & H4 & H5 & H6). unfold header_parse, header_serialize.
  rewrite <- (app_nil_r (to_le_bytes U32 (num_result_parts h))).
  destruct h; cbn [message_length command serial num_attributes attribute_data_len
    num_result_parts] in *.
  f_equal; f_equal; repeat (rewrite field_skip by (cbn; lia));
    cbn [ibytes Nat.sub]; by apply field_head.
Qed.

Lemma field_range t data i : in_range t (field t data i).
Proof. apply from_le_bytes_in_range. Qed.

Lemma serials_from n s :
  in_range U32 s →
  serials n {| next := s |} = (λ k, wrap U32 (s + Z.of_nat k)) <$> seq 0 n.
Proof.
  revert s. induction n as [|n IH]; intros s Hs; [done|].
  cbn [serials serial_next next seq fmap list_fmap]. f_equal.
  - by rewrite Z.add_0_r, wrap_id.
  - rewrite IH by apply wrap_in_range. rewrite <- (fmap_S_seq 0 n), <- list_fmap_compose.
    apply list_fmap_ext. intros _ k _. unfold compose.
    apply wrap_congr. rewrite <- Zplus_mod_idemp_l, wrap_mod, Zplus_mod_idemp_l.
    f_equal. lia.
Qed.

(** ** Properties *)

(** The header codec is a bijection between well-typed headers and 21-byte
    arrays: [parse] inverts [serialize], [serialize] inverts [parse], and every
    array of [HEADER_SIZE] bytes parses, to a header whose fields fit their
    Rust types. *)
Theorem header_codec :
  (∀ h, header_ok h → length (header_serialize h) = HEADER_SIZE ∧
                      header_parse (header_serialize h) = Ok h) ∧
  (∀ data, length data = HEADER_SIZE →
    ∃ h, header_parse data = Ok h ∧ header_ok h ∧ header_serialize h = data).
Proof.
  split.
  - intros h Hh. split; [apply length_header_serialize|by apply header_parse_serialize].
  - intros data Hl. eexists. split; [reflexivity|]. split.
    { repeat split; apply field_range. }
    do 22 (destruct data as [|? data]; [done || idtac|]); try done.
    unfold header_serialize. cbn [message_length command serial num_attributes
      attribute_data_len num_result_parts].
    unfold field. cbn [drop take ibytes].
    rewrite !to_from_le_bytes by done. done.
Qed.

(** The serial counter numbers messages 1, 2, 3, ...: no serial repeats
    within 2^32 - 1 consecutive messages of a session, and as long as the
    counter has not wrapped each serial is larger than the one before. *)
Theorem serials_count_up n :
  Z.of_nat n < 2 ^ 32 →
  serials n SerialCounter_new = (λ k, 1 + Z.of_nat k) <$> seq 0 n ∧
  NoDup (serials n SerialCounter_new).
Proof.
  intros Hn.
  assert (serials n SerialCounter_new = (λ k, 1 + Z.of_nat k) <$> seq 0 n) as E.
  { unfold SerialCounter_new. rewrite serials_from by range. apply list_fmap_ext. intros i k [-> ?]%lookup_seq. apply wrap_id. range. }
  split; [done|]. rewrite E. apply NoDup_fmap_2; [|apply NoDup_seq].
  intros a b Hab. lia.
Qed.

Lemma serials_count_up_witness :
  Z.of_nat 3 < 2 ^ 32 ∧ serials 3 SerialCounter_new = [1; 2; 3].
Proof. split; [lia|]. destruct (serials_count_up 3) as [-> _]; [lia|reflexivity]. Defined.

(** ** Little-endian readers *)
(** Offsets stay below [isize::MAX], the bound of every Rust allocation, so
    [*offset + n] for a [u32] or constant [n] does not overflow [usize]. *)
Definition read_fixed (t : ity) (message : string) : reader TransportError Z :=
  λ data off,
    if (length data <? off + ibytes t)%nat then Err (ProtocolError message)
    else Ok (from_le_bytes t (take (ibytes t) (drop off data)), (off + ibytes t)%nat).

(** A reader whose success depends only on the bytes it consumes: more data
    behind them does not change the result. *)
Definition stable {E A} (r : reader E A) : Prop :=
  ∀ data suf off a off', (off ≤ length data)%nat → r data off = Ok (a, off') →
    r (data ++ suf) off = Ok (a, off').

(** ** Lemmas *)
Lemma reads_fixed `{PayloadBound} t m z :
  in_range t z → reads (read_fixed t m) (to_le_bytes t z) z.
Proof.
  intros Hz pre suf _. unfold read_fixed.
  rewrite !length_app, length_to_le_bytes.
  destruct (Nat.ltb_spec (length pre + (ibytes t + length suf)) (length pre + ibytes t));
    [lia|].
  rewrite <- (length_to_le_bytes t z) at 1. by rewrite take_drop_mid, from_to_le_bytes.
Qed.

(** ** Stability *)
Lemma stable_ret {E A} (a : A) : stable (E := E) (mret a).
Proof. intros data suf off ? ? ? [= <- <-]. done. Qed.

Lemma stable_lift {E A} (m : outcome E A) : stable (lift m).
Proof. intros data suf off a off' _. by destruct m. Qed.

Lemma stable_bind {E A B} (r : reader E A) (k : A → reader E B) :
  advances r → stable r → (∀ a, stable (k a)) → stable (r ≫= k).
Proof.
  intros Ha Hr Hk data suf off b off' Hle H. unfold mbind, reader_bind in *.
  destruct (r data off) as [[a off1]| |] eqn:E1; try done.
  rewrite (Hr _ _ _ _ _ Hle E1). apply Ha in E1; [|done]. apply Hk; [lia|done].
Qed.

Lemma stable_times {E A} n (r : reader E A) :
  advances r → stable r → stable (read_times n r).
Proof.
  intros Ha Hr. induction n as [|n IH]; cbn [read_times]; [apply stable_ret|].
  apply stable_bind; [done..|]. intros a.
  apply stable_bind; [by apply advances_times|done|]. intros; apply stable_ret.
Qed.

Lemma advances_fixed t m : advances (read_fixed t m).
Proof.
  intros data off a off' Hle H. unfold read_fixed in H.
  destruct (Nat.ltb_spec (length data) (off + ibytes t)); simplify_eq. lia.
Qed.

Lemma stable_fixed t m : stable (read_fixed t m).
Proof.
  intros data suf off a off' Hle H. unfold read_fixed in *. rewrite length_app.
  destruct (Nat.ltb_spec (length data) (off + ibytes t)); simplify_eq.
  destruct (Nat.ltb_spec (length data + length suf) (off + ibytes t)); [lia|].
  by rewrite drop_app_le, take_app_le by (rewrite ?length_drop; lia).
Qed.

Lemma no_panic_times {E A} n (r : reader E A) data off :
  (∀ off, no_panic (r data off)) → no_panic (read_times n r data off).
Proof.
  intros Hr. revert off. induction n as [|n IH]; intros off; [done|].
  cbn [read_times]. unfold no_panic, mbind, reader_bind, mret, reader_ret.
  pose proof (Hr off). destruct (r data off) as [[a off1]| |]; [|done..].
  specialize (IH off1). by destruct (read_times n r data off1) as [[? ?]| |].
Qed.

#[export] Hint Resolve stable_ret stable_lift stable_bind stable_times stable_fixed
  advances_fixed : adv.
