(* ===== verification/Effect.v ===== *)
(** * Effects

    Code behind [&mut self] as state passing: an action takes the state and returns
    its outcome together with the state it leaves, on an error as well. Asynchronous
    code runs against a clock, and an action that is dropped at an [await] because a
    timer fired is cancelled: its effects up to that point remain. *)
From S2P Require Import Prelude MachineInt Errors.
From stdpp Require Import relations.

#[local] Open Scope Z_scope.

Definition action (E S A : Type) : Type := S → outcome E A * S.

#[global] Instance action_ret E S : MRet (action E S) := λ A a s, (Ok a, s).
#[global] Instance action_bind E S : MBind (action E S) := λ A B k m s,
  match m s with
  | (Ok a, s) => k a s
  | (Err e, s) => (Err e, s)
  | (Panic, s) => (Panic, s)
  end.

(** A pure call, a read and a write of the state. *)
Definition pure_call {E S A} (m : outcome E A) : action E S A := λ s, (m, s).
Definition get {E S} : action E S S := λ s, (Ok s, s).
Definition modify {E S} (f : S → S) : action E S unit := λ s, (Ok (), f s).

(** [let _ = m.await]: the outcome is dropped; a panic or a cancellation is not. *)
Definition ignore_err {E S A} (keep : E → bool) (m : action E S A) : action E S unit := λ s,
  match m s with
  | (Ok _, s) => (Ok (), s)
  | (Err e, s) => (if keep e then Err e else Ok (), s)
  | (Panic, s) => (Panic, s)
  end.

(** [m.map_err(f)]. *)
Definition map_error {E E' S A} (f : E → E') (m : action E S A) : action E' S A := λ s,
  let '(o, s) := m s in (map_err f o, s).

(** [for x in xs { r(x)? }] with an accumulator, and an early return. *)
Fixpoint fold_until {E S A B R} (step : B → A → action E S (R + B)) (acc : B) (xs : list A)
    : action E S (R + B) :=
  match xs with
  | [] => mret (inr acc)
  | x :: xs =>
    r ← step acc x;
    match r with inl result => mret (inl result) | inr acc => fold_until step acc xs end
  end.

(** ** What an action may do to the state *)
Definition effects {E S A} (R : relation S) (m : action E S A) : Prop := ∀ s, R s (m s).2.

(** The outcome and the state of an action. *)
Definition wp {E S A} (m : action E S A) (Q : outcome E A → S → Prop) (s : S) : Prop :=
  Q (m s).1 (m s).2.

Create HintDb effects.

Section Effects.
Context {E S : Type} (R : relation S) `{!PreOrder R}.

Lemma effects_ret {A} (a : A) : effects (E := E) R (mret a).
Proof. intros s. cbn. reflexivity. Qed.

Lemma effects_pure {A} (m : outcome E A) : effects R (pure_call m).
Proof. intros s. cbn. reflexivity. Qed.

Lemma effects_get : effects (E := E) R get.
Proof. intros s. cbn. reflexivity. Qed.

Lemma effects_modify f : (∀ s, R s (f s)) → effects (E := E) R (modify f).
Proof. intros Hf s. apply Hf. Qed.

Lemma effects_bind {A B} (m : action E S A) (k : A → action E S B) :
  effects R m → (∀ a, effects R (k a)) → effects R (m ≫= k).
Proof.
  intros Hm Hk s. unfold mbind, action_bind. specialize (Hm s).
  destruct (m s) as [[a|e|] s1]; cbn in *; [|done..]. etransitivity; [done|apply Hk].
Qed.

Lemma effects_ignore {A} keep (m : action E S A) : effects R m → effects R (ignore_err keep m).
Proof. intros Hm s. unfold ignore_err. specialize (Hm s). by destruct (m s) as [[a|e|] s1]. Qed.

Lemma effects_fold {A B C} (step : B → A → action E S (C + B)) acc xs :
  (∀ b a, effects R (step b a)) → effects R (fold_until step acc xs).
Proof.
  intros Hs. revert acc. induction xs as [|x xs IH]; intros acc; [apply effects_ret|].
  cbn [fold_until]. apply effects_bind; [done|]. intros [c|b]; [apply effects_ret|apply IH].
Qed.
End Effects.

#[export] Hint Resolve effects_ret effects_pure effects_get effects_bind effects_ignore
  effects_fold : effects.

(** The steps of a proof of [effects R m]: the shape of [m] decides. *)
Ltac effects :=
  repeat first
    [ progress intros
    | match goal with
      | |- effects _ (if ?b then _ else _) => destruct b
      | |- effects _ (match ?x with _ => _ end) => destruct x
      | |- effects _ (_ ≫= _) => apply effects_bind; [typeclasses eauto| |]
      end
    | progress auto with effects typeclass_instances ].

(** ** Weakest preconditions *)
Section Wp.
Context {E S : Type}.

Lemma wp_bind {A B} (m : action E S A) (k : A → action E S B) Q s :
  wp m (λ o s, match o with
               | Ok a => wp (k a) Q s
               | Err e => Q (Err e) s
               | Panic => Q Panic s
               end) s →
  wp (m ≫= k) Q s.
Proof. unfold wp, mbind, action_bind. by destruct (m s) as [[a|e|] s1]. Qed.

Lemma wp_mono {A} (m : action E S A) (P Q : outcome E A → S → Prop) s :
  wp m P s → (∀ o s, P o s → Q o s) → wp m Q s.
Proof. intros H HPQ. by apply HPQ. Qed.

(** A step of which only the effect matters. *)
Lemma wp_step (R : relation S) {A B} (m : action E S A) (k : A → action E S B) Q s :
  effects R m →
  (∀ e s', R s s' → Q (Err e) s') → (∀ s', R s s' → Q Panic s') →
  (∀ a s', m s = (Ok a, s') → R s s' → wp (k a) Q s') → wp (m ≫= k) Q s.
Proof.
  intros Hm He Hp Hk. apply wp_bind. unfold wp at 1. specialize (Hm s).
  destruct (m s) as [[a|e|] s1] eqn:E1; cbn in *; auto.
Qed.

(** A run that is known. *)
Lemma run_bind {A B} (m : action E S A) (k : A → action E S B) s a s1 :
  m s = (Ok a, s1) → (m ≫= k) s = k a s1.
Proof. intros H. unfold mbind, action_bind. by rewrite H. Qed.

Lemma run_bind_err {A B} (m : action E S A) (k : A → action E S B) s e s1 :
  m s = (Err e, s1) → (m ≫= k) s = (Err e, s1).
Proof. intros H. unfold mbind, action_bind. by rewrite H. Qed.
End Wp.
