(* ===== verification/Attributes.v ===== *)
(** * Protocol attributes

    [transport/native/attributes.rs]: the typed attribute set that login, session
    and response messages carry, its serialisation and its parser. *)
From S2P Require Import Prelude MachineInt RustStr Constants Errors Framing.

#[local] Open Scope Z_scope.

(* code: transport/native/attributes.rs 11-19 AttributeValue *)
Inductive AttributeValue :=
| AString (s : string)
| ABinary (b : list byte)
| AInt32 (v : Z)
| AInt64 (v : Z)
| ABool (v : bool).

(* code: transport/native/attributes.rs 21-26 Attribute *)
Record Attribute := { attr_id : Z; attr_value : AttributeValue }.

(* code: transport/native/attributes.rs 28-32 AttributeSet *)
Record AttributeSet := { attrs : list Attribute }.

#[global] Instance AttributeValue_eq_dec : EqDecision AttributeValue.
Proof. solve_decision. Defined.
#[global] Instance Attribute_eq_dec : EqDecision Attribute.
Proof. solve_decision. Defined.
#[global] Instance AttributeSet_eq_dec : EqDecision AttributeSet.
Proof. solve_decision. Defined.

(* code: transport/native/attributes.rs 235-242 AttrType *)
Inductive AttrType := TStr | TBin | TI32 | TI64 | TBool.

#[global] Instance AttrType_eq_dec : EqDecision AttrType.
Proof. solve_decision. Defined.

(* code: transport/native/attributes.rs 34-37 AttributeSet::new *)
Definition AttributeSet_new : AttributeSet := {| attrs := [] |}.

(* code: transport/native/attributes.rs 39-42 AttributeSet::add *)
Definition AttributeSet_add (s : AttributeSet) (id : Z) (value : AttributeValue) : AttributeSet :=
  {| attrs := attrs s ++ [{| attr_id := id; attr_value := value |}] |}.

(* code: transport/native/attributes.rs 44-47 AttributeSet::get *)
Definition AttributeSet_get (s : AttributeSet) (id : Z) : option AttributeValue :=
  (λ a, attr_value a) <$> List.find (λ a, attr_id a =? id) (attrs s).

(* code: transport/native/attributes.rs 49-52 AttributeSet::num_attributes *)
Definition AttributeSet_num_attributes (s : AttributeSet) : Z :=
  wrap U32 (Z.of_nat (length (attrs s))).

(* code: transport/native/attributes.rs 305-314 serialized_len *)
Definition serialized_len (a : Attribute) : nat :=
  2 + match attr_value a with
      | AString s => 4 + str_len s
      | ABinary b => 4 + length b
      | AInt32 _ => 4
      | AInt64 _ => 8
      | ABool _ => 1
      end.

(* code: transport/native/attributes.rs 54-57 AttributeSet::data_len *)
Definition AttributeSet_data_len (s : AttributeSet) : Z :=
  wrap U32 (Z.of_nat (list_sum (serialized_len <$> attrs s))).

(** The value part of [serialize_attribute]. *)
Definition serialize_value (v : AttributeValue) : list byte :=
  match v with
  | AString s => to_le_bytes U32 (wrap U32 (Z.of_nat (str_len s))) ++ as_bytes s
  | ABinary b => to_le_bytes U32 (wrap U32 (Z.of_nat (length b))) ++ b
  | AInt32 v => to_le_bytes I32 v
  | AInt64 v => to_le_bytes I64 v
  | ABool v => [byte_of (if v then 1 else 0)]
  end.

(* code: transport/native/attributes.rs 316-338 serialize_attribute *)
Definition serialize_attribute (a : Attribute) : list byte :=
  to_le_bytes U16 (attr_id a) ++ serialize_value (attr_value a).

(* code: transport/native/attributes.rs 59-67 AttributeSet::serialize *)
Definition AttributeSet_serialize (s : AttributeSet) : list byte :=
  concat (serialize_attribute <$> attrs s).

(* code: transport/native/attributes.rs 244-303 attribute_type *)
Definition attribute_type (id : Z) : AttrType :=
  let one_of ids := existsb (Z.eqb id) ids in
  if one_of [ATTR_AUTOCOMMIT; ATTR_TSUTC_ENABLED; ATTR_ENCRYPTION_REQUIRED;
             ATTR_SNAPSHOT_TRANSACTIONS_ENABLED; ATTR_TRANSACTION_STATE;
             15; 41; 45; 50; 61; 62] then TBool
  else if one_of [ATTR_PROTOCOL_VERSION; ATTR_QUERY_TIMEOUT; ATTR_QUERY_CACHE_ACCESS;
                  ATTR_CLIENT_KEYS_LEN; 16; 36; 40; 44; 46; 60; 69; 72; 73] then TI32
  else if one_of [ATTR_SESSIONID; ATTR_DATA_MESSAGE_SIZE; ATTR_RESULT_SET_HANDLE;
                  ATTR_STATEMENT_HANDLE; ATTR_NUM_ROWS; 18; 24; 25; 42; 43; 68; 70]
       then TI64
  else if one_of [ATTR_CLIENT_RECEIVE_KEY; ATTR_CLIENT_SEND_KEY; ATTR_PUBLIC_KEY;
                  ATTR_ENCODED_PASSWORD; ATTR_RANDOM_PHRASE; 65; 66] then TBin
  else TStr.

(* code: transport/native/attributes.rs 94-103 read_attribute_id *)
Definition read_attribute_id : reader TransportError Z :=
  read_fixed U16 "attribute data truncated: missing attr_id".

(** The bytes after a declared length, or the error that reports both sizes. *)
Definition take_declared (len : Z) : reader TransportError (list byte) :=
  λ data off,
    if Z.of_nat (length data) <? Z.of_nat off + len then
      Err (ProtocolError ("attribute data truncated: need " +:+ show_nat len
        +:+ " bytes, have " +:+ show_nat (Z.of_nat (length data) - Z.of_nat off)))
    else Ok (take (Z.to_nat len) (drop off data), (off + Z.to_nat len)%nat).

(* code: transport/native/attributes.rs 121-148 read_length_prefixed *)
Definition read_length_prefixed : reader TransportError (list byte) :=
  len ← read_fixed U32 "attribute data truncated: missing length";
  take_declared len.

(* code: transport/native/attributes.rs 150-156 read_string *)
Definition read_string (id : Z) : reader TransportError AttributeValue :=
  bytes ← read_length_prefixed;
  s ← lift (map_err (λ e, ProtocolError ("invalid UTF-8 in attribute " +:+ show_nat id
              +:+ ": " +:+ show_utf8_error e)) (from_utf8 bytes));
  mret (AString s).

(* code: transport/native/attributes.rs 158-172 read_int32 *)
Definition read_int32 : reader TransportError AttributeValue :=
  v ← read_fixed I32 "attribute data truncated: missing i32"; mret (AInt32 v).

(* code: transport/native/attributes.rs 174-192 read_int64 *)
Definition read_int64 : reader TransportError AttributeValue :=
  v ← read_fixed I64 "attribute data truncated: missing i64"; mret (AInt64 v).

(* code: transport/native/attributes.rs 194-204 read_bool *)
Definition read_bool : reader TransportError AttributeValue :=
  v ← read_fixed U8 "attribute data truncated: missing bool";
  mret (ABool (negb (v =? 0))).

(* code: transport/native/attributes.rs 105-119 read_attribute_value *)
Definition read_attribute_value (id : Z) : reader TransportError AttributeValue :=
  match attribute_type id with
  | TStr => read_string id
  | TBin => b ← read_length_prefixed; mret (ABinary b)
  | TI32 => read_int32
  | TI64 => read_int64
  | TBool => read_bool
  end.

Definition read_attribute : reader TransportError Attribute :=
  id ← read_attribute_id;
  value ← read_attribute_value id;
  mret {| attr_id := id; attr_value := value |}.

(* code: transport/native/attributes.rs 75-90 parse_attributes *)
Definition parse_attributes (data : list byte) (count : Z)
    : outcome TransportError AttributeSet :=
  match read_times (Z.to_nat count) read_attribute data 0%nat with
  | Ok (l, _) => Ok {| attrs := l |}
  | Err e => Err e
  | Panic => Panic
  end.

(** ** Specification *)

(** The wire type of a value. *)
Definition value_type (v : AttributeValue) : AttrType :=
  match v with
  | AString _ => TStr | ABinary _ => TBin | AInt32 _ => TI32
  | AInt64 _ => TI64 | ABool _ => TBool
  end.

(** The value fits its Rust type, and its length its 32-bit prefix. *)
Definition value_ok (v : AttributeValue) : Prop :=
  match v with
  | AString s => valid_str s ∧ in_range U32 (Z.of_nat (str_len s))
  | ABinary b => in_range U32 (Z.of_nat (length b))
  | AInt32 v => in_range I32 v
  | AInt64 v => in_range I64 v
  | ABool _ => True
  end.

(** An attribute that another implementation of the protocol can read: its value
    has the type its identifier stands for. *)
Definition attribute_ok (a : Attribute) : Prop :=
  in_range U16 (attr_id a) ∧ value_type (attr_value a) = attribute_type (attr_id a) ∧
  value_ok (attr_value a).

Definition attribute_set_ok (s : AttributeSet) : Prop :=
  Forall attribute_ok (attrs s) ∧ in_range U32 (Z.of_nat (length (attrs s))).

#[global] Instance value_ok_dec v : Decision (value_ok v).
Proof. destruct v; cbn; apply _. Defined.
#[global] Instance attribute_ok_dec a : Decision (attribute_ok a).
Proof. unfold attribute_ok. apply _. Defined.
#[global] Instance attribute_set_ok_dec s : Decision (attribute_set_ok s).
Proof. unfold attribute_set_ok. apply _. Defined.

(** ** Lemmas *)
(** Nothing is assumed of the length of the payload. *)
#[local] Instance any_payload : PayloadBound := λ _, True.

Lemma reads_length_prefixed b :
  in_range U32 (Z.of_nat (length b)) →
  reads read_length_prefixed (to_le_bytes U32 (wrap U32 (Z.of_nat (length b))) ++ b) b.
Proof.
  intros Hb. rewrite wrap_id by done. unfold read_length_prefixed.
  eapply reads_bind; [by apply reads_fixed|]. intros pre suf _. unfold take_declared.
  rewrite !length_app.
  destruct (Z.ltb_spec (Z.of_nat (length pre + (length b + length suf)))
    (Z.of_nat (length pre) + Z.of_nat (length b))); [lia|].
  by rewrite Nat2Z.id, take_drop_mid.
Qed.

Lemma reads_value id v :
  value_type v = attribute_type id → value_ok v →
  reads (read_attribute_value id) (serialize_value v) v.
Proof.
  intros Hty Hok. unfold read_attribute_value. rewrite <- Hty.
  destruct v as [s|b|z|z|v]; cbn [value_type serialize_value value_ok] in *.
  - destruct Hok as [Hs Hl]. rewrite <- length_as_bytes in *.
    unfold read_string. rewrite <- (app_nil_r (as_bytes s)), app_assoc.
    rewrite (app_nil_r (as_bytes s)).
    eapply reads_bind; [by apply reads_length_prefixed|].
    eapply reads_bind_nil; [apply reads_lift|apply reads_ret].
    by rewrite from_utf8_as_bytes.
  - by eapply reads_bind_ret; [apply reads_length_prefixed|].
  - by eapply reads_bind_ret; [apply reads_fixed|].
  - by eapply reads_bind_ret; [apply reads_fixed|].
  - change [byte_of (if v then 1 else 0)] with (to_le_bytes U8 (if v then 1 else 0)).
    by eapply reads_bind_ret; [apply reads_fixed; destruct v; range|destruct v].
Qed.

Lemma reads_attribute a :
  attribute_ok a → reads read_attribute (serialize_attribute a) a.
Proof.
  intros (Hid & Hty & Hok). unfold read_attribute, serialize_attribute.
  eapply reads_bind; [by apply reads_fixed|].
  eapply reads_bind_ret; [by apply reads_value|]. by destruct a.
Qed.

Lemma length_serialize_attribute a :
  length (serialize_attribute a) = serialized_len a.
Proof.
  unfold serialize_attribute, serialized_len. rewrite length_app, length_to_le_bytes.
  destruct (attr_value a); cbn [serialize_value];
    rewrite ?length_app, ?length_to_le_bytes, ?length_as_bytes; done.
Qed.

Lemma length_serialize s :
  length (AttributeSet_serialize s) = list_sum (serialized_len <$> attrs s).
Proof.
  unfold AttributeSet_serialize. induction (attrs s) as [|a l IH]; [done|].
  rewrite !fmap_cons. cbn [concat list_sum foldr].
  by rewrite length_app, length_serialize_attribute, IH.
Qed.

(** Well-formed attributes at the front of a payload are read back, whatever
    follows them. *)
Lemma parse_attributes_prefix s suf :
  attribute_set_ok s →
  parse_attributes (AttributeSet_serialize s ++ suf) (AttributeSet_num_attributes s) = Ok s.
Proof.
  intros [Hl Hn]. unfold parse_attributes, AttributeSet_num_attributes.
  rewrite wrap_id, Nat2Z.id by done.
  rewrite (reads_run_suffix _ (AttributeSet_serialize s) suf (attrs s));
    [by destruct s|done|].
  apply reads_times. eapply Forall_impl; [done|]. apply reads_attribute.
Qed.

Lemma advances_length_prefixed : advances read_length_prefixed.
Proof.
  apply advances_bind; [apply advances_fixed|]. intros len data off b off' Hle H.
  unfold take_declared in H.
  destruct (Z.ltb_spec (Z.of_nat (length data)) (Z.of_nat off + len)); simplify_eq. lia.
Qed.

Lemma stable_length_prefixed : stable read_length_prefixed.
Proof.
  apply stable_bind; [apply advances_fixed|apply stable_fixed|].
  intros len data suf off b off' Hle H. unfold take_declared in *.
  rewrite length_app.
  destruct (Z.ltb_spec (Z.of_nat (length data)) (Z.of_nat off + len)); simplify_eq.
  destruct (Z.ltb_spec (Z.of_nat (length data + length suf)) (Z.of_nat off + len)); [lia|].
  by rewrite drop_app_le, take_app_le by (rewrite ?length_drop; lia).
Qed.

#[export] Hint Resolve stable_length_prefixed advances_length_prefixed : adv.

Lemma advances_attribute : advances read_attribute.
Proof.
  unfold read_attribute, read_attribute_id, read_attribute_value, read_string,
    read_int32, read_int64, read_bool.
  apply advances_bind; [auto with adv|]. intros id.
  apply advances_bind; [|auto with adv].
  destruct (attribute_type id); auto 6 with adv.
Qed.

Lemma stable_attribute : stable read_attribute.
Proof.
  unfold read_attribute, read_attribute_id, read_attribute_value, read_string,
    read_int32, read_int64, read_bool.
  apply stable_bind; [auto with adv..|]. intros id.
  apply stable_bind; [| |auto with adv]; destruct (attribute_type id); auto 8 with adv.
Qed.

Lemma no_panic_attribute data off : no_panic (read_attribute data off).
Proof.
  unfold no_panic, read_attribute, read_attribute_id, read_attribute_value, read_string,
    read_int32, read_int64, read_bool, read_length_prefixed, take_declared, read_fixed, lift,
    map_err,
    from_utf8.
  unfold mbind, reader_bind, mret, reader_ret. repeat (case_match; simplify_eq/=; try done).
Qed.

(** ** Properties *)

(** Attribute sets survive the wire: for every set whose values have the type
    their identifier stands for, the serialisation has exactly [data_len] bytes
    (when that fits the 32-bit header field) and parses back to the same
    attributes in the same order, so a lookup after the round trip finds what a
    lookup before it did. *)
Theorem attributes_roundtrip s :
  attribute_set_ok s →
  in_range U32 (Z.of_nat (length (AttributeSet_serialize s))) →
  AttributeSet_data_len s = Z.of_nat (length (AttributeSet_serialize s)) ∧
  parse_attributes (AttributeSet_serialize s) (AttributeSet_num_attributes s) = Ok s.
Proof.
  intros Hs Hl. split.
  - unfold AttributeSet_data_len. rewrite <- length_serialize. by apply wrap_id.
  - rewrite <- (app_nil_r (AttributeSet_serialize s)). by apply parse_attributes_prefix.
Qed.

(** Two attributes as the login packet carries them. *)
Definition sample_attributes : AttributeSet :=
  AttributeSet_add (AttributeSet_add AttributeSet_new ATTR_USERNAME (AString "sys"))
    ATTR_AUTOCOMMIT (ABool true).

Lemma attributes_roundtrip_witness :
  attribute_set_ok sample_attributes ∧
  AttributeSet_data_len sample_attributes = 12 ∧
  parse_attributes (AttributeSet_serialize sample_attributes) 2 = Ok sample_attributes.
Proof.
  assert (attribute_set_ok sample_attributes) as H.
  { by_decision. }
  split; [done|]. apply (attributes_roundtrip sample_attributes H). vm_range.
Defined.

(** The attribute parser is safe on every input: it never panics, and a block
    cut short by even one byte is an error, never a shorter or different set. *)
Theorem attributes_truncation s n :
  (∀ data count, no_panic (parse_attributes data count)) ∧
  (attribute_set_ok s → (n < length (AttributeSet_serialize s))%nat →
   ∃ e, parse_attributes (take n (AttributeSet_serialize s))
          (AttributeSet_num_attributes s) = Err e).
Proof.
  assert (∀ data count, no_panic (parse_attributes data count)) as Hsafe.
  { intros data count. unfold no_panic, parse_attributes.
    pose proof (no_panic_times (Z.to_nat count) read_attribute data 0%nat
      (no_panic_attribute data)) as H.
    by destruct (read_times _ _ _ _) as [[? ?]| |]. }
  split; [done|]. intros [Hl Hn] Hlt.
  destruct (parse_attributes (take n _) _) as [s'|e|] eqn:E; [exfalso|eauto|
    by apply Hsafe in E].
  unfold parse_attributes in E.
  destruct (read_times _ _ _ _) as [[l off]| |] eqn:E1; try done.
  pose proof (advances_times (Z.to_nat (AttributeSet_num_attributes s)) _
    advances_attribute _ _ _ _ (Nat.le_0_l _) E1) as Hoff.
  apply (stable_times _ _ advances_attribute stable_attribute _
    (drop n (AttributeSet_serialize s))) in E1; [|lia].
  rewrite take_drop in E1.
  unfold AttributeSet_num_attributes in E1. rewrite wrap_id, Nat2Z.id in E1 by done.
  rewrite (reads_run _ (AttributeSet_serialize s) (attrs s)) in E1.
  - simplify_eq. rewrite length_take in Hoff. lia.
  - done.
  - apply reads_times. eapply Forall_impl; [done|]. apply reads_attribute.
Qed.

Lemma attributes_truncation_witness :
  ∃ e, parse_attributes (take 11 (AttributeSet_serialize sample_attributes)) 2 = Err e.
Proof.
  apply (attributes_truncation sample_attributes 11); [|cbn; lia].
  by_decision.
Defined.
