(* ===== verification/Gregorian.v ===== *)
(** * The Gregorian calendar

    The proleptic Gregorian calendar as the succession of its dates, and the
    closed form of the day count. It is the specification that the date
    arithmetic of the program is compared with, and knows nothing of the
    program. *)
From S2P Require Import Prelude.

#[local] Open Scope Z_scope.

(** ** Dates and their succession *)
Record Date := { year : Z; month : Z; day : Z }.

#[global] Instance Date_eq_dec : EqDecision Date.
Proof. solve_decision. Defined.

Definition leap (y : Z) : bool :=
  ((y mod 4 =? 0) && negb (y mod 100 =? 0)) || (y mod 400 =? 0).

Definition month_length (y m : Z) : Z :=
  match m with
  | 2 => if leap y then 29 else 28
  | 4 | 6 | 9 | 11 => 30
  | _ => 31
  end.

Definition valid_date (d : Date) : Prop :=
  1 ≤ month d ≤ 12 ∧ 1 ≤ day d ≤ month_length (year d) (month d).

#[global] Instance valid_date_dec d : Decision (valid_date d).
Proof. unfold valid_date. apply _. Defined.

Definition next_day (d : Date) : Date :=
  if day d <? month_length (year d) (month d)
  then {| year := year d; month := month d; day := day d + 1 |}
  else if month d <? 12
  then {| year := year d; month := month d + 1; day := 1 |}
  else {| year := year d + 1; month := 1; day := 1 |}.

Definition prev_day (d : Date) : Date :=
  if 1 <? day d
  then {| year := year d; month := month d; day := day d - 1 |}
  else if 1 <? month d
  then {| year := year d; month := month d - 1;
          day := month_length (year d) (month d - 1) |}
  else {| year := year d - 1; month := 12; day := 31 |}.

Definition epoch : Date := {| year := 1970; month := 1; day := 1 |}.

(** [numbered o s n d]: [d] is day [n] when day [o] is the date [s], counting one
    per day forwards and backwards. *)
Inductive numbered (o : Z) (s : Date) : Z → Date → Prop :=
| numbered_start : numbered o s o s
| numbered_after n d : numbered o s n d → numbered o s (n + 1) (next_day d)
| numbered_before n d :
    valid_date d → numbered o s n (next_day d) → numbered o s (n - 1) d.

(** Days since 1970-01-01, the Arrow Date32 count. *)
Definition day_at : Z → Date → Prop := numbered 0 epoch.

(** Days with 0001-01-01 as day 1, chrono's count. *)
Definition ce_day_at : Z → Date → Prop := numbered 1 {| year := 1; month := 1; day := 1 |}.

(** Days of a common year before month [m]. *)
Definition month_start (m : Z) : Z :=
  match m with
  | 1 => 0 | 2 => 31 | 3 => 59 | 4 => 90 | 5 => 120 | 6 => 151
  | 7 => 181 | 8 => 212 | 9 => 243 | 10 => 273 | 11 => 304 | 12 => 334
  | _ => 0
  end.

(** The closed form of the count. *)
Definition day_number (d : Date) : Z :=
  (year d - 1970) * 365 + (year d - 1969) / 4 - (year d - 1901) / 100
  + (year d - 1601) / 400 + month_start (month d) + day d - 1
  + (if (2 <? month d) && leap (year d) then 1 else 0).

(** ** Lemmas *)
Lemma div_succ z k : 0 < k → (z + 1) / k = z / k + (if (z + 1) mod k =? 0 then 1 else 0).
Proof.
  intros Hk. pose proof (Z.div_mod z k). pose proof (Z.div_mod (z + 1) k).
  pose proof (Z.mod_pos_bound z k). pose proof (Z.mod_pos_bound (z + 1) k).
  destruct (Z.eqb_spec ((z + 1) mod k) 0); nia.
Qed.

(** One year is 365 days, or 366 in a leap year. *)
Lemma year_days y :
  ((y + 1 - 1970) * 365 + (y + 1 - 1969) / 4 - (y + 1 - 1901) / 100 + (y + 1 - 1601) / 400)
  - ((y - 1970) * 365 + (y - 1969) / 4 - (y - 1901) / 100 + (y - 1601) / 400)
  = 365 + (if leap y then 1 else 0).
Proof.
  replace (y + 1 - 1969) with (y - 1969 + 1) by lia.
  replace (y + 1 - 1901) with (y - 1901 + 1) by lia.
  replace (y + 1 - 1601) with (y - 1601 + 1) by lia.
  rewrite !div_succ by lia. unfold leap.
  assert ((y - 1969 + 1) mod 4 = y mod 4) as ->
    by (replace (y - 1969 + 1) with (y + (-492) * 4) by lia; apply Z_mod_plus_full).
  assert ((y - 1901 + 1) mod 100 = y mod 100) as ->
    by (replace (y - 1901 + 1) with (y + (-19) * 100) by lia; apply Z_mod_plus_full).
  assert ((y - 1601 + 1) mod 400 = y mod 400) as ->
    by (replace (y - 1601 + 1) with (y + (-4) * 400) by lia; apply Z_mod_plus_full).
  destruct (Z.eqb_spec (y mod 4) 0), (Z.eqb_spec (y mod 100) 0),
    (Z.eqb_spec (y mod 400) 0); cbn [andb orb negb]; Z.div_mod_to_equations; lia.
Qed.

Lemma month_cases m (Q : Z → Prop) :
  Q 1 → Q 2 → Q 3 → Q 4 → Q 5 → Q 6 → Q 7 → Q 8 → Q 9 → Q 10 → Q 11 → Q 12 →
  1 ≤ m ≤ 12 → Q m.
Proof.
  intros. assert (m = 1 ∨ m = 2 ∨ m = 3 ∨ m = 4 ∨ m = 5 ∨ m = 6 ∨ m = 7 ∨ m = 8 ∨
    m = 9 ∨ m = 10 ∨ m = 11 ∨ m = 12) as Hm by lia.
  by repeat destruct Hm as [->|Hm]; [..|subst].
Qed.

Lemma month_length_bounds y m : 28 ≤ month_length y m ≤ 31.
Proof. unfold month_length. repeat case_match; lia. Qed.

(** Days of the year before month [m], with the leap day. *)
Definition days_before_month (y m : Z) : Z :=
  month_start m + (if (2 <? m) && leap y then 1 else 0).

Lemma days_before_next_month y m :
  1 ≤ m < 12 → days_before_month y (m + 1) = days_before_month y m + month_length y m.
Proof.
  intros Hm. unfold days_before_month, month_length.
  assert (1 ≤ m ≤ 12) as Hm' by lia. revert Hm. pattern m.
  apply month_cases; [..|done]; intros; destruct (leap y); try reflexivity; lia.
Qed.

Lemma next_day_valid d : valid_date d → valid_date (next_day d).
Proof.
  destruct d as [y m d]. unfold valid_date, next_day. cbn [year month day].
  pose proof (month_length_bounds y m). pose proof (month_length_bounds y (m + 1)).
  pose proof (month_length_bounds (y + 1) 1).
  intros [Hm Hd]. repeat case_match; cbn [year month day] in *; lia.
Qed.

Lemma prev_day_valid d : valid_date d → valid_date (prev_day d).
Proof.
  destruct d as [y m d]. unfold valid_date, prev_day. cbn [year month day].
  pose proof (month_length_bounds y (m - 1)).
  assert (month_length (y - 1) 12 = 31) by done.
  intros [Hm Hd]. repeat case_match; cbn [year month day] in *; lia.
Qed.

Lemma next_prev_day d : valid_date d → next_day (prev_day d) = d.
Proof.
  destruct d as [y m d]. unfold valid_date, prev_day, next_day. cbn [year month day].
  assert (month_length (y - 1) 12 = 31) by done.
  intros [Hm Hd]. repeat case_match; cbn [year month day] in *; try lia; f_equal; lia.
Qed.

Lemma next_day_inj d1 d2 :
  valid_date d1 → valid_date d2 → next_day d1 = next_day d2 → d1 = d2.
Proof.
  destruct d1 as [y1 m1 d1], d2 as [y2 m2 d2]. unfold valid_date, next_day.
  cbn [year month day]. intros [Hm1 Hd1] [Hm2 Hd2].
  pose proof (month_length_bounds y1 m1). pose proof (month_length_bounds y2 m2).
  destruct (Z.ltb_spec d1 (month_length y1 m1)), (Z.ltb_spec d2 (month_length y2 m2)),
    (Z.ltb_spec m1 12), (Z.ltb_spec m2 12); intros E; injection E; intros; try lia.
  - f_equal; lia.
  - f_equal; lia.
  - assert (m1 = m2) as -> by lia. assert (y1 = y2) as -> by lia. f_equal. lia.
  - assert (m1 = 12) as -> by lia. assert (m2 = 12) as -> by lia.
    assert (y1 = y2) as -> by lia. f_equal. change (month_length y2 12) with 31 in *. lia.
Qed.

Lemma day_number_alt d :
  day_number d = (year d - 1970) * 365 + (year d - 1969) / 4 - (year d - 1901) / 100
    + (year d - 1601) / 400 + days_before_month (year d) (month d) + day d - 1.
Proof. unfold day_number, days_before_month. lia. Qed.

Lemma day_number_next d : valid_date d → day_number (next_day d) = day_number d + 1.
Proof.
  destruct d as [y m d]. rewrite !day_number_alt. unfold valid_date, next_day.
  cbn [year month day]. intros [Hm Hd]. pose proof (year_days y).
  destruct (Z.ltb_spec d (month_length y m)); cbn [year month day]; [lia|].
  destruct (Z.ltb_spec m 12); cbn [year month day].
  - rewrite days_before_next_month by lia. lia.
  - assert (m = 12) as -> by lia.
    assert (days_before_month y 12 = 334 + (if leap y then 1 else 0)) as -> by done.
    assert (days_before_month (y + 1) 1 = 0) as -> by done.
    assert (month_length y 12 = 31) by done. lia.
Qed.

Lemma numbered_spec o s n d :
  valid_date s → numbered o s n d → valid_date d ∧ day_number d = n - o + day_number s.
Proof.
  intros Hs. induction 1 as [|n d _ [Hv IH]|n d Hv _ [_ IH]].
  - split; [done|lia].
  - split; [by apply next_day_valid|]. rewrite day_number_next by done. lia.
  - split; [done|]. rewrite day_number_next in IH by done. lia.
Qed.

Lemma days_before_month_bounds y m d :
  1 ≤ m ≤ 12 → 1 ≤ d ≤ month_length y m →
  0 ≤ days_before_month y m + d - 1 ≤ 364 + (if leap y then 1 else 0) ∧
  (days_before_month y m + d - 1 = 0 → m = 1 ∧ d = 1).
Proof.
  intros Hm. unfold days_before_month, month_length. pattern m.
  apply month_cases; [..|done]; destruct (leap y);
    cbn [month_start Z.ltb Z.compare Pos.compare Pos.compare_cont andb]; lia.
Qed.

Lemma day_number_zero d : valid_date d → day_number d = 0 → d = epoch.
Proof.
  destruct d as [y m d]. rewrite day_number_alt. unfold valid_date, epoch.
  cbn [year month day]. intros [Hm Hd].
  pose proof (days_before_month_bounds y m d Hm Hd) as [Hb H0].
  assert (y < 1969 ∨ y = 1969 ∨ y = 1970 ∨ 1970 < y) as Hy by lia.
  destruct Hy as [Hy|[->|[->|Hy]]]; intros Hz.
  - destruct (leap y); Z.div_mod_to_equations; lia.
  - change (leap 1969) with false in Hb. Z.div_mod_to_equations; lia.
  - change (1970 - 1969) with 1 in Hz. Z.div_mod_to_equations. destruct H0; [lia|].
    by subst.
  - Z.div_mod_to_equations; lia.
Qed.

Lemma day_number_inj d1 d2 :
  valid_date d1 → valid_date d2 → day_number d1 = day_number d2 → d1 = d2.
Proof.
  intros H1 H2 Heq. remember (Z.abs_nat (day_number d1)) as k eqn:Hk.
  revert d1 d2 H1 H2 Heq Hk. induction k as [|k IH]; intros d1 d2 H1 H2 Heq Hk.
  - by rewrite (day_number_zero d1), (day_number_zero d2) by (done || lia).
  - pose proof (day_number_next _ H1). pose proof (day_number_next _ H2).
    pose proof (prev_day_valid _ H1) as P1. pose proof (prev_day_valid _ H2) as P2.
    pose proof (day_number_next _ P1) as N1. pose proof (day_number_next _ P2) as N2.
    rewrite next_prev_day in N1, N2 by done.
    destruct (decide (0 < day_number d1)).
    + rewrite <- (next_prev_day d1), <- (next_prev_day d2) by done. f_equal.
      apply IH; [done|done|lia|lia].
    + assert (next_day d1 = next_day d2) as Hn
        by (apply IH; [by apply next_day_valid..|lia|lia]).
      by apply next_day_inj.
Qed.

(** Every valid date has its number, whatever the origin. *)
Lemma numbered_complete o s d :
  valid_date s → valid_date d → numbered o s (o + day_number d - day_number s) d.
Proof.
  intros Hs Hd. remember (Z.abs_nat (day_number d - day_number s)) as k eqn:Hk.
  revert d Hd Hk. induction k as [|k IH]; intros d Hd Hk.
  - rewrite (day_number_inj d s) by (done || lia).
    replace (o + day_number s - day_number s) with o by lia. constructor.
  - destruct (decide (day_number s < day_number d)).
    + pose proof (prev_day_valid d Hd) as Hp. pose proof (day_number_next _ Hp) as Hn.
      rewrite next_prev_day in Hn by done.
      rewrite <- (next_prev_day d Hd) at 2.
      replace (o + day_number d - day_number s)
        with (o + day_number (prev_day d) - day_number s + 1) by lia.
      constructor. apply IH; [done|lia].
    + pose proof (day_number_next _ Hd) as Hn.
      replace (o + day_number d - day_number s)
        with (o + day_number (next_day d) - day_number s - 1) by lia.
      constructor; [done|]. apply IH; [by apply next_day_valid|lia].
Qed.

Lemma day_at_iff n d : day_at n d ↔ valid_date d ∧ day_number d = n.
Proof.
  assert (valid_date epoch) as He by by_decision.
  assert (day_number epoch = 0) as H0 by reflexivity.
  split; [intros H%numbered_spec; [|done]; split; [apply H|lia]|].
  intros [Hd <-]. unfold day_at.
  replace (day_number d) with (0 + day_number d - day_number epoch) by lia.
  by apply numbered_complete.
Qed.

Lemma ce_day_at_iff n d : ce_day_at n d ↔ valid_date d ∧ day_number d = n - 719163.
Proof.
  set (s := {| year := 1; month := 1; day := 1 |}).
  assert (valid_date s) as He by by_decision.
  assert (day_number s = -719162) as H0 by reflexivity.
  split; [intros [Hv H]%numbered_spec; [|done]; fold s in H; split; [done|lia]|].
  intros [Hd Hn]. unfold ce_day_at.
  replace n with (1 + day_number d - day_number s) by lia. by apply numbered_complete.
Qed.

(** The date of a day number, by counting from the epoch. *)
Definition date_of_day (n : Z) : Date :=
  if 0 <=? n then Nat.iter (Z.to_nat n) next_day epoch
  else Nat.iter (Z.to_nat (- n)) prev_day epoch.

Lemma date_of_day_at n : day_at n (date_of_day n).
Proof.
  assert (∀ k, day_at (Z.of_nat k) (Nat.iter k next_day epoch)) as Hf.
  { induction k as [|k IH]; [apply day_at_iff; by_decision|]. cbn [Nat.iter].
    rewrite Nat2Z.inj_succ. unfold day_at in *. constructor. exact IH. }
  assert (∀ k, day_at (- Z.of_nat k) (Nat.iter k prev_day epoch)) as Hb.
  { induction k as [|k IH]; [apply day_at_iff; by_decision|].
    change (Nat.iter (S k) prev_day epoch) with (prev_day (Nat.iter k prev_day epoch)).
    replace (- Z.of_nat (S k)) with (- Z.of_nat k - 1) by lia.
    pose proof IH as [Hv _]%day_at_iff. unfold day_at in *.
    constructor; [by apply prev_day_valid|]. by rewrite next_prev_day. }
  unfold date_of_day. destruct (Z.leb_spec 0 n).
  - rewrite <- (Z2Nat.id n) at 1 by done. apply Hf.
  - replace n with (- Z.of_nat (Z.to_nat (- n))) at 1 by lia. apply Hb.
Qed.
