(* ===== verification/DateTime.v ===== *)
(** * Dates and timestamps

    The date and timestamp part of [types/conversion.rs]: text to day counts and
    microseconds, day counts and instants to text, and the field-level parser of
    DATE and TIMESTAMP parameters. The chrono calls are the methods of the class
    [Chrono]; its laws [ChronoLaws] state chrono's documented behaviour against
    the calendar of [Gregorian]. An executable calendar at the
    end is an instance of both. *)
From S2P Require Import Prelude MachineInt RustStr Gregorian.
From Stdlib Require Import Ascii.

#[local] Open Scope Z_scope.

(** ** Constants *)
(* code: types/conversion.rs 15-15 MILLIS_PER_DAY *)
Definition MILLIS_PER_DAY : Z := 86400000.
(* code: types/conversion.rs 117-117 DAYS_FROM_CE_TO_EPOCH *)
Definition DAYS_FROM_CE_TO_EPOCH : Z := 719163.
(* code: types/conversion.rs 116-116 EXASOL_YEARS *)
Definition in_exasol_years (year : Z) : bool := (1 <=? year) && (year <=? 9999).
(* code: types/conversion.rs 187-189 DATE_TEXT_FORM *)
Definition DATE_TEXT_FORM : string := "YYYY-MM-DD".
(* code: types/conversion.rs 190-192 TIMESTAMP_TEXT_FORM *)
Definition TIMESTAMP_TEXT_FORM : string := "YYYY-MM-DD HH:MI:SS.FFFFFFFFF".

(** ** Text to numbers *)
Section Profile.
Context `{P : BuildProfile}.

(* code: types/conversion.rs 73-87 ymd_to_days *)
Definition days_from_month (month : Z) : Z :=
  match month with
  | 1 => 0 | 2 => 31 | 3 => 59 | 4 => 90 | 5 => 120 | 6 => 151
  | 7 => 181 | 8 => 212 | 9 => 243 | 10 => 273 | 11 => 304 | 12 => 334
  | _ => 0
  end.

(* code: types/conversion.rs 89-89 ymd_to_days *)
Definition is_leap_year (year : Z) : bool :=
  ((Z.rem year 4 =? 0) && negb (Z.rem year 100 =? 0)) || (Z.rem year 400 =? 0).

(** [i32::div_euclid] by a positive constant is the floor division [Z.div]. *)
(* code: types/conversion.rs 66-93 ymd_to_days *)
Definition ymd_to_days {E} (year month day : Z) : outcome E Z :=
  y0 ← arith I32 (year - 1970);
  y1 ← arith I32 (y0 * 365);
  l0 ← arith I32 (year - 1969);
  y2 ← arith I32 (y1 + l0 / 4);
  l1 ← arith I32 (year - 1901);
  y3 ← arith I32 (y2 - l1 / 100);
  l2 ← arith I32 (year - 1601);
  days_from_year ← arith I32 (y3 + l2 / 400);
  let leap_adjustment := if (2 <? month) && is_leap_year year then 1 else 0 in
  d1 ← arith I32 (days_from_year + days_from_month month);
  d2 ← arith I32 (d1 + wrap I32 day);
  d3 ← arith I32 (d2 - 1);
  arith I32 (d3 + leap_adjustment).

(* code: types/conversion.rs 28-64 parse_date_to_days *)
Definition parse_date_to_days (date_str : string) : outcome string Z :=
  match split_on "-" date_str with
  | [p0; p1; p2] =>
    year ← ok_or ("Invalid year: " +:+ p0) (parse_int I32 p0);
    month ← ok_or ("Invalid month: " +:+ p1) (parse_int U32 p1);
    day ← ok_or ("Invalid day: " +:+ p2) (parse_int U32 p2);
    if negb ((1 <=? month) && (month <=? 12)) then
      Err ("Month out of range: " +:+ show_int month)
    else if negb ((1 <=? day) && (day <=? 31)) then
      Err ("Day out of range: " +:+ show_int day)
    else ymd_to_days year month day
  | _ => Err ("Invalid date format: " +:+ date_str +:+ " (expected YYYY-MM-DD)")
  end.

(* code: types/conversion.rs 95-114 ymd_hms_nanos_to_micros *)
Definition ymd_hms_nanos_to_micros {E} (year month day hour minute second nanos : Z)
    : outcome E Z :=
  days ← ymd_to_days year month day;
  m0 ← arith I64 (days * 86400);
  m1 ← arith I64 (m0 * 1000000);
  h0 ← arith I64 (wrap I64 hour * 3600);
  h1 ← arith I64 (h0 * 1000000);
  m2 ← arith I64 (m1 + h1);
  i0 ← arith I64 (wrap I64 minute * 60);
  i1 ← arith I64 (i0 * 1000000);
  m3 ← arith I64 (m2 + i1);
  s1 ← arith I64 (wrap I64 second * 1000000);
  m4 ← arith I64 (m3 + s1);
  arith I64 (m4 + Z.quot nanos 1000).

(* code: types/conversion.rs 355-368 fractional_seconds_to_units *)
Definition fractional_seconds_to_units {E} (fraction : string) (unit_digits : nat)
    : outcome E Z :=
  if (unit_digits <? str_len fraction)%nat then
    prefix ← str_slice_to unit_digits fraction;
    mret (default 0 (parse_int I64 prefix))
  else
    match parse_int I64 fraction with
    | None => Ok 0
    | Some value =>
      Ok (saturating I64 (value * 10 ^ Z.of_nat (unit_digits - str_len fraction)))
    end.

(* code: types/conversion.rs 338-347 fractional_seconds_to_micros *)
Definition fractional_seconds_to_micros {E} (fraction : string) : outcome E Z :=
  fractional_seconds_to_units fraction 6%nat.

(* code: types/conversion.rs 349-353 fractional_seconds_to_nanos *)
Definition fractional_seconds_to_nanos {E} (fraction : string) : outcome E Z :=
  fractional_seconds_to_units fraction 9%nat.

(* code: types/conversion.rs 324-336 parse_seconds_field_to_micros *)
Definition parse_seconds_field_to_micros (seconds_field : string) : outcome string Z :=
  let sec_parts := split_on "." seconds_field in
  let p0 := default "" (sec_parts !! 0%nat) in
  seconds ← ok_or ("Invalid second: " +:+ p0) (parse_int I64 p0);
  micros ← arith I64 (seconds * 1000000);
  match sec_parts !! 1%nat with
  | Some fraction => f ← fractional_seconds_to_micros fraction; arith I64 (micros + f)
  | None => Ok micros
  end.

(* code: types/conversion.rs 299-322 parse_time_of_day_to_micros *)
Definition parse_time_of_day_to_micros (time_str : string) : outcome string Z :=
  match split_on ":" time_str with
  | p0 :: p1 :: rest =>
    hours ← ok_or ("Invalid hour: " +:+ p0) (parse_int I64 p0);
    minutes ← ok_or ("Invalid minute: " +:+ p1) (parse_int I64 p1);
    h0 ← arith I64 (hours * 3600);
    h1 ← arith I64 (h0 * 1000000);
    m0 ← arith I64 (minutes * 60);
    m1 ← arith I64 (m0 * 1000000);
    micros ← arith I64 (h1 + m1);
    match rest with
    | seconds_field :: _ =>
      s ← parse_seconds_field_to_micros seconds_field; arith I64 (micros + s)
    | [] => Ok micros
    end
  | _ => Ok 0
  end.

(* code: types/conversion.rs 274-297 parse_timestamp_to_micros *)
Definition parse_timestamp_to_micros (timestamp_str : string) : outcome string Z :=
  let segments := split_on " " timestamp_str in
  days ← parse_date_to_days (default "" (segments !! 0%nat));
  d0 ← arith I64 (days * 86400);
  date_micros ← arith I64 (d0 * 1000000);
  match segments !! 1%nat with
  | Some time_str =>
    t ← parse_time_of_day_to_micros time_str; arith I64 (date_micros + t)
  | None => Ok date_micros
  end.
End Profile.

(** ** Parameter text *)
(* code: types/conversion.rs 194-205 TemporalFields *)
Record TemporalFields := {
  tf_year : Z; tf_month : Z; tf_day : Z;
  tf_hour : Z; tf_minute : Z; tf_second : Z; tf_nanos : Z;
}.

#[global] Instance TemporalFields_eq_dec : EqDecision TemporalFields.
Proof. solve_decision. Defined.

(* code: types/conversion.rs 207-213 digits *)
Definition digits (part : string) (max_len : nat) : option Z :=
  if (str_len part =? 0)%nat || (max_len <? str_len part)%nat ||
     negb (str_forall is_digit part)
  then None
  else parse_int U32 part.

#[global] Arguments digits _%_stdpp _%_nat.

Fixpoint trim_start_spaces (s : string) : string :=
  match s with String " "%char s => trim_start_spaces s | _ => s end.

Fixpoint trim_end_spaces (s : string) : string :=
  match s with
  | EmptyString => EmptyString
  | String a s =>
    match trim_end_spaces s with
    | EmptyString => if Ascii.eqb a " "%char then EmptyString else String a EmptyString
    | s => String a s
    end
  end.

(** [text.trim_matches(' ')]. *)
Definition trim_spaces (s : string) : string := trim_end_spaces (trim_start_spaces s).

(** [s.splitn(3, ':')]: everything after the second colon is the third part. *)
Definition splitn3 (c : ascii) (s : string) : list string :=
  match split_once c s with
  | None => [s]
  | Some (a, r) =>
    match split_once c r with
    | None => [a; r]
    | Some (b, r) => [a; b; r]
    end
  end.

(* code: types/conversion.rs 238-252 parse_temporal_fields *)
Definition parse_temporal_time (fields : TemporalFields) (time : string)
    : option TemporalFields :=
  let parts := splitn3 ":" time in
  hour ← parts !! 0%nat ≫= λ p, digits p 2;
  minute ← match parts !! 1%nat with Some m => digits m 2 | None => Some 0 end;
  '(second, nanos) ←
    match parts !! 2%nat with
    | None => Some (0, 0)
    | Some seconds =>
      let '(sec, frac) := default (seconds, "") (split_once "." seconds) in
      second ← digits sec 2;
      if (9 <? str_len frac)%nat || negb (str_forall is_digit frac) then None
      else nanos ← parse_int U32 (pad_right 9 "0" frac); Some (second, nanos)
    end;
  Some {| tf_year := tf_year fields; tf_month := tf_month fields;
          tf_day := tf_day fields; tf_hour := wrap U8 hour;
          tf_minute := wrap U8 minute; tf_second := wrap U8 second;
          tf_nanos := nanos |}.

(* code: types/conversion.rs 215-254 parse_temporal_fields *)
Definition parse_temporal_fields (text : string) : option TemporalFields :=
  let text := trim_spaces text in
  let '(date, time) :=
    match split_once " " text with
    | Some (date, time) => (date, Some (trim_start_spaces time))
    | None => (text, None)
    end in
  let date_parts := split_on "-" date in
  year ← date_parts !! 0%nat ≫= λ p, digits p 4;
  month ← date_parts !! 1%nat ≫= λ p, digits p 2;
  day ← date_parts !! 2%nat ≫= λ p, digits p 2;
  match date_parts !! 3%nat with
  | Some _ => None
  | None =>
    let fields := {| tf_year := wrap U16 year; tf_month := wrap U8 month;
                     tf_day := wrap U8 day; tf_hour := 0; tf_minute := 0;
                     tf_second := 0; tf_nanos := 0 |} in
    match time with
    | Some time => parse_temporal_time fields time
    | None => Some fields
    end
  end.

(* code: types/conversion.rs 256-263 parse_timestamp_text *)
Definition parse_timestamp_text (text : string) : outcome string TemporalFields :=
  ok_or ("Cannot read '" +:+ text +:+ "' as a timestamp, expected " +:+ TIMESTAMP_TEXT_FORM)
    (parse_temporal_fields text).

(* code: types/conversion.rs 265-272 parse_date_text *)
Definition parse_date_text (text : string) : outcome string TemporalFields :=
  ok_or ("Cannot read '" +:+ text +:+ "' as a date, expected " +:+ DATE_TEXT_FORM)
    (f ← parse_temporal_fields text;
     if (tf_hour f <=? 23) && (tf_minute f <=? 60) && (tf_second f <=? 60)
     then Some f else None).

(** ** Numbers to text *)

(** The chrono calls of the formatters. An instant is its date and its
    microsecond within that day. *)
Class Chrono := {
  from_num_days_from_ce_opt : Z → option Date;
  from_timestamp_micros : Z → option (Date * Z);
  strftime_date : Date → string;
  strftime_micros : Date * Z → string;
}.

(** chrono's documented behaviour: the proleptic Gregorian calendar, total on the
    years 1 to 9999, and zero-padded fields for those years. *)
Class ChronoLaws (C : Chrono) := {
  chrono_date_sound n d : from_num_days_from_ce_opt n = Some d → ce_day_at n d;
  chrono_date_total n d :
    ce_day_at n d → 1 ≤ year d ≤ 9999 → is_Some (from_num_days_from_ce_opt n);
  chrono_instant_sound m d t :
    from_timestamp_micros m = Some (d, t) →
    0 ≤ t < 86400000000 ∧ ∃ n, day_at n d ∧ m = n * 86400000000 + t;
  chrono_instant_total n d t :
    day_at n d → 1 ≤ year d ≤ 9999 → 0 ≤ t < 86400000000 →
    is_Some (from_timestamp_micros (n * 86400000000 + t));
  chrono_format_date d :
    valid_date d → 1 ≤ year d ≤ 9999 →
    strftime_date d = show_padded 4 (year d) +:+ "-" +:+ show_padded 2 (month d)
                      +:+ "-" +:+ show_padded 2 (day d);
  chrono_format_micros d t :
    valid_date d → 1 ≤ year d ≤ 9999 → 0 ≤ t < 86400000000 →
    strftime_micros (d, t) =
      strftime_date d +:+ " " +:+ show_padded 2 (t / 3600000000)
      +:+ ":" +:+ show_padded 2 (t / 60000000 mod 60)
      +:+ ":" +:+ show_padded 2 (t / 1000000 mod 60)
      +:+ "." +:+ show_padded 6 (t mod 1000000);
}.

(** arrow's [TimeUnit], with its [Debug] text. *)
Inductive TimeUnit := Second | Millisecond | Microsecond | Nanosecond.

#[global] Instance TimeUnit_eq_dec : EqDecision TimeUnit.
Proof. solve_decision. Defined.

Definition show_unit (u : TimeUnit) : string :=
  match u with
  | Second => "Second" | Millisecond => "Millisecond"
  | Microsecond => "Microsecond" | Nanosecond => "Nanosecond"
  end.

(* code: types/conversion.rs 119-133 format_date32 *)
Definition format_date32 `{Chrono} (days : Z) : outcome string string :=
  date ← ok_or ("Date32 value " +:+ show_int days +:+
                " is outside 0001-01-01 to 9999-12-31, the range Exasol accepts")
    (n ← checked I32 (days + DAYS_FROM_CE_TO_EPOCH);
     date ← from_num_days_from_ce_opt n;
     if in_exasol_years (year date) then Some date else None);
  Ok (strftime_date date).

(* code: types/conversion.rs 135-148 format_date64 *)
Definition format_date64 `{Chrono} (milliseconds : Z) : outcome string string :=
  let outside_range := "Date64 value " +:+ show_int milliseconds +:+
    " is outside 0001-01-01 to 9999-12-31, the range Exasol accepts" in
  days ← ok_or outside_range (checked I32 (milliseconds / MILLIS_PER_DAY));
  map_err (λ _, outside_range) (format_date32 days).

(* code: types/conversion.rs 150-162 format_timestamp_micros *)
Definition format_timestamp_micros `{Chrono} (micros : Z) : outcome string string :=
  instant ← ok_or ("Timestamp value " +:+ show_int micros +:+
      " microseconds is outside 0001-01-01 00:00:00 to 9999-12-31 23:59:59.999999, the range Exasol accepts")
    (instant ← from_timestamp_micros micros;
     if in_exasol_years (year instant.1) then Some instant else None);
  Ok (strftime_micros instant).

(* code: types/conversion.rs 174-185 timestamp_unit_to_micros *)
Definition timestamp_unit_to_micros (u : TimeUnit) (value : Z) : outcome string Z :=
  ok_or ("Timestamp value " +:+ show_int value +:+ " in unit " +:+ show_unit u +:+
         " overflows when converted to microseconds")
    match u with
    | Second => checked I64 (value * 1000000)
    | Millisecond => checked I64 (value * 1000)
    | Microsecond => Some value
    | Nanosecond => Some (value / 1000)
    end.

(* code: types/conversion.rs 164-172 format_timestamp *)
Definition format_timestamp `{Chrono} (u : TimeUnit) (value : Z) : outcome string string :=
  micros ← timestamp_unit_to_micros u value;
  map_err (λ _, "Timestamp value " +:+ show_int value +:+ " in unit " +:+ show_unit u +:+
      " is outside 0001-01-01 00:00:00 to 9999-12-31 23:59:59.999999, the range Exasol accepts")
    (format_timestamp_micros micros).

(** ** The calendar of the texts *)
(** The years in which no intermediate value of [ymd_to_days] leaves [i32]. *)
Definition day_count_years (y : Z) : Prop := -5000000 ≤ y ≤ 5000000.

(** ** Lemmas *)
Lemma is_leap_year_leap y : is_leap_year y = leap y.
Proof.
  unfold is_leap_year, leap.
  assert (∀ k, k ≠ 0 → (Z.rem y k =? 0) = (y mod k =? 0)) as H.
  { intros k Hk. apply eq_true_iff_eq. rewrite !Z.eqb_eq.
    rewrite Z.rem_divide, Z.mod_divide by done. done. }
  by rewrite !H.
Qed.

(** ** The day count of the program *)
Lemma ymd_to_days_number `{BuildProfile} {E} d :
  valid_date d → day_count_years (year d) →
  ymd_to_days (E := E) (year d) (month d) (day d) = Ok (day_number d).
Proof.
  destruct d as [y m d]. unfold valid_date, day_count_years. cbn [year month day].
  intros [Hm Hd] Hy. unfold ymd_to_days, day_number. cbn [year month day].
  rewrite is_leap_year_leap.
  assert (0 ≤ days_from_month m ≤ 334).
  { pattern m. apply month_cases; [..|done]; cbn; lia. }
  pose proof (month_length_bounds y m).
  rewrite (wrap_id I32 d) by range.
  set (adj := if (2 <? m) && leap y then 1 else 0).
  assert (0 ≤ adj ≤ 1) by (unfold adj; case_match; lia). clearbody adj.
  assert (-1250500 ≤ (y - 1969) / 4 ≤ 1249600) by (Z.div_mod_to_equations; lia).
  assert (-50100 ≤ (y - 1901) / 100 ≤ 49990) by (Z.div_mod_to_equations; lia).
  assert (-12600 ≤ (y - 1601) / 400 ≤ 12499) by (Z.div_mod_to_equations; lia).
  by run_arith.
Qed.

Lemma exasol_years_range d :
  valid_date d → 1 ≤ year d ≤ 9999 ↔ -719162 ≤ day_number d ≤ 2932896.
Proof.
  destruct d as [y m d]. rewrite day_number_alt. unfold valid_date. cbn [year month day].
  intros [Hm Hd]. pose proof (days_before_month_bounds y m d Hm Hd) as [Hb _].
  assert (y ≤ 0 ∨ 1 ≤ y ≤ 9999 ∨ 10000 ≤ y) as [Hy|[Hy|Hy]] by lia.
  - split; [lia|]. destruct (decide (y = 0)) as [->|].
    + change (leap 0) with true in Hb. change ((0 - 1969) / 4) with (-493).
      change ((0 - 1901) / 100) with (-20). change ((0 - 1601) / 400) with (-5). lia.
    + destruct (leap y); Z.div_mod_to_equations; lia.
  - split; [|lia]. intros _. destruct (decide (y = 9999)) as [->|].
    + change (leap 9999) with false in Hb. change ((9999 - 1969) / 4) with 2007.
      change ((9999 - 1901) / 100) with 80. change ((9999 - 1601) / 400) with 20. lia.
    + destruct (leap y); Z.div_mod_to_equations; lia.
  - split; [lia|]. Z.div_mod_to_equations; lia.
Qed.

Lemma in_exasol_years_true y : in_exasol_years y = true ↔ 1 ≤ y ≤ 9999.
Proof. unfold in_exasol_years. rewrite andb_true_iff, !Z.leb_le. done. Qed.

(** The text of a date. *)
Definition date_text (d : Date) : string :=
  show_padded 4 (year d) +:+ "-" +:+ show_padded 2 (month d) +:+ "-"
  +:+ show_padded 2 (day d).

Lemma parse_date_text_days `{BuildProfile} d :
  valid_date d → 1 ≤ year d ≤ 9999 → parse_date_to_days (date_text d) = Ok (day_number d).
Proof.
  intros Hv Hy. pose proof Hv as [Hm Hd].
  pose proof (month_length_bounds (year d) (month d)).
  unfold parse_date_to_days, date_text.
  rewrite !str_app_char, !split_on_cons, split_on_absent by (apply show_padded_no_char; [done|lia]).
  rewrite !parse_int_show_padded by (lia || range). cbn [ok_or mbind outcome_bind].
  rewrite !(proj2 (Z.leb_le _ _)) by lia. cbn [andb negb].
  apply ymd_to_days_number; [done|]. unfold day_count_years. lia.
Qed.

Lemma format_date32_ok `{ChronoLaws} n d :
  day_at n d → 1 ≤ year d ≤ 9999 → format_date32 n = Ok (date_text d).
Proof.
  intros Hn Hy. pose proof Hn as [Hv Hd]%day_at_iff.
  pose proof (proj1 (exasol_years_range d Hv) Hy). unfold format_date32.
  rewrite checked_in by (unfold DAYS_FROM_CE_TO_EPOCH; range). cbn [mbind option_bind].
  assert (ce_day_at (n + DAYS_FROM_CE_TO_EPOCH) d) as Hce.
  { apply ce_day_at_iff. unfold DAYS_FROM_CE_TO_EPOCH. split; [done|lia]. }
  destruct (chrono_date_total _ _ Hce Hy) as [d' Hd']. rewrite Hd'. cbn [option_bind].
  assert (d' = d) as ->.
  { apply chrono_date_sound in Hd'. apply ce_day_at_iff in Hd' as [? ?], Hce as [? ?].
    apply day_number_inj; [done..|lia]. }
  apply in_exasol_years_true in Hy as Hb. unfold_monad. cbn. rewrite Hb. cbn.
  by rewrite chrono_format_date.
Qed.

Lemma format_date32_err `{ChronoLaws} n :
  ¬ -719162 ≤ n ≤ 2932896 → ∃ e, format_date32 n = Err e.
Proof.
  intros Hn. unfold format_date32. unfold_monad.
  destruct (checked I32 _) as [c|] eqn:Hc; [|by eexists]. cbn [option_bind].
  apply checked_Some in Hc as [-> _].
  destruct (from_num_days_from_ce_opt _) as [d|] eqn:Hd; [|by eexists]. cbn [option_bind].
  apply chrono_date_sound, ce_day_at_iff in Hd as [Hv Hd].
  destruct (in_exasol_years (year d)) eqn:Hy; [|by eexists].
  apply in_exasol_years_true, (exasol_years_range d Hv) in Hy.
  unfold DAYS_FROM_CE_TO_EPOCH in Hd. lia.
Qed.

(** ** Properties *)

(** The day count of the code is the calendar's: [ymd_to_days] of a valid date
    is the number of the date when days are counted one by one from 1970-01-01,
    in builds with and without overflow checks, for years -5,000,000 to
    5,000,000. *)
Theorem ymd_to_days_calendar `{BuildProfile} {E} n d :
  day_at n d → day_count_years (year d) →
  ymd_to_days (E := E) (year d) (month d) (day d) = Ok n.
Proof. intros [Hv <-]%day_at_iff Hy. by apply ymd_to_days_number. Qed.

(** Date32 to text and back: [format_date32] accepts exactly the days of the
    years 1 to 9999 and [parse_date_to_days] reads its text back to the same day;
    every other [i32] is an error, never a panic. *)
Theorem date32_text_roundtrip `{BuildProfile, ChronoLaws} n :
  (-719162 ≤ n ≤ 2932896 →
     ∃ s, format_date32 n = Ok s ∧ parse_date_to_days s = Ok n) ∧
  (¬ -719162 ≤ n ≤ 2932896 → ∃ e, format_date32 n = Err e).
Proof.
  split; [|apply format_date32_err]. intros Hn.
  pose proof (date_of_day_at n) as Hd. pose proof Hd as [Hv Hnum]%day_at_iff.
  rewrite <- Hnum in Hn. apply (exasol_years_range _ Hv) in Hn.
  exists (date_text (date_of_day n)). split; [by apply format_date32_ok|].
  by rewrite parse_date_text_days, Hnum.
Qed.

Lemma date_text_shape d :
  valid_date d → 1 ≤ year d → date_text d ≠ ""%string ∧ contains_char " " (date_text d) = false.
Proof.
  intros [Hm Hd] Hy. unfold date_text. split.
  - destruct (show_padded_spec 4 (year d)) as (_ & Hne & _); [lia|].
    by destruct (show_padded 4 (year d)).
  - rewrite !contains_char_app, !show_padded_no_char by (done || lia). done.
Qed.

(** ** Timestamps *)
Definition MICROS_PER_DAY : Z := 86400000000.

Definition time_text (t : Z) : string :=
  show_padded 2 (t / 3600000000) +:+ ":" +:+ show_padded 2 (t / 60000000 mod 60)
  +:+ ":" +:+ show_padded 2 (t / 1000000 mod 60) +:+ "." +:+ show_padded 6 (t mod 1000000).

Lemma time_split t :
  0 ≤ t < MICROS_PER_DAY →
  0 ≤ t / 3600000000 < 24 ∧ 0 ≤ t / 60000000 mod 60 < 60 ∧
  0 ≤ t / 1000000 mod 60 < 60 ∧ 0 ≤ t mod 1000000 < 1000000 ∧
  t = t / 3600000000 * 3600000000 + t / 60000000 mod 60 * 60000000
      + t / 1000000 mod 60 * 1000000 + t mod 1000000.
Proof.
  unfold MICROS_PER_DAY. intros Ht.
  assert (t / 60000000 = t / 1000000 / 60) as Em by (by rewrite Zdiv_Zdiv).
  assert (t / 3600000000 = t / 60000000 / 60) as Eh by (by rewrite Zdiv_Zdiv).
  rewrite Eh, Em. clear Em Eh. Z.div_mod_to_equations. lia.
Qed.

Lemma parse_time_text `{BuildProfile} t :
  0 ≤ t < MICROS_PER_DAY → parse_time_of_day_to_micros (time_text t) = Ok t.
Proof.
  intros Ht. destruct (time_split t Ht) as (Hh & Hm & Hs & Hf & Et).
  unfold parse_time_of_day_to_micros, time_text.
  set (h := t / 3600000000) in *. set (m := t / 60000000 mod 60) in *.
  set (s := t / 1000000 mod 60) in *. set (f := t mod 1000000) in *. clearbody h m s f.
  rewrite !str_app_char, !split_on_cons by (apply show_padded_no_char; [done|lia]).
  rewrite split_on_absent.
  2:{ rewrite contains_char_app, show_padded_no_char by (done || lia). cbn.
      by apply show_padded_no_char; [|lia]. }
  rewrite !parse_int_show_padded by (lia || range). cbn [ok_or mbind outcome_bind].
  unfold parse_seconds_field_to_micros.
  rewrite !split_on_cons, split_on_absent by (apply show_padded_no_char; [done|lia]).
  cbn [lookup list_lookup default from_option id].
  rewrite parse_int_show_padded by (lia || range). cbn [ok_or mbind outcome_bind].
  unfold fractional_seconds_to_micros, fractional_seconds_to_units.
  rewrite str_len_show_padded by lia. cbn [Nat.ltb Nat.leb Nat.sub].
  rewrite parse_int_show_padded by (lia || range). cbn [Z.of_nat].
  rewrite Z.pow_0_r, Z.mul_1_r, saturating_in by range. run_arith. f_equal. lia.
Qed.

Lemma parse_timestamp_text_micros `{BuildProfile} d t :
  valid_date d → 1 ≤ year d ≤ 9999 → 0 ≤ t < MICROS_PER_DAY →
  parse_timestamp_to_micros (date_text d +:+ " " +:+ time_text t)
    = Ok (day_number d * MICROS_PER_DAY + t).
Proof.
  intros Hv Hy Ht. pose proof (proj1 (exasol_years_range d Hv) Hy). pose proof Hv as [Hm Hd].
  pose proof (month_length_bounds (year d) (month d)).
  destruct (time_split t Ht) as (? & ? & ? & ? & _).
  unfold parse_timestamp_to_micros. rewrite str_app_char.
  assert (contains_char " " (date_text d) = false) as Hc1.
  { unfold date_text. rewrite !contains_char_app, !show_padded_no_char by (done || lia). done. }
  assert (contains_char " " (time_text t) = false) as Hc2.
  { unfold time_text. rewrite !contains_char_app, !show_padded_no_char by (done || lia). done. }
  rewrite split_on_cons, split_on_absent by done.
  cbn [lookup list_lookup default from_option id].
  rewrite parse_date_text_days by done. rewrite parse_time_text by done.
  unfold MICROS_PER_DAY in *. run_arith. f_equal. lia.
Qed.

Lemma timestamp_cases m :
  ∃ d t, day_at (m / MICROS_PER_DAY) d ∧ t = m mod MICROS_PER_DAY ∧
         0 ≤ t < MICROS_PER_DAY ∧ m = m / MICROS_PER_DAY * MICROS_PER_DAY + t.
Proof.
  exists (date_of_day (m / MICROS_PER_DAY)), (m mod MICROS_PER_DAY).
  pose proof (Z.mod_pos_bound m MICROS_PER_DAY ltac:(done)).
  pose proof (Z.div_mod m MICROS_PER_DAY ltac:(done)).
  split; [apply date_of_day_at|]. split; [done|]. split; [done|]. lia.
Qed.

(** The microseconds of the years 1 to 9999. *)
Definition exasol_instant (m : Z) : Prop :=
  -719162 * MICROS_PER_DAY ≤ m < 2932897 * MICROS_PER_DAY.

Lemma format_timestamp_micros_ok `{ChronoLaws} m d t :
  day_at (m / MICROS_PER_DAY) d → t = m mod MICROS_PER_DAY → 1 ≤ year d ≤ 9999 →
  format_timestamp_micros m = Ok (date_text d +:+ " " +:+ time_text t).
Proof.
  intros Hd -> Hy. pose proof Hd as [Hv Hn]%day_at_iff.
  pose proof (Z.mod_pos_bound m MICROS_PER_DAY ltac:(done)) as Ht.
  pose proof (Z.div_mod m MICROS_PER_DAY ltac:(done)) as Em.
  destruct (chrono_instant_total _ _ _ Hd Hy Ht) as [[d' t'] Hi].
  fold MICROS_PER_DAY in Hi. rewrite Z.mul_comm, <- Em in Hi.
  pose proof (chrono_instant_sound _ _ _ Hi) as (Ht' & n' & Hd' & Em').
  fold MICROS_PER_DAY in Ht', Em'.
  assert (n' = m / MICROS_PER_DAY ∧ t' = m mod MICROS_PER_DAY) as [-> ->].
  { apply Zdiv_mod_unique with (b := MICROS_PER_DAY); unfold MICROS_PER_DAY in *; lia. }
  assert (d' = d) as ->.
  { apply day_at_iff in Hd' as [? ?]. apply day_number_inj; [done..|lia]. }
  unfold format_timestamp_micros. rewrite Hi. apply in_exasol_years_true in Hy as Hb.
  unfold_monad. cbn. rewrite Hb. cbn. rewrite chrono_format_micros by done.
  by rewrite chrono_format_date.
Qed.

Lemma format_timestamp_micros_err `{ChronoLaws} m :
  ¬ exasol_instant m → ∃ e, format_timestamp_micros m = Err e.
Proof.
  intros Hm. unfold format_timestamp_micros. unfold_monad.
  destruct (from_timestamp_micros m) as [[d t]|] eqn:Hi; [|by eexists]. cbn [option_bind fst].
  apply chrono_instant_sound in Hi as (Ht & n & [Hv Hn]%day_at_iff & Em).
  destruct (in_exasol_years (year d)) eqn:Hy; [|by eexists].
  apply in_exasol_years_true, (exasol_years_range d Hv) in Hy.
  unfold exasol_instant, MICROS_PER_DAY in Hm. lia.
Qed.

Lemma exasol_instant_year m d :
  day_at (m / MICROS_PER_DAY) d → exasol_instant m → 1 ≤ year d ≤ 9999.
Proof.
  intros [Hv Hn]%day_at_iff Hm. apply (exasol_years_range d Hv). rewrite Hn.
  unfold exasol_instant, MICROS_PER_DAY in *. Z.div_mod_to_equations. lia.
Qed.

(** The instant of a value in a unit, in whole microseconds, towards the past. *)
Definition unit_micros (u : TimeUnit) (v : Z) : Z :=
  match u with
  | Second => v * 1000000 | Millisecond => v * 1000 | Microsecond => v
  | Nanosecond => v / 1000
  end.

(** Timestamps to text and back: for every Arrow time unit, [format_timestamp]
    accepts exactly the instants of the years 1 to 9999 and
    [parse_timestamp_to_micros] reads the text back to the same microsecond
    (rounded towards the past from nanoseconds); every other value is an error,
    never a panic or a wrapped instant. *)
Theorem timestamp_text_roundtrip `{BuildProfile, ChronoLaws} u v :
  (exasol_instant (unit_micros u v) →
     ∃ s, format_timestamp u v = Ok s ∧
          parse_timestamp_to_micros s = Ok (unit_micros u v)) ∧
  (¬ exasol_instant (unit_micros u v) → ∃ e, format_timestamp u v = Err e).
Proof.
  destruct (timestamp_cases (unit_micros u v)) as (d & t & Hd & Et & Ht & Em).
  set (m := unit_micros u v) in *. unfold format_timestamp.
  assert (timestamp_unit_to_micros u v = Ok m ∨
          ¬ exasol_instant m ∧ ∃ e, timestamp_unit_to_micros u v = Err e) as Hu.
  { unfold timestamp_unit_to_micros, checked, exasol_instant, MICROS_PER_DAY.
    subst m; clear; destruct u; cbn [unit_micros]; [| |by left..].
    all: destruct (in_rangeb I64 _) eqn:Hr; [by left|right]; apply in_rangeb_false in Hr;
      split; [range|by eexists]. }
  split; intros Hm.
  - destruct Hu as [->|[? _]]; [|done]. pose proof (exasol_instant_year m d Hd Hm) as Hy.
    exists (date_text d +:+ " " +:+ time_text t). unfold_monad.
    rewrite (format_timestamp_micros_ok m d t) by done. split; [done|].
    pose proof Hd as [Hv Hn]%day_at_iff.
    by rewrite parse_timestamp_text_micros, Hn, <- Em.
  - destruct Hu as [->|[_ [e ->]]]; [|by exists e].
    destruct (format_timestamp_micros_err m Hm) as [e He]. unfold_monad. rewrite He.
    by eexists.
Qed.

(** ** Parameter text *)
Lemma trim_start_spaces_id w s :
  w ≠ ""%string → contains_char " " w = false → trim_start_spaces (w +:+ s) = w +:+ s.
Proof.
  destruct w as [|a w]; [done|]. intros _. cbn [contains_char]. rewrite orb_false_iff.
  intros [Ha%Ascii.eqb_neq _]. rewrite str_app_cons.
  destruct a as [[] [] [] [] [] [] [] []]; done.
Qed.

Lemma trim_end_spaces_id s w :
  w ≠ ""%string → contains_char " " w = false → trim_end_spaces (s +:+ w) = s +:+ w.
Proof.
  intros Hne Hc. assert (trim_end_spaces w = w) as Hw.
  { clear s. induction w as [|a w IH]; [done|]. cbn in *.
    apply orb_false_iff in Hc as [Ha Hc]. destruct w as [|b w]; [cbn; by rewrite Ha|].
    rewrite IH by done. done. }
  induction s as [|a s IH]; [by rewrite str_app_nil_l|]. rewrite str_app_cons.
  cbn [trim_end_spaces]. rewrite IH. destruct s, w; done.
Qed.

Lemma digits_show_padded w z :
  0 ≤ z < 10 ^ Z.of_nat w → (1 ≤ w ≤ 9)%nat → digits (show_padded w z) w = Some z.
Proof.
  intros Hz Hw. unfold digits. rewrite str_len_show_padded by lia.
  destruct (show_padded_spec w z) as (_ & _ & ->); [lia|].
  rewrite (proj2 (Nat.eqb_neq _ _)), (proj2 (Nat.ltb_ge _ _)) by lia. cbn.
  apply parse_int_show_padded; [lia|].
  assert (10 ^ Z.of_nat w ≤ 10 ^ 9) by (apply Z.pow_le_mono_r; lia).
  change (10 ^ 9) with 1000000000 in *. range.
Qed.

Definition fields_of (d : Date) (t : Z) : TemporalFields :=
  {| tf_year := year d; tf_month := month d; tf_day := day d;
     tf_hour := t / 3600000000; tf_minute := t / 60000000 mod 60;
     tf_second := t / 1000000 mod 60; tf_nanos := t mod 1000000 * 1000 |}.

Lemma parse_micros_as_nanos z :
  0 ≤ z < 1000000 → parse_int U32 (pad_right 9 "0" (show_padded 6 z)) = Some (z * 1000).
Proof.
  intros Hz. destruct (show_padded_spec 6 z) as (Hp & Hne & Hd); [lia|].
  unfold pad_right. rewrite str_len_show_padded by lia. cbn [Nat.sub str_repeat].
  rewrite (parse_int_digits U32 _ (z * 1000)).
  - apply checked_in. range.
  - by destruct (show_padded 6 z).
  - by rewrite str_forall_app, Hd.
  - rewrite parse_digits_app, Hp. cbn [mbind option_bind].
    rewrite (parse_digits_shift _ _ 0) by done.
    change (10 ^ Z.of_nat (str_len _)) with 1000. f_equal. lia.
Qed.

Lemma parse_time_fields d t f :
  0 ≤ t < MICROS_PER_DAY →
  tf_year f = year d → tf_month f = month d → tf_day f = day d →
  parse_temporal_time f (time_text t) = Some (fields_of d t).
Proof.
  intros Ht Hy Hm Hd. destruct (time_split t Ht) as (? & ? & ? & ? & _).
  unfold parse_temporal_time, time_text, splitn3. rewrite !str_app_char.
  rewrite !split_once_cons by (apply show_padded_no_char; [done|lia]).
  cbn [lookup list_lookup mbind option_bind].
  rewrite split_once_cons by (apply show_padded_no_char; [done|lia]).
  rewrite !digits_show_padded by lia.
  cbn [mbind option_bind default from_option id]. rewrite str_len_show_padded by lia.
  destruct (show_padded_spec 6 (t mod 1000000)) as (_ & _ & ->); [lia|].
  cbn [Nat.ltb Nat.leb orb negb]. rewrite parse_micros_as_nanos by lia.
  rewrite digits_show_padded by lia. cbn [mbind option_bind]. unfold fields_of.
  by rewrite Hy, Hm, Hd, !wrap_id by range.
Qed.

Lemma time_text_shape t :
  0 ≤ t < MICROS_PER_DAY →
  (∃ w, time_text t = w +:+ show_padded 6 (t mod 1000000)) ∧
  trim_start_spaces (time_text t) = time_text t ∧
  contains_char " " (time_text t) = false.
Proof.
  intros Ht. destruct (time_split t Ht) as (? & ? & ? & ? & _). split; [|split].
  - unfold time_text. rewrite <- !str_app_assoc. by eexists.
  - unfold time_text. rewrite trim_start_spaces_id; [done|by apply show_padded_spec; lia|].
    by apply show_padded_no_char; [|lia].
  - unfold time_text. rewrite !contains_char_app, !show_padded_no_char by (done || lia). done.
Qed.

Lemma parse_timestamp_fields d t :
  valid_date d → 1 ≤ year d ≤ 9999 → 0 ≤ t < MICROS_PER_DAY →
  parse_temporal_fields (date_text d +:+ " " +:+ time_text t) = Some (fields_of d t).
Proof.
  intros Hv Hy Ht. pose proof Hv as [Hm Hd].
  pose proof (month_length_bounds (year d) (month d)).
  destruct (date_text_shape d Hv ltac:(lia)) as [Hne Hc].
  destruct (time_text_shape t Ht) as ([w Hw] & Hs & Hc').
  assert (0 ≤ t mod 1000000) by (apply Z.mod_pos_bound; lia).
  unfold parse_temporal_fields, trim_spaces. rewrite trim_start_spaces_id by done.
  rewrite Hw, <- !str_app_assoc, trim_end_spaces_id; cycle 1.
  { by apply show_padded_spec. }
  { by apply show_padded_no_char. }
  rewrite !str_app_assoc, <- Hw, str_app_char, split_once_cons, Hs by done.
  unfold date_text. rewrite !str_app_char, !split_on_cons, split_on_absent
    by (apply show_padded_no_char; [done|lia]).
  cbn [lookup list_lookup mbind option_bind].
  rewrite !digits_show_padded by (cbn [Z.of_nat Pos.of_succ_nat Pos.succ]; lia).
  cbn [mbind option_bind].
  by rewrite (parse_time_fields d)
    by (done || (cbn [tf_year tf_month tf_day]; rewrite wrap_id by range; done)).
Qed.

(** TIMESTAMP parameter text: [parse_timestamp_text] splits the text
    [format_timestamp_micros] writes for an instant into its calendar fields, and
    [ymd_hms_nanos_to_micros] of those fields is the instant again. *)
Theorem timestamp_fields_roundtrip `{BuildProfile, ChronoLaws} {E} m :
  exasol_instant m →
  ∃ s f, format_timestamp_micros m = Ok s ∧ parse_timestamp_text s = Ok f ∧
    day_at (m / MICROS_PER_DAY)
      {| year := tf_year f; month := tf_month f; day := tf_day f |} ∧
    ymd_hms_nanos_to_micros (E := E) (tf_year f) (tf_month f) (tf_day f) (tf_hour f)
      (tf_minute f) (tf_second f) (tf_nanos f) = Ok m.
Proof.
  intros Hm. destruct (timestamp_cases m) as (d & t & Hd & Et & Ht & Em).
  pose proof (exasol_instant_year m d Hd Hm) as Hy. pose proof Hd as [Hv Hn]%day_at_iff.
  pose proof Hv as [Hmo Hda]. pose proof (month_length_bounds (year d) (month d)).
  exists (date_text d +:+ " " +:+ time_text t), (fields_of d t).
  split; [by apply format_timestamp_micros_ok|].
  destruct (time_split t Ht) as (? & ? & ? & ? & Es). split; [|split].
  - unfold parse_timestamp_text. by rewrite parse_timestamp_fields.
  - by destruct d.
  - unfold ymd_hms_nanos_to_micros, fields_of.
    cbn [tf_year tf_month tf_day tf_hour tf_minute tf_second tf_nanos].
    rewrite ymd_to_days_number by (done || (unfold day_count_years; lia)).
    pose proof (proj1 (exasol_years_range d Hv) Hy).
    rewrite !wrap_id by range. unfold MICROS_PER_DAY in *. run_arith.
    rewrite Z.quot_mul by lia. run_arith. f_equal. lia.
Qed.

(** ** A chrono, and the theorems at concrete inputs *)
Definition calendar_chrono : Chrono := {|
  from_num_days_from_ce_opt n := Some (date_of_day (n - 719163));
  from_timestamp_micros m := Some (date_of_day (m / MICROS_PER_DAY), m mod MICROS_PER_DAY);
  strftime_date := date_text;
  strftime_micros '(d, t) := date_text d +:+ " " +:+ time_text t;
|}.

#[global] Instance calendar_chrono_laws : ChronoLaws calendar_chrono.
Proof.
  split; cbn [from_num_days_from_ce_opt from_timestamp_micros strftime_date strftime_micros
    calendar_chrono].
  - intros n d [= <-]. apply ce_day_at_iff. apply (day_at_iff (n - 719163)), date_of_day_at.
  - intros. by eexists.
  - intros m d t [= <- <-]. split; [by apply Z.mod_pos_bound|].
    exists (m / MICROS_PER_DAY). split; [apply date_of_day_at|].
    pose proof (Z.div_mod m MICROS_PER_DAY ltac:(done)). unfold MICROS_PER_DAY in *. lia.
  - intros. by eexists.
  - done.
  - done.
Qed.

Lemma ymd_to_days_calendar_witness :
  day_at 19782 {| year := 2024; month := 2; day := 29 |} ∧
  ymd_to_days (P := dev_profile) (E := string) 2024 2 29 = Ok 19782.
Proof.
  assert (day_at 19782 {| year := 2024; month := 2; day := 29 |}) as Hd
    by (apply day_at_iff; split; [by_decision|reflexivity]).
  split; [exact Hd|]. apply (ymd_to_days_calendar (H := dev_profile) 19782 _ Hd).
  unfold day_count_years. cbn. lia.
Defined.

Lemma date32_text_roundtrip_witness :
  ∃ s, format_date32 (H := calendar_chrono) 59 = Ok s ∧
       parse_date_to_days (P := dev_profile) s = Ok 59.
Proof.
  apply (date32_text_roundtrip (H := dev_profile) (H0 := calendar_chrono_laws) 59). lia.
Defined.

Lemma timestamp_text_roundtrip_witness :
  ∃ s, format_timestamp (H := calendar_chrono) Nanosecond (-1) = Ok s ∧
       parse_timestamp_to_micros (P := dev_profile) s = Ok (-1).
Proof.
  apply (timestamp_text_roundtrip (H := dev_profile) (H0 := calendar_chrono_laws)
    Nanosecond (-1)).
  unfold exasol_instant, MICROS_PER_DAY, unit_micros. split; reflexivity || discriminate.
Defined.

Lemma timestamp_fields_roundtrip_witness :
  ∃ s f, format_timestamp_micros (H := calendar_chrono) 86399999999 = Ok s ∧
    parse_timestamp_text s = Ok f ∧
    day_at (86399999999 / MICROS_PER_DAY)
      {| year := tf_year f; month := tf_month f; day := tf_day f |} ∧
    ymd_hms_nanos_to_micros (P := dev_profile) (E := string) (tf_year f) (tf_month f)
      (tf_day f) (tf_hour f) (tf_minute f) (tf_second f) (tf_nanos f) = Ok 86399999999.
Proof.
  apply (timestamp_fields_roundtrip (H := dev_profile) (H0 := calendar_chrono_laws)).
  unfold exasol_instant, MICROS_PER_DAY. split; reflexivity || discriminate.
Defined.

(** [parse_date_to_days] does not bound the year it parses: for an [i32] year
    whose day count leaves [i32], the conversion panics in a build with overflow
    checks and silently returns a wrapped (here negative) day in a build without;
    and day 31 is accepted in every month, as the day after the month's last. *)
Theorem parse_date_unchecked :
  parse_date_to_days (P := dev_profile) "6000000-01-01" = Panic ∧
  parse_date_to_days (P := release_profile) "6000000-01-01" = Ok (-2104231824) ∧
  (∀ `{BuildProfile}, parse_date_to_days "2023-02-31" = parse_date_to_days "2023-03-03").
Proof.
  split; [by vm_compute|]. split; [by vm_compute|intros; by vm_compute].
Qed.
