(* ===== verification/Interval.v ===== *)
(** * Intervals and decimals as text

    The INTERVAL part of [types/conversion.rs] (text to Arrow's
    [IntervalMonthDayNano] and back) and the decimal reader
    [parse_decimal_to_i128]. *)
From S2P Require Import Prelude MachineInt RustStr DateTime.
From Stdlib Require Import Ascii.

#[local] Open Scope Z_scope.

(** ** Constants *)
(* code: types/conversion.rs 12-14 MONTHS_PER_YEAR *)
Definition MONTHS_PER_YEAR : Z := 12.
(* code: types/conversion.rs 16-20 MILLIS_PER_SECOND *)
Definition MILLIS_PER_SECOND : Z := 1000.
Definition SECONDS_PER_MINUTE : Z := 60.
Definition MINUTES_PER_HOUR : Z := 60.
Definition MILLIS_PER_MINUTE : Z := SECONDS_PER_MINUTE * MILLIS_PER_SECOND.
Definition MILLIS_PER_HOUR : Z := MINUTES_PER_HOUR * MILLIS_PER_MINUTE.
(* code: types/conversion.rs 21-22 MAX_INTERVAL_DAYS *)
Definition MAX_INTERVAL_DAYS : Z := 999999999.
(* code: types/conversion.rs 23-26 NANOS_PER_SECOND *)
Definition NANOS_PER_SECOND : Z := 1000000000.
Definition NANOS_PER_MILLISECOND : Z := 1000000.
Definition NANOS_PER_MINUTE : Z := 60 * NANOS_PER_SECOND.
Definition NANOS_PER_HOUR : Z := 60 * NANOS_PER_MINUTE.

(** Arrow's [IntervalMonthDayNano]: an [i32], an [i32] and an [i64]. *)
Record IntervalMonthDayNano := { iv_months : Z; iv_days : Z; iv_nanoseconds : Z }.

#[global] Instance IntervalMonthDayNano_eq_dec : EqDecision IntervalMonthDayNano.
Proof. solve_decision. Defined.

(** ** Text to intervals *)
(* code: types/conversion.rs 535-547 parse_interval_seconds_to_nanos *)
Definition parse_interval_seconds_to_nanos (seconds_text : string) : outcome string Z :=
  let parts := split_on "." seconds_text in
  let whole_text := default "" (parts !! 0%nat) in
  seconds ← ok_or ("Invalid seconds: " +:+ whole_text) (parse_int I64 whole_text);
  let out_of_range := "Interval seconds out of range: " +:+ seconds_text in
  whole_nanos ← ok_or out_of_range (checked I64 (seconds * NANOS_PER_SECOND));
  fraction ← match parts !! 1%nat with
             | None => Ok 0
             | Some fraction => fractional_seconds_to_nanos fraction
             end;
  ok_or out_of_range (checked I64 (whole_nanos + fraction)).

(* code: types/conversion.rs 509-533 parse_interval_time_to_nanos *)
Definition parse_interval_time_to_nanos (time_text : string) : outcome string Z :=
  match split_on ":" time_text with
  | f0 :: f1 :: rest =>
    hours ← ok_or ("Invalid hours: " +:+ f0) (parse_int I64 f0);
    minutes ← ok_or ("Invalid minutes: " +:+ f1) (parse_int I64 f1);
    let out_of_range := "Interval time out of range: " +:+ time_text in
    nanos ← ok_or out_of_range
      (h ← checked I64 (hours * NANOS_PER_HOUR);
       m ← checked I64 (minutes * NANOS_PER_MINUTE);
       checked I64 (h + m));
    match rest with
    | seconds_text :: _ =>
      s ← parse_interval_seconds_to_nanos seconds_text;
      ok_or out_of_range (checked I64 (nanos + s))
    | [] => Ok nanos
    end
  | _ => Ok 0
  end.

(* code: types/conversion.rs 496-507 parse_interval_days_and_nanos *)
Definition parse_interval_days_and_nanos (body : string) : outcome string (Z * Z) :=
  let segments := split_on " " body in
  let days_text := default "" (segments !! 0%nat) in
  days ← ok_or ("Invalid days: " +:+ days_text) (parse_int I32 days_text);
  nanos ← match segments !! 1%nat with
          | Some time_text => parse_interval_time_to_nanos time_text
          | None => Ok 0
          end;
  Ok (days, nanos).

(* code: types/conversion.rs 399-414 parse_interval_months *)
Definition parse_interval_months (body text : string) : outcome string Z :=
  match split_on "-" body with
  | [p0; p1] =>
    years ← ok_or ("Invalid years: " +:+ p0) (parse_int I64 p0);
    months ← ok_or ("Invalid months: " +:+ p1) (parse_int I64 p1);
    ok_or ("Interval month count out of range: " +:+ text)
      (total ← checked I64 (years * MONTHS_PER_YEAR); checked I64 (total + months))
  | _ => Err ("Invalid interval format: " +:+ text)
  end.

(** The sign byte and what follows it. *)
(* code: types/conversion.rs 378-382 parse_interval *)
Definition split_sign (text : string) : bool * string :=
  match text with
  | String "-" s => (true, s)
  | String "+" s => (false, s)
  | _ => (false, text)
  end%char.

(* code: types/conversion.rs 370-397 parse_interval *)
Definition parse_interval `{BuildProfile} (text : string)
    : outcome string IntervalMonthDayNano :=
  let '(negative, body) := split_sign text in
  if contains_char "-" body then
    months ← parse_interval_months body text;
    signed_months ← if negative : bool then arith I64 (- months) else Ok months;
    months ← ok_or ("Interval month count out of range: " +:+ text)
      (checked I32 signed_months);
    Ok {| iv_months := months; iv_days := 0; iv_nanoseconds := 0 |}
  else
    '(days, nanoseconds) ← parse_interval_days_and_nanos body;
    if negative : bool then
      d ← arith I32 (- days);
      n ← arith I64 (- nanoseconds);
      Ok {| iv_months := 0; iv_days := d; iv_nanoseconds := n |}
    else Ok {| iv_months := 0; iv_days := days; iv_nanoseconds := nanoseconds |}.

(** ** Intervals to text *)
(* code: types/conversion.rs 416-431 format_interval_year_to_month *)
Definition format_interval_year_to_month (months : Z) : string :=
  let sign := if months <? 0 then "-" else "" in
  let magnitude := Z.abs months in
  sign +:+ show_nat (magnitude / MONTHS_PER_YEAR) +:+ "-" +:+
  show_padded 2 (magnitude mod MONTHS_PER_YEAR).

(* code: types/conversion.rs 433-466 format_interval_day_to_second *)
Definition format_interval_day_to_second (days milliseconds : Z) : outcome string string :=
  let out_of_range := "Interval value of " +:+ show_int days +:+ " days and " +:+
    show_int milliseconds +:+ " milliseconds is out of range, because INTERVAL DAY(9) TO SECOND holds at most 999,999,999 days" in
  total ← ok_or out_of_range
    (day_millis ← checked I64 (days * MILLIS_PER_DAY); checked I64 (day_millis + milliseconds));
  let magnitude := Z.abs total in
  let whole_days := magnitude / MILLIS_PER_DAY in
  if MAX_INTERVAL_DAYS <? whole_days then Err out_of_range
  else
    let time := magnitude mod MILLIS_PER_DAY in
    let sign := if total <? 0 then "-" else "" in
    Ok (sign +:+ show_nat whole_days +:+ " " +:+
        show_padded 2 (time / MILLIS_PER_HOUR) +:+ ":" +:+
        show_padded 2 (time / MILLIS_PER_MINUTE mod MINUTES_PER_HOUR) +:+ ":" +:+
        show_padded 2 (time / MILLIS_PER_SECOND mod SECONDS_PER_MINUTE) +:+ "." +:+
        show_padded 3 (time mod MILLIS_PER_SECOND)).

(* code: types/conversion.rs 468-494 format_interval_month_day_nano *)
Definition format_interval_month_day_nano (value : IntervalMonthDayNano)
    : outcome string string :=
  let described := "Interval value of " +:+ show_int (iv_months value) +:+ " months, " +:+
    show_int (iv_days value) +:+ " days, and " +:+ show_int (iv_nanoseconds value) +:+
    " nanoseconds" in
  if negb (iv_months value =? 0) then
    Err (described +:+ " has a month component, but Exasol INTERVAL DAY TO SECOND has no month component")
  else if negb (Z.rem (iv_nanoseconds value) NANOS_PER_MILLISECOND =? 0) then
    Err (described +:+ " has a fraction of a millisecond, but Exasol stores INTERVAL DAY TO SECOND values in whole milliseconds")
  else
    format_interval_day_to_second (iv_days value)
      (Z.quot (iv_nanoseconds value) NANOS_PER_MILLISECOND).

(** ** Decimals *)
(** [scale] is an [i8]: as [u32] and as [usize] a negative one wraps around. *)
(* code: types/conversion.rs 549-607 parse_decimal_to_i128 *)
Definition parse_decimal_to_i128 `{BuildProfile} (value_str : string) (scale : Z)
    : outcome string Z :=
  '(integer_part, decimal_part) ←
    match split_on "." value_str with
    | [i] => Ok (i, "")
    | [i; d] => Ok (i, d)
    | _ => Err ("Invalid decimal format: " +:+ value_str)
    end;
  whole ← ok_or ("Invalid integer part: " +:+ integer_part) (parse_int I128 integer_part);
  power ← arith I128 (10 ^ wrap U32 scale);
  let overflow := "Numeric overflow for value: " +:+ value_str in
  result ← ok_or overflow (checked I128 (whole * power));
  if (str_len decimal_part =? 0)%nat then Ok result
  else
    let decimal_digits :=
      Nat.min (str_len decimal_part) (Z.to_nat (wrap USize scale)) in
    prefix ← str_slice_to decimal_digits decimal_part;
    decimal_value ← ok_or ("Invalid decimal part: " +:+ decimal_part) (parse_int I128 prefix);
    let scale_diff := wrap USize scale - Z.of_nat decimal_digits in
    power ← arith I128 (10 ^ wrap U32 scale_diff);
    scaled_decimal ← arith I128 (decimal_value * power);
    if starts_with "-" integer_part then ok_or overflow (checked I128 (result - scaled_decimal))
    else ok_or overflow (checked I128 (result + scaled_decimal)).

(** ** Lemmas *)
Lemma split_sign_none w s :
  w ≠ ""%string → str_forall is_digit w = true → split_sign (w +:+ s) = (false, w +:+ s).
Proof.
  destruct w as [|a w]; [done|]. intros _. rewrite str_app_cons. cbn.
  rewrite andb_true_iff. intros [Ha _]. destruct a as [[] [] [] [] [] [] [] []]; done.
Qed.

Lemma split_sign_text (negative : bool) z s :
  0 ≤ z →
  split_sign ((if negative then "-" else "") +:+ show_nat z +:+ s)
  = (negative, show_nat z +:+ s).
Proof.
  intros Hz. destruct (show_nat_spec z Hz) as (_ & Hne & Hd). destruct negative; [done|].
  rewrite str_app_nil_l. by apply split_sign_none.
Qed.

Lemma parse_months_text m text :
  0 ≤ m ≤ 2147483648 →
  parse_interval_months
    (show_nat (m / MONTHS_PER_YEAR) +:+ "-" +:+ show_padded 2 (m mod MONTHS_PER_YEAR)) text
  = Ok m.
Proof.
  intros Hm. unfold MONTHS_PER_YEAR, parse_interval_months.
  assert (0 ≤ m / 12 ∧ 0 ≤ m mod 12 < 12) as [? ?] by (Z.div_mod_to_equations; lia).
  assert (m / 12 ≤ 178956971) by (Z.div_mod_to_equations; lia).
  rewrite str_app_char, split_on_cons, split_on_absent
    by (apply show_padded_no_char || apply show_nat_no_char; done || lia).
  rewrite parse_int_show_nat, parse_int_show_padded by (lia || range).
  cbn [ok_or mbind outcome_bind]. unfold MONTHS_PER_YEAR.
  rewrite checked_in by range. cbn [mbind option_bind]. rewrite checked_in by range. cbn.
  f_equal. pose proof (Z.div_mod m 12). lia.
Qed.

(** The time part of [format_interval_day_to_second]. *)
Definition day_time_text (t : Z) : string :=
  show_padded 2 (t / MILLIS_PER_HOUR) +:+ ":" +:+
  show_padded 2 (t / MILLIS_PER_MINUTE mod MINUTES_PER_HOUR) +:+ ":" +:+
  show_padded 2 (t / MILLIS_PER_SECOND mod SECONDS_PER_MINUTE) +:+ "." +:+
  show_padded 3 (t mod MILLIS_PER_SECOND).

Lemma day_time_split t :
  0 ≤ t < MILLIS_PER_DAY →
  0 ≤ t / MILLIS_PER_HOUR < 24 ∧ 0 ≤ t / MILLIS_PER_MINUTE mod MINUTES_PER_HOUR < 60 ∧
  0 ≤ t / MILLIS_PER_SECOND mod SECONDS_PER_MINUTE < 60 ∧ 0 ≤ t mod MILLIS_PER_SECOND < 1000 ∧
  t = t / MILLIS_PER_HOUR * 3600000 + t / MILLIS_PER_MINUTE mod MINUTES_PER_HOUR * 60000
      + t / MILLIS_PER_SECOND mod SECONDS_PER_MINUTE * 1000 + t mod MILLIS_PER_SECOND.
Proof.
  unfold MILLIS_PER_DAY, MILLIS_PER_HOUR, MINUTES_PER_HOUR, MILLIS_PER_MINUTE,
    SECONDS_PER_MINUTE, MILLIS_PER_SECOND. cbn [Z.mul Pos.mul]. intros Ht.
  change (60 * 1000) with 60000. change (60 * 60000) with 3600000.
  assert (t / 60000 = t / 1000 / 60) as Em by (by rewrite Zdiv_Zdiv).
  assert (t / 3600000 = t / 60000 / 60) as Eh by (by rewrite Zdiv_Zdiv).
  rewrite Eh, Em. clear Em Eh. Z.div_mod_to_equations. lia.
Qed.

Lemma parse_day_time_text t :
  0 ≤ t < MILLIS_PER_DAY →
  parse_interval_time_to_nanos (day_time_text t) = Ok (t * 1000000).
Proof.
  intros Ht. destruct (day_time_split t Ht) as (Hh & Hm & Hs & Hf & Et).
  unfold parse_interval_time_to_nanos, day_time_text.
  set (h := t / MILLIS_PER_HOUR) in *. set (m := _ mod MINUTES_PER_HOUR) in *.
  set (s := _ mod SECONDS_PER_MINUTE) in *. set (f := t mod MILLIS_PER_SECOND) in *.
  clearbody h m s f.
  rewrite !str_app_char, !split_on_cons by (apply show_padded_no_char; [done|lia]).
  rewrite split_on_absent.
  2:{ rewrite contains_char_app, show_padded_no_char by (done || lia). cbn.
      by apply show_padded_no_char; [|lia]. }
  rewrite !parse_int_show_padded by (lia || range). cbn [ok_or mbind outcome_bind].
  unfold NANOS_PER_HOUR, NANOS_PER_MINUTE, NANOS_PER_SECOND. cbn [Z.mul Pos.mul].
  rewrite !(checked_in I64) by range. cbn [mbind option_bind].
  rewrite !(checked_in I64) by range. cbn [ok_or mbind option_bind outcome_bind].
  unfold parse_interval_seconds_to_nanos.
  rewrite !split_on_cons, split_on_absent by (apply show_padded_no_char; [done|lia]).
  cbn [lookup list_lookup default from_option id].
  rewrite parse_int_show_padded by (lia || range). cbn [ok_or mbind outcome_bind].
  unfold NANOS_PER_SECOND. rewrite !(checked_in I64) by range.
  unfold fractional_seconds_to_nanos, fractional_seconds_to_units.
  rewrite str_len_show_padded by lia. cbn [Nat.ltb Nat.leb Nat.sub Z.of_nat].
  rewrite parse_int_show_padded by (lia || range). change (10 ^ Z.of_nat 6) with 1000000.
  rewrite saturating_in by range. cbn [ok_or mbind outcome_bind].
  rewrite !(checked_in I64) by range. cbn [ok_or mbind outcome_bind].
  rewrite !(checked_in I64) by range. cbn [ok_or]. f_equal. lia.
Qed.

Lemma parse_days_text n t :
  0 ≤ n ≤ MAX_INTERVAL_DAYS → 0 ≤ t < MILLIS_PER_DAY →
  contains_char "-" (show_nat n +:+ " " +:+ day_time_text t) = false ∧
  parse_interval_days_and_nanos (show_nat n +:+ " " +:+ day_time_text t)
  = Ok (n, t * 1000000).
Proof.
  unfold MAX_INTERVAL_DAYS. intros Hn Ht.
  destruct (day_time_split t Ht) as (? & ? & ? & ? & _).
  assert (∀ c, is_digit c = false → Ascii.eqb ":" c = false → Ascii.eqb "." c = false →
    contains_char c (day_time_text t) = false) as Hc.
  { intros c Hd Hc1 Hc2. unfold day_time_text.
    rewrite !contains_char_app, !show_padded_no_char by (done || lia).
    cbn [contains_char orb]. by rewrite Hc1, Hc2. }
  split.
  - rewrite !contains_char_app, show_nat_no_char, Hc by (done || lia). done.
  - unfold parse_interval_days_and_nanos.
    rewrite str_app_char, split_on_cons, split_on_absent
      by (apply Hc || apply show_nat_no_char; done || lia).
    cbn [lookup list_lookup default from_option id].
    rewrite parse_int_show_nat by (lia || range). cbn [ok_or mbind outcome_bind].
    by rewrite parse_day_time_text.
Qed.

(** Milliseconds as days and nanoseconds of one sign. *)
Definition day_nano (total : Z) : IntervalMonthDayNano :=
  {| iv_months := 0; iv_days := Z.quot total MILLIS_PER_DAY;
     iv_nanoseconds := Z.rem total MILLIS_PER_DAY * NANOS_PER_MILLISECOND |}.

Lemma format_days_ok `{BuildProfile} days ms total :
  total = days * MILLIS_PER_DAY + ms → in_range I32 days →
  Z.abs total < (MAX_INTERVAL_DAYS + 1) * MILLIS_PER_DAY →
  ∃ s, format_interval_day_to_second days ms = Ok s ∧ parse_interval s = Ok (day_nano total).
Proof.
  intros Et Hd Ht. unfold format_interval_day_to_second.
  assert (0 ≤ Z.abs total / MILLIS_PER_DAY ≤ MAX_INTERVAL_DAYS) as Hq.
  { split; [apply Z.div_pos; done || lia|].
    apply Z.lt_succ_r, Z.div_lt_upper_bound; [done|lia]. }
  assert (0 ≤ Z.abs total mod MILLIS_PER_DAY < MILLIS_PER_DAY) as Hr by (by apply Z.mod_pos_bound).
  rewrite (checked_in I64 (days * _)) by (unfold MILLIS_PER_DAY; range).
  cbn [mbind option_bind]. rewrite <- Et.
  rewrite checked_in by (unfold MILLIS_PER_DAY, MAX_INTERVAL_DAYS in *; range).
  cbn [ok_or mbind outcome_bind]. rewrite (proj2 (Z.ltb_ge _ _)) by lia.
  eexists. split; [done|]. fold (day_time_text (Z.abs total mod MILLIS_PER_DAY)).
  destruct (parse_days_text _ _ Hq Hr) as [Hc Hp].
  unfold parse_interval. rewrite split_sign_text, Hc, Hp by lia. cbn [mbind outcome_bind].
  unfold day_nano, NANOS_PER_MILLISECOND. unfold MILLIS_PER_DAY, MAX_INTERVAL_DAYS in *.
  destruct (Z.ltb_spec total 0).
  - run_arith. do 2 f_equal; Z.quot_rem_to_equations; Z.div_mod_to_equations; lia.
  - do 2 f_equal; Z.quot_rem_to_equations; Z.div_mod_to_equations; lia.
Qed.

Lemma format_days_err days ms :
  in_range I32 days →
  (MAX_INTERVAL_DAYS + 1) * MILLIS_PER_DAY ≤ Z.abs (days * MILLIS_PER_DAY + ms) →
  ∃ e, format_interval_day_to_second days ms = Err e.
Proof.
  intros Hd Ht. unfold format_interval_day_to_second.
  rewrite (checked_in I64 (days * _)) by (unfold MILLIS_PER_DAY; range).
  cbn [mbind option_bind]. destruct (checked I64 _) as [total|] eqn:E; [|by eexists].
  apply checked_Some in E as [-> _]. cbn [ok_or mbind outcome_bind].
  rewrite (proj2 (Z.ltb_lt _ _)); [by eexists|].
  apply Z.lt_le_trans with (MAX_INTERVAL_DAYS + 1); [lia|].
  apply Z.div_le_lower_bound; [done|lia].
Qed.

(** ** Properties *)

(** YEAR TO MONTH intervals: every [i32] month count, [i32::MIN] included, is
    written as text that [parse_interval] reads back to the same months. *)
Theorem year_to_month_roundtrip `{BuildProfile} m :
  in_range I32 m →
  parse_interval (format_interval_year_to_month m)
  = Ok {| iv_months := m; iv_days := 0; iv_nanoseconds := 0 |}.
Proof.
  intros Hm. assert (0 ≤ Z.abs m ≤ 2147483648) as Ha by range.
  unfold format_interval_year_to_month, parse_interval.
  assert (0 ≤ Z.abs m / MONTHS_PER_YEAR) by (apply Z.div_pos; done || lia).
  rewrite split_sign_text, !contains_char_app, show_nat_no_char by done.
  cbn [contains_char Ascii.eqb Bool.eqb orb]. rewrite parse_months_text by done.
  cbn [mbind outcome_bind]. destruct (Z.ltb_spec m 0).
  - run_arith. rewrite checked_in by range. cbn. do 2 f_equal. lia.
  - cbn [mbind outcome_bind]. rewrite checked_in by range. cbn. do 2 f_equal. lia.
Qed.

(** DAY TO SECOND intervals: [format_interval_day_to_second] accepts exactly
    the values of at most 999,999,999 days and 23:59:59.999, in any mix of signs of
    the two parts, and [parse_interval] reads its text back to the same total with
    one sign for days and time; every other value is an error. *)
Theorem day_to_second_roundtrip `{BuildProfile} days ms :
  in_range I32 days →
  let total := days * MILLIS_PER_DAY + ms in
  (Z.abs total < (MAX_INTERVAL_DAYS + 1) * MILLIS_PER_DAY →
     ∃ s v, format_interval_day_to_second days ms = Ok s ∧ parse_interval s = Ok v ∧
       iv_months v = 0 ∧
       iv_days v * MILLIS_PER_DAY * 1000000 + iv_nanoseconds v = total * 1000000 ∧
       0 ≤ iv_days v * iv_nanoseconds v ∧ Z.abs (iv_nanoseconds v) < MILLIS_PER_DAY * 1000000) ∧
  ((MAX_INTERVAL_DAYS + 1) * MILLIS_PER_DAY ≤ Z.abs total →
     ∃ e, format_interval_day_to_second days ms = Err e).
Proof.
  intros Hd total. split; [|by apply format_days_err]. intros Ht.
  destruct (format_days_ok days ms total eq_refl Hd Ht) as (s & Hf & Hp).
  exists s, (day_nano total). clearbody total. unfold day_nano, NANOS_PER_MILLISECOND in *.
  unfold MILLIS_PER_DAY in *. cbn [iv_days iv_months iv_nanoseconds].
  split; [done|]. split; [done|]. split; [done|].
  pose proof (Z.quot_rem total 86400000 ltac:(lia)) as E.
  pose proof (Z.rem_bound_abs total 86400000 ltac:(lia)).
  split; [lia|]. split; [|lia].
  destruct (decide (0 ≤ total)).
  - pose proof (Z.quot_pos total 86400000). pose proof (Z.rem_bound_pos total 86400000). nia.
  - pose proof (Z.quot_opp_l total 86400000). pose proof (Z.rem_opp_l total 86400000).
    pose proof (Z.quot_pos (- total) 86400000). pose proof (Z.rem_bound_pos (- total) 86400000).
    nia.
Qed.

Lemma year_to_month_roundtrip_witness :
  parse_interval (H := dev_profile) (format_interval_year_to_month (-2147483648))
  = Ok {| iv_months := -2147483648; iv_days := 0; iv_nanoseconds := 0 |}.
Proof. apply year_to_month_roundtrip. vm_range. Defined.

Lemma day_to_second_roundtrip_witness :
  ∃ s v, format_interval_day_to_second (-3) 1500 = Ok s ∧
    parse_interval (H := dev_profile) s = Ok v ∧ iv_months v = 0 ∧
    iv_days v * MILLIS_PER_DAY * 1000000 + iv_nanoseconds v = (-3 * MILLIS_PER_DAY + 1500) * 1000000 ∧
    0 ≤ iv_days v * iv_nanoseconds v ∧ Z.abs (iv_nanoseconds v) < MILLIS_PER_DAY * 1000000.
Proof. apply (day_to_second_roundtrip (H := dev_profile) (-3) 1500); [vm_range|reflexivity]. Defined.

(** ** Decimals *)

(** The text of a decimal: a sign, integer digits, and fraction digits after a
    point when there are any. *)
Definition decimal_text (negative : bool) (i : Z) (fraction : string) : string :=
  (if negative then "-" else "") +:+ show_nat i +:+
  (if (str_len fraction =? 0)%nat then "" else "." +:+ fraction).

(** Its value in units of [10^-scale], further digits cut. *)
Definition decimal_units (negative : bool) (i fraction_value : Z) (fraction_digits scale : nat)
    : Z :=
  let cut := fraction_value / 10 ^ Z.of_nat (fraction_digits - Nat.min fraction_digits scale) in
  let m := i * 10 ^ Z.of_nat scale
           + cut * 10 ^ Z.of_nat (scale - Nat.min fraction_digits scale) in
  if negative then - m else m.

Lemma parse_int_signed_nat t (negative : bool) z :
  0 ≤ z → isigned t = true →
  parse_int t ((if negative then "-" else "") +:+ show_nat z)
  = checked t (if negative then - z else z).
Proof.
  intros Hz Ht. destruct (show_nat_spec z Hz) as (Hp & Hne & Hd). destruct negative.
  - rewrite str_app_char. unfold parse_int, parse_nat. rewrite Ht.
    destruct (show_nat z); [done|]. by rewrite Hp.
  - rewrite str_app_nil_l. by apply parse_int_digits.
Qed.

Lemma pow10_i128 n : (n ≤ 38)%nat → 0 < 10 ^ Z.of_nat n ≤ 10 ^ 38.
Proof. intros Hn. split; [apply Z.pow_pos_nonneg; lia|]. apply Z.pow_le_mono_r; lia. Qed.

Lemma decimal_text_parts negative i fraction f :
  0 ≤ i → parse_digits 0 fraction = Some f →
  let ip := (if negative : bool then "-" else "") +:+ show_nat i in
  starts_with "-" ip = negative ∧
  split_on "." (decimal_text negative i fraction)
  = if (str_len fraction =? 0)%nat then [ip] else [ip; fraction].
Proof.
  intros Hi Hf%parse_digits_all ip. destruct (show_nat_spec i Hi) as (_ & _ & Hn). split.
  - unfold ip, starts_with. destruct negative; [by rewrite strip_prefix_app|].
    rewrite str_app_nil_l. destruct (show_nat i) as [|a s]; [done|]. cbn in Hn.
    apply andb_true_iff in Hn as [Ha _]. cbn. destruct a as [[] [] [] [] [] [] [] []]; done.
  - assert (contains_char "." ip = false) as Hip.
    { unfold ip. rewrite contains_char_app, show_nat_no_char by done. by destruct negative. }
    unfold decimal_text. rewrite <- str_app_assoc. fold ip. case_match.
    + by rewrite str_app_nil_r, split_on_absent.
    + rewrite str_app_char, split_on_cons, split_on_absent; [done| |done].
      by apply digits_no_char.
Qed.

(** The fraction, cut to the scale and in its units. *)
Lemma decimal_fraction_units {E} fraction f scale :
  parse_digits 0 fraction = Some f → (scale ≤ 38)%nat → (0 < scale)%nat →
  (0 < str_len fraction)%nat →
  let n := Nat.min (str_len fraction) scale in
  let cut := f / 10 ^ Z.of_nat (str_len fraction - n) in
  str_slice_to (E := E) n fraction = Ok (str_take n fraction) ∧
  parse_int I128 (str_take n fraction) = Some cut ∧
  0 ≤ cut ∧ in_range I128 (cut * 10 ^ Z.of_nat (scale - n)).
Proof.
  intros Hf Hs H0 Hl n cut. pose proof (parse_digits_all _ _ _ Hf) as Hd.
  assert (n ≤ str_len fraction ∧ n ≤ scale ∧ 0 < n)%nat as (Hn & Hns & Hn0) by lia.
  destruct (str_slice_to_digits (E := E) n fraction Hd Hn) as (Hsl & Hpd & Hpl & _).
  pose proof (parse_digits_take n fraction f Hf Hd Hn) as Hp. fold cut in Hp.
  pose proof (parse_digits_bound _ _ Hp) as Hb. rewrite Hpl in Hb.
  pose proof (pow10_i128 scale Hs). pose proof (pow10_i128 n ltac:(lia)).
  pose proof (pow10_i128 (scale - n) ltac:(lia)).
  assert (10 ^ Z.of_nat scale = 10 ^ Z.of_nat n * 10 ^ Z.of_nat (scale - n)).
  { rewrite <- Z.pow_add_r by lia. f_equal. lia. }
  change (10 ^ 38) with 100000000000000000000000000000000000000 in *.
  split; [done|]. split; [|split; [lia|]].
  - rewrite (parse_int_digits I128 _ cut); [apply checked_in; range| |done|done].
    intros Heq. rewrite Heq in Hpl. cbn in Hpl. lia.
  - assert (0 ≤ cut * 10 ^ Z.of_nat (scale - n) ≤ 10 ^ Z.of_nat scale) by nia. range.
Qed.

(** [m] is the value [v] when it fits in an [i128] and an error when it does not. *)
Definition fits_or_err {E} (m : outcome E Z) (v : Z) : Prop :=
  (in_range I128 v → m = Ok v) ∧ (¬ in_range I128 v → ∃ e, m = Err e).

Lemma fits_or_err_checked {E} (e : E) v : fits_or_err (ok_or e (checked I128 v)) v.
Proof.
  split; intros Hv; [by rewrite checked_in|].
  destruct (checked I128 v) eqn:E1; [by apply checked_Some in E1 as [_ ?]|by eexists].
Qed.

Lemma fits_or_err_bind {E} (e : E) u v k :
  (in_range I128 v → in_range I128 u) → fits_or_err (k u) v →
  fits_or_err (ok_or e (checked I128 u) ≫= k) v.
Proof.
  intros Huv [H1 H2]. destruct (checked I128 u) as [w|] eqn:E1.
  - by apply checked_Some in E1 as [-> _].
  - split; [|by eexists]. intros Hv%Huv. by rewrite checked_in in E1.
Qed.

Lemma fits_or_err_ret {E} (e : E) v k :
  k v = Ok v → fits_or_err (ok_or e (checked I128 v) ≫= k) v.
Proof.
  intros Hk. destruct (fits_or_err_checked e v) as [H1 H2]. split.
  - by intros ->%H1.
  - intros [e' ->]%H2. by eexists.
Qed.

(** Decimal text: for a scale from 0 to 38, [parse_decimal_to_i128] reads the
    text of a decimal (any sign, "-0.5" included, digits beyond the scale cut) to
    its value in units of the scale, exactly when the value fits in an [i128], and
    returns an error when it does not; no step of it overflows. (At scale 0 a
    fraction is not cut but rejected, as its empty prefix is no number.) *)
Theorem parse_decimal_value `{BuildProfile} (negative : bool) i fraction f scale :
  0 ≤ i → parse_digits 0 fraction = Some f → (scale ≤ 38)%nat →
  (0 < scale ∨ str_len fraction = 0)%nat →
  let text := decimal_text negative i fraction in
  let v := decimal_units negative i f (str_len fraction) scale in
  (in_range I128 v → parse_decimal_to_i128 text (Z.of_nat scale) = Ok v) ∧
  (¬ in_range I128 v → ∃ e, parse_decimal_to_i128 text (Z.of_nat scale) = Err e).
Proof.
  intros Hi Hf Hs H0 text v. change (fits_or_err (parse_decimal_to_i128 text (Z.of_nat scale)) v).
  destruct (decimal_text_parts negative i fraction f Hi Hf) as [Hneg Hsplit].
  fold text in Hsplit. clearbody text. pose proof (pow10_i128 scale Hs) as Hp10.
  unfold v, decimal_units. set (p := 10 ^ Z.of_nat scale) in *. clear v.
  assert (in_range I128 p) as Hp
    by (change (10 ^ 38) with 100000000000000000000000000000000000000 in Hp10; range).
  assert (i ≤ i * p) as Hip by nia.
  unfold parse_decimal_to_i128. rewrite Hsplit, !(wrap_id _ (Z.of_nat scale)), Nat2Z.id by range.
  fold p. rewrite (arith_in I128 p) by done.
  destruct (Nat.eqb_spec (str_len fraction) 0%nat) as [Hl|Hl].
  - assert (f = 0) as -> by (destruct fraction; [by injection Hf|done]).
    rewrite Hl, Z.div_0_l, Z.mul_0_l, Z.add_0_r by (apply Z.pow_nonzero; lia).
    cbn [mbind outcome_bind]. rewrite parse_int_signed_nat by done.
    apply fits_or_err_bind; [destruct negative; range|]. cbn [mbind outcome_bind].
    replace ((if negative then - i else i) * p) with (if negative then - (i * p) else i * p)
      by (destruct negative; lia).
    by apply fits_or_err_ret.
  - destruct (decimal_fraction_units (E := string) fraction f scale) as (Hsl & Hc & Hc0 & Hr);
      [done|done|lia|lia|].
    set (n := Nat.min _ scale) in *. set (c := f / _) in *. clearbody c.
    cbn [mbind outcome_bind]. fold n. rewrite parse_int_signed_nat, Hsl by done.
    rewrite Hneg, (proj2 (Nat.eqb_neq _ _) Hl). assert (n ≤ scale)%nat as Hns by lia. clearbody n.
    replace (wrap U32 (Z.of_nat scale - Z.of_nat n)) with (Z.of_nat (scale - n))
      by (rewrite wrap_id by range; lia).
    pose proof (pow10_i128 (scale - n) ltac:(lia)) as Hq.
    rewrite (arith_in I128 (10 ^ _))
      by (change (10 ^ 38) with 100000000000000000000000000000000000000 in Hq; range).
    set (q := 10 ^ Z.of_nat (scale - n)) in *. clearbody p q.
    assert (0 ≤ c * q) by nia.
    apply fits_or_err_bind; [destruct negative; range|]. cbn [mbind outcome_bind].
    replace ((if negative then - i else i) * p) with (if negative then - (i * p) else i * p)
      by (destruct negative; lia).
    apply fits_or_err_bind; [destruct negative; range|].
    rewrite Hc. cbn [ok_or mbind outcome_bind]. rewrite arith_in by done.
    cbn [mbind outcome_bind]. destruct negative.
    + replace (- (i * p) - c * q) with (- (i * p + c * q)) by lia. apply fits_or_err_checked.
    + apply fits_or_err_checked.
Qed.

Lemma parse_decimal_value_witness :
  parse_decimal_to_i128 (H := dev_profile) "-0.257" 2 = Ok (-25).
Proof.
  apply (parse_decimal_value (H := dev_profile) true 0 "257" 257 2); (lia || done || vm_range).
Defined.

(** Text no value has makes [parse_interval] panic instead of returning its
    error: a fraction of more than nine bytes is cut at byte nine, inside a
    character when the text is not ASCII; [parse_decimal_to_i128] likewise cuts a
    fraction at the scale. *)
Theorem interval_and_decimal_panics `{BuildProfile} :
  parse_interval (str_of_bytes (as_bytes "0 0:0:0.12345678" ++ [xc3; xa9])) = Panic ∧
  parse_decimal_to_i128 (str_of_bytes (as_bytes "1.2" ++ [xc3; xa9])) 2 = Panic.
Proof. split; vm_compute; reflexivity. Qed.
