(* ===== verification/ExasolTypes.v ===== *)
(** * Exasol types, their names and their Arrow counterparts

    [types/mapping.rs], [types/conversion.rs] (the type map), the type record of
    [transport/messages.rs] and the functions that resolve it
    ([query/results.rs], [arrow_conversion/converter.rs], [adbc_ffi.rs]). *)
From S2P Require Import Prelude MachineInt RustStr StrText DateTime.
From Stdlib Require Import Ascii.

#[local] Open Scope Z_scope.

(** ** Arrow data types

    arrow-rs's [DataType], with the constructors the program matches on;
    [OtherType] stands for the remaining ones, by their [Debug] text. *)
Inductive IntervalUnit := YearMonth | DayTime | MonthDayNano.

Inductive ArrowType :=
| ABoolean | AInt8 | AInt16 | AInt32 | AInt64 | AUInt8 | AUInt16 | AUInt32 | AUInt64
| AFloat32 | AFloat64 | AUtf8 | ALargeUtf8 | AUtf8View | ABinary | ALargeBinary
| ABinaryView | AFixedSizeBinary (width : Z) | ADate32 | ADate64
| ATimestamp (unit : TimeUnit) (tz : option string)
| AInterval (unit : IntervalUnit)
| ADecimal128 (precision scale : Z) | ADecimal256 (precision scale : Z)
| ADictionary (key value : ArrowType)
| OtherType (name : string).

#[global] Instance IntervalUnit_eq_dec : EqDecision IntervalUnit.
Proof. solve_decision. Defined.
#[global] Instance ArrowType_eq_dec : EqDecision ArrowType.
Proof. solve_decision. Defined.

(** Arrow's [Field]; a schema is its fields in order. *)
Record Field := { f_name : string; f_data_type : ArrowType; f_nullable : bool }.

#[global] Instance Field_eq_dec : EqDecision Field.
Proof. solve_decision. Defined.

(** Methods of arrow's [DataType]: the test for a dictionary key type and the
    [Debug] text. *)
Class ArrowTypeLib := {
  is_dictionary_key_type : ArrowType → bool;
  show_arrow_type : ArrowType → string;
}.

(** ** Errors *)
(* code: error.rs 107-158 ConversionError *)
Inductive ConversionError :=
| UnsupportedType (exasol_type : string)
| ValueConversionFailed (row column : nat) (column_name value target_type message : string)
| SchemaMismatch (message : string)
| InvalidFormat (message : string)
| NumericOverflow (row column : nat) (column_name value target_type message : string)
| InvalidUtf8 (row column : nat)
| ConversionArrowError (message : string).

#[global] Instance ConversionError_eq_dec : EqDecision ConversionError.
Proof. solve_decision. Defined.

(** [Display] of a [ConversionError]. *)
(* code: error.rs 107-158 ConversionError *)
Definition show_conversion_error (e : ConversionError) : string :=
  let place (row column : nat) (name : string) :=
    " at row " +:+ show_nat (Z.of_nat row) +:+ ", column " +:+ show_nat (Z.of_nat column)
    +:+ " (" +:+ name +:+ ")" in
  match e with
  | UnsupportedType t => "Unsupported Exasol type: " +:+ t
  | ValueConversionFailed row column name value target message =>
    "Failed to convert value" +:+ place row column name +:+ " to " +:+ target +:+ ": "
    +:+ message +:+ "; value: " +:+ value
  | SchemaMismatch m => "Schema mismatch: " +:+ m
  | InvalidFormat m => "Invalid data format: " +:+ m
  | NumericOverflow row column name value target message =>
    "Numeric overflow" +:+ place row column name +:+ " for " +:+ target +:+ ": " +:+ message
    +:+ "; value: " +:+ value
  | InvalidUtf8 row column =>
    "Invalid UTF-8 string at row " +:+ show_nat (Z.of_nat row) +:+ ", column "
    +:+ show_nat (Z.of_nat column)
  | ConversionArrowError m => "Arrow error: " +:+ m
  end.

(** ** Exasol types *)
(* code: types/mapping.rs 7-33 ColumnNameMode *)
Inductive ColumnNameMode := Quoted | Sanitize.

(* code: types/mapping.rs 35-37 INTERVAL_LEADING_PRECISION *)
Definition INTERVAL_LEADING_PRECISION : Z := 9.
(* code: types/mapping.rs 39-40 MAX_DECIMAL_PRECISION *)
Definition MAX_DECIMAL_PRECISION : Z := 36.

(* code: types/mapping.rs 42-89 ExasolType *)
Inductive ExasolType :=
| Boolean
| Char (size : Z)
| Varchar (size : Z)
| Decimal (precision scale : Z)
| Double
| Date
| Timestamp (with_local_time_zone : bool)
| IntervalYearToMonth
| IntervalDayToSecond (precision : Z)
| Geometry (srid : option Z)
| Hashtype (byte_size : Z).

#[global] Instance ExasolType_eq_dec : EqDecision ExasolType.
Proof. solve_decision. Defined.

(** Every field is a value of its Rust type: [usize], [u8], [i8], [i32]. *)
Definition typed_type (t : ExasolType) : Prop :=
  match t with
  | Char n | Varchar n | Hashtype n => in_range USize n
  | Decimal p s => in_range U8 p ∧ in_range I8 s
  | IntervalDayToSecond p => in_range U8 p
  | Geometry (Some srid) => in_range I32 srid
  | _ => True
  end.

#[global] Instance typed_type_dec t : Decision (typed_type t).
Proof. unfold typed_type. repeat case_match; apply _. Defined.

(* code: types/mapping.rs 92-106 hashtype_from_reported_size *)
Definition hashtype_from_reported_size (reported_size : option Z) : ExasolType :=
  Hashtype (match reported_size with
            | Some size => wrap USize (Z.quot size 2)
            | None => 16
            end).

(* code: types/mapping.rs 108-133 type_name *)
Definition type_name (t : ExasolType) : string :=
  match t with
  | Boolean => "BOOLEAN"
  | Char _ => "CHAR"
  | Varchar _ => "VARCHAR"
  | Decimal _ _ => "DECIMAL"
  | Double => "DOUBLE"
  | Date => "DATE"
  | Timestamp true => "TIMESTAMP WITH LOCAL TIME ZONE"
  | Timestamp false => "TIMESTAMP"
  | IntervalYearToMonth => "INTERVAL YEAR TO MONTH"
  | IntervalDayToSecond _ => "INTERVAL DAY TO SECOND"
  | Geometry _ => "GEOMETRY"
  | Hashtype _ => "HASHTYPE"
  end.

(* code: types/mapping.rs 135-173 to_ddl_type *)
Definition to_ddl_type (t : ExasolType) : string :=
  match t with
  | Boolean => "BOOLEAN"
  | Char size => "CHAR(" +:+ show_int size +:+ ")"
  | Varchar size => "VARCHAR(" +:+ show_int size +:+ ")"
  | Decimal precision scale =>
    "DECIMAL(" +:+ show_int precision +:+ "," +:+ show_int scale +:+ ")"
  | Double => "DOUBLE"
  | Date => "DATE"
  | Timestamp with_local_time_zone =>
    if with_local_time_zone then "TIMESTAMP WITH LOCAL TIME ZONE" else "TIMESTAMP"
  | IntervalYearToMonth =>
    "INTERVAL YEAR(" +:+ show_int INTERVAL_LEADING_PRECISION +:+ ") TO MONTH"
  | IntervalDayToSecond precision =>
    "INTERVAL DAY(" +:+ show_int INTERVAL_LEADING_PRECISION +:+ ") TO SECOND("
    +:+ show_int precision +:+ ")"
  | Geometry (Some srid) => "GEOMETRY(" +:+ show_int srid +:+ ")"
  | Geometry None => "GEOMETRY"
  | Hashtype byte_size => "HASHTYPE(" +:+ show_int byte_size +:+ " BYTE)"
  end.

(** ** Exasol to Arrow and back *)
(* code: types/mapping.rs 179-248 exasol_to_arrow *)
Definition exasol_to_arrow (t : ExasolType) (nullable : bool) : outcome ConversionError ArrowType :=
  match t with
  | Boolean => Ok ABoolean
  | Char _ | Varchar _ => Ok AUtf8
  | Decimal precision scale => Ok (ADecimal128 precision scale)
  | Double => Ok AFloat64
  | Date => Ok ADate32
  | Timestamp true => Ok (ATimestamp Microsecond (Some "UTC"))
  | Timestamp false => Ok (ATimestamp Microsecond None)
  | IntervalYearToMonth => Ok (AInterval MonthDayNano)
  | IntervalDayToSecond _ => Ok (AInterval MonthDayNano)
  | Geometry _ => Ok ABinary
  | Hashtype _ => Ok ABinary
  end.

(* code: types/conversion.rs 609-640 exasol_type_to_arrow *)
Definition exasol_type_to_arrow (t : ExasolType) : outcome string ArrowType :=
  match t with
  | Boolean => Ok ABoolean
  | Char _ | Varchar _ => Ok AUtf8
  | Decimal precision scale => Ok (ADecimal128 precision scale)
  | Double => Ok AFloat64
  | Date => Ok ADate32
  | Timestamp with_local_time_zone =>
    if with_local_time_zone then Ok (ATimestamp Microsecond (Some "UTC"))
    else Ok (ATimestamp Microsecond None)
  | IntervalYearToMonth => Ok AInt64
  | IntervalDayToSecond _ => Ok AInt64
  | Geometry _ | Hashtype _ => Ok ABinary
  end.

(* code: export/parquet.rs 731-745 exasol_type_to_arrow *)
Definition parquet_type_to_arrow (t : ExasolType) : outcome string ArrowType :=
  match t with
  | IntervalYearToMonth | IntervalDayToSecond _ | Geometry _ | Hashtype _ => Ok AUtf8
  | Timestamp true => Ok (ATimestamp Microsecond None)
  | _ => exasol_type_to_arrow t
  end.

(* code: types/mapping.rs 250-338 arrow_to_exasol *)
Definition arrow_to_exasol `{ArrowTypeLib} (t : ArrowType) : outcome ConversionError ExasolType :=
  let longest_varchar := Varchar 2000000 in
  let decimal precision scale :=
    if (1 <=? precision) && (precision <=? MAX_DECIMAL_PRECISION)
       && (0 <=? scale) && (scale <=? wrap I8 precision)
    then Ok (Decimal precision scale)
    else Err (UnsupportedType ("Arrow type " +:+ show_arrow_type t +:+
      ", because Exasol DECIMAL takes a precision from 1 to " +:+
      show_int MAX_DECIMAL_PRECISION +:+ " and a scale from 0 to the precision")) in
  let unsupported := Err (UnsupportedType ("Arrow type " +:+ show_arrow_type t)) in
  match t with
  | ABoolean => Ok Boolean
  | AUtf8 | ALargeUtf8 | AUtf8View | ABinary | ALargeBinary | ABinaryView
  | AFixedSizeBinary _ => Ok longest_varchar
  | ADictionary key_type value_type =>
    if is_dictionary_key_type key_type &&
       match value_type with AUtf8 | ALargeUtf8 => true | _ => false end
    then Ok longest_varchar else unsupported
  | AInt8 | AInt16 | AInt32 => Ok (Decimal 18 0)
  | AInt64 => Ok (Decimal 36 0)
  | AUInt8 | AUInt16 | AUInt32 => Ok (Decimal 18 0)
  | AUInt64 => Ok (Decimal 36 0)
  | AFloat32 | AFloat64 => Ok Double
  | ADecimal128 precision scale | ADecimal256 precision scale => decimal precision scale
  | ADate32 | ADate64 => Ok Date
  | ATimestamp _ tz => Ok (Timestamp (bool_decide (is_Some tz)))
  | AInterval YearMonth => Ok IntervalYearToMonth
  | AInterval (DayTime | MonthDayNano) => Ok (IntervalDayToSecond 3)
  | OtherType _ => unsupported
  end.

(** ** Field metadata

    [serde_json] writes an [ExasolType] as text and reads it back. *)
Class TypeJson := {
  exasol_type_to_json : ExasolType → string;
  exasol_type_from_json : string → option ExasolType;
}.

(* code: types/mapping.rs 340-374 create_field_metadata *)
Definition create_field_metadata `{TypeJson} (t : ExasolType) : gmap string string :=
  let metadata :=
    <["exasol:type_name" := type_name t]> (<["exasol:type" := exasol_type_to_json t]> ∅) in
  match t with
  | Char size => <["exasol:size" := show_int size]> metadata
  | Varchar size => <["exasol:size" := show_int size]> metadata
  | Decimal precision scale =>
    <["exasol:scale" := show_int scale]> (<["exasol:precision" := show_int precision]> metadata)
  | Geometry (Some srid) => <["exasol:srid" := show_int srid]> metadata
  | Geometry None => metadata
  | _ => metadata
  end.

(* code: types/mapping.rs 376-381 from_field_metadata *)
Definition from_field_metadata `{TypeJson} (metadata : gmap string string) : option ExasolType :=
  metadata !! "exasol:type" ≫= exasol_type_from_json.

(** ** The type record of the protocols *)
(* code: transport/messages.rs 376-404 DataType *)
Record DataType := {
  dt_type_name : string;
  dt_precision : option Z;
  dt_scale : option Z;
  dt_size : option Z;
  dt_character_set : option string;
  dt_with_local_time_zone : option bool;
  dt_fraction : option Z;
  dt_srid : option Z;
}.

#[global] Instance DataType_eq_dec : EqDecision DataType.
Proof. solve_decision. Defined.

(** A type with a name and no attributes. *)
Definition named_type (name : string) : DataType :=
  {| dt_type_name := name; dt_precision := None; dt_scale := None; dt_size := None;
     dt_character_set := None; dt_with_local_time_zone := None; dt_fraction := None;
     dt_srid := None |}.

(* code: transport/messages.rs 407-419 decimal *)
Definition dt_decimal (precision scale : Z) : DataType :=
  {| dt_type_name := "DECIMAL"; dt_precision := Some precision; dt_scale := Some scale;
     dt_size := None; dt_character_set := None; dt_with_local_time_zone := None;
     dt_fraction := None; dt_srid := None |}.

(* code: transport/messages.rs 421-433 double *)
Definition dt_double : DataType := named_type "DOUBLE".

(* code: transport/messages.rs 435-447 varchar *)
Definition dt_varchar (size : Z) : DataType :=
  {| dt_type_name := "VARCHAR"; dt_precision := None; dt_scale := None;
     dt_size := Some size; dt_character_set := Some "UTF8"; dt_with_local_time_zone := None;
     dt_fraction := None; dt_srid := None |}.

(* code: transport/messages.rs 449-461 boolean *)
Definition dt_boolean : DataType := named_type "BOOLEAN".

(* code: query/results.rs 105-145 exasol_type_of *)
Definition exasol_type_of (dt : DataType) : outcome ConversionError ExasolType :=
  let name := dt_type_name dt in
  if bool_decide (name = "BOOLEAN") then Ok Boolean
  else if bool_decide (name = "CHAR") then Ok (Char (wrap USize (default 1 (dt_size dt))))
  else if bool_decide (name = "VARCHAR") then
    Ok (Varchar (wrap USize (default 2000000 (dt_size dt))))
  else if bool_decide (name = "DECIMAL") then
    Ok (Decimal (wrap U8 (default 18 (dt_precision dt))) (wrap I8 (default 0 (dt_scale dt))))
  else if bool_decide (name = "DOUBLE") then Ok Double
  else if bool_decide (name = "DATE") then Ok Date
  else if bool_decide (name = "TIMESTAMP") then
    Ok (Timestamp (default false (dt_with_local_time_zone dt)))
  else if bool_decide (name = "TIMESTAMP WITH LOCAL TIME ZONE") then Ok (Timestamp true)
  else if bool_decide (name = "INTERVAL YEAR TO MONTH") then Ok IntervalYearToMonth
  else if bool_decide (name = "INTERVAL DAY TO SECOND") then
    Ok (IntervalDayToSecond (wrap U8 (default 3 (dt_fraction dt))))
  else if bool_decide (name = "GEOMETRY") then Ok (Geometry (dt_srid dt))
  else if bool_decide (name = "HASHTYPE") then Ok (hashtype_from_reported_size (dt_size dt))
  else Err (UnsupportedType name).

(* code: arrow_conversion/converter.rs 314-323 required_attribute *)
Definition required_attribute {A} (value : option A) (name attribute : string)
    : outcome ConversionError A :=
  ok_or (InvalidFormat (name +:+ " type missing " +:+ attribute)) value.

(* code: arrow_conversion/converter.rs 257-312 parse_exasol_type *)
Definition parse_exasol_type (dt : DataType) : outcome ConversionError ExasolType :=
  let name := dt_type_name dt in
  if bool_decide (name = "BOOLEAN") then Ok Boolean
  else if bool_decide (name = "CHAR") then
    size ← required_attribute (dt_size dt) "CHAR" "size"; Ok (Char (wrap USize size))
  else if bool_decide (name = "VARCHAR") then
    size ← required_attribute (dt_size dt) "VARCHAR" "size"; Ok (Varchar (wrap USize size))
  else if bool_decide (name = "DECIMAL") then
    precision ← required_attribute (dt_precision dt) "DECIMAL" "precision";
    scale ← required_attribute (dt_scale dt) "DECIMAL" "scale";
    Ok (Decimal (wrap U8 precision) (wrap I8 scale))
  else if bool_decide (name = "DOUBLE") then Ok Double
  else if bool_decide (name = "DATE") then Ok Date
  else if bool_decide (name = "TIMESTAMP") then
    Ok (Timestamp (default false (dt_with_local_time_zone dt)))
  else if bool_decide (name = "TIMESTAMP WITH LOCAL TIME ZONE") then Ok (Timestamp true)
  else if bool_decide (name = "INTERVAL YEAR TO MONTH") then Ok IntervalYearToMonth
  else if bool_decide (name = "INTERVAL DAY TO SECOND") then
    Ok (IntervalDayToSecond (wrap U8 (default 3 (dt_fraction dt))))
  else if bool_decide (name = "GEOMETRY") then Ok (Geometry (dt_srid dt))
  else if bool_decide (name = "HASHTYPE") then Ok (hashtype_from_reported_size (dt_size dt))
  else Err (UnsupportedType name).

(** ** Type names from the system views *)
(* code: adbc_ffi.rs 87-87 MAX_VARCHAR_SIZE *)
Definition MAX_VARCHAR_SIZE : Z := 2000000.
(* code: adbc_ffi.rs 91-92 DEFAULT_DECIMAL_PRECISION *)
Definition DEFAULT_DECIMAL_PRECISION : Z := 18.
Definition DEFAULT_DECIMAL_SCALE : Z := 0.
(* code: adbc_ffi.rs 95-95 DEFAULT_INTERVAL_PRECISION *)
Definition DEFAULT_INTERVAL_PRECISION : Z := 3.
(* code: adbc_ffi.rs 98-98 DEFAULT_HASHTYPE_BYTES *)
Definition DEFAULT_HASHTYPE_BYTES : Z := 16.

(* code: adbc_ffi.rs 337-341 extract_single_param *)
Definition extract_single_param (s : string) : outcome string (option Z) :=
  match find_char "(" s, find_char ")" s with
  | Some start, Some end_ =>
    inner ← str_slice (start + 1) end_ s; Ok (parse_int I64 (trim inner))
  | _, _ => Ok None
  end.

(* code: adbc_ffi.rs 343-351 extract_last_param *)
Definition extract_last_param (s : string) : outcome string (option Z) :=
  match rfind_char "(" s, rfind_char ")" s with
  | Some start, Some end_ =>
    if (start <? end_)%nat then
      inner ← str_slice (start + 1) end_ s; Ok (parse_int I64 (trim inner))
    else Ok None
  | _, _ => Ok None
  end.

(* code: adbc_ffi.rs 353-368 extract_two_params *)
Definition extract_two_params (s : string) : outcome string (option (Z * Z)) :=
  match find_char "(" s, find_char ")" s with
  | Some start, Some end_ =>
    inner ← str_slice (start + 1) end_ s;
    Ok match split_on "," inner with
       | [p0; p1] =>
         a ← parse_int I64 (trim p0); b ← parse_int I64 (trim p1); Some (a, b)
       | [p0] => a ← parse_int I64 (trim p0); Some (a, 0)
       | _ => None
       end
  | _, _ => Ok None
  end.

(** [a.or_else(b)] where both may panic. *)
Definition or_else {E A} (m n : outcome E (option A)) : outcome E (option A) :=
  o ← m; match o with Some a => Ok (Some a) | None => n end.

(* code: adbc_ffi.rs 250-265 parse_unparameterized_type *)
Definition parse_unparameterized_type (s : string) : outcome string (option ExasolType) :=
  Ok (if bool_decide (s = "BOOLEAN") then Some Boolean
      else if bool_decide (s = "DATE") then Some Date
      else if bool_decide (s ∈ ["DOUBLE"; "DOUBLE PRECISION"; "FLOAT"; "REAL"]) then Some Double
      else if bool_decide (s ∈ ["BIGINT"; "INT"; "INTEGER"; "SMALLINT"; "TINYINT"]) then
        Some (Decimal DEFAULT_DECIMAL_PRECISION DEFAULT_DECIMAL_SCALE)
      else None).

(* code: adbc_ffi.rs 267-278 parse_large_character_type *)
Definition parse_large_character_type (s : string) : outcome string (option ExasolType) :=
  Ok (if bool_decide (s = "CLOB") || starts_with "LONG VARCHAR" s
      then Some (Varchar MAX_VARCHAR_SIZE) else None).

(* code: adbc_ffi.rs 280-297 parse_temporal_type *)
Definition parse_temporal_type (s : string) : outcome string (option ExasolType) :=
  if starts_with "TIMESTAMP" s then
    Ok (Some (Timestamp (ends_with "WITH LOCAL TIME ZONE" s)))
  else if starts_with "INTERVAL YEAR" s && contains_str "TO MONTH" s then
    Ok (Some IntervalYearToMonth)
  else if starts_with "INTERVAL DAY" s && contains_str "TO SECOND" s then
    p ← extract_last_param s;
    Ok (Some (IntervalDayToSecond (wrap U8 (default DEFAULT_INTERVAL_PRECISION p))))
  else Ok None.

(* code: adbc_ffi.rs 299-335 parse_sized_type *)
Definition parse_sized_type (s : string) : outcome string (option ExasolType) :=
  if starts_with "GEOMETRY" s then
    p ← extract_single_param s; Ok (Some (Geometry (wrap I32 <$> p)))
  else if starts_with "HASHTYPE" s then
    p ← extract_single_param s;
    Ok (Some (Hashtype (wrap USize (default DEFAULT_HASHTYPE_BYTES p))))
  else if starts_with "CHAR" s && negb (starts_with "CHAR VARYING" s) then
    p ← extract_single_param s; Ok (Some (Char (wrap USize (default 1 p))))
  else if starts_with "VARCHAR" s || starts_with "CHAR VARYING" s then
    p ← extract_single_param s;
    Ok (Some (Varchar (wrap USize (default (wrap I64 MAX_VARCHAR_SIZE) p))))
  else if starts_with "DECIMAL" s || starts_with "NUMERIC" s then
    p ← extract_two_params s;
    let '(precision, scale) := default (DEFAULT_DECIMAL_PRECISION, DEFAULT_DECIMAL_SCALE) p in
    Ok (Some (Decimal (wrap U8 precision) (wrap I8 scale)))
  else Ok None.

(** The error is the message of the [AdbcError], whose status is [Internal]. *)
(* code: adbc_ffi.rs 231-248 parse_exasol_type_string *)
Definition parse_exasol_type_string `{UnicodeCase} (type_str : string)
    : outcome string ExasolType :=
  let type_upper := to_uppercase (trim type_str) in
  t ← or_else (parse_unparameterized_type type_upper)
        (or_else (parse_large_character_type type_upper)
          (or_else (parse_temporal_type type_upper) (parse_sized_type type_upper)));
  ok_or ("Unknown Exasol type: " +:+ type_str) t.

(* code: adbc_ffi.rs 370-408 transport_datatype_to_exasol *)
Definition transport_datatype_to_exasol `{UnicodeCase} (dt : DataType) : outcome string ExasolType :=
  let name := to_uppercase (dt_type_name dt) in
  if bool_decide (name = "BOOLEAN") then Ok Boolean
  else if bool_decide (name = "DATE") then Ok Date
  else if bool_decide (name ∈ ["DOUBLE"; "DOUBLE PRECISION"]) then Ok Double
  else if bool_decide (name = "TIMESTAMP") then
    Ok (Timestamp (default false (dt_with_local_time_zone dt)))
  else if bool_decide (name = "TIMESTAMP WITH LOCAL TIME ZONE") then Ok (Timestamp true)
  else if bool_decide (name = "CHAR") then Ok (Char (wrap USize (default 1 (dt_size dt))))
  else if bool_decide (name = "VARCHAR") then
    Ok (Varchar (wrap USize (default 2000000 (dt_size dt))))
  else if bool_decide (name = "DECIMAL") then
    Ok (Decimal (wrap U8 (default 18 (dt_precision dt))) (wrap I8 (default 0 (dt_scale dt))))
  else if bool_decide (name = "GEOMETRY") then Ok (Geometry None)
  else if bool_decide (name = "HASHTYPE") then
    Ok (Hashtype (wrap USize (default 16 (dt_size dt))))
  else if bool_decide (name = "INTERVAL DAY TO SECOND") then
    Ok (IntervalDayToSecond (wrap U8 (default 3 (dt_fraction dt))))
  else if bool_decide (name = "INTERVAL YEAR TO MONTH") then Ok IntervalYearToMonth
  else Err ("Unknown transport type: " +:+ dt_type_name dt).

(** ** Names and resolvers *)
(** ** Lemmas *)
Lemma show_int_forall (P : ascii → bool) z :
  P "-"%char = true → (∀ a, is_digit a = true → P a = true) → str_forall P (show_int z) = true.
Proof.
  intros Hm Hd. unfold show_int. destruct (Z.ltb_spec z 0).
  - cbn [str_forall]. rewrite Hm. eapply str_forall_impl; [exact Hd|]. apply show_nat_spec. lia.
  - eapply str_forall_impl; [exact Hd|]. by apply show_nat_spec.
Qed.

Lemma show_int_not_nil z : show_int z ≠ ""%string.
Proof. unfold show_int. case_match; [done|]. apply show_nat_spec. lia. Qed.

Lemma show_int_trim z : trim (show_int z) = show_int z.
Proof.
  apply trim_graphic, graphic_ends_forall, show_int_forall; [done|]. apply digit_graphic.
Qed.

Lemma show_int_no_char c z :
  is_digit c = false → Ascii.eqb "-" c = false → contains_char c (show_int z) = false.
Proof.
  intros Hd Hm. apply (contains_char_forall _ (λ a, negb (Ascii.eqb a c))).
  - by rewrite Ascii.eqb_refl.
  - apply show_int_forall; [by rewrite Hm|]. intros a Ha. by rewrite digit_not.
Qed.

(** ASCII without lower-case letters. *)
Definition upper_ascii (a : ascii) : bool := is_ascii_char a && negb (is_ascii_lower a).

Lemma upper_ascii_digit a : is_digit a = true → upper_ascii a = true.
Proof. destruct a as [[] [] [] [] [] [] [] []]; done. Qed.

Lemma show_int_upper z : str_forall upper_ascii (show_int z) = true.
Proof. apply show_int_forall; [done|]. apply upper_ascii_digit. Qed.

Lemma normalised_text `{UnicodeCase} s :
  str_forall upper_ascii s = true → graphic_ends s = true → to_uppercase (trim s) = s.
Proof.
  intros Hu Hg. rewrite trim_graphic by done. apply to_uppercase_id;
    (eapply str_forall_impl; [|exact Hu]); intros a [? ?]%andb_true_iff; done.
Qed.

(** The text between the parentheses. *)
Lemma param_slice p x r :
  contains_char "(" p = false → contains_char ")" p = false → contains_char ")" x = false →
  str_forall upper_ascii (p +:+ String "(" (x +:+ String ")" r)) = true →
  let s := p +:+ String "(" (x +:+ String ")" r) in
  find_char "(" s = Some (str_len p) ∧
  find_char ")" s = Some (str_len p + 1 + str_len x)%nat ∧
  str_slice (E := string) (str_len p + 1) (str_len p + 1 + str_len x) s = Ok x.
Proof.
  intros H1 H2 H3 Ha s.
  assert (s = (p +:+ "(") +:+ x +:+ String ")" r) as Hs
    by (unfold s; by rewrite str_app_assoc, str_app_char).
  assert (str_len (p +:+ "(") = str_len p + 1)%nat as Hl by (by rewrite str_len_app).
  split; [by apply find_char_app|]. split.
  - rewrite Hs, <- str_app_assoc, find_char_app, str_len_app, Hl; [done|].
    by rewrite !contains_char_app, H2, H3.
  - rewrite <- Hl, Hs. apply str_slice_app. rewrite <- Hs.
    eapply str_forall_impl; [|exact Ha]. by intros a [? _]%andb_true_iff.
Qed.

Lemma extract_single_text p x r :
  contains_char "(" p = false → contains_char ")" p = false → contains_char ")" x = false →
  str_forall upper_ascii (p +:+ String "(" (x +:+ String ")" r)) = true →
  extract_single_param (p +:+ String "(" (x +:+ String ")" r)) = Ok (parse_int I64 (trim x)).
Proof.
  intros H1 H2 H3 Ha. destruct (param_slice p x r H1 H2 H3 Ha) as (E1 & E2 & E3).
  unfold extract_single_param. by rewrite E1, E2, E3.
Qed.

Lemma extract_two_text p a b :
  contains_char "(" p = false → contains_char ")" p = false →
  str_forall upper_ascii p = true → in_range I64 a → in_range I64 b →
  extract_two_params (p +:+ String "(" (show_int a +:+ String "," (show_int b +:+ ")")))
  = Ok (Some (a, b)).
Proof.
  intros H1 H2 Hp Ha Hb.
  pose proof (param_slice p (show_int a +:+ String "," (show_int b)) "" H1 H2) as H.
  rewrite !str_app_assoc, !str_app_cons in H.
  destruct H as (E1 & E2 & E3).
  { rewrite contains_char_app. cbn [contains_char].
    by rewrite !show_int_no_char. }
  { rewrite str_forall_app, Hp. cbn [str_forall]. rewrite str_forall_app, show_int_upper.
    cbn [str_forall]. by rewrite str_forall_app, show_int_upper. }
  unfold extract_two_params. rewrite E1, E2, E3. cbn [mbind outcome_bind].
  rewrite split_on_cons, split_on_absent by by apply show_int_no_char.
  by rewrite !show_int_trim, !parse_int_show_int.
Qed.

Lemma extract_last_text p x :
  contains_char "(" x = false →
  str_forall upper_ascii (p +:+ String "(" (x +:+ ")")) = true →
  contains_char ")" x = false →
  extract_last_param (p +:+ String "(" (x +:+ ")")) = Ok (parse_int I64 (trim x)).
Proof.
  intros H1 Ha H2. unfold extract_last_param.
  assert (p +:+ String "(" (x +:+ ")") = (p +:+ "(") +:+ x +:+ ")") as Hs
    by (by rewrite str_app_assoc, str_app_char).
  rewrite rfind_char_app by (rewrite contains_char_app, H1; done).
  rewrite Hs, <- str_app_assoc, (rfind_char_app ")" _ ""), str_len_app by done.
  assert (str_len (p +:+ "(") = str_len p + 1)%nat as -> by (by rewrite str_len_app).
  rewrite (proj2 (Nat.ltb_lt _ _)) by lia.
  assert (str_len (p +:+ "(") = str_len p + 1)%nat as <- by (by rewrite str_len_app).
  rewrite str_app_assoc, str_slice_app; [done|]. rewrite <- Hs.
  eapply str_forall_impl; [|exact Ha]. by intros a [? _]%andb_true_iff.
Qed.

(** ** The parser on the names of [to_ddl_type] *)
Section Names.
Context `{UnicodeCase}.

(** Cut the parser down to the sized types, for a name none of the others match. *)
Lemma parse_sized s :
  parse_unparameterized_type s = Ok None → parse_large_character_type s = Ok None →
  parse_temporal_type s = Ok None → to_uppercase (trim s) = s →
  parse_exasol_type_string s
  = (t ← parse_sized_type s; ok_or ("Unknown Exasol type: " +:+ s) t).
Proof.
  intros H1 H2 H3 Hn. unfold parse_exasol_type_string. rewrite Hn, H1, H2, H3.
  cbn [or_else mbind outcome_bind]. by destruct (parse_sized_type s).
Qed.

Lemma ddl_normal p x r :
  p ≠ ""%string → r ≠ ""%string → str_forall is_graphic p = true → str_forall is_graphic r = true →
  str_forall upper_ascii p = true → str_forall upper_ascii x = true →
  str_forall upper_ascii r = true →
  to_uppercase (trim (p +:+ x +:+ r)) = p +:+ x +:+ r.
Proof.
  intros. apply normalised_text; [|by apply graphic_ends_app].
  rewrite !str_forall_app. repeat (apply andb_true_iff; split); done.
Qed.
End Names.

(** Reads of one-parameter names. *)
Lemma read_single_param p z :
  contains_char "(" p = false → contains_char ")" p = false → str_forall upper_ascii p = true →
  in_range I64 z →
  extract_single_param (p +:+ String "(" (show_int z +:+ ")")) = Ok (Some z).
Proof.
  intros H1 H2 Hp Hz. rewrite extract_single_text.
  - by rewrite show_int_trim, parse_int_show_int.
  - done.
  - done.
  - by apply show_int_no_char.
  - rewrite str_forall_app, Hp. cbn [str_forall]. by rewrite str_forall_app, show_int_upper.
Qed.

Ltac run_outcome := cbn [mbind outcome_bind ok_or default from_option id].
Ltac ddl_normal := apply ddl_normal; try apply show_int_upper; done.

(** A number with a unit after it is no parameter. *)
Lemma byte_param_none t n : 0 ≤ n → parse_int t (trim (show_int n +:+ " BYTE")) = None.
Proof.
  intros Hn. change " BYTE" with (" " +:+ "BYTE").
  rewrite trim_graphic; cycle 1.
  { apply graphic_ends_app; [apply show_int_not_nil|done| |done].
    apply show_int_forall; [done|]. apply digit_graphic. }
  unfold show_int. rewrite (proj2 (Z.ltb_ge _ _)) by done.
  destruct (show_nat_spec n Hn) as (Hp & Hne & Hd).
  assert (parse_nat (show_nat n +:+ " " +:+ "BYTE") = None) as Hpn.
  { unfold parse_nat. pose proof (parse_digits_app 0 (show_nat n) (" " +:+ "BYTE")) as E.
    rewrite Hp in E. destruct (show_nat n); [done|]. rewrite str_app_cons in *. exact E. }
  unfold parse_int. destruct (show_nat n) as [|a s]; [done|]. rewrite str_app_cons in *.
  cbn [str_forall] in Hd. apply andb_true_iff in Hd as [Ha _].
  destruct a as [[] [] [] [] [] [] [] []]; try discriminate Ha; by rewrite Hpn.
Qed.

Section ParamNames.
Context `{UnicodeCase}.

Lemma read_decimal_name p s :
  in_range U8 p → in_range I8 s →
  parse_exasol_type_string ("DECIMAL(" +:+ show_int p +:+ "," +:+ show_int s +:+ ")")
  = Ok (Decimal p s).
Proof.
  rewrite parse_sized; [|reflexivity..|].
  2:{ rewrite <- !(str_app_assoc _ _ ")"), str_app_assoc.
      apply ddl_normal; try done. rewrite !str_forall_app, !show_int_upper. done. }
  change (parse_sized_type ("DECIMAL(" +:+ show_int p +:+ "," +:+ show_int s +:+ ")")) with
    (p ← extract_two_params
           ("DECIMAL" +:+ String "(" (show_int p +:+ String "," (show_int s +:+ ")")));
     (let '(precision, scale) := default (DEFAULT_DECIMAL_PRECISION, DEFAULT_DECIMAL_SCALE) p in
      Ok (Some (Decimal (wrap U8 precision) (wrap I8 scale))))
     : outcome string (option ExasolType)).
  intros ? ?. rewrite extract_two_text by (done || range). run_outcome. by rewrite !wrap_id.
Qed.

Lemma read_interval_name p :
  in_range U8 p →
  parse_exasol_type_string
    ("INTERVAL DAY(" +:+ show_int INTERVAL_LEADING_PRECISION +:+ ") TO SECOND(" +:+
     show_int p +:+ ")") = Ok (IntervalDayToSecond p).
Proof.
  intros Ht.
  change ("INTERVAL DAY(" +:+ show_int INTERVAL_LEADING_PRECISION +:+ ") TO SECOND(" +:+
          show_int p +:+ ")")
    with ("INTERVAL DAY(9) TO SECOND(" +:+ show_int p +:+ ")").
  unfold parse_exasol_type_string.
  assert (to_uppercase (trim ("INTERVAL DAY(9) TO SECOND(" +:+ show_int p +:+ ")"))
          = "INTERVAL DAY(9) TO SECOND(" +:+ show_int p +:+ ")") as ->.
  { apply normalised_text.
    - by rewrite !str_forall_app, show_int_upper.
    - change ("INTERVAL DAY(9) TO SECOND(" +:+ show_int p +:+ ")")
        with ("INTERVAL" +:+ (" DAY(9) TO SECOND(" +:+ show_int p) +:+ ")").
      by apply graphic_ends_app. }
  change ("INTERVAL DAY(9) TO SECOND(" +:+ show_int p +:+ ")")
    with ("INTERVAL DAY(9) TO SECOND" +:+ String "(" (show_int p +:+ ")")).
  cbn [parse_unparameterized_type].
  match goal with |- context [or_else _ (or_else _ (or_else (parse_temporal_type ?s) _))] =>
    change (parse_temporal_type s) with
      (p ← extract_last_param s;
       Ok (Some (IntervalDayToSecond (wrap U8 (default DEFAULT_INTERVAL_PRECISION p))))
       : outcome string (option ExasolType)) end.
  rewrite extract_last_text, show_int_trim, parse_int_show_int.
  + run_outcome. by rewrite wrap_id.
  + range.
  + by apply show_int_no_char.
  + rewrite str_forall_app. cbn [str_forall]. by rewrite str_forall_app, show_int_upper.
  + by apply show_int_no_char.
Qed.

Lemma read_hashtype_name n :
  in_range USize n →
  parse_exasol_type_string ("HASHTYPE(" +:+ show_int n +:+ " BYTE)") = Ok (Hashtype 16).
Proof.
  intros Ht.
  replace ("HASHTYPE(" +:+ show_int n +:+ " BYTE)")
    with ("HASHTYPE(" +:+ (show_int n +:+ " BYTE") +:+ ")") by (by rewrite str_app_assoc).
  assert (str_forall upper_ascii (show_int n +:+ " BYTE") = true) as Hu
    by (by rewrite str_forall_app, show_int_upper).
  rewrite parse_sized by (reflexivity || (apply ddl_normal; done)).
  change (parse_sized_type ("HASHTYPE(" +:+ (show_int n +:+ " BYTE") +:+ ")")) with
    (p ← extract_single_param ("HASHTYPE" +:+ String "(" ((show_int n +:+ " BYTE") +:+ ")"));
     Ok (Some (Hashtype (wrap USize (default DEFAULT_HASHTYPE_BYTES p))))
     : outcome string (option ExasolType)).
  rewrite extract_single_text; [by rewrite byte_param_none by range|done|done| |].
  + rewrite contains_char_app. by rewrite show_int_no_char.
  + rewrite str_forall_app. cbn [str_forall]. by rewrite str_forall_app, Hu.
Qed.
End ParamNames.

(** The types whose size the parser can hold: it reads sizes as [i64]. *)
Definition readable_type (t : ExasolType) : Prop :=
  typed_type t ∧
  match t with Char n | Varchar n | Hashtype n => n ≤ imax I64 | _ => True end.

(** Type names: [parse_exasol_type_string] (the reader of the column types of
    the system views) gives back the type from every name [to_ddl_type] writes,
    with its parameters, except that the size of a HASHTYPE is lost: the text
    [HASHTYPE(n BYTE)] has no bare number between its parentheses, so every
    HASHTYPE reads as the default of 16 bytes. *)
Theorem ddl_name_roundtrip `{UnicodeCase} t :
  readable_type t →
  parse_exasol_type_string (to_ddl_type t)
  = Ok (match t with Hashtype _ => Hashtype 16 | t => t end).
Proof.
  intros [Ht Hs]. destruct t as [|n|n|p s| | |[]| |p|[srid|]|n]; cbn [typed_type] in Ht;
    cbn [to_ddl_type];
    try (unfold parse_exasol_type_string; rewrite normalised_text by reflexivity; reflexivity).
  - rewrite parse_sized by (reflexivity || ddl_normal).
    change (parse_sized_type ("CHAR(" +:+ show_int n +:+ ")")) with
      (p ← extract_single_param ("CHAR" +:+ String "(" (show_int n +:+ ")"));
       Ok (Some (Char (wrap USize (default 1 p)))) : outcome string (option ExasolType)).
    rewrite read_single_param by (done || range). run_outcome. by rewrite wrap_id.
  - rewrite parse_sized by (reflexivity || ddl_normal).
    change (parse_sized_type ("VARCHAR(" +:+ show_int n +:+ ")")) with
      (p ← extract_single_param ("VARCHAR" +:+ String "(" (show_int n +:+ ")"));
       Ok (Some (Varchar (wrap USize (default (wrap I64 MAX_VARCHAR_SIZE) p))))
       : outcome string (option ExasolType)).
    rewrite read_single_param by (done || range). run_outcome. by rewrite wrap_id.
  - destruct Ht. by apply read_decimal_name.
  - by apply read_interval_name.
  - rewrite parse_sized by (reflexivity || ddl_normal).
    change (parse_sized_type ("GEOMETRY(" +:+ show_int srid +:+ ")")) with
      (p ← extract_single_param ("GEOMETRY" +:+ String "(" (show_int srid +:+ ")"));
       Ok (Some (Geometry (wrap I32 <$> p))) : outcome string (option ExasolType)).
    rewrite read_single_param by (done || range). run_outcome. cbn [fmap option_fmap option_map].
    by rewrite wrap_id.
  - by apply read_hashtype_name.
Qed.

Lemma ddl_name_roundtrip_witness :
  parse_exasol_type_string (H := {| unicode_uppercase s := s; unicode_lowercase s := s |})
    (to_ddl_type (Decimal 36 12)) = Ok (Decimal 36 12).
Proof. apply (ddl_name_roundtrip (Decimal 36 12)). split; [split; vm_range|exact I]. Defined.

(** Evaluate the comparisons of literal names. *)
Ltac eval_decide b :=
  let v := eval vm_compute in b in change b with v.
Ltac eval_names :=
  repeat match goal with
    | |- context [bool_decide (String ?a ?x = ?y)] => eval_decide (bool_decide (String a x = y))
    | |- context [bool_decide (String ?a ?x ∈ ?y)] => eval_decide (bool_decide (String a x ∈ y))
    end; cbv match.

(** ** Type maps *)

(** The column types an Exasol CREATE TABLE accepts. *)
Definition creatable_type (t : ExasolType) : Prop :=
  match t with
  | Char n => 1 ≤ n ≤ 2000
  | Varchar n => 1 ≤ n ≤ 2000000
  | Decimal p s => 1 ≤ p ≤ 36 ∧ 0 ≤ s ≤ p
  | IntervalDayToSecond p => 0 ≤ p ≤ 9
  | _ => True
  end.

#[global] Instance creatable_type_dec t : Decision (creatable_type t).
Proof. unfold creatable_type. case_match; apply _. Defined.

(** What [arrow_to_exasol] makes of the Arrow type of an Exasol type. *)
Definition stored_type (t : ExasolType) : ExasolType :=
  match t with
  | Char _ | Varchar _ | Geometry _ | Hashtype _ => Varchar 2000000
  | IntervalYearToMonth | IntervalDayToSecond _ => IntervalDayToSecond 3
  | t => t
  end.

Lemma arrow_to_exasol_creatable `{ArrowTypeLib} a t :
  arrow_to_exasol a = Ok t → creatable_type t ∧ (stored_type t = t ∨ t = IntervalYearToMonth).
Proof.
  intros Ha.
  destruct a as [| | | | | | | | | | | | | | | | | | | | |[]| | | |]; cbn [arrow_to_exasol] in Ha;
    try match type of Ha with
        (if ?b then _ else _) = _ => destruct b eqn:E; [|discriminate Ha] end;
    injection Ha as <- || discriminate Ha;
    try (split; [by_decision|by (left + right)]); (split; [|by left]);
    cbn [creatable_type]; unfold MAX_DECIMAL_PRECISION in E;
    rewrite !andb_true_iff, !Z.leb_le in E; destruct E as [[[? ?] ?] Hw];
    rewrite wrap_id in Hw by range; lia.
Qed.

(** The type map: every type [arrow_to_exasol] returns is one a table can be
    created with, and all but INTERVAL YEAR TO MONTH are stable under
    [exasol_to_arrow] and back; the Arrow type of a creatable Exasol type maps back
    to that type for BOOLEAN, DECIMAL, DOUBLE, DATE and TIMESTAMP, and to the widest
    text or to INTERVAL DAY TO SECOND for the others. *)
Theorem type_map_sound `{ArrowTypeLib} :
  (∀ a t, arrow_to_exasol a = Ok t →
     creatable_type t ∧ (stored_type t = t ∨ t = IntervalYearToMonth)) ∧
  (∀ t nullable, creatable_type t →
     ∃ a, exasol_to_arrow t nullable = Ok a ∧ arrow_to_exasol a = Ok (stored_type t)).
Proof.
  split; [apply arrow_to_exasol_creatable|].
  intros t nullable Ht. destruct t as [|n|n|p s| | |[]| |p|srid|n];
    cbn [exasol_to_arrow creatable_type] in *; eexists; (split; [done|]); try done.
  cbn [arrow_to_exasol stored_type]. unfold MAX_DECIMAL_PRECISION.
  rewrite wrap_id by range. rewrite !(proj2 (Z.leb_le _ _)) by lia. done.
Qed.

Definition type_map_lib : ArrowTypeLib :=
  {| is_dictionary_key_type t := bool_decide (t = AInt32); show_arrow_type _ := "Arrow" |}.

Lemma type_map_sound_witness :
  ∃ a, exasol_to_arrow (Decimal 9 2) true = Ok a ∧
       arrow_to_exasol (H := type_map_lib) a = Ok (Decimal 9 2).
Proof. apply (proj2 (type_map_sound (H := type_map_lib)) (Decimal 9 2) true). by_decision. Defined.

(** The three functions that resolve the type record of a column agree: when
    [parse_exasol_type] accepts a record, [exasol_type_of] gives the same type,
    and [transport_datatype_to_exasol] gives it too when the name is upper-case
    ASCII, except that it drops the SRID of a GEOMETRY and takes the reported size
    of a HASHTYPE, which counts hex characters, for its byte size. *)
Theorem type_resolvers_agree `{UnicodeCase} dt t :
  parse_exasol_type dt = Ok t →
  exasol_type_of dt = Ok t ∧
  transport_datatype_to_exasol dt
  = Ok (match t with
        | Geometry _ => Geometry None
        | Hashtype _ => Hashtype (wrap USize (default 16 (dt_size dt)))
        | t => t
        end).
Proof.
  unfold parse_exasol_type, exasol_type_of, transport_datatype_to_exasol, required_attribute,
    hashtype_from_reported_size.
  destruct dt as [name p s z cs tz f srid];
    cbn [dt_type_name dt_precision dt_scale dt_size dt_with_local_time_zone dt_fraction dt_srid].
  intros Hp.
  repeat match type of Hp with
    (if bool_decide (name = ?x) then _ else _) = _ =>
      destruct (decide (name = x)) as [->|Hn];
      [ rewrite to_uppercase_id by reflexivity; revert Hp; eval_names;
        destruct p, s, z; cbv [ok_or mbind outcome_bind]; intros; simplify_eq; split; reflexivity
      | rewrite (bool_decide_eq_false_2 _ Hn) in Hp; rewrite (bool_decide_eq_false_2 _ Hn);
        clear Hn ]
  end. done.
Qed.

Lemma type_resolvers_agree_witness :
  exasol_type_of (dt_decimal 12 3) = Ok (Decimal 12 3) ∧
  transport_datatype_to_exasol (H := {| unicode_uppercase s := s; unicode_lowercase s := s |})
    (dt_decimal 12 3) = Ok (Decimal 12 3).
Proof. apply (type_resolvers_agree (dt_decimal 12 3) (Decimal 12 3)). vm_compute. reflexivity. Defined.
