(* ===== verification/ResultParser.v ===== *)
(** * Response parser

    [transport/native/result_parser.rs]: the response envelope, column
    descriptions, result rows and fetched rows of the native protocol. Arrow's
    builders and [RecordBatch] constructors are the class [ArrowLib]; a finished
    array is the list of its cells. *)
From S2P Require Import Prelude MachineInt RustStr Constants Errors Framing DateTime Interval.
From S2P Require Import ExasolTypes.
From Stdlib Require Import Ascii.

#[local] Open Scope Z_scope.

(** ** Data *)
(* code: transport/native/result_parser.rs 24-35 NativeColumnMeta *)
Record NativeColumnMeta := {
  name : string;
  type_id : Z;
  precision : option Z;
  scale : option Z;
  is_varchar : bool;
  max_len : option Z;
  interval_fraction : option Z;
}.

(** The values of the Arrow arrays that results hold; the native parser builds no
    integer arrays. Floats are the bits of an [f64]. *)
Inductive Cell :=
| CFloat64 (bits : Z)
| CBoolean (b : bool)
| CBinary (bs : list byte)
| CInterval (v : IntervalMonthDayNano)
| CDecimal128 (v : Z)
| CInt32 (i : Z)
| CInt64 (i : Z)
| CDate32 (days : Z)
| CTimestamp (micros : Z)
| CUtf8 (s : string).

Record RecordBatch := {
  rb_fields : list Field;
  rb_columns : list (list (option Cell));
  rb_rows : nat;
}.

(** arrow-rs: whether a builder of a capacity can be allocated (it panics when
    not), and the error of the [RecordBatch] constructors, if any. *)
Class ArrowLib := {
  builder_fits : Z → bool;
  record_batch_error : list Field → list (list (option Cell)) → nat → option string;
}.

(** The values that an array of a type holds. *)
Definition cell_has_type (t : ArrowType) (c : Cell) : bool :=
  match t, c with
  | AFloat64, CFloat64 _ | ABoolean, CBoolean _ | ABinary, CBinary _
  | AInterval MonthDayNano, CInterval _ | ADecimal128 _ _, CDecimal128 _
  | ADate32, CDate32 _ | ATimestamp _ _, CTimestamp _ | AUtf8, CUtf8 _
  | AInt32, CInt32 _ | AInt64, CInt64 _ => true
  | _, _ => false
  end.

Definition typed_column (f : Field) (column : list (option Cell)) : Prop :=
  f_nullable f = true ∧
  Forall (from_option (λ c, cell_has_type (f_data_type f) c = true) True) column.

(** Documented behaviour: a batch of nullable columns of their fields' types and of one
    length is accepted. *)
Class ArrowLaws (L : ArrowLib) :=
  record_batch_ok fields columns rows :
    Forall2 typed_column fields columns → Forall (λ c, length c = rows) columns →
    record_batch_error fields columns rows = None.

(* code: transport/native/result_parser.rs 37-63 NativeResponse *)
Inductive NativeResponse :=
| ResultSet (handle : Z) (columns : list NativeColumnMeta) (batch : option RecordBatch)
    (total_rows rows_received : Z)
| PreparedStatement (handle : Z) (parameters result_columns : list NativeColumnMeta)
| RowCount (count : Z)
| Empty
| StillExecuting
| MoreRows (rest : list byte)
| Exception (message sql_state : string).

(* code: transport/native/result_parser.rs 65-70 NativeWarning *)
Record NativeWarning := { w_message : string; w_sql_state : string }.

(* code: transport/native/result_parser.rs 72-77 NativeResponseEnvelope *)
Record NativeResponseEnvelope := {
  warnings : list NativeWarning;
  terminal : NativeResponse;
}.

#[global] Instance NativeColumnMeta_eq_dec : EqDecision NativeColumnMeta.
Proof. solve_decision. Defined.
#[global] Instance Cell_eq_dec : EqDecision Cell.
Proof. solve_decision. Defined.
#[global] Instance RecordBatch_eq_dec : EqDecision RecordBatch.
Proof. solve_decision. Defined.
#[global] Instance NativeResponse_eq_dec : EqDecision NativeResponse.
Proof. solve_decision. Defined.
#[global] Instance NativeWarning_eq_dec : EqDecision NativeWarning.
Proof. solve_decision. Defined.
#[global] Instance NativeResponseEnvelope_eq_dec : EqDecision NativeResponseEnvelope.
Proof. solve_decision. Defined.

(** ** Primitive readers *)
(* code: transport/native/result_parser.rs 968-975 read_u8 *)
Definition read_u8 : reader TransportError Z := read_fixed U8 "Data truncated (u8)".
(* code: transport/native/result_parser.rs 977-984 read_i16 *)
Definition read_i16 : reader TransportError Z := read_fixed I16 "Data truncated (i16)".
(* code: transport/native/result_parser.rs 986-998 read_i32 *)
Definition read_i32 : reader TransportError Z := read_fixed I32 "Data truncated (i32)".
(* code: transport/native/result_parser.rs 1000-1016 read_i64 *)
Definition read_i64 : reader TransportError Z := read_fixed I64 "Data truncated (i64)".
(* code: transport/native/result_parser.rs 1018-1034 read_f64 *)
Definition read_f64 : reader TransportError Z := read_fixed U64 "Data truncated (f64)".
(* code: transport/native/result_parser.rs 1036-1048 read_f32 *)
Definition read_f32 : reader TransportError Z := read_fixed U32 "Data truncated (f32)".
(* code: transport/native/result_parser.rs 1050-1076 read_i128 *)
Definition read_i128 : reader TransportError Z := read_fixed I128 "Data truncated (i128)".

(** [x as f64] of an [f32], on bits; a NaN is quieted and keeps its payload. *)
Definition f64_of_f32 (b : Z) : Z :=
  let sign := b / 2 ^ 31 * 2 ^ 63 in
  let e := b / 2 ^ 23 mod 256 in
  let m := b mod 2 ^ 23 in
  if e =? 255 then
    sign + 2047 * 2 ^ 52 + (if m =? 0 then 0 else Z.lor (2 ^ 51) (m * 2 ^ 29))
  else if e =? 0 then
    if m =? 0 then sign
    else let k := Z.log2 m in sign + (k - 149 + 1023) * 2 ^ 52 + (m - 2 ^ k) * 2 ^ (52 - k)
  else sign + (e - 127 + 1023) * 2 ^ 52 + m * 2 ^ 29.

(** [&data[a..b]]. *)
Definition byte_slice {E} (a b : nat) (data : list byte) : outcome E (list byte) :=
  if (a <=? b)%nat && (b <=? length data)%nat then Ok (take (b - a) (drop a data)) else Panic.

(** ** Parsing under a build profile *)
Section Parser.
Context `{BuildProfile, ArrowLib}.

(** The bytes of a length that was read as [i32] and cast to [usize]: the check
    [*offset + len > data.len()], the slice and the advance. *)
(* code: transport/native/result_parser.rs 915-921 read_length_prefixed *)
Definition take_cast_length (len : Z) (truncated : string) : reader TransportError (list byte) :=
  λ data off,
    end_ ← arith USize (Z.of_nat off + wrap USize len);
    if Z.of_nat (length data) <? end_ then Err (ProtocolError truncated)
    else value ← byte_slice off (Z.to_nat end_) data; Ok (value, Z.to_nat end_).

(* code: transport/native/result_parser.rs 908-922 read_length_prefixed *)
Definition read_length_prefixed (truncated_message : string) : reader TransportError (list byte) :=
  len ← read_i32; take_cast_length len truncated_message.

(** [str::from_utf8] with the error mapped. *)
Definition utf8_or (message : utf8_error → string) (bs : list byte)
    : outcome TransportError string :=
  map_err (λ e, ProtocolError (message e)) (from_utf8 bs).

(** The five bytes of the SQL state, when they are there. *)
(* code: transport/native/result_parser.rs 530-539 parse_message_part *)
Definition read_sql_state : reader TransportError string := λ data off,
  if (off + 5 <=? length data)%nat then
    Ok (match from_utf8 (take 5 (drop off data)) with Ok s => s | _ => "?????" end,
        (off + 5)%nat)
  else Ok ("?????", off).

(* code: transport/native/result_parser.rs 518-542 parse_message_part *)
Definition parse_message_part : reader TransportError NativeWarning :=
  msg_len ← read_i32;
  bytes ← take_cast_length msg_len "Exception message truncated";
  message ← lift (utf8_or (λ e, "Invalid exception UTF-8: " +:+ show_utf8_error e) bytes);
  sql_state ← read_sql_state;
  mret {| w_message := message; w_sql_state := sql_state |}.

(* code: transport/native/result_parser.rs 514-516 parse_warning *)
Definition parse_warning : reader TransportError NativeWarning := parse_message_part.

(* code: transport/native/result_parser.rs 506-512 parse_exception_at *)
Definition parse_exception_at : reader TransportError NativeResponse :=
  warning ← parse_message_part;
  mret (Exception (w_message warning) (w_sql_state warning)).

(* code: transport/native/result_parser.rs 501-504 parse_row_count_at *)
Definition parse_row_count_at : reader TransportError NativeResponse :=
  count ← read_i64; mret (RowCount count).

(** The flag byte of a string-like column description. *)
Definition read_vc_flag (truncated : string) : reader TransportError bool :=
  v ← read_fixed U8 truncated; mret (negb (Z.land v IS_VARCHAR =? 0)).

(* code: transport/native/result_parser.rs 413-499 parse_column_meta *)
Definition parse_column_meta : reader TransportError NativeColumnMeta :=
  name_len ← read_i32;
  bytes ← take_cast_length name_len "Column name truncated";
  name ← lift (utf8_or (λ e, "Invalid column name UTF-8: " +:+ show_utf8_error e) bytes);
  id ← read_i32;
  let type_id := wrap U32 id in
  let meta p s v m f :=
    {| name := name; type_id := type_id; precision := p; scale := s; is_varchar := v;
       max_len := m; interval_fraction := f |} in
  let one_of ids := existsb (Z.eqb type_id) ids in
  if one_of [T_DECIMAL; T_SMALLDECIMAL; T_BIGDECIMAL] then
    precision ← read_i32;
    scale ← read_i32;
    mret (meta (Some precision) (Some scale) false None None)
  else if one_of [T_CHAR; T_GEOMETRY; T_HASHTYPE] then
    is_varchar ← read_vc_flag "CHAR metadata truncated";
    max_len ← read_i32;
    _octet_len ← read_i32;
    mret (meta None None is_varchar (Some max_len) None)
  else if one_of [T_INTERVAL_YEAR] then
    is_varchar ← read_vc_flag "INTERVAL metadata truncated";
    max_len ← read_i32;
    _octet_len ← read_i32;
    _interval_precision ← read_i32;
    mret (meta None None is_varchar (Some max_len) None)
  else if one_of [T_INTERVAL_DAY] then
    is_varchar ← read_vc_flag "INTERVAL metadata truncated";
    max_len ← read_i32;
    _octet_len ← read_i32;
    _interval_precision ← read_i32;
    interval_fraction ← read_i32;
    mret (meta None None is_varchar (Some max_len) (Some interval_fraction))
  else if one_of [T_TIMESTAMP; T_TIMESTAMP_LOCAL_TZ; T_TIMESTAMP_UTC] then
    _ts_precision ← read_i32;
    mret (meta None None false None None)
  else mret (meta None None false None None).

(** ** Column values *)
(* code: transport/native/result_parser.rs 886-893 read_packed_date_days *)
Definition read_packed_date_days : reader TransportError Z :=
  packed ← read_i32;
  let year := Z.shiftr packed 16 in
  let month := Z.land (Z.shiftr packed 8) 255 in
  let day := Z.land packed 255 in
  lift (ymd_to_days year month day).

(* code: transport/native/result_parser.rs 895-906 read_timestamp_micros *)
Definition read_timestamp_micros : reader TransportError Z :=
  year ← read_i16;
  month ← read_u8;
  day ← read_u8;
  hour ← read_u8;
  minute ← read_u8;
  second ← read_u8;
  nanos ← read_i32;
  lift (ymd_hms_nanos_to_micros year month day hour minute second nanos).

(** A builder with capacity for [num_rows], and the loop
    [for _ in 0..num_rows] that appends a null for a zero flag byte and the value
    read by [value] otherwise. *)
Definition with_capacity (capacity : Z) : reader TransportError unit :=
  lift (if builder_fits capacity then Ok () else Panic).

Definition fill_rows (value : reader TransportError Cell) (num_rows : Z)
    : reader TransportError (list (option Cell)) :=
  read_times (Z.to_nat num_rows)
    (flag ← read_u8;
     if flag =? 0 then mret None else (v ← value; mret (Some v))).

Definition nullable_field (name : string) (t : ArrowType) : Field :=
  {| f_name := name; f_data_type := t; f_nullable := true |}.

(* code: transport/native/result_parser.rs 644-662 fill_double_column *)
Definition fill_double_column (name : string) (num_rows : Z) :=
  _ ← with_capacity num_rows;
  cells ← fill_rows (v ← read_f64; mret (CFloat64 v)) num_rows;
  mret (nullable_field name AFloat64, cells).

(* code: transport/native/result_parser.rs 664-682 fill_real_column *)
Definition fill_real_column (name : string) (num_rows : Z) :=
  _ ← with_capacity num_rows;
  cells ← fill_rows (v ← read_f32; mret (CFloat64 (f64_of_f32 v))) num_rows;
  mret (nullable_field name AFloat64, cells).

(* code: transport/native/result_parser.rs 684-702 fill_boolean_column *)
Definition fill_boolean_column (name : string) (num_rows : Z) :=
  _ ← with_capacity num_rows;
  cells ← fill_rows (v ← read_u8; mret (CBoolean (negb (v =? 0)))) num_rows;
  mret (nullable_field name ABoolean, cells).

(* code: transport/native/result_parser.rs 704-722 fill_binary_column *)
Definition fill_binary_column (name : string) (num_rows : Z) :=
  data_capacity ← lift (arith USize (num_rows * 16));
  _ ← with_capacity num_rows;
  _ ← with_capacity data_capacity;
  cells ← fill_rows (bs ← read_length_prefixed "Binary data truncated"; mret (CBinary bs)) num_rows;
  mret (nullable_field name ABinary, cells).

(* code: transport/native/result_parser.rs 724-757 fill_interval_column *)
Definition fill_interval_column (name : string) (num_rows : Z) :=
  _ ← with_capacity num_rows;
  cells ← fill_rows
    (bytes ← read_length_prefixed "Interval data truncated";
     text ← lift (utf8_or (λ e, "Invalid UTF-8 in INTERVAL column " +:+ name +:+ ": "
                                +:+ show_utf8_error e) bytes);
     interval ← lift (map_err (λ reason, ProtocolError
        ("Invalid INTERVAL value '" +:+ text +:+ "' in column " +:+ name +:+ ": " +:+ reason))
        (parse_interval text));
     mret (CInterval interval)) num_rows;
  mret (nullable_field name (AInterval MonthDayNano), cells).

(* code: transport/native/result_parser.rs 577-586 decimal_precision_scale *)
Definition decimal_precision_scale (meta : NativeColumnMeta) (default_precision : Z) : Z * Z :=
  let clamp z lo hi := Z.max lo (Z.min hi z) in
  (clamp (default default_precision (precision meta)) 1 38,
   clamp (default 0 (scale meta)) (-128) 127).

(* code: transport/native/result_parser.rs 825-828 decimal_data_type *)
Definition decimal_data_type (meta : NativeColumnMeta) (default_precision : Z) : ArrowType :=
  let '(precision, scale) := decimal_precision_scale meta default_precision in
  ADecimal128 precision scale.

(* code: transport/native/result_parser.rs 759-778 fill_smalldecimal_column *)
Definition fill_smalldecimal_column (meta : NativeColumnMeta) (num_rows : Z) :=
  let data_type := decimal_data_type meta 9 in
  _ ← with_capacity num_rows;
  cells ← fill_rows (v ← read_i32; mret (CDecimal128 v)) num_rows;
  mret (nullable_field (name meta) data_type, cells).

(* code: transport/native/result_parser.rs 780-802 fill_decimal_column *)
Definition fill_decimal_column (meta : NativeColumnMeta) (num_rows : Z) :=
  let data_type := decimal_data_type meta 18 in
  _ ← with_capacity num_rows;
  let use_i32 := default 18 (precision meta) <=? 9 in
  cells ← fill_rows (v ← (if use_i32 : bool then read_i32 else read_i64); mret (CDecimal128 v))
    num_rows;
  mret (nullable_field (name meta) data_type, cells).

(* code: transport/native/result_parser.rs 804-823 fill_bigdecimal_column *)
Definition fill_bigdecimal_column (meta : NativeColumnMeta) (num_rows : Z) :=
  let data_type := decimal_data_type meta 36 in
  _ ← with_capacity num_rows;
  cells ← fill_rows (v ← read_i128; mret (CDecimal128 v)) num_rows;
  mret (nullable_field (name meta) data_type, cells).

(* code: transport/native/result_parser.rs 830-848 fill_date_column *)
Definition fill_date_column (name : string) (num_rows : Z) :=
  _ ← with_capacity num_rows;
  cells ← fill_rows (v ← read_packed_date_days; mret (CDate32 v)) num_rows;
  mret (nullable_field name ADate32, cells).

(* code: transport/native/result_parser.rs 850-884 fill_timestamp_column *)
Definition fill_timestamp_column (meta : NativeColumnMeta) (num_rows : Z) :=
  _ ← with_capacity num_rows;
  cells ← fill_rows (v ← read_timestamp_micros; mret (CTimestamp v)) num_rows;
  if (type_id meta =? T_TIMESTAMP_LOCAL_TZ) || (type_id meta =? T_TIMESTAMP_UTC)
  then mret (nullable_field (name meta) (ATimestamp Microsecond (Some "UTC")), cells)
  else mret (nullable_field (name meta) (ATimestamp Microsecond None), cells).

(* code: transport/native/result_parser.rs 924-948 fill_string_builder *)
Definition fill_string_builder (name : string) (num_rows : Z) :=
  data_capacity ← lift (arith USize (num_rows * 16));
  _ ← with_capacity num_rows;
  _ ← with_capacity data_capacity;
  cells ← fill_rows
    (bytes ← read_length_prefixed "String data truncated";
     text ← lift (utf8_or (λ e, "Invalid UTF-8 in string: " +:+ show_utf8_error e) bytes);
     mret (CUtf8 text)) num_rows;
  mret (nullable_field name AUtf8, cells).

(* code: transport/native/result_parser.rs 636-642 whole_number_meta *)
Definition whole_number_meta (meta : NativeColumnMeta) (p : Z) : NativeColumnMeta :=
  {| name := name meta; type_id := type_id meta; precision := Some p; scale := Some 0;
     is_varchar := is_varchar meta; max_len := max_len meta;
     interval_fraction := interval_fraction meta |}.

(* code: transport/native/result_parser.rs 588-634 fill_column_builder *)
Definition fill_column_builder (num_rows : Z) (meta : NativeColumnMeta)
    : reader TransportError (Field * list (option Cell)) :=
  let one_of ids := existsb (Z.eqb (type_id meta)) ids in
  if one_of [T_DOUBLE] then fill_double_column (name meta) num_rows
  else if one_of [T_REAL] then fill_real_column (name meta) num_rows
  else if one_of [T_INTEGER] then
    fill_decimal_column (whole_number_meta meta INTEGER_DECIMAL_PRECISION) num_rows
  else if one_of [T_SMALLINT] then
    fill_smalldecimal_column (whole_number_meta meta SMALLINT_DECIMAL_PRECISION) num_rows
  else if one_of [T_BOOLEAN] then fill_boolean_column (name meta) num_rows
  else if one_of [T_BINARY; T_GEOMETRY; T_HASHTYPE] then fill_binary_column (name meta) num_rows
  else if one_of [T_INTERVAL_YEAR; T_INTERVAL_DAY] then fill_interval_column (name meta) num_rows
  else if one_of [T_SMALLDECIMAL] then fill_smalldecimal_column meta num_rows
  else if one_of [T_DECIMAL] then fill_decimal_column meta num_rows
  else if one_of [T_BIGDECIMAL] then fill_bigdecimal_column meta num_rows
  else if one_of [T_DATE] then fill_date_column (name meta) num_rows
  else if one_of [T_TIMESTAMP; T_TIMESTAMP_LOCAL_TZ; T_TIMESTAMP_UTC] then
    fill_timestamp_column meta num_rows
  else fill_string_builder (name meta) num_rows.

(* code: transport/native/result_parser.rs 544-575 build_batch_from_wire *)
Definition build_batch_from_wire (column_metas : list NativeColumnMeta) (num_rows : Z)
    : reader TransportError RecordBatch :=
  match column_metas with
  | [] =>
    lift match record_batch_error [] [] (Z.to_nat num_rows) with
         | Some e => Err (ProtocolError ("Failed to create empty RecordBatch: " +:+ e))
         | None => Ok {| rb_fields := []; rb_columns := []; rb_rows := Z.to_nat num_rows |}
         end
  | _ =>
    built ← read_each (fill_column_builder num_rows) column_metas;
    let fields := built.*1 in
    let arrays := built.*2 in
    let rows := length (default [] (head arrays)) in
    lift match record_batch_error fields arrays rows with
         | Some e => Err (ProtocolError ("Failed to create RecordBatch: " +:+ e))
         | None => Ok {| rb_fields := fields; rb_columns := arrays; rb_rows := rows |}
         end
  end.

(** [Vec::with_capacity(n)] of a type that is not zero-sized: more than
    [isize::MAX] elements is a capacity overflow. *)
Definition vec_with_capacity (n : Z) : reader TransportError unit :=
  lift (if imax I64 <? n then Panic else Ok ()).

(* code: transport/native/result_parser.rs 376-411 parse_result_set_at *)
Definition parse_result_set_at : reader TransportError NativeResponse :=
  handle ← read_i32;
  n ← read_i32;
  let num_columns := wrap USize n in
  total_rows ← read_i64;
  rows_received ← read_i64;
  if rows_received <? 0 then
    lift (Err (ProtocolError ("Invalid row count from server: " +:+ show_int rows_received)))
  else
    _ ← vec_with_capacity num_columns;
    columns ← read_times (Z.to_nat num_columns) parse_column_meta;
    batch ← (if num_columns =? 0 then mret None
             else b ← build_batch_from_wire columns rows_received; mret (Some b));
    mret (ResultSet handle columns batch total_rows rows_received).

(* code: transport/native/result_parser.rs 279-291 consume_status_message *)
Definition consume_status_message : reader TransportError unit := λ data off,
  if (length data <=? off)%nat then Ok ((), off)
  else
    '(msg_len, off) ← read_i32 data off;
    end_ ← arith USize (Z.of_nat off + wrap USize msg_len);
    if Z.of_nat (length data) <? end_ then
      Err (ProtocolError "StillExecuting status message truncated")
    else Ok ((), Z.to_nat end_).

(** ** Uncounted responses *)
(** [data[*offset..].to_vec(); *offset = data.len()]. *)
Definition read_rest : reader TransportError (list byte) :=
  λ data off, Ok (drop off data, length data).

Definition plain (r : NativeResponse) : NativeResponseEnvelope :=
  {| warnings := []; terminal := r |}.

(** The loop state of [parse_handle_only_at]. *)
Record HandleParts := {
  hp_warnings : list NativeWarning;
  hp_parameters : list NativeColumnMeta;
  hp_result_columns : list NativeColumnMeta;
}.

(* code: transport/native/result_parser.rs 325-345 parse_handle_only_at *)
Definition add_sub_response (st : HandleParts) (sub : NativeResponseEnvelope)
    : outcome TransportError HandleParts :=
  let ws := hp_warnings st ++ warnings sub in
  match terminal sub with
  | ResultSet sub_handle columns _ _ _ =>
    if sub_handle =? PARAMETER_DESCRIPTION then
      Ok {| hp_warnings := ws; hp_parameters := columns;
            hp_result_columns := hp_result_columns st |}
    else
      Ok {| hp_warnings := ws; hp_parameters := hp_parameters st; hp_result_columns := columns |}
  | Exception message sql_state =>
    Err (ProtocolError ("Exasol reported an exception in a prepared-statement reply sub-result: "
      +:+ message +:+ " (SQLSTATE " +:+ sql_state +:+ ")"))
  | _ =>
    Ok {| hp_warnings := ws; hp_parameters := hp_parameters st;
          hp_result_columns := hp_result_columns st |}
  end.

(** [while *offset < data.len()]; [sub] parses one sub-response. *)
(* code: transport/native/result_parser.rs 324-349 parse_handle_only_at *)
Fixpoint handle_loop (exhausted : ∀ A, outcome TransportError A)
    (sub : reader TransportError NativeResponseEnvelope) (fuel : nat) (st : HandleParts)
    : reader TransportError HandleParts := λ data off,
  if (off <? length data)%nat then
    match fuel with
    | O => exhausted _
    | S fuel =>
      '(sub_response, off) ← sub data off;
      st ← add_sub_response st sub_response;
      handle_loop exhausted sub fuel st data off
    end
  else Ok (st, off).

(* code: transport/native/result_parser.rs 306-356 parse_handle_only_at *)
Definition parse_handle_only_at (exhausted : ∀ A, outcome TransportError A)
    (fuel : nat) (sub : reader TransportError NativeResponseEnvelope)
    : reader TransportError NativeResponseEnvelope :=
  statement_handle ← read_i32;
  st ← handle_loop exhausted sub fuel
         {| hp_warnings := []; hp_parameters := []; hp_result_columns := [] |};
  mret {| warnings := hp_warnings st;
          terminal := PreparedStatement statement_handle (hp_parameters st)
                        (hp_result_columns st) |}.

(* code: transport/native/result_parser.rs 208-262 parse_legacy_response_body *)
Definition parse_legacy_response_body (exhausted : ∀ A, outcome TransportError A)
    (fuel : nat) (sub : reader TransportError NativeResponseEnvelope) (result_type : Z)
    : reader TransportError NativeResponseEnvelope :=
  if result_type =? R_RESULT_SET then r ← parse_result_set_at; mret (plain r)
  else if result_type =? R_HANDLE then parse_handle_only_at exhausted fuel sub
  else if result_type =? R_ROW_COUNT then r ← parse_row_count_at; mret (plain r)
  else if result_type =? R_EXCEPTION then r ← parse_exception_at; mret (plain r)
  else if result_type =? R_WARNING then
    w ← parse_warning; mret {| warnings := [w]; terminal := Empty |}
  else if result_type =? R_COLUMN_COUNT then _ ← read_i32; mret (plain Empty)
  else if result_type =? R_EMPTY then mret (plain Empty)
  else if result_type =? R_STILL_EXECUTING then
    _ ← consume_status_message; mret (plain StillExecuting)
  else if result_type =? R_MORE_ROWS then rest ← read_rest; mret (plain (MoreRows rest))
  else lift (Err (ProtocolError ("Unknown response type: " +:+ show_int result_type))).

(** [fuel] bounds both the nesting of handle responses and the rounds of their
    loops; every level and every round reads at least the type byte, so the
    length of the payload is enough. [exhausted] is what a run out of fuel would
    return. *)
(* code: transport/native/result_parser.rs 200-206 parse_legacy_response_at *)
Fixpoint parse_legacy_response_at (exhausted : ∀ A, outcome TransportError A)
    (fuel : nat) : reader TransportError NativeResponseEnvelope := λ data off,
  '(t, off) ← read_u8 data off;
  let result_type := wrap I8 t in
  parse_legacy_response_body exhausted fuel
    (match fuel with
     | O => λ _ _, exhausted _
     | S fuel => parse_legacy_response_at exhausted fuel
     end) result_type data off.

(* code: transport/native/result_parser.rs 188-198 parse_legacy_response *)
Definition parse_legacy_response (data : list byte)
    : outcome TransportError NativeResponseEnvelope :=
  '(response, offset) ← parse_legacy_response_at (λ _, Panic) (length data) data 0%nat;
  if (offset =? length data)%nat then Ok response
  else
    remaining ← byte_slice offset (length data) data;
    Err (ProtocolError ("Trailing bytes after legacy response: remaining "
      +:+ show_hex_bytes remaining)).

(** ** Counted envelopes *)
(* code: transport/native/result_parser.rs 264-277 is_known_response_type *)
Definition is_known_response_type (result_type : Z) : bool :=
  existsb (Z.eqb result_type)
    [R_RESULT_SET; R_HANDLE; R_ROW_COUNT; R_COLUMN_COUNT; R_WARNING; R_STILL_EXECUTING;
     R_MORE_ROWS; R_EXCEPTION; R_EMPTY].

(* code: transport/native/result_parser.rs 293-304 assign_terminal_result *)
Definition assign_terminal_result (slot : option NativeResponse) (response : NativeResponse)
    : outcome TransportError (option NativeResponse) :=
  match slot with
  | Some _ => Err (ProtocolError "Multiple terminal results in native response envelope")
  | None => Ok (Some response)
  end.

Definition counted_state : Type := list NativeWarning * option NativeResponse.

(** A part that is a terminal result. *)
Definition terminal_part (st : counted_state) (r : reader TransportError NativeResponse)
    : reader TransportError counted_state :=
  response ← r;
  t ← lift (assign_terminal_result st.2 response);
  mret (st.1, t).

(** The [match] on the type of a part. *)
(* code: transport/native/result_parser.rs 128-175 try_parse_counted_envelope *)
Definition parse_part_body (result_count part_idx : Z) (st : counted_state) (result_type : Z)
    : reader TransportError counted_state :=
  if result_type =? R_WARNING then w ← parse_warning; mret (st.1 ++ [w], st.2)
  else if result_type =? R_COLUMN_COUNT then _ ← read_i32; mret st
  else if result_type =? R_RESULT_SET then terminal_part st parse_result_set_at
  else if result_type =? R_HANDLE then
    handle_envelope ← ((λ data off,
      parse_handle_only_at (λ _, Panic) (length data)
        (parse_legacy_response_at (λ _, Panic) (length data)) data off)
      : reader TransportError NativeResponseEnvelope);
    t ← lift (assign_terminal_result st.2 (terminal handle_envelope));
    mret (st.1 ++ warnings handle_envelope, t)
  else if result_type =? R_ROW_COUNT then terminal_part st parse_row_count_at
  else if result_type =? R_EXCEPTION then terminal_part st parse_exception_at
  else if result_type =? R_EMPTY then terminal_part st (mret Empty)
  else if result_type =? R_STILL_EXECUTING then terminal_part st (mret StillExecuting)
  else if result_type =? R_MORE_ROWS then
    if negb (part_idx + 1 =? result_count) then
      lift (Err (ProtocolError "MoreRows must be the final native response part"))
    else terminal_part st (rest ← read_rest; mret (MoreRows rest))
  else λ data off,
    Err (ProtocolError ("Unknown response type: " +:+ show_int result_type +:+ " at offset "
      +:+ show_nat (Z.of_nat (off - 1)) +:+ " (data " +:+ show_hex_bytes (take 64 data) +:+ ")")).

(* code: transport/native/result_parser.rs 127-175 try_parse_counted_envelope *)
Definition parse_counted_part (result_count part_idx : Z) (st : counted_state)
    : reader TransportError counted_state :=
  t ← read_u8; parse_part_body result_count part_idx st (wrap I8 t).

(** [for part_idx in 0..result_count]. *)
(* code: transport/native/result_parser.rs 126-176 try_parse_counted_envelope *)
Fixpoint parse_counted_parts (result_count : Z) (left : nat) (st : counted_state)
    : reader TransportError counted_state :=
  match left with
  | O => mret st
  | S left' =>
    st ← parse_counted_part result_count (result_count - Z.of_nat left) st;
    parse_counted_parts result_count left' st
  end.

(* code: transport/native/result_parser.rs 102-186 try_parse_counted_envelope *)
Definition try_parse_counted_envelope (data : list byte)
    : outcome TransportError (option NativeResponseEnvelope) :=
  if (length data <? 5)%nat then Ok None
  else
    '(result_count, probe_offset) ← read_i32 data 0%nat;
    if negb ((1 <=? result_count) && (result_count <=? 64)) then Ok None
    else
      first ← match data !! probe_offset with Some b => Ok b | None => Panic end;
      if negb (is_known_response_type (wrap I8 (byte_val first))) then Ok None
      else
        '(result_count, offset) ← read_i32 data 0%nat;
        '(st, offset) ← parse_counted_parts result_count (Z.to_nat result_count) ([], None)
                          data offset;
        if negb (offset =? length data)%nat then Ok None
        else Ok (Some {| warnings := st.1; terminal := default Empty st.2 |}).

(* code: transport/native/result_parser.rs 79-100 parse_response *)
Definition parse_response (data : list byte) : outcome TransportError NativeResponseEnvelope :=
  if (length data =? 0)%nat then Ok (plain Empty)
  else if (length data =? 4)%nat && (from_le_bytes I32 data =? 0) then Ok (plain Empty)
  else
    counted ← try_parse_counted_envelope data;
    match counted with
    | Some envelope => Ok envelope
    | None => parse_legacy_response data
    end.

(* code: transport/native/result_parser.rs 950-964 parse_fetch_to_record_batch *)
Definition parse_fetch_to_record_batch (data : list byte) (columns : list NativeColumnMeta)
    : outcome TransportError (Z * RecordBatch) :=
  '(rows_received, offset) ← read_i64 data 0%nat;
  if rows_received <? 0 then
    Err (ProtocolError ("Invalid row count from server: " +:+ show_int rows_received))
  else
    '(batch, _) ← build_batch_from_wire columns rows_received data offset;
    Ok (rows_received, batch).
End Parser.
