(* ===== verification/ResultCodec.v ===== *)
(** * The response format

    The server's side of the response format, as an encoder of typed values, and
    the theorems that the parser of [ResultParser] inverts it. *)
From S2P Require Import Prelude MachineInt RustStr Constants Errors Framing Gregorian DateTime.
From S2P Require Import Interval ExasolTypes ResultParser.

#[local] Open Scope Z_scope.

(** ** Column values *)

(** How the values of a column are encoded; [KDecimal t] is an integer of type [t]. *)
Inductive ColumnKind :=
| KDouble | KReal | KBoolean | KBinary | KInterval | KDecimal (t : ity) | KDate | KTimestamp
| KText.

Definition column_kind (meta : NativeColumnMeta) : ColumnKind :=
  let one_of ids := existsb (Z.eqb (type_id meta)) ids in
  if one_of [T_DOUBLE] then KDouble
  else if one_of [T_REAL] then KReal
  else if one_of [T_INTEGER] then KDecimal I64
  else if one_of [T_SMALLINT] then KDecimal I32
  else if one_of [T_BOOLEAN] then KBoolean
  else if one_of [T_BINARY; T_GEOMETRY; T_HASHTYPE] then KBinary
  else if one_of [T_INTERVAL_YEAR; T_INTERVAL_DAY] then KInterval
  else if one_of [T_SMALLDECIMAL] then KDecimal I32
  else if one_of [T_DECIMAL] then
    KDecimal (if default 18 (precision meta) <=? 9 then I32 else I64)
  else if one_of [T_BIGDECIMAL] then KDecimal I128
  else if one_of [T_DATE] then KDate
  else if one_of [T_TIMESTAMP; T_TIMESTAMP_LOCAL_TZ; T_TIMESTAMP_UTC] then KTimestamp
  else KText.

(** The Arrow type of a column. *)
Definition column_type (meta : NativeColumnMeta) : ArrowType :=
  let one_of ids := existsb (Z.eqb (type_id meta)) ids in
  let decimal default_precision :=
    ADecimal128 (Z.max 1 (Z.min 38 (default default_precision (precision meta))))
      (Z.max (-128) (Z.min 127 (default 0 (scale meta)))) in
  if one_of [T_DOUBLE] then AFloat64
  else if one_of [T_REAL] then AFloat64
  else if one_of [T_INTEGER] then ADecimal128 18 0
  else if one_of [T_SMALLINT] then ADecimal128 9 0
  else if one_of [T_BOOLEAN] then ABoolean
  else if one_of [T_BINARY; T_GEOMETRY; T_HASHTYPE] then ABinary
  else if one_of [T_INTERVAL_YEAR; T_INTERVAL_DAY] then AInterval MonthDayNano
  else if one_of [T_SMALLDECIMAL] then decimal 9
  else if one_of [T_DECIMAL] then decimal 18
  else if one_of [T_BIGDECIMAL] then decimal 36
  else if one_of [T_DATE] then ADate32
  else if one_of [T_TIMESTAMP; T_TIMESTAMP_LOCAL_TZ; T_TIMESTAMP_UTC] then
    ATimestamp Microsecond
      (if one_of [T_TIMESTAMP_LOCAL_TZ; T_TIMESTAMP_UTC] then Some "UTC" else None)
  else AUtf8.

Inductive WireValue :=
| WDouble (bits : Z)
| WReal (bits : Z)
| WBoolean (b : bool)
| WBinary (bs : list byte)
| WInterval (text : string) (v : IntervalMonthDayNano)
| WDecimal (v : Z)
| WDate (d : Gregorian.Date)
| WTimestamp (d : Gregorian.Date) (hour minute second nanos : Z)
| WText (s : string).

Definition encode_bytes (bs : list byte) : list byte :=
  to_le_bytes I32 (Z.of_nat (length bs)) ++ bs.

Definition encode_value (k : ColumnKind) (w : WireValue) : list byte :=
  match w with
  | WDouble bits => to_le_bytes U64 bits
  | WReal bits => to_le_bytes U32 bits
  | WBoolean b => to_le_bytes U8 (if b then 1 else 0)
  | WBinary bs => encode_bytes bs
  | WInterval text _ => encode_bytes (as_bytes text)
  | WDecimal v => to_le_bytes (match k with KDecimal t => t | _ => I64 end) v
  | WDate d => to_le_bytes I32 (year d * 65536 + month d * 256 + day d)
  | WTimestamp d h m s n =>
    to_le_bytes I16 (year d) ++ to_le_bytes U8 (month d) ++ to_le_bytes U8 (day d) ++
    to_le_bytes U8 h ++ to_le_bytes U8 m ++ to_le_bytes U8 s ++ to_le_bytes I32 n
  | WText s => encode_bytes (as_bytes s)
  end.

(** What a value means: DATE as the day count of the calendar, TIMESTAMP as
    microseconds since the epoch. *)
Definition value_cell (w : WireValue) : Cell :=
  match w with
  | WDouble bits => CFloat64 bits
  | WReal bits => CFloat64 (f64_of_f32 bits)
  | WBoolean b => CBoolean b
  | WBinary bs => CBinary bs
  | WInterval _ v => CInterval v
  | WDecimal v => CDecimal128 v
  | WDate d => CDate32 (day_number d)
  | WTimestamp d h m s n =>
    CTimestamp (day_number d * 86400000000 + h * 3600000000 + m * 60000000 + s * 1000000
                + n / 1000)
  | WText s => CUtf8 s
  end.

Definition wire_date (d : Gregorian.Date) : Prop := valid_date d ∧ in_range I16 (year d).
Definition wire_text (s : string) : Prop := valid_str s ∧ Z.of_nat (str_len s) ≤ imax I32.

(** A value of the kind of its column. *)
Definition value_ok `{BuildProfile} (k : ColumnKind) (w : WireValue) : Prop :=
  match k, w with
  | KDouble, WDouble bits => in_range U64 bits
  | KReal, WReal bits => in_range U32 bits
  | KBoolean, WBoolean _ => True
  | KBinary, WBinary bs => Z.of_nat (length bs) ≤ imax I32
  | KInterval, WInterval text v => wire_text text ∧ parse_interval text = Ok v
  | KDecimal t, WDecimal v => in_range t v
  | KDate, WDate d => wire_date d
  | KTimestamp, WTimestamp d h m s n =>
    wire_date d ∧ 0 ≤ h < 24 ∧ 0 ≤ m < 60 ∧ 0 ≤ s < 60 ∧ 0 ≤ n < 1000000000
  | KText, WText s => wire_text s
  | _, _ => False
  end.

Definition encode_cell (k : ColumnKind) (w : option WireValue) : list byte :=
  match w with
  | None => to_le_bytes U8 0
  | Some w => to_le_bytes U8 1 ++ encode_value k w
  end.

Definition row_cell (w : option WireValue) : option Cell := value_cell <$> w.

Definition cell_ok `{BuildProfile} (k : ColumnKind) (w : option WireValue) : Prop :=
  match w with None => True | Some w => value_ok k w end.

(** ** Reading one value *)

(** No allocation is longer than [isize::MAX] bytes. *)
#[local] Instance rust_payload : PayloadBound := λ n, Z.of_nat n ≤ imax I64.

Section Values.
Context `{BuildProfile}.

Lemma reads_take_cast bs message :
  Z.of_nat (length bs) ≤ imax I32 →
  reads (take_cast_length (Z.of_nat (length bs)) message) bs bs.
Proof.
  intros Hl pre suf Hf. unfold payload_fits, rust_payload in Hf. rewrite !length_app in Hf.
  unfold take_cast_length. rewrite wrap_id by range. rewrite arith_in by range.
  cbn [mbind outcome_bind]. rewrite (proj2 (Z.ltb_ge _ _)) by (rewrite !length_app; lia).
  unfold byte_slice. rewrite <- Nat2Z.inj_add, Nat2Z.id, !length_app.
  rewrite !(proj2 (Nat.leb_le _ _)) by lia. cbn [andb mbind outcome_bind].
  replace (length pre + length bs - length pre)%nat with (length bs) by lia.
  by rewrite take_drop_mid.
Qed.

Lemma reads_counted_bytes bs message :
  Z.of_nat (length bs) ≤ imax I32 →
  reads (read_length_prefixed message) (encode_bytes bs) bs.
Proof.
  intros Hl. unfold read_length_prefixed, encode_bytes. eapply reads_bind.
  - apply reads_fixed. range.
  - by apply reads_take_cast.
Qed.

Lemma reads_utf8 f s : valid_str s → reads (lift (utf8_or f (as_bytes s))) [] s.
Proof. intros Hs. apply reads_lift. unfold utf8_or. by rewrite from_utf8_as_bytes. Qed.

Lemma reads_text message s {A} (k : string → reader TransportError A) f (a : A) :
  wire_text s → reads (k s) [] a →
  reads (bytes ← read_length_prefixed message; text ← lift (utf8_or f bytes); k text)
    (encode_bytes (as_bytes s)) a.
Proof.
  intros [Hv Hl] Hk. rewrite <- length_as_bytes in Hl.
  rewrite <- (app_nil_r (encode_bytes _)). eapply reads_bind; [by apply reads_counted_bytes|].
  eapply reads_bind_nil; [by apply reads_utf8|done].
Qed.

(** The packed date splits into its fields. *)
Lemma packed_date_fields y m d :
  in_range I16 y → 0 ≤ m < 256 → 0 ≤ d < 256 →
  let packed := y * 65536 + m * 256 + d in
  in_range I32 packed ∧ Z.shiftr packed 16 = y ∧
  Z.land (Z.shiftr packed 8) 255 = m ∧ Z.land packed 255 = d.
Proof.
  intros Hy Hm Hd packed. split; [range|].
  change 255 with (Z.ones 8). rewrite !Z.land_ones, !Z.shiftr_div_pow2 by lia.
  change (2 ^ 16) with 65536. change (2 ^ 8) with 256. unfold packed.
  split; [|split]; Z.div_mod_to_equations; lia.
Qed.

Lemma wire_date_bounds d :
  wire_date d →
  1 ≤ month d ≤ 12 ∧ 1 ≤ day d ≤ 31 ∧ day_count_years (year d) ∧ in_range I16 (year d).
Proof.
  intros [[Hm Hd] Hy]. pose proof (month_length_bounds (year d) (month d)).
  unfold day_count_years. split; [done|]. split; [lia|]. split; [range|done].
Qed.

Lemma reads_packed_date d :
  wire_date d →
  reads read_packed_date_days (to_le_bytes I32 (year d * 65536 + month d * 256 + day d))
    (day_number d).
Proof.
  intros Hd. destruct (wire_date_bounds d Hd) as (? & ? & ? & ?). destruct Hd as [Hv _].
  destruct (packed_date_fields (year d) (month d) (day d)) as (Hr & Ey & Em & Ed);
    [done|lia|lia|].
  rewrite <- (app_nil_r (to_le_bytes _ _)). eapply reads_bind; [by apply reads_fixed|].
  rewrite Ey, Em, Ed. apply reads_lift. by apply ymd_to_days_number.
Qed.

Lemma day_number_wire d : wire_date d → -13000000 ≤ day_number d ≤ 12000000.
Proof.
  intros [[Hm Hd] Hy]. pose proof (days_before_month_bounds (year d) (month d) (day d) Hm Hd)
    as [Hb _]. rewrite day_number_alt. assert (-32768 ≤ year d ≤ 32767) by range.
  destruct (leap (year d)); Z.div_mod_to_equations; lia.
Qed.

Lemma reads_timestamp d h m s n :
  wire_date d → 0 ≤ h < 24 → 0 ≤ m < 60 → 0 ≤ s < 60 → 0 ≤ n < 1000000000 →
  reads read_timestamp_micros (encode_value KTimestamp (WTimestamp d h m s n))
    (day_number d * 86400000000 + h * 3600000000 + m * 60000000 + s * 1000000 + n / 1000).
Proof.
  intros Hd Hh Hm Hs Hn. destruct (wire_date_bounds d Hd) as (? & ? & ? & ?).
  pose proof (day_number_wire d Hd). destruct Hd as [Hv _]. cbn [encode_value].
  unfold read_timestamp_micros.
  do 6 (eapply reads_bind; [by apply reads_fixed; range|]).
  rewrite <- (app_nil_r (to_le_bytes I32 n)). eapply reads_bind; [by apply reads_fixed; range|].
  apply reads_lift. unfold ymd_hms_nanos_to_micros. rewrite ymd_to_days_number by done.
  rewrite !wrap_id by range. run_arith. rewrite Z.quot_div_nonneg by lia.
  assert (0 ≤ n / 1000 < 1000000) by (Z.div_mod_to_equations; lia). run_arith. f_equal. lia.
Qed.
End Values.

(** ** Reading a column *)
Section Columns.
Context `{BuildProfile, ArrowLib}.

Lemma reads_rows k (value : reader TransportError Cell) (ws : list (option WireValue)) :
  (∀ w, value_ok k w → reads value (encode_value k w) (value_cell w)) →
  Forall (cell_ok k) ws →
  reads (fill_rows value (Z.of_nat (length ws))) (concat (encode_cell k <$> ws))
    (row_cell <$> ws).
Proof.
  intros Hv Hws. unfold fill_rows. rewrite Nat2Z.id. apply reads_times_map.
  eapply Forall_impl; [exact Hws|]. intros [w|] Hw; cbn [encode_cell].
  - eapply reads_bind; [by apply reads_fixed; range|]. cbn [Z.eqb].
    eapply reads_bind_ret; [by apply Hv|done].
  - rewrite <- (app_nil_r (to_le_bytes _ _)).
    eapply reads_bind; [by apply reads_fixed; range|]. apply reads_ret.
Qed.

(** A column whose rows all encode: capacity, rows, field. *)
Lemma reads_column k value ws n f :
  (∀ w, value_ok k w → reads value (encode_value k w) (value_cell w)) →
  Forall (cell_ok k) ws → n = Z.of_nat (length ws) → builder_fits n = true →
  reads (_ ← with_capacity n; cells ← fill_rows value n; mret (f : Field, cells))
    (concat (encode_cell k <$> ws)) (f, row_cell <$> ws).
Proof.
  intros Hv Hws -> Hb. eapply reads_bind_nil.
  - apply reads_lift. by rewrite Hb.
  - eapply reads_bind_ret; [by apply reads_rows|done].
Qed.

(** The columns of variable width also reserve sixteen bytes a row. *)
Lemma reads_byte_column k value ws n f :
  (∀ w, value_ok k w → reads value (encode_value k w) (value_cell w)) →
  Forall (cell_ok k) ws → n = Z.of_nat (length ws) →
  builder_fits n = true → builder_fits (n * 16) = true → in_range USize (n * 16) →
  reads (data_capacity ← lift (arith USize (n * 16));
         _ ← with_capacity n; _ ← with_capacity data_capacity;
         cells ← fill_rows value n; mret (f : Field, cells))
    (concat (encode_cell k <$> ws)) (f, row_cell <$> ws).
Proof.
  intros Hv Hws -> Hb1 Hb2 Hr. eapply reads_bind_nil; [apply reads_lift; by apply arith_in|].
  eapply reads_bind_nil; [apply reads_lift; by rewrite Hb1|].
  eapply reads_bind_nil; [apply reads_lift; by rewrite Hb2|].
  eapply reads_bind_ret; [by apply reads_rows|done].
Qed.

Ltac inv_value w Hw := destruct w; cbn [value_ok] in Hw; try done; cbn [encode_value value_cell].

Lemma reads_values_decimal t w (value : reader TransportError Z) :
  (∀ v, in_range t v → reads value (to_le_bytes t v) v) → value_ok (KDecimal t) w →
  reads (v ← value; mret (CDecimal128 v)) (encode_value (KDecimal t) w) (value_cell w).
Proof. intros Hv Hw. inv_value w Hw. by eapply reads_bind_ret; [apply Hv|]. Qed.

(** The room that [rows] rows need: builders for the rows and for sixteen bytes each. *)
Definition rows_fit (rows : nat) : Prop :=
  builder_fits (Z.of_nat rows) = true ∧ builder_fits (Z.of_nat rows * 16) = true ∧
  in_range USize (Z.of_nat rows * 16).

Lemma reads_fill_column meta ws :
  Forall (cell_ok (column_kind meta)) ws → rows_fit (length ws) →
  reads (fill_column_builder (Z.of_nat (length ws)) meta)
    (concat (encode_cell (column_kind meta) <$> ws))
    (nullable_field (name meta) (column_type meta), row_cell <$> ws).
Proof.
  unfold fill_column_builder, column_kind, column_type.
  intros Hws (Hb1 & Hb2 & Hr). cbn [existsb] in *. rewrite !orb_false_r in *.
  destruct (type_id meta =? T_DOUBLE).
  { apply reads_column; try done. intros w Hw. inv_value w Hw.
    by eapply reads_bind_ret; [apply reads_fixed|]. }
  destruct (type_id meta =? T_REAL).
  { apply reads_column; try done. intros w Hw. inv_value w Hw.
    by eapply reads_bind_ret; [apply reads_fixed|]. }
  destruct (type_id meta =? T_INTEGER).
  { apply reads_column; try done. intros w. apply reads_values_decimal. intros.
    by apply reads_fixed. }
  destruct (type_id meta =? T_SMALLINT).
  { apply reads_column; try done. intros w. apply reads_values_decimal. intros.
    by apply reads_fixed. }
  destruct (type_id meta =? T_BOOLEAN).
  { apply reads_column; try done. intros w Hw. inv_value w Hw.
    by eapply reads_bind_ret; [apply reads_fixed; destruct b; range|destruct b]. }
  destruct (_ || (_ || _)).
  { apply reads_byte_column; try done. intros w Hw. inv_value w Hw.
    by eapply reads_bind_ret; [apply reads_counted_bytes|]. }
  destruct (_ || _).
  { apply reads_column; try done. intros w Hw. inv_value w Hw. destruct Hw as [Ht Hp].
    apply reads_text; [done|]. eapply reads_bind_nil; [apply reads_lift; by rewrite Hp|].
    apply reads_ret. }
  destruct (type_id meta =? T_SMALLDECIMAL).
  { apply reads_column; try done. intros w. apply reads_values_decimal. intros.
    by apply reads_fixed. }
  destruct (type_id meta =? T_DECIMAL).
  { apply reads_column; try done. intros w. unfold fill_decimal_column.
    apply reads_values_decimal. intros. destruct (_ <=? 9); by apply reads_fixed. }
  destruct (type_id meta =? T_BIGDECIMAL).
  { apply reads_column; try done. intros w. apply reads_values_decimal. intros.
    by apply reads_fixed. }
  destruct (type_id meta =? T_DATE).
  { apply reads_column; try done. intros w Hw. inv_value w Hw.
    by eapply reads_bind_ret; [apply reads_packed_date|]. }
  destruct (_ || (_ || _)).
  { unfold fill_timestamp_column.
    destruct (_ || _); (apply reads_column; [|done..]); intros w Hw; inv_value w Hw;
      destruct Hw as (? & ? & ? & ? & ?); (eapply reads_bind_ret; [by apply reads_timestamp|done]). }
  apply reads_byte_column; try done. intros w Hw. inv_value w Hw.
  apply reads_text; [done|]. apply reads_ret.
Qed.

(** ** A batch *)

(** A column: its description and its values; its field and its cells. *)
Definition wire_column : Type := NativeColumnMeta * list (option WireValue).
Definition column_field (c : wire_column) : Field :=
  nullable_field (name c.1) (column_type c.1).
Definition column_cells (c : wire_column) : list (option Cell) := row_cell <$> c.2.
Definition encode_column (c : wire_column) : list byte :=
  concat (encode_cell (column_kind c.1) <$> c.2).

(** Columns of [rows] rows. *)
Definition columns_ok (rows : nat) (cols : list wire_column)
    : Prop :=
  Forall (λ c : wire_column, length c.2 = rows ∧ Forall (cell_ok (column_kind c.1)) c.2) cols.

Definition encode_columns (cols : list wire_column)
    : list byte :=
  concat (encode_column <$> cols).

(** What a batch of typed columns means: a nullable field of the column's Arrow
    type for each description, and the cells of each column. *)
Definition batch_of (rows : nat) (cols : list wire_column)
    : RecordBatch :=
  {| rb_fields := column_field <$> cols;
     rb_columns := column_cells <$> cols;
     rb_rows := rows |}.

Lemma column_typed (c : wire_column) :
  Forall (cell_ok (column_kind c.1)) c.2 → typed_column (column_field c) (column_cells c).
Proof.
  destruct c as [meta ws]. cbn [fst snd]. intros Hws. split; [done|].
  unfold column_cells. cbn [fst snd]. apply Forall_fmap. eapply Forall_impl; [exact Hws|].
  intros [w|]; [|done]. unfold cell_ok, column_field, column_kind, column_type.
  cbn [from_option row_cell fmap option_fmap option_map f_data_type nullable_field compose fst].
  repeat (destruct (existsb _ _); [by destruct w|]). by destruct w.
Qed.

Lemma columns_typed rows cols :
  columns_ok rows cols → Forall2 typed_column (column_field <$> cols) (column_cells <$> cols).
Proof.
  intros Hc. apply Forall2_fmap, Forall_Forall2_diag. eapply Forall_impl; [exact Hc|].
  intros c [_ Hw]. by apply column_typed.
Qed.

Lemma reads_batch `{!ArrowLaws H0} rows cols :
  columns_ok rows cols → rows_fit rows →
  reads (build_batch_from_wire (cols.*1) (Z.of_nat rows)) (encode_columns cols)
    (batch_of rows cols).
Proof.
  intros Hc Hf. pose proof (λ fields columns, record_batch_ok fields columns rows) as Hok.
  destruct cols as [|c cols].
  - apply reads_lift. rewrite Nat2Z.id, Hok by constructor. done.
  - set (all := c :: cols) in *.
    assert (reads (read_each (fill_column_builder (Z.of_nat rows)) (all.*1)) (encode_columns all)
      ((λ c, (column_field c, column_cells c)) <$> all)) as Hr.
    { apply reads_each. eapply Forall_impl; [exact Hc|]. intros [meta ws] [Hl Hw].
      cbn [fst snd]. rewrite <- Hl in *. by apply reads_fill_column. }
    change (build_batch_from_wire (all.*1) (Z.of_nat rows)) with
      (built ← read_each (fill_column_builder (Z.of_nat rows)) (all.*1);
       lift match record_batch_error (built.*1) (built.*2) (length (default [] (head (built.*2)))) with
         | Some e => Err (ProtocolError ("Failed to create RecordBatch: " +:+ e))
         | None => Ok {| rb_fields := built.*1; rb_columns := built.*2;
                         rb_rows := length (default [] (head (built.*2))) |}
         end).
    rewrite <- (app_nil_r (encode_columns all)). eapply reads_bind; [exact Hr|].
    apply reads_lift. rewrite <- !list_fmap_compose.
    change (fst ∘ (λ c, (column_field c, column_cells c))) with column_field.
    change (snd ∘ (λ c, (column_field c, column_cells c))) with column_cells.
    assert (length (default [] (head (column_cells <$> all))) = rows) as ->.
    { cbn. apply Forall_cons in Hc as [[Hc _] _]. unfold column_cells. by rewrite length_fmap. }
    rewrite Hok; [done|by eapply columns_typed|].
    apply Forall_fmap. eapply Forall_impl; [exact Hc|]. intros [meta ws] [Hl _]. cbn in *.
    unfold column_cells. by rewrite length_fmap.
Qed.
End Columns.

(** ** Column descriptions *)
Definition id_in (m : NativeColumnMeta) (ids : list Z) : bool := existsb (Z.eqb (type_id m)) ids.

Definition opt_i32 (o : option Z) : list byte := to_le_bytes I32 (default 0 o).
Definition flag_byte (b : bool) : list byte := to_le_bytes U8 (if b then 1 else 0).

(** The attributes of the type; [octet_len] and [interval_precision] are sent and
    ignored. *)
Definition encode_meta_tail (octet_len interval_precision : Z) (m : NativeColumnMeta) : list byte :=
  if id_in m [T_DECIMAL; T_SMALLDECIMAL; T_BIGDECIMAL] then
    opt_i32 (precision m) ++ opt_i32 (scale m)
  else if id_in m [T_CHAR; T_GEOMETRY; T_HASHTYPE] then
    flag_byte (is_varchar m) ++ opt_i32 (max_len m) ++ to_le_bytes I32 octet_len
  else if id_in m [T_INTERVAL_YEAR] then
    flag_byte (is_varchar m) ++ opt_i32 (max_len m) ++ to_le_bytes I32 octet_len ++
    to_le_bytes I32 interval_precision
  else if id_in m [T_INTERVAL_DAY] then
    flag_byte (is_varchar m) ++ opt_i32 (max_len m) ++ to_le_bytes I32 octet_len ++
    to_le_bytes I32 interval_precision ++ opt_i32 (interval_fraction m)
  else if id_in m [T_TIMESTAMP; T_TIMESTAMP_LOCAL_TZ; T_TIMESTAMP_UTC] then
    to_le_bytes I32 interval_precision
  else [].

Definition encode_meta (octet_len interval_precision : Z) (m : NativeColumnMeta) : list byte :=
  encode_bytes (as_bytes (name m)) ++ to_le_bytes I32 (wrap I32 (type_id m)) ++
  encode_meta_tail octet_len interval_precision m.

Definition some_i32 (o : option Z) : Prop :=
  match o with Some z => in_range I32 z | None => False end.

(** A description with exactly the attributes its type has. *)
Definition meta_ok (m : NativeColumnMeta) : Prop :=
  wire_text (name m) ∧ in_range U32 (type_id m) ∧
  if id_in m [T_DECIMAL; T_SMALLDECIMAL; T_BIGDECIMAL] then
    some_i32 (precision m) ∧ some_i32 (scale m) ∧ is_varchar m = false ∧ max_len m = None ∧
    interval_fraction m = None
  else if id_in m [T_CHAR; T_GEOMETRY; T_HASHTYPE; T_INTERVAL_YEAR] then
    precision m = None ∧ scale m = None ∧ some_i32 (max_len m) ∧ interval_fraction m = None
  else if id_in m [T_INTERVAL_DAY] then
    precision m = None ∧ scale m = None ∧ some_i32 (max_len m) ∧ some_i32 (interval_fraction m)
  else
    precision m = None ∧ scale m = None ∧ is_varchar m = false ∧ max_len m = None ∧
    interval_fraction m = None.

Section Envelope.
Context `{BuildProfile, ArrowLib, !ArrowLaws H0}.

Lemma reads_opt_i32 o A (k : Z → reader TransportError A) bs a z :
  o = Some z → in_range I32 z → reads (k z) bs a →
  reads (v ← read_i32; k v) (opt_i32 o ++ bs) a.
Proof. intros -> Hz Hk. eapply reads_bind; [by apply reads_fixed|done]. Qed.

Lemma reads_i32 z A (k : Z → reader TransportError A) bs a :
  in_range I32 z → reads (k z) bs a → reads (v ← read_i32; k v) (to_le_bytes I32 z ++ bs) a.
Proof. intros Hz Hk. eapply reads_bind; [by apply reads_fixed|done]. Qed.

Lemma reads_flag b message : reads (read_vc_flag message) (flag_byte b) b.
Proof.
  unfold read_vc_flag, flag_byte.
  eapply reads_bind_ret; [apply reads_fixed; destruct b; range|by destruct b].
Qed.

Lemma reads_meta octet_len interval_precision m :
  meta_ok m → in_range I32 octet_len → in_range I32 interval_precision →
  reads parse_column_meta (encode_meta octet_len interval_precision m) m.
Proof.
  intros ((Hn & Hl) & Hid & Hm) Ho Hi. rewrite <- length_as_bytes in Hl.
  unfold parse_column_meta, encode_meta, encode_bytes. rewrite <- app_assoc.
  apply reads_i32; [range|]. eapply reads_bind; [by apply reads_take_cast|].
  eapply reads_bind_nil; [by apply reads_utf8|].
  apply reads_i32; [apply wrap_in_range|].
  assert (wrap U32 (wrap I32 (type_id m)) = type_id m) as ->.
  { rewrite (wrap_congr U32 _ (type_id m)); [by apply wrap_id|]. apply (wrap_mod I32). }
  unfold encode_meta_tail, id_in in *. destruct m as [nm id p s v ml fr].
  cbn [name type_id precision scale is_varchar max_len interval_fraction] in *.
  destruct (existsb (Z.eqb id) [T_DECIMAL; T_SMALLDECIMAL; T_BIGDECIMAL]).
  { destruct Hm as (Hp & Hs & -> & -> & ->). destruct p as [p|], s as [s|]; try done.
    eapply reads_opt_i32; [done..|]. rewrite <- (app_nil_r (opt_i32 _)).
    eapply reads_opt_i32; [done..|]. apply reads_ret. }
  destruct (existsb (Z.eqb id) [T_CHAR; T_GEOMETRY; T_HASHTYPE]) eqn:E1.
  { assert (existsb (Z.eqb id) [T_CHAR; T_GEOMETRY; T_HASHTYPE; T_INTERVAL_YEAR] = true) as E2.
    { cbn [existsb] in *. rewrite !orb_true_iff in *. tauto. }
    rewrite E2 in Hm. destruct Hm as (-> & -> & Hml & ->). destruct ml as [ml|]; [|done].
    eapply reads_bind; [apply reads_flag|]. eapply reads_opt_i32; [done..|].
    rewrite <- (app_nil_r (to_le_bytes _ _)). apply reads_i32; [done|]. apply reads_ret. }
  destruct (existsb (Z.eqb id) [T_INTERVAL_YEAR]) eqn:E2.
  { assert (existsb (Z.eqb id) [T_CHAR; T_GEOMETRY; T_HASHTYPE; T_INTERVAL_YEAR] = true) as E3.
    { cbn [existsb] in *. rewrite !orb_true_iff in *. tauto. }
    rewrite E3 in Hm. destruct Hm as (-> & -> & Hml & ->). destruct ml as [ml|]; [|done].
    eapply reads_bind; [apply reads_flag|]. eapply reads_opt_i32; [done..|].
    apply reads_i32; [done|].
    rewrite <- (app_nil_r (to_le_bytes _ _)). apply reads_i32; [done|]. apply reads_ret. }
  assert (existsb (Z.eqb id) [T_CHAR; T_GEOMETRY; T_HASHTYPE; T_INTERVAL_YEAR] = false) as E3.
  { cbn [existsb] in *. rewrite !orb_false_iff in *. tauto. }
  rewrite E3 in Hm.
  destruct (existsb (Z.eqb id) [T_INTERVAL_DAY]).
  { destruct Hm as (-> & -> & Hml & Hfr). destruct ml as [ml|], fr as [fr|]; try done.
    eapply reads_bind; [apply reads_flag|]. eapply reads_opt_i32; [done..|].
    do 2 (apply reads_i32; [done|]). rewrite <- (app_nil_r (opt_i32 _)).
    eapply reads_opt_i32; [done..|]. apply reads_ret. }
  destruct Hm as (-> & -> & -> & -> & ->).
  destruct (existsb _ [T_TIMESTAMP; _; _]); [|apply reads_ret].
  rewrite <- (app_nil_r (to_le_bytes _ _)). apply reads_i32; [done|]. apply reads_ret.
Qed.

(** ** Response parts *)

(** A result set: its handle, total row count, columns and the number of rows in
    this response. *)
Definition encode_result_set (octet_len interval_precision handle total_rows : Z) (rows : nat)
    (cols : list wire_column) : list byte :=
  to_le_bytes I32 handle ++ to_le_bytes I32 (Z.of_nat (length cols)) ++
  to_le_bytes I64 total_rows ++ to_le_bytes I64 (Z.of_nat rows) ++
  concat (encode_meta octet_len interval_precision <$> cols.*1) ++ encode_columns cols.

Definition result_set_of (handle total_rows : Z) (rows : nat) (cols : list wire_column)
    : NativeResponse :=
  ResultSet handle (cols.*1) (if decide (cols = []) then None else Some (batch_of rows cols))
    total_rows (Z.of_nat rows).

Definition result_set_ok (handle total_rows : Z) (rows : nat) (cols : list wire_column) : Prop :=
  in_range I32 handle ∧ in_range I64 total_rows ∧ Z.of_nat rows ≤ imax I64 ∧
  Z.of_nat (length cols) ≤ imax I32 ∧ Forall meta_ok (cols.*1) ∧ columns_ok rows cols ∧
  rows_fit rows.

Lemma reads_result_set octet_len interval_precision handle total_rows rows cols :
  in_range I32 octet_len → in_range I32 interval_precision →
  result_set_ok handle total_rows rows cols →
  reads parse_result_set_at
    (encode_result_set octet_len interval_precision handle total_rows rows cols)
    (result_set_of handle total_rows rows cols).
Proof.
  intros Ho Hi (Hh & Ht & Hr & Hn & Hm & Hc & Hf). unfold parse_result_set_at, encode_result_set.
  apply reads_i32; [done|]. apply reads_i32; [range|]. rewrite wrap_id by range.
  do 2 (eapply reads_bind; [by apply reads_fixed; (done || range)|]).
  rewrite (proj2 (Z.ltb_ge _ _)) by lia.
  eapply reads_bind_nil.
  { apply reads_lift. rewrite (proj2 (Z.ltb_ge _ _)) by range. done. }
  rewrite Nat2Z.id. eapply reads_bind.
  { rewrite <- (length_fmap fst cols) at 1. apply reads_times. eapply Forall_impl; [exact Hm|].
    intros m Hmo. by apply reads_meta. }
  unfold result_set_of. destruct cols as [|c cols]; [apply reads_ret|].
  rewrite decide_False by done. rewrite (proj2 (Z.eqb_neq _ _)) by (cbn [length]; lia).
  rewrite <- (app_nil_r (encode_columns _)). eapply reads_bind; [|apply reads_ret].
  by eapply reads_bind_ret; [apply reads_batch|].
Qed.

(** Messages end in a SQL state of five bytes. *)
Definition encode_message (w : NativeWarning) : list byte :=
  encode_bytes (as_bytes (w_message w)) ++ as_bytes (w_sql_state w).

Definition message_ok (w : NativeWarning) : Prop :=
  wire_text (w_message w) ∧ valid_str (w_sql_state w) ∧ str_len (w_sql_state w) = 5%nat.

Lemma reads_sql_state s :
  valid_str s → str_len s = 5%nat → reads read_sql_state (as_bytes s) s.
Proof.
  intros Hv Hl pre suf _. rewrite <- length_as_bytes in Hl. unfold read_sql_state.
  rewrite !length_app, Hl. rewrite (proj2 (Nat.leb_le _ _)) by lia.
  rewrite <- Hl at 1. rewrite take_drop_mid. by rewrite from_utf8_as_bytes.
Qed.

Lemma reads_message w : message_ok w → reads parse_message_part (encode_message w) w.
Proof.
  intros ([Hv Hl] & Hs & Hs5). rewrite <- length_as_bytes in Hl.
  unfold parse_message_part, encode_message, encode_bytes. rewrite <- app_assoc.
  apply reads_i32; [range|]. eapply reads_bind; [by apply reads_take_cast|].
  eapply reads_bind_nil; [by apply reads_utf8|].
  eapply reads_bind_ret; [by apply reads_sql_state|]. by destruct w.
Qed.

(** The parts of an envelope. *)
Inductive part :=
| PWarning (w : NativeWarning)
| PColumnCount (n : Z)
| PResultSet (octet_len interval_precision handle total_rows : Z) (rows : nat)
    (cols : list wire_column)
| PRowCount (n : Z)
| PException (w : NativeWarning)
| PEmpty
| PStillExecuting.

Definition part_ok (p : part) : Prop :=
  match p with
  | PWarning w | PException w => message_ok w
  | PColumnCount n => in_range I32 n
  | PResultSet o i h t rows cols =>
    in_range I32 o ∧ in_range I32 i ∧ result_set_ok h t rows cols
  | PRowCount n => in_range I64 n
  | PEmpty | PStillExecuting => True
  end.

Definition type_byte (t : Z) : list byte := to_le_bytes U8 (t mod 256).

Definition part_type (p : part) : Z :=
  match p with
  | PWarning _ => R_WARNING | PColumnCount _ => R_COLUMN_COUNT
  | PResultSet _ _ _ _ _ _ => R_RESULT_SET | PRowCount _ => R_ROW_COUNT
  | PException _ => R_EXCEPTION | PEmpty => R_EMPTY | PStillExecuting => R_STILL_EXECUTING
  end.

Definition encode_part (p : part) : list byte :=
  type_byte (part_type p) ++
  match p with
  | PWarning w | PException w => encode_message w
  | PColumnCount n => to_le_bytes I32 n
  | PResultSet o i h t rows cols => encode_result_set o i h t rows cols
  | PRowCount n => to_le_bytes I64 n
  | PEmpty | PStillExecuting => []
  end.

(** What a part adds: a warning, or the terminal result. *)
Definition part_warnings (p : part) : list NativeWarning :=
  match p with PWarning w => [w] | _ => [] end.
Definition part_terminal (p : part) : option NativeResponse :=
  match p with
  | PWarning _ | PColumnCount _ => None
  | PResultSet _ _ h t rows cols => Some (result_set_of h t rows cols)
  | PRowCount n => Some (RowCount n)
  | PException w => Some (Exception (w_message w) (w_sql_state w))
  | PEmpty => Some Empty
  | PStillExecuting => Some StillExecuting
  end.

Lemma reads_type t A (k : Z → reader TransportError A) bs a :
  in_range I8 t → reads (k t) bs a →
  reads (b ← read_u8; k (wrap I8 b)) (type_byte t ++ bs) a.
Proof.
  intros Ht Hk. eapply reads_bind.
  - apply reads_fixed. pose proof (Z.mod_pos_bound t 256 ltac:(lia)). range.
  - rewrite (wrap_congr I8 _ t) by (apply Zmod_mod). by rewrite wrap_id.
Qed.

Lemma reads_terminal_part (r : reader TransportError NativeResponse) bs response ws :
  reads r bs response → reads (terminal_part (ws, None) r) bs (ws, Some response).
Proof.
  intros Hr. unfold terminal_part. rewrite <- (app_nil_r bs).
  eapply reads_bind; [exact Hr|]. eapply reads_bind_nil; [by apply reads_lift|].
  apply reads_ret.
Qed.

(** One part of a counted envelope: at most one terminal result. *)
Lemma reads_part count idx p ws t :
  part_ok p → (is_Some (part_terminal p) → t = None) →
  reads (parse_counted_part count idx (ws, t)) (encode_part p)
    (ws ++ part_warnings p, match part_terminal p with Some r => Some r | None => t end).
Proof.
  intros Hp Ht. unfold encode_part, parse_counted_part.
  destruct p as [w|n|o i h tr rows cols|n|w| |]; cbn [part_type part_ok part_warnings part_terminal] in *;
    rewrite ?app_nil_r; try (rewrite (Ht ltac:(by eexists)); clear Ht);
    (apply (reads_type _ _ (parse_part_body count idx _)); [vm_range|]).
  - rewrite <- (app_nil_r (encode_message w)). eapply reads_bind; [by apply reads_message|].
    apply reads_ret.
  - rewrite <- (app_nil_r (to_le_bytes I32 n)). apply reads_i32; [done|]. apply reads_ret.
  - destruct Hp as (? & ? & ?). apply reads_terminal_part. by apply reads_result_set.
  - apply reads_terminal_part. by eapply reads_bind_ret; [apply reads_fixed|].
  - apply reads_terminal_part. by eapply reads_bind_ret; [apply reads_message|].
  - apply reads_terminal_part, reads_ret.
  - apply reads_terminal_part, reads_ret.
Qed.

(** ** Prepared-statement replies *)

(** The sub-responses of a handle: result sets (the two descriptions), warnings
    and counts. *)
Definition sub_ok (p : part) : Prop :=
  match p with
  | PResultSet _ _ _ _ _ _ | PWarning _ | PColumnCount _ | PRowCount _ | PEmpty => part_ok p
  | PException _ | PStillExecuting => False
  end.

(** What they mean: the last description with the handle [PARAMETER_DESCRIPTION] is
    that of the parameters, the last other one that of the result columns. *)
Definition add_sub (st : HandleParts) (p : part) : HandleParts :=
  match p with
  | PWarning w =>
    {| hp_warnings := hp_warnings st ++ [w]; hp_parameters := hp_parameters st;
       hp_result_columns := hp_result_columns st |}
  | PResultSet _ _ h _ _ cols =>
    if h =? PARAMETER_DESCRIPTION
    then {| hp_warnings := hp_warnings st; hp_parameters := cols.*1;
            hp_result_columns := hp_result_columns st |}
    else {| hp_warnings := hp_warnings st; hp_parameters := hp_parameters st;
            hp_result_columns := cols.*1 |}
  | _ => st
  end.

Definition no_parts : HandleParts :=
  {| hp_warnings := []; hp_parameters := []; hp_result_columns := [] |}.

Definition encode_prepared (handle : Z) (subs : list part) : list byte :=
  to_le_bytes I32 handle ++ concat (encode_part <$> subs).

Lemma encode_part_nonempty p : (1 ≤ length (encode_part p))%nat.
Proof. unfold encode_part. rewrite length_app. unfold type_byte. rewrite length_to_le_bytes. cbn. lia. Qed.

(** The response a sub-part parses to by itself. *)
Definition sub_envelope (p : part) : NativeResponseEnvelope :=
  {| warnings := part_warnings p; terminal := default Empty (part_terminal p) |}.

Lemma reads_sub exhausted fuel p :
  sub_ok p → reads (parse_legacy_response_at exhausted fuel) (encode_part p) (sub_envelope p).
Proof.
  intros Hp.
  assert (∀ f sub, reads (b ← read_u8; parse_legacy_response_body exhausted f sub (wrap I8 b))
    (encode_part p) (sub_envelope p)) as Hr.
  { intros f sub. unfold encode_part.
    destruct p as [w|n|o i h tr rows cols|n|w| |]; cbn [part_type sub_ok part_ok] in *; try done;
      (apply (reads_type _ _ (parse_legacy_response_body exhausted f sub)); [vm_range|]).
    - by eapply reads_bind_ret; [apply reads_message|].
    - rewrite <- (app_nil_r (to_le_bytes I32 n)). apply reads_i32; [done|]. apply reads_ret.
    - destruct Hp as (? & ? & ?). by eapply reads_bind_ret; [apply reads_result_set|].
    - eapply reads_bind_ret; [by eapply reads_bind_ret; [apply reads_fixed|]|done].
    - apply reads_ret. }
  destruct fuel; intros pre suf Hf; apply Hr; done.
Qed.

Lemma add_sub_envelope st p :
  sub_ok p → add_sub_response st (sub_envelope p) = Ok (add_sub st p).
Proof.
  destruct p; cbn; try done; intros _; unfold add_sub_response; cbn; rewrite ?app_nil_r;
    try case_match; by destruct st.
Qed.

Lemma reads_end_handle_loop exhausted f fuel subs st :
  Forall sub_ok subs → (length subs ≤ fuel)%nat →
  reads_end (handle_loop exhausted (parse_legacy_response_at exhausted f) fuel st)
    (concat (encode_part <$> subs)) (foldl add_sub st subs).
Proof.
  intros Hs. revert fuel st. induction Hs as [|p subs Hp _ IH]; intros fuel st Hl pre Hf.
  - rewrite app_nil_r in *. destruct fuel; cbn [handle_loop]; by rewrite Nat.ltb_irrefl.
  - cbn [length] in Hl. destruct fuel as [|fuel]; [lia|]. cbn [handle_loop foldl].
    rewrite fmap_cons in *. cbn [concat] in *. pose proof (encode_part_nonempty p).
    rewrite (proj2 (Nat.ltb_lt _ _)) by (rewrite !length_app; lia).
    rewrite (reads_sub exhausted f p Hp) by done. cbn [mbind outcome_bind].
    rewrite add_sub_envelope by done. cbn [mbind outcome_bind].
    specialize (IH fuel (add_sub st p) ltac:(lia) (pre ++ encode_part p)).
    rewrite <- app_assoc, (length_app pre (encode_part p)) in IH. by apply IH.
Qed.

(** ** Envelopes *)

(** The part that may end an envelope because it extends to the end of the payload. *)
Inductive last_part :=
| LMoreRows (rest : list byte)
| LPrepared (handle : Z) (subs : list part).

Definition last_ok (l : last_part) : Prop :=
  match l with
  | LMoreRows _ => True
  | LPrepared h subs => in_range I32 h ∧ Forall sub_ok subs
  end.

Definition encode_last (l : last_part) : list byte :=
  match l with
  | LMoreRows rest => type_byte R_MORE_ROWS ++ rest
  | LPrepared h subs => type_byte R_HANDLE ++ encode_prepared h subs
  end.

Definition last_warnings (l : last_part) : list NativeWarning :=
  match l with
  | LMoreRows _ => []
  | LPrepared _ subs => hp_warnings (foldl add_sub no_parts subs)
  end.
Definition last_terminal (l : last_part) : NativeResponse :=
  match l with
  | LMoreRows rest => MoreRows rest
  | LPrepared h subs =>
    let st := foldl add_sub no_parts subs in
    PreparedStatement h (hp_parameters st) (hp_result_columns st)
  end.

Lemma reads_end_prepared h subs :
  in_range I32 h → Forall sub_ok subs →
  reads_end (λ data off, parse_handle_only_at (λ _, Panic) (length data)
               (parse_legacy_response_at (λ _, Panic) (length data)) data off)
    (encode_prepared h subs)
    {| warnings := last_warnings (LPrepared h subs);
       terminal := last_terminal (LPrepared h subs) |}.
Proof.
  intros Hh Hs pre Hf. unfold encode_prepared in *.
  set (n := length (pre ++ to_le_bytes I32 h ++ concat (encode_part <$> subs))).
  assert (length subs ≤ n)%nat as Hn.
  { subst n. rewrite !length_app.
    assert (∀ l, length l ≤ length (concat (encode_part <$> l)))%nat as Hc.
    { induction l as [|p l IH]; [done|]. rewrite fmap_cons. cbn [concat length].
      rewrite length_app. pose proof (encode_part_nonempty p). lia. }
    specialize (Hc subs). lia. }
  unfold parse_handle_only_at.
  apply (reads_end_bind read_i32 (λ statement_handle,
    st ← handle_loop (λ _, Panic) (parse_legacy_response_at (λ _, Panic) n) n no_parts;
    mret {| warnings := hp_warnings st;
            terminal := PreparedStatement statement_handle (hp_parameters st)
                          (hp_result_columns st) |}) (to_le_bytes I32 h)
    (concat (encode_part <$> subs)) h); [by apply reads_fixed| |done].
  eapply reads_end_bind_ret; [by apply reads_end_handle_loop|done].
Qed.

Lemma reads_end_type t A (k : Z → reader TransportError A) bs a :
  in_range I8 t → reads_end (k t) bs a →
  reads_end (b ← read_u8; k (wrap I8 b)) (type_byte t ++ bs) a.
Proof.
  intros Ht Hk. eapply reads_end_bind.
  - apply reads_fixed. pose proof (Z.mod_pos_bound t 256 ltac:(lia)). range.
  - rewrite (wrap_congr I8 _ t) by (apply Zmod_mod). by rewrite wrap_id.
Qed.

Lemma reads_end_last count l ws :
  last_ok l →
  reads_end (parse_counted_part count (count - 1) (ws, None)) (encode_last l)
    (ws ++ last_warnings l, Some (last_terminal l)).
Proof.
  intros Hl. unfold parse_counted_part. destruct l as [rest|h subs]; cbn [encode_last].
  - apply (reads_end_type _ _ (parse_part_body count (count - 1) (ws, None))); [vm_range|].
    change (parse_part_body count (count - 1) (ws, None) R_MORE_ROWS) with
      (if negb (count - 1 + 1 =? count) then
         lift (Err (ProtocolError "MoreRows must be the final native response part"))
       else terminal_part (ws, None) (rest ← read_rest; mret (MoreRows rest))).
    rewrite (proj2 (Z.eqb_eq _ _)) by lia. cbn [negb last_warnings]. rewrite app_nil_r.
    intros pre _. unfold terminal_part, read_rest. unfold_monad. cbn. by rewrite drop_app_length.
  - apply (reads_end_type _ _ (parse_part_body count (count - 1) (ws, None))); [vm_range|].
    destruct Hl as [Hh Hs]. pose proof (reads_end_prepared h subs Hh Hs) as Hr.
    eapply reads_end_bind_ret; [exact Hr|]. intros data off. done.
Qed.

(** The parts in order, and the one that runs to the end, if any. *)
Record wire_envelope := { e_parts : list part; e_last : option last_part }.

Definition option_last (o : option last_part) : list NativeResponse :=
  match o with Some l => [last_terminal l] | None => [] end.
Definition part_count (e : wire_envelope) : nat :=
  length (e_parts e) + match e_last e with Some _ => 1 | None => 0 end.

(** The terminal results in it. *)
Definition terminals (e : wire_envelope) : list NativeResponse :=
  omap part_terminal (e_parts e) ++ option_last (e_last e).

Definition encode_envelope (e : wire_envelope) : list byte :=
  to_le_bytes I32 (Z.of_nat (part_count e)) ++ concat (encode_part <$> e_parts e) ++
  match e_last e with Some l => encode_last l | None => [] end.

Definition envelope_ok (e : wire_envelope) : Prop :=
  Forall part_ok (e_parts e) ∧ (∀ l, e_last e = Some l → last_ok l) ∧
  (1 ≤ part_count e ≤ 64)%nat ∧ (length (terminals e) ≤ 1)%nat.

Definition envelope_of (e : wire_envelope) : NativeResponseEnvelope :=
  {| warnings := (e_parts e ≫= part_warnings) ++
       match e_last e with Some l => last_warnings l | None => [] end;
     terminal := default Empty (head (terminals e)) |}.

Lemma reads_end_parts count ps o ws t :
  Forall part_ok ps → (∀ l, o = Some l → last_ok l) →
  (length (option_list t ++ omap part_terminal ps ++ option_last o) ≤ 1)%nat →
  reads_end
    (parse_counted_parts count (length ps + match o with Some _ => 1 | None => 0 end) (ws, t))
    (concat (encode_part <$> ps) ++ match o with Some l => encode_last l | None => [] end)
    (ws ++ (ps ≫= part_warnings) ++ match o with Some l => last_warnings l | None => [] end,
     head (option_list t ++ omap part_terminal ps ++ option_last o)).
Proof.
  intros Hps Ho. revert ws t. induction Hps as [|p ps Hp _ IH]; intros ws t Ht.
  - destruct o as [l|]; cbn [option_last length Nat.add omap list_omap fmap list_fmap concat app mbind list_bind] in *.
    + destruct t as [t|]; [cbn in Ht; lia|]. cbn [parse_counted_parts option_list head app].
      eapply reads_end_bind_ret; [|by intros]. change (Z.of_nat 1) with 1.
      apply reads_end_last. by apply Ho.
    + cbn [parse_counted_parts]. rewrite !app_nil_r.
      assert (head (option_list t) = t) as -> by (by destruct t).
      apply reads_end_reads, reads_ret.
  - cbn [length Nat.add parse_counted_parts]. rewrite fmap_cons. cbn [concat].
    rewrite <- app_assoc. eapply reads_end_bind.
    + apply reads_part; [done|]. intros [r Hr]. destruct t as [t|]; [|done].
      cbn [omap list_omap] in Ht. rewrite Hr in Ht. cbn in Ht. lia.
    + assert (option_list t ++ omap part_terminal (p :: ps) ++ option_last o =
        option_list (match part_terminal p with Some r => Some r | None => t end)
        ++ omap part_terminal ps ++ option_last o) as E.
      { cbn [omap list_omap]. destruct (part_terminal p) as [r|] eqn:Hr; [|done].
        destruct t as [t|]; [|done]. cbn [omap list_omap] in Ht. rewrite Hr in Ht.
        cbn in Ht. lia. }
      rewrite E in *. rewrite bind_cons, <- app_assoc, (app_assoc ws). by apply IH.
Qed.

(** The first byte after the count names the type of the first part. *)
Lemma known_first_type e :
  (1 ≤ part_count e)%nat →
  ∃ b, encode_envelope e !! 4%nat = Some b ∧ is_known_response_type (wrap I8 (byte_val b)) = true.
Proof.
  intros Hc. unfold encode_envelope.
  assert (∀ t rest, in_range I8 t → is_known_response_type t = true →
    ∃ b, (type_byte t ++ rest) !! 0%nat = Some b ∧
         is_known_response_type (wrap I8 (byte_val b)) = true) as Ht.
  { intros t rest Ht Hk. exists (byte_of (t mod 256)). split; [done|].
    rewrite byte_val_of, Zmod_mod, (wrap_congr I8 _ t) by apply Zmod_mod.
    by rewrite wrap_id. }
  rewrite lookup_app_r by (by rewrite length_to_le_bytes). rewrite length_to_le_bytes.
  change (4 - ibytes I32)%nat with 0%nat. unfold part_count in Hc.
  destruct e as [[|p ps] [l|]]; cbn [e_parts e_last length] in *; [|lia|..].
  - rewrite app_nil_l. destruct l; cbn [encode_last]; apply Ht; (vm_range || reflexivity).
  - rewrite fmap_cons. cbn [concat]. unfold encode_part. rewrite <- !app_assoc.
    destruct p; apply Ht; (vm_range || reflexivity).
  - rewrite fmap_cons. cbn [concat]. unfold encode_part. rewrite <- !app_assoc.
    destruct p; apply Ht; (vm_range || reflexivity).
Qed.

Lemma parse_counted_envelope e :
  envelope_ok e → Z.of_nat (length (encode_envelope e)) ≤ imax I64 →
  try_parse_counted_envelope (encode_envelope e) = Ok (Some (envelope_of e)) ∧
  (5 ≤ length (encode_envelope e))%nat.
Proof.
  intros (Hp & Hl & Hc & Ht) Hf.
  destruct (known_first_type e) as (b & Hb & Hk); [lia|].
  pose proof (lookup_lt_Some _ _ _ Hb) as H5. split; [|lia].
  unfold try_parse_counted_envelope. rewrite (proj2 (Nat.ltb_ge _ _)) by lia.
  set (data := encode_envelope e) in *.
  assert (read_i32 data 0%nat = Ok (Z.of_nat (part_count e), 4%nat)) as Hr.
  { pose proof (reads_run_suffix read_i32 (to_le_bytes I32 (Z.of_nat (part_count e)))
      (concat (encode_part <$> e_parts e) ++ match e_last e with Some l => encode_last l | None => [] end)
      (Z.of_nat (part_count e)) Hf) as Hr.
    rewrite length_to_le_bytes in Hr. apply Hr. apply reads_fixed. range. }
  rewrite Hr. cbn [mbind outcome_bind].
  rewrite !(proj2 (Z.leb_le _ _)) by lia. cbn [andb negb]. rewrite Hb.
  cbn [mbind outcome_bind]. rewrite Hk. cbn [negb]. rewrite Nat2Z.id.
  pose proof (reads_end_parts (Z.of_nat (part_count e)) (e_parts e) (e_last e) [] None Hp Hl Ht
    (to_le_bytes I32 (Z.of_nat (part_count e))) Hf) as He.
  fold data in He. rewrite length_to_le_bytes in He.
  change (ibytes I32) with 4%nat in He. fold (part_count e) in He.
  unfold data, encode_envelope in *. rewrite He. cbn [mbind outcome_bind].
  by rewrite Nat.eqb_refl.
Qed.

(** C1: the response parser inverts the response format: for every envelope of 1 to
    64 parts with warnings, counts and at most one terminal result (a result set
    with described, typed columns and nullable values, a row count, an exception,
    an empty or still-executing status, a prepared-statement reply with its two
    descriptions, or a trailing block of further rows), [parse_response] of its
    bytes returns the warnings in order and that result, with DATE values as the
    calendar's day counts and TIMESTAMP values as the instant's microseconds. *)
Theorem parse_response_inverts_format e :
  envelope_ok e → Z.of_nat (length (encode_envelope e)) ≤ imax I64 →
  parse_response (encode_envelope e) = Ok (envelope_of e).
Proof.
  intros He Hf. destruct (parse_counted_envelope e He Hf) as [Hp Hl].
  unfold parse_response.
  rewrite (proj2 (Nat.eqb_neq _ 0)), (proj2 (Nat.eqb_neq _ 4)) by lia.
  cbn [andb]. by rewrite Hp.
Qed.

(** The rows of a fetch: the row count and the columns. *)
Definition encode_fetch (rows : nat) (cols : list wire_column) : list byte :=
  to_le_bytes I64 (Z.of_nat rows) ++ encode_columns cols.

(** Fetched rows: [parse_fetch_to_record_batch] of the bytes of a block of rows,
    with the descriptions its columns were encoded with, returns the row count and
    exactly those rows, whatever bytes follow the block. *)
Theorem parse_fetch_inverts_format rows cols rest :
  Z.of_nat rows ≤ imax I64 → columns_ok rows cols → rows_fit rows →
  Z.of_nat (length (encode_fetch rows cols ++ rest)) ≤ imax I64 →
  parse_fetch_to_record_batch (encode_fetch rows cols ++ rest) (cols.*1)
  = Ok (Z.of_nat rows, batch_of rows cols).
Proof.
  intros Hr Hc Hf Hl. unfold parse_fetch_to_record_batch, encode_fetch in *.
  assert (reads (n ← read_i64; b ← build_batch_from_wire (cols.*1) n; mret (n, b))
    (to_le_bytes I64 (Z.of_nat rows) ++ encode_columns cols)
    (Z.of_nat rows, batch_of rows cols)) as Hrd.
  { eapply reads_bind; [apply reads_fixed; range|].
    by eapply reads_bind_ret; [apply reads_batch|]. }
  assert (reads read_i64 (to_le_bytes I64 (Z.of_nat rows)) (Z.of_nat rows)) as Hn
    by (apply reads_fixed; range).
  pose proof (Hrd [] rest Hl) as E. rewrite <- app_assoc in Hl, E |- *. cbn [app length Nat.add] in E.
  pose proof (Hn [] (encode_columns cols ++ rest) Hl) as En. cbn [app length Nat.add] in En.
  unfold mbind, reader_bind in E. rewrite En in *. cbn [mbind outcome_bind].
  rewrite (proj2 (Z.ltb_ge _ _)) by lia.
  destruct (build_batch_from_wire _ _ _ _) as [[b off]| |]; [|done..].
  cbn in *. by injection E as -> _.
Qed.
End Envelope.
