(* ===== verification/ResultSafety.v ===== *)
(** * Response parser on hostile input

    Termination of the response parser, and the inputs on which it panics or does
    not terminate. *)
From S2P Require Import Prelude MachineInt RustStr Constants Errors Framing Gregorian DateTime.
From S2P Require Import Interval ExasolTypes ResultParser ResultCodec.

#[local] Open Scope Z_scope.

(** ** The readers move forwards *)
Section Advances.
Context `{BuildProfile, ArrowLib}.

Lemma advances_take_cast len m : advances (take_cast_length len m).
Proof.
  intros data off a off' Hle Ha. unfold take_cast_length, byte_slice in Ha. unfold_monad.
  destruct (arith _ _) as [e| |]; try done. case_match; [done|].
  destruct (Nat.leb_spec off (Z.to_nat e)), (Nat.leb_spec (Z.to_nat e) (length data));
    cbn in Ha; simplify_eq. lia.
Qed.

Lemma advances_sql_state : advances read_sql_state.
Proof.
  intros data off a off' Hle Ha. unfold read_sql_state in Ha.
  destruct (Nat.leb_spec (off + 5) (length data)); simplify_eq; lia.
Qed.

Lemma advances_rest : advances read_rest.
Proof. intros data off a off' Hle [= <- <-]. lia. Qed.

Lemma advances_if {E A} (b : bool) (r1 r2 : reader E A) :
  advances r1 → advances r2 → advances (if b then r1 else r2).
Proof. by destruct b. Qed.

Hint Resolve advances_take_cast advances_sql_state advances_rest : adv.

Ltac adv :=
  repeat first
    [ apply advances_ret | apply advances_lift | apply advances_take_cast
    | apply advances_sql_state | apply advances_rest | apply advances_fixed
    | apply advances_if | apply advances_times | apply advances_each
    | apply advances_bind; [|intros ?] ].

Lemma advances_message : advances parse_message_part.
Proof. unfold parse_message_part, read_i32. adv. Qed.

Lemma advances_meta : advances parse_column_meta.
Proof. unfold parse_column_meta, read_vc_flag, read_i32. adv. Qed.

Lemma advances_fill_rows value n : advances value → advances (fill_rows value n).
Proof. intros Hv. unfold fill_rows, read_u8. adv; done. Qed.

Lemma advances_fill_column n meta : advances (fill_column_builder n meta).
Proof.
  unfold fill_column_builder, fill_double_column, fill_real_column, fill_decimal_column,
    fill_smalldecimal_column, fill_boolean_column, fill_binary_column, fill_interval_column,
    fill_bigdecimal_column, fill_date_column, fill_timestamp_column, fill_string_builder,
    with_capacity, read_length_prefixed, read_packed_date_days, read_timestamp_micros,
    read_i128, read_i64, read_i32, read_i16, read_u8, read_f64, read_f32.
  repeat first [apply advances_fill_rows | progress adv].
Qed.

Lemma advances_batch metas n : advances (build_batch_from_wire metas n).
Proof.
  unfold build_batch_from_wire. destruct metas; adv. apply advances_fill_column.
Qed.

Lemma advances_result_set : advances parse_result_set_at.
Proof.
  unfold parse_result_set_at, vec_with_capacity, read_i32, read_i64.
  repeat first [apply advances_meta | apply advances_batch | progress adv].
Qed.

(** With overflow checks, the status message does not move backwards either. *)
Lemma advances_status : overflow_checks = true → advances consume_status_message.
Proof.
  intros Hc data off a off' Hle Ha. unfold consume_status_message in Ha.
  destruct (Nat.leb_spec (length data) off); [simplify_eq; lia|]. unfold_monad.
  destruct (read_i32 data off) as [[len off1]| |] eqn:E; try done.
  apply (advances_fixed I32 "Data truncated (i32)") in E as Ho; [|done].
  unfold arith in Ha. rewrite Hc in Ha. destruct (in_rangeb USize _) eqn:Hr; [|done].
  pose proof (wrap_in_range USize len).
  destruct (Z.ltb_spec (Z.of_nat (length data)) (Z.of_nat off1 + wrap USize len)); [done|].
  simplify_eq. assert (0 ≤ wrap USize len) by range. lia.
Qed.
End Advances.

(** ** Termination with overflow checks *)
Section Termination.
Context `{BuildProfile, ArrowLib} (checks : overflow_checks = true).

(** A reader that reads at least one byte. *)
Definition progresses {E A} (r : reader E A) : Prop :=
  ∀ data off a off', (off ≤ length data)%nat → r data off = Ok (a, off') →
    (off < off' ≤ length data)%nat.

Lemma advances_handle_loop ex sub fuel st :
  (∀ A a, ex A ≠ Ok a) → advances sub → advances (handle_loop ex sub fuel st).
Proof.
  intros Hex Hs. revert st. induction fuel as [|fuel IH]; intros st data off a off' Hle Ha;
    cbn [handle_loop] in Ha; (case_match; [|simplify_eq; lia]).
  - by apply Hex in Ha.
  - unfold_monad. destruct (sub data off) as [[e off1]| |] eqn:E; try done.
    destruct (add_sub_response st e) as [st'| |]; try done.
    apply Hs in E; [|done]. apply IH in Ha; lia.
Qed.

Lemma advances_body ex fuel sub t :
  (∀ A a, ex A ≠ Ok a) → advances sub → advances (parse_legacy_response_body ex fuel sub t).
Proof.
  intros Hex Hs. unfold parse_legacy_response_body, parse_handle_only_at, parse_row_count_at,
    parse_exception_at, parse_warning, read_i32, read_i64.
  repeat first [apply advances_result_set | apply advances_message
    | apply advances_status; exact checks | apply advances_handle_loop; [done|done]
    | apply advances_rest | apply advances_ret | apply advances_lift | apply advances_fixed
    | apply advances_if | apply advances_bind; [|intros ?] ].
Qed.

Lemma progress_legacy ex fuel :
  (∀ A a, ex A ≠ Ok a) → progresses (parse_legacy_response_at ex fuel).
Proof.
  intros Hex.
  assert (∀ f sub, advances sub → progresses
    (t ← read_u8; parse_legacy_response_body ex f sub (wrap I8 t))) as Hstep.
  { intros f sub Hs data off a off' Hle Ha. unfold_monad.
    destruct (read_u8 data off) as [[t off1]| |] eqn:E; try done.
    unfold read_u8, read_fixed in E.
    destruct (Nat.ltb_spec (length data) (off + ibytes U8)) as [|Hl]; [done|].
    cbn [ibytes] in *. simplify_eq. apply advances_body in Ha; [lia|done|done|lia]. }
  induction fuel as [|fuel IH].
  - apply (Hstep 0%nat (λ _ _, ex _)). intros data off a off' _ Ha. by apply Hex in Ha.
  - apply (Hstep (S fuel) (parse_legacy_response_at ex fuel)).
    intros data off a off' Hle Ha. apply IH in Ha; [lia|done].
Qed.

(** Two sub-readers that agree from an offset on give the same loop. *)
Lemma handle_loop_ext ex1 ex2 sub1 sub2 f1 f2 st data off :
  (off ≤ length data)%nat →
  (∀ o, (off ≤ o ≤ length data)%nat → sub1 data o = sub2 data o) → progresses sub1 →
  (length data - off ≤ f1)%nat → (length data - off ≤ f2)%nat →
  handle_loop ex1 sub1 f1 st data off = handle_loop ex2 sub2 f2 st data off.
Proof.
  intros Hle Hs Hp. revert f2 st off Hle Hs.
  induction f1 as [|f1 IH]; intros f2 st off Hle Hs H1 H2.
  - assert ((off <? length data)%nat = false) as E by (apply Nat.ltb_ge; lia).
    destruct f2; cbn [handle_loop]; by rewrite E.
  - destruct f2 as [|f2].
    { assert ((off <? length data)%nat = false) as E by (apply Nat.ltb_ge; lia).
      cbn [handle_loop]. by rewrite E. }
    cbn [handle_loop]. destruct (Nat.ltb_spec off (length data)); [|done].
    rewrite <- Hs by lia. unfold_monad.
    destruct (sub1 data off) as [[e off1]| |] eqn:E; try done.
    apply Hp in E; [|done]. destruct (add_sub_response st e); try done.
    apply IH; [lia| |lia|lia]. intros; apply Hs; lia.
Qed.

Lemma legacy_fuel_ext ex1 ex2 f1 f2 data off :
  (∀ A a, ex1 A ≠ Ok a) → (off ≤ length data)%nat →
  (length data - off ≤ f1)%nat → (length data - off ≤ f2)%nat →
  parse_legacy_response_at ex1 f1 data off = parse_legacy_response_at ex2 f2 data off.
Proof.
  intros Hex. revert f2 off. induction f1 as [|f1 IH]; intros f2 off Hle H1 H2.
  - assert (read_u8 data off = Err (ProtocolError "Data truncated (u8)")) as E.
    { unfold read_u8, read_fixed. rewrite (proj2 (Nat.ltb_lt _ _)); [done|]. cbn. lia. }
    destruct f2; cbn [parse_legacy_response_at]; by rewrite E.
  - destruct f2 as [|f2].
    { assert (read_u8 data off = Err (ProtocolError "Data truncated (u8)")) as E.
      { unfold read_u8, read_fixed. rewrite (proj2 (Nat.ltb_lt _ _)); [done|]. cbn. lia. }
      cbn [parse_legacy_response_at]. by rewrite E. }
    cbn [parse_legacy_response_at]. unfold_monad.
    destruct (read_u8 data off) as [[t off1]| |] eqn:E; try done.
    unfold read_u8, read_fixed in E.
    destruct (Nat.ltb_spec (length data) (off + ibytes U8)) as [|Hl]; [done|].
    cbn [ibytes] in *. simplify_eq.
    unfold parse_legacy_response_body. case_match; [done|]. case_match; [|done].
    unfold parse_handle_only_at, reader_bind, mbind.
    destruct (read_i32 data (off + 1)%nat) as [[h off2]| |] eqn:E2; try done.
    apply (advances_fixed I32 "Data truncated (i32)") in E2; [|lia].
    rewrite (handle_loop_ext ex1 ex2 _ (parse_legacy_response_at ex2 f2) (S f1) (S f2));
      [done|lia| |by apply progress_legacy|lia|lia].
    intros o Ho. apply IH; lia.
Qed.

(** C2: with overflow checks the parser of uncounted responses terminates on every
    payload: a fuel of the payload's length is never used up, so more fuel, or
    another result for a run out of fuel, changes nothing. *)
Theorem legacy_parser_terminates exhausted fuel data :
  (∀ A a, exhausted A ≠ Ok a) → (length data ≤ fuel)%nat →
  parse_legacy_response_at exhausted fuel data 0%nat
  = parse_legacy_response_at (λ _, Panic) (length data) data 0%nat.
Proof. intros Hex Hf. by apply legacy_fuel_ext; [done|lia|lia|lia]. Qed.
End Termination.

(** ** Payloads that break the parser *)
Section Hostile.
Context `{ArrowLib}.

(** A handle whose sub-response is a still-executing status with the length -5. *)
Definition looping_payload : list byte := byte_of <$> [2; 1; 0; 0; 0; 5; 251; 255; 255; 255].

Lemma looping_round exhausted f fuel st :
  handle_loop exhausted
    (parse_legacy_response_at (H := release_profile) exhausted f) fuel st looping_payload 5%nat
  = exhausted _.
Proof.
  revert st. induction fuel as [|fuel IH]; intros st; [done|]. cbn [handle_loop].
  assert (parse_legacy_response_at (H := release_profile) exhausted f looping_payload 5%nat
          = Ok (plain StillExecuting, 5%nat)) as -> by (destruct f; vm_compute; reflexivity).
  change (5 <? length looping_payload)%nat with true. cbv match. cbn [mbind outcome_bind].
  apply (IH {| hp_warnings := hp_warnings st ++ []; hp_parameters := hp_parameters st;
               hp_result_columns := hp_result_columns st |}).
Qed.

(** Without overflow checks the parser loops forever on a ten-byte payload: a
    prepared-statement reply with a still-executing status of length -5, whose
    cast to [usize] wraps the offset back to the start of the status, so that no
    fuel is ever enough (whatever error marks a run out of fuel, the result is that
    error); with overflow checks the same payload panics. *)
Theorem negative_status_length_loops :
  (∀ e fuel,
     parse_legacy_response_at (H := release_profile) (λ _, Err e) (S fuel) looping_payload 0%nat
     = Err e) ∧
  parse_response (H := dev_profile) looping_payload = Panic.
Proof.
  split; [|vm_compute; reflexivity]. intros e fuel.
  change (parse_legacy_response_at (H := release_profile) (λ _, Err e) (S fuel)
            looping_payload 0%nat)
    with (match handle_loop (λ _, Err e)
            (parse_legacy_response_at (H := release_profile) (λ _, Err e) fuel) (S fuel) no_parts
            looping_payload 5%nat with
          | Ok (st, off') => Ok ({| warnings := hp_warnings st;
              terminal := PreparedStatement 1 (hp_parameters st) (hp_result_columns st) |}, off')
          | Err e => Err e
          | Panic => Panic
          end).
  by rewrite looping_round.
Qed.

(** A negative length panics instead of being reported as truncated: in every
    length-prefixed read, [len as usize] makes [offset + len] overflow (or wrap
    below the offset) whenever the length does not reach back before the payload;
    so a five-byte exception response panics, and so does a result set with a
    negative column count. *)
Theorem negative_length_panics `{BuildProfile} :
  (∀ len message data off, in_range I32 len → len < 0 → (off ≤ length data)%nat →
     Z.of_nat (length data) ≤ imax I64 →
     take_cast_length len message data off
     = if Z.of_nat off + len <? 0 then Err (ProtocolError message) else Panic) ∧
  parse_response (byte_of <$> [255; 255; 255; 255; 255]) = Panic ∧
  parse_response (byte_of <$> [1; 255; 255; 255; 255; 255; 255; 255; 255;
    0; 0; 0; 0; 0; 0; 0; 0; 0; 0; 0; 0; 0; 0; 0; 0]) = Panic.
Proof.
  split; [|split]; [|destruct H0; by vm_compute..].
  intros len message data off Hlen Hneg Hle Hd. unfold take_cast_length.
  assert (wrap USize len = 2 ^ 64 + len) as ->.
  { unfold wrap. cbn [isigned]. change (2 ^ ibits USize) with (2 ^ 64).
    symmetry. apply Z.mod_unique_pos with (q := -1); range. }
  change (2 ^ 64) with 18446744073709551616.
  destruct (Z.ltb_spec (Z.of_nat off + len) 0).
  - rewrite arith_in by range. cbn [mbind outcome_bind].
    rewrite (proj2 (Z.ltb_lt _ _)) by range. done.
  - unfold arith. rewrite (proj2 (in_rangeb_false _ _)) by range.
    destruct overflow_checks; [done|]. cbn [mbind outcome_bind].
    assert (wrap USize (Z.of_nat off + (18446744073709551616 + len)) = Z.of_nat off + len) as ->.
    { unfold wrap. cbn [isigned]. change (2 ^ ibits USize) with 18446744073709551616.
      symmetry. apply Z.mod_unique_pos with (q := 1); range. }
    rewrite (proj2 (Z.ltb_ge _ _)) by lia. unfold byte_slice.
    rewrite (proj2 (Nat.leb_gt _ _)) by lia. done.
Qed.
End Hostile.

(** ** The theorems at concrete inputs *)
#[global] Instance typed_column_dec f column : Decision (typed_column f column).
Proof.
  apply and_dec; [apply _|]. apply Forall_dec. intros [c|]; cbn; apply _.
Defined.

Definition small_batches : ArrowLib := {|
  builder_fits n := n <=? 1048576;
  record_batch_error fields columns rows :=
    if decide (Forall2 typed_column fields columns ∧ Forall (λ c, length c = rows) columns)
    then None else Some "columns that are not those of the fields";
|}.

#[global] Instance small_batches_laws : ArrowLaws small_batches.
Proof. intros fields columns rows H1 H2. cbn. by rewrite decide_True. Qed.

Definition date_meta : NativeColumnMeta :=
  {| name := "D"; type_id := T_DATE; precision := None; scale := None; is_varchar := false;
     max_len := None; interval_fraction := None |}.
Definition number_meta : NativeColumnMeta :=
  {| name := "N"; type_id := T_DECIMAL; precision := Some 9; scale := Some 2;
     is_varchar := false; max_len := None; interval_fraction := None |}.

Definition sample_columns : list wire_column :=
  [(date_meta, [Some (WDate {| year := 2024; month := 2; day := 29 |}); None]);
   (number_meta, [Some (WDecimal (-5)); Some (WDecimal 100)])].

Definition sample_envelope : wire_envelope :=
  {| e_parts := [PWarning {| w_message := "slow"; w_sql_state := "01000" |};
                 PResultSet 0 0 7 2 2 sample_columns];
     e_last := None |}.

Lemma sample_columns_ok : columns_ok (H := dev_profile) 2 sample_columns.
Proof.
  repeat (constructor; [split; [reflexivity|repeat constructor]|]); try constructor;
    try vm_range; by_decision.
Qed.

Lemma parse_response_inverts_format_witness :
  parse_response (H := dev_profile) (H0 := small_batches) (encode_envelope sample_envelope)
  = Ok (envelope_of sample_envelope).
Proof.
  apply (parse_response_inverts_format (H := dev_profile) (ArrowLaws0 := small_batches_laws)).
  - split; [|split; [discriminate|split; [vm_compute; lia|vm_compute; lia]]].
    repeat constructor; try by_decision; try vm_range; try apply sample_columns_ok.
  - vm_compute; discriminate.
Defined.

Lemma parse_fetch_inverts_format_witness :
  parse_fetch_to_record_batch (H := dev_profile) (H0 := small_batches)
    (encode_fetch 2 sample_columns ++ [byte_of 7]) [date_meta; number_meta]
  = Ok (2, batch_of 2 sample_columns).
Proof.
  apply (parse_fetch_inverts_format (H := dev_profile) (ArrowLaws0 := small_batches_laws)
    2 sample_columns).
  - vm_compute; discriminate.
  - apply sample_columns_ok.
  - by vm_compute.
  - vm_compute; discriminate.
Defined.

Lemma legacy_parser_terminates_witness :
  parse_legacy_response_at (H := dev_profile) (H0 := small_batches) (λ _, Panic) 12
    looping_payload 0%nat
  = parse_legacy_response_at (H := dev_profile) (H0 := small_batches) (λ _, Panic) 10
      looping_payload 0%nat.
Proof.
  apply (legacy_parser_terminates (H := dev_profile) eq_refl (λ _, Panic) 12).
  - done.
  - vm_compute; lia.
Defined.
