(* ===== verification/Float64.v ===== *)
(** * Doubles

    Rust's [f64] as its 64 bits, computed with the Standard Library's IEEE 754
    specification: products, quotients, comparisons, [round], [clamp] and the
    casts from and to integers. Then the text of
    a double, as [Display] and [FromStr] define it. *)
From S2P Require Import Prelude MachineInt RustStr StrText.
From Stdlib Require Import Floats.SpecFloat Ascii.

#[local] Open Scope Z_scope.

(** ** Bits and numbers *)
Definition f64_decode (bits : Z) : spec_float :=
  let sign := 2 ^ 63 <=? bits in
  let e := bits / 2 ^ 52 mod 2048 in
  let m := bits mod 2 ^ 52 in
  if e =? 2047 then (if m =? 0 then S754_infinity sign else S754_nan)
  else if e =? 0 then
    if m =? 0 then S754_zero sign else S754_finite sign (Z.to_pos m) (-1074)
  else S754_finite sign (Z.to_pos (m + 2 ^ 52)) (e - 1075).

Definition f64_encode (x : spec_float) : Z :=
  let signed (s : bool) (bits : Z) := if s then 2 ^ 63 + bits else bits in
  match x with
  | S754_zero s => signed s 0
  | S754_infinity s => signed s (2047 * 2 ^ 52)
  | S754_nan => 2047 * 2 ^ 52 + 2 ^ 51
  | S754_finite s m e =>
    if Zpos m <? 2 ^ 52 then signed s (Zpos m)
    else signed s ((e + 1075) * 2 ^ 52 + (Zpos m - 2 ^ 52))
  end.

(** ** Arithmetic *)
(** [i as f64]: the nearest double, ties to even. *)
Definition f64_of_int (i : Z) : spec_float := binary_normalize 53 1024 i 0 false.
Definition f64_mul : spec_float → spec_float → spec_float := SFmul 53 1024.
Definition f64_div : spec_float → spec_float → spec_float := SFdiv 53 1024.

(** [x.round()]: half away from zero; the sign of a zero is kept. *)
Definition f64_round (x : spec_float) : spec_float :=
  match x with
  | S754_finite s m e =>
    if 0 <=? e then x
    else
      let q := (2 * Zpos m + 2 ^ (- e)) / (2 * 2 ^ (- e)) in
      binary_normalize 53 1024 (if s then - q else q) 0 s
  | _ => x
  end.

(** [x.clamp(lo, hi)]. *)
Definition f64_clamp (lo hi x : spec_float) : spec_float :=
  if SFltb x lo then lo else if SFltb hi x then hi else x.

(** [x as T]: toward zero, saturating, 0 for a NaN. *)
Definition f64_to_int (t : ity) (x : spec_float) : Z :=
  match x with
  | S754_zero _ | S754_nan => 0
  | S754_infinity s => if s then imin t else imax t
  | S754_finite s m e =>
    let magnitude := if 0 <=? e then Zpos m * 2 ^ e else Zpos m / 2 ^ (- e) in
    saturating t (if s then - magnitude else magnitude)
  end.

Definition f64_is_nan (x : spec_float) : bool :=
  match x with S754_nan => true | _ => false end.

(** [10f64.powi(n)]: Rust leaves its precision unspecified. *)
Class PowI := powi10 : Z → spec_float.

(** ** The text of a float *)
(** The double nearest to [m / d], for [0 <= m] and [0 < d]: the quotient with more bits than
    a double has, and one more bit for what is cut off. *)
Definition f64_of_ratio (negative : bool) (m d : Z) : spec_float :=
  if m =? 0 then S754_zero negative
  else
    let k := Z.max 0 (66 + Z.log2 d - Z.log2 m) in
    let n := m * 2 ^ k in
    let q := 2 * (n / d) + (if n mod d =? 0 then 0 else 1) in
    binary_normalize 53 1024 (if negative then - q else q) (- k - 1) negative.

Fixpoint span_digits (s : string) : string * string :=
  match s with
  | EmptyString => ("", "")
  | String a r => if is_digit a then let '(w, r) := span_digits r in (String a w, r) else ("", s)
  end.

(** A sign in front of the rest. *)
Definition span_sign (s : string) : bool * string :=
  match s with
  | String "+" s => (false, s)
  | String "-" s => (true, s)
  | _ => (false, s)
  end%char.

(** The exponent behind the digits, if any. *)
Definition parse_exponent (s : string) : option Z :=
  match s with
  | EmptyString => Some 0
  | String "e" s | String "E" s =>
    let '(negative, s) := span_sign s in
    (λ e, if negative then - e else e) <$> parse_nat s
  | _ => None
  end%char.

(** A number without its sign: digits, a point and digits, and an exponent, with at least
    one digit in front of the exponent. *)
Definition parse_f64_number (negative : bool) (s : string) : option spec_float :=
  let '(whole, s) := span_digits s in
  let '(fraction, s) := match s with
                        | String "."%char s => span_digits s
                        | _ => ("", s)
                        end in
  m ← parse_nat (whole +:+ fraction);
  e ← parse_exponent s;
  let e := e - Z.of_nat (str_len fraction) in
  Some (if 0 <=? e then f64_of_ratio negative (m * 10 ^ e) 1
        else f64_of_ratio negative m (10 ^ (- e))).

(** The bits of the result; [nan] keeps its sign. *)
Definition parse_f64 (s : string) : option Z :=
  let '(negative, body) := span_sign s in
  let word := to_ascii_lowercase body in
  if String.eqb word "inf" || String.eqb word "infinity" then
    Some (f64_encode (S754_infinity negative))
  else if String.eqb word "nan" then
    Some (f64_encode S754_nan + (if negative then 2 ^ 63 else 0))
  else f64_encode <$> parse_f64_number negative body.

(** ** The definition at concrete inputs *)
Example parse_f64_samples :
  parse_f64 <$> ["1"; "-0"; "0.1"; "1e23"; ".5"; "5."; "2.2250738585072011e-308"; "1e400";
                 "4.9e-324"; "2e-324"; "9007199254740993"; "+1.5E1"]
  = Some <$> [0x3FF0000000000000; 0x8000000000000000; 0x3FB999999999999A; 0x44B52D02C7E14AF6;
              0x3FE0000000000000; 0x4014000000000000; 0x000FFFFFFFFFFFFF; 0x7FF0000000000000;
              1; 0; 0x4340000000000000; 0x402E000000000000] ∧
  parse_f64 <$> [""; "."; "1e"; "e5"; " 1"; "1_0"; "0x1"] = replicate 7 None.
Proof. split; vm_compute; reflexivity. Qed.
