(* ===== verification/Json.v ===== *)
(** * JSON values

    The parameter values and the JSON rows of the driver: serde_json's [Value] with
    its accessors. Numbers and the [Display] text are serde_json's own. *)
From S2P Require Import Prelude MachineInt RustStr.

#[local] Open Scope Z_scope.

(** serde_json's public enum; its [Number] is opaque. *)
Inductive JsonValue (number : Set) : Set :=
| JNull
| JBool (b : bool)
| JNumber (n : number)
| JString (s : string)
| JArray (vs : list (JsonValue number))
| JObject (members : list (string * JsonValue number)).
Arguments JNull {number}.
Arguments JBool {number} b.
Arguments JNumber {number} n.
Arguments JString {number} s.
Arguments JArray {number} vs.
Arguments JObject {number} members.

(** serde_json: the methods of [Number] and the text of a value. A double is its
    bits. *)
Class SerdeJson := {
  number : Set;
  is_i64 : number → bool;
  is_u64 : number → bool;
  is_f64 : number → bool;
  number_as_i64 : number → option Z;
  number_as_f64 : number → option Z;
  number_of_i64 : Z → number;
  number_of_u64 : Z → number;
  json_display : JsonValue number → string;
}.

(** The types of the results, and numbers made from integers. *)
Class SerdeJsonLaws (J : SerdeJson) := {
  as_i64_range n i : number_as_i64 n = Some i → in_range I64 i;
  as_f64_range n bits : number_as_f64 n = Some bits → in_range U64 bits;
  as_i64_of i : in_range I64 i → number_as_i64 (number_of_i64 i) = Some i;
  display_valid v : valid_str (json_display v);
}.

Abbreviation json := (JsonValue number).

Section Accessors.
Context `{SerdeJson}.

Definition json_is_null (v : json) : bool := match v with JNull => true | _ => false end.
Definition json_as_str (v : json) : option string :=
  match v with JString s => Some s | _ => None end.
Definition json_as_bool (v : json) : option bool :=
  match v with JBool b => Some b | _ => None end.
Definition json_as_i64 (v : json) : option Z :=
  match v with JNumber n => number_as_i64 n | _ => None end.
Definition json_as_f64 (v : json) : option Z :=
  match v with JNumber n => number_as_f64 n | _ => None end.
End Accessors.

(** An instance over integers and doubles, for evaluation. *)
Definition int_numbers : SerdeJson := {|
  number := Z + Z;
  is_i64 n := match n with inl i => in_rangeb I64 i | inr _ => false end;
  is_u64 n := match n with inl i => in_rangeb U64 i | inr _ => false end;
  is_f64 n := match n with inl _ => false | inr _ => true end;
  number_as_i64 n := match n with inl i => checked I64 i | inr _ => None end;
  number_as_f64 n := match n with inl _ => None | inr b => checked U64 b end;
  number_of_i64 := inl;
  number_of_u64 := inl;
  json_display v := match v with
    | JNull => "null" | JBool true => "true" | JBool false => "false"
    | JNumber _ => "0" | _ => "?"
    end;
|}.

#[global] Instance int_numbers_laws : SerdeJsonLaws int_numbers.
Proof.
  split; cbn [number_as_i64 number_as_f64 number_of_i64 json_display int_numbers].
  - by intros [i|b] j Hj; [apply checked_Some in Hj as [-> ?]|].
  - by intros [i|b] c Hc; [|apply checked_Some in Hc as [-> ?]].
  - intros i Hi. by apply checked_in.
  - intros [|[]|n|s|vs|ms]; by_decision.
Qed.
