(* ===== verification/Messages.v ===== *)
(** * Values exchanged with a transport

    [transport/protocol.rs] and [transport/messages.rs]: the records a transport
    takes and returns, and the type records of the native column descriptions
    ([transport/native/arrow_builder.rs]) and of inferred parameters. *)
From S2P Require Import Prelude MachineInt RustStr Constants Json.
From S2P Require Import DateTime ExasolTypes ResultParser.

#[local] Open Scope Z_scope.

(* code: transport/protocol.rs 13-28 ConnectionParams *)
Record ConnectionParams := {
  host : string;
  port : Z;
  use_tls : bool;
  validate_server_certificate : bool;
  certificate_fingerprint : option string;
  timeout_ms : Z;
}.

(* code: transport/protocol.rs 30-41 ConnectionParams::new *)
Definition ConnectionParams_new (host : string) (port : Z) : ConnectionParams :=
  {| host := host; port := port; use_tls := true; validate_server_certificate := true;
     certificate_fingerprint := None; timeout_ms := 30000 |}.

(* code: transport/protocol.rs 73-77 ConnectionParams::to_websocket_url *)
Definition to_websocket_url (p : ConnectionParams) : string :=
  (if use_tls p then "wss" else "ws") +:+ "://" +:+ host p +:+ ":" +:+ show_int (port p).

(* code: transport/protocol.rs 85-95 Credentials *)
Record Credentials := {
  username : string;
  password : string;
  client_name : string;
  client_version : string;
}.

(* code: transport/messages.rs 366-374 ColumnInfo *)
Record ColumnInfo := { ci_name : string; ci_data_type : DataType }.

#[global] Instance ColumnInfo_eq_dec : EqDecision ColumnInfo.
Proof. solve_decision. Defined.

(* code: transport/messages.rs 985-1002 SessionInfo *)
Record SessionInfo := {
  session_id : string;
  protocol_version : Z;
  release_version : string;
  database_name : string;
  product_name : string;
  max_data_message_size : Z;
  time_zone : option string;
}.

#[global] Instance SessionInfo_eq_dec : EqDecision SessionInfo.
Proof. solve_decision. Defined.

Section Values.
Context `{SerdeJson}.

(* code: transport/messages.rs 1040-1051 ResultPayload *)
Inductive ResultPayload : Set :=
| PayloadJson (rows : list (list json))
| PayloadArrow (batch : RecordBatch).

(* code: transport/messages.rs 1062-1068 ResultPayload::num_rows *)
Definition payload_num_rows (p : ResultPayload) : nat :=
  match p with PayloadJson rows => length rows | PayloadArrow batch => rb_rows batch end.

(* code: transport/messages.rs 1054-1060 ResultPayload::is_empty *)
Definition payload_is_empty (p : ResultPayload) : bool :=
  match p with
  | PayloadJson rows => match rows with [] => true | _ => false end
  | PayloadArrow batch => (rb_rows batch =? 0)%nat
  end.

(* code: transport/messages.rs 1095-1107 ResultData *)
Record ResultData : Set := {
  rd_columns : list ColumnInfo;
  rd_data : ResultPayload;
  rd_total_rows : Z;
}.

(* code: transport/protocol.rs 395-410 QueryResult *)
Inductive QueryResult : Set :=
| QResultSet (handle : option Z) (data : ResultData)
| QRowCount (count : Z).

(* code: transport/protocol.rs 433-440 QueryResult::handle *)
Definition query_result_handle (r : QueryResult) : option Z :=
  match r with QResultSet handle _ => handle | QRowCount _ => None end.

(* code: transport/protocol.rs 442-448 QueryResult::get_row_count *)
Definition query_result_row_count (r : QueryResult) : option Z :=
  match r with QResultSet _ _ => None | QRowCount count => Some count end.

(* code: transport/protocol.rs 450-458 QueryResult::has_more_data *)
Definition has_more_data (r : QueryResult) : bool :=
  match r with
  | QResultSet handle data =>
    bool_decide (is_Some handle) &&
    (wrap I64 (Z.of_nat (payload_num_rows (rd_data data))) <? rd_total_rows data)
  | QRowCount _ => false
  end.

(* code: transport/messages.rs 463-481 DataType::infer_from_json *)
Definition infer_from_json (v : json) : DataType :=
  match v with
  | JNull => dt_varchar 2000000
  | JBool _ => dt_boolean
  | JNumber n => if is_f64 n then dt_double else dt_decimal 18 0
  | JString _ => dt_varchar 2000000
  | JArray _ | JObject _ => dt_varchar 2000000
  end.
End Values.

(* code: transport/protocol.rs 122-135 PreparedStatementHandle *)
Record PreparedStatementHandle := {
  ps_handle : Z;
  num_params : Z;
  parameter_types : list DataType;
  parameter_names : list (option string);
  result_columns : list ColumnInfo;
}.

(* code: transport/protocol.rs 137-152 PreparedStatementHandle::new *)
Definition PreparedStatementHandle_new (h n : Z) (types : list DataType)
    (names : list (option string)) : PreparedStatementHandle :=
  {| ps_handle := h; num_params := n; parameter_types := types; parameter_names := names;
     result_columns := [] |}.

(* code: transport/protocol.rs 154-158 PreparedStatementHandle::with_result_columns *)
Definition with_result_columns (h : PreparedStatementHandle) (columns : list ColumnInfo)
    : PreparedStatementHandle :=
  {| ps_handle := ps_handle h; num_params := num_params h;
     parameter_types := parameter_types h; parameter_names := parameter_names h;
     result_columns := columns |}.

(** A type with a name and one attribute. *)
Definition sized_type (name : string) (size : option Z) (charset : option string) : DataType :=
  {| dt_type_name := name; dt_precision := None; dt_scale := None; dt_size := size;
     dt_character_set := charset; dt_with_local_time_zone := None; dt_fraction := None;
     dt_srid := None |}.

Definition local_timestamp_type : DataType :=
  {| dt_type_name := "TIMESTAMP WITH LOCAL TIME ZONE"; dt_precision := None;
     dt_scale := None; dt_size := None; dt_character_set := None;
     dt_with_local_time_zone := Some true; dt_fraction := None; dt_srid := None |}.

(* code: transport/native/arrow_builder.rs 9-146 native_meta_to_data_type *)
Definition native_meta_to_data_type (meta : NativeColumnMeta) : DataType :=
  let one_of ids := existsb (Z.eqb (type_id meta)) ids in
  if one_of [T_DECIMAL; T_SMALLDECIMAL; T_BIGDECIMAL] then
    {| dt_type_name := "DECIMAL"; dt_precision := precision meta; dt_scale := scale meta;
       dt_size := None; dt_character_set := None; dt_with_local_time_zone := None;
       dt_fraction := None; dt_srid := None |}
  else if one_of [T_DOUBLE] then dt_double
  else if one_of [T_REAL] then named_type "DOUBLE"
  else if one_of [T_INTEGER] then dt_decimal INTEGER_DECIMAL_PRECISION 0
  else if one_of [T_SMALLINT] then dt_decimal SMALLINT_DECIMAL_PRECISION 0
  else if one_of [T_BOOLEAN] then dt_boolean
  else if one_of [T_CHAR] then
    if is_varchar meta then dt_varchar (default 2000000 (max_len meta))
    else sized_type "CHAR" (max_len meta) (Some "UTF8")
  else if one_of [T_DATE] then named_type "DATE"
  else if one_of [T_TIMESTAMP] then named_type "TIMESTAMP"
  else if one_of [T_TIMESTAMP_LOCAL_TZ] then local_timestamp_type
  else if one_of [T_TIMESTAMP_UTC] then local_timestamp_type
  else if one_of [T_BINARY] then sized_type "BINARY" (max_len meta) None
  else if one_of [T_GEOMETRY] then named_type "GEOMETRY"
  else if one_of [T_HASHTYPE] then sized_type "HASHTYPE" (max_len meta) None
  else if one_of [T_INTERVAL_YEAR] then named_type "INTERVAL YEAR TO MONTH"
  else if one_of [T_INTERVAL_DAY] then
    {| dt_type_name := "INTERVAL DAY TO SECOND"; dt_precision := None; dt_scale := None;
       dt_size := None; dt_character_set := None; dt_with_local_time_zone := None;
       dt_fraction := interval_fraction meta; dt_srid := None |}
  else dt_varchar 2000000.
