(* ===== verification/Lifecycle.v ===== *)
(** * Connection lifecycle

    [transport/deadline.rs] and [transport/lifecycle.rs]: the deadline of a connection
    setup, the connection states and the rules for moving between them, over the
    steps that a transport supplies (the class [LifecycleSteps], the source's trait). *)
From S2P Require Import Prelude MachineInt RustStr Errors Effect Json Messages.

#[local] Open Scope Z_scope.

(** ** The clock

    [now] in nanoseconds, the instant at which an enclosing timer drops the running
    action, and the number of draws from the system's random source. *)
Record World := { now : Z; cutoff : option Z; draws : nat }.

(** Why an action ended without a result. *)
Inductive stop := Failed (e : TransportError) | Cancelled.

#[global] Instance stop_eq_dec : EqDecision stop.
Proof. solve_decision. Defined.

Abbreviation io T := (action stop (World * T)).

Definition fail {T A} (e : TransportError) : io T A := pure_call (Err (Failed e)).
(** [m?] on a pure result. *)
Definition try {T A} (m : outcome TransportError A) : io T A := pure_call (map_err Failed m).

(** An operation of the runtime that completes after [delay] nanoseconds. One that is
    ready at once completes even behind an expired timer; the timer is polled second. *)
Definition await {T} (delay : nat) : io T unit := λ '(w, t),
  let done_at := now w + Z.of_nat delay in
  match cutoff w with
  | Some c =>
    if (0 <? delay)%nat && (c <? done_at)
    then (Err Cancelled, ({| now := Z.max (now w) c; cutoff := cutoff w; draws := draws w |}, t))
    else (Ok (), ({| now := done_at; cutoff := cutoff w; draws := draws w |}, t))
  | None => (Ok (), ({| now := done_at; cutoff := cutoff w; draws := draws w |}, t))
  end.

(** ** Deadlines *)
(* code: transport/deadline.rs 16-18 FAR_FUTURE *)
Definition FAR_FUTURE : Z := 86400 * 365 * 30 * 10 ^ 9.

(* code: transport/deadline.rs 20-29 SetupStep *)
Inductive SetupStep := TcpConnect | TlsHandshake | WebSocketUpgrade | Login | ExaHandshake.

(* code: transport/deadline.rs 31-43 SetupStep::fmt *)
Definition show_step (step : SetupStep) : string :=
  match step with
  | TcpConnect => "TCP connect"
  | TlsHandshake => "TLS handshake"
  | WebSocketUpgrade => "WebSocket upgrade"
  | Login => "login"
  | ExaHandshake => "EXA handshake"
  end.

(* code: transport/deadline.rs 45-54 SetupDeadline *)
Record SetupDeadline := { d_deadline : Z; d_budget : Z; d_label : string }.

(** The instants the platform's clock can represent. *)
Class Clock := representable : Z → bool.

(** Durations are in nanoseconds. *)
(* code: transport/deadline.rs 57-67 SetupDeadline::start *)
Definition SetupDeadline_start `{Clock} {T} (label : string) (budget : Z)
    : io T SetupDeadline := λ s,
  let start := now s.1 in
  let make d := Ok {| d_deadline := d; d_budget := budget; d_label := label |} in
  (if representable (start + budget) then make (start + budget)
   else if representable (start + FAR_FUTURE) then make (start + FAR_FUTURE) else Panic, s).

(* code: transport/deadline.rs 82-86 has_elapsed *)
Definition has_elapsed (d : SetupDeadline) (w : World) : bool := d_deadline d <=? now w.

(* code: transport/deadline.rs 88-94 timeout_error *)
Definition timeout_error (d : SetupDeadline) (step : SetupStep) : TransportError :=
  IoError (d_label d +:+ " timeout after " +:+ show_nat (d_budget d / 10 ^ 6) +:+ "ms ("
           +:+ show_step step +:+ ")").

(** [timeout_at(deadline, future).await]. A timer further out that fires first
    cancels the whole. *)
(* code: transport/deadline.rs 69-80 SetupDeadline::run *)
Definition deadline_run {T A} (d : SetupDeadline) (step : SetupStep) (m : io T A) : io T A :=
  λ '(w, t),
    let inner := match cutoff w with
                 | Some c => Z.min c (d_deadline d)
                 | None => d_deadline d
                 end in
    let '(o, (w', t')) := m ({| now := now w; cutoff := Some inner; draws := draws w |}, t) in
    let w' := {| now := now w'; cutoff := cutoff w; draws := draws w' |} in
    (match o with
     | Err Cancelled =>
       if inner =? d_deadline d then Err (Failed (timeout_error d step)) else Err Cancelled
     | o => o
     end, (w', t')).

(** ** Connection states *)
(* code: transport/lifecycle.rs 17-17 MUST_CONNECT *)
Definition MUST_CONNECT : string := "Must connect before authenticating".

(* code: transport/lifecycle.rs 19-29 ConnectionState *)
Inductive ConnectionState := Disconnected | Connected | Authenticated | Closed | Terminated.

#[global] Instance ConnectionState_eq_dec : EqDecision ConnectionState.
Proof. solve_decision. Defined.

(* code: transport/lifecycle.rs 31-36 ConnectionLifecycle *)
Record ConnectionLifecycle := { lc_state : ConnectionState; lc_deadline : option SetupDeadline }.

(* code: transport/lifecycle.rs 39-44 ConnectionLifecycle::new *)
Definition ConnectionLifecycle_new : ConnectionLifecycle :=
  {| lc_state := Disconnected; lc_deadline := None |}.

(* code: transport/lifecycle.rs 58-64 is_open *)
Definition is_open (lc : ConnectionLifecycle) : bool :=
  match lc_state lc with Connected | Authenticated => true | _ => false end.

(* code: transport/lifecycle.rs 98-108 terminated_error *)
Definition terminated_error : TransportError :=
  ProtocolError ("Transport was terminated after an export gave up on an in-flight response; "
                 +:+ "reconnect before the next operation").

(* code: transport/lifecycle.rs 66-80 require *)
Definition require (lc : ConnectionLifecycle) (expected : ConnectionState) (message : string)
    : outcome TransportError unit :=
  if decide (lc_state lc = expected) then Ok ()
  else if decide (lc_state lc = Terminated) then Err terminated_error
  else Err (ProtocolError message).

(* code: transport/lifecycle.rs 82-90 begin_connect *)
Definition begin_connect `{Clock} {T} (lc : ConnectionLifecycle) (timeout_ms : Z)
    : io T SetupDeadline :=
  _ ← try (require lc Disconnected "Already connected");
  SetupDeadline_start "Connection" (timeout_ms * 10 ^ 6).

(* code: transport/lifecycle.rs 92-95 connected *)
Definition connected (lc : ConnectionLifecycle) (d : SetupDeadline) : ConnectionLifecycle :=
  {| lc_state := Connected; lc_deadline := Some d |}.

(** ** The rules over a transport's steps *)
(* code: transport/lifecycle.rs 110-127 LifecycleSteps *)
Class LifecycleSteps (T : Type) := {
  lifecycle : T → ConnectionLifecycle;
  set_lifecycle : ConnectionLifecycle → T → T;
  login_exchange : Credentials → io T SessionInfo;
  send_disconnect : io T unit;
  release_connection : T → T;
}.

Section Rules.
Context {T} `{LifecycleSteps T}.

(** [transport.lifecycle_mut().state = s]. *)
Definition set_state (s : ConnectionState) (t : T) : T :=
  set_lifecycle {| lc_state := s; lc_deadline := lc_deadline (lifecycle t) |} t.

(* code: transport/lifecycle.rs 129-133 terminate *)
Definition terminate (t : T) : T := set_state Terminated (release_connection t).

(* code: transport/lifecycle.rs 150-165 authenticate_within_deadline *)
Definition login_within (d : SetupDeadline) (credentials : Credentials) : io T SessionInfo :=
  λ s,
    match deadline_run d Login (login_exchange credentials) s with
    | (Ok session, (w, t)) => (Ok session, (w, set_state Authenticated t))
    | (Err (Failed e), (w, t)) =>
      (Err (Failed e), (w, if has_elapsed d w then set_state Closed (terminate t) else t))
    | (Err Cancelled, s) => (Err Cancelled, s)
    | (Panic, s) => (Panic, s)
    end.

(* code: transport/lifecycle.rs 135-166 authenticate_within_deadline *)
Definition authenticate_within_deadline (credentials : Credentials) : io T SessionInfo :=
  s ← get;
  let lc := lifecycle s.2 in
  _ ← try (require lc Connected MUST_CONNECT);
  d ← try (ok_or (ProtocolError MUST_CONNECT) (lc_deadline lc));
  login_within d credentials.

(* code: transport/lifecycle.rs 168-181 close_gracefully *)
Definition close_gracefully : io T unit :=
  s ← get;
  if negb (is_open (lifecycle s.2)) then mret ()
  else
    _ ← send_disconnect;
    modify (λ '(w, t), (w, set_state Closed (terminate t))).
End Rules.

(** What the rules rely on: the lifecycle is a field of the transport, the steps leave
    it alone, and a step waits only in [await]s, so that it ends by its cutoff. *)
Definition in_time {T} : relation (World * T) := λ s s',
  cutoff s'.1 = cutoff s.1 ∧ now s.1 ≤ now s'.1 ∧
  (∀ c, cutoff s.1 = Some c → now s'.1 ≤ Z.max (now s.1) c).

Definition keeps_lifecycle {T} `{LifecycleSteps T} : relation (World * T) := λ s s',
  lifecycle s'.2 = lifecycle s.2.

Class LifecycleLaws (T : Type) `{LifecycleSteps T} := {
  lifecycle_set lc t : lifecycle (set_lifecycle lc t) = lc;
  lifecycle_release t : lifecycle (release_connection t) = lifecycle t;
  login_keeps credentials : effects keeps_lifecycle (login_exchange credentials);
  login_in_time credentials : effects in_time (login_exchange credentials);
  disconnect_keeps : effects keeps_lifecycle send_disconnect;
  disconnect_ignores s e s' :
    send_disconnect s = (Err e, s') → e = Cancelled ∧ is_Some (cutoff s.1);
}.

(** ** Lemmas *)
#[global] Instance in_time_preorder T : PreOrder (in_time (T := T)).
Proof.
  split; [intros s; unfold in_time; split_and!; [done|lia|intros; lia]|].
  intros s1 s2 s3 (Hc1 & Hn1 & H1) (Hc2 & Hn2 & H2). unfold in_time.
  split_and!; [congruence|lia|]. intros c Hc. pose proof (H1 c Hc).
  rewrite Hc1 in H2. pose proof (H2 c Hc). lia.
Qed.

#[global] Instance keeps_lifecycle_preorder {T} `{LifecycleSteps T} : PreOrder keeps_lifecycle.
Proof. split; [done|]. intros s1 s2 s3 H1 H2. unfold keeps_lifecycle in *. congruence. Qed.

Lemma effects_try {T A} (R : relation (World * T)) `{!PreOrder R} (m : outcome TransportError A) :
  effects R (try m).
Proof. by apply effects_pure. Qed.

Lemma effects_fail {T A} (R : relation (World * T)) `{!PreOrder R} e :
  effects R (fail (A := A) e).
Proof. by apply effects_pure. Qed.

Lemma await_in_time {T} delay : effects (in_time (T := T)) (await delay).
Proof.
  intros [w t]. unfold await, in_time. cbn [fst snd].
  destruct (cutoff w) as [c|]; [|cbn; split_and!; [done|lia|done]].
  destruct delay as [|n]; [cbn; split_and!; [done|lia|intros; lia]|].
  destruct (Z.ltb_spec c (now w + Z.of_nat (S n))) as [Hlt|Hge]; cbn [andb Nat.ltb Nat.leb];
    cbn [fst snd now cutoff]; (split_and!; [done|lia|intros ? [= <-]; lia]).
Qed.

#[export] Hint Resolve effects_try effects_fail await_in_time : effects.

(** ** Without a timer nothing is cancelled *)
Definition uncut {T A} (m : io T A) : Prop := ∀ s,
  cutoff s.1 = None → (m s).1 ≠ Err Cancelled ∧ cutoff (m s).2.1 = None.

Section Uncut.
Context {T : Type}.

Lemma uncut_bind {A B} (m : io T A) (k : A → io T B) :
  uncut m → (∀ a, uncut (k a)) → uncut (m ≫= k).
Proof.
  intros Hm Hk s Hs. unfold mbind, action_bind. destruct (Hm s Hs) as [Hc Hn].
  destruct (m s) as [[a|e|] s1]; [by apply Hk|..]; split; try done.
  intros [= ->]. by apply Hc.
Qed.

Lemma uncut_ret {A} (a : A) : uncut (T := T) (mret a).
Proof. by intros s Hs. Qed.

Lemma uncut_try {A} (m : outcome TransportError A) : uncut (T := T) (try m).
Proof. intros s Hs. split; [|done]. by destruct m. Qed.

Lemma uncut_fail {A} e : uncut (T := T) (fail (A := A) e).
Proof. by intros s Hs. Qed.

Lemma uncut_get : uncut (T := T) get.
Proof. by intros s Hs. Qed.

Lemma uncut_panic {A} : uncut (T := T) (pure_call (A := A) Panic).
Proof. by intros s Hs. Qed.

Lemma uncut_arith `{BuildProfile} t z : uncut (T := T) (pure_call (arith t z)).
Proof. intros s Hs. split; [|done]. unfold arith, pure_call. by repeat case_match. Qed.

Lemma uncut_modify f :
  (∀ s : World * T, cutoff (f s).1 = cutoff s.1) → uncut (modify f).
Proof. intros Hf s Hs. split; [done|]. cbn. congruence. Qed.

Lemma uncut_await n : uncut (T := T) (await n).
Proof. intros [w t] Hw. cbn in Hw. unfold await. by rewrite Hw. Qed.

Lemma uncut_deadline {A} d step (m : io T A) : uncut (deadline_run d step m).
Proof.
  intros [w t] Hw. cbn in Hw. unfold deadline_run. rewrite Hw. cbn [fst snd].
  destruct (m _) as [o [w' t']]. cbn. split; [|done].
  destruct o as [a|[e|]|]; [done..| |done]. by rewrite Z.eqb_refl.
Qed.

Lemma uncut_start `{Clock} label budget : uncut (T := T) (SetupDeadline_start label budget).
Proof. intros s Hs. unfold SetupDeadline_start. by repeat case_match. Qed.

Lemma uncut_fold {A B C} (step : B → A → io T (C + B)) acc xs :
  (∀ b a, uncut (step b a)) → uncut (fold_until step acc xs).
Proof.
  intros Hs. revert acc. induction xs as [|x xs IH]; intros acc; [apply uncut_ret|].
  cbn [fold_until]. apply uncut_bind; [done|]. intros [c|b]; [apply uncut_ret|apply IH].
Qed.
End Uncut.

Create HintDb uncut.
#[export] Hint Resolve uncut_ret uncut_try uncut_fail uncut_get uncut_panic uncut_arith
  uncut_await uncut_deadline uncut_start uncut_fold : uncut.

Ltac uncut :=
  repeat first
    [ progress intros
    | match goal with
      | |- uncut (if ?b then _ else _) => destruct b
      | |- uncut (match ?x with _ => _ end) => destruct x
      | |- uncut (_ ≫= _) => apply uncut_bind
      end
    | progress auto with uncut ].

(** The deadline bounds the steps that run under it. *)
Lemma deadline_run_in_time {T A} d step (m : io T A) w t o w' t' :
  effects in_time m → deadline_run d step m (w, t) = (o, (w', t')) →
  now w ≤ now w' ≤ Z.max (now w) (d_deadline d) ∧ cutoff w' = cutoff w ∧
  (o = Err Cancelled → is_Some (cutoff w)).
Proof.
  intros Hm Hr. unfold deadline_run in Hr.
  set (inner := match cutoff w with Some c => Z.min c (d_deadline d) | None => d_deadline d end)
    in *.
  specialize (Hm ({| now := now w; cutoff := Some inner; draws := draws w |}, t)).
  destruct (m _) as [o1 [w1 t1]]. destruct Hm as (_ & Hn & Hc). cbn in Hn, Hc.
  specialize (Hc _ eq_refl). injection Hr as <- <- <-. cbn.
  assert (inner ≤ d_deadline d) by (subst inner; destruct (cutoff w); lia).
  split_and!; [lia|lia|done|]. destruct o1 as [a|[e|]|]; try done.
  destruct (Z.eqb_spec inner (d_deadline d)); [done|]. intros _.
  subst inner. by destruct (cutoff w) as [c|].
Qed.

(** ** The rules *)
Section Properties.
Context {T} `{LifecycleLaws T}.

Lemma lifecycle_set_state s t : lc_state (lifecycle (set_state s t)) = s.
Proof. unfold set_state. by rewrite lifecycle_set. Qed.

Lemma deadline_set_state s t : lc_deadline (lifecycle (set_state s t)) = lc_deadline (lifecycle t).
Proof. unfold set_state. by rewrite lifecycle_set. Qed.

Lemma lifecycle_terminate t :
  lifecycle (terminate t) =
  {| lc_state := Terminated; lc_deadline := lc_deadline (lifecycle t) |}.
Proof. unfold terminate, set_state. by rewrite lifecycle_set, lifecycle_release. Qed.

Lemma deadline_run_keeps {A} d step (m : io T A) w t o s' :
  effects keeps_lifecycle m → deadline_run d step m (w, t) = (o, s') →
  lifecycle s'.2 = lifecycle t.
Proof.
  intros Hm Hr. unfold deadline_run in Hr.
  match type of Hr with context [m ?s] => specialize (Hm s); destruct (m s) as [o1 [w1 t1]] end.
  by injection Hr as _ <-.
Qed.

Lemma login_within_rules d credentials w t o w' t' :
  lc_state (lifecycle t) = Connected →
  login_within d credentials (w, t) = (o, (w', t')) →
  now w' ≤ Z.max (now w) (d_deadline d) ∧
  lc_deadline (lifecycle t') = lc_deadline (lifecycle t) ∧
  match o with
  | Ok _ => lc_state (lifecycle t') = Authenticated
  | Err (Failed _) =>
    if has_elapsed d w' then ∃ t1, t' = set_state Closed (terminate t1)
    else lc_state (lifecycle t') = Connected
  | Err Cancelled => lc_state (lifecycle t') = Connected ∧ is_Some (cutoff w)
  | Panic => True
  end.
Proof.
  intros Hc Hr. unfold login_within in Hr.
  destruct (deadline_run d Login (login_exchange credentials) (w, t)) as [o1 [w1 t1]] eqn:E.
  pose proof (deadline_run_in_time _ _ _ _ _ _ _ _ (login_in_time credentials) E)
    as ([_ Hn] & _ & Hx).
  pose proof (deadline_run_keeps _ _ _ _ _ _ _ (login_keeps credentials) E) as Hl. cbn in Hl.
  destruct o1 as [session|[e|]|]; injection Hr as <- <- <-.
  - by rewrite deadline_set_state, lifecycle_set_state, Hl.
  - destruct (has_elapsed d w1) eqn:Ee; [|by rewrite Hl].
    rewrite deadline_set_state, lifecycle_terminate. cbn [lc_deadline].
    split_and!; [done|by rewrite Hl|by exists t1].
  - rewrite Hl. split_and!; [done|done|done|]. by apply Hx.
  - by rewrite Hl.
Qed.

Lemma login_refused credentials w t :
  lc_state (lifecycle t) ≠ Connected →
  authenticate_within_deadline credentials (w, t)
  = (Err (Failed (if decide (lc_state (lifecycle t) = Terminated) then terminated_error
                  else ProtocolError MUST_CONNECT)), (w, t)).
Proof.
  intros Hc. unfold authenticate_within_deadline, try, mbind, action_bind, pure_call, get, require.
  cbn [snd]. rewrite decide_False by done. by destruct (decide _).
Qed.

Lemma login_connected credentials w t d :
  lifecycle t = {| lc_state := Connected; lc_deadline := Some d |} →
  authenticate_within_deadline credentials (w, t) = login_within d credentials (w, t).
Proof.
  intros Hd. unfold authenticate_within_deadline, try, mbind, action_bind, pure_call, get, require.
  cbn [snd]. by rewrite Hd.
Qed.

Lemma close_not_open w t :
  is_open (lifecycle t) = false → close_gracefully (w, t) = (Ok (), (w, t)).
Proof. intros Ho. unfold close_gracefully, mbind, action_bind, get. cbn [snd]. by rewrite Ho. Qed.

Lemma close_open w t o s' :
  is_open (lifecycle t) = true → cutoff w = None → o ≠ Panic →
  close_gracefully (w, t) = (o, s') →
  o = Ok () ∧ (∃ t1, s'.2 = set_state Closed (terminate t1)) ∧
  lc_deadline (lifecycle s'.2) = lc_deadline (lifecycle t).
Proof.
  unfold close_gracefully, mbind, action_bind, get. cbn [snd]. intros Ho Hw Hp Hr.
  rewrite Ho in Hr. cbn [negb] in Hr.
  pose proof (disconnect_keeps (w, t)) as Hk. pose proof (disconnect_ignores (w, t)) as Hi.
  destruct (send_disconnect (w, t)) as [o1 [w1 t1]]. unfold keeps_lifecycle in Hk. cbn in Hk.
  destruct o1 as [[]|e|]; [|destruct (Hi e _ eq_refl) as [_ [c Hc]]; cbn in Hc; by rewrite Hw in Hc|].
  - injection Hr as <- <-. split_and!; [done|by exists t1|]. cbn [snd].
    rewrite deadline_set_state, lifecycle_terminate. cbn. by rewrite Hk.
  - by injection Hr as <- <-.
Qed.

(** C18: the login rules: only a connected transport logs in, and only with the deadline
    its [connect] stored, which a retry finds unchanged; the login is over by that
    deadline; success is the only way to [Authenticated]; a login that failed before
    the deadline leaves the transport connected for a retry, and one that ran out of
    time releases the connection and leaves it closed. *)
Theorem login_rules credentials w t o w' t' :
  authenticate_within_deadline credentials (w, t) = (o, (w', t')) →
  (lc_state (lifecycle t) ≠ Connected →
     w' = w ∧ t' = t ∧
     o = Err (Failed (if decide (lc_state (lifecycle t) = Terminated) then terminated_error
                      else ProtocolError MUST_CONNECT))) ∧
  (∀ d, lifecycle t = {| lc_state := Connected; lc_deadline := Some d |} →
     now w' ≤ Z.max (now w) (d_deadline d) ∧ lc_deadline (lifecycle t') = Some d ∧
     match o with
     | Ok _ => lc_state (lifecycle t') = Authenticated
     | Err (Failed _) =>
       if has_elapsed d w' then ∃ t1, t' = set_state Closed (terminate t1)
       else lc_state (lifecycle t') = Connected
     | Err Cancelled => lc_state (lifecycle t') = Connected ∧ is_Some (cutoff w)
     | Panic => True
     end).
Proof.
  intros Hr. split.
  - intros Hc. rewrite login_refused in Hr by done. by injection Hr as <- <- <-.
  - intros d Hd. rewrite (login_connected _ _ _ d Hd) in Hr.
    apply login_within_rules in Hr; [|by rewrite Hd]. by rewrite Hd in Hr.
Qed.

(** The close rules: closing a transport that is not open does nothing, so that a
    terminated one keeps naming its cause; closing an open one succeeds whatever the
    disconnect exchange does, releases the connection and leaves it closed, and closing
    again then does nothing. *)
Theorem close_rules w t o w' t' :
  close_gracefully (w, t) = (o, (w', t')) →
  (is_open (lifecycle t) = false → o = Ok () ∧ w' = w ∧ t' = t) ∧
  (is_open (lifecycle t) = true → cutoff w = None → o ≠ Panic →
     o = Ok () ∧ (∃ t1, t' = set_state Closed (terminate t1)) ∧
     lc_deadline (lifecycle t') = lc_deadline (lifecycle t) ∧
     close_gracefully (w', t') = (Ok (), (w', t'))).
Proof.
  intros Hr. split.
  - intros Ho. rewrite close_not_open in Hr by done. by injection Hr as <- <- <-.
  - intros Ho Hw Hp. destruct (close_open w t o _ Ho Hw Hp Hr) as (-> & [t1 Ht] & Hd).
    cbn [snd] in *. split_and!; [done|by exists t1|done|].
    apply close_not_open. unfold is_open. by rewrite Ht, lifecycle_set_state.
Qed.
End Properties.
