(* ===== verification/Encryption.v ===== *)
(** * Message encryption

    [transport/native/encryption.rs]: the ChaCha20 streams of the two directions of a
    connection. The cipher itself is the class [ChaCha20]: a key stream per key. *)
From S2P Require Import Prelude MachineInt Constants.

#[local] Open Scope Z_scope.

(** The bytes of the key stream of a key with a zero nonce, and their number: a
    stream that is used up panics. *)
Class ChaCha20 := {
  keystream : list byte → nat → byte;
  keystream_len : Z;
}.

(** [a ^ b]. *)
Definition xor_byte (a b : byte) : byte := byte_of (Z.lxor (byte_val a) (byte_val b)).

(** [data] combined with the key stream from position [pos]. *)
Definition xor_stream `{ChaCha20} (key : list byte) (pos : nat) (data : list byte) : list byte :=
  imap (λ i b, xor_byte b (keystream key (pos + i))) data.

Section Encryption.
Context `{ChaCha20}.

(* code: transport/native/encryption.rs 6-11 ChaCha20State *)
Record ChaCha20State := { cs_key : list byte; cs_pos : nat }.

(* code: transport/native/encryption.rs 13-18 ChaCha20State::new *)
Definition ChaCha20State_new {E} (key : list byte) : outcome E ChaCha20State :=
  if (length key =? CHACHA20_KEY_LEN)%nat then Ok {| cs_key := key; cs_pos := 0 |} else Panic.

(* code: transport/native/encryption.rs 20-22 ChaCha20State::apply *)
Definition apply_state {E} (st : ChaCha20State) (data : list byte)
    : outcome E (list byte * ChaCha20State) :=
  let pos := (cs_pos st + length data)%nat in
  if Z.of_nat pos <=? keystream_len
  then Ok (xor_stream (cs_key st) (cs_pos st) data, {| cs_key := cs_key st; cs_pos := pos |})
  else Panic.

(* code: transport/native/encryption.rs 25-32 ChaCha20Encryptor *)
Record ChaCha20Encryptor := {
  send_cipher : option ChaCha20State;
  recv_cipher : option ChaCha20State;
}.

(* code: transport/native/encryption.rs 35-40 ChaCha20Encryptor::new *)
Definition ChaCha20Encryptor_new : ChaCha20Encryptor :=
  {| send_cipher := None; recv_cipher := None |}.

(* code: transport/native/encryption.rs 53-57 set_keys *)
Definition set_keys {E} (send_key recv_key : list byte) : outcome E ChaCha20Encryptor :=
  s ← ChaCha20State_new send_key;
  r ← ChaCha20State_new recv_key;
  Ok {| send_cipher := Some s; recv_cipher := Some r |}.

(* code: transport/native/encryption.rs 59-64 encrypt *)
Definition encrypt {E} (e : ChaCha20Encryptor) (data : list byte)
    : outcome E (list byte * ChaCha20Encryptor) :=
  match send_cipher e with
  | Some st =>
    '(data, st) ← apply_state st data;
    Ok (data, {| send_cipher := Some st; recv_cipher := recv_cipher e |})
  | None => Ok (data, e)
  end.

(* code: transport/native/encryption.rs 66-71 decrypt *)
Definition decrypt {E} (e : ChaCha20Encryptor) (data : list byte)
    : outcome E (list byte * ChaCha20Encryptor) :=
  match recv_cipher e with
  | Some st =>
    '(data, st) ← apply_state st data;
    Ok (data, {| send_cipher := send_cipher e; recv_cipher := Some st |})
  | None => Ok (data, e)
  end.

(* code: transport/native/encryption.rs 73-76 is_active *)
Definition is_active (e : ChaCha20Encryptor) : bool :=
  bool_decide (is_Some (send_cipher e)) && bool_decide (is_Some (recv_cipher e)).

(** ** The two ends *)
(** The encryptor of the other end of the connection. *)
Definition peer_of (e : ChaCha20Encryptor) : ChaCha20Encryptor :=
  {| send_cipher := recv_cipher e; recv_cipher := send_cipher e |}.

(** Messages encrypted, or decrypted, one after the other. *)
Fixpoint encrypt_all {E} (e : ChaCha20Encryptor) (messages : list (list byte))
    : outcome E (list (list byte) * ChaCha20Encryptor) :=
  match messages with
  | [] => Ok ([], e)
  | m :: ms => '(c, e) ← encrypt e m; '(cs, e) ← encrypt_all e ms; Ok (c :: cs, e)
  end.

Fixpoint decrypt_all {E} (e : ChaCha20Encryptor) (messages : list (list byte))
    : outcome E (list (list byte) * ChaCha20Encryptor) :=
  match messages with
  | [] => Ok ([], e)
  | m :: ms => '(c, e) ← decrypt e m; '(cs, e) ← decrypt_all e ms; Ok (c :: cs, e)
  end.

(** ** Lemmas *)
Lemma xor_byte_involutive a b : xor_byte (xor_byte a b) b = a.
Proof.
  unfold xor_byte. pose proof (byte_val_range a) as Ha. pose proof (byte_val_range b) as Hb.
  assert (0 ≤ Z.lxor (byte_val a) (byte_val b) < 2 ^ 8) as Hx.
  { split; [by apply Z.lxor_nonneg; lia|].
    destruct (decide (Z.lxor (byte_val a) (byte_val b) = 0)) as [->|Hne]; [done|].
    apply Z.log2_lt_pow2; [pose proof (proj2 (Z.lxor_nonneg (byte_val a) (byte_val b))); lia|].
    eapply Z.le_lt_trans; [by apply Z.log2_lxor; lia|].
    apply Z.max_lub_lt; (destruct (decide (0 < byte_val a)), (decide (0 < byte_val b)));
      try (apply Z.log2_lt_pow2; lia); rewrite Z.log2_nonpos by lia; lia. }
  rewrite byte_val_of, (Z.mod_small _ 256) by lia.
  rewrite Z.lxor_assoc, Z.lxor_nilpotent, Z.lxor_0_r. apply byte_of_val.
Qed.

Lemma length_xor_stream key pos data : length (xor_stream key pos data) = length data.
Proof. apply length_imap. Qed.

Lemma xor_stream_involutive key pos data : xor_stream key pos (xor_stream key pos data) = data.
Proof.
  apply list_eq. intros i. unfold xor_stream. rewrite !list_lookup_imap.
  destruct (data !! i) as [b|]; cbn; [|done]. by rewrite xor_byte_involutive.
Qed.

Lemma apply_state_ok {E} st data c st' :
  apply_state (E := E) st data = Ok (c, st') →
  c = xor_stream (cs_key st) (cs_pos st) data ∧ length c = length data ∧
  apply_state (E := E) st c = Ok (data, st').
Proof.
  unfold apply_state. destruct (Z.leb_spec (Z.of_nat (cs_pos st + length data)) keystream_len)
    as [Hle|]; [|done]. intros [= <- <-]. rewrite length_xor_stream.
  split_and!; [done|done|]. destruct (Z.leb_spec (Z.of_nat (cs_pos st + length data)) keystream_len);
    [|lia]. by rewrite xor_stream_involutive.
Qed.

(** What one end encrypts, the other decrypts, and the ends stay in step. *)
Lemma decrypt_encrypt {E} e data c e' :
  encrypt (E := E) e data = Ok (c, e') →
  length c = length data ∧ decrypt (E := E) (peer_of e) c = Ok (data, peer_of e').
Proof.
  unfold encrypt, decrypt, peer_of. cbn [recv_cipher send_cipher].
  destruct (send_cipher e) as [st|] eqn:Es.
  - destruct (apply_state st data) as [[c1 st1]| |] eqn:E1; [|done..].
    apply apply_state_ok in E1 as (-> & Hl & Ha). intros [= <- <-]. split; [done|].
    cbn. by rewrite Ha.
  - intros [= <- <-]. by rewrite Es.
Qed.

Lemma encrypt_active {E} e data c e' :
  encrypt (E := E) e data = Ok (c, e') → is_active e' = is_active e ∧ recv_cipher e' = recv_cipher e.
Proof.
  unfold encrypt. destruct (send_cipher e) as [st|] eqn:Es; [|by intros [= <- <-]].
  destruct (apply_state st data) as [[c1 st1]| |]; [|done..]. intros [= <- <-].
  unfold is_active. by rewrite Es.
Qed.

Lemma decrypt_active {E} e data c e' :
  decrypt (E := E) e data = Ok (c, e') → is_active e' = is_active e ∧ send_cipher e' = send_cipher e.
Proof.
  unfold decrypt. destruct (recv_cipher e) as [st|] eqn:Es; [|by intros [= <- <-]].
  destruct (apply_state st data) as [[c1 st1]| |]; [|done..]. intros [= <- <-].
  unfold is_active. by rewrite Es.
Qed.

(** The encrypted channel: whatever messages one end encrypts one after the other,
    an end with the keys the other way round decrypts to the same messages in the same
    order and is ready for the next one; no message changes its length; and a cipher
    only refuses when its key stream is used up. *)
Theorem channel_in_step {E} e messages :
  (∀ ciphers e', encrypt_all (E := E) e messages = Ok (ciphers, e') →
     decrypt_all (E := E) (peer_of e) ciphers = Ok (messages, peer_of e') ∧
     length <$> ciphers = length <$> messages) ∧
  (∀ st, send_cipher e = Some st →
     Z.of_nat (cs_pos st + list_sum (length <$> messages)) ≤ keystream_len →
     ∃ ciphers e', encrypt_all (E := E) e messages = Ok (ciphers, e')).
Proof.
  split.
  - revert e. induction messages as [|m ms IH]; intros e ciphers e'; cbn.
    { by intros [= <- <-]. }
    destruct (encrypt e m) as [[c e1]| |] eqn:E1; [|done..]. cbn.
    destruct (encrypt_all e1 ms) as [[cs e2]| |] eqn:E2; [|done..]. cbn.
    intros [= <- <-]. apply decrypt_encrypt in E1 as [Hl Hd].
    apply IH in E2 as [Hds Hls]. cbn. rewrite Hd. cbn. rewrite Hds. cbn.
    by rewrite Hl, Hls.
  - revert e. induction messages as [|m ms IH]; intros e st Hs Hle; [by eexists _, _|].
    change (list_sum (length <$> m :: ms)) with (length m + list_sum (length <$> ms))%nat in Hle.
    cbn.
    unfold encrypt at 1. rewrite Hs. unfold apply_state.
    destruct (Z.leb_spec (Z.of_nat (cs_pos st + length m)) keystream_len); [|lia]. cbn.
    destruct (IH {| send_cipher := Some {| cs_key := cs_key st; cs_pos := cs_pos st + length m |};
                    recv_cipher := recv_cipher e |} _ eq_refl) as (cs & e' & ->); [cbn; lia|].
    by eexists _, _.
Qed.
End Encryption.
