(* ===== verification/Handshake.v ===== *)
(** * Login handshake

    [transport/native/handshake.rs]: the login packet, the reader of the server's RSA
    key and the authentication message. The big integers and the random source are
    the classes [BigUint] and [SecureRandom]. *)
From S2P Require Import Prelude MachineInt RustStr Constants Errors Framing Attributes.
From S2P Require Import Json Messages Encryption.

#[local] Open Scope Z_scope.

(** num-bigint: a [BigUint] is the number it stands for. [modpow] panics on a zero
    modulus. *)
Class BigUint := {
  from_bytes_be : list byte → Z;
  to_bytes_be : Z → list byte;
  bits : Z → Z;
  modpow : Z → Z → Z → option Z;
}.

(** The number of big-endian bytes. *)
Definition be_val (bs : list byte) : Z := le_val (reverse bs).

(** Documented behaviour. *)
Class BigUintLaws (B : BigUint) := {
  from_bytes_val bs : from_bytes_be bs = be_val bs;
  to_bytes_val z : 0 ≤ z → be_val (to_bytes_be z) = z;
  to_bytes_short z k : 0 ≤ z < 256 ^ Z.of_nat k → (0 < k → length (to_bytes_be z) ≤ k)%nat;
  bits_zero z : 0 ≤ z → bits z = 0 ↔ z = 0;
  modpow_val b e n : 0 < n → 0 ≤ e → modpow b e n = Some (b ^ e mod n);
}.

(** The system's random source: what the [k]-th draw of [n] bytes returns, if it does. *)
Class SecureRandom := rng_fill : nat → nat → option (list byte).

Class SecureRandomLaws (R : SecureRandom) :=
  rng_fill_length k n bs : rng_fill k n = Some bs → length bs = n.

(** [std::env::consts::OS]. *)
Class Platform := platform_os : string.

(* code: lib.rs 96-97 DRIVER_NAME *)
Definition DRIVER_NAME : string := "exarrow-rs".

(** ** The login packet *)
Section Login.
Context `{BuildProfile, Platform}.

(* code: transport/native/handshake.rs 34-56 build_login_packet *)
Definition login_attributes (c : Credentials) : AttributeSet :=
  let add s '(id, v) := AttributeSet_add s id v in
  foldl add AttributeSet_new
    [(ATTR_USERNAME, AString (username c)); (ATTR_CLIENTNAME, AString (client_name c));
     (ATTR_DRIVERNAME, AString DRIVER_NAME); (ATTR_CLIENTOS, AString platform_os);
     (ATTR_CLIENTVERSION, AString (client_version c)); (ATTR_TSUTC_ENABLED, ABool true)].

(* code: transport/native/handshake.rs 25-69 build_login_packet *)
Definition build_login_packet {E} (c : Credentials) : outcome E (list byte) :=
  let attr_bytes := AttributeSet_serialize (login_attributes c) in
  msg_len ← arith U32 (8 + wrap U32 (Z.of_nat (length attr_bytes)));
  Ok (to_le_bytes U32 LOGIN_MAGIC ++ to_le_bytes U32 msg_len ++
      to_le_bytes U32 PROTOCOL_VERSION ++ to_le_bytes U32 CHANGE_DATE ++ attr_bytes).
End Login.

(** ** RSA keys *)
Definition der_error {A} (what : string) : outcome TransportError A :=
  Err (ProtocolError ("Invalid DER: " +:+ what)).

(** The loop over the bytes of a long-form length. *)
Definition der_long_length (bs : list byte) : Z :=
  foldl (λ len b, Z.lor (Z.shiftl len 8) (byte_val b)) 0 bs.

(* code: transport/native/handshake.rs 220-242 read_der_length *)
Definition read_der_length (data : list byte) : outcome TransportError (Z * Z) :=
  match data with
  | [] => der_error "truncated"
  | first :: _ =>
    if byte_val first <? 128 then Ok (byte_val first, 1)
    else
      let num_bytes := Z.land (byte_val first) 127 in
      if (num_bytes =? 0) || (3 <? num_bytes) || (Z.of_nat (length data) <? 1 + num_bytes)
      then der_error "bad length"
      else Ok (der_long_length (take (Z.to_nat num_bytes) (drop 1 data)), 1 + num_bytes)
  end.

(* code: transport/native/handshake.rs 244-262 read_der_integer *)
Definition read_der_integer (data : list byte) : outcome TransportError (list byte * Z) :=
  match data with
  | [] => der_error "expected INTEGER"
  | tag :: rest =>
    if negb (byte_val tag =? 2) then der_error "expected INTEGER"
    else
      '(int_len, len_bytes) ← read_der_length rest;
      let header_len := 1 + len_bytes in
      if Z.of_nat (length data) <? header_len + int_len then der_error "truncated integer"
      else
        let value := take (Z.to_nat int_len) (drop (Z.to_nat header_len) data) in
        let value :=
          match value with
          | b :: (_ :: _) as tail => if byte_val b =? 0 then tail else value
          | _ => value
          end in
        Ok (value, header_len + int_len)
  end.

(** [&der[pos..end]]. *)
Definition bytes_between (pos end_ : Z) (der : list byte) : outcome TransportError (list byte) :=
  if (0 <=? pos) && (pos <=? end_) && (end_ <=? Z.of_nat (length der))
  then Ok (take (Z.to_nat (end_ - pos)) (drop (Z.to_nat pos) der)) else Panic.

Section Rsa.
Context `{BigUint}.

(* code: transport/native/handshake.rs 182-218 parse_rsa_public_key_pkcs1_der *)
Definition parse_rsa_public_key_pkcs1_der (der : list byte) : outcome TransportError (Z * Z) :=
  match der with
  | tag :: rest =>
    if negb (byte_val tag =? 48) then der_error "expected SEQUENCE"
    else
      '(seq_len, len_bytes) ← read_der_length rest;
      let pos := 1 + len_bytes in
      let seq_end := pos + seq_len in
      if Z.of_nat (length der) <? seq_end then der_error "truncated"
      else
        input ← bytes_between pos seq_end der;
        '(n_bytes, consumed) ← read_der_integer input;
        let pos := pos + consumed in
        input ← bytes_between pos seq_end der;
        '(e_bytes, consumed) ← read_der_integer input;
        let pos := pos + consumed in
        if negb (pos =? seq_end) then der_error "trailing bytes"
        else Ok (from_bytes_be n_bytes, from_bytes_be e_bytes)
  | [] => der_error "expected SEQUENCE"
  end.

(* code: transport/native/handshake.rs 152-180 parse_rsa_public_key *)
Definition parse_rsa_public_key (key_data : list byte) : outcome TransportError (Z * Z) :=
  if bool_decide (byte_val <$> head key_data = Some 48) then
    parse_rsa_public_key_pkcs1_der key_data
  else if (length key_data <? 4)%nat || negb (length key_data mod 2 =? 0)%nat then
    Err (ProtocolError ("Invalid raw RSA key: unexpected length "
                        +:+ show_nat (Z.of_nat (length key_data))))
  else
    let half := (length key_data / 2)%nat in
    let e := from_bytes_be (take half key_data) in
    let n := from_bytes_be (drop half key_data) in
    if (bits n =? 0) || (bits e =? 0) then
      Err (ProtocolError "Invalid raw RSA key: zero modulus or exponent")
    else Ok (n, e).

(** ** The password encoding *)
(** [Protocol::RSA_KEY_LENGTH]. *)
Definition rsa_key_len : nat := 128%nat.

(* code: transport/native/handshake.rs 291-302 exasol_encode_pwd *)
Definition interleaved_len (pwd_len phrase_len : nat) : nat :=
  let n := if (phrase_len <? pwd_len)%nat then (pwd_len * 2)%nat else (phrase_len * 2)%nat in
  if negb (n mod rsa_key_len =? 0)%nat then (n + (rsa_key_len - n mod rsa_key_len))%nat else n.

(** [bs[i % bs.len()]]. *)
Definition cyclic (bs : list byte) (i : nat) : byte := nth (i mod length bs) bs x00.

(* code: transport/native/handshake.rs 304-315 exasol_encode_pwd *)
Definition interleave (pwd phrase : list byte) (n : nat) : list byte :=
  concat ((λ i, [cyclic pwd i; cyclic phrase i]) <$> seq 0 (n / 2)).

Context `{BuildProfile}.

(** One block: RSA of 64 bytes, exported right-aligned into 128. *)
(* code: transport/native/handshake.rs 324-338 exasol_encode_pwd *)
Definition encrypt_block (interleaved : list byte) (n e : Z) (encrypted : list byte) (i : nat)
    : outcome TransportError (list byte) :=
  let input := take (rsa_key_len / 2) (drop (i * (rsa_key_len / 2)) interleaved) in
  c ← match modpow (from_bytes_be input) e n with Some c => Ok c | None => Panic end;
  let c_bytes := to_bytes_be c in
  let output_start := Z.of_nat (i * rsa_key_len) in
  offset ← arith USize (Z.of_nat rsa_key_len - Z.of_nat (length c_bytes));
  start ← arith USize (output_start + offset);
  end_ ← arith USize (start + Z.of_nat (length c_bytes));
  if (start <=? end_) && (end_ <=? Z.of_nat (length encrypted)) then
    if end_ - start =? Z.of_nat (length c_bytes) then
      Ok (take (Z.to_nat start) encrypted ++ c_bytes ++ drop (Z.to_nat end_) encrypted)
    else Panic
  else Panic.

Fixpoint encrypt_blocks (interleaved : list byte) (n e : Z) (encrypted : list byte)
    (blocks : list nat) : outcome TransportError (list byte) :=
  match blocks with
  | [] => Ok encrypted
  | i :: blocks =>
    encrypted ← encrypt_block interleaved n e encrypted i;
    encrypt_blocks interleaved n e encrypted blocks
  end.

(* code: transport/native/handshake.rs 264-342 exasol_encode_pwd *)
Definition exasol_encode_pwd (data phrase : list byte) (n e : Z)
    : outcome TransportError (list byte) :=
  if (length phrase =? 0)%nat then
    Err (ProtocolError "Cannot encode password: server-supplied random phrase is empty")
  else
    let pwd := data ++ [x00] in
    let len := interleaved_len (length pwd) (length phrase) in
    let interleaved := interleave pwd phrase len in
    let rsa_output_len := (len * 2)%nat in
    encrypt_blocks interleaved n e (replicate rsa_output_len x00)
      (seq 0 (rsa_output_len / rsa_key_len)).
End Rsa.

(** ** The authentication message *)
(* code: transport/native/handshake.rs 18-23 AuthMessage *)
Record AuthMessage := {
  wire_bytes : list byte;
  send_key : list byte;
  recv_key : list byte;
}.

Section Auth.
Context `{BuildProfile, BigUint, SecureRandom}.

(** The password as the server's phrase wants it. *)
(* code: transport/native/handshake.rs 85-100 build_auth_message *)
Definition pad_password (pwd phrase : list byte) (draw : nat) : outcome TransportError (list byte) :=
  if (length pwd + 2 <? length phrase)%nat then
    padding ← ok_or (ProtocolError "RNG failure") (rng_fill draw (length phrase - length pwd - 2));
    Ok (pwd ++ [x00] ++ padding)
  else Ok pwd.

(* code: transport/native/encryption.rs 42-51 generate_keys *)
Definition generate_keys (draw : nat) : outcome TransportError (list byte * list byte) :=
  match rng_fill draw CHACHA20_KEY_LEN, rng_fill (S draw) CHACHA20_KEY_LEN with
  | Some s, Some r => Ok (s, r)
  | _, _ => Panic
  end.

(* code: transport/native/handshake.rs 110-129 build_auth_message *)
Definition add_client_keys (attrs : AttributeSet) (phrase : list byte) (n e : Z)
    (use_chacha20 : bool) (draw : nat)
    : outcome TransportError (AttributeSet * (list byte * list byte)) :=
  if use_chacha20 then
    '(sk, rk) ← generate_keys draw;
    encrypted_send_key ← exasol_encode_pwd sk phrase n e;
    encrypted_recv_key ← exasol_encode_pwd rk phrase n e;
    let attrs := AttributeSet_add attrs ATTR_CLIENT_SEND_KEY (ABinary encrypted_send_key) in
    let attrs := AttributeSet_add attrs ATTR_CLIENT_RECEIVE_KEY (ABinary encrypted_recv_key) in
    let attrs := AttributeSet_add attrs ATTR_CLIENT_KEYS_LEN
                   (AInt32 (Z.of_nat CHACHA20_KEY_LEN)) in
    Ok (attrs, (sk, rk))
  else Ok (attrs, ([], [])).

(** [draw] is the number of the first random draw. The serial counter is returned. *)
(* code: transport/native/handshake.rs 71-150 build_auth_message *)
Definition build_auth_message (password : string) (public_key_data random_phrase : list byte)
    (serial : SerialCounter) (use_chacha20 : bool) (draw : nat)
    : outcome TransportError (AuthMessage * SerialCounter) :=
  '(n, e) ← parse_rsa_public_key public_key_data;
  padded_pwd ← pad_password (as_bytes password) random_phrase draw;
  encrypted_password ← exasol_encode_pwd padded_pwd random_phrase n e;
  let attrs := AttributeSet_add AttributeSet_new ATTR_ENCODED_PASSWORD
                 (ABinary encrypted_password) in
  '(attrs, (send_key, recv_key)) ← add_client_keys attrs random_phrase n e use_chacha20 (S draw);
  let attr_bytes := AttributeSet_serialize attrs in
  let '(number, serial) := serial_next serial in
  let header := MessageHeader_new CMD_SET_ATTRIBUTES number (AttributeSet_num_attributes attrs)
                  (wrap U32 (Z.of_nat (length attr_bytes))) 0 in
  Ok ({| wire_bytes := header_serialize header ++ attr_bytes;
         send_key := send_key; recv_key := recv_key |}, serial).
End Auth.
