(* ===== verification/HandshakeCodec.v ===== *)
(** * What the server reads of a login

    The server's side of the handshake: the decryption of the password blocks with
    the private exponent, and the theorems that the key reader reads keys and that the
    authentication message carries the password and the channel keys. *)
From S2P Require Import Prelude MachineInt RustStr Constants Errors Framing Attributes.
From S2P Require Import Json Messages Encryption Handshake.

#[local] Open Scope Z_scope.

(** ** Big-endian numbers *)
Definition be_bytes (n : nat) (z : Z) : list byte := reverse (to_le n z).

Lemma length_be_bytes n z : length (be_bytes n z) = n.
Proof. unfold be_bytes. by rewrite length_reverse, length_to_le. Qed.

Lemma be_val_range bs : 0 ≤ be_val bs < 256 ^ Z.of_nat (length bs).
Proof. unfold be_val. rewrite <- length_reverse. apply le_val_range. Qed.

Lemma be_val_bytes n z : be_val (be_bytes n z) = z mod 256 ^ Z.of_nat n.
Proof. unfold be_val, be_bytes. by rewrite reverse_involutive, le_val_to_le. Qed.

Lemma be_bytes_val bs : be_bytes (length bs) (be_val bs) = bs.
Proof.
  unfold be_val, be_bytes. rewrite <- length_reverse, to_le_le_val. apply reverse_involutive.
Qed.

Lemma le_val_zeros n : le_val (replicate n x00) = 0.
Proof. by induction n as [|n IH]; cbn [replicate le_val]; [|rewrite IH]. Qed.

Lemma be_val_zeros n bs : be_val (replicate n x00 ++ bs) = be_val bs.
Proof.
  unfold be_val. rewrite reverse_app, reverse_replicate, le_val_app, le_val_zeros. lia.
Qed.

(** A number exported right-aligned. *)
Lemma be_bytes_aligned n z bs :
  be_val bs = z → (length bs ≤ n)%nat → replicate (n - length bs) x00 ++ bs = be_bytes n z.
Proof.
  intros Hz Hl. rewrite <- (be_bytes_val (replicate (n - length bs) x00 ++ bs)).
  rewrite be_val_zeros, Hz. f_equal. rewrite length_app, length_replicate. lia.
Qed.

(** ** The server's decryption *)
Definition server_block (d n : Z) (block : list byte) : list byte :=
  be_bytes 64 (be_val block ^ d mod n).

Definition server_decrypt (d n : Z) (cipher : list byte) : list byte :=
  concat ((λ i, server_block d n (take 128 (drop (i * 128) cipher))) <$>
          seq 0 (length cipher / 128)).

(** The bytes at even positions: the data; those at odd positions are the phrase. *)
Fixpoint evens (bs : list byte) : list byte :=
  match bs with
  | b :: _ :: bs => b :: evens bs
  | _ => []
  end.

(** What RSA promises of a key pair on blocks of 64 bytes, with a modulus of at most
    1024 bits. *)
Definition rsa_pair (n e d : Z) : Prop :=
  0 < n ≤ 256 ^ 128 ∧ 0 ≤ e ∧ 0 ≤ d ∧
  ∀ m, 0 ≤ m < 256 ^ 64 → (m ^ e mod n) ^ d mod n = m.

(** ** Encrypting block by block *)
Section Blocks.
Context `{BuildProfile, BigUintLaws}.

Definition input_block (interleaved : list byte) (i : nat) : list byte :=
  take 64 (drop (i * 64) interleaved).

Definition cipher_block (interleaved : list byte) (n e : Z) (i : nat) : list byte :=
  be_bytes 128 (be_val (input_block interleaved i) ^ e mod n).

Lemma encrypt_block_ok interleaved n e head k i :
  0 < n ≤ 256 ^ 128 → 0 ≤ e → length head = (i * 128)%nat →
  Z.of_nat (length head + S k * 128) ≤ imax I64 →
  encrypt_block interleaved n e (head ++ replicate (S k * 128) x00) i
  = Ok ((head ++ cipher_block interleaved n e i) ++ replicate (k * 128) x00).
Proof.
  intros Hn He Hh Hb. unfold encrypt_block. rewrite from_bytes_val, modpow_val by lia.
  change (rsa_key_len / 2)%nat with 64%nat. fold (input_block interleaved i).
  cbn [mbind outcome_bind]. set (c := be_val (input_block interleaved i) ^ e mod n).
  assert (0 ≤ c < 256 ^ 128) as Hc by (pose proof (Z.mod_pos_bound
    (be_val (input_block interleaved i) ^ e) n); lia).
  pose proof (to_bytes_short c 128 Hc ltac:(lia)) as Hl.
  pose proof (to_bytes_val c ltac:(lia)) as Hv. set (bs := to_bytes_be c) in *.
  unfold rsa_key_len.
  assert (imax I64 = 2 ^ 63 - 1) as HI by done. rewrite HI in Hb.
  run_arith. rewrite length_app, length_replicate.
  destruct (Z.leb_spec (Z.of_nat (i * 128) + (Z.of_nat 128 - Z.of_nat (length bs)))
    (Z.of_nat (i * 128) + (Z.of_nat 128 - Z.of_nat (length bs)) + Z.of_nat (length bs))); [|lia].
  destruct (Z.leb_spec (Z.of_nat (i * 128) + (Z.of_nat 128 - Z.of_nat (length bs))
    + Z.of_nat (length bs)) (Z.of_nat (length head + S k * 128))); [|lia]. cbn [andb].
  destruct (Z.eqb_spec (Z.of_nat (i * 128) + (Z.of_nat 128 - Z.of_nat (length bs))
    + Z.of_nat (length bs) - (Z.of_nat (i * 128) + (Z.of_nat 128 - Z.of_nat (length bs))))
    (Z.of_nat (length bs))); [|lia]. f_equal.
  replace (Z.to_nat (Z.of_nat (i * 128) + (Z.of_nat 128 - Z.of_nat (length bs))))
    with (length head + (128 - length bs))%nat by lia.
  replace (Z.to_nat (Z.of_nat (i * 128) + (Z.of_nat 128 - Z.of_nat (length bs))
    + Z.of_nat (length bs))) with (length head + 128)%nat by lia.
  rewrite take_app_add, drop_app_add, take_replicate, drop_replicate.
  replace ((128 - length bs) `min` (S k * 128))%nat with (128 - length bs)%nat by lia.
  replace (S k * 128 - 128)%nat with (k * 128)%nat by lia.
  rewrite <- !app_assoc. f_equal. rewrite app_assoc. f_equal.
  by apply be_bytes_aligned.
Qed.

Lemma encrypt_blocks_ok interleaved n e head k i :
  0 < n ≤ 256 ^ 128 → 0 ≤ e → length head = (i * 128)%nat →
  Z.of_nat (length head + k * 128) ≤ imax I64 →
  encrypt_blocks interleaved n e (head ++ replicate (k * 128) x00) (seq i k)
  = Ok (head ++ concat (cipher_block interleaved n e <$> seq i k)).
Proof.
  intros Hn He. revert head i. induction k as [|k IH]; intros head i Hh Hb.
  { cbn. by rewrite !app_nil_r. }
  cbn [seq encrypt_blocks]. rewrite encrypt_block_ok by done. cbn [mbind outcome_bind].
  rewrite fmap_cons. cbn [concat]. rewrite app_assoc. apply IH;
    rewrite length_app; unfold cipher_block; rewrite length_be_bytes; lia.
Qed.
End Blocks.

(** ** Lengths *)
Lemma interleaved_len_spec a b :
  ∃ k, interleaved_len a b = (k * 128)%nat ∧ (a * 2 ≤ k * 128)%nat ∧ (b * 2 ≤ k * 128)%nat ∧
    (k * 128 < 2 * a + 2 * b + 128)%nat.
Proof.
  unfold interleaved_len, rsa_key_len.
  set (m := if (b <? a)%nat then (a * 2)%nat else (b * 2)%nat).
  assert (a * 2 ≤ m ∧ b * 2 ≤ m ∧ m ≤ 2 * a + 2 * b)%nat as Hm
    by (subst m; destruct (Nat.ltb_spec b a); lia).
  pose proof (Nat.div_mod_eq m 128) as Hd. pose proof (Nat.mod_upper_bound m 128 ltac:(lia)).
  destruct (Nat.eqb_spec (m mod 128) 0) as [Hz|Hz]; cbn [negb].
  - exists (m / 128)%nat. lia.
  - exists (S (m / 128))%nat. lia.
Qed.

Lemma length_interleave pwd phrase n : length (interleave pwd phrase n) = (2 * (n / 2))%nat.
Proof. unfold interleave. rewrite (concat_fmap_length_const _ 2) by done. by rewrite length_seq. Qed.

Lemma evens_interleave pwd phrase n :
  evens (interleave pwd phrase n) = cyclic pwd <$> seq 0 (n / 2).
Proof.
  unfold interleave. induction (seq 0 (n / 2)) as [|i l IH]; [done|].
  rewrite !fmap_cons. cbn. by rewrite IH.
Qed.

Lemma cyclic_prefix pwd n :
  (0 < length pwd ≤ n)%nat → take (length pwd) (cyclic pwd <$> seq 0 n) = pwd.
Proof.
  intros Hl. apply list_eq. intros i. destruct (decide (i < length pwd)%nat) as [Hi|Hi].
  - rewrite lookup_take_lt, list_lookup_fmap, lookup_seq_lt by lia. cbn. unfold cyclic.
    rewrite Nat.mod_small by done.
    destruct (lookup_lt_is_Some_2 pwd i Hi) as [b Hb]. rewrite Hb. f_equal.
    by apply nth_lookup_Some.
  - rewrite !lookup_ge_None_2; [done|lia|]. rewrite length_take. lia.
Qed.

(** Consecutive blocks of a list are the list. *)
Lemma concat_blocks (l : list byte) size k :
  length l = (k * size)%nat → concat ((λ i, take size (drop (i * size) l)) <$> seq 0 k) = l.
Proof.
  revert l. induction k as [|k IH]; intros l Hl; [by destruct l|].
  cbn [seq]. rewrite fmap_cons. cbn [concat]. rewrite Nat.mul_0_l, drop_0.
  rewrite <- fmap_S_seq, <- list_fmap_compose.
  rewrite <- (take_drop size l) at 2. f_equal.
  rewrite <- (IH (drop size l)) by (rewrite length_drop; lia).
  f_equal. apply list_fmap_ext. intros _ i _. unfold compose. by rewrite drop_drop.
Qed.

Lemma concat_blocks_lookup (f : nat → list byte) size k i :
  (∀ i, length (f i) = size) → (i < k)%nat →
  take size (drop (i * size) (concat (f <$> seq 0 k))) = f i.
Proof.
  intros Hf Hi. replace k with (i + S (k - i - 1))%nat by lia.
  rewrite seq_app, fmap_app, concat_app. cbn [seq]. rewrite fmap_cons. cbn [concat].
  assert (length (concat (f <$> seq 0 i)) = (i * size)%nat) as <-
    by (rewrite (concat_fmap_length_const _ size) by done; rewrite length_seq; lia).
  rewrite drop_app_length. rewrite <- (Hf (0 + i)%nat). by rewrite take_app_length.
Qed.

(** ** The password blocks *)
Section Password.
Context `{BuildProfile, BigUintLaws}.

Lemma server_decrypt_blocks interleaved n e d k :
  rsa_pair n e d → length interleaved = (k * 64)%nat →
  server_decrypt d n (concat (cipher_block interleaved n e <$> seq 0 k)) = interleaved.
Proof.
  intros (Hn & He & Hd & Hrsa) Hl. unfold server_decrypt.
  assert (∀ i, length (cipher_block interleaved n e i) = 128%nat) as Hc
    by (intros; apply length_be_bytes).
  rewrite (concat_fmap_length_const _ 128) by done. rewrite length_seq.
  rewrite (Nat.mul_comm 128), Nat.div_mul by lia.
  transitivity (concat (input_block interleaved <$> seq 0 k)); [|by apply concat_blocks]. f_equal.
  apply list_fmap_ext. intros i j Hij. apply lookup_seq in Hij as [-> Hi]. cbn [Nat.add].
  rewrite concat_blocks_lookup by done. unfold server_block, cipher_block.
  rewrite be_val_bytes, (Z.mod_small _ (256 ^ Z.of_nat 128))
    by (pose proof (Z.mod_pos_bound (be_val (input_block interleaved i) ^ e) n); lia).
  assert (length (input_block interleaved i) = 64%nat) as Hi64
    by (unfold input_block; rewrite length_take, length_drop; lia).
  pose proof (be_val_range (input_block interleaved i)) as Hr. rewrite Hi64 in Hr.
  rewrite Hrsa by done. fold (input_block interleaved i). rewrite <- Hi64. apply be_bytes_val.
Qed.

Definition encodable (data phrase : list byte) : Prop :=
  phrase ≠ [] ∧ Z.of_nat (length data) ≤ 2 ^ 26 ∧ Z.of_nat (length phrase) ≤ 2 ^ 26.

(** The encoded data and what the server makes of it. *)
Lemma encode_pwd_read data phrase n e d :
  rsa_pair n e d → encodable data phrase →
  ∃ cipher, exasol_encode_pwd data phrase n e = Ok cipher ∧
    Z.of_nat (length cipher) ≤ 2 ^ 30 ∧
    server_decrypt d n cipher
    = interleave (data ++ [x00]) phrase (interleaved_len (length data + 1) (length phrase)) ∧
    take (length data + 1) (evens (server_decrypt d n cipher)) = data ++ [x00].
Proof.
  intros Hrsa (Hne & Hd & Hp). unfold exasol_encode_pwd.
  destruct (Nat.eqb_spec (length phrase) 0) as [Hz|_]; [by destruct phrase|].
  rewrite length_app. cbn [length].
  destruct (interleaved_len_spec (length data + 1) (length phrase)) as (k & -> & H1 & H2 & H3).
  unfold rsa_key_len. replace (k * 128 * 2)%nat with ((2 * k) * 128)%nat by lia.
  rewrite Nat.div_mul by lia. set (il := interleave (data ++ [x00]) phrase (k * 128)).
  assert (k * 128 / 2 = k * 64)%nat as Hk
    by (replace (k * 128)%nat with ((k * 64) * 2)%nat by lia; by rewrite Nat.div_mul).
  assert (length il = (2 * k * 64)%nat) as Hil
    by (subst il; rewrite length_interleave, Hk; lia).
  pose proof Hrsa as (Hn & He & _).
  assert (imax I64 = 2 ^ 63 - 1) as HI by done.
  rewrite (encrypt_blocks_ok il n e [] (2 * k) 0);
    [|exact Hn|exact He|done|rewrite HI; cbn [length]; lia].
  cbn [app]. eexists. split; [reflexivity|].
  rewrite (concat_fmap_length_const _ 128) by (intros; apply length_be_bytes).
  rewrite length_seq. split; [lia|].
  rewrite (server_decrypt_blocks il n e d) by done. split; [done|].
  subst il. rewrite evens_interleave, Hk.
  replace (length data + 1)%nat with (length (data ++ [x00])) by (rewrite length_app; cbn; lia).
  apply cyclic_prefix. rewrite length_app. cbn [length]. lia.
Qed.

(** ** RSA keys *)
(** The raw format, and DER with lengths of at most three bytes. *)
Definition raw_key (half : nat) (n e : Z) : list byte := be_bytes half e ++ be_bytes half n.

Definition der_length (n : nat) : list byte :=
  if (n <? 128)%nat then [byte_of (Z.of_nat n)]
  else x83 :: be_bytes 3 (Z.of_nat n).

Definition der_integer (bs : list byte) : list byte := x02 :: der_length (length bs) ++ bs.

Definition der_key (n_bytes e_bytes : list byte) : list byte :=
  let body := der_integer n_bytes ++ der_integer e_bytes in
  x30 :: der_length (length body) ++ body.

Lemma shift_lor_byte acc b : 0 ≤ acc → Z.lor (Z.shiftl acc 8) (byte_val b) = acc * 256 + byte_val b.
Proof.
  intros Ha. pose proof (byte_val_range b) as Hb.
  pose proof (Z.add_lor_land (Z.shiftl acc 8) (byte_val b)) as Hadd.
  assert (Z.land (Z.shiftl acc 8) (byte_val b) = 0) as Hz.
  { apply Z.bits_inj'. intros i Hi. rewrite Z.land_spec, Z.bits_0.
    destruct (Z.ltb_spec i 8) as [Hlt|Hge]; [by rewrite Z.shiftl_spec_low|].
    rewrite <- (Z.mod_small (byte_val b) (2 ^ 8)) by lia.
    by rewrite Z.mod_pow2_bits_high, andb_false_r by lia. }
  rewrite Hz, Z.shiftl_mul_pow2 in Hadd by lia. rewrite Z.shiftl_mul_pow2 by lia. lia.
Qed.

Lemma der_long_length_val bs acc :
  0 ≤ acc → foldl (λ len b, Z.lor (Z.shiftl len 8) (byte_val b)) acc bs
  = acc * 256 ^ Z.of_nat (length bs) + be_val bs.
Proof.
  revert acc. induction bs as [|b bs IH]; intros acc Ha; [cbn; unfold be_val; cbn; lia|].
  cbn [foldl]. pose proof (byte_val_range b) as Hb. rewrite shift_lor_byte by done.
  rewrite IH by lia. cbn [length]. rewrite Nat2Z.inj_succ, Z.pow_succ_r by lia.
  unfold be_val. rewrite reverse_cons, le_val_app, length_reverse. cbn [le_val]. lia.
Qed.

(** ** Reading keys *)
Lemma read_der_length_bounds data l k :
  read_der_length data = Ok (l, k) → 0 ≤ l ∧ 1 ≤ k ≤ Z.of_nat (length data).
Proof.
  unfold read_der_length. destruct data as [|b bs]; [done|].
  pose proof (byte_val_range b). destruct (Z.ltb_spec (byte_val b) 128) as [Hlt|Hge].
  { intros [= <- <-]. cbn [length]. lia. }
  destruct ((Z.land (byte_val b) 127 =? 0) || (3 <? Z.land (byte_val b) 127) ||
    (Z.of_nat (length (b :: bs)) <? 1 + Z.land (byte_val b) 127)) eqn:E; [done|].
  apply orb_false_iff in E as [[E1 E2]%orb_false_iff E3]. intros [= <- <-].
  pose proof (proj2 (Z.land_nonneg (byte_val b) 127)). apply Z.ltb_ge in E3.
  unfold der_long_length. rewrite der_long_length_val by done.
  rewrite Z.mul_0_l, Z.add_0_l. split; [apply be_val_range|lia].
Qed.

Lemma read_der_integer_bounds data v k :
  read_der_integer data = Ok (v, k) → 0 ≤ k ≤ Z.of_nat (length data).
Proof.
  unfold read_der_integer. destruct data as [|b bs]; [done|].
  destruct (negb (byte_val b =? 2)); [done|].
  destruct (read_der_length bs) as [[l m]| |] eqn:E; [|done..]. cbn [mbind outcome_bind].
  apply read_der_length_bounds in E as [Hl Hm].
  destruct (Z.ltb_spec (Z.of_nat (length (b :: bs))) (1 + m + l)); [done|].
  intros [= _ <-]. cbn [length] in *. lia.
Qed.

Lemma read_der_length_safe data : no_panic (read_der_length data).
Proof. unfold no_panic, read_der_length, der_error. by repeat case_match. Qed.

Lemma read_der_integer_safe data : no_panic (read_der_integer data).
Proof.
  unfold read_der_integer, der_error. destruct data as [|b bs]; [done|].
  destruct (negb (byte_val b =? 2)); [done|].
  apply no_panic_bind; [apply read_der_length_safe|]. intros [l m] _.
  unfold no_panic. by repeat case_match.
Qed.

Lemma bytes_between_ok pos end_ der :
  0 ≤ pos ≤ end_ → end_ ≤ Z.of_nat (length der) →
  bytes_between pos end_ der = Ok (take (Z.to_nat (end_ - pos)) (drop (Z.to_nat pos) der)).
Proof.
  intros Hp He. unfold bytes_between.
  rewrite (proj2 (Z.leb_le 0 pos)), (proj2 (Z.leb_le pos end_)), (proj2 (Z.leb_le end_ _)) by lia.
  done.
Qed.

Lemma parse_der_safe key : no_panic (parse_rsa_public_key_pkcs1_der key).
Proof.
  unfold parse_rsa_public_key_pkcs1_der. destruct key as [|tag rest]; [done|].
  destruct (negb (byte_val tag =? 48)); [done|].
  apply no_panic_bind; [apply read_der_length_safe|]. intros [l k] Hl.
  apply read_der_length_bounds in Hl as [Hl Hk].
  destruct (Z.ltb_spec (Z.of_nat (length (tag :: rest))) (1 + k + l)) as [|Hle]; [done|].
  rewrite bytes_between_ok by lia. cbn [mbind outcome_bind].
  set (input := take _ _). pose proof (read_der_integer_safe input) as Hs1.
  destruct (read_der_integer input) as [[nb c1]| |] eqn:E1; [|done..].
  apply read_der_integer_bounds in E1.
  assert (Z.of_nat (length input) ≤ l) as Hi by (subst input; rewrite length_take; lia).
  cbn [mbind outcome_bind]. rewrite bytes_between_ok by lia. cbn [mbind outcome_bind].
  apply no_panic_bind; [apply read_der_integer_safe|]. intros [eb c2] _.
  by destruct (negb (1 + k + c1 + c2 =? 1 + k + l)).
Qed.

Lemma read_der_length_text n rest :
  (n < 256 ^ 3)%nat →
  read_der_length (der_length n ++ rest) = Ok (Z.of_nat n, Z.of_nat (length (der_length n))).
Proof.
  intros Hn. assert (Z.of_nat n < 256 ^ 3) as Hz.
  { change (256 ^ 3) with (Z.of_nat 256 ^ Z.of_nat 3). rewrite <- Nat2Z.inj_pow. lia. }
  clear Hn. unfold der_length. destruct (Nat.ltb_spec n 128) as [Hlt|Hge].
  - cbn [app read_der_length length]. rewrite byte_val_of, Z.mod_small by lia.
    destruct (Z.ltb_spec (Z.of_nat n) 128); [done|lia].
  - cbn [app read_der_length]. change (byte_val x83) with 131. cbn [Z.ltb Z.compare Pos.compare
      Pos.compare_cont]. change (Z.land 131 127) with 3. cbn [length].
    rewrite length_app, length_be_bytes.
    destruct (Z.ltb_spec (Z.of_nat (S (3 + length rest))) (1 + 3)); [lia|].
    cbn [Z.eqb Z.ltb Z.compare Pos.compare Pos.compare_cont orb].
    change (Z.to_nat 3) with 3%nat. cbn [drop].
    rewrite drop_0, take_app_length' by (by rewrite length_be_bytes).
    unfold der_long_length. rewrite der_long_length_val by done.
    rewrite be_val_bytes, Z.mod_small by lia. done.
Qed.

(** The value of an integer without the sign byte. *)
Definition unsigned_bytes (bs : list byte) : list byte :=
  match bs with
  | b :: (_ :: _) as tail => if byte_val b =? 0 then tail else bs
  | _ => bs
  end.

Lemma be_val_unsigned bs : be_val (unsigned_bytes bs) = be_val bs.
Proof.
  destruct bs as [|b [|c bs]]; [done..|]. unfold unsigned_bytes.
  destruct (Z.eqb_spec (byte_val b) 0) as [Hb|]; [|done].
  rewrite (byte_val_inj b x00) by done. symmetry. apply (be_val_zeros 1).
Qed.

Lemma read_der_integer_text bs rest :
  (length bs < 256 ^ 3)%nat →
  read_der_integer (der_integer bs ++ rest)
  = Ok (unsigned_bytes bs, Z.of_nat (length (der_integer bs))).
Proof.
  intros Hl. unfold der_integer. cbn [app read_der_integer].
  change (byte_val x02) with 2. cbn [Z.eqb Pos.eqb negb]. rewrite <- app_assoc.
  rewrite read_der_length_text by done. cbn [mbind outcome_bind length].
  rewrite !length_app.
  destruct (Z.ltb_spec (Z.of_nat (S (length (der_length (length bs)) + (length bs + length rest))))
    (1 + Z.of_nat (length (der_length (length bs))) + Z.of_nat (length bs))); [lia|].
  replace (Z.to_nat (1 + Z.of_nat (length (der_length (length bs)))))
    with (S (length (der_length (length bs)))) by lia.
  cbn [drop]. rewrite drop_app_length, Nat2Z.id, take_app_length.
  f_equal. f_equal. lia.
Qed.

Lemma parse_der_key nb eb :
  (length (der_integer nb ++ der_integer eb) < 256 ^ 3)%nat →
  (length nb < 256 ^ 3)%nat → (length eb < 256 ^ 3)%nat →
  parse_rsa_public_key (der_key nb eb) = Ok (be_val nb, be_val eb).
Proof.
  intros Hl Hn He. unfold parse_rsa_public_key, der_key. cbn [head fmap option_fmap option_map].
  rewrite bool_decide_true by done. unfold parse_rsa_public_key_pkcs1_der.
  change (negb (byte_val x30 =? 48)) with false. cbv iota.
  set (body := der_integer nb ++ der_integer eb) in *.
  pose proof (read_der_length_text (length body) body Hl) as ->. cbn [mbind outcome_bind].
  set (k := length (der_length (length body))).
  cbn [length]. rewrite length_app. fold k.
  destruct (Z.ltb_spec (Z.of_nat (S (k + length body)))
    (1 + Z.of_nat k + Z.of_nat (length body))); [lia|].
  rewrite bytes_between_ok by (cbn [length]; rewrite ?length_app; fold k; lia).
  cbn [mbind outcome_bind].
  replace (Z.to_nat (1 + Z.of_nat k)) with (S k) by lia. cbn [drop].
  rewrite drop_app_length' by done.
  replace (Z.to_nat (1 + Z.of_nat k + Z.of_nat (length body) - (1 + Z.of_nat k)))
    with (length body) by lia.
  rewrite take_ge by done. pose proof (read_der_integer_text nb (der_integer eb) Hn) as E1.
  fold body in E1. rewrite E1.
  cbn [mbind outcome_bind]. set (c := length (der_integer nb)).
  assert (length body = (c + length (der_integer eb))%nat) as Hbody
    by (subst body c; apply length_app).
  rewrite bytes_between_ok by (cbn [length]; rewrite ?length_app; fold k; lia).
  cbn [mbind outcome_bind].
  replace (Z.to_nat (1 + Z.of_nat k + Z.of_nat c)) with (S (k + c)) by lia. cbn [drop].
  rewrite drop_app_add' by done.
  assert (drop c body = der_integer eb) as -> by (subst body c; apply drop_app_length).
  rewrite take_ge by lia. rewrite <- (app_nil_r (der_integer eb)), read_der_integer_text by done.
  cbn [mbind outcome_bind].
  destruct (Z.eqb_spec (1 + Z.of_nat k + Z.of_nat c + Z.of_nat (length (der_integer eb)))
    (1 + Z.of_nat k + Z.of_nat (length body))); [|lia]. cbn [negb].
  by rewrite !from_bytes_val, !be_val_unsigned.
Qed.

Lemma head_be_bytes n z : 0 ≤ z < 256 ^ Z.of_nat n → head (be_bytes (S n) z) = Some x00.
Proof.
  intros Hz. pose proof (be_bytes_aligned (S n) z (be_bytes n z)) as Ha.
  rewrite length_be_bytes, be_val_bytes, Z.mod_small in Ha by done.
  rewrite <- Ha by lia. by replace (S n - n)%nat with 1%nat by lia.
Qed.

Lemma bits_pos z : 0 < z → (bits z =? 0) = false.
Proof.
  intros Hz. apply Z.eqb_neq. intros Hb. apply (bits_zero z) in Hb; lia.
Qed.

Lemma parse_raw_key half n e :
  (2 ≤ S half)%nat → 0 < n < 256 ^ Z.of_nat (S half) → 0 < e < 256 ^ Z.of_nat half →
  parse_rsa_public_key (raw_key (S half) n e) = Ok (n, e).
Proof.
  intros Hh Hn He. unfold parse_rsa_public_key, raw_key.
  rewrite head_app, head_be_bytes by lia. rewrite bool_decide_false by done.
  assert (length (be_bytes (S half) e ++ be_bytes (S half) n) = 2 * S half)%nat as Hl
    by (rewrite length_app, !length_be_bytes; lia).
  rewrite Hl, Nat.mul_comm, Nat.Div0.mod_mul, Nat.div_mul by lia.
  destruct (Nat.ltb_spec (S half * 2) 4); [lia|]. cbn [Nat.eqb negb orb].
  assert (0 ≤ e < 256 ^ Z.of_nat (S half)) as He'.
  { split; [lia|]. eapply Z.lt_trans; [apply He|]. apply Z.pow_lt_mono_r; lia. }
  rewrite take_app_length', drop_app_length' by (by rewrite length_be_bytes).
  rewrite !from_bytes_val, !be_val_bytes, (Z.mod_small e) by exact He'.
  rewrite (Z.mod_small n) by (clear - Hn; lia).
  by rewrite !bits_pos by tauto.
Qed.

(** The server's RSA key: whatever bytes the server sends as its key, reading them
    ends in a key or an error and never panics; a raw key (exponent and modulus in
    halves of equal length, the exponent zero-padded) reads as its two numbers; and so
    does a PKCS#1 key in DER, with or without sign bytes. *)
Theorem rsa_keys_read :
  (∀ key, no_panic (parse_rsa_public_key key)) ∧
  (∀ half n e, (2 ≤ S half)%nat → 0 < n < 256 ^ Z.of_nat (S half) → 0 < e < 256 ^ Z.of_nat half →
     parse_rsa_public_key (raw_key (S half) n e) = Ok (n, e)) ∧
  (∀ nb eb, (length (der_integer nb ++ der_integer eb) < 256 ^ 3)%nat →
     (length nb < 256 ^ 3)%nat → (length eb < 256 ^ 3)%nat →
     parse_rsa_public_key (der_key nb eb) = Ok (be_val nb, be_val eb)).
Proof.
  split_and!.
  - intros key. unfold parse_rsa_public_key.
    destruct (bool_decide _); [apply parse_der_safe|]. unfold no_panic. by repeat case_match.
  - apply parse_raw_key.
  - apply parse_der_key.
Qed.
End Password.

(** ** The authentication message *)
Section AuthMessage.
Context `{BuildProfile, BigUintLaws, SecureRandomLaws}.

(** The [n] bytes of data that the server decrypts from an encoded attribute. *)
Definition attribute_carries (s : AttributeSet) (id n d : Z) (data : list byte) : Prop :=
  ∃ cipher, AttributeSet_get s id = Some (ABinary cipher) ∧
    take (length data) (evens (server_decrypt d n cipher)) = data.

(** The keys of the two directions as the set carries them. *)
Definition carries_keys (s : AttributeSet) (n d : Z) (use_chacha20 : bool)
    (sk rk : list byte) : Prop :=
  if use_chacha20 then
    length sk = CHACHA20_KEY_LEN ∧ length rk = CHACHA20_KEY_LEN ∧
    attribute_carries s ATTR_CLIENT_SEND_KEY n d sk ∧
    attribute_carries s ATTR_CLIENT_RECEIVE_KEY n d rk ∧
    AttributeSet_get s ATTR_CLIENT_KEYS_LEN = Some (AInt32 (Z.of_nat CHACHA20_KEY_LEN))
  else sk = [] ∧ rk = [] ∧ AttributeSet_get s ATTR_CLIENT_SEND_KEY = None.

Definition rng_works : Prop := ∀ k n, is_Some (rng_fill k n).

Lemma pad_password_ok pwd phrase n e d k :
  rng_works → encodable pwd phrase → rsa_pair n e d →
  ∃ padded, pad_password pwd phrase k = Ok padded ∧ encodable padded phrase ∧
    ∃ pad, padded ++ [x00] = (pwd ++ [x00]) ++ pad.
Proof.
  intros Hrng (Hne & Hp & Hph) Hrsa. unfold pad_password.
  destruct (Nat.ltb_spec (length pwd + 2) (length phrase)) as [Hlt|_].
  - destruct (Hrng k (length phrase - length pwd - 2)%nat) as [padding Hpad]. rewrite Hpad.
    pose proof (rng_fill_length _ _ _ Hpad) as Hl. cbn [ok_or mbind outcome_bind].
    eexists. split; [done|]. split.
    + split_and!; [done| |done]. rewrite !length_app, Hl. cbn [length]. lia.
    + exists (padding ++ [x00]). by rewrite <- !app_assoc.
  - exists pwd. split_and!; [done|done|]. exists []. by rewrite app_nil_r.
Qed.

(** An encoded value carries any prefix of its data and terminator. *)
Lemma encode_carries data phrase n e d shown pad :
  rsa_pair n e d → encodable data phrase → data ++ [x00] = shown ++ pad →
  ∃ cipher, exasol_encode_pwd data phrase n e = Ok cipher ∧
    Z.of_nat (length cipher) ≤ 2 ^ 30 ∧
    ∀ s id, AttributeSet_get s id = Some (ABinary cipher) → attribute_carries s id n d shown.
Proof.
  intros Hrsa He Hs. destruct (encode_pwd_read data phrase n e d Hrsa He) as (c & Hc & Hl & _ & Ht).
  exists c. split_and!; [done|done|]. intros s id Hg. exists c. split; [done|].
  assert (length shown ≤ length data + 1)%nat as Hle.
  { apply (f_equal length) in Hs. rewrite !length_app in Hs. cbn [length] in Hs. lia. }
  transitivity (take (length shown) (take (length data + 1) (evens (server_decrypt d n c)))).
  - rewrite take_take. f_equal. lia.
  - by rewrite Ht, Hs, take_app_length.
Qed.

(** The attributes of the message: they are well-formed, fit the header, and carry the
    password and the keys. *)
Lemma auth_attributes cipher phrase n e d use_chacha20 k :
  rng_works → rsa_pair n e d → phrase ≠ [] → Z.of_nat (length phrase) ≤ 2 ^ 26 →
  Z.of_nat (length cipher) ≤ 2 ^ 30 →
  ∃ s sk rk,
    add_client_keys (AttributeSet_add AttributeSet_new ATTR_ENCODED_PASSWORD (ABinary cipher))
      phrase n e use_chacha20 k = Ok (s, (sk, rk)) ∧
    attribute_set_ok s ∧ in_range U32 (Z.of_nat (length (AttributeSet_serialize s))) ∧
    AttributeSet_get s ATTR_ENCODED_PASSWORD = Some (ABinary cipher) ∧
    carries_keys s n d use_chacha20 sk rk.
Proof.
  intros Hrng Hrsa Hne Hp Hc. unfold add_client_keys, carries_keys.
  set (s0 := AttributeSet_add AttributeSet_new ATTR_ENCODED_PASSWORD (ABinary cipher)).
  assert (∀ id c, in_range U16 id → attribute_type id = TBin → Z.of_nat (length c) ≤ 2 ^ 30 →
    attribute_ok {| attr_id := id; attr_value := ABinary c |}) as Hok.
  { intros id c Hid Ht Hl. split_and!; [done|done|]. cbn [value_ok attr_value]. range. }
  assert (attribute_ok {| attr_id := ATTR_ENCODED_PASSWORD; attr_value := ABinary cipher |})
    as Hok0 by (apply Hok; [vm_range|done|done]).
  destruct use_chacha20.
  - unfold generate_keys. destruct (Hrng k CHACHA20_KEY_LEN) as [sk Hsk].
    destruct (Hrng (S k) CHACHA20_KEY_LEN) as [rk Hrk]. rewrite Hsk, Hrk.
    pose proof (rng_fill_length _ _ _ Hsk) as Ls. pose proof (rng_fill_length _ _ _ Hrk) as Lr.
    assert (∀ key, length key = CHACHA20_KEY_LEN → encodable key phrase) as Hen
      by (intros key Hk; split_and!; [done|rewrite Hk; vm_compute; done|done]).
    destruct (encode_carries sk phrase n e d sk [x00] Hrsa (Hen _ Ls) eq_refl)
      as (c1 & E1 & L1 & C1).
    destruct (encode_carries rk phrase n e d rk [x00] Hrsa (Hen _ Lr) eq_refl)
      as (c2 & E2 & L2 & C2).
    cbn [mbind outcome_bind]. rewrite E1. cbn [mbind outcome_bind]. rewrite E2.
    cbn [mbind outcome_bind]. eexists _, sk, rk. split; [done|]. split; [|split].
    + split; [|vm_range]. apply Forall_cons. split; [exact Hok0|]. apply Forall_cons.
      split; [by apply Hok; [vm_range|..]|]. apply Forall_cons.
      split; [by apply Hok; [vm_range|..]|]. apply Forall_cons. split; [by_decision|done].
    + rewrite length_serialize. subst s0. cbn. range.
    + split; [done|]. split_and!; [done|done|by apply C1|by apply C2|done].
  - eexists _, [], []. split; [done|]. split; [|split].
    + split; [|vm_range]. apply Forall_cons. by split.
    + rewrite length_serialize. subst s0. cbn. range.
    + done.
Qed.

(** C16: the authentication message: for a server key, phrase and random source that
    work, the message is built, numbered with the next serial, and the server reads of
    its bytes a CMD_SET_ATTRIBUTES header of the right lengths and attributes whose
    RSA blocks decrypt to the password and its terminator and, on an unencrypted
    connection, to exactly the two keys that the client will use. *)
Theorem auth_message_read password key phrase serial n e d use_chacha20 draw :
  parse_rsa_public_key key = Ok (n, e) → rsa_pair n e d → rng_works →
  encodable (as_bytes password) phrase → in_range U32 (next serial) →
  ∃ m h s, build_auth_message password key phrase serial use_chacha20 draw
           = Ok (m, (serial_next serial).2) ∧
    header_parse (take HEADER_SIZE (wire_bytes m)) = Ok h ∧
    command h = CMD_SET_ATTRIBUTES ∧ Framing.serial h = next serial ∧
    message_length h = Z.of_nat (length (drop HEADER_SIZE (wire_bytes m))) ∧
    parse_attributes (drop HEADER_SIZE (wire_bytes m)) (num_attributes h) = Ok s ∧
    attribute_carries s ATTR_ENCODED_PASSWORD n d (as_bytes password ++ [x00]) ∧
    carries_keys s n d use_chacha20 (Handshake.send_key m) (Handshake.recv_key m).
Proof.
  intros Hk Hrsa Hrng Henc Hser. unfold build_auth_message. rewrite Hk.
  destruct (pad_password_ok (as_bytes password) phrase n e d draw Hrng Henc Hrsa)
    as (padded & Hpad & Hpe & pad & Hpp).
  destruct (encode_carries padded phrase n e d _ pad Hrsa Hpe Hpp) as (c & Ec & Lc & Cc).
  cbn [mbind outcome_bind]. rewrite Hpad. cbn [mbind outcome_bind]. rewrite Ec.
  cbn [mbind outcome_bind]. destruct Henc as (Hne & _ & Hph).
  destruct (auth_attributes c phrase n e d use_chacha20 (S draw) Hrng Hrsa Hne Hph Lc)
    as (s & sk & rk & -> & Hs & Hlen & Hg & Hck).
  cbn [mbind outcome_bind]. cbn [serial_next fst snd].
  set (h := MessageHeader_new _ _ _ _ _).
  assert (header_ok h) as Hh.
  { subst h. unfold header_ok, MessageHeader_new.
    cbn [message_length command Framing.serial num_attributes attribute_data_len num_result_parts].
    split_and!; [apply wrap_in_range|vm_range|exact Hser|apply wrap_in_range|
                 apply wrap_in_range|vm_range]. }
  eexists _, h, s. split; [reflexivity|]. cbn [wire_bytes Handshake.send_key Handshake.recv_key].
  rewrite take_app_length', drop_app_length' by (by rewrite length_header_serialize).
  rewrite header_parse_serialize by done. split_and!; try done.
  - subst h. cbn [message_length MessageHeader_new]. by apply wrap_id.
  - rewrite <- (app_nil_r (AttributeSet_serialize s)). by apply parse_attributes_prefix.
  - by apply Cc.
Qed.
End AuthMessage.

(** ** At a concrete key *)
Definition z_biguint : BigUint := {|
  from_bytes_be := be_val;
  to_bytes_be z := be_bytes (S (Z.to_nat (Z.log2 z / 8))) z;
  bits z := if z =? 0 then 0 else Z.log2 z + 1;
  modpow b e n := if n <=? 0 then None else Some (b ^ e mod n);
|}.

#[global] Instance z_biguint_laws : BigUintLaws z_biguint.
Proof.
  assert (∀ k, 256 ^ Z.of_nat k = 2 ^ (8 * Z.of_nat k)) as H256
    by (intros k; rewrite Z.pow_mul_r by lia; done).
  split; cbn [from_bytes_be to_bytes_be bits modpow z_biguint].
  - done.
  - intros z Hz. rewrite be_val_bytes. apply Z.mod_small. split; [done|].
    destruct (decide (z = 0)) as [->|Hne]; [apply Z.pow_pos_nonneg; lia|].
    rewrite H256. apply Z.log2_lt_pow2; [lia|].
    pose proof (Z.div_mod (Z.log2 z) 8 ltac:(lia)). pose proof (Z.mod_pos_bound (Z.log2 z) 8 ltac:(lia)).
    pose proof (Z.log2_nonneg z). lia.
  - intros z k [Hz Hk] H0. rewrite length_be_bytes.
    destruct (decide (z = 0)) as [->|Hne]; [change (Z.log2 0 / 8) with 0; lia|].
    rewrite H256 in Hk. apply Z.log2_lt_pow2 in Hk; [|lia].
    assert (Z.log2 z / 8 < Z.of_nat k) by (apply Z.div_lt_upper_bound; lia). lia.
  - intros z Hz. destruct (Z.eqb_spec z 0); [done|]. pose proof (Z.log2_nonneg z). lia.
  - intros b e n Hn _. by destruct (Z.leb_spec n 0); [lia|].
Qed.

(** A random source, and a key pair whose encryption is the identity. *)
Definition sevens : SecureRandom := λ _ n, Some (replicate n x07).

#[global] Instance sevens_laws : SecureRandomLaws sevens.
Proof. intros k n bs [= <-]. apply length_replicate. Qed.

Definition sample_modulus : Z := 256 ^ 64.
Definition sample_key : list byte := raw_key 66 sample_modulus 1.

Lemma sample_rsa_pair : rsa_pair sample_modulus 1 1.
Proof.
  unfold rsa_pair, sample_modulus. split; [by vm_compute|]. split; [done|]. split; [done|].
  intros m Hm. rewrite !Z.pow_1_r. by rewrite (Z.mod_small m) by exact Hm; apply Z.mod_small.
Qed.

Lemma auth_message_read_witness :
  ∃ m h s, build_auth_message (H := dev_profile) (H0 := z_biguint) (H1 := sevens) "exasol"
             sample_key (replicate 40 x55) SerialCounter_new true 0
           = Ok (m, {| next := 2 |}) ∧
    parse_attributes (drop HEADER_SIZE (wire_bytes m)) (num_attributes h) = Ok s ∧
    attribute_carries s ATTR_ENCODED_PASSWORD sample_modulus 1 (as_bytes "exasol" ++ [x00]) ∧
    attribute_carries s ATTR_CLIENT_SEND_KEY sample_modulus 1 (replicate 32 x07) ∧
    Handshake.send_key m = replicate 32 x07.
Proof.
  destruct (auth_message_read (H := dev_profile) (H0 := z_biguint_laws) (H1 := sevens_laws)
    "exasol" sample_key (replicate 40 x55) SerialCounter_new sample_modulus 1 1 true 0)
    as (m & h & s & Hm & _ & _ & _ & _ & Hs & Hp & Hk).
  - vm_compute. reflexivity.
  - exact sample_rsa_pair.
  - intros k n. by eexists.
  - split_and!; [done|vm_compute; discriminate|vm_compute; discriminate].
  - vm_range.
  - assert (Handshake.send_key m = replicate 32 x07) as Hk32
      by (vm_compute in Hm; injection Hm as <-; reflexivity).
    exists m, h, s. destruct Hk as (_ & _ & Hk & _). rewrite Hk32 in Hk.
    split; [exact Hm|]. split; [exact Hs|]. split; [exact Hp|]. split; [exact Hk|exact Hk32].
Defined.
