(* ===== verification/Tls.v ===== *)
(** * Sockets and the TLS client step

    A TCP connection as the bytes the peer will deliver and the bytes sent so far, the
    operations of the runtime on it (the class [Network]), and [transport/tls.rs]: the
    certificate verifiers and the TLS handshake. rustls is the class [Rustls]. *)
From S2P Require Import Prelude MachineInt RustStr Errors Effect Json Messages Lifecycle.

#[local] Open Scope Z_scope.

(** An open connection: every byte the peer will send before it closes or resets the
    connection, and every byte accepted for sending. Over TLS these are the bytes inside
    the tunnel. *)
Record Socket := { inbound : list byte; sent : list byte }.

#[global] Instance Socket_eq_dec : EqDecision Socket.
Proof. solve_decision. Defined.

(** tokio: how long an operation waits, the outcome of a connect, the errors of writes
    (how many bytes were written before it) and flushes, and the text of a read error. *)
Class Network := {
  io_delay : Socket → nat;
  connect_delay : nat;
  tcp_connect : string → Socket + string;
  nodelay_error : Socket → option string;
  write_error : Socket → list byte → option (nat * string);
  flush_error : Socket → option string;
  read_error : string;
}.

(** rustls's trait [ServerCertVerifier]: the error of a rejected certificate for a host, and
    of a rejected signature with a certificate over a handshake message, for TLS 1.2 and 1.3
    alike. *)
Record ServerCertVerifier := {
  verify_server_cert : list byte → string → option string;
  verify_tls_signature : list byte → list byte → list byte → option string;
}.

(** A [rustls::ClientConfig]: the trusted roots, or a verifier in their place. *)
Inductive ClientConfig :=
| NativeRoots
| CustomCertificateVerifier (v : ServerCertVerifier).

(** rustls and aws-lc: the digest, the check of a host name, the text of a general error,
    and the handshake on an open socket for a host, which gives the socket inside the tunnel
    or the text of its error. *)
Class Rustls := {
  sha256 : list byte → list byte;
  server_name_error : string → option string;
  general_error_text : string → string;
  tls_delay : Socket → nat;
  tls_connect : ClientConfig → string → Socket → Socket + string;
}.

Section Tls.
Context `{Rustls}.

(** The lower-case hexadecimal digest of a certificate. *)
Definition fingerprint_of (cert : list byte) : string := join "" (show_hex_byte <$> sha256 cert).

(** The signature of the handshake is never looked at. *)
(* code: transport/tls.rs 112-136 accept_any_handshake_signature *)
Definition accept_any_handshake_signature (cert message dss : list byte) : option string := None.

(* code: transport/tls.rs 138-156 NoVerifier *)
Definition NoVerifier : ServerCertVerifier := {|
  verify_server_cert end_entity server_name := None;
  verify_tls_signature := accept_any_handshake_signature;
|}.

(* code: transport/tls.rs 160-197 FingerprintVerifier *)
Definition FingerprintVerifier (expected_fingerprint : string) : ServerCertVerifier := {|
  verify_server_cert end_entity server_name :=
    let actual := fingerprint_of end_entity in
    if String.eqb actual expected_fingerprint then None
    else Some (general_error_text ("Certificate fingerprint mismatch: expected "
                                   +:+ expected_fingerprint +:+ ", got " +:+ actual));
  verify_tls_signature := accept_any_handshake_signature;
|}.

(* code: transport/tls.rs 32-63 client_config *)
Definition client_config (fingerprint : option string) (validate : bool) : ClientConfig :=
  match fingerprint with
  | Some fingerprint => CustomCertificateVerifier (FingerprintVerifier fingerprint)
  | None => if validate then NativeRoots else CustomCertificateVerifier NoVerifier
  end.

(* code: transport/tls.rs 65-86 client_handshake *)
Definition client_handshake {T} (tcp : Socket) (host : string) (config : ClientConfig) : io T Socket :=
  match server_name_error host with
  | Some e => fail (TlsError ("Invalid server name: " +:+ e))
  | None =>
    _ ← await (tls_delay tcp);
    match tls_connect config host tcp with
    | inl tunnel => mret tunnel
    | inr e => fail (TlsError e)
    end
  end.

(** ** Properties *)
Lemma client_handshake_in_time {T} tcp host v :
  effects (in_time (T := T)) (client_handshake tcp host v).
Proof. unfold client_handshake. effects. Qed.

Lemma client_handshake_keeps {T} tcp host v s o s' :
  client_handshake (T := T) tcp host v s = (o, s') → s'.2 = s.2.
Proof.
  assert (effects (λ s s' : World * T, s'.2 = s.2) (client_handshake tcp host v)) as He.
  { assert (PreOrder (λ s s' : World * T, s'.2 = s.2)) by (split; [done|congruence]).
    unfold client_handshake. effects. intros [w t]. unfold await. by repeat case_match. }
  intros Hr. specialize (He s). by rewrite Hr in He.
Qed.

(** Which peers the verifiers of the two configurations without trusted roots accept: with a
    fingerprint those whose certificate has it, whatever the host and whether or not they
    signed the handshake with its key, so that a peer which merely replays the pinned
    certificate passes; without validation every peer. *)
Theorem verifiers_accept fingerprint v :
  client_config fingerprint false = CustomCertificateVerifier v →
  (∀ cert host, verify_server_cert v cert host = None ↔
     ∀ expected, fingerprint = Some expected → fingerprint_of cert = expected) ∧
  (∀ cert message dss, verify_tls_signature v cert message dss = None).
Proof.
  destruct fingerprint as [expected|]; intros [= <-]; cbn; (split; [|done]); intros cert host;
    [|naive_solver].
  destruct (String.eqb_spec (fingerprint_of cert) expected); naive_solver.
Qed.
End Tls.
