(* ===== verification/HttpTunnel.v ===== *)
(** * The data tunnel

    [transport/http_transport.rs]: reading and writing HTTP on a byte stream, forwarding
    an EXPORT body to its consumer, serving a Parquet file by byte ranges, and the client
    that owns the tunnel with its deferred TLS handshake. *)
From S2P Require Import Prelude MachineInt RustStr StrText Errors HttpWire Effect Json.
From S2P Require Import Messages Lifecycle Tls.

#[local] Open Scope Z_scope.

(** A stream together with what else an operation works on. *)
Abbreviation sio X := (io (Socket * X)).

(** tokio, as far as [Network] does not have it: how many bytes a read returns (or the
    error of a connection that was reset), the errors of a shutdown, and the TLS server
    side: how long an accept takes, and the tunnel it gives for a certificate. *)
Class TunnelNetwork := {
  read_some : Socket → nat → nat + string;
  shutdown_error : Socket → option string;
  accept_delay : Socket → nat;
  tls_accept : list byte * list byte → Socket → Socket + string;
}.

(** ** Streams *)
Section Stream.
Context `{Clock, Network, UnicodeCase} {X : Type}.

Definition the_socket : sio X Socket := λ s, (Ok s.2.1, s).
Definition put_socket (k : Socket) : sio X unit := modify (λ '(w, (_, x)), (w, (k, x))).
Definition the_rest : sio X X := λ s, (Ok s.2.2, s).
Definition put_rest (x : X) : sio X unit := modify (λ '(w, (k, _)), (w, (k, x))).

(** [stream.read_exact(buf).await.map_err(err)]. *)
Definition read_exact (err : string → TransportError) (n : nat) : sio X (list byte) :=
  k ← the_socket;
  _ ← await (io_delay k);
  if (n <=? length (inbound k))%nat then
    _ ← put_socket {| inbound := drop n (inbound k); sent := sent k |};
    mret (take n (inbound k))
  else
    _ ← put_socket {| inbound := []; sent := sent k |};
    fail (err read_error).

(** [stream.write_all(data).await.map_err(err)] and [stream.flush()]. *)
Definition write_all (err : string → TransportError) (data : list byte) : sio X unit :=
  k ← the_socket;
  _ ← await (io_delay k);
  match write_error k data with
  | Some (n, e) =>
    _ ← put_socket {| inbound := inbound k; sent := sent k ++ take n data |};
    fail (err e)
  | None => put_socket {| inbound := inbound k; sent := sent k ++ data |}
  end.

Definition flush (err : string → TransportError) : sio X unit :=
  k ← the_socket;
  _ ← await (io_delay k);
  match flush_error k with
  | Some e => fail (err e)
  | None => mret ()
  end.

(** The rounds of a loop that takes at least a byte each time. *)
Definition rounds : sio X nat := k ← the_socket; mret (S (length (inbound k))).

(** A loop out of fuel; the rounds are enough, so that it never is. *)
Definition exhausted {A} : sio X A := pure_call Panic.

Definition line_of (err : string → TransportError) (line : list byte) : sio X string :=
  try (map_err (λ e, err (show_utf8_error e)) (from_utf8 line)).

(* code: transport/http_transport.rs 994-1015 read_line *)
Fixpoint read_line_from (err : string → TransportError) (fuel : nat) (line : list byte)
    : sio X string :=
  match fuel with
  | O => exhausted
  | S fuel =>
    b ← read_exact err 1;
    if decide (b = [x0d]) then
      b ← read_exact err 1;
      if decide (b = [x0a]) then line_of err line
      else read_line_from err fuel (line ++ x0d :: b)
    else read_line_from err fuel (line ++ b)
  end.

(* code: transport/http_transport.rs 994-998 read_line *)
Definition read_line (err : string → TransportError) : sio X string :=
  n ← rounds; read_line_from err n [].

(** ** Requests *)
(* code: transport/http_transport.rs 1379-1394 parse_http_request *)
Fixpoint read_headers (fuel : nat) (headers : gmap string string)
    : sio X (gmap string string) :=
  match fuel with
  | O => exhausted
  | S fuel =>
    line ← read_line (λ e, ProtocolError ("Failed to read header line: " +:+ e));
    if String.eqb line "" then mret headers
    else read_headers fuel (add_header line headers)
  end.

(* code: transport/http_transport.rs 1351-1401 parse_http_request *)
Definition parse_http_request : sio X HttpRequest :=
  request_line ← read_line (λ e, ProtocolError ("Failed to read request line: " +:+ e));
  '(method, path) ← try (parse_request_line request_line);
  n ← rounds;
  headers ← read_headers n ∅;
  mret {| method := method; path := path; headers := headers |}.
End Stream.

(** ** The EXA handshake *)
(* code: transport/http_transport.rs 190-213 perform_handshake *)
Definition perform_handshake `{Clock, Network} {X} : sio X (string * Z) :=
  _ ← write_all (λ e, IoError ("Failed to send magic packet: " +:+ e)) generate_magic_packet;
  _ ← flush (λ e, IoError ("Failed to flush magic packet: " +:+ e));
  response ← read_exact (λ e, IoError ("Failed to read response packet: " +:+ e))
               EXA_RESPONSE_PACKET_SIZE;
  try (parse_response_packet response).

(** ** Forwarding an EXPORT body

    The sending end of the channel: the pieces accepted so far, and how many more the
    consumer takes before it closes its end, if it does. *)
Record Sink := { delivered : list (list byte); room : option nat }.

(** How long a piece waits until the channel has space. *)
Class Consumer := send_delay : Sink → nat.

Section Forward.
Context `{Clock, Network, UnicodeCase, Consumer}.

(** [let _ = sink.send(piece).await]. *)
Definition send_piece (piece : list byte) : sio Sink unit :=
  k ← the_rest;
  _ ← await (send_delay k);
  match room k with
  | Some O => mret ()
  | r => put_rest {| delivered := delivered k ++ [piece]; room := pred <$> r |}
  end.

(* code: transport/http_transport.rs 1053-1065 forward_sized_body *)
Fixpoint forward_pieces (fuel : nat) (len remaining : Z) : sio Sink unit :=
  if remaining <=? 0 then mret ()
  else
    match fuel with
    | O => exhausted
    | S fuel =>
      piece ← read_exact
        (λ e, IoError ("Failed to read body: " +:+ show_nat remaining +:+ " of "
                       +:+ show_nat len +:+ " bytes still expected: " +:+ e))
        (Z.to_nat (Z.min remaining EXPORT_PIECE_MAX_BYTES));
      _ ← send_piece piece;
      forward_pieces fuel len (remaining - Z.of_nat (length piece))
    end.

(* code: transport/http_transport.rs 1048-1053 forward_sized_body *)
Definition forward_sized_body (len : Z) : sio Sink unit :=
  n ← rounds; forward_pieces n len len.

(* code: transport/http_transport.rs 1025-1042 forward_chunked_body *)
Fixpoint forward_chunks (fuel : nat) : sio Sink unit :=
  match fuel with
  | O => exhausted
  | S fuel =>
    size_line ← read_line (λ e, ProtocolError ("Failed to read chunk size: " +:+ e));
    chunk_size ← try (parse_chunk_size size_line);
    _ ← forward_sized_body chunk_size;
    _ ← read_exact (λ e, ProtocolError ("Failed to read the CRLF after a "
                         +:+ show_nat chunk_size +:+ "-byte chunk: " +:+ e)) 2;
    if chunk_size =? 0 then mret () else forward_chunks fuel
  end.

(* code: transport/http_transport.rs 1021-1025 forward_chunked_body *)
Definition forward_chunked_body : sio Sink unit := n ← rounds; forward_chunks n.
End Forward.

(** ** Serving a Parquet file

    The file may change while it is served: its bytes at each instant. *)
Record FileSource := { file_at : Z → list byte; position : Z }.

(** The errors of seeks and reads on a file, and the text of a read past its end. *)
Class FileIo := {
  seek_error : FileSource → option string;
  file_error : FileSource → option string;
  file_eof : string;
}.

(** The buffer that every response copies through holds [HTTP_CHUNK_SIZE] bytes; what
    is left in it from the last copy is never read. *)
(* code: transport/http_transport.rs 1122-1128 SeekableFile *)
Record SeekableFile := { source : FileSource; file_len : Z }.

Section Serve.
Context `{Clock, Network, UnicodeCase, FileIo}.

(** [source.seek(..).await]: [target] is the position to go to. *)
Definition seek (err : string → TransportError) (target : FileSource → World → Z)
    (f : SeekableFile) : sio SeekableFile Z := λ '(w, (k, x)),
  match seek_error (source f) with
  | Some e => (Err (Failed (err e)), (w, (k, x)))
  | None =>
    let p := target (source f) w in
    (Ok p, (w, (k, {| source := {| file_at := file_at (source f); position := p |};
                      file_len := file_len f |})))
  end.

(** [source.read_exact(piece).await]. *)
Definition read_file (err : string → TransportError) (n : nat)
    : sio SeekableFile (list byte) := λ '(w, (k, f)),
  let bytes := file_at (source f) (now w) in
  let got := take n (drop (Z.to_nat (position (source f))) bytes) in
  match file_error (source f) with
  | Some e => (Err (Failed (err e)), (w, (k, f)))
  | None =>
    let f := {| source := {| file_at := file_at (source f);
                             position := position (source f) + Z.of_nat (length got) |};
                file_len := file_len f |} in
    if (length got <? n)%nat then (Err (Failed (err file_eof)), (w, (k, f)))
    else (Ok got, (w, (k, f)))
  end.

(* code: transport/http_transport.rs 1134-1143 SeekableFile::open *)
Definition SeekableFile_open (f : FileSource) : sio SeekableFile unit :=
  len ← seek (λ e, IoError ("Failed to determine the Parquet file size: " +:+ e))
          (λ f w, Z.of_nat (length (file_at f (now w)))) {| source := f; file_len := 0 |};
  f ← the_rest;
  put_rest {| source := source f; file_len := len |}.

(* code: transport/http_transport.rs 1215-1228 SeekableFile::write_span_response *)
Fixpoint copy_pieces (fuel : nat) (start span_len remaining : Z) : sio SeekableFile unit :=
  if remaining <=? 0 then mret ()
  else
    match fuel with
    | O => exhausted
    | S fuel =>
      let piece_len := Z.min remaining HTTP_CHUNK_SIZE in
      piece ← read_file
        (λ e, IoError ("Failed to read the Parquet file: " +:+ show_nat remaining +:+ " of "
                       +:+ show_nat span_len +:+ " bytes from byte " +:+ show_nat start
                       +:+ " still expected: " +:+ e)) (Z.to_nat piece_len);
      _ ← write_all (λ e, IoError ("Failed to write response body: " +:+ e)) piece;
      copy_pieces fuel start span_len (remaining - piece_len)
    end.

(* code: transport/http_transport.rs 1191-1233 SeekableFile::write_span_response *)
Definition write_span_response (head : string) (start last : Z) : sio SeekableFile unit :=
  let span_len := last - start in
  _ ← write_all (λ e, IoError ("Failed to write response head: " +:+ e)) (as_bytes head);
  f ← the_rest;
  _ ← seek (λ e, IoError ("Failed to seek to byte " +:+ show_nat start
                          +:+ " of the Parquet file: " +:+ e)) (λ _ _, start) f;
  _ ← copy_pieces (S (Z.to_nat (span_len / HTTP_CHUNK_SIZE))) start span_len span_len;
  flush (λ e, IoError ("Failed to flush response: " +:+ e)).

(** A bare response with its two error texts. *)
Definition write_short (what : string) (text : string) : sio SeekableFile unit :=
  _ ← write_all (λ e, IoError ("Failed to write " +:+ what +:+ ": " +:+ e)) (as_bytes text);
  flush (λ e, IoError ("Failed to flush " +:+ what +:+ ": " +:+ e)).

(* code: transport/http_transport.rs 1249-1262 write_file_size_response *)
Definition write_file_size_response (len : Z) : sio SeekableFile unit :=
  write_short "HEAD response"
    ("HTTP/1.1 200 OK" +:+ crlf +:+ "Content-Length: " +:+ show_nat len +:+ crlf +:+ crlf).

(* code: transport/http_transport.rs 1265-1277 write_bad_request_response *)
Definition write_bad_request_response : sio SeekableFile unit :=
  write_short "400" ("HTTP/1.1 400 Bad Request" +:+ crlf +:+ crlf).

(* code: transport/http_transport.rs 1172-1175 SeekableFile::serve_byte_range *)
Definition range_head (start clamped_end len : Z) : string :=
  "HTTP/1.1 206 Partial Content" +:+ crlf
  +:+ "Content-Length: " +:+ show_nat (clamped_end - start + 1) +:+ crlf
  +:+ "Content-Range: bytes " +:+ show_nat start +:+ "-" +:+ show_nat clamped_end +:+ "/"
  +:+ show_nat len +:+ crlf +:+ crlf.

(* code: transport/http_transport.rs 1150-1178 SeekableFile::serve_byte_range *)
Definition serve_byte_range (range_header : string) : sio SeekableFile unit :=
  f ← the_rest;
  match parse_byte_range range_header with
  | None => write_bad_request_response
  | Some (start, last) =>
    if (file_len f =? 0) || (file_len f <=? start) then write_bad_request_response
    else
      let clamped_end := Z.min last (file_len f - 1) in
      if clamped_end <? start then write_bad_request_response
      else write_span_response (range_head start clamped_end (file_len f))
             start (clamped_end + 1)
  end.

(* code: transport/http_transport.rs 1181-1187 SeekableFile::serve_whole_file *)
Definition serve_whole_file : sio SeekableFile unit :=
  f ← the_rest;
  write_span_response
    ("HTTP/1.1 200 OK" +:+ crlf +:+ "Content-Length: " +:+ show_nat (file_len f)
     +:+ crlf +:+ crlf) 0 (file_len f).

(** An action whose failure is a value; a cancellation is not. *)
Definition caught {X A} (m : sio X A) : sio X (A + TransportError) := λ s,
  match m s with
  | (Ok a, s) => (Ok (inl a), s)
  | (Err (Failed e), s) => (Ok (inr e), s)
  | (Err Cancelled, s) => (Err Cancelled, s)
  | (Panic, s) => (Panic, s)
  end.

(* code: transport/http_transport.rs 1092-1119 serve_parquet_range_requests *)
Fixpoint serve_requests (fuel : nat) : sio SeekableFile unit :=
  match fuel with
  | O => exhausted
  | S fuel =>
    request ← caught parse_http_request;
    match request with
    | inr (IoError _) | inr (ProtocolError _) => mret ()
    | inr e => fail e
    | inl request =>
      match method request with
      | Head => f ← the_rest; _ ← write_file_size_response (file_len f); serve_requests fuel
      | Get =>
        _ ← match headers request !! "range"%string with
            | Some range_header => serve_byte_range range_header
            | None => serve_whole_file
            end;
        serve_requests fuel
      | Put =>
        _ ← caught (write_all IoError
                      (as_bytes ("HTTP/1.1 405 Method Not Allowed" +:+ crlf +:+ crlf)));
        _ ← caught (flush IoError);
        fail (ProtocolError "Unexpected PUT in Parquet import handler")
      end
    end
  end.

(* code: transport/http_transport.rs 1086-1120 serve_parquet_range_requests *)
Definition serve_parquet_range_requests (f : FileSource) : sio SeekableFile unit :=
  _ ← SeekableFile_open f; n ← rounds; serve_requests n.
End Serve.
