(* ===== verification/HttpClient.v ===== *)
(** * The client of the data tunnel

    [transport/http_transport.rs]: [HttpTransportClient], which connects to Exasol,
    completes a pending TLS handshake inside its first read or write, and answers the
    requests of IMPORT and EXPORT. *)
From S2P Require Import Prelude MachineInt RustStr StrText Errors HttpWire Effect Json.
From S2P Require Import Messages Lifecycle Tls HttpTunnel.

#[local] Open Scope Z_scope.

(** ** Certificates *)
(* code: transport/http_transport.rs 215-226 TlsCertificate *)
Record TlsCertificate := {
  certificate_der : list byte;
  private_key_der : list byte;
  public_key_der : list byte;
  fingerprint : string;
}.

(** rcgen and rustls: the key pair of the [k]-th draw from the random source (private and
    public key in DER), the errors of the certificate parameters for a host name, the
    self-signed certificate of a key, and the errors of a server configuration. *)
Class CertLib := {
  key_pair : nat → list byte * list byte + string;
  certificate_params_error : string → option string;
  self_signed : list byte → list byte + string;
  private_key_error : list byte → option string;
  server_config_error : list byte → list byte → option string;
}.

(** A result of a library with the error's text. *)
Definition lib_call {T A} (err : string → TransportError) (r : A + string) : io T A :=
  match r with inl a => mret a | inr e => fail (err e) end.
Definition lib_check {T} (err : string → TransportError) (e : option string) : io T unit :=
  match e with None => mret () | Some e => fail (err e) end.

Section Certificates.
Context `{CertLib, FingerprintLib} {T : Type}.

Definition draw : io T nat := λ '(w, t),
  (Ok (draws w), ({| now := now w; cutoff := cutoff w; draws := S (draws w) |}, t)).

(* code: transport/http_transport.rs 234-264 TlsCertificate::generate *)
Definition TlsCertificate_generate : io T TlsCertificate :=
  n ← draw;
  '(private_key, public_key) ←
    lib_call (λ e, TlsError ("Failed to generate key pair: " +:+ e)) (key_pair n);
  _ ← lib_check (λ e, TlsError ("Failed to create certificate params: " +:+ e))
        (certificate_params_error "localhost");
  cert ← lib_call (λ e, TlsError ("Failed to generate certificate: " +:+ e))
           (self_signed private_key);
  mret {| certificate_der := cert; private_key_der := private_key;
          public_key_der := public_key;
          fingerprint := compute_public_key_fingerprint public_key |}.

(** A server configuration: the certificate and its key. *)
(* code: transport/http_transport.rs 271-280 TlsCertificate::to_server_config *)
Definition to_server_config (c : TlsCertificate) : io T (list byte * list byte) :=
  _ ← lib_check (λ e, TlsError ("Failed to parse private key: " +:+ e))
        (private_key_error (private_key_der c));
  _ ← lib_check (λ e, TlsError ("Failed to create TLS config: " +:+ e))
        (server_config_error (certificate_der c) (private_key_der c));
  mret (certificate_der c, private_key_der c).
End Certificates.

(** ** The client *)
(* code: transport/http_transport.rs 300-303 TunnelIo *)
Inductive TunnelIo := PlainIo (k : Socket) | TlsIo (k : Socket).

Definition socket_of (io : TunnelIo) : Socket := match io with PlainIo k | TlsIo k => k end.
Definition with_socket (io : TunnelIo) (k : Socket) : TunnelIo :=
  match io with PlainIo _ => PlainIo k | TlsIo _ => TlsIo k end.

(* code: transport/http_transport.rs 305-310 PendingTlsHandshake *)
Record PendingTlsHandshake := {
  tcp_stream : Socket;
  acceptor : list byte * list byte;
  bound : Z;
}.

(* code: transport/http_transport.rs 332-338 TunnelStream *)
Inductive TunnelStream :=
| Open (io : TunnelIo)
| TlsHandshakePending (p : PendingTlsHandshake)
| ClosedTunnel.

(* code: transport/http_transport.rs 353-359 HttpTransportClient *)
Record HttpTransportClient := {
  stream : TunnelStream;
  internal_addr : string;
  tls_certificate : option TlsCertificate;
}.

Definition with_stream (c : HttpTransportClient) (s : TunnelStream) : HttpTransportClient :=
  {| stream := s; internal_addr := internal_addr c; tls_certificate := tls_certificate c |}.

(** The client together with what else an operation works on. *)
Abbreviation hio X := (io (HttpTransportClient * X)).

Section Client.
Context `{Clock, Network, UnicodeCase, TunnelNetwork, CertLib, FingerprintLib}.

(** A sub-action with a state of its own. *)
Definition with_local {T S A} (x : S) (m : io S A) : io T (A * S) := λ '(w, t),
  match m (w, x) with
  | (Ok a, (w, x)) => (Ok (a, x), (w, t))
  | (Err e, (w, _)) => (Err e, (w, t))
  | (Panic, (w, _)) => (Panic, (w, t))
  end.

(* code: transport/http_transport.rs 315-329 PendingTlsHandshake::complete *)
Definition complete {T} (p : PendingTlsHandshake) : io T Socket :=
  d ← SetupDeadline_start "HTTP tunnel setup" (bound p);
  deadline_run d TlsHandshake
    (_ ← await (accept_delay (tcp_stream p));
     lib_call (λ e, TlsError ("TLS handshake failed: " +:+ e))
       (tls_accept (acceptor p) (tcp_stream p))).

(* code: transport/http_transport.rs 450-456 connect_with_timeout *)
Definition connect_tcp {T} (addr : string) : io T Socket :=
  _ ← await connect_delay;
  lib_call (λ e, IoError ("Failed to connect to " +:+ addr +:+ ": " +:+ e)) (tcp_connect addr).

(* code: transport/http_transport.rs 441-484 connect_with_timeout *)
Definition connect_with_timeout {T} (host : string) (port : Z) (use_tls : bool)
    (setup_timeout : Z) : io T HttpTransportClient :=
  let addr := host +:+ ":" +:+ show_nat port in
  d ← SetupDeadline_start "HTTP tunnel setup" setup_timeout;
  tcp ← deadline_run d TcpConnect (connect_tcp addr);
  '((ip, internal_port), (tcp, _)) ←
    deadline_run d ExaHandshake (with_local (tcp, ()) perform_handshake);
  let internal_addr := ip +:+ ":" +:+ show_nat internal_port in
  if use_tls : bool then
    cert ← TlsCertificate_generate;
    config ← to_server_config cert;
    mret {| stream := TlsHandshakePending
              {| tcp_stream := tcp; acceptor := config; bound := setup_timeout |};
            internal_addr := internal_addr; tls_certificate := Some cert |}
  else
    mret {| stream := Open (PlainIo tcp); internal_addr := internal_addr;
            tls_certificate := None |}.

(* code: transport/http_transport.rs 388-390 HttpTransportClient::connect *)
Definition connect {T} (host : string) (port : Z) (use_tls : bool) : io T HttpTransportClient :=
  connect_with_timeout host port use_tls TUNNEL_SETUP_TIMEOUT.

(* code: transport/http_transport.rs 489-492 HttpTransportClient::internal_address *)
Definition internal_address (c : HttpTransportClient) : string := internal_addr c.

(* code: transport/http_transport.rs 502-507 HttpTransportClient::public_key_fingerprint *)
Definition public_key_fingerprint (c : HttpTransportClient) : option string :=
  fingerprint <$> tls_certificate c.

Section Operations.
Context {X : Type}.

Definition this_client : hio X HttpTransportClient := λ s, (Ok s.2.1, s).
Definition put_stream (s : TunnelStream) : hio X unit :=
  modify (λ '(w, (c, x)), (w, (with_stream c s, x))).

(* code: transport/http_transport.rs 595-598 HttpTransportClient::open_stream *)
Definition tunnel_closed : TransportError :=
  IoError "HTTP tunnel is closed: its TLS handshake failed or never ran".

(* code: transport/http_transport.rs 586-601 HttpTransportClient::open_stream *)
Definition open_stream : hio X TunnelIo :=
  c ← this_client;
  _ ← put_stream ClosedTunnel;
  _ ← match stream c with
      | TlsHandshakePending p => k ← complete p; put_stream (Open (TlsIo k))
      | state => put_stream state
      end;
  c ← this_client;
  match stream c with
  | Open io => mret io
  | _ => fail tunnel_closed
  end.

(** An operation on the stream inside the client. *)
Definition run_on {A} (m : sio X A) (io : TunnelIo) : hio X A := λ '(w, (c, x)),
  let '(o, (w, (k, x))) := m (w, (socket_of io, x)) in
  (o, (w, (with_stream c (Open (with_socket io k)), x))).
Definition on_stream {A} (m : sio X A) : hio X A := io ← open_stream; run_on m io.

(* code: transport/http_transport.rs 523-533 HttpTransportClient::write *)
Definition write (data : list byte) : hio X unit :=
  on_stream (_ ← write_all (λ e, IoError ("Failed to write data: " +:+ e)) data;
             flush (λ e, IoError ("Failed to flush data: " +:+ e))).

(** The bytes read: at most what has arrived and what the buffer holds, none only at the
    end of the stream. *)
(* code: transport/http_transport.rs 553-559 HttpTransportClient::read *)
Definition read (buf_len : nat) : hio X (list byte) :=
  on_stream
    (k ← the_socket;
     _ ← await (io_delay k);
     n ← lib_call (λ e, IoError ("Failed to read data: " +:+ e)) (read_some k buf_len);
     let n := Nat.min (Nat.max 1 n) (Nat.min buf_len (length (inbound k))) in
     _ ← put_socket {| inbound := drop n (inbound k); sent := sent k |};
     mret (take n (inbound k))).

(* code: transport/http_transport.rs 569-580 HttpTransportClient::shutdown *)
Definition shutdown : hio X unit :=
  let check k := lib_check (λ e, IoError ("Failed to shutdown connection: " +:+ e))
                   (shutdown_error k) in
  c ← this_client;
  match stream c with
  | Open io => _ ← await (io_delay (socket_of io)); check (socket_of io)
  | TlsHandshakePending p =>
    _ ← await (io_delay (tcp_stream p)); _ ← put_stream ClosedTunnel; check (tcp_stream p)
  | ClosedTunnel => mret ()
  end.

(* code: transport/http_transport.rs 616-618 HttpTransportClient::read_http_request *)
Definition read_http_request : hio X HttpRequest := on_stream parse_http_request.

(* code: transport/http_transport.rs 652-661 HttpTransportClient::write_http_response *)
Definition write_http_response (status_code : Z) (status_text : string)
    (headers : list (string * string)) (body : option (list byte)) : hio X unit :=
  write (build_http_response status_code status_text headers body).

(* code: transport/http_transport.rs 670-673 write_chunked_response_headers *)
Definition write_chunked_response_headers : hio X unit := write build_chunked_response_headers.

(* code: transport/http_transport.rs 686-692 HttpTransportClient::write_chunked_body *)
Definition write_chunked_body (data : list byte) : hio X unit :=
  match data with
  | [] => mret ()
  | _ => write (encode_chunk data)
  end.

(* code: transport/http_transport.rs 702-706 HttpTransportClient::write_final_chunk *)
Definition write_final_chunk : hio X unit := write (encode_chunk []).

(* code: transport/http_transport.rs 726-740 HttpTransportClient::handle_import_request *)
Definition handle_import_request : hio X HttpRequest :=
  request ← read_http_request;
  if decide (method request = Get) then
    _ ← write_chunked_response_headers; mret request
  else fail (ProtocolError ("Expected GET request for IMPORT, got "
                            +:+ show_method (method request))).
End Operations.

(* code: transport/http_transport.rs 633-638 HttpTransportClient::read_chunked_body *)
Definition read_chunked_body `{Consumer} : hio Sink unit := on_stream forward_chunked_body.

(* code: transport/http_transport.rs 814-840 HttpTransportClient::handle_export_request *)
Definition handle_export_request `{Consumer} : hio Sink HttpRequest :=
  request ← read_http_request;
  if decide (method request = Put) then
    _ ← (if is_chunked request then read_chunked_body
         else match content_length request with
              | Some len => on_stream (forward_sized_body len)
              | None => fail (ProtocolError
                                "PUT request has no Content-Length or Transfer-Encoding")
              end);
    _ ← write_http_response 200 "OK" [] None;
    mret request
  else fail (ProtocolError ("Expected PUT request for EXPORT, got "
                            +:+ show_method (method request))).

(* code: transport/http_transport.rs 786-794 handle_parquet_import_requests *)
Definition handle_parquet_import_requests `{FileIo} (f : FileSource) : hio SeekableFile unit :=
  on_stream (serve_parquet_range_requests f).
End Client.
