(* ===== verification/HttpRuns.v ===== *)
(** * Runs of the tunnel's operations

    How an operation ends when no timer runs and writing works: its outcome, the bytes of
    the socket, and what else it works on. Lines, requests and bodies are read from bytes
    that are known. *)
From S2P Require Import Prelude MachineInt RustStr StrText Errors HttpWire Effect Json.
From S2P Require Import Messages Lifecycle Tls HttpTunnel.
From Stdlib Require Import Ascii.

#[local] Open Scope Z_scope.

Definition ends {E T A} (m : action E (World * T) A) (s : T) (o : outcome E A) (s' : T) : Prop :=
  ∀ w, cutoff w = None → ∃ w', m (w, s) = (o, (w', s')) ∧ cutoff w' = None.

Section Ends.
Context {E T : Type}.

Lemma ends_ret {A} (a : A) (s : T) : ends (E := E) (mret a) s (Ok a) s.
Proof. intros w Hw. by exists w. Qed.

Lemma ends_bind {A B} (m : action E (World * T) A) (k : A → action E (World * T) B) a o s s1 s2 :
  ends m s (Ok a) s1 → ends (k a) s1 o s2 → ends (m ≫= k) s o s2.
Proof.
  intros Hm Hk w Hw. destruct (Hm w Hw) as (w1 & E1 & Hw1).
  destruct (Hk w1 Hw1) as (w2 & E2 & Hw2). exists w2. split; [|done].
  unfold mbind, action_bind. by rewrite E1.
Qed.

Lemma ends_bind_err {A B} (m : action E (World * T) A) (k : A → action E (World * T) B) e s s1 :
  ends m s (Err e) s1 → ends (m ≫= k) s (Err e) s1.
Proof.
  intros Hm w Hw. destruct (Hm w Hw) as (w1 & E1 & Hw1). exists w1. split; [|done].
  unfold mbind, action_bind. by rewrite E1.
Qed.

Lemma ends_await n (s : T) : ends (await n) s (Ok ()) s.
Proof. intros w Hw. unfold await. rewrite Hw. by eexists. Qed.

Lemma ends_try {A} (m : outcome TransportError A) a (s : T) :
  m = Ok a → ends (try m) s (Ok a) s.
Proof. intros -> w Hw. by exists w. Qed.

Lemma ends_fail {A} e (s : T) : ends (fail (A := A) e) s (Err (Failed e)) s.
Proof. intros w Hw. by exists w. Qed.

Lemma ends_modify (f : World * T → World * T) (g : T → T) s :
  (∀ w s, f (w, s) = (w, g s)) → ends (E := E) (modify f) s (Ok ()) (g s).
Proof. intros Hf w Hw. exists w. unfold modify. by rewrite Hf. Qed.
End Ends.

Definition pure_write `{Network} : Prop :=
  (∀ k data, write_error k data = None) ∧ ∀ k, flush_error k = None.

Definition got (k : Socket) (rest : list byte) : Socket := {| inbound := rest; sent := sent k |}.
Definition put (k : Socket) (bs : list byte) : Socket :=
  {| inbound := inbound k; sent := sent k ++ bs |}.

Lemma got_got k r1 r2 : got (got k r1) r2 = got k r2.
Proof. done. Qed.
Lemma put_put k b1 b2 : put (put k b1) b2 = put k (b1 ++ b2).
Proof. unfold put. cbn. by rewrite app_assoc. Qed.
Lemma put_nil k : put k [] = k.
Proof. destruct k. unfold put. cbn. by rewrite app_nil_r. Qed.

(** ** Words *)
Lemma split_words_graphic w fuel acc s :
  str_forall is_graphic w = true →
  split_words (str_len w + fuel) acc (w +:+ s) = split_words fuel (str_rev w +:+ acc) s.
Proof.
  revert acc. induction w as [|a w IH]; intros acc Hw.
  { by rewrite str_app_nil_l. }
  cbn [str_forall] in Hw. apply andb_true_iff in Hw as [Ha Hw].
  rewrite str_app_cons. change (str_len (String a w) + fuel)%nat with (S (str_len w + fuel)).
  cbn [split_words]. rewrite (strip_ws_graphic false) by done. rewrite IH by done. f_equal.
  change (String a w) with (String a "" +:+ w). rewrite str_rev_app, str_app_assoc. done.
Qed.

Lemma split_words_space fuel acc s :
  split_words (S fuel) acc (String " " s)
  = match acc with EmptyString => [] | _ => [str_rev acc] end ++ split_words fuel "" s.
Proof. cbn [split_words]. reflexivity. Qed.

(** [m ++ " " ++ p ++ " HTTP/1.1"] is three words. *)
Lemma split_request_line m p :
  m ≠ ""%string → p ≠ ""%string → str_forall is_graphic m = true → str_forall is_graphic p = true →
  split_whitespace (m +:+ " " +:+ p +:+ " HTTP/1.1") = [m; p; "HTTP/1.1"]%string.
Proof.
  intros Hm0 Hp0 Hm Hp. unfold split_whitespace. rewrite str_len_app, split_words_graphic by done.
  rewrite str_app_nil_r, !str_app_char. change (str_len (String " " ?s)) with (S (str_len s)).
  rewrite split_words_space, str_len_app, split_words_graphic by done.
  rewrite ?str_app_nil_r. change (" HTTP/1.1"%string) with (String " " "HTTP/1.1").
  change (str_len (String " " ?s)) with (S (str_len s)). rewrite split_words_space.
  apply str_rev_not_nil in Hm0, Hp0.
  destruct (str_rev m) eqn:Em; [done|]. rewrite <- Em. destruct (str_rev p) eqn:Ep; [done|].
  rewrite <- Ep, !str_rev_involutive. reflexivity.
Qed.

Lemma trim_space v : graphic_ends v = true → trim (String " " v) = v.
Proof.
  intros Hv. rewrite <- (trim_graphic v Hv) at 2. unfold trim. by f_equal.
Qed.

Lemma ascii_valid s : str_forall is_ascii_char s = true → valid_str s.
Proof.
  intros Hs. apply utf8_check_ascii. induction s as [|a s IH]; [constructor|].
  cbn [str_forall] in Hs. apply andb_true_iff in Hs as [Ha Hs].
  constructor; [|by apply IH]. by destruct a as [[] [] [] [] [] [] [] []].
Qed.

(** ** Streams *)
Section Stream.
Context `{Clock, Network, UnicodeCase} {X : Type}.

Lemma ends_the_socket k (x : X) : ends the_socket (k, x) (Ok k) (k, x).
Proof. intros w Hw. by exists w. Qed.

Lemma ends_the_rest k (x : X) : ends the_rest (k, x) (Ok x) (k, x).
Proof. intros w Hw. by exists w. Qed.

Lemma ends_put_rest k (x x' : X) : ends (put_rest x') (k, x) (Ok ()) (k, x').
Proof. intros w Hw. by exists w. Qed.

Lemma ends_put_socket k k' (x : X) : ends (put_socket k') (k, x) (Ok ()) (k', x).
Proof. intros w Hw. by exists w. Qed.

Lemma read_exact_ends err n k (x : X) bs rest :
  inbound k = bs ++ rest → length bs = n →
  ends (read_exact err n) (k, x) (Ok bs) (got k rest, x).
Proof.
  intros Hi <-. unfold read_exact. eapply ends_bind; [apply ends_the_socket|].
  eapply ends_bind; [apply ends_await|]. rewrite Hi, length_app.
  rewrite (proj2 (Nat.leb_le _ _)) by lia. rewrite drop_app_length, take_app_length.
  eapply ends_bind; [apply ends_put_socket|]. apply ends_ret.
Qed.

Lemma read_exact_short err n k (x : X) :
  (length (inbound k) < n)%nat →
  ends (read_exact err n) (k, x) (Err (Failed (err read_error))) (got k [], x).
Proof.
  intros Hl. unfold read_exact. eapply ends_bind; [apply ends_the_socket|].
  eapply ends_bind; [apply ends_await|]. rewrite (proj2 (Nat.leb_gt _ _)) by lia.
  eapply ends_bind; [apply ends_put_socket|]. apply ends_fail.
Qed.

Lemma write_all_ends err data k (x : X) :
  pure_write → ends (write_all err data) (k, x) (Ok ()) (put k data, x).
Proof.
  intros [Hw _]. unfold write_all. eapply ends_bind; [apply ends_the_socket|].
  eapply ends_bind; [apply ends_await|]. rewrite Hw. apply ends_put_socket.
Qed.

Lemma flush_ends err k (x : X) : pure_write → ends (flush err) (k, x) (Ok ()) (k, x).
Proof.
  intros [_ Hf]. unfold flush. eapply ends_bind; [apply ends_the_socket|].
  eapply ends_bind; [apply ends_await|]. rewrite Hf. apply ends_ret.
Qed.

Lemma rounds_ends k (x : X) : ends rounds (k, x) (Ok (S (length (inbound k)))) (k, x).
Proof. intros w Hw. by exists w. Qed.

(** ** Lines *)
Definition line_ok (s : string) : Prop := valid_str s ∧ contains_char cr s = false.

Definition line_bytes (s : string) : list byte := as_bytes (s +:+ crlf).

Lemma read_line_from_ends err s pre fuel k (x : X) rest :
  contains_char cr s = false → valid_str (str_of_bytes pre +:+ s) →
  inbound k = as_bytes s ++ as_bytes crlf ++ rest → (str_len s < fuel)%nat →
  ends (read_line_from err fuel pre) (k, x) (Ok (str_of_bytes pre +:+ s)) (got k rest, x).
Proof.
  revert pre fuel k. induction s as [|a s IH]; intros pre fuel k Hc Hv Hi Hf;
    (destruct fuel as [|fuel]; [unfold str_len in Hf; lia|]); cbn [read_line_from].
  - eapply ends_bind; [by apply (read_exact_ends _ 1 k x [x0d] (x0a :: rest))|].
    rewrite decide_True by done.
    eapply ends_bind; [by apply (read_exact_ends _ 1 _ x [x0a] rest)|].
    rewrite decide_True, got_got by done. rewrite str_app_nil_r in Hv |- *.
    unfold line_of. apply ends_try.
    rewrite <- (as_bytes_of_str pre) at 1. by rewrite from_utf8_as_bytes.
  - cbn [contains_char] in Hc. apply orb_false_iff in Hc as [Ha Hc].
    eapply ends_bind.
    { by apply (read_exact_ends _ 1 k x [byte_of_ascii a] (as_bytes s ++ as_bytes crlf ++ rest)). }
    rewrite decide_False.
    2:{ intros [= Hb]. apply (f_equal ascii_of_byte) in Hb.
        rewrite ascii_of_byte_of_ascii in Hb. by subst a. }
    assert (str_of_bytes (pre ++ [byte_of_ascii a]) +:+ s = str_of_bytes pre +:+ String a s) as E1.
    { rewrite <- (str_of_as_bytes (_ +:+ s)), <- (str_of_as_bytes (_ +:+ String a s)). f_equal.
      rewrite !as_bytes_app, !as_bytes_of_str, <- app_assoc. done. }
    rewrite <- E1 in Hv |- *. change (got k rest) with (got (got k (as_bytes s ++ as_bytes crlf ++ rest)) rest).
    apply IH; [done|done|done|]. unfold str_len in *. cbn [String.length] in Hf. lia.
Qed.

Lemma read_line_ends err s k (x : X) rest :
  line_ok s → inbound k = line_bytes s ++ rest →
  ends (read_line err) (k, x) (Ok s) (got k rest, x).
Proof.
  intros [Hv Hc] Hi. unfold read_line. eapply ends_bind; [apply rounds_ends|].
  unfold line_bytes in Hi. rewrite as_bytes_app, <- app_assoc in Hi.
  apply (read_line_from_ends err s []); [done|done|done|].
  rewrite Hi, length_app, length_as_bytes. lia.
Qed.

(** At the end of the stream there is no line. *)
Lemma read_line_at_end err k (x : X) :
  inbound k = [] → ends (read_line err) (k, x) (Err (Failed (err read_error))) (got k [], x).
Proof.
  intros Hi. unfold read_line. eapply ends_bind; [apply rounds_ends|]. rewrite Hi. cbn [length].
  cbn [read_line_from]. eapply ends_bind_err. apply read_exact_short. rewrite Hi. cbn. lia.
Qed.

(** ** Requests *)
Definition header_line (h : string * string) : string := h.1 +:+ ": " +:+ h.2.

Definition request_bytes (m : HttpMethod) (path : string) (hs : list (string * string))
    : list byte :=
  line_bytes (show_method m +:+ " " +:+ path +:+ " HTTP/1.1")
  ++ concat ((λ h, line_bytes (header_line h)) <$> hs) ++ line_bytes "".

(** No part holds a line break, the name no colon, and neither has white space at its
    ends. *)
Definition header_ok (h : string * string) : Prop :=
  line_ok (header_line h) ∧ contains_char ":" h.1 = false ∧
  graphic_ends h.1 = true ∧ graphic_ends h.2 = true.

Definition headers_of (hs : list (string * string)) : gmap string string :=
  foldl (λ m h, <[to_lowercase h.1 := h.2]> m) ∅ hs.

Lemma add_header_line h m :
  header_ok h → add_header (header_line h) m = <[to_lowercase h.1 := h.2]> m.
Proof.
  destruct h as [n v]. intros (_ & Hc & Hn & Hv). cbn [fst snd] in *.
  unfold add_header, header_line. cbn [fst snd].
  change (": " +:+ v) with (String ":" (String " " v)). rewrite split_once_cons by done.
  by rewrite trim_graphic, trim_space by done.
Qed.

Lemma read_headers_ends hs m fuel k (x : X) rest :
  Forall header_ok hs →
  inbound k = concat ((λ h, line_bytes (header_line h)) <$> hs) ++ line_bytes "" ++ rest →
  (length hs < fuel)%nat →
  ends (read_headers fuel m) (k, x)
    (Ok (foldl (λ m h, <[to_lowercase h.1 := h.2]> m) m hs)) (got k rest, x).
Proof.
  intros Hok. revert m fuel k. induction Hok as [|h hs Hh _ IH]; intros m fuel k Hi Hf;
    (destruct fuel as [|fuel]; [cbn in Hf; lia|]); cbn [read_headers].
  - eapply ends_bind; [apply (read_line_ends _ ""); [by split|exact Hi]|]. apply ends_ret.
  - cbn in Hi. rewrite <- app_assoc in Hi.
    eapply ends_bind; [apply read_line_ends; [apply Hh|exact Hi]|].
    assert (String.eqb (header_line h) "" = false) as ->.
    { apply String.eqb_neq. unfold header_line. by destruct h as [[|? ?] ?]. }
    rewrite add_header_line by done. cbn [foldl].
    eapply (IH _ fuel (got k _)); [done|cbn in Hf; lia].
Qed.

(** A path is a non-empty word. *)
Definition path_ok (path : string) : Prop :=
  path ≠ ""%string ∧ str_forall is_graphic path = true.

Lemma graphic_line s1 s2 s3 :
  str_forall is_graphic s1 = true → str_forall is_graphic s2 = true →
  str_forall is_ascii_char s3 = true → contains_char cr s3 = false →
  line_ok (s1 +:+ " " +:+ s2 +:+ s3).
Proof.
  assert (∀ s, str_forall is_graphic s = true →
    str_forall is_ascii_char s = true ∧ contains_char cr s = false) as Hg.
  { intros s Hs. split.
    - eapply str_forall_impl; [|exact Hs]. intros [[] [] [] [] [] [] [] []]; done.
    - eapply contains_char_forall; [|exact Hs]. done. }
  intros Ha Hb Hc Hc'. apply Hg in Ha as [Ha Ha'], Hb as [Hb Hb']. split.
  - apply ascii_valid. by rewrite !str_forall_app, Ha, Hb, Hc.
  - by rewrite !contains_char_app, Ha', Hb', Hc'.
Qed.

Lemma parse_http_request_ends m path hs k (x : X) rest :
  path_ok path → Forall header_ok hs → inbound k = request_bytes m path hs ++ rest →
  ends parse_http_request (k, x)
    (Ok {| method := m; path := path; headers := headers_of hs |}) (got k rest, x).
Proof.
  intros [Hp0 Hp] Hh Hi. unfold parse_http_request. unfold request_bytes in Hi.
  rewrite <- !app_assoc in Hi.
  eapply ends_bind; [apply read_line_ends; [|exact Hi]|].
  { by apply graphic_line; [destruct m| | |]. }
  eapply ends_bind.
  { apply ends_try. unfold parse_request_line.
    rewrite split_request_line by (by destruct m). by destruct m. }
  eapply ends_bind; [apply rounds_ends|].
  eapply ends_bind; [eapply read_headers_ends; [done|reflexivity|]|apply ends_ret].
  cbn [inbound got]. rewrite length_app. assert (length hs ≤ length (concat ((λ h, line_bytes (header_line h)) <$> hs)))%nat; [|lia].
  clear. induction hs as [|h hs IH]; [done|]. cbn [fmap list_fmap concat length]. rewrite length_app.
  unfold line_bytes at 1. rewrite length_as_bytes, str_len_app. cbn [str_len crlf String.length]. lia.
Qed.

Lemma parse_http_request_at_end k (x : X) :
  inbound k = [] →
  ends parse_http_request (k, x)
    (Err (Failed (ProtocolError ("Failed to read request line: " +:+ read_error)))) (got k [], x).
Proof. intros Hi. unfold parse_http_request. by eapply ends_bind_err, read_line_at_end. Qed.
End Stream.
