(* ===== verification/HttpBodies.v ===== *)
(** * Bodies that go through the tunnel

    What the consumer of an EXPORT receives, what Exasol reads of an IMPORT, and the byte
    ranges of a Parquet file that it asks for. *)
From S2P Require Import Prelude MachineInt RustStr StrText Errors HttpWire Effect Json Messages.
From S2P Require Import Lifecycle Tls HttpTunnel HttpClient HttpRuns.
From Stdlib Require Import Ascii.

#[local] Open Scope Z_scope.

(** ** What a consumer receives *)
Definition accept (k : Sink) (piece : list byte) : Sink :=
  match room k with
  | Some O => k
  | r => {| delivered := delivered k ++ [piece]; room := pred <$> r |}
  end.

Definition accept_all (k : Sink) (pieces : list (list byte)) : Sink := foldl accept k pieces.

Lemma accept_all_app k p1 p2 : accept_all k (p1 ++ p2) = accept_all (accept_all k p1) p2.
Proof. apply foldl_app. Qed.

Lemma accept_all_cons k p ps : accept_all k (p :: ps) = accept_all (accept k p) ps.
Proof. reflexivity. Qed.

(** A consumer that stays takes everything, one that closes early takes a prefix. *)
Lemma accept_all_delivered k pieces :
  delivered (accept_all k pieces)
  = delivered k ++ match room k with None => pieces | Some n => take n pieces end.
Proof.
  revert k. induction pieces as [|p pieces IH]; intros k.
  { cbn. destruct (room k); by rewrite ?take_nil, app_nil_r. }
  rewrite accept_all_cons, IH. unfold accept. destruct (room k) as [[|n]|] eqn:E; cbn [delivered room pred fmap option_fmap option_map].
  - by rewrite E, !app_nil_r.
  - by rewrite <- app_assoc.
  - by rewrite <- app_assoc.
Qed.

(** Sealed: 65536 is large for a unary number. *)
Definition piece_max_def : { n | n = Z.to_nat EXPORT_PIECE_MAX_BYTES }.
Proof. by eexists. Qed.
Definition piece_max : nat := proj1_sig piece_max_def.
Lemma piece_max_eq : piece_max = Z.to_nat EXPORT_PIECE_MAX_BYTES.
Proof. apply (proj2_sig piece_max_def). Qed.

Lemma piece_max_pos : (0 < piece_max)%nat.
Proof. rewrite piece_max_eq. unfold EXPORT_PIECE_MAX_BYTES. lia. Qed.

Lemma piece_max_min n :
  Z.to_nat (Z.min (Z.of_nat n) EXPORT_PIECE_MAX_BYTES) = Nat.min piece_max n.
Proof. rewrite piece_max_eq. unfold EXPORT_PIECE_MAX_BYTES. lia. Qed.


(** A chunk as the server writes it: its size line and its data. *)
Definition chunk_bytes (c : string * list byte) : list byte :=
  line_bytes c.1 ++ c.2 ++ as_bytes crlf.

Definition size_line (line : string) (n : Z) : Prop :=
  line_ok line ∧ parse_chunk_size line = Ok n.

Definition chunk_ok (c : string * list byte) : Prop :=
  c.2 ≠ [] ∧ size_line c.1 (Z.of_nat (length c.2)).

(** A chunked body: its chunks and the size line of its end. *)
Definition chunked_bytes (chunks : list (string * list byte)) (last : string) : list byte :=
  concat (chunk_bytes <$> chunks) ++ chunk_bytes (last, []).

Definition body_of (chunks : list (string * list byte)) : list byte := concat (chunks.*2).

(** The pieces that a chunked body is forwarded in. *)
Definition pieces_of (cs : list (string * list byte)) : list (list byte) :=
  concat ((λ c, chunks piece_max c.2) <$> cs).

Lemma concat_pieces cs : concat (pieces_of cs) = body_of cs.
Proof.
  unfold pieces_of, body_of. induction cs as [|c cs IH]; [done|]. cbn [fmap list_fmap concat].
  rewrite concat_app, IH, concat_chunks; [done|apply piece_max_pos].
Qed.

Lemma pieces_sizes cs : Forall (λ p, 0 < length p ≤ piece_max)%nat (pieces_of cs).
Proof.
  unfold pieces_of. induction cs as [|c cs IH]; [constructor|]. cbn [fmap list_fmap concat].
  apply Forall_app. split; [|done]. apply chunks_sizes, piece_max_pos.
Qed.

Section Bodies.
Context `{Clock, Network, UnicodeCase, Consumer}.

(** ** Forwarding *)
Lemma send_piece_ends p k x : ends (send_piece p) (k, x) (Ok ()) (k, accept x p).
Proof.
  unfold send_piece. eapply ends_bind; [apply ends_the_rest|].
  eapply ends_bind; [apply ends_await|]. unfold accept.
  destruct (room x) as [[|n]|]; [apply ends_ret|apply ends_put_rest..].
Qed.

Lemma forward_pieces_ends len data fuel k x rest :
  inbound k = data ++ rest → (length data < fuel)%nat →
  ends (forward_pieces fuel len (Z.of_nat (length data))) (k, x) (Ok ())
    (got k rest, accept_all x (chunks piece_max data)).
Proof.
  revert fuel k x. pattern data. apply (chunks_ind piece_max); clear data; [apply piece_max_pos|..].
  { intros fuel k x Hi Hf. cbn [app] in Hi. subst rest. replace (got k (inbound k)) with k by (by destruct k).
    destruct fuel; cbn; apply ends_ret. }
  intros data Hd IH fuel k x Hi Hf. destruct fuel as [|fuel]; [lia|]. cbn [forward_pieces].
  assert (0 < length data)%nat by (destruct data; [done|cbn; lia]).
  destruct (Z.leb_spec (Z.of_nat (length data)) 0); [lia|].
  assert (Z.to_nat (Z.min (Z.of_nat (length data)) EXPORT_PIECE_MAX_BYTES)
          = length (take piece_max data)) as -> by (by rewrite length_take, piece_max_min).
  rewrite <- (take_drop piece_max data), <- app_assoc in Hi at 1.
  eapply ends_bind; [apply (read_exact_ends _ _ k x _ _ Hi); reflexivity|].
  eapply ends_bind; [apply send_piece_ends|]. rewrite chunks_cons by (done || apply piece_max_pos).
  rewrite accept_all_cons.
  replace (Z.of_nat (length data) - Z.of_nat (length (take piece_max data)))
    with (Z.of_nat (length (drop piece_max data))) by (rewrite length_drop, length_take; lia).
  apply (IH fuel (got k _) _ eq_refl). pose proof piece_max_pos. rewrite length_drop. lia.
Qed.

Lemma forward_sized_body_ends data k x rest :
  inbound k = data ++ rest →
  ends (forward_sized_body (Z.of_nat (length data))) (k, x) (Ok ())
    (got k rest, accept_all x (chunks piece_max data)).
Proof.
  intros Hi. unfold forward_sized_body. eapply ends_bind; [apply rounds_ends|].
  apply forward_pieces_ends; [done|]. rewrite Hi, length_app. lia.
Qed.

(** Whole chunks are forwarded; what follows decides how the body ends. *)
Lemma forward_chunks_prefix cs fuel k x tail o s :
  Forall chunk_ok cs → inbound k = concat (chunk_bytes <$> cs) ++ tail →
  ends (forward_chunks fuel) (got k tail, accept_all x (pieces_of cs)) o s →
  ends (forward_chunks (length cs + fuel)) (k, x) o s.
Proof.
  intros Hcs. revert k x. unfold pieces_of.
  induction Hcs as [|c cs (Hd & Hcl & Hcp) _ IH]; intros k x Hi Hend.
  - cbn [fmap list_fmap concat app] in Hi. subst tail.
    replace (got k (inbound k)) with k in Hend by (by destruct k). exact Hend.
  - cbn [fmap list_fmap concat] in Hi, Hend. unfold chunk_bytes at 1 in Hi.
    rewrite <- !app_assoc in Hi.
    change (length (c :: cs) + fuel)%nat with (S (length cs + fuel)). cbn [forward_chunks].
    eapply ends_bind; [apply read_line_ends; [exact Hcl|exact Hi]|].
    eapply ends_bind; [apply ends_try, Hcp|].
    eapply ends_bind; [eapply (forward_sized_body_ends c.2); reflexivity|].
    eapply ends_bind; [by apply (read_exact_ends _ 2 _ _ (as_bytes crlf))|].
    destruct (Z.eqb_spec (Z.of_nat (length c.2)) 0); [destruct c.2; [done|cbn in *; lia]|].
    eapply (IH (got k _)); [reflexivity|]. rewrite accept_all_app in Hend. exact Hend.
Qed.

Lemma chunks_length cs : (length cs ≤ length (concat (chunk_bytes <$> cs)))%nat.
Proof.
  induction cs as [|c cs IH]; [done|]. cbn [fmap list_fmap concat length].
  rewrite length_app. unfold chunk_bytes at 1. rewrite !length_app. cbn. lia.
Qed.

Lemma forward_body_prefix cs k x tail o s :
  Forall chunk_ok cs → inbound k = concat (chunk_bytes <$> cs) ++ tail →
  (∀ fuel, ends (forward_chunks (S fuel)) (got k tail, accept_all x (pieces_of cs)) o s) →
  ends forward_chunked_body (k, x) o s.
Proof.
  intros Hcs Hi Hend. unfold forward_chunked_body. eapply ends_bind; [apply rounds_ends|].
  pose proof (chunks_length cs) as Hl.
  replace (S (length (inbound k))) with (length cs + S (length (inbound k) - length cs))%nat.
  - by eapply forward_chunks_prefix.
  - rewrite Hi, length_app. lia.
Qed.

Lemma forward_chunked_body_ends cs last k x rest :
  Forall chunk_ok cs → size_line last 0 → inbound k = chunked_bytes cs last ++ rest →
  ends forward_chunked_body (k, x) (Ok ()) (got k rest, accept_all x (pieces_of cs)).
Proof.
  intros Hcs [Hl Hp] Hi. unfold chunked_bytes in Hi. rewrite <- app_assoc in Hi.
  eapply forward_body_prefix; [done|exact Hi|]. intros fuel. cbn [forward_chunks].
  unfold chunk_bytes. cbn [fst snd app]. rewrite <- app_assoc.
  eapply ends_bind; [apply read_line_ends; [exact Hl|reflexivity]|].
  eapply ends_bind; [apply ends_try, Hp|].
  eapply ends_bind; [eapply (forward_sized_body_ends []); reflexivity|].
  eapply ends_bind; [by apply (read_exact_ends _ 2 _ _ (as_bytes crlf) rest)|]. apply ends_ret.
Qed.

(** A body that breaks off behind a chunk is refused. *)
Lemma forward_cut_body cs k x :
  Forall chunk_ok cs → inbound k = concat (chunk_bytes <$> cs) →
  ends forward_chunked_body (k, x)
    (Err (Failed (ProtocolError ("Failed to read chunk size: " +:+ read_error))))
    (got k [], accept_all x (pieces_of cs)).
Proof.
  intros Hcs Hi. eapply forward_body_prefix; [done|by rewrite app_nil_r|]. intros fuel.
  cbn [forward_chunks].
  apply ends_bind_err.
  by apply (read_line_at_end (λ e, ProtocolError ("Failed to read chunk size: " +:+ e)) (got k [])).
Qed.
End Bodies.

(** ** The client *)
Section ClientRuns.
Context `{Clock, Network, UnicodeCase, TunnelNetwork, CertLib, FingerprintLib}.

(** The client carries HTTP on [io]: at once, or after a TLS handshake that succeeds
    within its bound. *)
Definition serves (c : HttpTransportClient) (io : TunnelIo) : Prop :=
  stream c = Open io ∨
  ∃ p k, stream c = TlsHandshakePending p ∧ io = TlsIo k ∧
    tls_accept (acceptor p) (tcp_stream p) = inl k ∧
    Z.of_nat (accept_delay (tcp_stream p)) ≤ bound p.

Definition on (c : HttpTransportClient) (io : TunnelIo) (k : Socket) : HttpTransportClient :=
  with_stream c (Open (with_socket io k)).

Lemma complete_ends {T} p k (s : T) :
  (∀ z, representable z = true) →
  tls_accept (acceptor p) (tcp_stream p) = inl k →
  Z.of_nat (accept_delay (tcp_stream p)) ≤ bound p →
  ends (complete p) s (Ok k) s.
Proof.
  intros Hr Ha Hd w Hw. unfold complete, SetupDeadline_start, mbind, action_bind. rewrite Hr.
  unfold deadline_run. cbn [fst]. rewrite Hw. cbn [d_deadline]. unfold await, lib_call. rewrite Ha.
  cbn [cutoff now]. destruct (Z.ltb_spec (now w + bound p) (now w + Z.of_nat (accept_delay (tcp_stream p)))); [lia|].
  rewrite andb_false_r. by eexists.
Qed.

Lemma ends_this_client {X} c (x : X) : ends this_client (c, x) (Ok c) (c, x).
Proof. intros w Hw. by exists w. Qed.

Lemma open_stream_ends {X} c io (x : X) :
  (∀ z, representable z = true) → serves c io →
  ends open_stream (c, x) (Ok io) (with_stream c (Open io), x).
Proof.
  intros Hr Hs. unfold open_stream. eapply ends_bind; [apply ends_this_client|].
  eapply ends_bind; [apply (ends_modify _ (λ s, (with_stream s.1 ClosedTunnel, s.2))); by intros w' [c' x']|].
  eapply ends_bind.
  - instantiate (1 := (with_stream c (Open io), x)). cbn [fst snd]. destruct Hs as [->|(p & k & -> & -> & Ha & Hd)].
    + apply (ends_modify _ (λ s, (with_stream s.1 (Open io), s.2))); by intros w' [c' x'].
    + eapply ends_bind; [by apply complete_ends|].
      apply (ends_modify _ (λ s, (with_stream s.1 (Open (TlsIo k)), s.2))); by intros w' [c' x'].
  - eapply ends_bind; [apply ends_this_client|]. apply ends_ret.
Qed.

Lemma on_stream_ends {X A} (m : sio X A) c io x x' k' o :
  (∀ z, representable z = true) → serves c io →
  ends m (socket_of io, x) o (k', x') →
  ends (on_stream m) (c, x) o (on c io k', x').
Proof.
  intros Hr Hs Hm. unfold on_stream. eapply ends_bind; [by apply open_stream_ends|].
  intros w Hw. destruct (Hm w Hw) as (w' & E & Hw'). unfold run_on. rewrite E. by eexists.
Qed.

Lemma serves_on c io k : serves (on c io k) (with_socket io k).
Proof. by left. Qed.

Lemma on_on c io k k' : on (on c io k) (with_socket io k) k' = on c io k'.
Proof. by destruct io. Qed.

Lemma socket_of_with io k : socket_of (with_socket io k) = k.
Proof. by destruct io. Qed.

Lemma write_ends {X} data c io (x : X) :
  (∀ z, representable z = true) → pure_write → serves c io →
  ends (write data) (c, x) (Ok ()) (on c io (put (socket_of io) data), x).
Proof.
  intros Hr Hw Hs. unfold write. eapply on_stream_ends; [done..|].
  eapply ends_bind; [by apply write_all_ends|]. by apply flush_ends.
Qed.

(** The same once the stream is open. *)
Lemma on_stream_next {X A} (m : sio X A) c io x x' k k' o :
  (∀ z, representable z = true) → ends m (k, x) o (k', x') →
  ends (on_stream m) (on c io k, x) o (on c io k', x').
Proof.
  intros Hr Hm. rewrite <- (on_on c io k k'). apply on_stream_ends; [done|apply serves_on|].
  by rewrite socket_of_with.
Qed.

Lemma write_next {X} data c io k (x : X) :
  (∀ z, representable z = true) → pure_write →
  ends (write data) (on c io k, x) (Ok ()) (on c io (put k data), x).
Proof.
  intros Hr Hw. apply on_stream_next; [done|].
  eapply ends_bind; [by apply write_all_ends|]. by apply flush_ends.
Qed.

(** The body of a request, by its headers: chunked or of a stated length; its bytes, the
    data in it and the pieces it is forwarded in. *)
Inductive export_body (r : HttpRequest) : list byte → list byte → list (list byte) → Prop :=
| chunked_body cs last :
    is_chunked r = true → Forall chunk_ok cs → size_line last 0 →
    export_body r (chunked_bytes cs last) (body_of cs) (pieces_of cs)
| sized_body data :
    is_chunked r = false → content_length r = Some (Z.of_nat (length data)) →
    export_body r data data (chunks piece_max data).

Lemma export_pieces r bytes data pieces :
  export_body r bytes data pieces →
  concat pieces = data ∧ Forall (λ p, 0 < Z.of_nat (length p) ≤ EXPORT_PIECE_MAX_BYTES) pieces.
Proof.
  assert (∀ ps, Forall (λ p, 0 < length p ≤ piece_max)%nat ps →
    Forall (λ p : list byte, 0 < Z.of_nat (length p) ≤ EXPORT_PIECE_MAX_BYTES) ps) as Hf.
  { intros ps Hps. eapply Forall_impl; [exact Hps|]. intros p. cbn beta. rewrite piece_max_eq.
    unfold EXPORT_PIECE_MAX_BYTES. lia. }
  destruct 1 as [cs last _ Hc _|data _ _]; (split; [|apply Hf]).
  - apply concat_pieces.
  - apply pieces_sizes.
  - apply concat_chunks, piece_max_pos.
  - apply chunks_sizes, piece_max_pos.
Qed.

(** C19: an EXPORT through the tunnel: whatever chunks Exasol splits the body into, and
    also over a tunnel whose TLS handshake is still pending, the request is answered 200
    OK after the body was read to its last byte and no further; the consumer is handed
    the body in order in pieces of at most 64 KiB - all of it, or the pieces up to the
    one after which it stopped. *)
Theorem export_body_delivered `{Consumer} c io x path hs bytes data pieces rest :
  let r := {| method := Put; HttpWire.path := path; headers := headers_of hs |} in
  (∀ z, representable z = true) → pure_write → serves c io →
  path_ok path → Forall header_ok hs → export_body r bytes data pieces →
  inbound (socket_of io) = request_bytes Put path hs ++ bytes ++ rest →
  ends handle_export_request (c, x) (Ok r)
    (on c io (put (got (socket_of io) rest) build_ok_response), accept_all x pieces) ∧
  delivered (accept_all x pieces)
    = delivered x ++ match room x with None => pieces | Some n => take n pieces end ∧
  concat pieces = data ∧
  Forall (λ p, 0 < Z.of_nat (length p) ≤ EXPORT_PIECE_MAX_BYTES) pieces.
Proof.
  intros r Hr Hw Hs Hp Hh Hb Hi.
  split; [|split; [apply accept_all_delivered|by eapply export_pieces]].
  unfold handle_export_request. eapply ends_bind.
  { apply on_stream_ends; [done..|]. by eapply (parse_http_request_ends Put path hs). }
  rewrite decide_True by done. eapply ends_bind.
  - instantiate (1 := (on c io (got (socket_of io) rest), accept_all x pieces)).
    destruct Hb as [cs last Hc Hcs Hl|data Hc Hl]; unfold r in *; rewrite Hc.
    + apply on_stream_next; [done|]. by apply (forward_chunked_body_ends cs last
        (got (socket_of io) (chunked_bytes cs last ++ rest)) x rest).
    + rewrite Hl. apply on_stream_next; [done|].
      by apply (forward_sized_body_ends data (got (socket_of io) (data ++ rest)) x rest).
  - eapply ends_bind; [by apply write_next|apply ends_ret].
Qed.

(** ** An IMPORT body *)
Lemma handle_import_ends {X} c io (x : X) path hs rest :
  (∀ z, representable z = true) → pure_write → serves c io →
  path_ok path → Forall header_ok hs →
  inbound (socket_of io) = request_bytes Get path hs ++ rest →
  ends handle_import_request (c, x)
    (Ok {| method := Get; HttpWire.path := path; headers := headers_of hs |})
    (on c io (put (got (socket_of io) rest) build_chunked_response_headers), x).
Proof.
  intros Hr Hw Hs Hp Hh Hi. unfold handle_import_request. eapply ends_bind.
  { apply on_stream_ends; [done..|]. by eapply (parse_http_request_ends Get path hs). }
  rewrite decide_True by done. eapply ends_bind; [by apply write_next|apply ends_ret].
Qed.

(** The bytes of one piece of the body: none for an empty piece. *)
Definition body_piece (data : list byte) : list byte :=
  match data with [] => [] | _ => encode_chunk data end.

Lemma write_chunked_body_next {X} data c io k (x : X) :
  (∀ z, representable z = true) → pure_write →
  ends (write_chunked_body data) (on c io k, x) (Ok ()) (on c io (put k (body_piece data)), x).
Proof.
  intros Hr Hw. destruct data as [|b data]; [|by apply write_next].
  cbn [write_chunked_body body_piece]. rewrite put_nil. apply ends_ret.
Qed.
End ClientRuns.

Lemma encode_chunk_bytes data :
  encode_chunk data = chunk_bytes (show_hex (Z.of_nat (length data)), data).
Proof.
  unfold chunk_bytes, line_bytes. cbn [fst snd]. by destruct data.
Qed.

Lemma size_line_show n : 0 ≤ n ≤ imax USize → size_line (show_hex n) n.
Proof.
  intros Hn. destruct (show_hex_spec USize n Hn) as (_ & _ & Hx). split.
  - split.
    + apply ascii_valid. eapply str_forall_impl; [|exact Hx]. intros a Ha. by apply is_hex_plain.
    + by apply (contains_char_forall _ is_hex).
  - rewrite <- (str_app_nil_r (show_hex n)). apply parse_chunk_size_show; [done|by left].
Qed.

(** The body that the pieces make, and its end. *)
Definition import_body (pieces : list (list byte)) : list byte :=
  concat (body_piece <$> pieces) ++ encode_chunk [].

(** The chunks that the pieces become. *)
Definition chunks_of (pieces : list (list byte)) : list (string * list byte) :=
  (λ p : list byte, (show_hex (Z.of_nat (length p)), p)) <$> filter (λ p, p ≠ []) pieces.

Definition pieces_fit (pieces : list (list byte)) : Prop :=
  Forall (λ p : list byte, Z.of_nat (length p) ≤ imax USize) pieces.

Lemma chunks_of_ok pieces : pieces_fit pieces → Forall chunk_ok (chunks_of pieces).
Proof.
  intros Hp. apply Forall_fmap, Forall_forall. intros p [Hn Hin]%list_elem_of_filter.
  unfold pieces_fit in Hp. rewrite Forall_forall in Hp. split; [done|]. apply size_line_show.
  specialize (Hp p Hin). cbn [snd]. lia.
Qed.

Lemma chunks_of_bytes pieces :
  concat (body_piece <$> pieces) = concat (chunk_bytes <$> chunks_of pieces).
Proof.
  unfold chunks_of. induction pieces as [|p pieces IH]; [done|].
  destruct p as [|b p]; [done|]. rewrite filter_cons_True by done.
  cbn [fmap list_fmap concat]. by rewrite IH, <- encode_chunk_bytes.
Qed.

Lemma chunks_of_body pieces : body_of (chunks_of pieces) = concat pieces.
Proof.
  unfold body_of, chunks_of. rewrite <- list_fmap_compose.
  induction pieces as [|p pieces IH]; [done|]. destruct p as [|b p]; [done|].
  rewrite filter_cons_True by done. cbn [fmap list_fmap concat]. by rewrite <- IH.
Qed.

(** A reader of chunked bodies takes from an import body what the pieces hold, and refuses
    one without its end. *)
Lemma import_body_read `{Clock, Network, UnicodeCase, Consumer} pieces k x rest :
  pieces_fit pieces → room x = None → inbound k = import_body pieces ++ rest →
  ∃ x', ends forward_chunked_body (k, x) (Ok ()) (got k rest, x') ∧
        concat (delivered x') = concat (delivered x) ++ concat pieces.
Proof.
  intros Hp Hx Hi. exists (accept_all x (pieces_of (chunks_of pieces))). split.
  - apply (forward_chunked_body_ends _ "0"); [by apply chunks_of_ok|by apply (size_line_show 0)|].
    rewrite Hi. unfold import_body, chunked_bytes.
    by rewrite encode_chunk_bytes, chunks_of_bytes.
  - by rewrite accept_all_delivered, Hx, concat_app, concat_pieces, chunks_of_body.
Qed.

Lemma import_body_cut `{Clock, Network, UnicodeCase, Consumer} pieces k x :
  pieces_fit pieces → inbound k = concat (body_piece <$> pieces) →
  ∃ e s, ends forward_chunked_body (k, x) (Err (Failed e)) s.
Proof.
  intros Hp Hi. do 2 eexists.
  apply forward_cut_body; [by apply chunks_of_ok|]. by rewrite Hi, chunks_of_bytes.
Qed.

(** ** Byte ranges of a Parquet file *)
(** A request that the service answers: its method, path and headers. *)
Record FileRequest := { fr_head : bool; fr_path : string; fr_headers : list (string * string) }.

Definition fr_method (r : FileRequest) : HttpMethod := if fr_head r then Head else Get.
Definition fr_bytes (r : FileRequest) : list byte :=
  request_bytes (fr_method r) (fr_path r) (fr_headers r).
Definition fr_ok (r : FileRequest) : Prop :=
  path_ok (fr_path r) ∧ Forall header_ok (fr_headers r).

(** ** The answers *)
Section Answers.
Context `{UnicodeCase}.

Definition ok_head (len : Z) : string :=
  "HTTP/1.1 200 OK" +:+ crlf +:+ "Content-Length: " +:+ show_nat len +:+ crlf +:+ crlf.

Definition bad_request : string := "HTTP/1.1 400 Bad Request" +:+ crlf +:+ crlf.

(** The bytes from [start] to [last], both included. *)
Definition slice (file : list byte) (start last : Z) : list byte :=
  take (Z.to_nat (last + 1 - start)) (drop (Z.to_nat start) file).

(** A range is answered if it begins inside the file and does not end before it begins;
    one that goes beyond the file is cut at its end. *)
Definition range_answer (file : list byte) (range : string) : list byte :=
  let len := Z.of_nat (length file) in
  match parse_byte_range range with
  | Some (start, last) =>
    if decide (start < len ∧ start ≤ last) then
      let last := Z.min last (len - 1) in
      as_bytes (range_head start last len) ++ slice file start last
    else as_bytes bad_request
  | None => as_bytes bad_request
  end.

Definition answer (file : list byte) (r : FileRequest) : list byte :=
  let len := Z.of_nat (length file) in
  if fr_head r then as_bytes (ok_head len)
  else match headers_of (fr_headers r) !! "range"%string with
       | Some range => range_answer file range
       | None => as_bytes (ok_head len) ++ file
       end.
End Answers.

(** A file that stays as it is and can be read. *)
Definition steady `{FileIo} (f : FileSource) (bytes : list byte) : Prop :=
  (∀ t, file_at f t = bytes) ∧ (∀ p, seek_error {| file_at := file_at f; position := p |} = None) ∧
  ∀ p, file_error {| file_at := file_at f; position := p |} = None.

Definition at_position (f : FileSource) (bytes : list byte) (p : Z) : SeekableFile :=
  {| source := {| file_at := file_at f; position := p |};
     file_len := Z.of_nat (length bytes) |}.

Section Serve.
Context `{Clock, Network, UnicodeCase, FileIo}.
Context (f : FileSource) (bytes : list byte) (Hf : steady f bytes) (Hw : pure_write).

Abbreviation at_ := (at_position f bytes).

Lemma seek_ends err target k p q :
  (∀ w, target {| file_at := file_at f; position := p |} w = q) →
  ends (seek err target (at_ p)) (k, at_ p) (Ok q) (k, at_ q).
Proof.
  intros Ht w Hc. exists w. split; [|done]. unfold seek. cbn [source at_position].
  destruct Hf as (_ & Hs & _). rewrite Hs, Ht. done.
Qed.

Lemma read_file_ends err n k p :
  0 ≤ p → p + Z.of_nat n ≤ Z.of_nat (length bytes) →
  ends (read_file err n) (k, at_ p) (Ok (take n (drop (Z.to_nat p) bytes)))
    (k, at_ (p + Z.of_nat n)).
Proof.
  intros Hp Hn w Hc. exists w. split; [|done]. unfold read_file. cbn [source at_position file_at].
  destruct Hf as (Hb & _ & He). rewrite Hb. cbn [position]. rewrite He.
  assert (length (take n (drop (Z.to_nat p) bytes)) = n) as ->
    by (rewrite length_take, length_drop; lia).
  by rewrite Nat.ltb_irrefl.
Qed.

Lemma copy_pieces_ends fuel start span r k p :
  0 ≤ p → 0 ≤ r → p + r ≤ Z.of_nat (length bytes) →
  r ≤ Z.of_nat fuel * HTTP_CHUNK_SIZE →
  ends (copy_pieces fuel start span r) (k, at_ p) (Ok ())
    (put k (take (Z.to_nat r) (drop (Z.to_nat p) bytes)), at_ (p + r)).
Proof.
  revert r k p. induction fuel as [|fuel IH]; intros r k p Hp Hr Hl Hfuel; cbn [copy_pieces];
    (destruct (Z.leb_spec r 0); [replace r with 0 by lia; cbn [Z.to_nat take];
       rewrite put_nil, Z.add_0_r; apply ends_ret|]); [lia|].
  set (n := Z.min r HTTP_CHUNK_SIZE).
  assert (0 < n ≤ r) as Hn by (unfold n, HTTP_CHUNK_SIZE in *; lia).
  assert (r - n ≤ Z.of_nat fuel * HTTP_CHUNK_SIZE) as Hrn by (unfold n, HTTP_CHUNK_SIZE in *; lia).
  eapply ends_bind; [apply read_file_ends; [done|lia]|]. rewrite Z2Nat.id by lia.
  eapply ends_bind; [by apply write_all_ends|].
  replace (take (Z.to_nat r) _) with (take (Z.to_nat n) (drop (Z.to_nat p) bytes)
    ++ take (Z.to_nat (r - n)) (drop (Z.to_nat (p + n)) bytes)).
  2:{ rewrite Z2Nat.inj_add, Z2Nat.inj_sub, <- drop_drop by lia. rewrite take_take_drop.
      f_equal. lia. }
  rewrite <- put_put. replace (p + r) with ((p + n) + (r - n)) by lia.
  apply IH; lia.
Qed.

Lemma write_span_ends head start last k p :
  0 ≤ start ≤ last → last ≤ Z.of_nat (length bytes) →
  ends (write_span_response head start last) (k, at_ p) (Ok ())
    (put k (as_bytes head ++ slice bytes start (last - 1)), at_ last).
Proof.
  intros Hs Hl. unfold write_span_response.
  eapply ends_bind; [by apply write_all_ends|]. eapply ends_bind; [apply ends_the_rest|].
  eapply ends_bind; [by apply (seek_ends _ _ _ p start)|].
  eapply ends_bind; [apply copy_pieces_ends; [lia|lia|lia|]|].
  - pose proof (Z.div_mod (last - start) HTTP_CHUNK_SIZE) as Hd.
    pose proof (Z.mod_pos_bound (last - start) HTTP_CHUNK_SIZE) as Hm.
    pose proof (Z.div_pos (last - start) HTTP_CHUNK_SIZE) as Hq.
    unfold HTTP_CHUNK_SIZE in *. lia.
  - rewrite put_put. unfold slice.
    replace (last - 1 + 1 - start) with (last - start) by lia.
    replace (start + (last - start)) with last by lia. by apply flush_ends.
Qed.

Lemma write_short_ends what text k p :
  ends (write_short what text) (k, at_ p) (Ok ()) (put k (as_bytes text), at_ p).
Proof. eapply ends_bind; [by apply write_all_ends|]. by apply flush_ends. Qed.

Lemma parse_byte_range_nonneg range start last :
  parse_byte_range range = Some (start, last) → 0 ≤ start.
Proof.
  unfold parse_byte_range. intros E.
  destruct (strip_prefix _ _) as [span|]; [|done]. cbn in E.
  destruct (split_once "-" span) as [[s1 s2]|]; [|done]. cbn in E.
  destruct (parse_int U64 (trim s1)) as [z|] eqn:Ez; [|done]. cbn in E.
  destruct (parse_int U64 (trim s2)); [|done]. cbn in E. injection E as <- _.
  apply bind_Some in Ez as (m & _ & [-> Hr]%checked_Some). revert Hr. unfold in_range. cbn. lia.
Qed.

Lemma serve_byte_range_ends range k p :
  ∃ q, ends (serve_byte_range range) (k, at_ p) (Ok ()) (put k (range_answer bytes range), at_ q).
Proof.
  unfold serve_byte_range, range_answer. cbn [file_len at_position].
  destruct (parse_byte_range range) as [[start last]|] eqn:E.
  2:{ exists p. eapply ends_bind; [apply ends_the_rest|apply write_short_ends]. }
  apply parse_byte_range_nonneg in E.
  destruct (decide (start < Z.of_nat (length bytes) ∧ start ≤ last)) as [[Hs Hl]|Hn].
  - exists (Z.min last (Z.of_nat (length bytes) - 1) + 1).
    eapply ends_bind; [apply ends_the_rest|]. cbn [file_len at_position].
    destruct (Z.eqb_spec (Z.of_nat (length bytes)) 0); [lia|].
    destruct (Z.leb_spec (Z.of_nat (length bytes)) start); [lia|]. cbn [orb].
    destruct (Z.ltb_spec (Z.min last (Z.of_nat (length bytes) - 1)) start); [lia|].
    set (l := Z.min last _) in *. replace l with (l + 1 - 1) at 4 by lia.
    apply write_span_ends; lia.
  - exists p. eapply ends_bind; [apply ends_the_rest|]. cbn [file_len at_position].
    destruct (Z.eqb_spec (Z.of_nat (length bytes)) 0); [apply write_short_ends|].
    destruct (Z.leb_spec (Z.of_nat (length bytes)) start); [apply write_short_ends|]. cbn [orb].
    destruct (Z.ltb_spec (Z.min last (Z.of_nat (length bytes) - 1)) start); [apply write_short_ends|].
    exfalso. apply Hn. lia.
Qed.

Lemma serve_whole_file_ends k p :
  ends serve_whole_file (k, at_ p) (Ok ())
    (put k (as_bytes (ok_head (Z.of_nat (length bytes))) ++ bytes), at_ (Z.of_nat (length bytes))).
Proof.
  eapply ends_bind; [apply ends_the_rest|]. cbn [file_len at_position].
  assert (slice bytes 0 (Z.of_nat (length bytes) - 1) = bytes) as Hs.
  { unfold slice. replace (_ + 1 - 0) with (Z.of_nat (length bytes)) by lia.
    rewrite Nat2Z.id. by rewrite drop_0, firstn_all. }
  rewrite <- Hs at 5. apply write_span_ends; lia.
Qed.

Lemma ends_caught {X A} (m : sio X A) s a s' :
  ends m s (Ok a) s' → ends (caught m) s (Ok (inl a)) s'.
Proof. intros Hm w Hc. destruct (Hm w Hc) as (w' & E & Hw'). unfold caught. rewrite E. by eexists. Qed.

Lemma ends_caught_err {X A} (m : sio X A) s e s' :
  ends m s (Err (Failed e)) s' → ends (caught m) s (Ok (inr e)) s'.
Proof. intros Hm w Hc. destruct (Hm w Hc) as (w' & E & Hw'). unfold caught. rewrite E. by eexists. Qed.

(** The rounds over well-formed requests lead to what is behind them. *)
Lemma serve_requests_ends rs fuel k p rest o k' :
  Forall fr_ok rs → inbound k = concat (fr_bytes <$> rs) ++ rest →
  (∀ q, ∃ x', ends (serve_requests fuel)
                (put (got k rest) (concat (answer bytes <$> rs)), at_ q) o (k', x')) →
  ∃ x', ends (serve_requests (length rs + fuel)) (k, at_ p) o (k', x').
Proof.
  intros Hrs. revert k p. induction Hrs as [|r rs [Hp Hh] _ IH]; intros k p Hi Hend.
  { cbn [fmap list_fmap concat app] in Hi, Hend. rewrite put_nil in Hend. subst rest.
    replace (got k (inbound k)) with k in Hend by (by destruct k). apply Hend. }
  cbn [fmap list_fmap concat] in Hi, Hend. rewrite <- app_assoc in Hi.
  change (length (r :: rs) + fuel)%nat with (S (length rs + fuel)). cbn [serve_requests].
  pose proof (parse_http_request_ends (fr_method r) _ _ k (at_ p) _ Hp Hh Hi) as Hparse.
  set (k1 := got k _) in Hparse.
  assert (∀ q, ∃ x', ends (serve_requests (length rs + fuel))
                       (put k1 (answer bytes r), at_ q) o (k', x')) as Hnext.
  { intros q. apply (IH (put k1 (answer bytes r)) q eq_refl). intros q'.
    change (got (put k1 (answer bytes r)) rest) with (put (got k rest) (answer bytes r)).
    rewrite put_put. apply Hend. }
  unfold answer in Hnext. unfold fr_method in Hparse. destruct (fr_head r).
  - destruct (Hnext p) as [x' Hx]. exists x'. eapply ends_bind; [by apply ends_caught|].
    eapply ends_bind; [apply ends_the_rest|]. eapply ends_bind; [apply write_short_ends|exact Hx].
  - destruct (headers_of (fr_headers r) !! _) as [range|] eqn:Er.
    + destruct (serve_byte_range_ends range k1 p) as [q Hq]. destruct (Hnext q) as [x' Hx].
      exists x'. eapply ends_bind; [by apply ends_caught|]. cbn beta iota. cbn [method headers].
      rewrite Er. by eapply ends_bind.
    + destruct (Hnext (Z.of_nat (length bytes))) as [x' Hx].
      exists x'. eapply ends_bind; [by apply ends_caught|]. cbn beta iota. cbn [method headers].
      rewrite Er. eapply ends_bind; [apply serve_whole_file_ends|exact Hx].
Qed.

Lemma fr_bytes_length rs : (length rs ≤ length (concat (fr_bytes <$> rs)))%nat.
Proof.
  induction rs as [|r rs IH]; [done|]. cbn [fmap list_fmap concat length]. rewrite length_app.
  unfold fr_bytes at 1, request_bytes, line_bytes. rewrite length_app, length_as_bytes, str_len_app.
  change (str_len crlf) with 2%nat. lia.
Qed.

Lemma open_file_ends k x :
  ends (SeekableFile_open f) (k, x) (Ok ()) (k, at_ (Z.of_nat (length bytes))).
Proof.
  intros w Hc. exists w. split; [|done]. unfold SeekableFile_open, mbind, action_bind, seek.
  destruct Hf as (Hb & Hs & _). cbn [source]. destruct f as [fa fp]. cbn [file_at] in *.
  rewrite Hs, Hb. reflexivity.
Qed.

(** The service up to what is behind well-formed requests. *)
Lemma serve_file_ends rs k x rest o k' :
  Forall fr_ok rs → inbound k = concat (fr_bytes <$> rs) ++ rest →
  (∀ q fuel, ∃ x', ends (serve_requests (S fuel))
               (put (got k rest) (concat (answer bytes <$> rs)), at_ q) o (k', x')) →
  ∃ x', ends (serve_parquet_range_requests f) (k, x) o (k', x').
Proof.
  intros Hrs Hi Hend. pose proof (fr_bytes_length rs) as Hl.
  destruct (serve_requests_ends rs (S (length (inbound k) - length rs)) k
    (Z.of_nat (length bytes)) rest o k' Hrs Hi) as [x' Hx]; [intros q; apply Hend|].
  exists x'. unfold serve_parquet_range_requests.
  eapply ends_bind; [apply open_file_ends|]. eapply ends_bind; [apply rounds_ends|].
  replace (S (length (inbound k))) with (length rs + S (length (inbound k) - length rs))%nat;
    [exact Hx|]. rewrite Hi, length_app. lia.
Qed.

(** What ends the service - the end of the stream, a PUT, or another method - with the
    reply to it, the bytes left and the outcome. *)
Inductive service_end : list byte → list byte → list byte → outcome stop () → Prop :=
| peer_closes : service_end [] [] [] (Ok ())
| put_request path hs rest :
    path_ok path → Forall header_ok hs →
    service_end (request_bytes Put path hs ++ rest)
      (as_bytes ("HTTP/1.1 405 Method Not Allowed" +:+ crlf +:+ crlf)) rest
      (Err (Failed (ProtocolError "Unexpected PUT in Parquet import handler")))
| other_method name path rest :
    path_ok name → path_ok path → name ∉ ["GET"; "PUT"; "HEAD"]%string →
    service_end (line_bytes (name +:+ " " +:+ path +:+ " HTTP/1.1") ++ rest) [] rest (Ok ()).

Lemma service_ends tail reply rest o :
  service_end tail reply rest o → ∀ k x fuel, inbound k = tail →
  ends (serve_requests (S fuel)) (k, x) o (put (got k rest) reply, x).
Proof.
  destruct 1 as [|path hs rest Hp Hh|name path rest [Hn0 Hn] [Hp0 Hp] Hm]; intros k x fuel Hi;
    cbn [serve_requests].
  - rewrite put_nil.
    eapply ends_bind; [by eapply ends_caught_err, parse_http_request_at_end|]. apply ends_ret.
  - eapply ends_bind; [by eapply ends_caught, (parse_http_request_ends Put)|]. cbn [method].
    eapply ends_bind; [by eapply ends_caught, write_all_ends|].
    eapply ends_bind; [by eapply ends_caught, flush_ends|]. apply ends_fail.
  - rewrite put_nil.
    assert (ends parse_http_request (k, x)
      (Err (Failed (ProtocolError ("Unsupported HTTP method: '" +:+ name +:+ "'"))))
      (got k rest, x)) as Hparse.
    { unfold parse_http_request. eapply ends_bind.
      { apply read_line_ends; [|exact Hi]. by apply graphic_line. }
      apply ends_bind_err. unfold parse_request_line. rewrite split_request_line by done.
      destruct (String.eqb_spec name "GET") as [->|_]; [set_solver|].
      destruct (String.eqb_spec name "PUT") as [->|_]; [set_solver|].
      destruct (String.eqb_spec name "HEAD") as [->|_]; [set_solver|]. apply ends_fail. }
    eapply ends_bind; [by apply ends_caught_err|]. apply ends_ret.
Qed.
End Serve.

Section FileServed.
Context `{Clock, Network, UnicodeCase, FileIo, TunnelNetwork, CertLib, FingerprintLib}.

(** C31: a Parquet file through the tunnel: to any sequence of size probes, range requests
    and plain requests Exasol is answered, in order, with the size, with exactly the bytes
    of the range - cut at the end of the file - or with the file; a range that does not
    begin inside the file is a bad request and the service goes on. It ends when the peer
    closes, with an error on a PUT, and - silently, as if the peer had closed - on any
    other method. *)
Theorem parquet_served f bytes c io x rs tail reply rest o :
  (∀ z, representable z = true) → pure_write → serves c io → steady f bytes →
  Forall fr_ok rs → service_end tail reply rest o →
  inbound (socket_of io) = concat (fr_bytes <$> rs) ++ tail →
  ∃ x', ends (handle_parquet_import_requests f) (c, x) o
    (on c io (put (got (socket_of io) rest) (concat (answer bytes <$> rs) ++ reply)), x').
Proof.
  intros Hr Hw Hs Hf Hrs Ht Hi.
  edestruct (serve_file_ends f bytes Hf Hw rs (socket_of io) x tail o) as [x' Hx]; [done..| |].
  - intros q fuel. exists (at_position f bytes q).
    exact (service_ends f bytes Hf Hw _ _ _ _ Ht (put (got (socket_of io) tail) _) _ fuel eq_refl).
  - exists x'. unfold handle_parquet_import_requests. apply on_stream_ends; [done..|].
    rewrite <- put_put. exact Hx.
Qed.
End FileServed.
