(* ===== verification/TunnelStates.v ===== *)
(** * The states of the tunnel

    What the operations of a tunnel client can do to its stream: a tunnel with TLS never
    carries HTTP in the clear, and one that is closed stays closed. *)
From S2P Require Import Prelude MachineInt RustStr StrText Errors HttpWire Effect Json.
From S2P Require Import Messages Lifecycle Tls HttpTunnel HttpClient.
From stdpp Require Import relations.

#[local] Open Scope Z_scope.

(** A sequence that succeeded: both parts did. *)
Lemma run_bind_inv {E S A B} (m : action E S A) (k : A → action E S B) s b s' :
  (m ≫= k) s = (Ok b, s') → ∃ a s1, m s = (Ok a, s1) ∧ k a s1 = (Ok b, s').
Proof.
  unfold mbind, action_bind. destruct (m s) as [[a|e|] s1]; [|done..]. intros Hk. by exists a, s1.
Qed.

(** ** Bytes are taken from the front and added at the end *)
Definition grows (k k' : Socket) : Prop :=
  sent k `prefix_of` sent k' ∧ inbound k' `suffix_of` inbound k.

#[global] Instance grows_preorder : PreOrder grows.
Proof.
  split.
  - intros k. by split.
  - intros k1 k2 k3 [Ha Hb] [Hc Hd]. split; by etransitivity.
Qed.

Definition socket_grows {X} (s s' : World * (Socket * X)) : Prop := grows s.2.1 s'.2.1.

#[global] Instance socket_grows_preorder {X} : PreOrder (@socket_grows X).
Proof.
  split.
  - intros s. unfold socket_grows. reflexivity.
  - intros s1 s2 s3. unfold socket_grows. by etransitivity.
Qed.

Section Streams.
Context `{Clock, Network, UnicodeCase} {X : Type}.

Lemma grows_await n : effects (@socket_grows X) (await n).
Proof. intros [w [k x]]. unfold await, socket_grows. repeat case_match; cbn; reflexivity. Qed.

Lemma grows_the_socket : effects (@socket_grows X) the_socket.
Proof. intros s. unfold socket_grows. reflexivity. Qed.

Lemma grows_the_rest : effects (@socket_grows X) the_rest.
Proof. intros s. unfold socket_grows. reflexivity. Qed.

Lemma grows_put_rest x : effects (@socket_grows X) (put_rest x).
Proof. intros [w [k x']]. unfold socket_grows. reflexivity. Qed.

(** A step that reads the socket, waits, and leaves a socket grown from it. *)
Lemma grows_after_socket {A} n (f : Socket → sio X A) :
  (∀ w k x, grows k (f k (w, (k, x))).2.2.1) →
  effects (@socket_grows X) (k ← the_socket; _ ← await (n k); f k).
Proof.
  intros Hf [w [k x]]. unfold socket_grows, mbind, action_bind, the_socket, await.
  cbn [snd fst]. repeat case_match; simplify_eq; try reflexivity; apply Hf.
Qed.

Lemma grows_read_exact err n : effects (@socket_grows X) (read_exact err n).
Proof.
  apply grows_after_socket. intros w k x. destruct (_ <=? _)%nat; cbn; (split; cbn; [reflexivity|]).
  - exists (take n (inbound k)). symmetry. apply take_drop.
  - apply suffix_nil.
Qed.

Lemma grows_write_all err data : effects (@socket_grows X) (write_all err data).
Proof.
  apply grows_after_socket. intros w k x.
  destruct (write_error k data) as [[n e]|]; cbn; (split; [by eexists|reflexivity]).
Qed.

Lemma grows_flush err : effects (@socket_grows X) (flush err).
Proof. apply grows_after_socket. intros w k x. destruct (flush_error k); cbn; reflexivity. Qed.

Hint Resolve grows_await grows_the_socket grows_the_rest grows_put_rest grows_read_exact
  grows_write_all grows_flush : effects.

Lemma grows_line err fuel line : effects (@socket_grows X) (read_line_from err fuel line).
Proof.
  revert line. induction fuel as [|fuel IH]; intros line; cbn [read_line_from];
    unfold exhausted, line_of; effects.
Qed.

Lemma grows_read_line err : effects (@socket_grows X) (read_line err).
Proof. unfold read_line, rounds. pose proof grows_line. effects. Qed.

Hint Resolve grows_read_line : effects.

Lemma grows_headers fuel m : effects (@socket_grows X) (read_headers fuel m).
Proof.
  revert m. induction fuel as [|fuel IH]; intros m; cbn [read_headers]; unfold exhausted; effects.
Qed.

Lemma grows_request : effects (@socket_grows X) parse_http_request.
Proof. unfold parse_http_request, rounds. pose proof grows_headers. effects. Qed.
End Streams.

#[export] Hint Resolve grows_await grows_the_socket grows_the_rest grows_put_rest
  grows_read_exact grows_write_all grows_flush grows_read_line grows_request : effects.

Section Bodies.
Context `{Clock, Network, UnicodeCase, Consumer, FileIo}.

Lemma grows_send p : effects socket_grows (send_piece p).
Proof. unfold send_piece. effects. Qed.
Hint Resolve grows_send : effects.

Lemma grows_pieces fuel len r : effects socket_grows (forward_pieces fuel len r).
Proof.
  revert r. induction fuel as [|fuel IH]; intros r; cbn [forward_pieces]; unfold exhausted; effects.
Qed.

Lemma grows_sized len : effects socket_grows (forward_sized_body len).
Proof. unfold forward_sized_body, rounds. pose proof grows_pieces. effects. Qed.
Hint Resolve grows_sized : effects.

Lemma grows_chunks fuel : effects socket_grows (forward_chunks fuel).
Proof. induction fuel as [|fuel IH]; cbn [forward_chunks]; unfold exhausted; effects. Qed.

Lemma grows_chunked : effects socket_grows forward_chunked_body.
Proof. unfold forward_chunked_body, rounds. pose proof grows_chunks. effects. Qed.

Lemma grows_caught {X A} (m : sio X A) : effects socket_grows m → effects socket_grows (caught m).
Proof. intros Hm s. specialize (Hm s). unfold caught. by destruct (m s) as [[a|[e|]|] s']. Qed.
Hint Resolve grows_caught : effects.

Lemma grows_seek err target f : effects socket_grows (seek err target f).
Proof. intros [w [k x]]. unfold seek, socket_grows. case_match; cbn; reflexivity. Qed.

Lemma grows_read_file err n : effects socket_grows (read_file err n).
Proof. intros [w [k x]]. unfold read_file, socket_grows. repeat case_match; cbn; reflexivity. Qed.
Hint Resolve grows_seek grows_read_file : effects.

Lemma grows_copy fuel a b r : effects socket_grows (copy_pieces fuel a b r).
Proof.
  revert r. induction fuel as [|fuel IH]; intros r; cbn [copy_pieces]; unfold exhausted; effects.
Qed.

Lemma grows_span head a b : effects socket_grows (write_span_response head a b).
Proof. unfold write_span_response. pose proof grows_copy. effects. Qed.

Lemma grows_short what text : effects socket_grows (write_short what text).
Proof. unfold write_short. effects. Qed.
Hint Resolve grows_span grows_short : effects.

Lemma grows_range range : effects socket_grows (serve_byte_range range).
Proof. unfold serve_byte_range, write_bad_request_response. effects. Qed.

Lemma grows_whole : effects socket_grows serve_whole_file.
Proof. unfold serve_whole_file. effects. Qed.
Hint Resolve grows_range grows_whole : effects.

Lemma grows_serve fuel : effects socket_grows (serve_requests fuel).
Proof.
  induction fuel as [|fuel IH]; cbn [serve_requests]; unfold exhausted, write_file_size_response;
    effects.
Qed.

Lemma grows_service f : effects socket_grows (serve_parquet_range_requests f).
Proof.
  unfold serve_parquet_range_requests, SeekableFile_open, rounds. pose proof grows_serve. effects.
Qed.
End Bodies.

(** ** The client's stream *)
Section Client.
Context `{Clock, Network, UnicodeCase, TunnelNetwork, CertLib, FingerprintLib}.

(** The states a stream can be in after [s]: one in the clear stays so, one with TLS stays
    so, a pending one is opened by an accepted handshake with its own certificate or is
    closed, and a closed one stays closed. *)
Definition stream_after (s s' : TunnelStream) : Prop :=
  match s, s' with
  | Open (PlainIo k), Open (PlainIo k') => grows k k'
  | Open (TlsIo k), Open (TlsIo k') => grows k k'
  | TlsHandshakePending p, TlsHandshakePending p' => p' = p
  | TlsHandshakePending p, Open (TlsIo k') =>
    ∃ k, tls_accept (acceptor p) (tcp_stream p) = inl k ∧ grows k k'
  | TlsHandshakePending _, ClosedTunnel => True
  | ClosedTunnel, ClosedTunnel => True
  | _, _ => False
  end.

Definition client_after (c c' : HttpTransportClient) : Prop :=
  stream_after (stream c) (stream c') ∧ internal_addr c' = internal_addr c ∧
  tls_certificate c' = tls_certificate c.

#[global] Instance client_after_preorder : PreOrder client_after.
Proof.
  split.
  - intros [[[k|k]|p|] a t]; split; cbn; done || reflexivity.
  - intros [s1 ? ?] [s2 ? ?] [s3 ? ?] (Hs1 & Ha1 & Ht1) (Hs2 & Ha2 & Ht2). cbn in *.
    split_and!; [|by rewrite Ha2|by rewrite Ht2].
    destruct s1 as [[k1|k1]|p1|], s2 as [[k2|k2]|p2|], s3 as [[k3|k3]|p3|]; try done; cbn in *.
    + by etransitivity.
    + by etransitivity.
    + destruct Hs1 as (k & ? & ?). exists k. split; [done|by etransitivity].
    + by subst p2.
    + by subst p2.
Qed.

Definition client_moves {X} (s s' : World * (HttpTransportClient * X)) : Prop :=
  client_after s.2.1 s'.2.1.

#[global] Instance client_moves_preorder {X} : PreOrder (@client_moves X).
Proof.
  split.
  - intros s. unfold client_moves. reflexivity.
  - intros s1 s2 s3. unfold client_moves. by etransitivity.
Qed.

Lemma await_keeps {T} n w (t : T) :
  ∃ o w', await n (w, t) = (o, (w', t)) ∧ (o = Ok () ∨ o = Err Cancelled).
Proof. unfold await. repeat case_match; do 2 eexists; (split; [reflexivity|]); auto. Qed.

(** A handshake leaves the client's state alone and gives the accepted tunnel. *)
Lemma complete_accepts {T} p (s : World * T) :
  (complete p s).2.2 = s.2 ∧
  ∀ k, (complete p s).1 = Ok k → tls_accept (acceptor p) (tcp_stream p) = inl k.
Proof.
  destruct s as [w t]. unfold complete, mbind, action_bind, SetupDeadline_start.
  destruct (if representable _ then _ else _) as [d|e|]; [|by split..].
  unfold deadline_run. set (w1 := {| now := now w; cutoff := _; draws := _ |}).
  destruct (await_keeps (accept_delay (tcp_stream p)) w1 t) as (o & w2 & -> & Ho).
  destruct o as [[]|e|]; cbn.
  - unfold lib_call. destruct (tls_accept _ _) as [k'|e]; cbn; (split; [done|]); intros k; congruence.
  - split; [done|]. intros k. destruct e; [done|]. by destruct (_ =? _).
  - by split.
Qed.

(** Opening the stream, and what it is then. *)
Lemma open_stream_moves {X} w c (x : X) :
  ∃ o w' c', open_stream (w, (c, x)) = (o, (w', (c', x))) ∧ client_after c c' ∧
    ∀ io, o = Ok io → stream c' = Open io.
Proof.
  unfold open_stream, mbind, action_bind, this_client, put_stream, modify. cbn [fst snd].
  destruct c as [[io|p|] a t]; cbn [stream with_stream].
  - do 3 eexists. split; [reflexivity|]. split; [reflexivity|]. by intros ? [= <-].
  - destruct (complete_accepts p (w, (with_stream {| stream := TlsHandshakePending p;
      internal_addr := a; tls_certificate := t |} ClosedTunnel, x))) as [Hs Ha].
    destruct (complete p _) as [[k|e|] [w' s']]; cbn [snd fst] in *; subst s';
      do 3 eexists; (split; [reflexivity|]).
    + split; [|by intros ? [= <-]]. split; [|done]. exists k. split; [by apply Ha|reflexivity].
    + by split.
    + by split.
  - do 3 eexists. split; [reflexivity|]. split; [reflexivity|done].
Qed.

Lemma on_stream_moves {X A} (m : sio X A) :
  effects socket_grows m → effects client_moves (on_stream m).
Proof.
  intros Hm [w [c x]]. unfold on_stream, mbind, action_bind.
  destruct (open_stream_moves w c x) as (o & w' & c' & -> & Hc & Ho). unfold client_moves.
  destruct o as [io|e|]; [|done..]. specialize (Ho io eq_refl). unfold run_on.
  specialize (Hm (w', (socket_of io, x))). unfold socket_grows in Hm. cbn [fst snd] in *.
  destruct (m _) as [oa [w'' [k x']]]. cbn [fst snd] in *.
  destruct Hc as (Hs & Ha & Ht). split_and!; [|done..]. cbn [stream with_stream].
  rewrite Ho in Hs. destruct (stream c) as [[k0|k0]|p|], io as [k1|k1]; try done; cbn in *.
  - by etransitivity.
  - by etransitivity.
  - destruct Hs as (k2 & ? & ?). exists k2. split; [done|by etransitivity].
Qed.

Lemma await_moves {X} n : effects (@client_moves X) (await n).
Proof. intros [w [c x]]. unfold await, client_moves. repeat case_match; cbn; reflexivity. Qed.
Hint Resolve await_moves : effects.

Lemma write_moves {X} data : effects (@client_moves X) (write data).
Proof. apply on_stream_moves. effects. Qed.

Lemma read_moves {X} n : effects (@client_moves X) (read n).
Proof.
  apply on_stream_moves, grows_after_socket. intros w k x. unfold mbind, action_bind, lib_call.
  destruct (read_some k n); cbn; split; cbn; try reflexivity.
  eexists. symmetry. apply take_drop.
Qed.

Lemma shutdown_moves {X} : effects (@client_moves X) shutdown.
Proof.
  intros [w [c x]]. unfold client_moves, shutdown, mbind, action_bind, this_client. cbn [fst snd].
  destruct c as [[io|p|] a t]; cbn [stream]; [| |reflexivity];
    unfold await, lib_check, put_stream, modify; repeat case_match; simplify_eq; cbn;
    try reflexivity; by split.
Qed.
Hint Resolve write_moves read_moves shutdown_moves : effects.

Lemma request_moves {X} : effects (@client_moves X) read_http_request.
Proof. apply on_stream_moves. effects. Qed.
Hint Resolve request_moves : effects.

Lemma import_moves {X} : effects (@client_moves X) handle_import_request.
Proof. unfold handle_import_request, write_chunked_response_headers. effects. Qed.

Lemma chunk_moves {X} data : effects (@client_moves X) (write_chunked_body data).
Proof. unfold write_chunked_body. effects. Qed.

Lemma export_moves `{Consumer} : effects client_moves handle_export_request.
Proof.
  assert (∀ len, effects client_moves (on_stream (forward_sized_body len)))
    by (intros; apply on_stream_moves, grows_sized).
  assert (effects client_moves read_chunked_body) by (apply on_stream_moves, grows_chunked).
  unfold handle_export_request, write_http_response. effects.
Qed.

Lemma parquet_moves `{FileIo} f : effects client_moves (handle_parquet_import_requests f).
Proof. apply on_stream_moves, grows_service. Qed.

(** ** The operations of a client *)
Inductive client_op `{Consumer, FileIo} : HttpTransportClient → HttpTransportClient → Prop :=
| op_write X (x : X) w c data : client_op c (write data (w, (c, x))).2.2.1
| op_read X (x : X) w c n : client_op c (read n (w, (c, x))).2.2.1
| op_shutdown X (x : X) w c : client_op c (shutdown (w, (c, x))).2.2.1
| op_request X (x : X) w c : client_op c (read_http_request (w, (c, x))).2.2.1
| op_import X (x : X) w c : client_op c (handle_import_request (w, (c, x))).2.2.1
| op_chunk X (x : X) w c data : client_op c (write_chunked_body data (w, (c, x))).2.2.1
| op_export x w c : client_op c (handle_export_request (w, (c, x))).2.2.1
| op_parquet f x w c : client_op c (handle_parquet_import_requests f (w, (c, x))).2.2.1.

Lemma client_op_moves `{Consumer, FileIo} c c' : client_op c c' → client_after c c'.
Proof.
  destruct 1.
  - exact (write_moves data (w, (c, x))).
  - exact (read_moves n (w, (c, x))).
  - exact (shutdown_moves (w, (c, x))).
  - exact (request_moves (w, (c, x))).
  - exact (import_moves (w, (c, x))).
  - exact (chunk_moves data (w, (c, x))).
  - exact (export_moves (w, (c, x))).
  - exact (parquet_moves f (w, (c, x))).
Qed.

(** A closed tunnel refuses every read and write and stays as it is. *)
Lemma closed_refuses {X A} (m : sio X A) w c x :
  stream c = ClosedTunnel →
  on_stream m (w, (c, x)) = (Err (Failed tunnel_closed), (w, (c, x))).
Proof. destruct c as [s a t]. cbn. intros ->. reflexivity. Qed.

(** The client that a connect with TLS gives. *)
Lemma connect_pending {T} host port timeout w (t : T) c s' :
  connect_with_timeout host port true timeout (w, t) = (Ok c, s') →
  ∃ p cert, stream c = TlsHandshakePending p ∧ tls_certificate c = Some cert ∧
    acceptor p = (certificate_der cert, private_key_der cert) ∧ bound p = timeout.
Proof.
  unfold connect_with_timeout. intros E.
  apply run_bind_inv in E as (d & s1 & _ & E). apply run_bind_inv in E as (tcp & s2 & _ & E).
  apply run_bind_inv in E as ([[ip ipport] [tcp' []]] & s3 & _ & E).
  apply run_bind_inv in E as (cert & s4 & _ & E).
  apply run_bind_inv in E as (config & s5 & Ec & E). injection E as <- <-.
  unfold to_server_config in Ec. apply run_bind_inv in Ec as ([] & s6 & _ & Ec).
  apply run_bind_inv in Ec as ([] & s7 & _ & Ec). injection Ec as <- <-.
  do 2 eexists. split_and!; reflexivity.
Qed.

(** C32: a tunnel with TLS: after a connect with TLS and any sequence of operations of the
    client, whatever they returned, the tunnel never carries HTTP in the clear: its
    handshake is still pending with no byte read or sent, or it carries HTTP inside the
    TLS tunnel that an accepted handshake gave for the certificate whose fingerprint the
    statement names, or it is closed; and then every read and write fails at once and
    every later state is closed too. *)
Theorem tls_tunnel_private `{Consumer, FileIo} {T} host port timeout w (t : T) c s' c' :
  connect_with_timeout host port true timeout (w, t) = (Ok c, s') → rtc client_op c c' →
  public_key_fingerprint c' = public_key_fingerprint c ∧
  match stream c' with
  | TlsHandshakePending p => stream c = TlsHandshakePending p
  | Open (PlainIo _) => False
  | Open (TlsIo k') => ∃ p cert k,
    stream c = TlsHandshakePending p ∧ tls_certificate c = Some cert ∧
    tls_accept (certificate_der cert, private_key_der cert) (tcp_stream p) = inl k ∧ grows k k'
  | ClosedTunnel =>
    (∀ X A (m : sio X A) w x, on_stream m (w, (c', x)) = (Err (Failed tunnel_closed), (w, (c', x)))) ∧
    ∀ c'', rtc client_op c' c'' → stream c'' = ClosedTunnel
  end.
Proof.
  intros Hc Hops. apply connect_pending in Hc as (p & cert & Hs & Ht & Ha & _).
  assert (∀ c1 c2, rtc client_op c1 c2 → client_after c1 c2) as Hmoves.
  { intros c1 c2 Hr. induction Hr as [c1|c1 c2 c3 Hr _ IH]; [reflexivity|].
    etransitivity; [by apply client_op_moves|done]. }
  destruct (Hmoves _ _ Hops) as (Hst & _ & Hcert).
  split; [unfold public_key_fingerprint; by rewrite Hcert|]. rewrite Hs in Hst |- *.
  destruct (stream c') as [[k'|k']|p'|] eqn:Hc'; cbn in Hst.
  - done.
  - destruct Hst as (k & Hk & Hg). rewrite Ha in Hk. by exists p, cert, k.
  - by subst p'.
  - split; [intros; by apply closed_refuses|]. intros c'' Hr.
    destruct (Hmoves _ _ Hr) as (Hst' & _). rewrite Hc' in Hst'. by destruct (stream c'') as [[?|?]|?|].
Qed.
End Client.
