(* ===== verification/ParamEncoding.v ===== *)
(** * Prepared-statement parameters

    [transport/native/mod.rs]: the payload of CMD_EXECUTE_PREPARED, the wire types
    of its columns and the split of its rows into messages of a bounded size. *)
From S2P Require Import Prelude MachineInt RustStr Constants Errors Attributes Float64 Json.
From S2P Require Import DateTime ExasolTypes ResultParser Messages.
From Stdlib Require Import Floats.SpecFloat.

#[local] Open Scope Z_scope.

(* code: transport/native/mod.rs 97-98 PARAMETER_TABLE_COUNT *)
Definition PARAMETER_TABLE_COUNT : Z := 1.
(* code: transport/native/mod.rs 99-99 IS_TABLE *)
Definition IS_TABLE : Z := 1.

(* code: transport/native/mod.rs 101-106 ParameterColumn *)
Record ParameterColumn := { pc_name : string; pc_wire_type : Z; pc_scale : Z }.

(* code: transport/native/mod.rs 108-112 RowRange *)
Record RowRange := { r_rows : nat * nat; r_bytes : nat * nat }.

(* code: transport/native/mod.rs 114-119 EncodedParameterRows *)
Record EncodedParameterRows := {
  e_columns : list ParameterColumn;
  e_bytes : list byte;
  e_ranges : list RowRange;
}.

Section Parameters.
Context `{BuildProfile, SerdeJson, PowI}.

(** ** Column types *)
(* code: transport/native/mod.rs 605-621 data_type_to_wire_type *)
Definition data_type_to_wire_type (dt : DataType) : Z :=
  let named name := bool_decide (dt_type_name dt = name) in
  if named "DECIMAL" then T_DECIMAL
  else if named "DOUBLE" then T_DOUBLE
  else if named "BOOLEAN" then T_BOOLEAN
  else if named "VARCHAR" || named "CHAR" then T_CHAR
  else if named "DATE" then T_DATE
  else if named "TIMESTAMP" || named "TIMESTAMP WITH LOCAL TIME ZONE" then T_TIMESTAMP
  else if named "GEOMETRY" then T_GEOMETRY
  else if named "HASHTYPE" then T_HASHTYPE
  else if named "INTERVAL YEAR TO MONTH" then T_INTERVAL_YEAR
  else if named "INTERVAL DAY TO SECOND" then T_INTERVAL_DAY
  else T_CHAR.

(* code: transport/native/mod.rs 623-638 json_value_to_wire_type *)
Definition json_value_to_wire_type (v : json) : Z :=
  match v with
  | JNull => T_CHAR
  | JBool _ => T_BOOLEAN
  | JNumber n => if is_f64 n && negb (is_i64 n) && negb (is_u64 n) then T_DOUBLE else T_DECIMAL
  | JString _ => T_CHAR
  | _ => T_CHAR
  end.

(** [format!("param{}", col_idx)]. *)
Definition param_name (col_idx : nat) : string := "param" +:+ show_nat (Z.of_nat col_idx).

(* code: transport/native/mod.rs 571-593 infer_wire_type *)
Definition infer_wire_type (h : PreparedStatementHandle) (col_idx : nat) (col_values : list json)
    : Z * string :=
  match parameter_types h !! col_idx with
  | Some dt =>
    (data_type_to_wire_type dt,
     default (param_name col_idx) (n ← parameter_names h !! col_idx; n))
  | None =>
    (default T_CHAR (json_value_to_wire_type <$> head col_values), param_name col_idx)
  end.

(* code: transport/native/mod.rs 595-603 decimal_metadata *)
Definition decimal_metadata (h : PreparedStatementHandle) (col_idx : nat) : Z * Z :=
  match parameter_types h !! col_idx with
  | Some dt => (default 18 (dt_precision dt), default 0 (dt_scale dt))
  | None => (18, 0)
  end.

(* code: transport/native/mod.rs 477-501 parameter_columns *)
Definition parameter_columns (h : PreparedStatementHandle) (cols : list (list json))
    : list ParameterColumn :=
  imap (λ i col_values,
    let '(wire_type, name) := infer_wire_type h i col_values in
    let scale := if wire_type =? T_DECIMAL then (decimal_metadata h i).2 else 0 in
    {| pc_name := name; pc_wire_type := wire_type; pc_scale := scale |}) cols.

(** ** Values *)
(* code: transport/native/mod.rs 745-754 temporal_text *)
Definition temporal_text (v : json) (form : string) : outcome TransportError string :=
  ok_or (SerializationError ("Cannot read " +:+ json_display v
           +:+ " as a date or timestamp, expected " +:+ form)) (json_as_str v).

(* code: transport/native/mod.rs 708-743 scale_decimal_value *)
Definition scale_decimal_value (v : json) (scale : Z) : outcome TransportError Z :=
  let multiplier := powi10 scale in
  match json_as_i64 v with
  | Some i =>
    if scale <=? 0 then
      if scale =? 0 then Ok i
      else
        neg_scale ← arith I32 (- scale);
        let divisor := powi10 neg_scale in
        Ok (f64_to_int I64 (f64_round (f64_div (f64_of_int i) divisor)))
    else
      match checked I128 (10 ^ scale) with
      | Some p => Ok (Z.max (imin I64) (Z.min (imax I64) (saturating I128 (i * p))))
      | None => Ok (f64_to_int I64 (f64_round (f64_mul (f64_of_int i) multiplier)))
      end
  | None =>
    match json_as_f64 v with
    | Some f =>
      let scaled := f64_round (f64_mul (f64_decode f) multiplier) in
      if f64_is_nan scaled then Ok 0
      else Ok (f64_to_int I64
             (f64_clamp (f64_of_int (imin I64)) (f64_of_int (imax I64)) scaled))
    | None => Ok 0
    end
  end.

(** The length as [i32] and the bytes. *)
Definition write_text (s : string) : list byte :=
  to_le_bytes I32 (wrap I32 (Z.of_nat (str_len s))) ++ as_bytes s.

(** The bytes of a value that is not NULL. *)
(* code: transport/native/mod.rs 660-704 write_param_value *)
Definition write_value (wire_type : Z) (v : json) (scale : Z) : outcome TransportError (list byte) :=
  if wire_type =? T_BOOLEAN then Ok [byte_of (if default false (json_as_bool v) then 1 else 0)]
  else if wire_type =? T_DOUBLE then Ok (to_le_bytes U64 (default 0 (json_as_f64 v)))
  else if wire_type =? T_DECIMAL then
    scaled ← scale_decimal_value v scale; Ok (to_le_bytes I64 scaled)
  else if wire_type =? T_DATE then
    text ← temporal_text v DATE_TEXT_FORM;
    f ← map_err SerializationError (parse_date_text text);
    let y := wrap I32 (Z.shiftl (tf_year f) 16) in
    let m := wrap I32 (Z.shiftl (tf_month f) 8) in
    ym ← arith I32 (y + m);
    packed ← arith I32 (ym + tf_day f);
    Ok (to_le_bytes I32 packed)
  else if wire_type =? T_TIMESTAMP then
    text ← temporal_text v TIMESTAMP_TEXT_FORM;
    f ← map_err SerializationError (parse_timestamp_text text);
    Ok (to_le_bytes U16 (tf_year f) ++
        (byte_of <$> [tf_month f; tf_day f; tf_hour f; tf_minute f; tf_second f]) ++
        to_le_bytes I32 (wrap I32 (tf_nanos f)))
  else Ok (write_text (match v with JString s => s | _ => json_display v end)).

(* code: transport/native/mod.rs 640-706 write_param_value *)
Definition write_param_value (wire_type : Z) (v : json) (scale : Z)
    : outcome TransportError (list byte) :=
  let empty_temporal :=
    ((wire_type =? T_DATE) || (wire_type =? T_TIMESTAMP)) && bool_decide (json_as_str v = Some "")
  in
  if json_is_null v || empty_temporal then Ok [byte_of 0]
  else bytes ← write_value wire_type v scale; Ok (byte_of 1 :: bytes).

(** ** Rows *)
(* code: transport/native/mod.rs 563-567 write_parameter_rows *)
Definition write_parameter_row (cols : list (list json)) (columns : list ParameterColumn)
    (row_idx : nat) : outcome TransportError (list byte) :=
  values ← mapM (λ '(col_values, column),
    match col_values !! row_idx with
    | Some v => write_param_value (pc_wire_type column) v (pc_scale column)
    | None => Panic
    end) (zip cols columns);
  Ok (concat values).

(* code: transport/native/mod.rs 553-569 write_parameter_rows *)
Definition write_parameter_rows (cols : list (list json)) (columns : list ParameterColumn)
    (rows : list nat) : outcome TransportError (list byte) :=
  bytes ← mapM (write_parameter_row cols columns) rows;
  Ok (concat bytes).

(** ** Headers *)
(* code: transport/native/mod.rs 527-551 write_column_metadata *)
Definition write_column_metadata (h : PreparedStatementHandle) (col_idx : nat) (wire_type : Z)
    : list byte :=
  if wire_type =? T_CHAR then
    [byte_of (Z.lor IS_VARCHAR IS_UTF8)] ++ to_le_bytes I32 2000000 ++
    to_le_bytes I32 (2000000 * 4)
  else if wire_type =? T_DECIMAL then
    let '(prec, scale) := decimal_metadata h col_idx in
    to_le_bytes I32 prec ++ to_le_bytes I32 scale
  else if wire_type =? T_TIMESTAMP then to_le_bytes I32 TIMESTAMP_PARAM_PRECISION
  else [].

(** One column header of [payload_prefix]. *)
(* code: transport/native/mod.rs 517-523 payload_prefix *)
Definition column_header (h : PreparedStatementHandle) (i : nat) (column : ParameterColumn)
    : list byte :=
  write_text (pc_name column) ++ to_le_bytes I32 (wrap I32 (pc_wire_type column)) ++
  write_column_metadata h i (pc_wire_type column).

(* code: transport/native/mod.rs 503-525 payload_prefix *)
Definition payload_prefix (h : PreparedStatementHandle) (columns : list ParameterColumn)
    (num_rows : nat) : list byte :=
  to_le_bytes I32 (ps_handle h) ++
  to_le_bytes I32 PARAMETER_TABLE_COUNT ++
  [byte_of IS_TABLE] ++
  to_le_bytes I32 (wrap I32 (Z.of_nat (length columns))) ++
  to_le_bytes I64 (wrap I64 (Z.of_nat num_rows)) ++
  to_le_bytes I64 (wrap I64 (Z.of_nat num_rows)) ++
  concat (imap (column_header h) columns).

(** [cols.first().map_or(0, Vec::len)]. *)
Definition first_len (cols : list (list json)) : nat :=
  match cols with [] => O | col :: _ => length col end.

(* code: transport/native/mod.rs 397-417 build_execute_prepared_payload *)
Definition build_execute_prepared_payload (h : PreparedStatementHandle)
    (parameters : option (list (list json))) : outcome TransportError (list byte) :=
  let cols := default [] parameters in
  let num_rows := first_len cols in
  let columns := parameter_columns h cols in
  rows ← write_parameter_rows cols columns (seq 0 num_rows);
  Ok (payload_prefix h columns num_rows ++ rows).

(** ** Splitting *)
(* code: transport/native/mod.rs 807-810 execute_prepared_attributes *)
Definition execute_prepared_attributes : AttributeSet := AttributeSet_new.

(** The variables of the loop of [split_parameter_rows]. *)
Record SplitState := {
  s_bytes : list byte;
  s_ranges : list RowRange;
  s_first_row : nat;
  s_first_byte : nat;
}.

(* code: transport/native/mod.rs 440-450 split_parameter_rows *)
Definition split_step (message_overhead : nat) (limit : Z) (cols : list (list json))
    (columns : list ParameterColumn) (st : SplitState) (row : nat)
    : outcome TransportError SplitState :=
  let row_start := length (s_bytes st) in
  row_bytes ← write_parameter_rows cols columns [row];
  let bytes := s_bytes st ++ row_bytes in
  if (s_first_row st <? row)%nat &&
     (limit <? Z.of_nat (message_overhead + (length bytes - s_first_byte st)))
  then Ok {| s_bytes := bytes;
             s_ranges := s_ranges st ++ [{| r_rows := (s_first_row st, row);
                                            r_bytes := (s_first_byte st, row_start) |}];
             s_first_row := row; s_first_byte := row_start |}
  else Ok {| s_bytes := bytes; s_ranges := s_ranges st;
             s_first_row := s_first_row st; s_first_byte := s_first_byte st |}.

Fixpoint split_loop (message_overhead : nat) (limit : Z) (cols : list (list json))
    (columns : list ParameterColumn) (st : SplitState) (rows : list nat)
    : outcome TransportError SplitState :=
  match rows with
  | [] => Ok st
  | row :: rows =>
    st ← split_step message_overhead limit cols columns st row;
    split_loop message_overhead limit cols columns st rows
  end.

(* code: transport/native/mod.rs 433-435 split_parameter_rows *)
Definition message_overhead (h : PreparedStatementHandle) (columns : list ParameterColumn) : nat :=
  HEADER_SIZE + length (AttributeSet_serialize execute_prepared_attributes)
  + length (payload_prefix h columns 0).

(* code: transport/native/mod.rs 419-463 split_parameter_rows *)
Definition split_parameter_rows (h : PreparedStatementHandle) (cols : list (list json))
    (limit : Z) : outcome TransportError EncodedParameterRows :=
  let num_rows := first_len cols in
  let columns := parameter_columns h cols in
  st ← split_loop (message_overhead h columns) limit cols columns
         {| s_bytes := []; s_ranges := []; s_first_row := 0; s_first_byte := 0 |}
         (seq 0 num_rows);
  let ranges :=
    if (0 <? num_rows)%nat then
      s_ranges st ++ [{| r_rows := (s_first_row st, num_rows);
                         r_bytes := (s_first_byte st, length (s_bytes st)) |}]
    else s_ranges st in
  Ok {| e_columns := columns; e_bytes := s_bytes st; e_ranges := ranges |}.

(** [range.rows.len()]. *)
Definition range_rows (r : RowRange) : nat := ((r_rows r).2 - (r_rows r).1)%nat.

(* code: transport/native/mod.rs 465-475 build_range_payload *)
Definition build_range_payload (h : PreparedStatementHandle) (encoded : EncodedParameterRows)
    (range : RowRange) : outcome TransportError (list byte) :=
  bytes ← byte_slice (r_bytes range).1 (r_bytes range).2 (e_bytes encoded);
  Ok (payload_prefix h (e_columns encoded) (range_rows range) ++ bytes).
End Parameters.
