(* ===== verification/ParamCodec.v ===== *)
(** * What the server receives

    The server's side of CMD_EXECUTE_PREPARED: the values a payload carries, a reader
    of the payload, and the theorems that it reads what was bound and that a split
    parameter set is the whole set in messages of the allowed size. *)
From S2P Require Import Prelude MachineInt RustStr Constants Errors Framing Attributes Float64.
From S2P Require Import Json Gregorian DateTime ExasolTypes ResultParser ResultCodec Messages.
From S2P Require Import ParamEncoding.
From Stdlib Require Import Floats.SpecFloat.

#[local] Open Scope Z_scope.
#[local] Existing Instance rust_payload.

(** ** Values *)
Inductive ParamValue :=
| PBool (b : bool)
| PDouble (bits : Z)
| PDecimal (v : Z)
| PDate (y m d : Z)
| PTimestamp (y m d hour minute second nanos : Z)
| PText (s : string).

(** The value bound for a JSON value, [None] for NULL. *)
Section ParamValues.
Context `{BuildProfile, SerdeJson, PowI}.

(** The text of a value that is not a temporal, number or boolean column's. *)
Definition param_text (v : json) : string :=
  match v with JString s => s | _ => json_display v end.

Definition bound_value (wire_type : Z) (v : json) (scale : Z)
    : outcome TransportError ParamValue :=
  if wire_type =? T_BOOLEAN then Ok (PBool (default false (json_as_bool v)))
  else if wire_type =? T_DOUBLE then Ok (PDouble (default 0 (json_as_f64 v)))
  else if wire_type =? T_DECIMAL then PDecimal <$> scale_decimal_value v scale
  else if wire_type =? T_DATE then
    f ← (text ← temporal_text v DATE_TEXT_FORM;
         map_err SerializationError (parse_date_text text));
    Ok (PDate (tf_year f) (tf_month f) (tf_day f))
  else if wire_type =? T_TIMESTAMP then
    f ← (text ← temporal_text v TIMESTAMP_TEXT_FORM;
         map_err SerializationError (parse_timestamp_text text));
    Ok (PTimestamp (tf_year f) (tf_month f) (tf_day f) (tf_hour f) (tf_minute f)
          (tf_second f) (tf_nanos f))
  else Ok (PText (param_text v)).

Definition bound_param (wire_type : Z) (v : json) (scale : Z)
    : outcome TransportError (option ParamValue) :=
  match v with
  | JNull => Ok None
  | JString "" =>
    if decide (wire_type ∈ [T_DATE; T_TIMESTAMP]) then Ok None
    else Some <$> bound_value wire_type v scale
  | _ => Some <$> bound_value wire_type v scale
  end.

(** The rows of a parameter set, in column order. *)
Definition bound_cell (row : nat) (c : list json * ParameterColumn)
    : outcome TransportError (option ParamValue) :=
  match c.1 !! row with
  | Some v => bound_param (pc_wire_type c.2) v (pc_scale c.2)
  | None => Panic
  end.

Definition bound_row (cols : list (list json)) (columns : list ParameterColumn) (row : nat)
    : outcome TransportError (list (option ParamValue)) :=
  mapM (bound_cell row) (zip cols columns).

Definition bound_rows (cols : list (list json)) (columns : list ParameterColumn)
    (rows : list nat) : outcome TransportError (list (list (option ParamValue))) :=
  mapM (bound_row cols columns) rows.
End ParamValues.

(** ** The server's reader *)
Section Server.
Context `{BuildProfile}.

Definition read_bound_value (wire_type : Z) : reader TransportError ParamValue :=
  if wire_type =? T_BOOLEAN then b ← read_u8; mret (PBool (negb (b =? 0)))
  else if wire_type =? T_DOUBLE then bits ← read_f64; mret (PDouble bits)
  else if wire_type =? T_DECIMAL then v ← read_i64; mret (PDecimal v)
  else if wire_type =? T_DATE then
    p ← read_i32; mret (PDate (p / 65536) (p / 256 mod 256) (p mod 256))
  else if wire_type =? T_TIMESTAMP then
    y ← read_i16; mo ← read_u8; d ← read_u8; h ← read_u8; mi ← read_u8; s ← read_u8;
    n ← read_i32; mret (PTimestamp y mo d h mi s n)
  else
    bs ← read_length_prefixed "Parameter truncated";
    s ← lift (utf8_or (λ _, "Invalid parameter") bs); mret (PText s).

(** What the header of a parameter column carries behind its type: the flag, the length
    and the length in octets of text, the precision and scale of a DECIMAL, the precision
    of a TIMESTAMP, and nothing for any other type. *)
Inductive HeaderMeta :=
| NoMeta
| TextMeta (vc_flag max_len octet_len : Z)
| DecimalMeta (precision scale : Z)
| TimestampMeta (precision : Z).

Record ParamHeader := { ph_name : string; ph_type : Z; ph_meta : HeaderMeta }.

Definition read_header_meta (wire_type : Z) : reader TransportError HeaderMeta :=
  if wire_type =? T_CHAR then
    vc_flag ← read_u8; max_len ← read_i32; octet_len ← read_i32;
    mret (TextMeta vc_flag max_len octet_len)
  else if wire_type =? T_DECIMAL then
    precision ← read_i32; scale ← read_i32; mret (DecimalMeta precision scale)
  else if wire_type =? T_TIMESTAMP then
    precision ← read_i32; mret (TimestampMeta precision)
  else mret NoMeta.

Definition read_parameter_header : reader TransportError ParamHeader :=
  name_len ← read_i32;
  bytes ← take_cast_length name_len "Parameter name truncated";
  name ← lift (utf8_or (λ _, "Invalid parameter name") bytes);
  wire_type ← read_i32;
  header_meta ← read_header_meta wire_type;
  mret {| ph_name := name; ph_type := wire_type; ph_meta := header_meta |}.

Definition read_bound_param (column : ParamHeader) : reader TransportError (option ParamValue) :=
  flag ← read_u8;
  if flag =? 0 then mret None
  else v ← read_bound_value (ph_type column); mret (Some v).

(** A received table: the statement, the column descriptions and the rows. *)
Record Received := {
  rc_handle : Z;
  rc_columns : list ParamHeader;
  rc_total_rows : Z;
  rc_rows : list (list (option ParamValue));
}.

Definition read_parameters : reader TransportError Received :=
  handle ← read_i32;
  _num_tables ← read_i32;
  _is_table ← read_u8;
  num_columns ← read_i32;
  total_rows ← read_i64;
  rows_in_message ← read_i64;
  columns ← read_times (Z.to_nat num_columns) read_parameter_header;
  rows ← read_times (Z.to_nat rows_in_message) (read_each read_bound_param columns);
  mret {| rc_handle := handle; rc_columns := columns; rc_total_rows := total_rows;
          rc_rows := rows |}.
End Server.

(** ** Encoding *)
Definition encode_bound_value (p : ParamValue) : list byte :=
  match p with
  | PBool b => [byte_of (if b then 1 else 0)]
  | PDouble bits => to_le_bytes U64 bits
  | PDecimal v => to_le_bytes I64 v
  | PDate y m d => to_le_bytes I32 (y * 65536 + m * 256 + d)
  | PTimestamp y mo d h mi s n =>
    to_le_bytes U16 y ++ (byte_of <$> [mo; d; h; mi; s]) ++ to_le_bytes I32 n
  | PText s => write_text s
  end.

Definition encode_bound_param (p : option ParamValue) : list byte :=
  match p with None => [byte_of 0] | Some p => byte_of 1 :: encode_bound_value p end.

(** The calendar fields that parameter text can have: two digits each, four for
    the year and nine for the fraction. *)
Definition field_bounds (f : TemporalFields) : Prop :=
  0 ≤ tf_year f ≤ 9999 ∧ 0 ≤ tf_month f ≤ 99 ∧ 0 ≤ tf_day f ≤ 99 ∧ 0 ≤ tf_hour f ≤ 99 ∧
  0 ≤ tf_minute f ≤ 99 ∧ 0 ≤ tf_second f ≤ 99 ∧ 0 ≤ tf_nanos f ≤ 999999999.

Lemma parse_int_bound t s v w :
  str_forall is_digit s = true → (str_len s ≤ w)%nat → parse_int t s = Some v →
  0 ≤ v < 10 ^ Z.of_nat w.
Proof.
  intros Hd Hl Hp. destruct (decide (s = ""%string)) as [->|Hne]; [done|].
  destruct (parse_digits 0 s) as [z|] eqn:E.
  - erewrite parse_int_digits in Hp by done. apply checked_Some in Hp as [-> _].
    apply parse_digits_bound in E as [? ?]. split; [done|]. eapply Z.lt_le_trans; [done|].
    apply Z.pow_le_mono_r; lia.
  - exfalso. clear -Hd E. revert E. generalize 0. induction s as [|a s IH]; intros z; [done|].
    cbn in Hd. apply andb_true_iff in Hd as [Ha Hd]. cbn [parse_digits]. rewrite Ha. by apply IH.
Qed.

Lemma digits_bound s w v : digits s w = Some v → 0 ≤ v < 10 ^ Z.of_nat w.
Proof.
  unfold digits. destruct (_ =? 0)%nat; [done|]. destruct (Nat.ltb_spec w (str_len s)); [done|].
  destruct (str_forall is_digit s) eqn:Hd; [|done]. cbn [orb negb].
  by apply parse_int_bound.
Qed.

Lemma wrap_between t z lo hi : lo ≤ z ≤ hi → imin t ≤ lo → hi ≤ imax t → lo ≤ wrap t z ≤ hi.
Proof. intros. rewrite wrap_id; [done|]. unfold in_range. lia. Qed.

Lemma parse_time_bounds f time f' :
  field_bounds f → parse_temporal_time f time = Some f' → field_bounds f'.
Proof.
  intros (? & ? & ? & _). unfold parse_temporal_time.
  intros (hour & (p & _ & Hh%digits_bound)%bind_Some &
    (minute & Hm & ([second nanos] & Hs & [= <-])%bind_Some)%bind_Some)%bind_Some.
  assert (0 ≤ minute ≤ 99) as Hm'.
  { destruct (splitn3 _ time !! 1%nat); [|simplify_eq; lia]. apply digits_bound in Hm.
    cbn in Hm. lia. }
  assert (0 ≤ second ≤ 99 ∧ 0 ≤ nanos ≤ 999999999) as [? ?].
  { destruct (splitn3 _ time !! 2%nat) as [seconds|]; [|simplify_eq; lia].
    destruct (default _ _) as [sec frac].
    apply bind_Some in Hs as (z & Hz%digits_bound & Hs).
    destruct (Nat.ltb_spec 9 (str_len frac)); [done|].
    destruct (str_forall is_digit frac) eqn:Hd; [|done]. cbn [orb negb] in Hs.
    apply bind_Some in Hs as (n & Hn & [= <- <-]). apply (parse_int_bound _ _ _ 9) in Hn.
    - cbn in Hz, Hn. lia.
    - unfold pad_right. by rewrite str_forall_app, Hd, str_forall_repeat.
    - unfold pad_right. rewrite str_len_app, str_len_repeat. lia. }
  cbn in Hh. unfold field_bounds.
  cbn [tf_year tf_month tf_day tf_hour tf_minute tf_second tf_nanos].
  rewrite !wrap_id by range. lia.
Qed.

Lemma parse_temporal_bounds text f : parse_temporal_fields text = Some f → field_bounds f.
Proof.
  unfold parse_temporal_fields. destruct (match split_once _ _ with Some _ => _ | None => _ end)
    as [date time].
  intros (y & (p & _ & Hy%digits_bound)%bind_Some &
    (mo & (q & _ & Hm%digits_bound)%bind_Some &
     (d & (r & _ & Hd%digits_bound)%bind_Some & Hp)%bind_Some)%bind_Some)%bind_Some.
  destruct (split_on _ date !! 3%nat); [done|]. cbn in Hy, Hm, Hd.
  assert (field_bounds {| tf_year := wrap U16 y; tf_month := wrap U8 mo; tf_day := wrap U8 d;
    tf_hour := 0; tf_minute := 0; tf_second := 0; tf_nanos := 0 |}) as Hf.
  { unfold field_bounds. cbn [tf_year tf_month tf_day tf_hour tf_minute tf_second tf_nanos].
    rewrite !wrap_id by range. lia. }
  destruct time as [time|]; [by eapply parse_time_bounds|by simplify_eq].
Qed.

Lemma parse_timestamp_bounds text f : parse_timestamp_text text = Ok f → field_bounds f.
Proof.
  unfold parse_timestamp_text. destruct (parse_temporal_fields text) eqn:E; [|done].
  intros [= <-]. by eapply parse_temporal_bounds.
Qed.

Lemma parse_date_bounds text f : parse_date_text text = Ok f → field_bounds f.
Proof.
  unfold parse_date_text. destruct (parse_temporal_fields text) eqn:E; [|done].
  cbn [mbind option_bind]. destruct (_ && _ && _); [|done]. intros [= <-].
  by eapply parse_temporal_bounds.
Qed.

(** A value of its column's type. *)
Definition bound_typed (wire_type : Z) (p : ParamValue) : Prop :=
  match p with
  | PBool _ => wire_type = T_BOOLEAN
  | PDouble bits => wire_type = T_DOUBLE ∧ in_range U64 bits
  | PDecimal v => wire_type = T_DECIMAL ∧ in_range I64 v
  | PDate y m d => wire_type = T_DATE ∧ 0 ≤ y ≤ 9999 ∧ 0 ≤ m ≤ 99 ∧ 0 ≤ d ≤ 99
  | PTimestamp y mo d h mi s n =>
    wire_type = T_TIMESTAMP ∧
    field_bounds {| tf_year := y; tf_month := mo; tf_day := d; tf_hour := h; tf_minute := mi;
                    tf_second := s; tf_nanos := n |}
  | PText s =>
    wire_text s ∧ wire_type ∉ [T_BOOLEAN; T_DOUBLE; T_DECIMAL; T_DATE; T_TIMESTAMP]
  end.

Section Encode.
Context `{BuildProfile, SerdeJson, !SerdeJsonLaws H0, PowI}.

(** The text of a value is a Rust string shorter than 2 GiB. *)
Definition json_ok (v : json) : Prop := wire_text (param_text v).

Lemma saturating_in_range t z : in_range t (saturating t z).
Proof. unfold saturating, in_range. pose proof (imin_imax t). lia. Qed.

Lemma f64_to_int_in_range t x : in_range t (f64_to_int t x).
Proof.
  pose proof (imin_imax t). unfold f64_to_int.
  destruct x as [s|s| |s m e]; [unfold in_range; lia|destruct s; unfold in_range; lia
    |unfold in_range; lia|apply saturating_in_range].
Qed.

Lemma scale_decimal_range v scale z :
  scale_decimal_value v scale = Ok z → in_range I64 z.
Proof.
  unfold scale_decimal_value. destruct (json_as_i64 v) as [i|] eqn:Hi.
  - destruct (scale <=? 0); [destruct (scale =? 0)|destruct (checked I128 _)].
    + intros [= <-]. destruct v; try done. by apply as_i64_range in Hi.
    + destruct (arith I32 (- scale)); [|done..]. intros [= <-]. apply f64_to_int_in_range.
    + intros [= <-]. unfold in_range. pose proof (imin_imax I64). lia.
    + intros [= <-]. apply f64_to_int_in_range.
  - destruct (json_as_f64 v).
    + destruct (f64_is_nan _); intros [= <-]; [range|apply f64_to_int_in_range].
    + intros [= <-]. range.
Qed.

Lemma bound_value_typed wire_type v scale p :
  json_ok v → bound_value wire_type v scale = Ok p → bound_typed wire_type p.
Proof.
  intros Hv. unfold bound_value.
  destruct (Z.eqb_spec wire_type T_BOOLEAN); [by intros [= <-]|].
  destruct (Z.eqb_spec wire_type T_DOUBLE).
  { intros [= <-]. split; [done|]. destruct (json_as_f64 v) eqn:Hf; [|cbn; range].
    destruct v; try done. by apply as_f64_range in Hf. }
  destruct (Z.eqb_spec wire_type T_DECIMAL).
  { intros (z & Hz & ->)%fmap_ok. split; [done|]. by eapply scale_decimal_range. }
  destruct (Z.eqb_spec wire_type T_DATE).
  { intros (f & (text & _ & Hf)%bind_ok & [= <-])%bind_ok.
    destruct (parse_date_text text) as [g| |] eqn:E; try done. injection Hf as ->.
    destruct (parse_date_bounds _ _ E) as (? & ? & ? & _). done. }
  destruct (Z.eqb_spec wire_type T_TIMESTAMP).
  { intros (f & (text & _ & Hf)%bind_ok & [= <-])%bind_ok.
    destruct (parse_timestamp_text text) as [g| |] eqn:E; try done. injection Hf as ->.
    split; [done|]. pose proof (parse_timestamp_bounds _ _ E). by destruct f. }
  intros [= <-]. split; [done|]. rewrite !not_elem_of_cons. set_solver.
Qed.

Lemma write_value_encode wire_type v scale :
  write_value wire_type v scale = encode_bound_value <$> bound_value wire_type v scale.
Proof.
  unfold write_value, bound_value.
  destruct (wire_type =? T_BOOLEAN); [done|]. destruct (wire_type =? T_DOUBLE); [done|].
  destruct (wire_type =? T_DECIMAL); [by destruct (scale_decimal_value v scale)|].
  destruct (wire_type =? T_DATE).
  { destruct (temporal_text v DATE_TEXT_FORM) as [text| |]; [|done..].
    cbn [mbind outcome_bind]. destruct (parse_date_text text) as [f| |] eqn:E; [|done..].
    destruct (parse_date_bounds _ _ E) as (? & ? & ? & _).
    cbn [map_err mbind outcome_bind fmap outcome_fmap encode_bound_value].
    rewrite !Z.shiftl_mul_pow2 by lia. change (2 ^ 16) with 65536. change (2 ^ 8) with 256.
    rewrite !wrap_id by range. run_arith. done. }
  destruct (wire_type =? T_TIMESTAMP); [|by destruct v].
  destruct (temporal_text v TIMESTAMP_TEXT_FORM) as [text| |]; [|done..].
  cbn [mbind outcome_bind]. destruct (parse_timestamp_text text) as [f| |] eqn:E; [|done..].
  destruct (parse_timestamp_bounds _ _ E) as (? & ? & ? & ? & ? & ? & ?).
  cbn [map_err mbind outcome_bind fmap outcome_fmap encode_bound_value].
  by rewrite wrap_id by range.
Qed.

Lemma write_param_encode wire_type v scale :
  write_param_value wire_type v scale = encode_bound_param <$> bound_param wire_type v scale.
Proof.
  unfold write_param_value, bound_param. rewrite write_value_encode.
  assert (∀ m : outcome TransportError ParamValue,
    (bytes ← encode_bound_value <$> m; Ok (byte_of 1 :: bytes))
    = encode_bound_param <$> (Some <$> m)) as Hm by (by intros []).
  destruct v as [|b|n|s|vs|ms]; cbn [json_is_null json_as_str orb];
    [done| | | | |]; try (rewrite andb_false_r || (rewrite bool_decide_eq_false_2, andb_false_r by done);
      apply Hm).
  destruct s as [|a s].
  - rewrite bool_decide_eq_true_2, andb_true_r by done.
    destruct (decide (wire_type ∈ [T_DATE; T_TIMESTAMP])) as [Hin|Hin].
    + rewrite !list_elem_of_In in Hin. cbn in Hin. destruct Hin as [<-|[<-|[]]]; done.
    + rewrite !not_elem_of_cons in Hin. destruct Hin as (Hd & Ht & _).
      rewrite !(proj2 (Z.eqb_neq _ _)) by done. apply Hm.
  - rewrite bool_decide_eq_false_2, andb_false_r by done. apply Hm.
Qed.

(** The bytes of the rows. *)
Definition encode_row (row : list (option ParamValue)) : list byte :=
  concat (encode_bound_param <$> row).
Definition encode_rows (rows : list (list (option ParamValue))) : list byte :=
  concat (encode_row <$> rows).

Lemma write_row_encode cols columns row :
  write_parameter_row cols columns row = encode_row <$> bound_row cols columns row.
Proof.
  unfold write_parameter_row, bound_row.
  rewrite (mapM_outcome_fmap (bound_cell row) encode_bound_param).
  - unfold_monad. by destruct (mapM _ _).
  - apply Forall_true. intros [col_values column]. unfold bound_cell. cbn [fst snd].
    destruct (col_values !! row); [apply write_param_encode|done].
Qed.

Lemma write_rows_encode cols columns rows :
  write_parameter_rows cols columns rows = encode_rows <$> bound_rows cols columns rows.
Proof.
  unfold write_parameter_rows, bound_rows.
  rewrite (mapM_outcome_fmap (bound_row cols columns) encode_row).
  - unfold_monad. by destruct (mapM _ _).
  - apply Forall_true. intros row. apply write_row_encode.
Qed.
End Encode.

(** ** Reading back *)
Section ReadBack.
Context `{BuildProfile, SerdeJson, !SerdeJsonLaws H0, PowI}.

Lemma reads_fixed_byte {A} z (k : Z → reader TransportError A) bs a :
  0 ≤ z ≤ 255 → reads (k z) bs a → reads (v ← read_u8; k v) (byte_of z :: bs) a.
Proof.
  intros Hz Hk. assert (byte_of z :: bs = to_le_bytes U8 z ++ bs) as -> by done.
  eapply reads_bind; [apply reads_fixed; range|done].
Qed.

Lemma reads_write_text f s m :
  wire_text s →
  reads (bytes ← read_length_prefixed m; lift (utf8_or f bytes)) (write_text s) s.
Proof.
  intros [Hv Hl]. unfold write_text. rewrite wrap_id by range.
  rewrite <- length_as_bytes in *. fold (encode_bytes (as_bytes s)).
  rewrite <- (app_nil_r (encode_bytes _)). eapply reads_bind; [by apply reads_counted_bytes|].
  by apply reads_utf8.
Qed.

Lemma reads_bound_value wire_type p :
  bound_typed wire_type p →
  reads (read_bound_value wire_type) (encode_bound_value p) p.
Proof.
  unfold read_bound_value. destruct p as [b|bits|v|y m d|y mo d h mi s n|s];
    cbn [bound_typed encode_bound_value].
  - intros ->. cbn [Z.eqb Pos.eqb T_BOOLEAN]. apply reads_fixed_byte; [destruct b; lia|].
    destruct b; apply reads_ret.
  - intros [-> Hb]. by eapply reads_bind_ret; [apply reads_fixed|].
  - intros [-> Hv]. by eapply reads_bind_ret; [apply reads_fixed|].
  - intros (-> & Hy & Hm & Hd). eapply reads_bind_ret; [apply reads_fixed; range|].
    f_equal; Z.div_mod_to_equations; lia.
  - intros (-> & Hf). destruct Hf as (? & ? & ? & ? & ? & ? & ?).
    cbn [tf_year tf_month tf_day tf_hour tf_minute tf_second tf_nanos] in *.
    eapply reads_bind.
    { assert (to_le_bytes U16 y = to_le_bytes I16 y) as -> by done. apply reads_fixed. range. }
    cbn [fmap list_fmap app]. do 5 (apply reads_fixed_byte; [lia|]).
    eapply reads_bind_ret; [apply reads_fixed; range|done].
  - intros [Hs Hn]. rewrite !not_elem_of_cons in Hn. destruct Hn as (? & ? & ? & ? & ? & _).
    rewrite !(proj2 (Z.eqb_neq _ _)) by done.
    destruct Hs as [Hv Hl]. unfold write_text. rewrite wrap_id by range.
    rewrite <- length_as_bytes. fold (encode_bytes (as_bytes s)).
    rewrite <- (app_nil_r (encode_bytes _)). eapply reads_bind.
    { apply reads_counted_bytes. by rewrite length_as_bytes. }
    eapply reads_bind_nil; [by apply reads_utf8|apply reads_ret].
Qed.

Lemma reads_bound_param column p :
  (∀ v, p = Some v → bound_typed (ph_type column) v) →
  reads (read_bound_param column) (encode_bound_param p) p.
Proof.
  intros Hp. unfold read_bound_param. destruct p as [v|]; cbn [encode_bound_param].
  - apply reads_fixed_byte; [lia|]. cbn [Z.eqb].
    eapply reads_bind_ret; [by apply reads_bound_value, Hp|done].
  - apply reads_fixed_byte; [lia|]. apply reads_ret.
Qed.

(** The header the server receives for a column. *)
Definition param_header (h : PreparedStatementHandle) (i : nat) (c : ParameterColumn)
    : ParamHeader :=
  {| ph_name := pc_name c; ph_type := pc_wire_type c;
     ph_meta :=
       if pc_wire_type c =? T_CHAR then TextMeta 17 2000000 8000000
       else if pc_wire_type c =? T_DECIMAL then
         DecimalMeta (decimal_metadata h i).1 (decimal_metadata h i).2
       else if pc_wire_type c =? T_TIMESTAMP then TimestampMeta 9
       else NoMeta |}.

(** The same as the description of a result column. *)
Definition param_meta (h : PreparedStatementHandle) (i : nat) (c : ParameterColumn)
    : NativeColumnMeta :=
  let decimal := pc_wire_type c =? T_DECIMAL in
  let char := pc_wire_type c =? T_CHAR in
  {| name := pc_name c; type_id := pc_wire_type c;
     precision := if decimal then Some (decimal_metadata h i).1 else None;
     scale := if decimal then Some (decimal_metadata h i).2 else None;
     is_varchar := char; max_len := if char then Some 2000000 else None;
     interval_fraction := None |}.

(** The types whose parameter headers have the layout of a result column, and the ones
    whose result columns are described by more than the driver writes. *)
Definition result_layout : list Z := [T_BOOLEAN; T_DOUBLE; T_DECIMAL; T_CHAR; T_DATE; T_TIMESTAMP].
Definition bare_layout : list Z := [T_GEOMETRY; T_HASHTYPE; T_INTERVAL_YEAR; T_INTERVAL_DAY].

(** A header against the layout of a result column's description. *)
Definition header_layout (h : PreparedStatementHandle) (i : nat) (c : ParameterColumn) : Prop :=
  (pc_wire_type c ∈ result_layout ∧
     parse_column_meta (column_header h i c) 0%nat
     = Ok (param_meta h i c, length (column_header h i c))) ∨
  (pc_wire_type c ∈ bare_layout ∧
     ∃ e, parse_column_meta (column_header h i c) 0%nat = Err e).

Definition type_ok (dt : DataType) : Prop :=
  in_range I32 (default 18 (dt_precision dt)) ∧ in_range I32 (default 0 (dt_scale dt)).

Lemma decimal_metadata_range h i :
  Forall type_ok (parameter_types h) →
  in_range I32 (decimal_metadata h i).1 ∧ in_range I32 (decimal_metadata h i).2.
Proof.
  intros Hh. unfold decimal_metadata.
  destruct (parameter_types h !! i) as [dt|] eqn:E; [|cbn; split; range].
  apply (Forall_lookup_1 _ _ _ _ Hh E).
Qed.

(** The wire types of parameters, whatever types a statement declares. *)
Lemma parameter_wire_type h cols c :
  c ∈ parameter_columns h cols →
  pc_wire_type c ∈ result_layout ∨ pc_wire_type c ∈ bare_layout.
Proof.
  intros [i Hi]%list_elem_of_lookup. unfold parameter_columns in Hi.
  rewrite list_lookup_imap in Hi. destruct (cols !! i) as [col|]; [|done].
  cbn [fmap option_fmap option_map] in Hi. destruct (infer_wire_type h i col) as [t nm] eqn:E.
  injection Hi as <-. cbn [pc_wire_type]. unfold infer_wire_type in E.
  destruct (parameter_types h !! i) as [dt|].
  - injection E as <- _. unfold data_type_to_wire_type.
    repeat match goal with |- context [if ?b then _ else _] =>
      destruct b; [by (left; by_decision) || (right; by_decision)|] end.
    left. by_decision.
  - injection E as <- _. left. destruct col as [|[|b|n|s|vs|ms] col]; try by_decision.
    cbn [head fmap option_fmap option_map default from_option id json_value_to_wire_type].
    destruct (_ && _); by_decision.
Qed.

(** The name, the type and what follows them. *)
Lemma reads_header_prefix {A} (k : string → Z → reader TransportError A) m f c bs a :
  wire_text (pc_name c) → in_range I32 (pc_wire_type c) →
  reads (k (pc_name c) (pc_wire_type c)) bs a →
  reads (len ← read_i32; bytes ← take_cast_length len m; nm ← lift (utf8_or f bytes);
         t ← read_i32; k nm t)
    (write_text (pc_name c) ++ to_le_bytes I32 (wrap I32 (pc_wire_type c)) ++ bs) a.
Proof.
  intros [Hv Hl] Ht Hk. unfold write_text. rewrite (wrap_id I32 (Z.of_nat _)) by range.
  rewrite <- app_assoc. rewrite <- length_as_bytes in *.
  apply reads_i32; [range|]. eapply reads_bind; [by apply reads_take_cast|].
  eapply reads_bind_nil; [by apply reads_utf8|]. rewrite wrap_id by done.
  by apply reads_i32.
Qed.

(** A reader that goes on behind the end of the bytes. *)
Definition stops {A} (r : reader TransportError A) (bs : list byte) : Prop := ∀ pre,
  payload_fits (length (pre ++ bs)) → ∃ e, r (pre ++ bs) (length pre) = Err e.

Lemma stops_bind {A B} (r : reader TransportError A) (k : A → reader TransportError B) bs1 bs2 a :
  reads r bs1 a → stops (k a) bs2 → stops (r ≫= k) (bs1 ++ bs2).
Proof.
  intros Hr Hk pre Hf. unfold mbind, reader_bind. rewrite Hr by done.
  specialize (Hk (pre ++ bs1)). rewrite <- app_assoc, (length_app pre bs1) in Hk.
  destruct (Hk Hf) as [e He]. exists e. exact He.
Qed.

Lemma layout_wire_type t :
  t ∈ result_layout ∨ t ∈ bare_layout → in_range I32 t ∧ wrap U32 t = t.
Proof.
  rewrite !list_elem_of_In. cbn [In result_layout bare_layout].
  intros Ht. naive_solver (subst; vm_range || done).
Qed.

Lemma reads_i32_last z : in_range I32 z → reads read_i32 (to_le_bytes I32 z) z.
Proof. intros. by apply reads_fixed. Qed.

Lemma reads_header h i c :
  Forall type_ok (parameter_types h) → in_range I32 (pc_wire_type c) →
  wire_text (pc_name c) →
  reads read_parameter_header (column_header h i c) (param_header h i c).
Proof.
  intros Hh Ht Hn. destruct (decimal_metadata_range h i Hh) as [Hp Hs].
  unfold read_parameter_header, column_header. apply (reads_header_prefix (λ nm t, _)); [done|done|].
  eapply reads_bind_ret; [|done].
  unfold param_header, write_column_metadata, read_header_meta. cbn [ph_meta].
  destruct (pc_wire_type c =? T_CHAR).
  { cbn [app]. apply reads_fixed_byte; [vm_compute; split; discriminate|].
    apply reads_i32; [range|]. eapply reads_bind_ret; [apply reads_i32_last; range|done]. }
  destruct (pc_wire_type c =? T_DECIMAL).
  { destruct (decimal_metadata h i) as [p sc]. apply reads_i32; [done|].
    by eapply reads_bind_ret; [apply reads_i32_last|]. }
  destruct (pc_wire_type c =? T_TIMESTAMP); [|apply reads_ret].
  eapply reads_bind_ret; [apply reads_i32_last; vm_range|done].
Qed.

Lemma result_header h i c :
  Forall type_ok (parameter_types h) → pc_wire_type c ∈ result_layout →
  wire_text (pc_name c) →
  reads parse_column_meta (column_header h i c) (param_meta h i c).
Proof.
  intros Hh Ht Hn. destruct (decimal_metadata_range h i Hh) as [Hp Hs].
  destruct (layout_wire_type _ (or_introl Ht)) as [Hr Hw].
  unfold column_header. apply (reads_header_prefix (λ nm id, _)); [done|done|].
  cbv beta. rewrite Hw. unfold param_meta, write_column_metadata. destruct c as [nm wt sc].
  cbn [pc_name pc_wire_type] in *. rewrite list_elem_of_In in Ht.
  destruct Ht as [<-|[<-|[<-|[<-|[<-|[<-|[]]]]]]]; cbn -[reads to_le_bytes]; try apply reads_ret.
  - destruct (decimal_metadata h i) as [prec sc']. cbn [fst snd] in *.
    apply reads_i32; [done|]. by eapply reads_bind_ret; [apply reads_i32_last|].
  - eapply (reads_bind (read_vc_flag _) _ [byte_of 17]); [|].
    { unfold read_vc_flag. by eapply reads_bind_ret; [apply (reads_fixed U8 _ 17); range|]. }
    apply reads_i32; [range|]. eapply reads_bind_ret; [apply reads_i32_last; range|done].
  - eapply reads_bind_ret; [apply reads_i32_last; vm_range|done].
Qed.

Lemma header_fits h i c :
  wire_text (pc_name c) → payload_fits (length (column_header h i c)).
Proof.
  intros [_ Hl]. unfold payload_fits, rust_payload, column_header, write_text.
  rewrite !length_app, !length_to_le_bytes, length_as_bytes.
  assert (length (write_column_metadata h i (pc_wire_type c)) ≤ 9)%nat.
  { unfold write_column_metadata. destruct (decimal_metadata h i). repeat case_match; cbn; lia. }
  cbn [ibytes]. range.
Qed.

(** The description of a GEOMETRY, HASHTYPE or INTERVAL result column goes on where the
    header of such a parameter ends. *)
Lemma bare_header h i c :
  pc_wire_type c ∈ bare_layout → wire_text (pc_name c) →
  ∃ e, parse_column_meta (column_header h i c) 0%nat = Err e.
Proof.
  intros Ht Hn. destruct (layout_wire_type _ (or_intror Ht)) as [Hr Hw].
  apply (λ Hs : stops parse_column_meta _, Hs [] (header_fits h i c Hn)).
  destruct Hn as [Hv Hl]. unfold column_header, write_text.
  rewrite (wrap_id I32 (Z.of_nat _)), wrap_id by (range || done).
  rewrite <- app_assoc, <- length_as_bytes in *. unfold parse_column_meta.
  eapply stops_bind; [by apply reads_fixed; range|].
  eapply stops_bind; [by apply reads_take_cast|].
  apply (stops_bind _ _ [] _ (pc_name c)); [by apply reads_utf8|].
  apply (stops_bind _ _ (to_le_bytes I32 (pc_wire_type c)) _ (pc_wire_type c));
    [by apply reads_fixed|].
  rewrite Hw. intros pre _. rewrite list_elem_of_In in Ht.
  destruct Ht as [<-|[<-|[<-|[<-|[]]]]]; cbn -[read_vc_flag];
    unfold read_vc_flag, mbind, reader_bind, read_fixed;
    rewrite app_nil_r, (proj2 (Nat.ltb_lt _ _)) by (cbn; lia); by eexists.
Qed.

Lemma header_layouts h cols i c :
  Forall type_ok (parameter_types h) → parameter_columns h cols !! i = Some c →
  wire_text (pc_name c) → header_layout h i c.
Proof.
  intros Hh Hi Hn.
  destruct (parameter_wire_type h cols c) as [Ht|Ht]; [by eapply list_elem_of_lookup_2|..].
  - left. split; [done|]. apply reads_run; [by apply header_fits|]. by apply result_header.
  - right. split; [done|]. by apply bare_header.
Qed.

(** The whole payload. *)
Definition params_ok (h : PreparedStatementHandle) (cols : list (list json)) : Prop :=
  in_range I32 (ps_handle h) ∧ Forall type_ok (parameter_types h) ∧
  Forall (wire_text ∘ pc_name) (parameter_columns h cols) ∧ Forall (Forall json_ok) cols ∧
  Z.of_nat (length cols) ≤ imax I32 ∧ Z.of_nat (first_len cols) ≤ imax I64.

Lemma length_parameter_columns h cols : length (parameter_columns h cols) = length cols.
Proof. apply length_imap. Qed.

(** A bound row has a value of each column's type. *)
Lemma bound_row_typed cols columns row r :
  length columns = length cols → Forall (Forall json_ok) cols →
  bound_row cols columns row = Ok r →
  Forall2 (λ c p, ∀ v, p = Some v → bound_typed (pc_wire_type c) v) columns r.
Proof.
  intros Hl Hj Hr%mapM_outcome_ok. revert columns r Hl Hr.
  induction Hj as [|col cols Hcol _ IH]; intros [|c columns] r Hl Hr; try done.
  { inversion Hr; subst. constructor. }
  inversion Hr as [|? p ? r' Hp Hr']; subst. constructor; [|apply IH; [cbn in Hl; lia|done]].
  unfold bound_cell in Hp. cbn [fst snd] in Hp. destruct (col !! row) as [j|] eqn:E; [|done].
  assert (json_ok j) as Hjo by by apply (Forall_lookup_1 _ _ _ _ Hcol E).
  intros v ->. unfold bound_param in Hp.
  assert (∀ m : outcome TransportError ParamValue, Some <$> m = Ok (Some v) → m = Ok v) as Hm
    by (intros []; cbn; congruence).
  destruct j as [|b|n|s|vs|ms]; try done; try by eapply bound_value_typed, Hm.
  destruct s; [destruct (decide _); [done|]|]; by eapply bound_value_typed, Hm.
Qed.

Lemma reads_bound_row (f : nat → ParameterColumn → ParamHeader) columns r :
  (∀ i c, ph_type (f i c) = pc_wire_type c) →
  Forall2 (λ c p, ∀ v, p = Some v → bound_typed (pc_wire_type c) v) columns r →
  reads (read_each read_bound_param (imap f columns)) (encode_row r) r.
Proof.
  intros Hf Hr. revert f Hf. induction Hr as [|c p columns r Hp _ IH]; intros f Hf.
  - apply reads_ret.
  - rewrite imap_cons. cbn [read_each]. unfold encode_row. rewrite fmap_cons.
    cbn [concat]. eapply reads_bind; [by apply reads_bound_param; rewrite Hf|].
    eapply reads_bind_ret; [apply (IH (f ∘ S)); intros; apply Hf|done].
Qed.

Lemma reads_headers h columns :
  Forall type_ok (parameter_types h) →
  Forall (λ c, in_range I32 (pc_wire_type c) ∧ wire_text (pc_name c)) columns →
  reads (read_times (length columns) read_parameter_header)
    (concat (imap (column_header h) columns)) (imap (param_header h) columns).
Proof.
  intros Hh Hc.
  rewrite <- (length_imap pair columns).
  replace (imap (column_header h) columns)
    with ((λ '(i, c), column_header h i c) <$> imap pair columns) by apply fmap_imap.
  replace (imap (param_header h) columns)
    with ((λ '(i, c), param_header h i c) <$> imap pair columns) by apply fmap_imap.
  apply reads_times_map, Forall_lookup. intros k [i c] Hk.
  rewrite list_lookup_imap in Hk. destruct (columns !! k) as [c'|] eqn:E; [|done].
  cbn in Hk. simplify_eq. destruct (Forall_lookup_1 _ _ _ _ Hc E). by apply reads_header.
Qed.

Lemma reads_payload h cols rows :
  params_ok h cols →
  bound_rows cols (parameter_columns h cols) (seq 0 (first_len cols)) = Ok rows →
  reads read_parameters
    (payload_prefix h (parameter_columns h cols) (first_len cols) ++ encode_rows rows)
    {| rc_handle := ps_handle h; rc_columns := imap (param_header h) (parameter_columns h cols);
       rc_total_rows := Z.of_nat (first_len cols); rc_rows := rows |}.
Proof.
  intros (Hi & Ht & Hc & Hj & Hl & Hn) Hr%mapM_outcome_ok.
  set (columns := parameter_columns h cols) in *.
  assert (length columns = length cols) as El by apply length_parameter_columns.
  pose proof (Forall2_length _ _ _ Hr) as Hlr. rewrite length_seq in Hlr.
  unfold payload_prefix, read_parameters. rewrite <- !app_assoc.
  apply reads_i32; [done|]. apply reads_i32; [vm_range|].
  cbn [app]. apply reads_fixed_byte; [vm_compute; split; discriminate|].
  rewrite !wrap_id by range. apply reads_i32; [range|].
  do 2 (eapply reads_bind; [apply reads_fixed; range|]). rewrite !Nat2Z.id.
  assert (Forall (λ c, in_range I32 (pc_wire_type c) ∧ wire_text (pc_name c)) columns) as Hw.
  { apply Forall_forall. intros c Hin. split; [|by apply (proj1 (Forall_forall _ _) Hc)].
    by apply layout_wire_type, (parameter_wire_type h cols). }
  eapply reads_bind; [by apply reads_headers|].
  eapply reads_bind_ret; [|done]. rewrite Hlr.
  apply (reads_times _ encode_row). apply Forall_lookup. intros k r Hk.
  destruct (Forall2_lookup_r _ _ _ _ _ Hr Hk) as (row & _ & Hrow).
  eapply reads_bound_row; [done|]. by eapply bound_row_typed.
Qed.

End ReadBack.
