(* ===== verification/ParamSplit.v ===== *)
(** * Splitting a parameter set into messages

    The theorem that [split_parameter_rows] partitions the rows of a parameter set
    into consecutive messages, each within the limit unless it is a single row, and
    that no message could have taken the next row; and what single values mean: DECIMAL
    scaling, DATE and TIMESTAMP text against the calendar, and the values whose JSON type is
    not their column's. *)
From S2P Require Import Prelude MachineInt Constants Errors Attributes Float64 Json.
From S2P Require Import ResultParser Messages ParamEncoding RustStr Gregorian DateTime.
From S2P Require Import ExasolTypes ResultCodec ParamCodec.
From Stdlib Require Import Ascii Floats.SpecFloat.

#[local] Open Scope Z_scope.

(** The size of a CMD_EXECUTE_PREPARED message: header, attributes and payload. *)
Definition message_size (payload : list byte) : Z :=
  Z.of_nat (HEADER_SIZE + length (AttributeSet_serialize execute_prepared_attributes)
            + length payload).

(** Non-empty ranges that follow each other from [first] to [last]. *)
Fixpoint consecutive (first last : nat) (ranges : list RowRange) : Prop :=
  match ranges with
  | [] => first = last
  | r :: ranges =>
    (r_rows r).1 = first ∧ (first < (r_rows r).2)%nat ∧ consecutive (r_rows r).2 last ranges
  end.

Lemma consecutive_snoc first mid last ranges r :
  consecutive first mid ranges → (r_rows r).1 = mid → (mid < (r_rows r).2)%nat →
  (r_rows r).2 = last → consecutive first last (ranges ++ [r]).
Proof.
  revert first. induction ranges as [|r' ranges IH]; intros first; cbn [consecutive app].
  - by intros -> <- ? <-.
  - intros (? & ? & ?) ???. split_and!; [done|done|]. by apply IH.
Qed.

(** ** The loop without failures *)
Definition split_pure (overhead : nat) (limit : Z) (st : SplitState) (rb : nat * list byte)
    : SplitState :=
  let bytes := s_bytes st ++ rb.2 in
  if (s_first_row st <? rb.1)%nat &&
     (limit <? Z.of_nat (overhead + (length bytes - s_first_byte st)))
  then {| s_bytes := bytes;
          s_ranges := s_ranges st ++ [{| r_rows := (s_first_row st, rb.1);
                                         r_bytes := (s_first_byte st, length (s_bytes st)) |}];
          s_first_row := rb.1; s_first_byte := length (s_bytes st) |}
  else {| s_bytes := bytes; s_ranges := s_ranges st;
          s_first_row := s_first_row st; s_first_byte := s_first_byte st |}.

Section Loop.
Context `{BuildProfile, SerdeJson, PowI}.

Lemma split_loop_pure overhead limit cols columns st rows :
  split_loop overhead limit cols columns st rows
  = (λ bs, foldl (split_pure overhead limit) st (zip rows bs))
      <$> mapM (write_parameter_row cols columns) rows.
Proof.
  revert st. induction rows as [|row rows IH]; intros st; [done|].
  cbn [split_loop mapM]. unfold split_step, write_parameter_rows. cbn [mapM].
  destruct (write_parameter_row cols columns row) as [b| |]; [|done..].
  cbn [mbind outcome_bind mret outcome_ret concat]. rewrite app_nil_r.
  match goal with |- context [if ?c then Ok ?x else Ok ?y] =>
    assert ((if c then @Ok TransportError _ x else Ok y)
            = Ok (split_pure overhead limit st (row, b))) as ->
      by (unfold split_pure; cbn [fst snd]; by destruct c) end.
  cbn [mbind outcome_bind]. rewrite IH.
  by destruct (mapM (write_parameter_row cols columns) rows).
Qed.
End Loop.

(** ** The invariant *)
Section Invariant.
Context (overhead : nat) (limit : Z) (rbs : list (list byte)).

(** The offset of a row. *)
Definition row_offset (k : nat) : nat := length (concat (take k rbs)).

Definition range_good (r : RowRange) : Prop :=
  let '(a, b) := r_rows r in
  (a < b ≤ length rbs)%nat ∧ r_bytes r = (row_offset a, row_offset b) ∧
  (b = S a ∨ Z.of_nat (overhead + (row_offset b - row_offset a)) ≤ limit) ∧
  ((b < length rbs)%nat → limit < Z.of_nat (overhead + (row_offset (S b) - row_offset a))).

Definition split_inv (k : nat) (st : SplitState) : Prop :=
  s_bytes st = concat (take k rbs) ∧ s_first_byte st = row_offset (s_first_row st) ∧
  (s_first_row st < k ∨ k = 0 ∧ s_first_row st = 0)%nat ∧
  consecutive 0 (s_first_row st) (s_ranges st) ∧ Forall range_good (s_ranges st) ∧
  ((S (s_first_row st) < k)%nat →
   Z.of_nat (overhead + (row_offset k - row_offset (s_first_row st))) ≤ limit).

Lemma concat_take_S k b :
  rbs !! k = Some b → concat (take k rbs) ++ b = concat (take (S k) rbs).
Proof.
  intros Hk. rewrite (take_S_r _ _ _ Hk), concat_app. cbn [concat]. by rewrite app_nil_r.
Qed.

Lemma split_inv_step k st b :
  rbs !! k = Some b → split_inv k st → split_inv (S k) (split_pure overhead limit st (k, b)).
Proof.
  intros Hk (Hb & Hf & Hlt & Hc & Hg & Hs). pose proof (lookup_lt_Some _ _ _ Hk) as Hl.
  unfold split_pure. cbn [fst snd]. rewrite Hb, (concat_take_S k b Hk), Hf.
  fold (row_offset (S k)) (row_offset k).
  destruct (Nat.ltb_spec (s_first_row st) k) as [Hlt'|Hge]; cbn [andb];
    [destruct (Z.ltb_spec limit (Z.of_nat (overhead + (row_offset (S k)
        - row_offset (s_first_row st))))) as [Hbig|Hsmall]|];
    unfold split_inv; cbn [s_bytes s_ranges s_first_row s_first_byte].
  - split_and!; [done|done|lia| | |lia].
    + eapply consecutive_snoc; [exact Hc|done|exact Hlt'|done].
    + apply Forall_app_2; [done|]. constructor; [|constructor].
      unfold range_good. cbn [r_rows r_bytes]. split_and!; [lia|lia|done| |done].
      destruct (decide (k = S (s_first_row st))); [by left|right; apply Hs; lia].
  - split_and!; [done|done|lia|done|done|]. intros _. exact Hsmall.
  - split_and!; [done|done|lia|done|done|]. lia.
Qed.

Lemma split_inv_loop k st :
  (k ≤ length rbs)%nat → split_inv k st →
  split_inv (length rbs)
    (foldl (split_pure overhead limit) st (zip (seq k (length rbs - k)) (drop k rbs))).
Proof.
  intros Hk. remember (length rbs - k)%nat as m eqn:Em. revert k st Hk Em.
  induction m as [|m IH]; intros k st Hk Em Hi.
  - assert (k = length rbs) as -> by lia. done.
  - destruct (lookup_lt_is_Some_2 rbs k ltac:(lia)) as [b Hb].
    rewrite (drop_S _ _ _ Hb). cbn [seq zip zip_with foldl].
    apply IH; [lia|lia|]. by apply split_inv_step.
Qed.
End Invariant.

(** ** Messages *)
Section Messages.
Context `{BuildProfile, SerdeJson, PowI}.

Lemma length_payload_prefix h columns n m :
  length (payload_prefix h columns n) = length (payload_prefix h columns m).
Proof. unfold payload_prefix. by rewrite !length_app, !length_to_le_bytes. Qed.

Lemma message_size_overhead h columns n bytes :
  message_size (payload_prefix h columns n ++ bytes)
  = Z.of_nat (message_overhead h columns + length bytes).
Proof.
  unfold message_size, message_overhead.
  rewrite length_app, (length_payload_prefix h columns n 0). lia.
Qed.

(** The bytes of a run of rows. *)
Lemma rows_between cols columns rbs a b :
  mapM (write_parameter_row cols columns) (seq 0 (length rbs)) = Ok rbs →
  (a ≤ b ≤ length rbs)%nat →
  write_parameter_rows cols columns (seq a (b - a)) = Ok (concat (take (b - a) (drop a rbs))).
Proof.
  intros Hm%mapM_outcome_ok Hab. unfold write_parameter_rows.
  assert (mapM (write_parameter_row cols columns) (seq a (b - a))
          = Ok (take (b - a) (drop a rbs))) as ->; [|done].
  apply mapM_outcome_ok. apply (Forall2_drop _ _ _ a), (Forall2_take _ _ _ (b - a)) in Hm.
  by rewrite drop_seq, take_seq, Nat.min_l, Nat.add_0_l in Hm by lia.
Qed.

Lemma concat_split (rbs : list (list byte)) a b :
  (a ≤ b)%nat →
  concat (take b rbs) = concat (take a rbs) ++ concat (take (b - a) (drop a rbs)).
Proof.
  intros Hab. rewrite <- concat_app. f_equal.
  rewrite <- (take_drop a (take b rbs)) at 1. rewrite take_take, Nat.min_l by lia.
  by rewrite skipn_firstn_comm.
Qed.

Lemma length_between (rbs : list (list byte)) a b :
  (a ≤ b)%nat →
  (row_offset rbs b - row_offset rbs a)%nat = length (concat (take (b - a) (drop a rbs))).
Proof.
  intros Hab. unfold row_offset. rewrite (concat_split rbs a b Hab), length_app. lia.
Qed.

Lemma slice_between (rbs : list (list byte)) a b E :
  (a ≤ b)%nat →
  byte_slice (E := E) (row_offset rbs a) (row_offset rbs b) (concat rbs)
  = Ok (concat (take (b - a) (drop a rbs))).
Proof.
  intros Hab. unfold byte_slice.
  assert (concat rbs = concat (take b rbs) ++ concat (drop b rbs)) as ->
    by (by rewrite <- concat_app, take_drop).
  pose proof (concat_split rbs a b Hab) as Hc.
  rewrite !(proj2 (Nat.leb_le _ _)).
  - cbn [andb]. f_equal. rewrite (length_between rbs a b Hab). unfold row_offset.
    rewrite Hc, <- app_assoc. apply take_drop_mid.
  - unfold row_offset. rewrite length_app. lia.
  - unfold row_offset. rewrite Hc, length_app. lia.
Qed.

(** What a range of an encoded parameter set stands for. *)
Definition range_message (h : PreparedStatementHandle) (cols : list (list json)) (limit : Z)
    (enc : EncodedParameterRows) (r : RowRange) : Prop :=
  let columns := parameter_columns h cols in
  let '(a, b) := r_rows r in
  ∃ rows payload,
    write_parameter_rows cols columns (seq a (b - a)) = Ok rows ∧
    build_range_payload h enc r = Ok payload ∧
    payload = payload_prefix h columns (b - a) ++ rows ∧
    (b = S a ∨ message_size payload ≤ limit) ∧
    ((b < first_len cols)%nat → ∀ more,
       write_parameter_rows cols columns (seq a (S b - a)) = Ok more →
       limit < message_size (payload_prefix h columns (S b - a) ++ more)).

Lemma range_good_message h cols limit enc rbs r :
  mapM (write_parameter_row cols (parameter_columns h cols)) (seq 0 (first_len cols)) = Ok rbs →
  e_columns enc = parameter_columns h cols → e_bytes enc = concat rbs →
  range_good (message_overhead h (parameter_columns h cols)) limit rbs r →
  range_message h cols limit enc r.
Proof.
  intros Hm Hc Hb. pose proof Hm as Hl%mapM_outcome_ok%Forall2_length.
  rewrite length_seq in Hl. unfold range_good, range_message.
  destruct r as [[a b] rb]. cbn [r_rows r_bytes]. intros (Hab & -> & Hs & Hg).
  rewrite Hl in *.
  eexists _, _. split; [apply (rows_between cols _ rbs); [done|lia]|].
  split; [|split; [reflexivity|split]].
  - unfold build_range_payload, range_rows. cbn [r_rows r_bytes fst snd].
    rewrite Hb, Hc, slice_between by lia. done.
  - rewrite message_size_overhead, <- length_between by lia. destruct Hs; [by left|by right].
  - intros Hlt more Hmore. rewrite (rows_between cols _ rbs a (S b)) in Hmore by (done || lia).
    injection Hmore as <-. rewrite message_size_overhead, <- length_between by lia.
    by apply Hg.
Qed.

(** The ranges of a parameter set whose rows all encode. *)
Lemma split_ok h cols limit bytes :
  write_parameter_rows cols (parameter_columns h cols) (seq 0 (first_len cols)) = Ok bytes →
  ∃ enc, split_parameter_rows h cols limit = Ok enc ∧ e_bytes enc = bytes ∧
    consecutive 0 (first_len cols) (e_ranges enc) ∧
    Forall (range_message h cols limit enc) (e_ranges enc).
Proof.
  unfold split_parameter_rows. rewrite split_loop_pure. unfold write_parameter_rows.
  destruct (mapM (write_parameter_row _ _) _) as [rbs|e|] eqn:Hm; [|done..]. intros [= <-].
  pose proof Hm as Hl%mapM_outcome_ok%Forall2_length. rewrite length_seq in Hl.
  cbn [fmap outcome_fmap mbind outcome_bind].
  set (overhead := message_overhead _ _). set (st0 := {| s_bytes := [] |}).
  assert (split_inv overhead limit rbs 0 st0) as Hi
    by (split_and!; try done; [by right|cbn; lia]).
  apply split_inv_loop in Hi; [|lia]. rewrite drop_0, Nat.sub_0_r, <- Hl in Hi.
  set (st := foldl _ _ _) in *. destruct Hi as (Hb & Hf & Hlt & Hc & Hg & Hs).
  assert (s_bytes st = concat rbs) as Hb' by (by rewrite Hb, take_ge by lia).
  eexists. split; [done|]. cbn [e_bytes e_ranges]. split; [done|].
  destruct (Nat.ltb_spec 0 (first_len cols)) as [Hn|Hn].
  - split; [eapply consecutive_snoc; [exact Hc|done|cbn; lia|done]|].
    apply Forall_app_2; [|constructor; [|constructor]];
      [eapply Forall_impl; [exact Hg|]; intros r Hr|];
      (apply (range_good_message h cols limit _ rbs); [done|done|done|]); [done|].
    unfold range_good. cbn [r_rows r_bytes].
    split_and!; [lia|lia| | |lia].
    + rewrite Hf, Hb', Hl. unfold row_offset. by rewrite (take_ge rbs (length rbs)) by lia.
    + destruct (decide (first_len cols = S (s_first_row st))); [by left|right; apply Hs; lia].
  - assert (first_len cols = 0%nat) as Hz by lia. rewrite Hz in *.
    destruct Hlt as [?|[_ Hz']]; [lia|]. rewrite Hz' in Hc. split; [done|].
    eapply Forall_impl; [exact Hg|]. intros r Hr.
    by apply (range_good_message h cols limit _ rbs); rewrite ?Hz.
Qed.

(** Splitting a parameter set: [split_parameter_rows] fails exactly as encoding all
    rows does; otherwise its ranges are non-empty, consecutive and cover every row
    once, each range's payload is the statement's header with exactly those rows
    under the column types of the whole set, the message of a range is within the
    limit unless the range is a single row, and a range that does not end the set
    would exceed the limit with one more row. *)
Theorem split_covers_rows h cols limit :
  match write_parameter_rows cols (parameter_columns h cols) (seq 0 (first_len cols)) with
  | Ok bytes =>
    ∃ enc, split_parameter_rows h cols limit = Ok enc ∧ e_bytes enc = bytes ∧
      consecutive 0 (first_len cols) (e_ranges enc) ∧
      Forall (range_message h cols limit enc) (e_ranges enc)
  | Err e => split_parameter_rows h cols limit = Err e
  | Panic => split_parameter_rows h cols limit = Panic
  end.
Proof.
  destruct (write_parameter_rows _ _ _) as [bytes|e|] eqn:Hw; [by apply split_ok| |];
    unfold split_parameter_rows; rewrite split_loop_pure; unfold write_parameter_rows in Hw;
    destruct (mapM (write_parameter_row _ _) _) as [rbs|e'|]; try done.
  by injection Hw as ->.
Qed.
End Messages.

(** ** Values *)
Lemma trim_spaces_id s :
  s ≠ ""%string → contains_char " " s = false → trim_spaces s = s.
Proof.
  intros Hne Hc. unfold trim_spaces. rewrite <- (str_app_nil_r s) at 1.
  rewrite trim_start_spaces_id by done. rewrite str_app_nil_r.
  rewrite <- (str_app_nil_l s) at 1. by apply trim_end_spaces_id.
Qed.

Lemma parse_date_fields d :
  valid_date d → 1 ≤ year d ≤ 9999 →
  parse_date_text (date_text d) = Ok (fields_of d 0).
Proof.
  intros Hv Hy. pose proof Hv as [Hm Hd].
  pose proof (month_length_bounds (year d) (month d)).
  destruct (date_text_shape d Hv ltac:(lia)) as [Hne Hc].
  assert (parse_temporal_fields (date_text d) = Some (fields_of d 0)) as E.
  { unfold parse_temporal_fields. rewrite trim_spaces_id, split_once_absent by done.
    unfold date_text. rewrite !str_app_char, !split_on_cons, split_on_absent
      by (apply show_padded_no_char; [done|lia]).
    cbn [lookup list_lookup mbind option_bind].
    rewrite !digits_show_padded by (cbn [Z.of_nat Pos.of_succ_nat Pos.succ]; lia).
    cbn [mbind option_bind]. by rewrite !wrap_id by range. }
  unfold parse_date_text. by rewrite E.
Qed.

Section Meaning.
Context `{BuildProfile, SerdeJson, !SerdeJsonLaws H0, PowI, ChronoLaws}.

Lemma scale_decimal_exact v i scale :
  json_as_i64 v = Some i → 0 ≤ scale ≤ 38 →
  scale_decimal_value v scale = Ok (saturating I64 (i * 10 ^ scale)).
Proof.
  intros Hv Hs. unfold scale_decimal_value. rewrite Hv.
  assert (in_range I64 i) as Hi by (destruct v; try done; by apply as_i64_range in Hv).
  destruct (Z.leb_spec scale 0).
  { assert (scale = 0) as -> by lia. cbn [Z.eqb Z.pow]. f_equal. unfold saturating.
    unfold in_range in Hi. rewrite Z.mul_1_r. lia. }
  assert (1 ≤ 10 ^ scale ≤ 10 ^ 38) as Hp.
  { split; [|apply Z.pow_le_mono_r; lia].
    apply (Z.pow_le_mono_r 10 0); lia. }
  rewrite checked_in.
  - f_equal. unfold saturating.
    assert (imin I128 ≤ imin I64 ∧ imax I64 ≤ imax I128) as [? ?] by (vm_compute; split; discriminate).
    lia.
  - assert (10 ^ 38 ≤ imax I128) by (vm_compute; discriminate). unfold in_range.
    pose proof (imin_imax I128). lia.
Qed.

(** Parameter values: an integer bound to DECIMAL(p, s) is sent as its value times
    [10^s], at the nearest end of the 64-bit range when that does not fit; the DATE
    and TIMESTAMP texts the driver writes for a day or an instant are sent as that
    day's or instant's calendar fields; an empty string bound to a DATE or TIMESTAMP
    is NULL; and a string bound to any other non-text column silently becomes 0 or
    false. *)
Theorem parameter_values :
  (∀ n i scale, number_as_i64 n = Some i → 0 ≤ scale ≤ 38 →
     bound_param T_DECIMAL (JNumber n) scale
     = Ok (Some (PDecimal (saturating I64 (i * 10 ^ scale))))) ∧
  (∀ days scale, -719162 ≤ days ≤ 2932896 →
     ∃ s d, format_date32 days = Ok s ∧ day_at days d ∧
       bound_param T_DATE (JString s) scale = Ok (Some (PDate (year d) (month d) (day d)))) ∧
  (∀ micros scale, exasol_instant micros →
     ∃ s d h mi sec n, format_timestamp_micros micros = Ok s ∧
       day_at (micros / MICROS_PER_DAY) d ∧
       (h * 3600 + mi * 60 + sec) * 1000000 + n / 1000 = micros mod MICROS_PER_DAY ∧
       0 ≤ h < 24 ∧ 0 ≤ mi < 60 ∧ 0 ≤ sec < 60 ∧ 0 ≤ n < 1000000000 ∧
       bound_param T_TIMESTAMP (JString s) scale
       = Ok (Some (PTimestamp (year d) (month d) (day d) h mi sec n))) ∧
  (∀ s scale,
     bound_param T_DATE (JString "") scale = Ok None ∧
     bound_param T_TIMESTAMP (JString "") scale = Ok None ∧
     bound_param T_DECIMAL (JString s) scale = Ok (Some (PDecimal 0)) ∧
     bound_param T_DOUBLE (JString s) scale = Ok (Some (PDouble 0)) ∧
     bound_param T_BOOLEAN (JString s) scale = Ok (Some (PBool false))).
Proof.
  split; [|split; [|split]].
  - intros n i scale Hn Hs. cbn [bound_param]. unfold bound_value.
    cbn [Z.eqb Pos.eqb T_DECIMAL T_BOOLEAN T_DOUBLE].
    by rewrite (scale_decimal_exact _ i) by done.
  - intros days scale Hd. pose proof (date_of_day_at days) as Hat.
    pose proof Hat as [Hv Hn]%day_at_iff. rewrite <- Hn in Hd.
    apply (exasol_years_range _ Hv) in Hd. set (d := date_of_day days) in *.
    exists (date_text d), d. split; [by apply format_date32_ok|]. split; [done|].
    destruct (date_text_shape d Hv ltac:(lia)) as [Hne _]. unfold bound_param.
    destruct (date_text d) as [|a w] eqn:E; [done|]. unfold bound_value, temporal_text.
    cbn [Z.eqb Pos.eqb T_DATE T_BOOLEAN T_DOUBLE T_DECIMAL json_as_str ok_or mbind outcome_bind].
    by rewrite <- E, parse_date_fields.
  - intros micros scale Hm. destruct (timestamp_cases micros) as (d & t & Hd & Et & Ht & Em).
    pose proof (exasol_instant_year micros d Hd Hm) as Hy. pose proof Hd as [Hv _]%day_at_iff.
    destruct (time_split t Ht) as (? & ? & ? & ? & Es).
    exists (date_text d +:+ " " +:+ time_text t), d, (t / 3600000000), (t / 60000000 mod 60),
      (t / 1000000 mod 60), (t mod 1000000 * 1000).
    split; [by apply format_timestamp_micros_ok|]. split; [done|].
    split; [rewrite Z.div_mul by lia; lia|]. split_and!; try lia.
    destruct (date_text_shape d Hv ltac:(lia)) as [Hne _]. unfold bound_param.
    destruct (date_text d +:+ " " +:+ time_text t) as [|a w] eqn:E.
    { by destruct (date_text d). }
    unfold bound_value, temporal_text.
    cbn [Z.eqb Pos.eqb T_TIMESTAMP T_DATE T_BOOLEAN T_DOUBLE T_DECIMAL json_as_str ok_or mbind
         outcome_bind].
    unfold parse_timestamp_text. rewrite <- E. by rewrite parse_timestamp_fields.
  - intros s scale. split_and!; [done|done|by destruct s..].
Qed.
End Meaning.

(** ** At a concrete statement *)
(** A [powi] for evaluation: the nearest double to a power of ten up to [10^22]. *)
Definition table_powi : PowI := λ n, f64_of_int (10 ^ n).

Definition sample_handle : PreparedStatementHandle :=
  PreparedStatementHandle_new 7 4
    [dt_decimal 18 2; dt_varchar 100; named_type "DATE"; named_type "TIMESTAMP"]
    [Some "AMOUNT"; None; Some "D"; Some "T"].

Definition sample_params : list (list (JsonValue (number (SerdeJson := int_numbers)))) :=
  [[JNumber (inl (-5)); JNull]; [JString "x"; JString "yz"];
   [JString "2024-02-29"; JString ""]; [JString "1999-12-31 23:59:59.5"; JNull]].

Definition sample_rows : list (list (option ParamValue)) :=
  [[Some (PDecimal (-500)); Some (PText "x"); Some (PDate 2024 2 29);
    Some (PTimestamp 1999 12 31 23 59 59 500000000)];
   [None; Some (PText "yz"); None; None]].

(** The same with a GEOMETRY and an INTERVAL column. *)
Definition wide_handle : PreparedStatementHandle :=
  PreparedStatementHandle_new 7 6
    (parameter_types sample_handle ++ [named_type "GEOMETRY"; named_type "INTERVAL DAY TO SECOND"])
    (parameter_names sample_handle ++ [Some "G"; None]).

Definition wide_params : list (list (JsonValue (number (SerdeJson := int_numbers)))) :=
  sample_params ++ [[JString "POINT (1 2)"; JNull]; [JNull; JString "+03 04:05:06.789"]].

Definition wide_rows : list (list (option ParamValue)) :=
  zip_with app sample_rows
    [[Some (PText "POINT (1 2)"); None]; [None; Some (PText "+03 04:05:06.789")]].

Lemma wide_params_ok : params_ok (H0 := int_numbers) wide_handle wide_params.
Proof. split_and!; repeat (constructor || (split; [set_solver|])); try by_decision; vm_range. Qed.

Lemma wide_rows_bound :
  bound_rows (H := dev_profile) (H0 := int_numbers) (H1 := table_powi) wide_params
    (parameter_columns (H0 := int_numbers) wide_handle wide_params)
    (seq 0 (first_len (H0 := int_numbers) wide_params)) = Ok wide_rows.
Proof. vm_compute. reflexivity. Qed.


Lemma parameter_values_witness :
  bound_param (H := dev_profile) (H0 := int_numbers) (H1 := table_powi) T_DECIMAL
    (JNumber (inl 9223372036854775807)) 2
  = Ok (Some (PDecimal 9223372036854775807)).
Proof.
  destruct (parameter_values (H := dev_profile) (H0 := int_numbers) (H1 := table_powi)
    (SerdeJsonLaws0 := int_numbers_laws) (H2 := calendar_chrono_laws)) as (Hd & _).
  rewrite (Hd _ 9223372036854775807 2); [reflexivity|reflexivity|lia].
Defined.
