(* ===== verification/NativeTransport.v ===== *)
(** * The native transport

    [transport/native/mod.rs]: the state of a native connection and its operations,
    from the bytes of a message to the requests of the driver. *)
From S2P Require Import Prelude MachineInt RustStr Constants Errors Effect Framing Attributes.
From S2P Require Import Float64 Json ResultParser Messages Lifecycle Encryption Handshake.
From S2P Require Import Tls ParamEncoding.

#[local] Open Scope Z_scope.

(* code: transport/native/mod.rs 47-51 NativeStream *)
Inductive NativeStream := Plain (s : Socket) | Tls (s : Socket).

Definition socket (s : NativeStream) : Socket := match s with Plain s | Tls s => s end.
Definition with_socket (s : NativeStream) (k : Socket) : NativeStream :=
  match s with Plain _ => Plain k | Tls _ => Tls k end.
Definition is_tls (s : NativeStream) : bool := match s with Plain _ => false | Tls _ => true end.

(* code: transport/native/mod.rs 121-136 NativeTcpTransport *)
Record NativeTcpTransport := {
  stream : option NativeStream;
  nt_lifecycle : ConnectionLifecycle;
  nt_serial : SerialCounter;
  encryptor : ChaCha20Encryptor;
  nt_session : option SessionInfo;
  tls_active : bool;
  fetch_positions : gmap Z Z;
  cached_columns : gmap Z (list NativeColumnMeta);
  recv_buf : list byte;
  nt_current_schema : option string;
}.

(* code: transport/native/mod.rs 138-153 NativeTcpTransport::new *)
Definition NativeTcpTransport_new : NativeTcpTransport := {|
  stream := None; nt_lifecycle := ConnectionLifecycle_new; nt_serial := SerialCounter_new;
  encryptor := ChaCha20Encryptor_new; nt_session := None; tls_active := false;
  fetch_positions := ∅; cached_columns := ∅; recv_buf := []; nt_current_schema := None;
|}.

(** ** Field updates *)
Section Updates.
Context (t : NativeTcpTransport).

Definition set_stream (v : option NativeStream) : NativeTcpTransport := {|
  stream := v; nt_lifecycle := nt_lifecycle t; nt_serial := nt_serial t;
  encryptor := encryptor t; nt_session := nt_session t; tls_active := tls_active t;
  fetch_positions := fetch_positions t; cached_columns := cached_columns t;
  recv_buf := recv_buf t; nt_current_schema := nt_current_schema t |}.

Definition set_nt_lifecycle (v : ConnectionLifecycle) : NativeTcpTransport := {|
  stream := stream t; nt_lifecycle := v; nt_serial := nt_serial t;
  encryptor := encryptor t; nt_session := nt_session t; tls_active := tls_active t;
  fetch_positions := fetch_positions t; cached_columns := cached_columns t;
  recv_buf := recv_buf t; nt_current_schema := nt_current_schema t |}.

Definition set_serial (v : SerialCounter) : NativeTcpTransport := {|
  stream := stream t; nt_lifecycle := nt_lifecycle t; nt_serial := v;
  encryptor := encryptor t; nt_session := nt_session t; tls_active := tls_active t;
  fetch_positions := fetch_positions t; cached_columns := cached_columns t;
  recv_buf := recv_buf t; nt_current_schema := nt_current_schema t |}.

Definition set_encryptor (v : ChaCha20Encryptor) : NativeTcpTransport := {|
  stream := stream t; nt_lifecycle := nt_lifecycle t; nt_serial := nt_serial t;
  encryptor := v; nt_session := nt_session t; tls_active := tls_active t;
  fetch_positions := fetch_positions t; cached_columns := cached_columns t;
  recv_buf := recv_buf t; nt_current_schema := nt_current_schema t |}.

Definition set_session (v : option SessionInfo) : NativeTcpTransport := {|
  stream := stream t; nt_lifecycle := nt_lifecycle t; nt_serial := nt_serial t;
  encryptor := encryptor t; nt_session := v; tls_active := tls_active t;
  fetch_positions := fetch_positions t; cached_columns := cached_columns t;
  recv_buf := recv_buf t; nt_current_schema := nt_current_schema t |}.

Definition set_tls_stream (s : Socket) : NativeTcpTransport := {|
  stream := Some (Tls s); nt_lifecycle := nt_lifecycle t; nt_serial := nt_serial t;
  encryptor := encryptor t; nt_session := nt_session t; tls_active := true;
  fetch_positions := fetch_positions t; cached_columns := cached_columns t;
  recv_buf := recv_buf t; nt_current_schema := nt_current_schema t |}.

Definition set_caches (positions : gmap Z Z) (columns : gmap Z (list NativeColumnMeta))
    : NativeTcpTransport := {|
  stream := stream t; nt_lifecycle := nt_lifecycle t; nt_serial := nt_serial t;
  encryptor := encryptor t; nt_session := nt_session t; tls_active := tls_active t;
  fetch_positions := positions; cached_columns := columns;
  recv_buf := recv_buf t; nt_current_schema := nt_current_schema t |}.

Definition set_recv_buf (v : list byte) : NativeTcpTransport := {|
  stream := stream t; nt_lifecycle := nt_lifecycle t; nt_serial := nt_serial t;
  encryptor := encryptor t; nt_session := nt_session t; tls_active := tls_active t;
  fetch_positions := fetch_positions t; cached_columns := cached_columns t;
  recv_buf := v; nt_current_schema := nt_current_schema t |}.

Definition set_schema (v : option string) : NativeTcpTransport := {|
  stream := stream t; nt_lifecycle := nt_lifecycle t; nt_serial := nt_serial t;
  encryptor := encryptor t; nt_session := nt_session t; tls_active := tls_active t;
  fetch_positions := fetch_positions t; cached_columns := cached_columns t;
  recv_buf := recv_buf t; nt_current_schema := v |}.
End Updates.

Abbreviation nio := (io NativeTcpTransport).

(** The transport inside an action. *)
Definition this : nio NativeTcpTransport := λ s, (Ok s.2, s).
Definition update (f : NativeTcpTransport → NativeTcpTransport) : nio unit :=
  modify (λ '(w, t), (w, f t)).

(** The [Debug] text of a response. *)
Class ResponseDebug := debug_response : NativeResponse → string.

Section Native.
Context `{BuildProfile, ArrowLib, SerdeJson, PowI, ChaCha20, BigUint, SecureRandom, Platform}.
Context `{Clock, Network, Rustls, ResponseDebug}.

(** ** Streams *)
Definition not_connected : TransportError := ProtocolError "Not connected".

(* code: transport/native/mod.rs 155-159 stream_mut *)
Definition stream_mut : nio NativeStream :=
  t ← this; try (ok_or not_connected (stream t)).

Definition put_socket (s : NativeStream) (k : Socket) : nio unit :=
  update (λ t, set_stream t (Some (with_socket s k))).

(** At the end of the stream the buffer holds what arrived, and zeros. *)
(* code: transport/native/mod.rs 54-69 NativeStream::read_exact *)
Definition read_exact (n : nat) : nio (list byte) :=
  s ← stream_mut;
  _ ← await (io_delay (socket s));
  let k := socket s in
  if (n <=? length (inbound k))%nat then
    _ ← put_socket s {| inbound := drop n (inbound k); sent := sent k |};
    mret (take n (inbound k))
  else
    _ ← put_socket s {| inbound := []; sent := sent k |};
    fail (ReceiveError read_error).

(* code: transport/native/mod.rs 71-82 NativeStream::write_all *)
Definition write_all (data : list byte) : nio unit :=
  s ← stream_mut;
  _ ← await (io_delay (socket s));
  let k := socket s in
  match write_error k data with
  | Some (n, e) =>
    _ ← put_socket s {| inbound := inbound k; sent := sent k ++ take n data |};
    fail (SendError e)
  | None => put_socket s {| inbound := inbound k; sent := sent k ++ data |}
  end.

(* code: transport/native/mod.rs 84-95 NativeStream::flush *)
Definition flush : nio unit :=
  s ← stream_mut;
  _ ← await (io_delay (socket s));
  match flush_error (socket s) with
  | Some e => fail (SendError e)
  | None => mret ()
  end.

(* code: transport/native/mod.rs 161-166 send_raw *)
Definition send_raw (data : list byte) : nio unit := _ ← write_all data; flush.

(** ** Messages *)
(* code: transport/native/mod.rs 92-94 SerialCounter::next *)
Definition next_serial : nio Z := λ '(w, t),
  let '(n, c) := serial_next (nt_serial t) in (Ok n, (w, set_serial t c)).

(* code: transport/native/mod.rs 189-196 send_message_with_serial *)
Definition command_header (cmd number : Z) (attrs : AttributeSet) (extra : option (list byte))
    : MessageHeader :=
  let attr_bytes := AttributeSet_serialize attrs in
  let total := (length attr_bytes + length (default [] extra))%nat in
  {| message_length := wrap U32 (Z.of_nat total); command := cmd; serial := number;
     num_attributes := AttributeSet_num_attributes attrs;
     attribute_data_len := wrap U32 (Z.of_nat (length attr_bytes));
     num_result_parts := if extra then 1 else 0 |}.

(** [if self.encryptor.is_active() { self.encryptor.encrypt(&mut payload) }]. *)
(* code: transport/native/mod.rs 206-208 send_message_with_serial *)
Definition encrypt_payload (payload : list byte) : nio (list byte) := λ '(w, t),
  if is_active (encryptor t) then
    match encrypt (encryptor t) payload with
    | Ok (c, e) => (Ok c, (w, set_encryptor t e))
    | Err e => (Err e, (w, t))
    | Panic => (Panic, (w, t))
    end
  else (Ok payload, (w, t)).

(* code: transport/native/mod.rs 227-229 receive_into_buf *)
Definition decrypt_payload (payload : list byte) : nio (list byte) := λ '(w, t),
  if is_active (encryptor t) then
    match decrypt (encryptor t) payload with
    | Ok (c, e) => (Ok c, (w, set_encryptor t e))
    | Err e => (Err e, (w, t))
    | Panic => (Panic, (w, t))
    end
  else (Ok payload, (w, t)).

(* code: transport/native/mod.rs 179-212 send_message_with_serial *)
Definition send_message_with_serial (cmd : Z) (attrs : AttributeSet)
    (extra : option (list byte)) (serial_override : option Z) : nio unit :=
  number ← match serial_override with Some n => mret n | None => next_serial end;
  let header_bytes := header_serialize (command_header cmd number attrs extra) in
  payload ← encrypt_payload (AttributeSet_serialize attrs ++ default [] extra);
  _ ← send_raw header_bytes;
  send_raw payload.

(* code: transport/native/mod.rs 168-177 send_message *)
Definition send_message (cmd : Z) (attrs : AttributeSet) (extra : option (list byte)) : nio unit :=
  send_message_with_serial cmd attrs extra None.

(* code: transport/native/mod.rs 307-319 response_attributes *)
Definition response_attributes (header : MessageHeader) (payload : list byte)
    : outcome TransportError AttributeSet :=
  if (num_attributes header =? 0) || (attribute_data_len header =? 0) then Ok AttributeSet_new
  else parse_attributes (take (Z.to_nat (attribute_data_len header)) payload)
         (num_attributes header).

(* code: transport/native/mod.rs 870-876 attribute_text *)
Definition attribute_text (attrs : AttributeSet) (id : Z) : option string :=
  match AttributeSet_get attrs id with Some (AString text) => Some text | _ => None end.

(* code: transport/native/mod.rs 857-868 attribute_bytes *)
Definition attribute_bytes (attrs : AttributeSet) (id : Z) : option (list byte) :=
  match AttributeSet_get attrs id with
  | Some (ABinary bytes) => Some bytes
  | Some (AString text) => Some (as_bytes text)
  | _ => None
  end.

(* code: transport/native/mod.rs 878-885 attribute_integer *)
Definition attribute_integer (attrs : AttributeSet) (id : Z) : option Z :=
  match AttributeSet_get attrs id with
  | Some (AInt64 v) | Some (AInt32 v) => Some v
  | _ => None
  end.

(* code: transport/native/mod.rs 906-913 current_schema_change *)
Definition current_schema_change (attrs : AttributeSet) : option (option string) :=
  (λ name : string, if String.eqb name "" then None else Some name)
    <$> attribute_text attrs ATTR_CURRENT_SCHEMA.

(* code: transport/native/mod.rs 915-921 current_schema_from_get_attributes *)
Definition current_schema_from_get_attributes (attrs : AttributeSet) : option string :=
  default None (current_schema_change attrs).

(** The payload, read into the buffer, which keeps what arrived before an error. *)
(* code: transport/native/mod.rs 214-235 receive_into_buf *)
Definition fill_buf (n : nat) : nio unit := λ s,
  let got := match stream s.2 with Some k => inbound (socket k) | None => [] end in
  let partial := take n (got ++ replicate n x00) in
  match (read_exact n s : outcome stop (list byte) * (World * NativeTcpTransport)) with
  | (Ok payload, (w, t)) => (Ok (), (w, set_recv_buf t payload))
  | (Err e, (w, t)) => (Err e, (w, set_recv_buf t partial))
  | (Panic, s) => (Panic, s)
  end.

(* code: transport/native/mod.rs 214-240 receive_into_buf *)
Definition receive_into_buf : nio MessageHeader :=
  hdr ← read_exact HEADER_SIZE;
  header ← try (header_parse hdr);
  _ ← update (λ t, set_recv_buf t []);
  _ ← (if 0 <? message_length header then
         _ ← fill_buf (Z.to_nat (message_length header));
         t ← this;
         plain ← decrypt_payload (recv_buf t);
         update (λ t, set_recv_buf t plain)
       else mret ());
  t ← this;
  attrs ← try (response_attributes header (recv_buf t));
  _ ← match current_schema_change attrs with
      | Some schema => update (λ t, set_schema t schema)
      | None => mret ()
      end;
  mret header.

(* code: transport/native/mod.rs 242-246 receive_message *)
Definition receive_message : nio (MessageHeader * list byte) :=
  header ← receive_into_buf; t ← this; mret (header, recv_buf t).

(* code: transport/native/mod.rs 288-305 extract_result_data *)
Definition result_data_slice (header : MessageHeader) (payload : list byte) : list byte :=
  drop (Z.to_nat (attribute_data_len header)) payload.

(** ** The wait for a result *)
(* code: transport/native/mod.rs 260-272 send_and_fill_buf *)
Definition receive_response : nio (MessageHeader * bool) :=
  header ← receive_into_buf;
  t ← this;
  response ← try (parse_response (result_data_slice header (recv_buf t)));
  mret (header, match terminal response with StillExecuting => true | _ => false end).

(** Every round reads a header, so the bytes still to come bound the rounds. A run out
    of [fuel] is reported by [exhausted]. *)
(* code: transport/native/mod.rs 260-274 send_and_fill_buf *)
Fixpoint await_result (exhausted : nio MessageHeader) (fuel : nat) : nio MessageHeader :=
  '(header, still_executing) ← receive_response;
  if still_executing : bool then
    match fuel with O => exhausted | S fuel => await_result exhausted fuel end
  else mret header.

(** The rounds that the bytes of the connection can feed. *)
Definition rounds (t : NativeTcpTransport) : nat :=
  match stream t with Some s => length (inbound (socket s)) | None => O end.

(* code: transport/native/mod.rs 248-275 send_and_fill_buf *)
Definition send_and_fill_buf (cmd : Z) (attrs : AttributeSet) (extra : option (list byte))
    : nio MessageHeader :=
  command_serial ← next_serial;
  _ ← send_message_with_serial cmd attrs extra (Some command_serial);
  t ← this;
  await_result (pure_call Panic) (rounds t).

(* code: transport/native/mod.rs 277-286 send_and_receive *)
Definition send_and_receive (cmd : Z) (attrs : AttributeSet) (extra : option (list byte))
    : nio (MessageHeader * list byte) :=
  header ← send_and_fill_buf cmd attrs extra; t ← this; mret (header, recv_buf t).

(** ** Results *)
(* code: transport/native/mod.rs 321-339 check_response *)
Definition check_response (header : MessageHeader) (payload : list byte)
    : outcome TransportError NativeResponseEnvelope :=
  response ← parse_response (result_data_slice header payload);
  match terminal response with
  | Exception message sql_state =>
    Err (ProtocolError (message +:+ " (SQL state: " +:+ sql_state +:+ ")"))
  | _ => Ok response
  end.

(* code: transport/native/mod.rs 923-936 reject_exception *)
Definition reject_exception (context : string) (result_data : list byte)
    : outcome TransportError unit :=
  match result_data with
  | [] => Ok ()
  | _ =>
    response ← parse_response result_data;
    match terminal response with
    | Exception message sql_state =>
      Err (ProtocolError (context +:+ ": " +:+ message +:+ " (SQL state: " +:+ sql_state +:+ ")"))
    | _ => Ok ()
    end
  end.

(* code: transport/native/mod.rs 341-350 to_column_info *)
Definition to_column_info (columns : list NativeColumnMeta) : list ColumnInfo :=
  (λ c, {| ci_name := name c; ci_data_type := native_meta_to_data_type c |}) <$> columns.

(** [RecordBatch::new_empty(Schema::empty())]. *)
Definition empty_batch : RecordBatch := {| rb_fields := []; rb_columns := []; rb_rows := 0 |}.

(* code: transport/native/mod.rs 354-395 native_result_to_query_result *)
Definition native_result_to_query_result (response : NativeResponse)
    : outcome TransportError QueryResult :=
  match response with
  | ResultSet handle columns batch total_rows _ =>
    Ok (QResultSet (if handle =? SMALL_RESULTSET then None else Some handle)
          {| rd_columns := to_column_info columns;
             rd_data := PayloadArrow (default empty_batch batch);
             rd_total_rows := total_rows |})
  | RowCount count => Ok (QRowCount count)
  | Empty => Ok (QRowCount 0)
  | other =>
    Err (ProtocolError ("Unexpected native response where a query result was expected: "
                        +:+ debug_response other))
  end.

(* code: transport/native/mod.rs 756-783 convert_and_cache_result *)
Definition convert_and_cache_result (response : NativeResponse) : nio QueryResult :=
  _ ← match response with
      | ResultSet handle columns _ _ rows_received =>
        if negb (handle =? SMALL_RESULTSET) then
          update (λ t, set_caches t (<[handle := rows_received]> (fetch_positions t))
                                    (<[handle := columns]> (cached_columns t)))
        else mret ()
      | _ => mret ()
      end;
  try (native_result_to_query_result response).

(* code: transport/native/mod.rs 785-791 max_data_message_size *)
Definition native_max_message_size (t : NativeTcpTransport) : Z :=
  match nt_session t with Some s => max_data_message_size s | None => MAX_DATA_MESSAGE_SIZE end.

(** The guard at the head of an operation. *)
Definition require_authenticated (message : string) : nio unit :=
  t ← this; try (require (nt_lifecycle t) Authenticated message).

(* code: transport/native/mod.rs 793-805 set_attributes *)
Definition set_attributes (attrs : AttributeSet) : nio unit :=
  _ ← require_authenticated "Must authenticate before setting attributes";
  header ← send_and_fill_buf CMD_SET_ATTRIBUTES attrs None;
  t ← this;
  _ ← try (check_response header (recv_buf t));
  mret ().

(** ** Login *)
(* code: transport/native/mod.rs 887-904 negotiated_protocol_version *)
Definition negotiated_protocol_version (reported : option Z) : outcome TransportError Z :=
  match reported with
  | None => Ok PROTOCOL_VERSION
  | Some version =>
    if version <? MIN_PROTOCOL_VERSION then
      Err (ProtocolError ("unsupported server: native protocol version " +:+ show_int version
        +:+ " is below the minimum supported version " +:+ show_int MIN_PROTOCOL_VERSION))
    else if in_rangeb I32 version then Ok version
    else Err (ProtocolError ("malformed login response: native protocol version "
                             +:+ show_int version +:+ " does not fit in 32 bits"))
  end.

(** What the login response says of the session. *)
(* code: transport/native/mod.rs 972-990 login_exchange *)
Definition login_session (attrs : AttributeSet) : outcome TransportError SessionInfo :=
  version ← negotiated_protocol_version (attribute_integer attrs ATTR_PROTOCOL_VERSION);
  Ok {| session_id := default "0" (show_int <$> attribute_integer attrs ATTR_SESSIONID);
        protocol_version := version;
        release_version := default "" (attribute_text attrs ATTR_RELEASE_VERSION);
        database_name := default "" (attribute_text attrs ATTR_DATABASE_NAME);
        product_name := default "" (attribute_text attrs ATTR_PRODUCT_NAME);
        max_data_message_size :=
          default MAX_DATA_MESSAGE_SIZE (attribute_integer attrs ATTR_DATA_MESSAGE_SIZE);
        time_zone := attribute_text attrs ATTR_TIMEZONE |}.

(** The same, where CMD_GET_ATTRIBUTES says more. *)
(* code: transport/native/mod.rs 1028-1049 login_exchange *)
Definition refine_session (s : SessionInfo) (attrs : AttributeSet) : SessionInfo :=
  {| session_id := default (session_id s) (show_int <$> attribute_integer attrs ATTR_SESSIONID);
     protocol_version := protocol_version s;
     release_version := default (release_version s) (attribute_text attrs ATTR_RELEASE_VERSION);
     database_name := default (database_name s) (attribute_text attrs ATTR_DATABASE_NAME);
     product_name := default (product_name s) (attribute_text attrs ATTR_PRODUCT_NAME);
     max_data_message_size := max_data_message_size s;
     time_zone := match attribute_text attrs ATTR_TIMEZONE with
                  | Some z => Some z
                  | None => time_zone s
                  end |}.

(** [build_auth_message] draws three times at most from the random source. *)
(* code: transport/native/mod.rs 992-1001 login_exchange *)
Definition authentication (credentials : Credentials) (public_key random_phrase : list byte)
    (use_chacha20 : bool) : nio AuthMessage := λ '(w, t),
  let drawn := {| now := now w; cutoff := cutoff w; draws := 3 + draws w |} in
  match build_auth_message (password credentials) public_key random_phrase (nt_serial t)
          use_chacha20 (draws w) with
  | Ok (m, serial) => (Ok m, (drawn, set_serial t serial))
  | Err e => (Err (Failed e), (drawn, t))
  | Panic => (Panic, (drawn, t))
  end.

(* code: transport/native/mod.rs 1010-1013 login_exchange *)
Definition activate_keys (use_chacha20 : bool) (m : AuthMessage) : nio unit :=
  if use_chacha20 && negb (length (Handshake.send_key m) =? 0)%nat then
    e ← pure_call (set_keys (Handshake.send_key m) (Handshake.recv_key m));
    update (λ t, set_encryptor t e)
  else mret ().

(** Phase 1: the login packet, the server's key and what it says of the session. *)
(* code: transport/native/mod.rs 948-990 login_exchange *)
Definition login_request (credentials : Credentials)
    : nio (list byte * list byte * SessionInfo) :=
  packet ← try (build_login_packet credentials);
  _ ← send_raw packet;
  '(header, payload) ← receive_message;
  server_attrs ← try (parse_attributes payload (num_attributes header));
  public_key ← try (ok_or (ProtocolError "Server did not send public key")
                      (attribute_bytes server_attrs ATTR_PUBLIC_KEY));
  random_phrase ← try (ok_or (ProtocolError "Server did not send random phrase")
                         (attribute_bytes server_attrs ATTR_RANDOM_PHRASE));
  session ← try (login_session server_attrs);
  mret (public_key, random_phrase, session).

(** Phase 2: the password and the keys, and the switch to encryption. *)
(* code: transport/native/mod.rs 992-1013 login_exchange *)
Definition login_secrets (credentials : Credentials) (public_key random_phrase : list byte)
    : nio unit :=
  t ← this;
  let use_chacha20 := negb (tls_active t) in
  auth ← authentication credentials public_key random_phrase use_chacha20;
  _ ← send_raw (wire_bytes auth);
  '(header, payload) ← receive_message;
  _ ← try (reject_exception "Authentication failed" (result_data_slice header payload));
  activate_keys use_chacha20 auth.

(** Phase 3: the session attributes. *)
(* code: transport/native/mod.rs 1015-1025 login_exchange *)
Definition login_attributes_exchange : nio AttributeSet :=
  _ ← send_message CMD_GET_ATTRIBUTES AttributeSet_new None;
  '(ga_header, ga_payload) ← receive_message;
  _ ← try (reject_exception "GET_ATTRIBUTES failed" (result_data_slice ga_header ga_payload));
  try (response_attributes ga_header ga_payload).

(* code: transport/native/mod.rs 944-1053 login_exchange *)
Definition native_login_exchange (credentials : Credentials) : nio SessionInfo :=
  '(public_key, random_phrase, session) ← login_request credentials;
  _ ← login_secrets credentials public_key random_phrase;
  ga_attrs ← login_attributes_exchange;
  _ ← update (λ t, set_schema t (current_schema_from_get_attributes ga_attrs));
  let info := refine_session session ga_attrs in
  _ ← update (λ t, set_session t (Some info));
  mret info.

(** Errors are ignored; a cancellation and a panic are not errors. *)
(* code: transport/native/mod.rs 1055-1062 send_disconnect *)
Definition native_send_disconnect : nio unit :=
  t ← this;
  if decide (lc_state (nt_lifecycle t) = Authenticated) then
    ignore_err (λ e, bool_decide (e = Cancelled))
      (send_and_receive CMD_DISCONNECT AttributeSet_new None)
  else mret ().

(* code: transport/native/mod.rs 1064-1068 release_connection *)
Definition native_release_connection (t : NativeTcpTransport) : NativeTcpTransport :=
  set_schema (set_session (set_stream t None) None) None.

(* code: transport/native/mod.rs 938-942 LifecycleSteps *)
#[export] Instance native_steps : LifecycleSteps NativeTcpTransport := {|
  lifecycle := nt_lifecycle;
  set_lifecycle lc t := set_nt_lifecycle t lc;
  login_exchange := native_login_exchange;
  send_disconnect := native_send_disconnect;
  release_connection := native_release_connection;
|}.

(** ** The operations of the driver *)
(* code: transport/native/mod.rs 1075-1083 connect *)
Definition connect_tcp (params : ConnectionParams) : nio Socket :=
  _ ← await connect_delay;
  match tcp_connect (host params +:+ ":" +:+ show_nat (port params)) with
  | inl k => mret k
  | inr e => fail (IoError e)
  end.

(* code: transport/native/mod.rs 1073-1109 connect *)
Definition connect (params : ConnectionParams) : nio unit :=
  t ← this;
  d ← begin_connect (nt_lifecycle t) (timeout_ms params);
  tcp ← deadline_run d TcpConnect (connect_tcp params);
  _ ← match nodelay_error tcp with Some e => fail (IoError e) | None => mret () end;
  _ ← (if use_tls params then
         k ← deadline_run d TlsHandshake (client_handshake tcp (host params)
               (client_config (certificate_fingerprint params)
                              (validate_server_certificate params)));
         update (λ t, set_tls_stream t k)
       else update (λ t, set_stream t (Some (Plain tcp))));
  update (λ t, set_nt_lifecycle t (connected (nt_lifecycle t) d)).

(* code: transport/native/mod.rs 1118-1144 execute_query *)
Definition execute_query (sql : string) : nio QueryResult :=
  _ ← require_authenticated "Must authenticate before executing queries";
  header ← send_and_fill_buf CMD_EXECUTE AttributeSet_new (Some (as_bytes sql));
  t ← this;
  response ← try (check_response header (recv_buf t));
  convert_and_cache_result (terminal response).

(* code: transport/native/mod.rs 1159-1163 fetch_results *)
Definition fetch_payload (handle start size : Z) : list byte :=
  to_le_bytes I32 handle ++ to_le_bytes I64 start ++ to_le_bytes I64 size.

(** The position behind the rows received, recorded. *)
(* code: transport/native/mod.rs 1187-1188 fetch_results *)
Definition advance_position (handle start rows : Z) : nio unit :=
  position ← pure_call (arith I64 (start + rows));
  update (λ t, set_caches t (<[handle := position]> (fetch_positions t)) (cached_columns t)).

(* code: transport/native/mod.rs 1183-1227 fetch_results *)
Definition fetched (handle start : Z) (columns : list NativeColumnMeta) (response : NativeResponse)
    : nio ResultData :=
  match response with
  | MoreRows data =>
    '(rows, batch) ← try (parse_fetch_to_record_batch data columns);
    _ ← advance_position handle start rows;
    mret {| rd_columns := to_column_info columns; rd_data := PayloadArrow batch;
            rd_total_rows := rows |}
  | ResultSet _ columns batch total_rows rows =>
    _ ← advance_position handle start rows;
    mret {| rd_columns := to_column_info columns;
            rd_data := PayloadArrow (default empty_batch batch); rd_total_rows := total_rows |}
  | Empty => mret {| rd_columns := []; rd_data := PayloadArrow empty_batch; rd_total_rows := 0 |}
  | other =>
    fail (ProtocolError ("Expected a result set or more-rows response from CMD_FETCH2, got "
                         +:+ debug_response other))
  end.

(* code: transport/native/mod.rs 1146-1228 fetch_results *)
Definition fetch_results (handle : Z) : nio ResultData :=
  _ ← require_authenticated "Must authenticate before fetching results";
  t ← this;
  let start := default 0 (fetch_positions t !! handle) in
  let data := fetch_payload handle start (native_max_message_size t) in
  columns ← try (ok_or (ProtocolError "No cached column metadata for fetch")
                   (cached_columns t !! handle));
  header ← send_and_fill_buf CMD_FETCH2 AttributeSet_new (Some data);
  t ← this;
  response ← try (check_response header (recv_buf t));
  fetched handle start columns (terminal response).

(** The end of the close operations: an empty payload is a success. *)
Definition check_closed (header : MessageHeader) (payload : list byte) : nio unit :=
  match payload with
  | [] => mret ()
  | _ => _ ← try (check_response header payload); mret ()
  end.

(* code: transport/native/mod.rs 1230-1251 close_result_set *)
Definition close_result_set (handle : Z) : nio unit :=
  _ ← require_authenticated "Must authenticate before closing result sets";
  _ ← update (λ t, set_caches t (delete handle (fetch_positions t))
                                (delete handle (cached_columns t)));
  '(header, payload) ← send_and_receive CMD_CLOSE_RESULTSET AttributeSet_new
                         (Some (to_le_bytes I32 handle));
  check_closed header payload.

(* code: transport/native/mod.rs 1276-1296 create_prepared_statement *)
Definition prepared_handle (handle : Z) (parameters result_columns : list NativeColumnMeta)
    : PreparedStatementHandle :=
  with_result_columns
    (PreparedStatementHandle_new handle (wrap I32 (Z.of_nat (length parameters)))
       (native_meta_to_data_type <$> parameters)
       ((λ c, if String.eqb (name c) "" then None else Some (name c)) <$> parameters))
    (to_column_info result_columns).

(* code: transport/native/mod.rs 1253-1303 create_prepared_statement *)
Definition create_prepared_statement (sql : string) : nio PreparedStatementHandle :=
  _ ← require_authenticated "Must authenticate before creating prepared statements";
  '(header, payload) ← send_and_receive CMD_CREATE_PREPARED AttributeSet_new
                         (Some (as_bytes sql));
  response ← try (check_response header payload);
  match terminal response with
  | PreparedStatement handle parameters result_columns =>
    mret (prepared_handle handle parameters result_columns)
  | Empty => mret (PreparedStatementHandle_new 0 0 [] [])
  | _ => fail (ProtocolError "Unexpected response from CREATE PREPARED")
  end.

(* code: transport/native/mod.rs 812-820 run_execute_prepared *)
Definition run_execute_prepared (data : list byte) : nio QueryResult :=
  '(header, payload) ← send_and_receive CMD_EXECUTE_PREPARED execute_prepared_attributes
                         (Some data);
  response ← try (check_response header payload);
  convert_and_cache_result (terminal response).

(** One execution: the summed count so far, or the result set that ends the batch. *)
(* code: transport/native/mod.rs 829-848 execute_prepared_ranges *)
Definition execute_range (handle : PreparedStatementHandle) (encoded : EncodedParameterRows)
    (affected_rows : Z) (range : RowRange) : nio (QueryResult + Z) :=
  data ← try (build_range_payload handle encoded range);
  result ← run_execute_prepared data;
  match result with
  | QRowCount count => total ← pure_call (arith I64 (affected_rows + count)); mret (inr total)
  | result_set => mret (inl result_set)
  end.

(* code: transport/native/mod.rs 822-837 execute_prepared_ranges *)
Definition execute_prepared_ranges (handle : PreparedStatementHandle)
    (encoded : EncodedParameterRows) : nio QueryResult :=
  r ← fold_until (execute_range handle encoded) 0 (e_ranges encoded);
  match r with inl result_set => mret result_set | inr total => mret (QRowCount total) end.

(** [usize::try_from(size).unwrap_or(MAX_DATA_MESSAGE_SIZE)]. *)
Definition message_limit (t : NativeTcpTransport) : Z :=
  default MAX_DATA_MESSAGE_SIZE (checked USize (native_max_message_size t)).

(* code: transport/native/mod.rs 1320-1330 execute_prepared_statement *)
Definition split_for (handle : PreparedStatementHandle) (parameters : option (list (list json)))
    : nio (option EncodedParameterRows) :=
  match parameters, result_columns handle with
  | Some cols, [] =>
    t ← this;
    encoded ← try (split_parameter_rows handle cols (message_limit t));
    mret (match e_ranges encoded with [] => None | _ => Some encoded end)
  | _, _ => mret None
  end.

(* code: transport/native/mod.rs 1305-1334 execute_prepared_statement *)
Definition execute_prepared_statement (handle : PreparedStatementHandle)
    (parameters : option (list (list json))) : nio QueryResult :=
  _ ← require_authenticated "Must authenticate before executing prepared statements";
  split ← split_for handle parameters;
  match split with
  | Some encoded => execute_prepared_ranges handle encoded
  | None =>
    data ← try (build_execute_prepared_payload handle parameters);
    run_execute_prepared data
  end.

(* code: transport/native/mod.rs 1336-1356 close_prepared_statement *)
Definition close_prepared_statement (handle : PreparedStatementHandle) : nio unit :=
  _ ← require_authenticated "Must authenticate before closing prepared statements";
  '(header, payload) ← send_and_receive CMD_CLOSE_PREPARED AttributeSet_new
                         (Some (to_le_bytes I32 (ps_handle handle)));
  check_closed header payload.

(* code: transport/native/mod.rs 1370-1374 set_autocommit *)
Definition set_autocommit (enabled : bool) : nio unit :=
  set_attributes (AttributeSet_add AttributeSet_new ATTR_AUTOCOMMIT (ABool enabled)).

(* code: transport/native/mod.rs 1376-1386 set_query_timeout *)
Definition set_query_timeout (timeout_secs : Z) : nio unit :=
  if in_rangeb I32 timeout_secs then
    set_attributes (AttributeSet_add AttributeSet_new ATTR_QUERY_TIMEOUT (AInt32 timeout_secs))
  else fail (ProtocolError ("query_timeout of " +:+ show_nat timeout_secs
                            +:+ "s exceeds the native protocol's i32 range")).

(* code: transport/native/mod.rs 1399-1412 refresh_current_schema *)
Definition refresh_current_schema : nio (option string) :=
  _ ← require_authenticated "Must authenticate before reading attributes";
  header ← send_and_fill_buf CMD_GET_ATTRIBUTES AttributeSet_new None;
  t ← this;
  _ ← try (check_response header (recv_buf t));
  attrs ← try (response_attributes header (recv_buf t));
  _ ← update (λ t, set_schema t (current_schema_from_get_attributes attrs));
  mret (current_schema_from_get_attributes attrs).

(* code: transport/native/mod.rs 1388-1397 set_current_schema *)
Definition set_current_schema (schema : string) : nio unit :=
  _ ← set_attributes (AttributeSet_add AttributeSet_new ATTR_CURRENT_SCHEMA (AString schema));
  _ ← refresh_current_schema;
  mret ().
End Native.
