(* ===== verification/NativeInvariant.v ===== *)
(** * The native transport keeps its state consistent

    What a message exchange and a login may change, that nothing is cancelled without a
    timer, and that the native transport is an instance of the lifecycle rules. *)
From S2P Require Import Prelude MachineInt RustStr Constants Errors Effect Framing Attributes.
From S2P Require Import Float64 Json ResultParser Messages Lifecycle Encryption Handshake.
From S2P Require Import HandshakeCodec Tls ParamEncoding NativeTransport.

#[local] Open Scope Z_scope.

(** ** What an exchange of messages may change

    Everything that decides what the transport may do next stays: the lifecycle, the
    session, the caches, the kind of the stream and whether messages are encrypted. *)
Definition stream_kind (t : NativeTcpTransport) : option bool := is_tls <$> stream t.

Record kept (t t' : NativeTcpTransport) : Prop := {
  kept_lifecycle : nt_lifecycle t' = nt_lifecycle t;
  kept_tls : tls_active t' = tls_active t;
  kept_stream : stream_kind t' = stream_kind t;
  kept_positions : fetch_positions t' = fetch_positions t;
  kept_columns : cached_columns t' = cached_columns t;
}.

Definition login_step : relation (World * NativeTcpTransport) := λ s s',
  in_time s s' ∧ kept s.2 s'.2.

Definition exchange : relation (World * NativeTcpTransport) := λ s s',
  login_step s s' ∧ nt_session s'.2 = nt_session s.2 ∧
  is_active (encryptor s'.2) = is_active (encryptor s.2).

#[global] Instance kept_preorder : PreOrder kept.
Proof. split; [done|]. intros t1 t2 t3 [] []. split; congruence. Qed.

#[global] Instance login_step_preorder : PreOrder login_step.
Proof.
  split; [done|]. intros s1 s2 s3 [H1 H2] [H3 H4]. split; by etransitivity.
Qed.

#[global] Instance exchange_preorder : PreOrder exchange.
Proof.
  split; [done|]. intros s1 s2 s3 (H1 & H2 & H3) (H4 & H5 & H6).
  split_and!; [by etransitivity|congruence..].
Qed.

Lemma effects_login {A} (m : nio A) : effects exchange m → effects login_step m.
Proof. intros Hm s. apply Hm. Qed.

Lemma effects_this (R : relation (World * NativeTcpTransport)) `{!PreOrder R} : effects R this.
Proof. intros s. cbn. reflexivity. Qed.

Lemma effects_update (R : relation (World * NativeTcpTransport)) f :
  (∀ w t, R (w, t) (w, f t)) → effects R (update f).
Proof. intros Hf [w t]. apply Hf. Qed.

Lemma in_time_refl (w : World) (t t' : NativeTcpTransport) : in_time (w, t) (w, t').
Proof. unfold in_time. cbn. split_and!; [done|lia|intros; lia]. Qed.

#[export] Hint Resolve effects_this : effects.

(** A change of fields that an exchange may change. *)
Ltac field_update :=
  apply effects_update; intros ? []; split_and!; try done;
  (split; [apply in_time_refl|by split]).

Section Native.
Context `{BuildProfile, ArrowLib, SerdeJson, PowI, ChaCha20, BigUint, SecureRandom, Platform}.
Context `{Clock, Network, Rustls, ResponseDebug}.

(** ** Streams *)
Lemma await_cases {T} delay (w : World) (t : T) :
  ∃ o w', await delay (w, t) = (o, (w', t)) ∧ (o = Ok () ∨ (o = Err Cancelled ∧ is_Some (cutoff w))) ∧
    in_time (w, t) (w', t).
Proof.
  pose proof (await_in_time delay (w, t)) as Ht. unfold await in *.
  destruct (cutoff w) as [c|]; [|by eexists _, _; split_and!; [reflexivity|left|]].
  destruct (_ && _).
  - eexists _, _. split_and!; [reflexivity|right; split; [done|by eexists]|exact Ht].
  - eexists _, _. split_and!; [reflexivity|by left|exact Ht].
Qed.

Lemma put_socket_exchange s k w t :
  stream t = Some s → exchange (w, t) (w, set_stream t (Some (with_socket s k))).
Proof.
  intros Hs. split_and!; [|done..]. split; [apply in_time_refl|].
  split; try done. unfold stream_kind. cbn. rewrite Hs. by destruct s.
Qed.

Lemma exchange_time w w' (t t' : NativeTcpTransport) :
  in_time (w, t) (w', t) → exchange (w', t) (w', t') → exchange (w, t) (w', t').
Proof.
  intros Ht He. etransitivity; [|exact He]. split_and!; [|done..]. by split.
Qed.

(** An operation on the stream: the wait, and a change of the socket. *)
Lemma effects_stream {A} (k : NativeStream → nio A) :
  (∀ s w t, stream t = Some s → exchange (w, t) (k s (w, t)).2) →
  effects exchange (s ← stream_mut; _ ← await (io_delay (socket s)); k s).
Proof.
  intros Hk [w t]. unfold stream_mut, mbind, action_bind, this, try, pure_call. cbn [snd fst].
  destruct (stream t) as [s|] eqn:Es; [|reflexivity]. cbn [ok_or map_err].
  destruct (await_cases (io_delay (socket s)) w t) as (o & w' & -> & Ho & Ht).
  destruct Ho as [->|[-> _]].
  - specialize (Hk s w' t Es). destruct (k s (w', t)) as [o2 [w2 t2]]. cbn in *.
    etransitivity; [|exact Hk]. split_and!; [|done..]. by split.
  - cbn. split_and!; [|done..]. by split.
Qed.

Lemma read_exact_exchange n : effects exchange (read_exact n).
Proof.
  apply effects_stream. intros s w t Hs. destruct (_ <=? _)%nat; by apply put_socket_exchange.
Qed.

Lemma write_all_exchange data : effects exchange (write_all data).
Proof.
  apply effects_stream. intros s w t Hs.
  destruct (write_error _ _) as [[n e]|]; by apply put_socket_exchange.
Qed.

Lemma flush_exchange : effects exchange flush.
Proof.
  apply effects_stream. intros s w t Hs. destruct (flush_error _); reflexivity.
Qed.

Hint Resolve read_exact_exchange write_all_exchange flush_exchange : effects.

Lemma send_raw_exchange data : effects exchange (send_raw data).
Proof. unfold send_raw. effects. Qed.

(** ** Messages *)
Lemma next_serial_exchange : effects exchange next_serial.
Proof. intros [w []]. split_and!; [|done..]. split; [apply in_time_refl|by split]. Qed.

Lemma set_encryptor_exchange w t e :
  is_active e = is_active (encryptor t) → exchange (w, t) (w, set_encryptor t e).
Proof. intros He. split_and!; [|done..]. split; [apply in_time_refl|by split]. Qed.

Lemma encrypt_payload_exchange p : effects exchange (encrypt_payload p).
Proof.
  intros [w t]. unfold encrypt_payload. destruct (is_active _); [|reflexivity].
  destruct (encrypt (encryptor t) p) as [[c e]| |] eqn:E; [|reflexivity..].
  apply set_encryptor_exchange. by apply encrypt_active in E as [-> _].
Qed.

Lemma decrypt_payload_exchange p : effects exchange (decrypt_payload p).
Proof.
  intros [w t]. unfold decrypt_payload. destruct (is_active _); [|reflexivity].
  destruct (decrypt (encryptor t) p) as [[c e]| |] eqn:E; [|reflexivity..].
  apply set_encryptor_exchange. by apply decrypt_active in E as [-> _].
Qed.

Hint Resolve send_raw_exchange next_serial_exchange encrypt_payload_exchange
  decrypt_payload_exchange : effects.

Lemma send_message_exchange cmd attrs extra number :
  effects exchange (send_message_with_serial cmd attrs extra number).
Proof. unfold send_message_with_serial. effects. Qed.

Lemma fill_buf_exchange n : effects exchange (fill_buf n).
Proof.
  intros [w t]. unfold fill_buf. pose proof (read_exact_exchange n (w, t)) as Hr.
  assert (∀ w t v, exchange (w, t) (w, set_recv_buf t v)) as Hb.
  { intros w1 t1 v. split_and!; [|done..]. split; [apply in_time_refl|by split]. }
  destruct (read_exact n (w, t)) as [[p|e|] [w1 t1]]; cbn in *; [|..|done];
    (etransitivity; [exact Hr|apply Hb]).
Qed.

Lemma set_schema_exchange schema : effects exchange (update (λ t, set_schema t schema)).
Proof. field_update. Qed.

Lemma set_recv_buf_exchange p : effects exchange (update (λ t, set_recv_buf t p)).
Proof. field_update. Qed.

Hint Resolve send_message_exchange fill_buf_exchange set_schema_exchange
  set_recv_buf_exchange : effects.

Lemma receive_exchange : effects exchange receive_into_buf.
Proof. unfold receive_into_buf. effects. Qed.

Lemma receive_message_exchange : effects exchange receive_message.
Proof. pose proof receive_exchange. unfold receive_message. effects. Qed.

Lemma receive_response_exchange : effects exchange receive_response.
Proof. pose proof receive_exchange. unfold receive_response. effects. Qed.

Lemma await_result_exchange exhausted fuel :
  effects exchange exhausted → effects exchange (await_result exhausted fuel).
Proof.
  intros He. pose proof receive_response_exchange. induction fuel as [|fuel IH];
    cbn [await_result]; effects.
Qed.

Lemma send_and_fill_exchange cmd attrs extra : effects exchange (send_and_fill_buf cmd attrs extra).
Proof.
  pose proof (λ n, await_result_exchange (pure_call Panic) n (effects_pure exchange _)).
  unfold send_and_fill_buf. effects.
Qed.

Hint Resolve receive_message_exchange send_and_fill_exchange : effects.

Lemma send_and_receive_exchange cmd attrs extra :
  effects exchange (send_and_receive cmd attrs extra).
Proof. unfold send_and_receive. effects. Qed.

Hint Resolve send_and_receive_exchange : effects.

(** ** The login and the disconnect *)
Lemma login_request_step credentials : effects login_step (login_request credentials).
Proof. apply effects_login. unfold login_request. effects. Qed.

Lemma login_update f :
  (∀ t, kept t (f t)) → effects login_step (update f).
Proof. intros Hf. apply effects_update. intros w t. split; [apply in_time_refl|apply Hf]. Qed.

Lemma authentication_step credentials key phrase use :
  effects login_step (authentication credentials key phrase use).
Proof.
  assert (∀ w t (c : SerialCounter), login_step (w, t)
    ({| now := now w; cutoff := cutoff w; draws := 3 + draws w |}, set_serial t c)) as Hs.
  { intros w t c. split; [|by split]. unfold in_time. cbn. split_and!; [done|lia|intros; lia]. }
  intros [w t]. unfold authentication.
  destruct (build_auth_message _ _ _ _ _ _) as [[m c]|e|]; [apply Hs|..];
    destruct t; apply (Hs w {| encryptor := _ |} _).
Qed.

Lemma activate_keys_step use m : effects login_step (activate_keys use m).
Proof.
  unfold activate_keys. effects. by apply login_update.
Qed.

Lemma login_secrets_step credentials key phrase :
  effects login_step (login_secrets credentials key phrase).
Proof.
  pose proof authentication_step. pose proof activate_keys_step.
  assert (∀ data, effects login_step (send_raw data)) by (intros; apply effects_login; effects).
  assert (effects login_step receive_message) by (apply effects_login; effects).
  unfold login_secrets. effects.
Qed.

Lemma login_attributes_step : effects exchange login_attributes_exchange.
Proof. unfold login_attributes_exchange, send_message. effects. Qed.

Lemma login_exchange_step credentials : effects login_step (native_login_exchange credentials).
Proof.
  pose proof login_request_step. pose proof login_secrets_step.
  pose proof (effects_login _ login_attributes_step).
  unfold native_login_exchange. effects; by apply login_update.
Qed.

Lemma disconnect_exchange : effects exchange native_send_disconnect.
Proof. unfold native_send_disconnect. effects. Qed.

(** ** Nothing is cancelled without a timer *)
Lemma uncut_this : uncut this.
Proof. by intros s Hs. Qed.

Lemma uncut_update f : uncut (update f).
Proof. apply uncut_modify. by intros [w t]. Qed.

Hint Resolve uncut_this uncut_update : uncut.

Lemma uncut_stream_mut : uncut stream_mut.
Proof. unfold stream_mut. uncut. Qed.

Lemma uncut_put s k : uncut (put_socket s k).
Proof. unfold put_socket. uncut. Qed.

Hint Resolve uncut_stream_mut uncut_put : uncut.

Lemma uncut_read n : uncut (read_exact n).
Proof. unfold read_exact. uncut. Qed.

Lemma uncut_send_raw data : uncut (send_raw data).
Proof. unfold send_raw, write_all, flush. uncut. Qed.

Lemma uncut_crypt p : uncut (encrypt_payload p) ∧ uncut (decrypt_payload p).
Proof.
  unfold encrypt_payload, decrypt_payload, encrypt, decrypt, apply_state.
  split; intros [w t] Hw; cbn in Hw; unfold mbind, outcome_bind; by repeat case_match.
Qed.

Lemma uncut_encrypt p : uncut (encrypt_payload p).
Proof. apply uncut_crypt. Qed.

Lemma uncut_decrypt p : uncut (decrypt_payload p).
Proof. apply uncut_crypt. Qed.

Lemma uncut_serial : uncut next_serial.
Proof. by intros [w t] Hw. Qed.

Lemma uncut_fill n : uncut (fill_buf n).
Proof.
  intros [w t] Hw. destruct (uncut_read n (w, t) Hw) as [Hr Hc]. unfold fill_buf.
  destruct (read_exact n (w, t)) as [[p|e|] [w1 t1]]; cbn in *; split; try done.
  intros [= ->]. by apply Hr.
Qed.

Hint Resolve uncut_read uncut_send_raw uncut_encrypt uncut_decrypt uncut_serial uncut_fill
  : uncut.

Lemma uncut_send_message cmd attrs extra n : uncut (send_message_with_serial cmd attrs extra n).
Proof. unfold send_message_with_serial. uncut. Qed.

Lemma uncut_receive : uncut receive_into_buf.
Proof. unfold receive_into_buf. uncut. Qed.

Hint Resolve uncut_send_message uncut_receive : uncut.

Lemma uncut_await_result fuel : uncut (await_result (pure_call Panic) fuel).
Proof.
  assert (uncut receive_response) by (unfold receive_response; uncut).
  induction fuel; cbn [await_result]; uncut.
Qed.

Hint Resolve uncut_await_result : uncut.

Lemma uncut_send_and_fill cmd attrs extra : uncut (send_and_fill_buf cmd attrs extra).
Proof. unfold send_and_fill_buf. uncut. Qed.

Hint Resolve uncut_send_and_fill : uncut.

Lemma uncut_send_and_receive cmd attrs extra : uncut (send_and_receive cmd attrs extra).
Proof. unfold send_and_receive. uncut. Qed.

Hint Resolve uncut_send_and_receive : uncut.

#[export] Instance native_lifecycle_laws : LifecycleLaws NativeTcpTransport.
Proof.
  split.
  - done.
  - done.
  - intros credentials s. apply (login_exchange_step credentials s).
  - intros credentials s. apply (login_exchange_step credentials s).
  - intros s. apply (disconnect_exchange s).
  - intros [w t] e s'. cbn [send_disconnect native_steps]. unfold native_send_disconnect.
    unfold mbind, action_bind, this. cbn [snd].
    destruct (decide (lc_state (nt_lifecycle t) = Authenticated)); [|done].
    unfold ignore_err. pose proof (uncut_send_and_receive CMD_DISCONNECT AttributeSet_new None (w, t))
      as Hu. cbn [fst] in Hu |- *.
    destruct (send_and_receive _ _ _ (w, t)) as [[r|e1|] s1]; [done| |done].
    destruct (decide (e1 = Cancelled)) as [->|Hne];
      [|by rewrite bool_decide_false]. intros [= <- <-]. split; [done|].
    destruct (cutoff w); [by eexists|]. by destruct (Hu eq_refl).
Qed.

End Native.

#[export] Hint Resolve read_exact_exchange write_all_exchange flush_exchange send_raw_exchange
  next_serial_exchange encrypt_payload_exchange decrypt_payload_exchange send_message_exchange
  fill_buf_exchange set_schema_exchange set_recv_buf_exchange receive_exchange
  receive_message_exchange send_and_fill_exchange send_and_receive_exchange : effects.
#[export] Hint Resolve uncut_this uncut_update uncut_stream_mut uncut_put uncut_read
  uncut_send_raw uncut_encrypt uncut_decrypt uncut_serial uncut_fill uncut_send_message
  uncut_receive uncut_await_result uncut_send_and_fill uncut_send_and_receive : uncut.
