(* ===== verification/NativeReach.v ===== *)
(** * The reachable states of a native connection

    The requests of the driver as steps of a state machine, the invariant of the states
    they reach, and the guards of the operations. *)
From S2P Require Import Prelude MachineInt RustStr Constants Errors Effect Framing Attributes.
From S2P Require Import Float64 Json ResultParser Messages Lifecycle Encryption Handshake.
From S2P Require Import HandshakeCodec Tls ParamEncoding NativeTransport NativeInvariant.

#[local] Open Scope Z_scope.

Section Reach.
Context `{BuildProfile, ArrowLib, SerdeJson, PowI, ChaCha20, BigUint, SecureRandom, Platform}.
Context `{Clock, Network, Rustls, ResponseDebug}.

(** ** The requests of the driver *)
(** The methods of the transport. *)
Inductive Request :=
| Connect (params : ConnectionParams)
| Authenticate (credentials : Credentials)
| ExecuteQuery (sql : string)
| FetchResults (handle : Z)
| CloseResultSet (handle : Z)
| CreatePrepared (sql : string)
| ExecutePrepared (handle : PreparedStatementHandle) (parameters : option (list (list json)))
| ClosePrepared (handle : PreparedStatementHandle)
| SetAutocommit (enabled : bool)
| SetQueryTimeout (timeout_secs : Z)
| SetCurrentSchema (schema : string)
| RefreshCurrentSchema
| Close
| Terminate.

Definition void {A} (m : nio A) : nio unit := _ ← m; mret ().

Definition perform (r : Request) : nio unit :=
  match r with
  | Connect params => connect params
  | Authenticate credentials => void (authenticate_within_deadline credentials)
  | ExecuteQuery sql => void (execute_query sql)
  | FetchResults handle => void (fetch_results handle)
  | CloseResultSet handle => close_result_set handle
  | CreatePrepared sql => void (create_prepared_statement sql)
  | ExecutePrepared handle parameters => void (execute_prepared_statement handle parameters)
  | ClosePrepared handle => close_prepared_statement handle
  | SetAutocommit enabled => set_autocommit enabled
  | SetQueryTimeout timeout_secs => set_query_timeout timeout_secs
  | SetCurrentSchema schema => set_current_schema schema
  | RefreshCurrentSchema => void refresh_current_schema
  | Close => close_gracefully
  | Terminate => update terminate
  end.

(** The requests that need a login. *)
Definition needs_login (r : Request) : bool :=
  match r with Connect _ | Authenticate _ | Close | Terminate => false | _ => true end.

(** The states of a transport that no timer cancels from outside. *)
Inductive reachable : World * NativeTcpTransport → Prop :=
| reachable_new w : cutoff w = None → reachable (w, NativeTcpTransport_new)
| reachable_step s r o s' :
  reachable s → perform r s = (o, s') → o ≠ Panic → reachable s'.

Record native_inv (t : NativeTcpTransport) : Prop := {
  inv_stream : is_Some (stream t) ↔ is_open (nt_lifecycle t) = true;
  inv_tls s : stream t = Some s → tls_active t = is_tls s;
  inv_session : is_Some (nt_session t) ↔ lc_state (nt_lifecycle t) = Authenticated;
  inv_deadline : lc_state (nt_lifecycle t) = Connected → is_Some (lc_deadline (nt_lifecycle t));
  inv_caches : dom (fetch_positions t) = dom (cached_columns t);
  inv_fresh : lc_state (nt_lifecycle t) = Disconnected →
    tls_active t = false ∧ is_active (encryptor t) = false;
  inv_no_cipher : tls_active t = true → is_active (encryptor t) = false;
  inv_cipher : lc_state (nt_lifecycle t) = Authenticated → tls_active t = false →
    is_active (encryptor t) = true;
}.

(** ** Operations behind a login *)
(** What an operation may change: what an exchange may, and the caches together. *)
Definition request_step : relation (World * NativeTcpTransport) := λ s s',
  in_time s s' ∧ nt_lifecycle s'.2 = nt_lifecycle s.2 ∧ tls_active s'.2 = tls_active s.2 ∧
  stream_kind s'.2 = stream_kind s.2 ∧ nt_session s'.2 = nt_session s.2 ∧
  is_active (encryptor s'.2) = is_active (encryptor s.2) ∧
  (dom (fetch_positions s.2) = dom (cached_columns s.2) →
   dom (fetch_positions s'.2) = dom (cached_columns s'.2)).

#[local] Instance request_step_preorder : PreOrder request_step.
Proof.
  split; [done|]. intros s1 s2 s3 (A1 & A2 & A3 & A4 & A5 & A6 & A7) (B1 & B2 & B3 & B4 & B5 & B6 & B7).
  split_and!; [by etransitivity|congruence..|tauto].
Qed.

Lemma exchange_request s s' : exchange s s' → request_step s s'.
Proof.
  intros ([Ht [A1 A2 A3 A4 A5]] & B & C). split_and!; try done. by rewrite A4, A5.
Qed.

Lemma effects_request {A} (m : nio A) : effects exchange m → effects request_step m.
Proof. intros Hm s. apply exchange_request, Hm. Qed.

Lemma guard_request message : effects request_step (require_authenticated message).
Proof. apply effects_request. unfold require_authenticated. effects. Qed.

Lemma fill_request cmd attrs extra : effects request_step (send_and_fill_buf cmd attrs extra).
Proof. apply effects_request. effects. Qed.

Lemma receive_request cmd attrs extra : effects request_step (send_and_receive cmd attrs extra).
Proof. apply effects_request. effects. Qed.

Lemma schema_request schema : effects request_step (update (λ t, set_schema t schema)).
Proof. apply effects_request. effects. Qed.

Lemma caches_request f g :
  (∀ t, dom (fetch_positions t) = dom (cached_columns t) → dom (f t) = dom (g t)) →
  effects request_step (update (λ t, set_caches t (f t) (g t))).
Proof.
  intros Hf. apply effects_update. intros w t. split_and!; try done; [apply in_time_refl|apply Hf].
Qed.

Hint Resolve guard_request fill_request receive_request schema_request : effects.

Lemma convert_request response : effects request_step (convert_and_cache_result response).
Proof.
  unfold convert_and_cache_result. effects.
  apply (caches_request (λ t, <[handle := rows_received]> (fetch_positions t))
                        (λ t, <[handle := columns]> (cached_columns t))).
  intros t Hd. by rewrite !dom_insert_L, Hd.
Qed.

Lemma close_result_request handle : effects request_step (close_result_set handle).
Proof.
  unfold close_result_set, check_closed. effects.
  apply (caches_request (λ t, delete handle (fetch_positions t))
                        (λ t, delete handle (cached_columns t))).
  intros t Hd. by rewrite !dom_delete_L, Hd.
Qed.

Lemma advance_request handle start rows s :
  is_Some (cached_columns s.2 !! handle) → request_step s (advance_position handle start rows s).2.
Proof.
  intros Hc. destruct s as [w t]. unfold advance_position, mbind, action_bind, pure_call, arith.
  destruct (in_rangeb I64 (start + rows)); [|destruct overflow_checks]; [|reflexivity|];
    (split_and!; try done; [apply in_time_refl|]; cbn; intros Hd;
     rewrite dom_insert_L, Hd; apply elem_of_dom in Hc; set_solver).
Qed.

(** The rest of an action that starts with a step that keeps [P]. *)
Lemma request_bind {A B} (P : World * NativeTcpTransport → Prop) (m : nio A) (k : A → nio B) s :
  request_step s (m s).2 → P (m s).2 → (∀ a s', P s' → request_step s' (k a s').2) →
  request_step s ((m ≫= k) s).2.
Proof.
  intros Hm HP Hk. unfold mbind, action_bind.
  destruct (m s) as [[a|e|] s1]; cbn in *; [|done..]. etransitivity; [exact Hm|by apply Hk].
Qed.

Lemma fetched_request handle start columns response s :
  is_Some (cached_columns s.2 !! handle) →
  request_step s (fetched handle start columns response s).2.
Proof.
  intros Hc. unfold fetched. destruct response; try reflexivity.
  - apply (request_bind (λ _, True)); [by apply advance_request|done|reflexivity].
  - apply (request_bind (λ s, is_Some (cached_columns s.2 !! handle))); [reflexivity|done|].
    intros [n b] s' Hs'.
    apply (request_bind (λ _, True)); [by apply advance_request|done|reflexivity].
Qed.

Lemma fetch_request handle : effects request_step (fetch_results handle).
Proof.
  unfold fetch_results. apply effects_bind; [apply _|apply guard_request|intros _].
  intros [w t]. rewrite (run_bind this _ (w, t) t (w, t)) by done. cbv zeta.
  destruct (cached_columns t !! handle) as [columns|] eqn:Ec;
    [|by erewrite run_bind_err by done].
  rewrite (run_bind _ _ (w, t) columns (w, t)) by done.
  set (P := λ s : World * NativeTcpTransport, is_Some (cached_columns s.2 !! handle)).
  set (m := send_and_fill_buf _ _ _).
  assert (P (m (w, t)).2) as Hm.
  { pose proof (send_and_fill_exchange CMD_FETCH2 AttributeSet_new
      (Some (fetch_payload handle (default 0 (fetch_positions t !! handle))
        (native_max_message_size t))) (w, t)) as ([_ [_ _ _ _ Hk]] & _).
    unfold P. fold m in Hk. rewrite Hk. cbn. by rewrite Ec. }
  apply (request_bind P); [apply fill_request|exact Hm|]. intros header s' Hs'.
  apply (request_bind P); [reflexivity|exact Hs'|]. intros t' s2 Hs2.
  apply (request_bind P); [apply effects_try; apply _| |].
  { by destruct s2. }
  intros r s3 Hs3. by apply fetched_request.
Qed.

Hint Resolve convert_request close_result_request fetch_request : effects.

Lemma execute_prepared_request handle parameters :
  effects request_step (execute_prepared_statement handle parameters).
Proof.
  assert (∀ data, effects request_step (run_execute_prepared data))
    by (intros; unfold run_execute_prepared; effects).
  assert (∀ encoded total range, effects request_step (execute_range handle encoded total range))
    by (intros; unfold execute_range; effects).
  unfold execute_prepared_statement, split_for, execute_prepared_ranges. effects.
Qed.

(** The operations behind a login change nothing else. *)
Lemma perform_request r : needs_login r = true → effects request_step (perform r).
Proof.
  pose proof execute_prepared_request. intros Hr.
  assert (∀ attrs, effects request_step (set_attributes attrs))
    by (intros; unfold set_attributes; effects).
  assert (effects request_step refresh_current_schema)
    by (unfold refresh_current_schema; effects).
  destruct r; try done; cbn [perform]; unfold void, execute_query, create_prepared_statement,
    close_prepared_statement, check_closed, set_autocommit, set_query_timeout,
    set_current_schema; effects.
Qed.

(** ** Connecting *)
Definition idle : relation (World * NativeTcpTransport) := λ s s', s'.2 = s.2.

#[local] Instance idle_preorder : PreOrder idle.
Proof. split; [done|]. intros s1 s2 s3 H12 H23. unfold idle in *. congruence. Qed.

Lemma await_idle n : effects idle (await n).
Proof. intros [w t]. destruct (await_cases n w t) as (o & w' & -> & _ & _). done. Qed.

Lemma deadline_run_idle {A} d step (m : nio A) : effects idle m → effects idle (deadline_run d step m).
Proof.
  intros Hm [w t]. unfold deadline_run.
  match goal with |- context [m ?s] => specialize (Hm s); destruct (m s) as [o [w' t']] end.
  exact Hm.
Qed.

Lemma handshake_idle tcp host v : effects idle (client_handshake tcp host v).
Proof.
  intros s. destruct (client_handshake tcp host v s) as [o s'] eqn:E. cbn.
  by apply client_handshake_keeps in E.
Qed.

Lemma start_idle label budget : effects idle (SetupDeadline_start label budget).
Proof. by intros [w t]. Qed.

Hint Resolve await_idle handshake_idle start_idle : effects.

(** A connect either fails and leaves the transport alone, or opens a stream on a
    disconnected one. *)
Lemma connect_cases params :
  ∀ s, wp (connect params) (λ o s',
    (o ≠ Ok () ∧ s'.2 = s.2) ∨
    (o = Ok () ∧ lc_state (nt_lifecycle s.2) = Disconnected ∧ ∃ d k,
       s'.2 = set_nt_lifecycle
         (if use_tls params then set_tls_stream s.2 k else set_stream s.2 (Some (Plain k)))
         (connected (nt_lifecycle s.2) d))) s.
Proof.
  intros [w t]. unfold connect, wp. rewrite (run_bind this _ (w, t) t (w, t)) by done.
  unfold begin_connect, require. cbn [snd].
  destruct (decide (lc_state (nt_lifecycle t) = Disconnected)) as [Hd|Hd];
    [|destruct (decide _); by left].
  eapply (wp_step idle); [effects|by left|by left|]. intros d [w1 t1] _ E1. unfold idle in E1; cbn in E1; subst t1.
  assert (effects idle (connect_tcp params)) as Hc by (unfold connect_tcp; effects).
  eapply (wp_step idle); [by apply deadline_run_idle|by left|by left|].
  intros tcp [w2 t2] _ E2. unfold idle in E2; cbn in E2; subst t2.
  destruct (nodelay_error tcp) as [e|]; [by left|]. apply wp_bind.
  unfold wp at 1. cbn [fst snd mret action_ret].
  destruct (use_tls params).
  - apply wp_bind. eapply (wp_step idle); [apply deadline_run_idle; effects|by left|by left|].
    intros k [w3 t3] _ E3. unfold idle in E3; cbn in E3; subst t3. right. cbn. eauto.
  - right. cbn. eauto.
Qed.

(** ** Logging in *)
Definition quiet : relation (World * NativeTcpTransport) := λ s s',
  login_step s s' ∧ nt_session s'.2 = nt_session s.2 ∧
  (tls_active s.2 = true → is_active (encryptor s'.2) = is_active (encryptor s.2)).

#[local] Instance quiet_preorder : PreOrder quiet.
Proof.
  split; [done|]. intros s1 s2 s3 ([T1 K1] & S1 & A1) ([T2 K2] & S2 & A2).
  split_and!; [split; by etransitivity|congruence|]. intros Htls.
  rewrite A2 by (destruct K1; congruence). by apply A1.
Qed.

Lemma effects_quiet {A} (m : nio A) : effects exchange m → effects quiet m.
Proof. intros Hm s. destruct (Hm s) as (? & ? & ?). by split_and!. Qed.

Lemma authentication_quiet credentials key phrase use :
  effects quiet (authentication credentials key phrase use).
Proof.
  intros s. split; [apply authentication_step|]. destruct s as [w t]. unfold authentication.
  by destruct (build_auth_message _ _ _ _ _ _) as [[m c]|e|].
Qed.

Lemma send_raw_quiet data : effects quiet (send_raw data).
Proof. apply effects_quiet. effects. Qed.

Lemma receive_quiet : effects quiet receive_message.
Proof. apply effects_quiet. effects. Qed.

Hint Resolve authentication_quiet send_raw_quiet receive_quiet : effects.

(** On a connection without TLS the keys are drawn, with their length. *)
Lemma authentication_keys `{!SecureRandomLaws H5} credentials key phrase s m s' :
  authentication credentials key phrase true s = (Ok m, s') →
  length (Handshake.send_key m) = CHACHA20_KEY_LEN.
Proof.
  destruct s as [w t]. unfold authentication, build_auth_message. intros Hm.
  destruct (parse_rsa_public_key key) as [[n e]| |]; [|done..]. cbn [mbind outcome_bind] in Hm.
  destruct (pad_password _ _ _) as [p| |]; [|done..]. cbn [mbind outcome_bind] in Hm.
  destruct (exasol_encode_pwd p _ _ _) as [c| |]; [|done..].
  cbn [mbind outcome_bind add_client_keys] in Hm. unfold generate_keys in Hm.
  destruct (rng_fill _ _) as [sk|] eqn:Es; [|done].
  destruct (rng_fill (S _) _) as [rk|] eqn:Er in Hm; [|done]. cbn [mbind outcome_bind] in Hm.
  destruct (exasol_encode_pwd sk _ _ _) as [c1| |]; [|done..]. cbn [mbind outcome_bind] in Hm.
  destruct (exasol_encode_pwd rk _ _ _) as [c2| |]; [|done..]. cbn [mbind outcome_bind] in Hm.
  injection Hm as <- _. cbn. by apply (rng_fill_length _ _ _ Es).
Qed.

Section Keys.
Context `{!SecureRandomLaws H5}.

(** What a step of the login leaves: on success without TLS the ciphers are active. *)
Definition login_left {A} (s : World * NativeTcpTransport) (o : outcome stop A)
    (s' : World * NativeTcpTransport) : Prop :=
  quiet s s' ∧ (∀ a, o = Ok a → tls_active s.2 = false → is_active (encryptor s'.2) = true).

Lemma activate_keys_left use m s :
  use = negb (tls_active s.2) →
  (use = true → length (Handshake.send_key m) = CHACHA20_KEY_LEN) →
  wp (activate_keys use m) (login_left s) s.
Proof.
  intros -> Hl. destruct s as [w t]. cbn [snd] in *. unfold wp, activate_keys, login_left.
  destruct (tls_active t) eqn:Et; cbn [negb andb] in *.
  { split; [reflexivity|]. cbn. by rewrite Et. }
  rewrite Hl by done. cbn [CHACHA20_KEY_LEN Nat.eqb negb]. unfold mbind, action_bind, pure_call.
  destruct (set_keys (E := stop) _ _) as [e|e|] eqn:Ek; [|by split; [reflexivity|]..].
  cbn. split.
  - split; [|split; [done|cbn; by rewrite Et]]. split; [apply in_time_refl|by split].
  - intros _ _ _. unfold set_keys, ChaCha20State_new in Ek.
    by repeat (case_match; simplify_eq/=).
Qed.

Lemma login_secrets_left credentials key phrase s :
  wp (login_secrets credentials key phrase) (login_left s) s.
Proof.
  unfold login_secrets. destruct s as [w t]. apply wp_bind. unfold wp at 1. cbn [this fst snd].
  assert (∀ (e : stop) s', quiet (w, t) s' → login_left (A := unit) (w, t) (Err e) s') as He
    by (by split).
  assert (∀ s', quiet (w, t) s' → login_left (A := unit) (w, t) Panic s') as Hp by (by split).
  eapply (wp_step quiet); [effects|exact He|exact Hp|]. intros m s1 Em Q1.
  eapply (wp_step quiet); [effects|intros e s' Q; apply He; by etransitivity|
    intros s' Q; apply Hp; by etransitivity|]. intros _ s2 _ Q2.
  eapply (wp_step quiet); [effects|intros e s' Q; apply He; do 2 (etransitivity; [done|]); done|
    intros s' Q; apply Hp; do 2 (etransitivity; [done|]); done|]. intros [header payload] s3 _ Q3.
  eapply (wp_step quiet); [effects|intros e s' Q; apply He; do 3 (etransitivity; [done|]); done|
    intros s' Q; apply Hp; do 3 (etransitivity; [done|]); done|]. intros _ s4 _ Q4.
  assert (quiet (w, t) s4) as Q by (do 3 (etransitivity; [done|]); done).
  assert (tls_active s4.2 = tls_active t) as Ht by (by destruct Q as [[_ []] _]).
  eapply wp_mono; [apply activate_keys_left|].
  - by rewrite Ht.
  - intros Hu. rewrite Hu in Em. by eapply authentication_keys.
  - intros o s' [Q5 Ha]. split; [by etransitivity|]. rewrite Ht in Ha. exact Ha.
Qed.

Definition logged_in (s : World * NativeTcpTransport) (o : outcome stop SessionInfo)
    (s' : World * NativeTcpTransport) : Prop :=
  login_step s s' ∧
  (tls_active s.2 = true → is_active (encryptor s'.2) = is_active (encryptor s.2)) ∧
  match o with
  | Ok info =>
    nt_session s'.2 = Some info ∧
    (tls_active s.2 = false → is_active (encryptor s'.2) = true)
  | _ => nt_session s'.2 = nt_session s.2
  end.

Lemma login_exchange_left credentials s :
  wp (native_login_exchange credentials) (logged_in s) s.
Proof.
  unfold native_login_exchange.
  assert (∀ (e : stop) s', quiet s s' → logged_in s (Err e) s') as He
    by (intros e s' (? & ? & ?); done).
  assert (∀ s', quiet s s' → logged_in s Panic s') as Hp by (intros s' (? & ? & ?); done).
  assert (effects quiet (login_request credentials)) as Hr
    by (apply effects_quiet; unfold login_request; effects).
  eapply (wp_step quiet); [exact Hr|exact He|exact Hp|].
  intros [[key phrase] session] s1 _ Q1. apply wp_bind.
  eapply wp_mono; [apply login_secrets_left|]. intros o s2 [Q2 Ha].
  assert (quiet s s2) as Q by (by etransitivity).
  destruct o as [[]|e|]; [|by apply He|by apply Hp].
  assert (tls_active s.2 = false → is_active (encryptor s2.2) = true) as Hact.
  { intros Ht. apply (Ha ()); [done|]. destruct Q1 as [[_ []] _]. congruence. }
  eapply (wp_step exchange); [apply login_attributes_step| | |].
  { intros e s' E. apply He. etransitivity; [done|]. by destruct E as (? & ? & ?). }
  { intros s' E. apply Hp. etransitivity; [done|]. by destruct E as (? & ? & ?). }
  intros ga s3 _ (L3 & S3 & A3). destruct Q as (L & _ & A).
  destruct s3 as [w3 t3]. cbn in *. unfold wp, mbind, action_bind, logged_in. cbn.
  split_and!; [| |done|intros Ht; rewrite A3; by apply Hact].
  - etransitivity; [etransitivity; [exact L|exact L3]|]. split; [apply in_time_refl|by split].
  - intros Ht. rewrite A3. by apply A.
Qed.

(** ** The invariant *)
Lemma inv_request s s' : request_step s s' → native_inv s.2 → native_inv s'.2.
Proof.
  intros (_ & Hl & Ht & Hk & Hs & Ha & Hd) [I1 I2 I3 I4 I5 I8 I6 I7]. unfold stream_kind in Hk.
  split.
  - rewrite Hl, <- I1. destruct (stream s.2), (stream s'.2); try done; split; intros []; by eexists.
  - intros k Hs'. rewrite Hs' in Hk. destruct (stream s.2) as [k0|] eqn:E0; [|done].
    injection Hk as Hk. rewrite Ht, Hk. by apply I2.
  - by rewrite Hs, Hl.
  - by rewrite Hl.
  - by apply Hd.
  - by rewrite Hl, Ht, Ha.
  - by rewrite Ht, Ha.
  - by rewrite Hl, Ht, Ha.
Qed.

(** The state of a released connection. *)
Lemma inv_released t s :
  native_inv t → s = Closed ∨ s = Terminated → native_inv (set_state s (terminate t)).
Proof.
  intros [I1 I2 I3 I4 I5 I8 I6 I7] Hs. split; cbn; unfold is_open; cbn.
  - split; [by intros []|]. by destruct Hs as [-> | ->].
  - done.
  - split; [by intros []|]. by destruct Hs as [-> | ->].
  - by destruct Hs as [-> | ->].
  - done.
  - by destruct Hs as [-> | ->].
  - done.
  - by destruct Hs as [-> | ->].
Qed.

Lemma inv_new : native_inv NativeTcpTransport_new.
Proof.
  split; cbn; try done; try (split; [by intros []|done]).
Qed.

Lemma inv_connect params s o s' :
  connect params s = (o, s') → native_inv s.2 → native_inv s'.2.
Proof.
  intros Hr Hi. pose proof (connect_cases params s) as Hc. unfold wp in Hc. rewrite Hr in Hc.
  destruct Hc as [[_ Heq]|(_ & Hd & d & k & Heq)]; [cbn in Heq; by rewrite Heq|].
  cbn in Heq. rewrite Heq. destruct Hi as [I1 I2 I3 I4 I5 I8 I6 I7].
  assert (stream s.2 = None) as Hn.
  { unfold is_open in I1. rewrite Hd in I1. apply eq_None_not_Some. intros Hs.
    by apply I1 in Hs. }
  assert (nt_session s.2 = None) as Hns.
  { rewrite Hd in I3. apply eq_None_not_Some. intros Hs. by apply I3 in Hs. }
  destruct (I8 Hd) as [Htls Hact].
  destruct (use_tls params); split; cbn; rewrite ?Hns, ?Htls, ?Hact; try done.
  all: try (by intros _ [= <-]); try (split; [by intros []|done]); try (split; [done|by eexists]).
  all: by eexists.
Qed.

(** A login exchange on a connected transport, whatever comes of it. *)
Lemma inv_login_failed (s s' : World * NativeTcpTransport) :
  lc_state (nt_lifecycle s.2) = Connected → native_inv s.2 → kept s.2 s'.2 →
  (tls_active s.2 = true → is_active (encryptor s'.2) = is_active (encryptor s.2)) →
  nt_session s'.2 = nt_session s.2 → native_inv s'.2.
Proof.
  intros Hc [I1 I2 I3 I4 I5 I8 I6 I7] [K1 K2 K3 K4 K5] Ha Hs. unfold stream_kind in K3.
  split; rewrite ?K1, ?Hs, ?K4, ?K5, ?K2; try done.
  - rewrite <- I1. destruct (stream s.2), (stream s'.2); try done; split; intros []; by eexists.
  - intros k Hk. rewrite Hk in K3. destruct (stream s.2) as [k0|] eqn:E0; [|done].
    injection K3 as K3. rewrite K3. by apply I2.
  - intros Hx. by rewrite Hx in Hc.
  - intros Htls. rewrite Ha by done. by apply I6.
  - intros Hx. by rewrite Hx in Hc.
Qed.

Lemma inv_logged_in (s s' : World * NativeTcpTransport) info :
  lc_state (nt_lifecycle s.2) = Connected → native_inv s.2 →
  logged_in s (Ok info) s' → native_inv (set_state Authenticated s'.2).
Proof.
  intros Hc [I1 I2 I3 I4 I5 I8 I6 I7] ([_ [K1 K2 K3 K4 K5]] & Ha & Hs & Hact).
  unfold stream_kind in K3. destruct (proj2 I1) as [k Hk]; [by unfold is_open; rewrite Hc|].
  rewrite Hk in K3. split; cbn; rewrite ?Hs, ?K4, ?K5, ?K2; try done.
  - destruct (stream s'.2); [by split|done].
  - intros k' Hk'. rewrite Hk' in K3. injection K3 as K3. rewrite K3. by apply I2.
  - intros Htls. rewrite Ha by done. by apply I6.
Qed.

Lemma inv_authenticate credentials s o s' :
  authenticate_within_deadline credentials s = (o, s') → o ≠ Panic →
  native_inv s.2 → native_inv s'.2.
Proof.
  destruct s as [w t]. cbn [snd]. intros Hr Hp Hi.
  destruct (decide (lc_state (nt_lifecycle t) = Connected)) as [Hc|Hc];
    [|rewrite login_refused in Hr by done; by injection Hr as _ <-].
  destruct (inv_deadline _ Hi Hc) as [d Hd].
  assert (nt_lifecycle t = {| lc_state := Connected; lc_deadline := Some d |}) as Hlc
    by (rewrite <- Hc, <- Hd; by destruct (nt_lifecycle t)).
  rewrite (login_connected credentials w t d) in Hr by exact Hlc.
  unfold login_within, deadline_run in Hr. cbn [login_exchange native_steps] in Hr.
  match type of Hr with context [native_login_exchange _ ?s] =>
    pose proof (login_exchange_left credentials s) as Hl; unfold wp in Hl;
    set (s0 := s) in *; destruct (native_login_exchange credentials s0) as [o1 [w1 t1]] end.
  assert (o1 = Err Cancelled ∨ (∃ e, o1 = Err (Failed e)) → native_inv t1) as Hfail.
  { intros Hf. destruct Hl as ([_ Hk] & Ha & Ho).
    apply (inv_login_failed s0 (w1, t1)); [done|done|done|done|by destruct Hf as [-> | [e ->]]]. }
  destruct o1 as [info|[e|]|]; [| | |by injection Hr as <-].
  - injection Hr as _ <-. exact (inv_logged_in s0 (w1, t1) info Hc Hi Hl).
  - assert (native_inv t1) as Hi1 by (apply Hfail; right; by eexists).
    injection Hr as _ <-. destruct (has_elapsed d _); [by apply inv_released; [|left]|done].
  - assert (native_inv t1) as Hi1 by (apply Hfail; by left).
    destruct (cutoff w) as [c|]; [|rewrite Z.eqb_refl in Hr];
      [destruct (Z.min c (d_deadline d) =? d_deadline d)|]; injection Hr as _ <-; try done;
      (destruct (has_elapsed d _); [by apply inv_released; [|left]|done]).
Qed.

Lemma inv_close s o s' :
  close_gracefully s = (o, s') → native_inv s.2 → native_inv s'.2.
Proof.
  intros Hr Hi. unfold close_gracefully, mbind, action_bind, get in Hr.
  destruct (negb (is_open _)); [by injection Hr as _ <-|].
  pose proof (disconnect_exchange s) as He. cbn [send_disconnect native_steps] in Hr.
  destruct (native_send_disconnect s) as [o1 [w1 t1]].
  apply exchange_request, inv_request in He; [|done]. cbn [snd] in He.
  destruct o1 as [[]|e|]; injection Hr as _ <-; [|done..].
  by apply inv_released; [|left].
Qed.

Lemma perform_inv r s o s' :
  perform r s = (o, s') → o ≠ Panic → native_inv s.2 → native_inv s'.2.
Proof.
  intros Hr Hp Hi. destruct (needs_login r) eqn:En.
  { pose proof (perform_request r En s) as He. rewrite Hr in He. by eapply inv_request. }
  destruct r; try done; cbn [perform] in Hr.
  - by eapply inv_connect.
  - unfold void, mbind, action_bind in Hr.
    destruct (authenticate_within_deadline credentials s) as [o1 s1] eqn:E1.
    eapply (inv_authenticate credentials s o1); [|by destruct o1; simplify_eq|done].
    rewrite E1. by destruct o1; injection Hr as _ <-.
  - by eapply inv_close.
  - destruct s as [w t]. unfold update, modify in Hr. injection Hr as _ <-. cbn in *.
    pose proof (inv_released t Terminated Hi (or_intror eq_refl)) as Ht.
    exact Ht.
Qed.

(** ** Guards *)
Lemma guarded_bind {A} message (k : unit → nio A) w t :
  lc_state (nt_lifecycle t) ≠ Authenticated →
  (require_authenticated message ≫= k) (w, t)
  = (Err (Failed (if decide (lc_state (nt_lifecycle t) = Terminated) then terminated_error
                  else ProtocolError message)), (w, t)).
Proof.
  intros Hn. unfold require_authenticated, require, mbind, action_bind, this, try, pure_call.
  cbn [snd]. rewrite decide_False by done. by destruct (decide _).
Qed.

Lemma void_err {A} (m : nio A) s e s' : m s = (Err e, s') → void m s = (Err e, s').
Proof. apply run_bind_err. Qed.

(** What a guard says. *)
Definition guard_error (t : NativeTcpTransport) (message : string) : TransportError :=
  if decide (lc_state (nt_lifecycle t) = Terminated) then terminated_error
  else ProtocolError message.

Lemma guarded_perform r w t :
  needs_login r = true → lc_state (nt_lifecycle t) ≠ Authenticated →
  (∃ message, perform r (w, t) = (Err (Failed (guard_error t message)), (w, t))) ∨
  (∃ n e, r = SetQueryTimeout n ∧ ¬ in_range I32 n ∧ perform r (w, t) = (Err (Failed e), (w, t))).
Proof.
  intros Hr Hn.
  assert (∀ attrs, ∃ message,
    set_attributes attrs (w, t) = (Err (Failed (guard_error t message)), (w, t))) as Hs
    by (intros attrs; eexists; unfold set_attributes; by apply guarded_bind).
  destruct r; try done; cbn [perform];
    try (left; eexists; first [apply void_err|idtac]; apply guarded_bind; exact Hn).
  - unfold set_query_timeout. destruct (in_rangeb I32 timeout_secs) eqn:Ei; [left; apply Hs|].
    right. eexists _, _. split_and!; [done|by apply in_rangeb_false|reflexivity].
  - unfold set_current_schema. left. destruct (Hs (AttributeSet_add AttributeSet_new
      ATTR_CURRENT_SCHEMA (AString schema))) as [message Es].
    exists message. by rewrite (run_bind_err _ _ _ _ _ Es).
Qed.

(** The guards: on a transport that is not logged in, every operation behind the
    login fails before it touches the connection or the state; on a terminated one the
    error names the termination (an out-of-range timeout is reported first). *)
Theorem guarded_requests r w t :
  needs_login r = true → lc_state (nt_lifecycle t) ≠ Authenticated →
  ∃ e, perform r (w, t) = (Err (Failed e), (w, t)) ∧
    (lc_state (nt_lifecycle t) = Terminated →
     e = terminated_error ∨ ∃ n, r = SetQueryTimeout n ∧ ¬ in_range I32 n).
Proof.
  intros Hr Hn. destruct (guarded_perform r w t Hr Hn) as [[message Hm]|(n & e & -> & Hi & Hm)].
  - eexists. split; [exact Hm|]. intros Ht. left. unfold guard_error. by rewrite decide_True.
  - exists e. split; [done|]. intros _. right. by exists n.
Qed.

(** ** The lifecycle *)
(** What a request may do to the connection state, by its success. *)
Definition lifecycle_spec (r : Request) (ok : bool) (before after : ConnectionState) : Prop :=
  match r with
  | Connect _ => if ok then before = Disconnected ∧ after = Connected else after = before
  | Authenticate _ =>
    if ok then before = Connected ∧ after = Authenticated
    else after = before ∨ (before = Connected ∧ after = Closed)
  | Close =>
    ok = true ∧
    after = match before with Connected | Authenticated => Closed | s => s end
  | Terminate => ok = true ∧ after = Terminated
  | _ => (ok = true → before = Authenticated) ∧ after = before
  end.

Definition conn_state (s : World * NativeTcpTransport) : ConnectionState :=
  lc_state (nt_lifecycle s.2).
Definition succeeded {A} (o : outcome stop A) : bool := match o with Ok _ => true | _ => false end.

Lemma perform_uncut r : uncut (perform r).
Proof.
  assert (∀ message, uncut (require_authenticated message))
    by (intros; unfold require_authenticated; uncut).
  assert (∀ response, uncut (convert_and_cache_result response))
    by (intros; unfold convert_and_cache_result; uncut).
  assert (∀ data, uncut (run_execute_prepared data)) by (intros; unfold run_execute_prepared; uncut).
  assert (∀ attrs, uncut (set_attributes attrs)) by (intros; unfold set_attributes; uncut).
  assert (∀ h p, uncut (check_closed h p)) by (intros; unfold check_closed; uncut).
  assert (∀ h st c r, uncut (fetched h st c r))
    by (intros; unfold fetched, advance_position; uncut).
  assert (∀ handle encoded n range, uncut (execute_range handle encoded n range))
    by (intros; unfold execute_range; uncut).
  assert (uncut refresh_current_schema) by (unfold refresh_current_schema; uncut).
  assert (∀ d c, uncut (login_within d c)) as Hl.
  { intros d c [w t] Hw. unfold login_within.
    destruct (uncut_deadline d Login (login_exchange c) (w, t) Hw) as [Hc Hn].
    destruct (deadline_run d Login (login_exchange c) (w, t)) as [[a|[e|]|] [w1 t1]]; by split. }
  destruct r; cbn [perform]; unfold void, connect, begin_connect, authenticate_within_deadline,
    execute_query, fetch_results, close_result_set, create_prepared_statement,
    execute_prepared_statement, execute_prepared_ranges, split_for, close_prepared_statement,
    set_autocommit, set_query_timeout, set_current_schema; uncut.
  intros s Hs. destruct (close_gracefully s) as [o s'] eqn:Ec.
  unfold close_gracefully, mbind, action_bind, get in Ec.
  destruct (negb (is_open _)); [by injection Ec as <- <-|]. cbn [send_disconnect native_steps] in Ec.
  pose proof (disconnect_ignores s) as Hd. cbn [send_disconnect native_steps] in Hd.
  pose proof (disconnect_exchange s) as He.
  destruct (native_send_disconnect s) as [[[]|e|] s1].
  - destruct s1 as [w1 t1]. injection Ec as <- <-. destruct He as ([(Hx & _) _] & _).
    cbn in *. split; [done|]. congruence.
  - destruct (Hd e s1 eq_refl) as [_ [c Hx]]. cbn in Hx, Hs. congruence.
  - injection Ec as <- <-. destruct He as ([(Hx & _) _] & _). cbn in *. split; [done|]. congruence.
Qed.

Lemma reachable_inv s : reachable s → native_inv s.2 ∧ cutoff s.1 = None.
Proof.
  induction 1 as [w Hw|s r o s' _ [Hi Hc] Hr Hp]; [split; [apply inv_new|done]|].
  split; [by eapply perform_inv|]. destruct (perform_uncut r s Hc) as [_ Hn]. by rewrite Hr in Hn.
Qed.

(** C3: the connection invariant: in every state that requests can reach, successful or
    failed in any order, the transport holds a stream exactly while its lifecycle is
    open, a session exactly while it is logged in, and a stored deadline while it waits
    for a login; the fetch positions and the cached columns are of the same result sets;
    and a logged-in connection encrypts its messages unless it runs over TLS, where it
    never does. *)
Theorem native_invariant s : reachable s → native_inv s.2.
Proof. intros Hs. by apply reachable_inv in Hs as [? _]. Qed.

(** A request that needs a login succeeds only behind one, and leaves the state. *)
Lemma request_lifecycle r s o s' :
  needs_login r = true → perform r s = (o, s') →
  lifecycle_spec r (succeeded o) (conn_state s) (conn_state s').
Proof.
  intros En Hr. destruct (perform_request r En s) as (_ & Hl & _). rewrite Hr in Hl. cbn in Hl.
  assert (succeeded o = true → conn_state s = Authenticated) as Ho.
  { intros Ho. destruct (decide (conn_state s = Authenticated)) as [|Hn]; [done|].
    destruct s as [w t].
    destruct (guarded_perform r w t En Hn) as [[message He]|(n & e & _ & _ & He)];
      rewrite He in Hr; by injection Hr as <- _. }
  unfold conn_state in *. rewrite Hl. by destruct r.
Qed.

Lemma connect_lifecycle params s o s' :
  connect params s = (o, s') →
  lifecycle_spec (Connect params) (succeeded o) (conn_state s) (conn_state s').
Proof.
  intros Hr. pose proof (connect_cases params s) as Hc. unfold wp in Hc. rewrite Hr in Hc.
  unfold conn_state. destruct Hc as [[Ho Heq]|(Ho & Hd & d & k & Heq)]; cbn [fst snd] in *.
  - assert (succeeded o = false) as -> by (by destruct o as [[]| |]). by rewrite Heq.
  - subst o. rewrite Heq. by split.
Qed.

Lemma authenticate_lifecycle credentials s o s' :
  native_inv s.2 → authenticate_within_deadline credentials s = (o, s') → o ≠ Panic →
  lifecycle_spec (Authenticate credentials) (succeeded o) (conn_state s) (conn_state s').
Proof.
  destruct s as [w t], s' as [w1 t1]. unfold conn_state. cbn [snd lifecycle_spec].
  intros Hi Hr Hp. destruct (decide (lc_state (nt_lifecycle t) = Connected)) as [Hc|Hc].
  - destruct (inv_deadline _ Hi Hc) as [d Hd].
    assert (nt_lifecycle t = {| lc_state := Connected; lc_deadline := Some d |}) as Hl
      by (rewrite <- Hc, <- Hd; by destruct (nt_lifecycle t)).
    rewrite (login_connected credentials w t d) in Hr by exact Hl.
    apply login_within_rules in Hr as (_ & _ & Ho); [|exact Hc].
    cbn [lifecycle native_steps] in Ho. destruct o as [info|[e|]|]; cbn; [done| | |done].
    + destruct (has_elapsed d w1); [destruct Ho as [t2 ->]; by right|left; congruence].
    + left. destruct Ho. congruence.
  - rewrite login_refused in Hr by done. injection Hr as <- _ <-. by left.
Qed.

Lemma close_lifecycle s o s' :
  cutoff s.1 = None → close_gracefully s = (o, s') → o ≠ Panic →
  lifecycle_spec Close (succeeded o) (conn_state s) (conn_state s').
Proof.
  destruct s as [w t]. unfold conn_state. cbn [fst snd lifecycle_spec]. intros Hc Hr Hp.
  destruct (is_open (nt_lifecycle t)) eqn:Eo.
  - destruct (close_open w t o s') as (-> & [t1 ->] & _); [exact Eo|done..|]. split; [done|]. cbn.
    unfold is_open in Eo. by destruct (lc_state (nt_lifecycle t)).
  - rewrite close_not_open in Hr by exact Eo. injection Hr as <- <-. split; [done|].
    unfold is_open in Eo. cbn [snd]. by destruct (lc_state (nt_lifecycle t)).
Qed.

Lemma perform_lifecycle r s o s' :
  cutoff s.1 = None → native_inv s.2 → perform r s = (o, s') → o ≠ Panic →
  lifecycle_spec r (succeeded o) (conn_state s) (conn_state s').
Proof.
  intros Hc Hi Hr Hp. destruct (needs_login r) eqn:En; [by apply request_lifecycle|].
  destruct r; try done; cbn [perform] in Hr.
  - by apply connect_lifecycle.
  - unfold void, mbind, action_bind in Hr.
    destruct (authenticate_within_deadline credentials s) as [o1 s1] eqn:E1.
    assert (succeeded o = succeeded o1 ∧ s' = s1 ∧ o1 ≠ Panic) as (-> & -> & Hp1)
      by (by destruct o1; injection Hr as <- <-).
    by eapply authenticate_lifecycle.
  - by apply close_lifecycle.
  - destruct s as [w t]. unfold update, modify in Hr. by injection Hr as <- <-.
Qed.

(** C11: the lifecycle refinement: every request on a reachable transport moves the
    connection state as the abstract state machine allows: a termination always succeeds
    and ends in [Terminated]; apart from it, only a connect leaves [Disconnected], only a
    login that succeeds reaches [Authenticated] and one that ran out of time closes, the
    operations succeed only behind a login and leave the state, closing always succeeds,
    and nothing leaves [Closed] or [Terminated]; and no request is cancelled. *)
Theorem native_refines_lifecycle s r o s' :
  reachable s → perform r s = (o, s') → o ≠ Panic →
  lifecycle_spec r (succeeded o) (conn_state s) (conn_state s') ∧ o ≠ Err Cancelled.
Proof.
  intros Hs Hr Hp. apply reachable_inv in Hs as [Hi Hc]. split; [by eapply perform_lifecycle|].
  destruct (perform_uncut r s Hc) as [Hu _]. by rewrite Hr in Hu.
Qed.
End Keys.
End Reach.
