(* ===== verification/NativeExchange.v ===== *)
(** * Commands and their answers

    The server's end of a native connection: how it seals its messages and reads those
    of the driver, and the theorems that a command reaches it unchanged, that the driver
    waits exactly until the result of the command, and that the wait ends. *)
From S2P Require Import Prelude MachineInt RustStr Constants Errors Effect Framing Attributes.
From S2P Require Import Float64 Json ResultParser Messages Lifecycle Encryption Handshake Tls.
From S2P Require Import ParamEncoding NativeTransport NativeInvariant.

#[local] Open Scope Z_scope.

Section Messages.
Context `{BuildProfile, ArrowLib, SerdeJson, PowI, ChaCha20, BigUint, SecureRandom, Platform}.
Context `{Clock, Network, Rustls, ResponseDebug}.

(** ** The server's end *)
(** A message as the driver sends it from the encryptor state [e]: the bytes, and the
    state behind it. *)
Definition seal_command (e : ChaCha20Encryptor) (cmd number : Z) (attrs : AttributeSet)
    (extra : option (list byte)) : outcome stop (list byte * ChaCha20Encryptor) :=
  let header := header_serialize (command_header cmd number attrs extra) in
  let payload := AttributeSet_serialize attrs ++ default [] extra in
  if is_active e then '(c, e) ← encrypt e payload; Ok (header ++ c, e)
  else Ok (header ++ payload, e).

(** A message of the server to a driver in the state [e]. *)
Definition seal_reply (e : ChaCha20Encryptor) (header : MessageHeader) (payload : list byte)
    : outcome stop (list byte * ChaCha20Encryptor) :=
  if is_active e then
    '(c, p) ← encrypt (peer_of e) payload; Ok (header_serialize header ++ c, peer_of p)
  else Ok (header_serialize header ++ payload, e).

(** What the server, with the encryptor [p], reads of the bytes it received: a header,
    the attributes, the data, its next state and the bytes behind the message. *)
Record ServerMessage := {
  sm_header : MessageHeader;
  sm_attributes : AttributeSet;
  sm_data : list byte;
}.

Definition server_receive (p : ChaCha20Encryptor) (bytes : list byte)
    : outcome TransportError (ServerMessage * ChaCha20Encryptor * list byte) :=
  h ← header_parse (take HEADER_SIZE bytes);
  let body := drop HEADER_SIZE bytes in
  let payload := take (Z.to_nat (message_length h)) body in
  '(plain, p) ← (if is_active p then decrypt p payload else Ok (payload, p));
  let attr_len := Z.to_nat (attribute_data_len h) in
  attrs ← parse_attributes (take attr_len plain) (num_attributes h);
  Ok ({| sm_header := h; sm_attributes := attrs; sm_data := drop attr_len plain |}, p,
      drop (Z.to_nat (message_length h)) body).

Lemma peer_involutive e : peer_of (peer_of e) = e.
Proof. by destruct e. Qed.

Lemma peer_active e : is_active (peer_of e) = is_active e.
Proof. unfold is_active, peer_of. cbn. apply andb_comm. Qed.

Definition fits_u32 (bytes : list byte) : Prop := in_range U32 (Z.of_nat (length bytes)).

Lemma command_header_ok cmd number attrs extra :
  in_range U8 cmd → in_range U32 number → header_ok (command_header cmd number attrs extra).
Proof.
  intros Hc Hn. unfold command_header, header_ok. cbn [message_length command Framing.serial
    num_attributes attribute_data_len num_result_parts].
  split_and!; [apply wrap_in_range|done|done|apply wrap_in_range|apply wrap_in_range|].
  destruct extra; vm_range.
Qed.

Lemma decrypt_error {E F} e data c e' :
  decrypt (E := E) e data = Ok (c, e') → decrypt (E := F) e data = Ok (c, e').
Proof.
  unfold decrypt, apply_state. destruct (recv_cipher e); [|by intros [= <- <-]].
  by destruct (_ <=? _); [cbn; intros [= <- <-]|].
Qed.

(** A sealed command is what the server reads, whatever follows it. *)
Lemma server_reads_command e cmd number attrs extra bytes e' rest :
  in_range U8 cmd → in_range U32 number → attribute_set_ok attrs →
  fits_u32 (AttributeSet_serialize attrs ++ default [] extra) →
  seal_command e cmd number attrs extra = Ok (bytes, e') →
  server_receive (peer_of e) (bytes ++ rest)
  = Ok ({| sm_header := command_header cmd number attrs extra; sm_attributes := attrs;
           sm_data := default [] extra |}, peer_of e', rest).
Proof.
  intros Hc Hn Ha Hf Hs. unfold server_receive, seal_command in *.
  set (h := command_header cmd number attrs extra) in *.
  set (payload := AttributeSet_serialize attrs ++ default [] extra) in *.
  assert (Z.to_nat (message_length h) = length payload) as Hlen.
  { unfold h, command_header. cbn [message_length]. rewrite wrap_id; [|].
    - subst payload. rewrite length_app. lia.
    - subst payload. unfold fits_u32 in Hf. by rewrite length_app in Hf. }
  assert (Z.to_nat (attribute_data_len h) = length (AttributeSet_serialize attrs)) as Hal.
  { unfold h, command_header. cbn [attribute_data_len]. rewrite wrap_id; [lia|].
    unfold fits_u32 in Hf. subst payload. rewrite length_app in Hf. range. }
  assert (∃ c, bytes = header_serialize h ++ c ∧ length c = length payload ∧
    (if is_active (peer_of e) then decrypt (E := TransportError) (peer_of e) c else Ok (c, peer_of e))
    = Ok (payload, peer_of e')) as (c & -> & Hl & Hd).
  { rewrite peer_active. destruct (is_active e); [|by injection Hs as <- <-; eexists].
    destruct (encrypt e payload) as [[c e1]| |] eqn:E1; [|done..]. injection Hs as <- <-.
    destruct (decrypt_encrypt _ _ _ _ E1) as [Hl Hd]. exists c. split_and!; [done|done|].
    by apply (decrypt_error (F := TransportError)) in Hd. }
  rewrite <- app_assoc, take_app_length', drop_app_length' by (by rewrite length_header_serialize).
  rewrite header_parse_serialize by (by apply command_header_ok). cbn [mbind outcome_bind].
  rewrite Hlen, <- Hl, take_app_length, drop_app_length, Hd. cbn [mbind outcome_bind].
  rewrite Hal. unfold payload. rewrite take_app_length, drop_app_length.
  change (num_attributes h) with (AttributeSet_num_attributes attrs).
  rewrite <- (app_nil_r (AttributeSet_serialize attrs)), parse_attributes_prefix by done. done.
Qed.

(** ** A run of the driver's side *)
(** A network on which writing works; nothing is running under a timer. *)
Definition writes_work : Prop :=
  (∀ k data, write_error k data = None) ∧ ∀ k, flush_error k = None.

(** The connection of a transport: its stream's bytes, its ciphers, its serials. *)
Record connection := {
  c_tls : bool;
  c_socket : Socket;
  c_cipher : ChaCha20Encryptor;
  c_serial : SerialCounter;
}.

Definition connected_as (c : connection) (s : World * NativeTcpTransport) : Prop :=
  cutoff s.1 = None ∧
  stream s.2 = Some ((if c_tls c then Tls else Plain) (c_socket c)) ∧
  encryptor s.2 = c_cipher c ∧ nt_serial s.2 = c_serial c.

Lemma await_runs n (w : World) (t : NativeTcpTransport) :
  cutoff w = None → ∃ w', await n (w, t) = (Ok (), (w', t)) ∧ cutoff w' = None.
Proof.
  intros Hw. unfold await. rewrite Hw. eexists. split; [reflexivity|done].
Qed.

Lemma stream_mut_runs c s :
  connected_as c s →
  stream_mut s = (Ok ((if c_tls c then Tls else Plain) (c_socket c)), s).
Proof.
  intros (_ & Hs & _). destruct s as [w t]. cbn in Hs.
  unfold stream_mut, mbind, action_bind, this, try, pure_call. cbn. by rewrite Hs.
Qed.

Lemma socket_stream c : socket ((if c_tls c then Tls else Plain) (c_socket c)) = c_socket c.
Proof. by destruct (c_tls c). Qed.

Definition with_bytes (c : connection) (inb out : list byte) : connection :=
  {| c_tls := c_tls c; c_socket := {| inbound := inb; sent := out |}; c_cipher := c_cipher c;
     c_serial := c_serial c |}.

(** A run that ends well in a state with the connection [c'], with the fields that an
    exchange leaves alone. *)
Definition runs_to {A} (m : nio A) (s : World * NativeTcpTransport) (a : A) (c' : connection)
    (Q : NativeTcpTransport → Prop) : Prop :=
  ∃ s', m s = (Ok a, s') ∧ connected_as c' s' ∧ Q s'.2.

Lemma runs_bind {A B} (m : nio A) (k : A → nio B) s a c1 Q1 b c2 Q2 :
  runs_to m s a c1 Q1 →
  (∀ s1, connected_as c1 s1 → Q1 s1.2 → runs_to (k a) s1 b c2 Q2) →
  runs_to (m ≫= k) s b c2 Q2.
Proof.
  intros (s1 & E & Hc & HQ) Hk. destruct (Hk s1 Hc HQ) as (s2 & E2 & Hc2 & HQ2).
  exists s2. by rewrite (run_bind _ _ _ _ _ E).
Qed.

Lemma runs_ret {A} (a : A) s c (Q : NativeTcpTransport → Prop) :
  connected_as c s → Q s.2 → runs_to (mret a) s a c Q.
Proof. intros Hc HQ. by exists s. Qed.

Lemma runs_this s c (Q : NativeTcpTransport → Prop) :
  connected_as c s → Q s.2 → runs_to this s s.2 c Q.
Proof. intros Hc HQ. by exists s. Qed.

Lemma runs_try {A} (m : outcome TransportError A) a s c (Q : NativeTcpTransport → Prop) :
  m = Ok a → connected_as c s → Q s.2 → runs_to (try m) s a c Q.
Proof. intros -> Hc HQ. by exists s. Qed.

(** Bytes are read and written where the connection says. *)
Lemma runs_stream {A} (k : NativeStream → nio A) c s a c' Q :
  connected_as c s →
  (∀ w, connected_as c (w, s.2) →
     runs_to (k ((if c_tls c then Tls else Plain) (c_socket c))) (w, s.2) a c' Q) →
  runs_to (s ← stream_mut; _ ← await (io_delay (socket s)); k s) s a c' Q.
Proof.
  intros Hc Hk. destruct s as [w t]. pose proof Hc as (Hw & Hs & He & Hn).
  unfold runs_to. rewrite (run_bind _ _ _ _ _ (stream_mut_runs c (w, t) Hc)).
  destruct (await_runs (io_delay (socket ((if c_tls c then Tls else Plain) (c_socket c)))) w t Hw)
    as (w' & E & Hw'). rewrite (run_bind _ _ _ _ _ E). by apply Hk.
Qed.

Lemma put_socket_runs c w t k (Q : NativeTcpTransport → Prop) :
  connected_as c (w, t) →
  (∀ st, Q (set_stream t st)) →
  runs_to (put_socket ((if c_tls c then Tls else Plain) (c_socket c)) k) (w, t) ()
    (with_bytes c (inbound k) (sent k)) Q.
Proof.
  intros (Hw & Hs & He & Hn) HQ. eexists. split; [reflexivity|]. split; [|apply HQ].
  split_and!; cbn; try done. by destruct (c_tls c), k.
Qed.

Lemma read_runs c s bs rest (Q : NativeTcpTransport → Prop) :
  connected_as c s → inbound (c_socket c) = bs ++ rest →
  (∀ st, Q (set_stream s.2 st)) →
  runs_to (read_exact (length bs)) s bs (with_bytes c rest (sent (c_socket c))) Q.
Proof.
  intros Hc Hi HQ. apply (runs_stream _ c); [done|]. intros w Hw. rewrite socket_stream.
  rewrite Hi, length_app. destruct (Nat.leb_spec (length bs) (length bs + length rest)); [|lia].
  rewrite drop_app_length, take_app_length.
  eapply (runs_bind _ _ _ _ (with_bytes c rest (sent (c_socket c))) Q).
  { exact (put_socket_runs c w s.2 _ Q Hw HQ). }
  intros s1 Hc1 HQ1. by apply runs_ret.
Qed.

Lemma write_runs c s data (Q : NativeTcpTransport → Prop) :
  writes_work → connected_as c s → (∀ st, Q (set_stream s.2 st)) →
  runs_to (write_all data) s ()
    (with_bytes c (inbound (c_socket c)) (sent (c_socket c) ++ data)) Q.
Proof.
  intros [Hww _] Hc HQ. apply (runs_stream _ c); [done|]. intros w Hw. rewrite socket_stream.
  rewrite Hww. exact (put_socket_runs c w s.2 _ Q Hw HQ).
Qed.

Definition any (_ : NativeTcpTransport) : Prop := True.

Definition with_cipher (c : connection) (e : ChaCha20Encryptor) : connection :=
  {| c_tls := c_tls c; c_socket := c_socket c; c_cipher := e; c_serial := c_serial c |}.

Definition next_of (c : connection) : connection :=
  {| c_tls := c_tls c; c_socket := c_socket c; c_cipher := c_cipher c;
     c_serial := (serial_next (c_serial c)).2 |}.

(** The connection behind a sent command and behind a received message. *)
Definition sent_from (c : connection) (bytes : list byte) (e : ChaCha20Encryptor) : connection :=
  with_cipher (with_bytes c (inbound (c_socket c)) (sent (c_socket c) ++ bytes)) e.
Definition received_from (c : connection) (rest : list byte) (e : ChaCha20Encryptor) : connection :=
  with_cipher (with_bytes c rest (sent (c_socket c))) e.

Lemma flush_runs c s :
  writes_work → connected_as c s → runs_to flush s () c any.
Proof.
  intros [_ Hf] Hc. apply (runs_stream _ c); [done|]. intros w Hw. rewrite Hf. by apply runs_ret.
Qed.

Lemma send_raw_runs c s data :
  writes_work → connected_as c s →
  runs_to (send_raw data) s () (with_bytes c (inbound (c_socket c)) (sent (c_socket c) ++ data)) any.
Proof.
  intros Hw Hc. unfold send_raw. eapply runs_bind; [by apply (write_runs c s data any)|].
  intros s1 Hc1 _. by apply flush_runs.
Qed.

Lemma serial_runs c s :
  connected_as c s → runs_to next_serial s (next (c_serial c)) (next_of c) any.
Proof.
  intros (Hw & Hs & He & Hn). destruct s as [w t]. cbn in *. unfold runs_to, next_serial.
  cbn [serial_next]. rewrite Hn. eexists. split; [reflexivity|]. by split_and!.
Qed.

Lemma encrypt_runs c s payload out e' :
  connected_as c s →
  (if is_active (c_cipher c) then encrypt (E := stop) (c_cipher c) payload else Ok (payload, c_cipher c))
  = Ok (out, e') →
  runs_to (encrypt_payload payload) s out (with_cipher c e') any.
Proof.
  intros (Hw & Hs & He & Hn) Hen. destruct s as [w t]. cbn in *. unfold runs_to, encrypt_payload.
  rewrite He. destruct (is_active (c_cipher c)).
  - rewrite Hen. eexists. split; [reflexivity|]. by split_and!.
  - injection Hen as <- <-. eexists. split; [reflexivity|]. by split_and!.
Qed.

Lemma decrypt_runs c s payload out e' :
  connected_as c s →
  (if is_active (c_cipher c) then decrypt (E := stop) (c_cipher c) payload else Ok (payload, c_cipher c))
  = Ok (out, e') →
  runs_to (decrypt_payload payload) s out (with_cipher c e') any.
Proof.
  intros (Hw & Hs & He & Hn) Hen. destruct s as [w t]. cbn in *. unfold runs_to, decrypt_payload.
  rewrite He. destruct (is_active (c_cipher c)).
  - rewrite Hen. eexists. split; [reflexivity|]. by split_and!.
  - injection Hen as <- <-. eexists. split; [reflexivity|]. by split_and!.
Qed.

Lemma send_message_runs c s cmd number attrs extra bytes e' :
  writes_work → connected_as c s →
  seal_command (c_cipher c) cmd number attrs extra = Ok (bytes, e') →
  runs_to (send_message_with_serial cmd attrs extra (Some number)) s () (sent_from c bytes e') any.
Proof.
  intros Hw Hc Hs. unfold send_message_with_serial, seal_command in *.
  eapply (runs_bind _ _ _ number c any); [by apply runs_ret|]. intros s1 Hc1 _.
  set (header := header_serialize _) in *. set (payload := _ ++ _) in *.
  assert (∃ out, bytes = header ++ out ∧
    (if is_active (c_cipher c) then encrypt (E := stop) (c_cipher c) payload else Ok (payload, c_cipher c))
    = Ok (out, e')) as (out & -> & Hout).
  { destruct (is_active (c_cipher c)); [|by injection Hs as <- <-; eexists].
    destruct (encrypt (c_cipher c) payload) as [[x e1]| |]; [|done..].
    injection Hs as <- <-. by eexists. }
  eapply runs_bind; [by apply (encrypt_runs c s1 payload out e')|]. intros s2 Hc2 _.
  eapply runs_bind; [by apply (send_raw_runs (with_cipher c e') s2 header)|]. intros s3 Hc3 _.
  pose proof (send_raw_runs _ s3 out Hw Hc3) as Hr. unfold sent_from.
  cbn [c_socket with_bytes with_cipher inbound sent] in Hr. by rewrite <- app_assoc in Hr.
Qed.

(** ** Receiving *)
(** A message the driver can take: its header says its length, and its attributes
    parse. *)
Definition frame_ok (h : MessageHeader) (payload : list byte) : Prop :=
  header_ok h ∧ message_length h = Z.of_nat (length payload) ∧
  ∃ attrs, response_attributes h payload = Ok attrs.

Lemma update_runs c s f (Q : NativeTcpTransport → Prop) :
  connected_as c s →
  (∀ t, stream (f t) = stream t ∧ encryptor (f t) = encryptor t ∧ nt_serial (f t) = nt_serial t) →
  Q (f s.2) → runs_to (update f) s () c Q.
Proof.
  intros (Hw & Hs & He & Hn) Hf HQ. destruct s as [w t]. cbn in *.
  destruct (Hf t) as (F1 & F2 & F3). eexists. split; [reflexivity|].
  split; [|done]. split_and!; cbn; [done|by rewrite F1|by rewrite F2|by rewrite F3].
Qed.

Lemma fill_runs c s bs rest :
  connected_as c s → inbound (c_socket c) = bs ++ rest →
  runs_to (fill_buf (length bs)) s () (with_bytes c rest (sent (c_socket c)))
    (λ t, recv_buf t = bs).
Proof.
  intros Hc Hi. destruct (read_runs c s bs rest any Hc Hi) as ([w t] & E & (Hw & Hs & He & Hn) & _);
    [done|].
  unfold runs_to, fill_buf. rewrite E. eexists. split; [reflexivity|]. by split_and!.
Qed.

(** The bytes of a sealed reply. *)
Lemma seal_reply_spec e h payload bytes e' :
  seal_reply e h payload = Ok (bytes, e') →
  ∃ c, bytes = header_serialize h ++ c ∧ length c = length payload ∧
    (if is_active e then decrypt (E := stop) e c else Ok (c, e)) = Ok (payload, e').
Proof.
  unfold seal_reply. destruct (is_active e); [|by intros [= <- <-]; eexists].
  destruct (encrypt (peer_of e) payload) as [[c p]| |] eqn:E1; [|done..]. intros [= <- <-].
  destruct (decrypt_encrypt _ _ _ _ E1) as [Hl Hd]. rewrite peer_involutive in Hd.
  by exists c.
Qed.

Lemma decrypt_nothing e p e' :
  (if is_active e then decrypt (E := stop) e [] else Ok ([], e)) = Ok (p, e') → e' = e.
Proof.
  unfold decrypt, apply_state. destruct (is_active e); [|by intros [= _ <-]].
  destruct e as [sc [[key pos]|]]; cbn [recv_cipher cs_pos cs_key send_cipher]; [|by intros [= _ <-]].
  destruct (_ <=? _); [|done]. cbn. rewrite Nat.add_0_r. by intros [= _ <-].
Qed.

(** The payload, read and decrypted. *)
Lemma receive_payload_runs c s h payload ct rest e' :
  message_length h = Z.of_nat (length payload) → length ct = length payload →
  (if is_active (c_cipher c) then decrypt (E := stop) (c_cipher c) ct else Ok (ct, c_cipher c))
  = Ok (payload, e') →
  connected_as (with_bytes c (ct ++ rest) (sent (c_socket c))) s → recv_buf s.2 = [] →
  runs_to (if 0 <? message_length h then
             _ ← fill_buf (Z.to_nat (message_length h));
             t ← this;
             plain ← decrypt_payload (recv_buf t);
             update (λ t, set_recv_buf t plain)
           else mret ()) s () (received_from c rest e') (λ t, recv_buf t = payload).
Proof.
  intros Hl Hct Hd Hc Hb. destruct (Z.ltb_spec 0 (message_length h)) as [Hpos|Hz].
  - set (c1 := with_bytes c (ct ++ rest) (sent (c_socket c))) in *.
    set (c2 := with_bytes c rest (sent (c_socket c))). rewrite Hl, Nat2Z.id, <- Hct.
    eapply (runs_bind _ _ _ () c2 (λ t, recv_buf t = ct)); [by apply (fill_runs c1 s ct rest)|].
    intros s4 Hc4 Hb4.
    eapply (runs_bind _ _ _ s4.2 c2 (λ t, recv_buf t = ct)); [by apply runs_this|].
    intros s5 Hc5 Hb5. rewrite Hb4.
    eapply (runs_bind _ _ _ payload (with_cipher c2 e') any); [by apply (decrypt_runs c2 _ ct)|].
    intros s6 Hc6 _. by apply update_runs.
  - assert (payload = []) as -> by (destruct payload; [done|cbn in *; lia]).
    destruct ct; [|done]. apply decrypt_nothing in Hd as ->. by apply runs_ret.
Qed.

Lemma receive_runs c s h payload bytes e' rest :
  connected_as c s → frame_ok h payload →
  seal_reply (c_cipher c) h payload = Ok (bytes, e') →
  inbound (c_socket c) = bytes ++ rest →
  runs_to receive_into_buf s h (received_from c rest e') (λ t, recv_buf t = payload).
Proof.
  intros Hc (Hh & Hl & attrs & Ha) Hs Hi.
  destruct (seal_reply_spec _ _ _ _ _ Hs) as (ct & -> & Hct & Hd).
  rewrite <- app_assoc in Hi. unfold receive_into_buf.
  set (c1 := with_bytes c (ct ++ rest) (sent (c_socket c))).
  eapply (runs_bind _ _ _ (header_serialize h) c1 any).
  { rewrite <- (length_header_serialize h). by apply (read_runs c s _ (ct ++ rest)). }
  intros s1 Hc1 _.
  eapply (runs_bind _ _ _ h c1 any); [by apply runs_try; [apply header_parse_serialize|..]|].
  intros s2 Hc2 _.
  eapply (runs_bind _ _ _ () c1 (λ t, recv_buf t = [])); [by apply update_runs|].
  intros s3 Hc3 Hb3.
  eapply (runs_bind _ _ _ () (received_from c rest e') (λ t, recv_buf t = payload)).
  { by eapply receive_payload_runs. }
  intros s4 Hc4 Hb4.
  eapply (runs_bind _ _ _ s4.2 _ (λ t, recv_buf t = payload)); [by apply runs_this|].
  intros s5 Hc5 Hb5. rewrite Hb4.
  eapply (runs_bind _ _ _ attrs _ (λ t, recv_buf t = payload)); [by apply runs_try|].
  intros s6 Hc6 Hb6.
  eapply (runs_bind _ _ _ () (received_from c rest e') (λ t, recv_buf t = payload)).
  + destruct (current_schema_change attrs); [by apply update_runs|by apply runs_ret].
  + intros s7 Hc7 Hb7. by apply runs_ret.
Qed.
End Messages.

(** ** Commands and their answers *)
(** A message of the server: its header and its payload before encryption. *)
Abbreviation Reply := (MessageHeader * list byte)%type.

Section Exchange.
Context `{BuildProfile, ArrowLib, SerdeJson, PowI, ChaCha20, BigUint, SecureRandom, Platform}.
Context `{Clock, Network, Rustls, ResponseDebug}.

Fixpoint seal_replies (e : ChaCha20Encryptor) (replies : list Reply)
    : outcome stop (list byte * ChaCha20Encryptor) :=
  match replies with
  | [] => Ok ([], e)
  | (h, p) :: replies =>
    '(b, e) ← seal_reply e h p; '(bs, e) ← seal_replies e replies; Ok (b ++ bs, e)
  end.

Definition response_of (r : Reply) : outcome TransportError NativeResponseEnvelope :=
  parse_response (result_data_slice r.1 r.2).

(** The server asks for patience, or says the result. *)
Definition asks_to_wait (r : Reply) : Prop :=
  frame_ok r.1 r.2 ∧ ∃ env, response_of r = Ok env ∧ terminal env = StillExecuting.

Definition says (r : Reply) (env : NativeResponseEnvelope) : Prop :=
  frame_ok r.1 r.2 ∧ response_of r = Ok env ∧ terminal env ≠ StillExecuting.

(** The answer to a command: any number of requests to wait, and the result. *)
Definition answer (waits : list Reply) (r : Reply) (env : NativeResponseEnvelope) : Prop :=
  Forall asks_to_wait waits ∧ says r env.

(** ** Waiting *)
Lemma receive_response_runs c s r env bytes e' rest :
  connected_as c s → frame_ok r.1 r.2 → response_of r = Ok env →
  seal_reply (c_cipher c) r.1 r.2 = Ok (bytes, e') →
  inbound (c_socket c) = bytes ++ rest →
  runs_to receive_response s
    (r.1, match terminal env with StillExecuting => true | _ => false end)
    (received_from c rest e') (λ t, recv_buf t = r.2).
Proof.
  intros Hc Hf Hr Hs Hi. unfold receive_response.
  eapply (runs_bind _ _ _ r.1 (received_from c rest e') (λ t, recv_buf t = r.2)).
  { by eapply receive_runs. }
  intros s1 Hc1 Hb1.
  eapply (runs_bind _ _ _ s1.2 _ (λ t, recv_buf t = r.2)); [by apply runs_this|].
  intros s2 Hc2 Hb2. rewrite Hb1.
  eapply (runs_bind _ _ _ env _ (λ t, recv_buf t = r.2)); [by apply runs_try|].
  intros s3 Hc3 Hb3. by apply runs_ret.
Qed.

Lemma await_result_runs waits r env exhausted fuel :
  answer waits r env → (length waits ≤ fuel)%nat →
  ∀ c s bytes e' rest,
  connected_as c s → seal_replies (c_cipher c) (waits ++ [r]) = Ok (bytes, e') →
  inbound (c_socket c) = bytes ++ rest →
  runs_to (await_result exhausted fuel) s r.1 (received_from c rest e')
    (λ t, recv_buf t = r.2).
Proof.
  intros [Hw (Hf & Hr & Hn)]. revert fuel.
  induction Hw as [|w waits (Hwf & envw & Hwr & Hwt) _ IH]; intros fuel Hl c s bytes e' rest Hc Hs Hi.
  - cbn [app seal_replies] in Hs. destruct r as [h p].
    destruct (seal_reply (c_cipher c) h p) as [[b e1]| |] eqn:E1; [|done..].
    cbn in Hs. injection Hs as <- <-. rewrite app_nil_r in Hi.
    destruct fuel; cbn [await_result];
      (eapply (runs_bind _ _ _ (h, false) (received_from c rest e1) (λ t, recv_buf t = p));
        [|intros; by apply runs_ret]);
      pose proof (receive_response_runs c s (h, p) env b e1 rest Hc Hf Hr E1 Hi) as Hrun;
      by destruct (terminal env).
  - cbn [app seal_replies] in Hs. destruct w as [h p].
    destruct (seal_reply (c_cipher c) h p) as [[b e1]| |] eqn:E1; [|done..].
    cbn [mbind outcome_bind] in Hs.
    destruct (seal_replies e1 (waits ++ [r])) as [[bs e2]| |] eqn:E2; [|done..].
    cbn in Hs. injection Hs as <- <-. destruct fuel as [|fuel]; [cbn in Hl; lia|].
    cbn [await_result]. rewrite <- app_assoc in Hi.
    eapply (runs_bind _ _ _ (h, true) (received_from c (bs ++ rest) e1) (λ t, recv_buf t = p)).
    { pose proof (receive_response_runs c s (h, p) envw b e1 _ Hc Hwf Hwr E1 Hi) as Hrun.
      by rewrite Hwt in Hrun. }
    intros s1 Hc1 _.
    assert (length waits ≤ fuel)%nat as Hl' by (cbn in Hl; lia).
    exact (IH fuel Hl' (received_from c (bs ++ rest) e1) s1 bs e2 rest Hc1 E2 eq_refl).
Qed.

Lemma seal_reply_length e h p b e' :
  seal_reply e h p = Ok (b, e') → (HEADER_SIZE ≤ length b)%nat.
Proof.
  intros Hs. destruct (seal_reply_spec _ _ _ _ _ Hs) as (c & -> & _).
  rewrite length_app, length_header_serialize. lia.
Qed.

Lemma seal_replies_length e replies b e' :
  seal_replies e replies = Ok (b, e') → (length replies ≤ length b)%nat.
Proof.
  revert e b. induction replies as [|[h p] replies IH]; intros e b; cbn; [lia|].
  destruct (seal_reply e h p) as [[b1 e1]| |] eqn:E1; [|done..]. cbn.
  destruct (seal_replies e1 replies) as [[bs e2]| |] eqn:E2; [|done..]. cbn.
  intros [= <- <-]. apply IH in E2. apply seal_reply_length in E1. rewrite length_app.
  unfold HEADER_SIZE in E1. lia.
Qed.

(** The connection behind a command and its answer. *)
Definition answered_from (c : connection) (command rest : list byte) (e : ChaCha20Encryptor)
    : connection :=
  {| c_tls := c_tls c;
     c_socket := {| inbound := rest; sent := sent (c_socket c) ++ command |};
     c_cipher := e; c_serial := (serial_next (c_serial c)).2 |}.

Lemma exchange_runs c s cmd attrs extra command e1 waits r env replies e2 rest :
  writes_work → connected_as c s →
  seal_command (c_cipher c) cmd (next (c_serial c)) attrs extra = Ok (command, e1) →
  answer waits r env → seal_replies e1 (waits ++ [r]) = Ok (replies, e2) →
  inbound (c_socket c) = replies ++ rest →
  runs_to (send_and_fill_buf cmd attrs extra) s r.1 (answered_from c command rest e2)
    (λ t, recv_buf t = r.2).
Proof.
  intros Hw Hc Hs Ha Hr Hi. unfold send_and_fill_buf.
  eapply (runs_bind _ _ _ (next (c_serial c)) (next_of c) any); [by apply serial_runs|].
  intros s1 Hc1 _.
  set (c2 := sent_from (next_of c) command e1).
  eapply (runs_bind _ _ _ () c2 any); [by apply send_message_runs|]. intros s2 Hc2 _.
  eapply (runs_bind _ _ _ s2.2 c2 (λ t, t = s2.2)); [by apply runs_this|].
  intros s3 Hc3 Hs3.
  apply (await_result_runs waits r env _ _) with (c := c2) (bytes := replies) (e' := e2) (rest := rest);
    [done| |done|done|done].
  apply seal_replies_length in Hr. rewrite length_app in Hr. cbn [length] in Hr.
  destruct Hc2 as (_ & Hst & _). unfold rounds. rewrite Hst, socket_stream.
  unfold c2, sent_from, next_of. cbn [c_socket with_cipher with_bytes inbound].
  rewrite Hi, length_app. lia.
Qed.

(** C4: a command and its answer: over a connection that works, a command reaches the
    server as it is - its header with the next serial, its attributes and its data,
    decrypted in step - and the driver, however often the server asks it to wait,
    returns exactly the message that says the result: it consumes the answer and no
    byte more, and both ends' ciphers are in step behind it. The driver sends nothing
    behind the command, also where the server says that it is still executing: it only
    reads on. The protocol specification (specs/native-client/protocol/spec.md,
    "Still-executing handling") requires CMD_CONTINUE (38) there instead; with a server
    that waits for this command the answer of this theorem does not come. *)
Theorem command_answered c s cmd attrs extra command e1 waits r env replies e2 rest :
  writes_work → connected_as c s →
  in_range U8 cmd → in_range U32 (next (c_serial c)) → attribute_set_ok attrs →
  fits_u32 (AttributeSet_serialize attrs ++ default [] extra) →
  seal_command (c_cipher c) cmd (next (c_serial c)) attrs extra = Ok (command, e1) →
  answer waits r env → seal_replies e1 (waits ++ [r]) = Ok (replies, e2) →
  inbound (c_socket c) = replies ++ rest →
  server_receive (peer_of (c_cipher c)) command
  = Ok ({| sm_header := command_header cmd (next (c_serial c)) attrs extra;
           sm_attributes := attrs; sm_data := default [] extra |}, peer_of e1, []) ∧
  ∃ s', send_and_receive cmd attrs extra s = (Ok r, s') ∧
    connected_as (answered_from c command rest e2) s'.
Proof.
  intros Hw Hc Hcmd Hn Ha Hf Hs Hans Hr Hi. split.
  - rewrite <- (app_nil_r command). by apply server_reads_command.
  - unfold send_and_receive.
    destruct (runs_bind _ (λ header, t ← this; mret (header, recv_buf t)) _ _ _ _ r
      (answered_from c command rest e2) any
      (exchange_runs _ _ _ _ _ _ _ _ _ _ _ _ _ Hw Hc Hs Hans Hr Hi)) as (s' & Hrun & Hc' & _).
    { intros [w1 t1] Hc1 Hb1. exists (w1, t1). cbn in Hb1. destruct r as [h p]. cbn in Hb1 |- *. by subst p. }
    by exists s'.
Qed.

(** ** The wait ends *)
(** The wait of the source: a loop without a bound. *)
Definition wait : nio MessageHeader := λ s, await_result (pure_call Panic) (rounds s.2) s.

(** No step puts bytes back into the connection. *)
Definition consumes : relation (World * NativeTcpTransport) := λ s s',
  (rounds s'.2 ≤ rounds s.2)%nat.

#[local] Instance consumes_preorder : PreOrder consumes.
Proof. unfold consumes. split; intros ?**; lia. Qed.

Lemma rounds_stream t k : stream t = Some k → rounds t = length (inbound (socket k)).
Proof. unfold rounds. by intros ->. Qed.

(** A read of the stream takes what it returns. *)
Lemma read_exact_consumes n s :
  consumes s (read_exact n s).2 ∧
  ∀ bs s', read_exact n s = (Ok bs, s') → (rounds s'.2 + n ≤ rounds s.2)%nat.
Proof.
  destruct s as [w t]. unfold read_exact, stream_mut, mbind, action_bind, this, try, pure_call, consumes.
  cbn [snd fst]. destruct (stream t) as [k|] eqn:Ek; [|by split].
  cbn [ok_or map_err]. rewrite (rounds_stream t k Ek).
  destruct (await_cases (io_delay (socket k)) w t) as (o & w' & -> & [->|[-> _]] & _);
    [|by cbn; rewrite (rounds_stream t k Ek)].
  destruct (Nat.leb_spec n (length (inbound (socket k)))) as [Hle|Hgt]; cbn.
  - assert (∀ i, rounds (set_stream t (Some (with_socket k {| inbound := i; sent := sent (socket k) |})))
                 = length i) as Hi by (intros i; unfold rounds; cbn; by destruct k).
    specialize (Hi (drop n (inbound (socket k)))). rewrite length_drop in Hi. unfold rounds in Hi.
    cbn in Hi. split; [lia|]. intros bs s' [= _ <-]. unfold rounds. cbn. lia.
  - split; [|done]. unfold rounds. cbn. destruct k; cbn; lia.
Qed.

Lemma fill_consumes n : effects consumes (fill_buf n).
Proof.
  intros [w t]. pose proof (proj1 (read_exact_consumes n (w, t))) as Hr. unfold fill_buf.
  destruct (read_exact n (w, t)) as [[p|e|] [w1 t1]]; exact Hr.
Qed.

Lemma decrypt_consumes p : effects consumes (decrypt_payload p).
Proof.
  intros [w t]. unfold decrypt_payload. destruct (is_active _); [|exact (Nat.le_refl _)].
  destruct (decrypt _ _) as [[c e]| |]; exact (Nat.le_refl _).
Qed.

Lemma update_consumes f : (∀ t, stream (f t) = stream t) → effects consumes (update f).
Proof. intros Hf [w t]. unfold consumes, rounds. cbn. rewrite Hf. lia. Qed.

Lemma bind_consumes {A B} (m : nio A) (k : A → nio B) s b s' :
  (m ≫= k) s = (Ok b, s') → (∀ a, effects consumes (k a)) →
  ∃ a s1, m s = (Ok a, s1) ∧ (rounds s'.2 ≤ rounds s1.2)%nat.
Proof.
  unfold mbind, action_bind. intros Hrun Hk. destruct (m s) as [[a|e|] s1]; [|done..].
  exists a, s1. split; [done|]. specialize (Hk a s1). by rewrite Hrun in Hk.
Qed.

Lemma receive_response_consumes s x s' :
  receive_response s = (Ok x, s') → (rounds s'.2 + HEADER_SIZE ≤ rounds s.2)%nat.
Proof.
  intros Hrun. apply bind_consumes in Hrun as (h & s1 & Hrun & Hle); [|by effects].
  apply bind_consumes in Hrun as (hdr & s2 & Hrun & Hle2).
  - apply read_exact_consumes in Hrun. lia.
  - pose proof fill_consumes. pose proof decrypt_consumes.
    intros a. effects; by apply update_consumes.
Qed.

Lemma await_result_fuel exhausted exhausted' fuel fuel' s :
  (rounds s.2 ≤ fuel)%nat → (rounds s.2 ≤ fuel')%nat →
  await_result exhausted fuel s = await_result exhausted' fuel' s.
Proof.
  revert fuel' s. induction fuel as [|fuel IH]; intros fuel' s Hf Hf';
    destruct fuel' as [|fuel']; cbn [await_result]; unfold mbind at 1 2, action_bind at 1 2;
    destruct (receive_response s) as [[[h [|]]|e|] s1] eqn:E1; try done;
    apply receive_response_consumes in E1; unfold HEADER_SIZE in E1; try lia.
  apply IH; lia.
Qed.

(** The wait for a result ends: the definition's fuel is never the reason that it
    does. The wait satisfies the equation of the source's unbounded loop, and any
    larger fuel gives the same, because every round takes a header's 21 bytes from what
    the server sent. *)
Theorem wait_ends s :
  wait s = ('(header, still_executing) ← receive_response;
            if still_executing : bool then wait else mret header) s ∧
  ∀ exhausted fuel, (rounds s.2 ≤ fuel)%nat → await_result exhausted fuel s = wait s.
Proof.
  split; [|intros; by apply await_result_fuel].
  unfold wait at 1. rewrite (await_result_fuel _ (pure_call Panic) _ (S (rounds s.2))) by lia.
  cbn [await_result]. unfold mbind at 1 2, action_bind at 1 2.
  destruct (receive_response s) as [[[h [|]]|e|] s1] eqn:E1; try done.
  apply receive_response_consumes in E1. apply await_result_fuel; lia.
Qed.
End Exchange.
