(* ===== verification/NativeConversation.v ===== *)
(** * Conversations with the server

    Several commands one after the other: the rows of a result set fetched window by
    window, and the parameter rows of a prepared statement sent range by range, as
    [execute_prepared_statement] does, with the counts summed. *)
From S2P Require Import Prelude MachineInt RustStr Constants Errors Effect Framing Attributes.
From S2P Require Import Float64 Json ResultParser Messages Lifecycle Encryption Handshake Tls.
From S2P Require Import ParamEncoding ParamSplit NativeTransport NativeInvariant NativeExchange.

#[local] Open Scope Z_scope.

Record Command := {
  co_code : Z;
  co_attributes : AttributeSet;
  co_data : option (list byte);
}.

Definition command_ok (co : Command) : Prop :=
  in_range U8 (co_code co) ∧ attribute_set_ok (co_attributes co) ∧
  fits_u32 (AttributeSet_serialize (co_attributes co) ++ default [] (co_data co)).

(** A command with its answer. *)
Record Turn := {
  turn_command : Command;
  turn_waits : list Reply;
  turn_reply : Reply;
  turn_env : NativeResponseEnvelope;
}.

(** What the server is to read of a command with the given serial. *)
Definition message_of (number : Z) (co : Command) : ServerMessage :=
  {| sm_header := command_header (co_code co) number (co_attributes co) (co_data co);
     sm_attributes := co_attributes co; sm_data := default [] (co_data co) |}.

Section Conversation.
Context `{BuildProfile, ArrowLib, SerdeJson, PowI, ChaCha20, BigUint, SecureRandom, Platform}.
Context `{Clock, Network, Rustls, ResponseDebug}.

(** The server's side: it reads a command, answers as the turn says, and goes on. The
    commands it read and the bytes it sent. *)
Fixpoint server_serve (p : ChaCha20Encryptor) (turns : list Turn) (bytes : list byte)
    : option (list ServerMessage * list byte * ChaCha20Encryptor) :=
  match turns with
  | [] => match bytes with [] => Some ([], [], p) | _ => None end
  | t :: turns =>
    match server_receive p bytes with
    | Ok (m, p, bytes) =>
      match seal_replies (peer_of p) (turn_waits t ++ [turn_reply t]) with
      | Ok (replies, e) =>
        '(ms, more, p) ← server_serve (peer_of e) turns bytes;
        Some (m :: ms, replies ++ more, p)
      | _ => None
      end
    | _ => None
    end
  end.

(** Turns one after the other, from an encryptor and a serial: what the driver
    receives, what it sends, and the encryptor behind them. *)
Inductive conversation : ChaCha20Encryptor → SerialCounter → list Turn →
    list byte → list byte → ChaCha20Encryptor → Prop :=
| conversation_nil e n : conversation e n [] [] [] e
| conversation_turn e n t ts command e1 replies e2 inb out e3 :
    command_ok (turn_command t) →
    seal_command e (co_code (turn_command t)) (next n) (co_attributes (turn_command t))
      (co_data (turn_command t)) = Ok (command, e1) →
    answer (turn_waits t) (turn_reply t) (turn_env t) →
    seal_replies e1 (turn_waits t ++ [turn_reply t]) = Ok (replies, e2) →
    conversation e2 (serial_next n).2 ts inb out e3 →
    conversation e n (t :: ts) (replies ++ inb) (command ++ out) e3.

Lemma serves_conversation e n ts inb out e' :
  conversation e n ts inb out e' → in_range U32 (next n) →
  server_serve (peer_of e) ts out
  = Some (zip_with message_of (serials (length ts) n) (turn_command <$> ts), inb, peer_of e').
Proof.
  induction 1 as [|e n t ts command e1 replies e2 inb out e3 (Hc & Ha & Hf) Hs Hans Hr _ IH];
    intros Hn; [done|].
  cbn [server_serve]. rewrite (server_reads_command _ _ _ _ _ _ _ out Hc Hn Ha Hf Hs).
  rewrite peer_involutive, Hr, IH by apply wrap_in_range. done.
Qed.

(** ** The state while a conversation runs *)
(** What stays while messages are exchanged. *)
Definition settled (t t' : NativeTcpTransport) : Prop :=
  kept t t' ∧ nt_session t' = nt_session t.

Lemma runs_settled {A} (m : nio A) s a c Q :
  runs_to m s a c Q → effects exchange m → runs_to m s a c (λ t, Q t ∧ settled s.2 t).
Proof.
  intros (s' & E & Hc & HQ) He. exists s'. specialize (He s). rewrite E in He.
  destruct He as ([_ Hk] & Hn & _). by split_and!.
Qed.

Lemma runs_guard message c s (Q : NativeTcpTransport → Prop) :
  connected_as c s → lc_state (nt_lifecycle s.2) = Authenticated → Q s.2 →
  runs_to (require_authenticated message) s () c Q.
Proof.
  intros Hc Hl HQ. exists s. unfold require_authenticated, mbind, action_bind, this, try, pure_call.
  cbn [fst snd]. unfold require. rewrite decide_True by done. by destruct s.
Qed.

(** A command of which the answer is checked. *)
Lemma turn_runs c s t command e1 replies e2 rest :
  writes_work → connected_as c s → command_ok (turn_command t) →
  seal_command (c_cipher c) (co_code (turn_command t)) (next (c_serial c))
    (co_attributes (turn_command t)) (co_data (turn_command t)) = Ok (command, e1) →
  answer (turn_waits t) (turn_reply t) (turn_env t) →
  seal_replies e1 (turn_waits t ++ [turn_reply t]) = Ok (replies, e2) →
  inbound (c_socket c) = replies ++ rest →
  runs_to (send_and_fill_buf (co_code (turn_command t)) (co_attributes (turn_command t))
             (co_data (turn_command t))) s (turn_reply t).1 (answered_from c command rest e2)
    (λ t', recv_buf t' = (turn_reply t).2 ∧ settled s.2 t').
Proof.
  intros Hw Hc _ Hs Ha Hr Hi. apply runs_settled; [|apply send_and_fill_exchange].
  by eapply exchange_runs.
Qed.

Definition no_exception (env : NativeResponseEnvelope) : Prop :=
  match terminal env with Exception _ _ => False | _ => True end.

Lemma check_response_ok r env :
  response_of r = Ok env → no_exception env → check_response r.1 r.2 = Ok env.
Proof.
  unfold response_of, check_response, no_exception. intros ->. cbn.
  by destruct (terminal env).
Qed.

(** ** Fetching *)
(** Ready to fetch the rows of a result set from a position on. *)
Definition fetch_ready (handle : Z) (columns : list NativeColumnMeta) (limit position : Z)
    (t : NativeTcpTransport) : Prop :=
  lc_state (nt_lifecycle t) = Authenticated ∧ cached_columns t !! handle = Some columns ∧
  native_max_message_size t = limit ∧ default 0 (fetch_positions t !! handle) = position.

Lemma fetch_ready_settled handle columns limit position t t' :
  fetch_ready handle columns limit position t → settled t t' →
  fetch_ready handle columns limit position t'.
Proof.
  unfold fetch_ready, native_max_message_size.
  intros (H1' & H2' & H3' & H4') [[K1 K2 K3 K4 K5] K6]. by rewrite K1, K4, K5, K6.
Qed.

(** A window: the rows of it and how many. *)
Abbreviation Window := (Z * RecordBatch)%type.

(** The turns that fetch consecutive windows from a position on. *)
Fixpoint fetch_turns (handle : Z) (columns : list NativeColumnMeta) (limit position : Z)
    (ts : list Turn) (windows : list Window) : Prop :=
  match ts, windows with
  | [], [] => True
  | t :: ts, (rows, batch) :: windows =>
    turn_command t = {| co_code := CMD_FETCH2; co_attributes := AttributeSet_new;
                        co_data := Some (fetch_payload handle position limit) |} ∧
    (∃ data, terminal (turn_env t) = MoreRows data ∧
       parse_fetch_to_record_batch data columns = Ok (rows, batch)) ∧
    in_range I64 (position + rows) ∧
    fetch_turns handle columns limit (position + rows) ts windows
  | _, _ => False
  end.

Definition window_data (columns : list NativeColumnMeta) (w : Window) : ResultData :=
  {| rd_columns := to_column_info columns; rd_data := PayloadArrow w.2; rd_total_rows := w.1 |}.

Lemma advance_runs handle columns limit position rows c s :
  connected_as c s → fetch_ready handle columns limit position s.2 →
  in_range I64 (position + rows) →
  runs_to (advance_position handle position rows) s () c
    (fetch_ready handle columns limit (position + rows)).
Proof.
  intros Hc (H1' & H2' & H3' & H4') Hr. unfold advance_position.
  eapply (runs_bind _ _ _ (position + rows) c (fetch_ready handle columns limit position)).
  { exists s. unfold pure_call. rewrite arith_in by done. by split_and!. }
  intros s1 Hc1 (F1 & F2 & F3 & F4). apply update_runs; [done|done|].
  split_and!; try done. cbn. by rewrite lookup_insert_eq.
Qed.

Lemma fetch_runs handle columns limit position rows batch data c s t command e1 replies e2 rest :
  writes_work → connected_as c s → fetch_ready handle columns limit position s.2 →
  turn_command t = {| co_code := CMD_FETCH2; co_attributes := AttributeSet_new;
                      co_data := Some (fetch_payload handle position limit) |} →
  terminal (turn_env t) = MoreRows data →
  parse_fetch_to_record_batch data columns = Ok (rows, batch) →
  in_range I64 (position + rows) → command_ok (turn_command t) →
  seal_command (c_cipher c) (co_code (turn_command t)) (next (c_serial c))
    (co_attributes (turn_command t)) (co_data (turn_command t)) = Ok (command, e1) →
  answer (turn_waits t) (turn_reply t) (turn_env t) →
  seal_replies e1 (turn_waits t ++ [turn_reply t]) = Ok (replies, e2) →
  inbound (c_socket c) = replies ++ rest →
  runs_to (fetch_results handle) s (window_data columns (rows, batch))
    (answered_from c command rest e2) (fetch_ready handle columns limit (position + rows)).
Proof.
  intros Hw Hc Hready Ht Hterm Hp Hr Hok Hs Ha Hrep Hi. unfold fetch_results.
  set (ready := fetch_ready handle columns limit position) in *.
  set (c1 := answered_from c command rest e2).
  eapply (runs_bind _ _ _ () c ready); [apply runs_guard; [done|apply Hready|done]|].
  intros s1 Hc1 Hr1.
  eapply (runs_bind _ _ _ s1.2 c ready); [by apply runs_this|]. intros s2 Hc2 Hr2.
  eapply (runs_bind _ _ _ columns c ready).
  { apply runs_try; [|done|done]. destruct Hr1 as (_ & -> & _). done. }
  intros s3 Hc3 Hr3. destruct Hr1 as (_ & _ & -> & ->).
  eapply (runs_bind _ _ _ (turn_reply t).1 c1 (λ t', recv_buf t' = (turn_reply t).2 ∧ ready t')).
  { destruct (turn_runs c s3 t command e1 replies e2 rest Hw Hc3 Hok Hs Ha Hrep Hi)
      as (s' & Hrun & Hc' & Hb & Hset). rewrite Ht in Hrun. exists s'.
    split_and!; [exact Hrun|done|done|by eapply fetch_ready_settled]. }
  intros s4 Hc4 [Hb4 Hr4].
  eapply (runs_bind _ _ _ s4.2 c1 ready); [by apply runs_this|]. intros s5 Hc5 Hr5. rewrite Hb4.
  eapply (runs_bind _ _ _ (turn_env t) c1 ready).
  { apply runs_try; [|done|done]. apply check_response_ok; [apply Ha|].
    unfold no_exception. by rewrite Hterm. }
  intros s6 Hc6 Hr6. unfold fetched. rewrite Hterm.
  eapply (runs_bind _ _ _ (rows, batch) c1 ready); [by apply runs_try|]. intros s7 Hc7 Hr7.
  eapply runs_bind; [by apply advance_runs|]. intros s8 Hc8 Hr8. by apply runs_ret.
Qed.

(** The connection behind a conversation of [k] commands. *)
Definition talked_from (c : connection) (k : nat) (out rest : list byte) (e : ChaCha20Encryptor)
    : connection :=
  {| c_tls := c_tls c; c_socket := {| inbound := rest; sent := sent (c_socket c) ++ out |};
     c_cipher := e; c_serial := Nat.iter k (λ n, (serial_next n).2) (c_serial c) |}.

Lemma talked_answered c command e k out rest e' :
  talked_from (answered_from c command [] e) k out rest e'
  = talked_from c (S k) (command ++ out) rest e'.
Proof.
  unfold talked_from, answered_from. cbn [c_tls c_socket c_serial sent]. f_equal.
  - by rewrite app_assoc.
  - symmetry. apply Nat.iter_succ_r.
Qed.

Lemma talked_rest c command e rest1 k out rest e' :
  talked_from (answered_from c command rest1 e) k out rest e'
  = talked_from (answered_from c command [] e) k out rest e'.
Proof. done. Qed.

Lemma talked_nothing c rest : inbound (c_socket c) = rest → c = talked_from c 0 [] rest (c_cipher c).
Proof. destruct c as [tls [i o] e n]. cbn. intros ->. unfold talked_from. cbn. by rewrite app_nil_r. Qed.

(** The next windows of a result set, one after the other. *)
Fixpoint fetch_times (handle : Z) (n : nat) : nio (list ResultData) :=
  match n with
  | O => mret []
  | S n => d ← fetch_results handle; ds ← fetch_times handle n; mret (d :: ds)
  end.

(** The rows of windows. *)
Definition window_rows (windows : list Window) : Z := foldr (λ w n, w.1 + n) 0 windows.

Lemma fetch_times_runs handle columns limit e n ts inb out e' :
  conversation e n ts inb out e' → writes_work →
  ∀ windows position c s rest,
  c_cipher c = e → c_serial c = n → connected_as c s →
  fetch_ready handle columns limit position s.2 →
  fetch_turns handle columns limit position ts windows →
  inbound (c_socket c) = inb ++ rest →
  runs_to (fetch_times handle (length ts)) s (window_data columns <$> windows)
    (talked_from c (length ts) out rest e')
    (fetch_ready handle columns limit (position + window_rows windows)).
Proof.
  intros Hconv Hw. induction Hconv as [e n|e n t ts command e1 replies e2 inb out e3 Hok Hs Ha Hr _ IH];
    intros windows position c s rest <- <- Hc Hready Hts Hi.
  - destruct windows; [|done]. cbn. rewrite Z.add_0_r. apply runs_ret; [|done].
    by rewrite <- talked_nothing.
  - destruct windows as [|[rows batch] windows]; [done|].
    destruct Hts as (Ht & (data & Hterm & Hp) & Hrange & Hts). cbn [length fetch_times].
    rewrite <- app_assoc in Hi.
    set (c1 := answered_from c command (inb ++ rest) e2).
    eapply (runs_bind _ _ _ (window_data columns (rows, batch)) c1
      (fetch_ready handle columns limit (position + rows))).
    { by apply (fetch_runs handle columns limit position rows batch data c s t command e1 replies e2). }
    intros s1 Hc1 Hr1.
    rewrite <- (talked_answered c command e2), <- (talked_rest _ _ _ (inb ++ rest)).
    eapply (runs_bind _ _ _ (window_data columns <$> windows) (talked_from c1 (length ts) out rest e3)
      (fetch_ready handle columns limit (position + rows + window_rows windows))).
    { by apply IH. }
    intros s2 Hc2 Hr2. apply runs_ret; [done|]. cbn. by rewrite Z.add_assoc.
Qed.

Lemma fetch_turns_data handle columns limit ts windows position :
  fetch_turns handle columns limit position ts windows →
  (λ t, default [] (co_data (turn_command t))) <$> ts
  = (λ k, fetch_payload handle (position + window_rows (take k windows)) limit)
      <$> seq 0 (length ts).
Proof.
  revert windows position. induction ts as [|t ts IH]; intros [|[rows batch] windows] position;
    try done.
  intros (Ht & _ & _ & Hts). cbn [length seq fmap list_fmap]. rewrite <- fmap_S_seq.
  rewrite (IH _ _ Hts), Ht. cbn [co_data default]. rewrite <- list_fmap_compose.
  f_equal; [by rewrite Z.add_0_r|]. apply list_fmap_ext. intros _ k _. unfold compose. f_equal.
  change (window_rows (take (S k) ((rows, batch) :: windows)))
    with (rows + window_rows (take k windows)). lia.
Qed.

Lemma serve_data n ts :
  sm_data <$> zip_with message_of (serials (length ts) n) (turn_command <$> ts)
  = (λ t, default [] (co_data (turn_command t))) <$> ts.
Proof.
  revert n. induction ts as [|t ts IH]; intros n; [done|].
  cbn [length serials serial_next fmap list_fmap zip_with]. f_equal. apply IH.
Qed.

(** Fetching a result set: successive fetches of one handle, whatever the server says
    in between about waiting, return the server's windows in order, and the server is
    asked for consecutive windows: each request starts exactly where the rows received
    so far end, so that no row is fetched twice and none is left out; afterwards the
    transport stands behind the last row. *)
Theorem fetches_are_consecutive handle columns limit position ts windows inb out e' c s rest :
  writes_work → connected_as c s → in_range U32 (next (c_serial c)) →
  fetch_ready handle columns limit position s.2 →
  conversation (c_cipher c) (c_serial c) ts inb out e' →
  fetch_turns handle columns limit position ts windows →
  inbound (c_socket c) = inb ++ rest →
  runs_to (fetch_times handle (length ts)) s (window_data columns <$> windows)
    (talked_from c (length ts) out rest e')
    (fetch_ready handle columns limit (position + window_rows windows)) ∧
  ∃ messages,
    server_serve (peer_of (c_cipher c)) ts out = Some (messages, inb, peer_of e') ∧
    sm_data <$> messages
    = (λ k, fetch_payload handle (position + window_rows (take k windows)) limit)
        <$> seq 0 (length ts).
Proof.
  intros Hw Hc Hn Hready Hconv Hts Hi. split; [by eapply fetch_times_runs|].
  eexists. split; [by apply serves_conversation|].
  by rewrite serve_data, (fetch_turns_data handle columns limit ts windows position).
Qed.
End Conversation.

(** ** Parameter batches *)
Definition prepared_command (payload : list byte) : Command :=
  {| co_code := CMD_EXECUTE_PREPARED; co_attributes := execute_prepared_attributes;
     co_data := Some payload |}.

Definition sum_counts (counts : list Z) : Z := foldr Z.add 0 counts.

Section Batches.
Context `{BuildProfile, ArrowLib, SerdeJson, PowI, ChaCha20, BigUint, SecureRandom, Platform}.
Context `{Clock, Network, Rustls, ResponseDebug}.

(** Turns that send the given ranges, each answered with a row count. *)
Fixpoint range_turns (handle : PreparedStatementHandle) (enc : EncodedParameterRows)
    (ranges : list RowRange) (ts : list Turn) (counts : list Z) : Prop :=
  match ranges, ts, counts with
  | [], [], [] => True
  | r :: ranges, t :: ts, n :: counts =>
    (∃ payload, build_range_payload handle enc r = Ok payload ∧
       turn_command t = prepared_command payload) ∧
    terminal (turn_env t) = RowCount n ∧
    range_turns handle enc ranges ts counts
  | _, _, _ => False
  end.

Lemma run_prepared_runs payload n c s t command e1 replies e2 rest :
  writes_work → connected_as c s → turn_command t = prepared_command payload →
  terminal (turn_env t) = RowCount n → command_ok (turn_command t) →
  seal_command (c_cipher c) (co_code (turn_command t)) (next (c_serial c))
    (co_attributes (turn_command t)) (co_data (turn_command t)) = Ok (command, e1) →
  answer (turn_waits t) (turn_reply t) (turn_env t) →
  seal_replies e1 (turn_waits t ++ [turn_reply t]) = Ok (replies, e2) →
  inbound (c_socket c) = replies ++ rest →
  runs_to (run_execute_prepared payload) s (QRowCount n) (answered_from c command rest e2) any.
Proof.
  intros Hw Hc Ht Hterm Hok Hs Ha Hr Hi. unfold run_execute_prepared.
  set (c1 := answered_from c command rest e2).
  eapply (runs_bind _ _ _ (turn_reply t) c1 any).
  - unfold send_and_receive.
    destruct (turn_runs c s t command e1 replies e2 rest Hw Hc Hok Hs Ha Hr Hi)
      as ([w' t'] & Hrun & Hc' & Hb & _). rewrite Ht in Hrun. cbn [co_code co_attributes co_data
      prepared_command] in Hrun. exists (w', t'). rewrite (run_bind _ _ _ _ _ Hrun).
    unfold mbind, action_bind, this. cbn in Hb |- *. rewrite Hb. by destruct (turn_reply t).
  - intros s1 Hc1 _. destruct (turn_reply t) as [h p] eqn:Et.
    eapply (runs_bind _ _ _ (turn_env t) c1 any).
    { apply runs_try; [|done|done]. destruct Ha as (_ & _ & Ha & _).
      apply (check_response_ok (h, p)); [exact Ha|]. unfold no_exception. by rewrite Hterm. }
    intros s2 Hc2 _. rewrite Hterm. unfold convert_and_cache_result.
    eapply (runs_bind _ _ _ () c1 any); [by apply runs_ret|]. intros s3 Hc3 _. by apply runs_try.
Qed.

Lemma ranges_run handle enc e n ts inb out e' :
  conversation e n ts inb out e' → writes_work →
  ∀ ranges counts acc c s rest,
  c_cipher c = e → c_serial c = n → connected_as c s →
  range_turns handle enc ranges ts counts →
  Forall (λ k, 0 ≤ k) counts → 0 ≤ acc → acc + sum_counts counts ≤ imax I64 →
  inbound (c_socket c) = inb ++ rest →
  runs_to (fold_until (execute_range handle enc) acc ranges) s (inr (acc + sum_counts counts))
    (talked_from c (length ts) out rest e') any.
Proof.
  intros Hconv Hw. induction Hconv as [e n|e n t ts command e1 replies e2 inb out e3 Hok Hs Ha Hr _ IH];
    intros ranges counts acc c s rest <- <- Hc Hts Hpos Hacc Hmax Hi.
  - destruct ranges, counts; try done. cbn. rewrite Z.add_0_r. apply runs_ret; [|done].
    by rewrite <- talked_nothing.
  - destruct ranges as [|r ranges], counts as [|k counts]; try done.
    destruct Hts as ((payload & Hp & Ht) & Hterm & Hts). cbn [length fold_until].
    rewrite <- app_assoc in Hi. apply Forall_cons in Hpos as [Hk Hpos].
    change (sum_counts (k :: counts)) with (k + sum_counts counts) in Hmax |- *.
    assert (0 ≤ sum_counts counts) as Hsum
      by (clear -Hpos; induction Hpos as [|x l Hx _ IHl]; [done|unfold sum_counts in *; cbn; lia]).
    set (c1 := answered_from c command (inb ++ rest) e2).
    eapply (runs_bind _ _ _ (inr (acc + k)) c1 any).
    { unfold execute_range.
      eapply (runs_bind _ _ _ payload c any); [by apply runs_try|]. intros s1 Hc1 _.
      eapply (runs_bind _ _ _ (QRowCount k) c1 any).
      { by apply (run_prepared_runs payload k c s1 t command e1 replies e2). }
      intros s2 Hc2 _. eapply (runs_bind _ _ _ (acc + k) c1 any); [|intros; by apply runs_ret].
      exists s2. unfold pure_call. rewrite arith_in by (split; [range|lia]). done. }
    intros s1 Hc1 _.
    rewrite <- (talked_answered c command e2), <- (talked_rest _ _ _ (inb ++ rest)), Z.add_assoc.
    apply IH; try done; lia.
Qed.

Lemma range_turns_data handle enc ranges ts counts n :
  range_turns handle enc ranges ts counts →
  Forall2 (λ r m, build_range_payload handle enc r = Ok (sm_data m)) ranges
    (zip_with message_of (serials (length ts) n) (turn_command <$> ts)).
Proof.
  revert ts counts n. induction ranges as [|r ranges IH]; intros [|t ts] [|k counts] n; try done.
  intros ((payload & Hp & Ht) & _ & Hts). cbn [length serials serial_next fmap list_fmap zip_with].
  constructor; [by rewrite Ht|by eapply IH].
Qed.

Lemma consecutive_empty first ranges last :
  consecutive first last ranges → (first < last)%nat → ranges ≠ [].
Proof. destruct ranges; [cbn; lia|done]. Qed.

(** C8: executing a prepared statement over many rows: the rows are split into
    consecutive, non-empty ranges that cover each row once, every range within the
    server's message limit unless it is a single row; the server receives one command
    per range, in order, with the payload of exactly those rows; and the call returns
    the sum of the row counts, having read the answers and nothing more. *)
Theorem prepared_rows_arrive handle cols bytes c s :
  writes_work → connected_as c s → in_range U32 (next (c_serial c)) →
  lc_state (nt_lifecycle s.2) = Authenticated → result_columns handle = [] →
  write_parameter_rows cols (parameter_columns handle cols) (seq 0 (first_len cols)) = Ok bytes →
  (0 < first_len cols)%nat →
  ∃ enc, split_parameter_rows handle cols (message_limit s.2) = Ok enc ∧
    consecutive 0 (first_len cols) (e_ranges enc) ∧
    Forall (range_message handle cols (message_limit s.2) enc) (e_ranges enc) ∧
    ∀ ts counts inb out e' rest,
    conversation (c_cipher c) (c_serial c) ts inb out e' →
    range_turns handle enc (e_ranges enc) ts counts →
    Forall (λ k, 0 ≤ k) counts → sum_counts counts ≤ imax I64 →
    inbound (c_socket c) = inb ++ rest →
    runs_to (execute_prepared_statement handle (Some cols)) s (QRowCount (sum_counts counts))
      (talked_from c (length ts) out rest e') any ∧
    ∃ messages,
      server_serve (peer_of (c_cipher c)) ts out = Some (messages, inb, peer_of e') ∧
      Forall2 (λ r m, build_range_payload handle enc r = Ok (sm_data m)) (e_ranges enc) messages.
Proof.
  intros Hw Hc Hn Hl Hrc Hrows Hlen.
  destruct (split_ok handle cols (message_limit s.2) bytes Hrows) as (enc & Hsplit & _ & Hcons & Hall).
  exists enc. split_and!; [done|done|done|]. intros ts counts inb out e' rest Hconv Hts Hpos Hmax Hi.
  split; [|eexists; split; [by apply serves_conversation|by eapply range_turns_data]].
  unfold execute_prepared_statement.
  eapply (runs_bind _ _ _ () c (λ t, t = s.2)); [by apply runs_guard|]. intros [w1 t1] Hc1 Ht1.
  cbn in Ht1. subst t1.
  eapply (runs_bind _ _ _ (Some enc) c any).
  { exists (w1, s.2). unfold split_for. rewrite Hrc. unfold mbind, action_bind, this, try, pure_call.
    cbn [snd]. rewrite Hsplit. cbn [map_err].
    destruct (e_ranges enc) eqn:Ee; [by apply consecutive_empty in Hcons|done]. }
  intros s2 Hc2 _. unfold execute_prepared_ranges.
  eapply (runs_bind _ _ _ (inr (sum_counts counts)) (talked_from c (length ts) out rest e') any).
  - by eapply (ranges_run handle enc _ _ ts inb out e' Hconv Hw (e_ranges enc) counts 0).
  - intros s3 Hc3 _. by apply runs_ret.
Qed.
End Batches.
