(* ===== verification/NativeWitness.v ===== *)
(** * The native transport at concrete inputs

    A server that accepts a login without TLS, and the theorems of the native transport
    applied to the connection with it. *)
From S2P Require Import Prelude MachineInt RustStr Constants Errors Effect Framing Attributes.
From S2P Require Import Float64 Json ResultParser ResultCodec ResultSafety Messages Lifecycle.
From S2P Require Import Encryption Handshake HandshakeCodec Tls ParamEncoding ParamSplit.
From S2P Require Import NativeTransport NativeInvariant NativeReach NativeExchange.
From S2P Require Import NativeConversation.

#[local] Open Scope Z_scope.

(** ** The platform *)
Definition key_bytes : ChaCha20 := {|
  keystream key pos := nth (pos mod 32) key x00;
  keystream_len := 2 ^ 38;
|}.

Definition linux : Platform := "linux".
Definition any_clock : Clock := λ _, true.
Definition no_debug : ResponseDebug := λ _, "response".
Definition no_tls : Rustls := {|
  sha256 _ := []; server_name_error _ := None; general_error_text s := s; tls_delay _ := O;
  tls_connect _ _ _ := inr "no TLS";
|}.

#[local] Existing Instances dev_profile small_batches int_numbers table_powi key_bytes z_biguint
  sevens linux any_clock no_debug no_tls.

(** ** A server *)
Definition frame (attrs : AttributeSet) (data : list byte) : Reply :=
  ({| message_length := Z.of_nat (length (AttributeSet_serialize attrs ++ data)); command := 0;
      serial := 0; num_attributes := AttributeSet_num_attributes attrs;
      attribute_data_len := Z.of_nat (length (AttributeSet_serialize attrs));
      num_result_parts := if data then 0 else 1 |}, AttributeSet_serialize attrs ++ data).

Definition login_attributes : AttributeSet :=
  AttributeSet_add (AttributeSet_add (AttributeSet_add AttributeSet_new
    ATTR_PUBLIC_KEY (ABinary sample_key)) ATTR_RANDOM_PHRASE (ABinary (replicate 40 x55)))
    ATTR_SESSIONID (AInt64 7).

(** The answers to a login: the first two in the clear. *)
Definition login_bytes : outcome stop (list byte * ChaCha20Encryptor) :=
  '(b1, _) ← seal_replies ChaCha20Encryptor_new
               [frame login_attributes []; frame AttributeSet_new []];
  e ← set_keys (replicate 32 x07) (replicate 32 x07);
  '(_, e) ← seal_command e CMD_GET_ATTRIBUTES 2 AttributeSet_new None;
  '(b2, e) ← seal_reply e (frame AttributeSet_new []).1 (frame AttributeSet_new []).2;
  Ok (b1 ++ b2, e).

Definition server_bytes : list byte := match login_bytes with Ok (b, _) => b | _ => [] end.

Definition one_server : Network := {|
  io_delay _ := O; connect_delay := 5%nat;
  tcp_connect _ := inl {| inbound := server_bytes; sent := [] |};
  nodelay_error _ := None; write_error _ _ := None; flush_error _ := None;
  read_error := "unexpected end of file";
|}.

#[local] Existing Instance one_server.

Definition plain_params : ConnectionParams :=
  {| host := "localhost"; port := 8563; use_tls := false; validate_server_certificate := false;
     certificate_fingerprint := None; timeout_ms := 1000 |}.
Definition sys : Credentials :=
  {| username := "sys"; password := "exasol"; client_name := "test"; client_version := "1" |}.

Definition state : Type := World * NativeTcpTransport.
Definition start : state := ({| now := 0; cutoff := None; draws := 0 |}, NativeTcpTransport_new).
Definition run (r : Request) (s : state) : state := (perform r s).2.
Definition connected_state : state := run (Connect plain_params) start.
Definition login_state : state := run (Authenticate sys) connected_state.

Lemma login_rules_witness :
  lc_state (nt_lifecycle login_state.2) = Authenticated ∧ now login_state.1 ≤ 1000000000.
Proof.
  destruct (login_rules (T := NativeTcpTransport) sys connected_state.1 connected_state.2
    (authenticate_within_deadline sys connected_state).1
    (authenticate_within_deadline sys connected_state).2.1
    (authenticate_within_deadline sys connected_state).2.2) as [_ Hrules].
  - vm_compute. reflexivity.
  - destruct (Hrules {| d_deadline := 1000000000; d_budget := 1000000000; d_label := "Connection" |})
      as (Hnow & _ & Hstate); [vm_compute; reflexivity|]. split.
    + vm_compute. reflexivity.
    + vm_compute. discriminate.
Defined.

Lemma close_rules_witness :
  is_Some (stream login_state.2) ∧ stream (run Close login_state).2 = None.
Proof.
  destruct (close_rules (T := NativeTcpTransport) login_state.1 login_state.2 (Ok ())
    (run Close login_state).1 (run Close login_state).2) as [_ Hclose].
  - vm_compute. reflexivity.
  - destruct Hclose as (_ & [t1 Ht] & _); [vm_compute; reflexivity..|discriminate|].
    split; [vm_compute; by eexists|]. rewrite Ht. reflexivity.
Defined.

Lemma guarded_requests_witness :
  ∃ e, perform (SetAutocommit true) connected_state = (Err (Failed e), connected_state).
Proof.
  destruct (guarded_requests (SetAutocommit true) connected_state.1 connected_state.2)
    as (e & He & _); [reflexivity|vm_compute; discriminate|].
  exists e. exact He.
Defined.

Lemma connected_reachable : reachable connected_state.
Proof.
  apply (reachable_step start (Connect plain_params) (Ok ()) connected_state);
    [by apply reachable_new|vm_compute; reflexivity|discriminate].
Qed.

Lemma login_reachable : reachable login_state.
Proof.
  apply (reachable_step connected_state (Authenticate sys) (Ok ()) login_state);
    [apply connected_reachable|vm_compute; reflexivity|discriminate].
Qed.

Lemma native_invariant_witness : is_active (encryptor login_state.2) = true.
Proof.
  apply (inv_cipher _ (native_invariant login_state login_reachable)); vm_compute; reflexivity.
Defined.

Lemma native_refines_lifecycle_witness :
  lifecycle_spec (Authenticate sys) true Connected Authenticated.
Proof.
  destruct (native_refines_lifecycle connected_state (Authenticate sys) (Ok ()) login_state)
    as [Hspec _]; [apply connected_reachable|vm_compute; reflexivity|discriminate|].
  exact Hspec.
Defined.

(** ** Conversations *)
Fixpoint converse (e : ChaCha20Encryptor) (n : SerialCounter) (ts : list Turn)
    : option (list byte * list byte * ChaCha20Encryptor) :=
  match ts with
  | [] => Some ([], [], e)
  | t :: ts =>
    let co := turn_command t in
    match seal_command e (co_code co) (next n) (co_attributes co) (co_data co) with
    | Ok (command, e1) =>
      match seal_replies e1 (turn_waits t ++ [turn_reply t]) with
      | Ok (replies, e2) =>
        '(inb, out, e3) ← converse e2 (serial_next n).2 ts;
        Some (replies ++ inb, command ++ out, e3)
      | _ => None
      end
    | _ => None
    end
  end.

Definition turn_ok (t : Turn) : Prop :=
  command_ok (turn_command t) ∧ answer (turn_waits t) (turn_reply t) (turn_env t).

Lemma converse_sound e n ts inb out e' :
  Forall turn_ok ts → converse e n ts = Some (inb, out, e') → conversation e n ts inb out e'.
Proof.
  intros Hts. revert e n inb out. induction Hts as [|t ts [Hc Ha] _ IH]; intros e n inb out; cbn.
  { intros [= <- <- <-]. constructor. }
  destruct (seal_command _ _ _ _ _) as [[command e1]| |] eqn:E1; [|done..].
  destruct (seal_replies _ _) as [[replies e2]| |] eqn:E2; [|done..].
  destruct (converse _ _ ts) as [[[inb' out'] e3]|] eqn:E3; [|done]. cbn. intros [= <- <- <-].
  econstructor; eauto.
Qed.

Definition reply (data : list byte) : Reply := frame AttributeSet_new data.

Lemma reply_frame_ok data :
  in_range U32 (Z.of_nat (length data)) → frame_ok (reply data).1 (reply data).2.
Proof.
  intros Hl. unfold reply, frame. change (AttributeSet_serialize AttributeSet_new) with (@nil byte).
  split; [|split; [reflexivity|by eexists]].
  split; [exact Hl|]. split_and!; [vm_range..|destruct data; vm_range].
Qed.

(** The server asks once to wait. *)
Definition patience : Reply := reply (encode_envelope {| e_parts := [PStillExecuting]; e_last := None |}).

Definition turn_with (co : Command) (e : wire_envelope) : Turn :=
  {| turn_command := co; turn_waits := [patience]; turn_reply := reply (encode_envelope e);
     turn_env := envelope_of e |}.

Lemma turn_with_ok co e :
  command_ok co → in_range U32 (Z.of_nat (length (encode_envelope e))) →
  response_of (reply (encode_envelope e)) = Ok (envelope_of e) →
  terminal (envelope_of e) ≠ StillExecuting → turn_ok (turn_with co e).
Proof.
  intros Hc Hl Hr Hn. split; [done|]. split.
  - constructor; [|constructor]. split; [apply reply_frame_ok; vm_range|].
    eexists. split; [vm_compute; reflexivity|reflexivity].
  - split_and!; [by apply reply_frame_ok|done|done].
Qed.

(** A connection with ciphers at work, and a transport that is logged in over it. *)
Definition keyed : ChaCha20Encryptor :=
  let st := {| cs_key := replicate 32 x07; cs_pos := 5 |} in
  {| send_cipher := Some st; recv_cipher := Some st |}.

Definition line (inb : list byte) : connection :=
  {| c_tls := false; c_socket := {| inbound := inb; sent := [] |}; c_cipher := keyed;
     c_serial := {| next := 3 |} |}.

Definition small_session (limit : Z) : SessionInfo :=
  {| session_id := "7"; protocol_version := 21; release_version := ""; database_name := "";
     product_name := ""; max_data_message_size := limit; time_zone := None |}.

Definition logged_in_over (inb : list byte) (limit : Z) (columns : list NativeColumnMeta) : state :=
  ({| now := 0; cutoff := None; draws := 0 |}, {|
    stream := Some (Plain (c_socket (line inb)));
    nt_lifecycle := {| lc_state := Authenticated; lc_deadline := None |};
    nt_serial := {| next := 3 |}; encryptor := keyed; nt_session := Some (small_session limit);
    tls_active := false; fetch_positions := <[4 := 10]> ∅; cached_columns := <[4 := columns]> ∅;
    recv_buf := []; nt_current_schema := None |}).

Lemma line_connected inb limit columns : connected_as (line inb) (logged_in_over inb limit columns).
Proof. by split_and!. Qed.

Lemma one_server_writes : writes_work.
Proof. by split. Qed.

(** *** A command *)
Definition select_one : Turn :=
  turn_with {| co_code := CMD_EXECUTE; co_attributes := AttributeSet_new;
               co_data := Some (as_bytes "SELECT 1") |}
    {| e_parts := [PRowCount 1]; e_last := None |}.

Definition heard (ts : list Turn) : list byte :=
  match converse keyed {| next := 3 |} ts with Some (inb, _, _) => inb | None => [] end.
Definition said (ts : list Turn) : list byte :=
  match converse keyed {| next := 3 |} ts with Some (_, out, _) => out | None => [] end.
Definition ciphers_after (ts : list Turn) : ChaCha20Encryptor :=
  match converse keyed {| next := 3 |} ts with Some (_, _, e) => e | None => keyed end.

Lemma command_ok_of co :
  bool_decide (in_range U8 (co_code co)) && bool_decide (attribute_set_ok (co_attributes co)) &&
  bool_decide (in_range U32 (Z.of_nat (length
    (AttributeSet_serialize (co_attributes co) ++ default [] (co_data co))))) = true →
  command_ok co.
Proof. intros [[?%bool_decide_eq_true ?%bool_decide_eq_true]%andb_prop ?%bool_decide_eq_true]%andb_prop. by split_and!. Qed.

Lemma select_one_ok : turn_ok select_one.
Proof.
  apply turn_with_ok; [by apply command_ok_of; vm_compute|vm_range|vm_compute; reflexivity|discriminate].
Qed.

Lemma command_answered_witness :
  ∃ m p, server_receive (peer_of keyed) (said [select_one]) = Ok (m, p, []) ∧
    sm_data m = as_bytes "SELECT 1" ∧
    (send_and_receive CMD_EXECUTE AttributeSet_new (Some (as_bytes "SELECT 1"))
       (logged_in_over (heard [select_one] ++ [x01; x02]) 1000 [])).1
    = Ok (turn_reply select_one).
Proof.
  destruct select_one_ok as [(Hc & Ha & Hf) Hans].
  destruct (seal_command keyed CMD_EXECUTE 3 AttributeSet_new (Some (as_bytes "SELECT 1")))
    as [[command e1]| |] eqn:E1; [|by vm_compute in E1..].
  assert (command = said [select_one]) as -> by (vm_compute in E1; by injection E1 as <- _).
  assert (seal_replies e1 [patience; turn_reply select_one]
          = Ok (heard [select_one], ciphers_after [select_one])) as E2
    by (vm_compute in E1; injection E1 as <-; vm_compute; reflexivity).
  destruct (command_answered (line (heard [select_one] ++ [x01; x02]))
    (logged_in_over (heard [select_one] ++ [x01; x02]) 1000 []) CMD_EXECUTE AttributeSet_new
    (Some (as_bytes "SELECT 1")) (said [select_one]) e1 [patience] (turn_reply select_one)
    (turn_env select_one) (heard [select_one]) (ciphers_after [select_one]) [x01; x02]
    one_server_writes (line_connected _ _ _) Hc ltac:(vm_range) Ha Hf E1 Hans E2 eq_refl)
    as (Hs & s' & Hrun & _).
  eexists _, _. split; [exact Hs|]. split; [reflexivity|]. rewrite Hrun. reflexivity.
Defined.

(** *** Two windows of a result set *)
Definition window (rows : nat) (cells : list (option WireValue)) : Z * RecordBatch :=
  (Z.of_nat rows, batch_of rows [(date_meta, cells)]).
Definition leap_day : option WireValue :=
  Some (WDate {| Gregorian.year := 2024; Gregorian.month := 2; Gregorian.day := 29 |}).

Definition fetch_turn (position : Z) (rows : nat) (cells : list (option WireValue)) : Turn :=
  turn_with {| co_code := CMD_FETCH2; co_attributes := AttributeSet_new;
               co_data := Some (fetch_payload 4 position 1000) |}
    {| e_parts := []; e_last := Some (LMoreRows (encode_fetch rows [(date_meta, cells)])) |}.

Definition two_fetches : list Turn :=
  [fetch_turn 10 2 [leap_day; None]; fetch_turn 12 1 [leap_day]].
Definition two_windows : list (Z * RecordBatch) := [window 2 [leap_day; None]; window 1 [leap_day]].

Lemma two_fetches_ok : Forall turn_ok two_fetches.
Proof.
  apply Forall_cons; split; [|apply Forall_cons; split; [|constructor]];
    (apply turn_with_ok;
     [by apply command_ok_of; vm_compute|vm_range|vm_compute; reflexivity|discriminate]).
Qed.

Lemma fetches_are_consecutive_witness :
  (fetch_times 4 2 (logged_in_over (heard two_fetches) 1000 [date_meta])).1
    = Ok (window_data [date_meta] <$> two_windows) ∧
  ∃ messages p,
    server_serve (peer_of keyed) two_fetches (said two_fetches)
    = Some (messages, heard two_fetches, p) ∧
    sm_data <$> messages = [fetch_payload 4 10 1000; fetch_payload 4 12 1000].
Proof.
  destruct (fetches_are_consecutive 4 [date_meta] 1000 10 two_fetches two_windows
    (heard two_fetches) (said two_fetches) (ciphers_after two_fetches)
    (line (heard two_fetches)) (logged_in_over (heard two_fetches) 1000 [date_meta]) [])
    as [(s' & Hrun & _) (messages & Hserve & Hdata)].
  - exact one_server_writes.
  - apply line_connected.
  - vm_range.
  - split_and!; vm_compute; reflexivity.
  - apply converse_sound; [exact two_fetches_ok|vm_compute; reflexivity].
  - split; [reflexivity|]. split; [exists (encode_fetch 2 [(date_meta, [leap_day; None])])|].
    { split; vm_compute; reflexivity. }
    split; [vm_range|]. split; [reflexivity|]. split; [exists (encode_fetch 1 [(date_meta, [leap_day])])|].
    { split; vm_compute; reflexivity. }
    split; [vm_range|exact I].
  - symmetry. apply app_nil_r.
  - split; [exact (f_equal fst Hrun)|]. exists messages, (peer_of (ciphers_after two_fetches)).
    split; [exact Hserve|exact Hdata].
Defined.

(** *** Two ranges of parameter rows *)
Definition sample_ranges : EncodedParameterRows :=
  match split_parameter_rows sample_handle sample_params 10 with
  | Ok enc => enc
  | _ => {| e_columns := []; e_bytes := []; e_ranges := [] |}
  end.

Definition range_turn (r : RowRange) : Turn :=
  turn_with (prepared_command (match build_range_payload sample_handle sample_ranges r with
                               | Ok payload => payload | _ => [] end))
    {| e_parts := [PRowCount 1]; e_last := None |}.

Definition first_range : RowRange := {| r_rows := (0, 1)%nat; r_bytes := (0, 32)%nat |}.
Definition second_range : RowRange := {| r_rows := (1, 2)%nat; r_bytes := (32, 42)%nat |}.
Definition two_ranges : list Turn := [range_turn first_range; range_turn second_range].

Lemma two_ranges_ok : Forall turn_ok two_ranges.
Proof.
  apply Forall_cons; split; [|apply Forall_cons; split; [|constructor]];
    (apply turn_with_ok;
     [by apply command_ok_of; vm_compute|vm_range|vm_compute; reflexivity|discriminate]).
Qed.

Lemma prepared_rows_arrive_witness :
  (execute_prepared_statement sample_handle (Some sample_params)
     (logged_in_over (heard two_ranges) 10 [])).1 = Ok (QRowCount 2) ∧
  ∃ messages p,
    server_serve (peer_of keyed) two_ranges (said two_ranges)
    = Some (messages, heard two_ranges, p) ∧
    Forall2 (λ r m, build_range_payload sample_handle sample_ranges r = Ok (sm_data m))
      [first_range; second_range] messages.
Proof.
  destruct (write_parameter_rows sample_params (parameter_columns sample_handle sample_params)
    (seq 0 (first_len sample_params))) as [bytes| |] eqn:Eb; [|by vm_compute in Eb..].
  destruct (prepared_rows_arrive sample_handle sample_params bytes (line (heard two_ranges))
    (logged_in_over (heard two_ranges) 10 []) one_server_writes (line_connected _ _ _)
    ltac:(vm_range) eq_refl eq_refl Eb ltac:(vm_compute; lia)) as (enc & Hsplit & _ & _ & Hrun).
  assert (enc = sample_ranges) as ->
    by (vm_compute in Hsplit; injection Hsplit as <-; vm_compute; reflexivity).
  destruct (Hrun two_ranges [1; 1] (heard two_ranges) (said two_ranges) (ciphers_after two_ranges) [])
    as [(s' & Hok & _) (messages & Hserve & Hall)].
  - apply converse_sound; [exact two_ranges_ok|vm_compute; reflexivity].
  - change (e_ranges sample_ranges) with [first_range; second_range].
    do 2 (split; [eexists; split; [|reflexivity]; vm_compute; reflexivity|];
          split; [vm_compute; reflexivity|]).
    exact I.
  - by repeat constructor.
  - vm_compute. discriminate.
  - symmetry. apply app_nil_r.
  - split; [exact (f_equal fst Hok)|]. exists messages, (peer_of (ciphers_after two_ranges)).
    split; [exact Hserve|exact Hall].
Defined.
