(* ===== verification/Statement.v ===== *)
(** * Statements with text parameters

    [query/statement.rs]: statement types, parameters and their SQL literals, the
    placeholder scanner and the substitution; [query/prepared.rs]: the bound
    parameters of a prepared statement and their transposition to columns. *)
From S2P Require Import Prelude MachineInt RustStr StrText Errors Float64 Json ResultParser.
From S2P Require Import Messages.
From Stdlib Require Import Ascii Floats.SpecFloat.

#[local] Open Scope Z_scope.

(** ** Parameters *)
(* code: query/statement.rs 67-82 Parameter *)
Inductive SqlParam :=
| Null
| Boolean (b : bool)
| Integer (i : Z)
| Float (f : spec_float)
| Text (s : string)
| Binary (b : list byte).

(** [Display] of an [f64] that is a number, and [hex::encode]. *)
Class ParameterText := {
  show_f64 : spec_float → string;
  hex_encode : list byte → string;
}.

(** Documented behaviour: a decimal number without an exponent, and two lower-case
    hexadecimal digits for every byte. *)
Definition is_hex (a : ascii) : bool :=
  is_digit a || ((97 <=? ascii_code a) && (ascii_code a <=? 102)).

Definition is_decimal_text (s : string) : bool :=
  let body := match s with String "-" s => s | s => s end%char in
  match body with
  | EmptyString => false
  | _ => str_forall (λ a, is_digit a || Ascii.eqb a ".") body
  end.

Class ParameterTextLaws (T : ParameterText) := {
  show_f64_decimal f :
    match f with S754_nan | S754_infinity _ => True | _ => is_decimal_text (show_f64 f) = true end;
  hex_encode_digits bs : str_forall is_hex (hex_encode bs) = true;
}.

Section Statements.
Context `{UnicodeCase, ParameterText}.

(* code: query/statement.rs 126-138 contains_sql_injection_pattern *)
Definition injection_patterns : list string :=
  ["'; DROP"; "'; DELETE"; "'; UPDATE"; "'; INSERT"; "' OR '1'='1"; "' OR 1=1"; "' OR TRUE";
   "UNION SELECT"; "EXEC("; "EXECUTE("].

(* code: query/statement.rs 122-141 contains_sql_injection_pattern *)
Definition contains_sql_injection_pattern (s : string) : bool :=
  let upper := to_uppercase s in
  existsb (λ pattern, contains_str pattern upper) injection_patterns.

(* code: query/statement.rs 84-120 to_sql_literal *)
Definition to_sql_literal (p : SqlParam) : outcome QueryError string :=
  match p with
  | Null => Ok "NULL"
  | Boolean b => Ok (if b then "TRUE" else "FALSE")
  | Integer i => Ok (show_int i)
  | Float f =>
    match f with
    | S754_nan | S754_infinity _ =>
      Err (ParameterBindingError 0 "NaN and Infinity are not supported")
    | _ => Ok (show_f64 f)
    end
  | Text s =>
    if contains_sql_injection_pattern s then Err SqlInjectionDetected
    else Ok (quoted squote s)
  | Binary b => Ok (String squote (hex_encode b +:+ String squote ""))
  end.

(** ** Statement types *)
(* code: query/statement.rs 8-25 StatementType *)
Inductive StatementType := StSelect | StInsert | StUpdate | StDelete | StDdl | StTransaction | StOther.

(* code: query/statement.rs 27-54 from_sql *)
Definition from_sql (sql : string) : StatementType :=
  let trimmed := to_uppercase (trim_start sql) in
  let starts p := starts_with p trimmed in
  if starts "SELECT" || starts "WITH" then StSelect
  else if starts "INSERT" then StInsert
  else if starts "UPDATE" then StUpdate
  else if starts "DELETE" then StDelete
  else if starts "CREATE" || starts "ALTER" || starts "DROP" || starts "TRUNCATE" then StDdl
  else if starts "BEGIN" || starts "COMMIT" || starts "ROLLBACK" then StTransaction
  else StOther.

(* code: query/statement.rs 56-59 returns_result_set *)
Definition returns_result_set (t : StatementType) : bool :=
  match t with StSelect => true | _ => false end.

(* code: query/statement.rs 61-64 returns_row_count *)
Definition returns_row_count (t : StatementType) : bool :=
  match t with StInsert | StUpdate | StDelete => true | _ => false end.

(** ** The placeholder scanner *)
(* code: query/statement.rs 186-194 ScanState *)
Inductive ScanState := Normal | SingleQuoted | DoubleQuoted | LineComment | BlockComment.

(* code: query/statement.rs 228-237 ScanStep *)
Record ScanStep := { state : ScanState; is_placeholder : bool; consumed_pair : bool }.

(* code: query/statement.rs 239-246 ScanStep::go *)
Definition go (s : ScanState) : ScanStep :=
  {| state := s; is_placeholder := false; consumed_pair := false |}.
(* code: query/statement.rs 248-254 ScanStep::go_past_pair *)
Definition go_past_pair (s : ScanState) : ScanStep :=
  {| state := s; is_placeholder := false; consumed_pair := true |}.
(* code: query/statement.rs 256-263 ScanStep::placeholder *)
Definition placeholder : ScanStep :=
  {| state := Normal; is_placeholder := true; consumed_pair := false |}.

Definition next_is (c : ascii) (next : option ascii) : bool :=
  match next with Some b => Ascii.eqb b c | None => false end.

(* code: query/statement.rs 276-285 step_outside_literal *)
Definition step_outside_literal (c : ascii) (next : option ascii) : ScanStep :=
  if Ascii.eqb c "?" then placeholder
  else if Ascii.eqb c squote then go SingleQuoted
  else if Ascii.eqb c dquote then go DoubleQuoted
  else if Ascii.eqb c "-" && next_is "-" next then go_past_pair LineComment
  else if Ascii.eqb c "/" && next_is "*" next then go_past_pair BlockComment
  else go Normal.

(* code: query/statement.rs 287-297 step_inside_quotes *)
Definition step_inside_quotes (st : ScanState) (quote c : ascii) (next : option ascii) : ScanStep :=
  if negb (Ascii.eqb c quote) then go st
  else if next_is quote next then go_past_pair st
  else go Normal.

(* code: query/statement.rs 299-305 step_inside_line_comment *)
Definition step_inside_line_comment (c : ascii) : ScanStep :=
  if Ascii.eqb c "010" then go Normal else go LineComment.

(* code: query/statement.rs 307-313 step_inside_block_comment *)
Definition step_inside_block_comment (c : ascii) (next : option ascii) : ScanStep :=
  if Ascii.eqb c "*" && next_is "/" next then go_past_pair Normal else go BlockComment.

(* code: query/statement.rs 265-274 scan_step *)
Definition scan_step (st : ScanState) (c : ascii) (next : option ascii) : ScanStep :=
  match st with
  | Normal => step_outside_literal c next
  | SingleQuoted => step_inside_quotes st squote c next
  | DoubleQuoted => step_inside_quotes st dquote c next
  | LineComment => step_inside_line_comment c
  | BlockComment => step_inside_block_comment c next
  end.

Definition str_head (s : string) : option ascii :=
  match s with EmptyString => None | String a _ => Some a end.

(** The loop over [char_indices] from the byte offset [i]. Every case of [scan_step]
    tests for an ASCII character, so the bytes of a longer character are scanned
    one by one with the same result. *)
(* code: query/statement.rs 214-223 scan_placeholders *)
Fixpoint scan_from (i : nat) (st : ScanState) (s : string) : list nat :=
  match s with
  | EmptyString => []
  | String c s1 =>
    let step := scan_step st c (str_head s1) in
    (if is_placeholder step then [i] else []) ++
    match s1 with
    | String _ s2 =>
      if consumed_pair step then scan_from (S (S i)) (state step) s2
      else scan_from (S i) (state step) s1
    | EmptyString => []
    end
  end.

(* code: query/statement.rs 208-226 scan_placeholders *)
Definition scan_placeholders (sql : string) : list nat := scan_from 0 Normal sql.

(** ** Statements *)
(* code: query/statement.rs 315-332 Statement *)
Record Statement := {
  sql : string;
  parameters : list (option SqlParam);
  st_timeout_ms : option Z;
  statement_type : StatementType;
}.

(* code: query/statement.rs 334-346 Statement::new *)
Definition Statement_new (sql : string) : Statement :=
  {| sql := sql; parameters := []; st_timeout_ms := None; statement_type := from_sql sql |}.

(* code: query/statement.rs 363-366 Statement::set_timeout *)
Definition Statement_set_timeout (s : Statement) (timeout_ms : Z) : Statement :=
  {| sql := sql s; parameters := parameters s; st_timeout_ms := Some timeout_ms;
     statement_type := statement_type s |}.

(** [v.resize(n, None)] when the vector is shorter, then [v[index] = Some(p)]. *)
(* code: query/statement.rs 368-384 Statement::bind *)
Definition Statement_bind (s : Statement) (index : nat) (p : SqlParam) : Statement :=
  let ps := parameters s in
  let ps :=
    if (length ps <=? index)%nat then ps ++ replicate (S index - length ps) None else ps in
  {| sql := sql s; parameters := <[index := Some p]> ps; st_timeout_ms := st_timeout_ms s;
     statement_type := statement_type s |}.

(* code: query/statement.rs 386-392 Statement::bind_all *)
Definition Statement_bind_all (s : Statement) (ps : list SqlParam) : Statement :=
  foldl (λ s '(i, p), Statement_bind s i p) s (imap pair ps).

(* code: query/statement.rs 394-397 Statement::clear_parameters *)
Definition Statement_clear_parameters (s : Statement) : Statement :=
  {| sql := sql s; parameters := []; st_timeout_ms := st_timeout_ms s;
     statement_type := statement_type s |}.

(** [sql.replace_range(pos..pos + 1, &literal)]. *)
Definition replace_at (pos : nat) (literal s : string) : outcome QueryError string :=
  before ← str_slice 0 pos s;
  after ← str_slice_from (S pos) s;
  Ok (before +:+ literal +:+ after).

(** One iteration of the substitution loop. *)
(* code: query/statement.rs 421-431 Statement::build_sql *)
Definition substitute (ps : list (option SqlParam)) (text : outcome QueryError string)
    (p : nat * nat) : outcome QueryError string :=  (* the parameter index and the position *)
  current ← text;
  match ps !! p.1 with
  | None => Panic
  | Some bound =>
    param ← ok_or (ParameterBindingError p.1 "Parameter not bound") bound;
    literal ← to_sql_literal param;
    replace_at p.2 literal current
  end.

(* code: query/statement.rs 404-434 Statement::build_sql *)
Definition build_sql (s : Statement) : outcome QueryError string :=
  let positions := scan_placeholders (sql s) in
  if (length (parameters s) <? length positions)%nat then
    Err (ParameterBindingError (length (parameters s)) "Not enough parameters bound")
  else foldl (substitute (parameters s)) (Ok (sql s)) (reverse (imap pair positions)).
End Statements.

(** ** Prepared statements *)
(* code: query/prepared.rs 18-25 PreparedStatement *)
Record PreparedStatement := {
  p_handle : PreparedStatementHandle;
  p_parameters : list (option SqlParam);
  p_closed : bool;
}.

(** [vec![None; n]] of more than [isize::MAX] elements is a capacity overflow. *)
(* code: query/prepared.rs 27-36 PreparedStatement::new *)
Definition PreparedStatement_new (h : PreparedStatementHandle)
    : outcome QueryError PreparedStatement :=
  let n := wrap USize (num_params h) in
  if imax I64 <? n then Panic
  else Ok {| p_handle := h; p_parameters := replicate (Z.to_nat n) None; p_closed := false |}.

(* code: query/prepared.rs 38-41 parameter_count *)
Definition parameter_count (p : PreparedStatement) : Z := wrap USize (num_params (p_handle p)).

(* code: query/prepared.rs 63-69 mark_closed *)
Definition mark_closed (p : PreparedStatement) : PreparedStatement :=
  {| p_handle := p_handle p; p_parameters := p_parameters p; p_closed := true |}.

(* code: query/prepared.rs 71-92 PreparedStatement::bind *)
Definition PreparedStatement_bind (p : PreparedStatement) (index : nat) (value : SqlParam)
    : outcome QueryError PreparedStatement :=
  if (length (p_parameters p) <=? index)%nat then
    Err (ParameterBindingError index
      ("Parameter index " +:+ show_nat (Z.of_nat index) +:+ " out of bounds (statement has "
       +:+ show_nat (Z.of_nat (length (p_parameters p))) +:+ " parameters)"))
  else Ok {| p_handle := p_handle p; p_parameters := <[index := Some value]> (p_parameters p);
             p_closed := p_closed p |}.

(* code: query/prepared.rs 94-99 PreparedStatement::clear_parameters *)
Definition PreparedStatement_clear_parameters (p : PreparedStatement) : PreparedStatement :=
  {| p_handle := p_handle p; p_parameters := (λ _, None) <$> p_parameters p;
     p_closed := p_closed p |}.

Section Prepared.
Context `{SerdeJson, ParameterText}.

(** [serde_json::json!(f)] of a double: a number, or null when it is not finite. *)
Class JsonFloat := json_of_f64 : spec_float → json.

Context `{JsonFloat}.

(* code: query/prepared.rs 172-182 parameter_to_json *)
Definition parameter_to_json (p : SqlParam) : json :=
  match p with
  | Null => JNull
  | Boolean b => JBool b
  | Integer i => JNumber (number_of_i64 i)
  | Float f => json_of_f64 f
  | Text s => JString s
  | Binary b => JString (hex_encode b)
  end.

(** The first row whose length is not the parameter count. *)
Fixpoint check_rows (i : nat) (expected : Z) (rows : list (list SqlParam))
    : outcome QueryError unit :=
  match rows with
  | [] => Ok ()
  | row :: rows =>
    if Z.of_nat (length row) =? expected then check_rows (S i) expected rows
    else Err (ParameterBindingError i
      ("Row " +:+ show_nat (Z.of_nat i) +:+ " has " +:+ show_nat (Z.of_nat (length row))
       +:+ " parameters but statement expects " +:+ show_nat expected))
  end.

(* code: query/prepared.rs 106-141 build_batch_parameters_data *)
Definition build_batch_parameters_data (p : PreparedStatement) (rows : list (list SqlParam))
    : outcome QueryError (option (list (list json))) :=
  match rows with
  | [] => Ok None
  | _ =>
    let expected := parameter_count p in
    _ ← check_rows 0 expected rows;
    columns ← mapM (λ c, mapM (λ row : list SqlParam,
        match row !! c with Some v => Ok (parameter_to_json v) | None => Panic end) rows)
      (seq 0 (Z.to_nat expected));
    Ok (Some columns)
  end.

(** The first parameter that is not bound. *)
Fixpoint check_bound (i : nat) (ps : list (option SqlParam)) : outcome QueryError unit :=
  match ps with
  | [] => Ok ()
  | Some _ :: ps => check_bound (S i) ps
  | None :: _ =>
    Err (ParameterBindingError i ("Parameter " +:+ show_nat (Z.of_nat i) +:+ " is not bound"))
  end.

(* code: query/prepared.rs 143-169 build_parameters_data *)
Definition build_parameters_data (p : PreparedStatement)
    : outcome QueryError (option (list (list json))) :=
  match p_parameters p with
  | [] => Ok None
  | ps =>
    _ ← check_bound 0 ps;
    columns ← mapM (λ q : option SqlParam,
      match q with Some v => Ok [parameter_to_json v] | None => Panic end) ps;
    Ok (Some columns)
  end.
End Prepared.
