(* ===== verification/StatementText.v ===== *)
(** * Placeholders and literals

    A grammar of SQL texts of its own, as sequences of tokens, that the scanner's placeholders
    are compared with; the texts between the placeholders; and [build_sql] as the literals
    put between these texts. *)
From S2P Require Import Prelude MachineInt RustStr StrText Errors Float64 Statement.
From Stdlib Require Import Ascii Floats.SpecFloat.

#[local] Open Scope Z_scope.

(** ** Scanning in two parts *)

(** The state before each character; both characters of a pair have one state. *)
Fixpoint marks (st : ScanState) (s : string) : list ScanState :=
  match s with
  | EmptyString => []
  | String c s1 =>
    let step := scan_step st c (str_head s1) in
    st :: match s1 with
          | String _ s2 =>
            if consumed_pair step then st :: marks (state step) s2 else marks (state step) s1
          | EmptyString => []
          end
  end.

(** The state at the end. *)
Fixpoint final (st : ScanState) (s : string) : ScanState :=
  match s with
  | EmptyString => st
  | String c s1 =>
    let step := scan_step st c (str_head s1) in
    match s1 with
    | String _ s2 => if consumed_pair step then final (state step) s2 else final (state step) s1
    | EmptyString => state step
    end
  end.

(** Two characters that the scanner can take as one token. *)
Definition is_pair (a b : ascii) : bool :=
  (Ascii.eqb a "-" && Ascii.eqb b "-") || (Ascii.eqb a "/" && Ascii.eqb b "*") ||
  (Ascii.eqb a "*" && Ascii.eqb b "/") || (Ascii.eqb a squote && Ascii.eqb b squote) ||
  (Ascii.eqb a dquote && Ascii.eqb b dquote).

Fixpoint str_last (s : string) : option ascii :=
  match s with
  | EmptyString => None
  | String a EmptyString => Some a
  | String _ s => str_last s
  end.

(** No pair across the boundary of two texts. *)
Definition boundary (s1 s2 : string) : bool :=
  match str_last s1, str_head s2 with Some a, Some b => negb (is_pair a b) | _, _ => true end.

Lemma scan_step_no_pair st a b :
  is_pair a b = false → scan_step st a (Some b) = scan_step st a None.
Proof.
  unfold is_pair. rewrite !orb_false_iff. intros ((((H1 & H2) & H3) & H4) & H5).
  destruct st; cbn [scan_step];
    unfold step_outside_literal, step_inside_quotes, step_inside_block_comment, next_is;
    rewrite ?andb_false_r.
  - rewrite H1, H2. done.
  - destruct (Ascii.eqb a squote); [|done]. cbn [andb negb] in *. by rewrite H4.
  - destruct (Ascii.eqb a dquote); [|done]. cbn [andb negb] in *. by rewrite H5.
  - done.
  - by rewrite H3.
Qed.

Lemma scan_step_alone st a : consumed_pair (scan_step st a None) = false.
Proof.
  destruct st; cbn [scan_step];
    unfold step_outside_literal, step_inside_quotes, step_inside_line_comment,
      step_inside_block_comment, next_is; rewrite ?andb_false_r; by repeat case_match.
Qed.

(** Induction on a text with one or two characters taken at a time. *)
Lemma str_two_ind (P : string → Prop) :
  P ""%string → (∀ c s, P s → (∀ d s', s = String d s' → P s') → P (String c s)) → ∀ s, P s.
Proof.
  intros H0 Hc. assert (∀ n s, (String.length s ≤ n)%nat → P s) as Hn.
  { induction n as [|n IH]; intros [|c s] Hl; cbn in Hl; try done; try lia.
    apply Hc; [apply IH; lia|]. intros d s' ->. apply IH. cbn in Hl. lia. }
  intros s. by apply (Hn (String.length s)).
Qed.

Lemma boundary_cons c s1 s2 : boundary (String c s1) s2 = true → boundary s1 s2 = true.
Proof. unfold boundary. destruct s1; [done|]. done. Qed.

Lemma scan_cons c d s st i :
  let step := scan_step st c (Some d) in
  marks st (String c (String d s)) =
    st :: (if consumed_pair step then st :: marks (state step) s
           else marks (state step) (String d s)) ∧
  final st (String c (String d s)) =
    (if consumed_pair step then final (state step) s else final (state step) (String d s)) ∧
  scan_from i st (String c (String d s)) =
    (if is_placeholder step then [i] else []) ++
    (if consumed_pair step then scan_from (S (S i)) (state step) s
     else scan_from (S i) (state step) (String d s)).
Proof. done. Qed.

Lemma scan_app s1 s2 st i :
  boundary s1 s2 = true →
  marks st (s1 +:+ s2) = marks st s1 ++ marks (final st s1) s2 ∧
  final st (s1 +:+ s2) = final (final st s1) s2 ∧
  scan_from i st (s1 +:+ s2) = scan_from i st s1 ++ scan_from (i + str_len s1) (final st s1) s2.
Proof.
  revert st i. induction s1 as [|c s1 IH1 IH2] using str_two_ind; intros st i Hb.
  { rewrite str_app_nil_l. cbn [str_len String.length final marks scan_from app].
    by rewrite Nat.add_0_r. }
  rewrite str_app_cons. destruct s1 as [|d s1].
  - rewrite str_app_nil_l. cbn [str_len String.length marks final scan_from str_head].
    destruct s2 as [|b s2]; [by rewrite !app_nil_r|].
    unfold boundary in Hb. cbn [str_last str_head] in Hb. apply negb_true_iff in Hb.
    cbn [str_head]. rewrite scan_step_no_pair by done. rewrite scan_step_alone.
    rewrite Nat.add_1_r. split_and!; [done|done|by rewrite app_nil_r].
  - rewrite str_app_cons. pose proof (boundary_cons _ _ _ Hb) as Hb1.
    destruct (scan_cons c d s1 st i) as (-> & -> & ->).
    destruct (scan_cons c d (s1 +:+ s2) st i) as (-> & -> & ->).
    set (step := scan_step st c (Some d)).
    destruct (consumed_pair step).
    + pose proof (boundary_cons _ _ _ Hb1) as Hb2.
      destruct (IH2 d s1 eq_refl (state step) (S (S i)) Hb2) as (-> & -> & ->).
      split_and!; [done|done|]. rewrite app_assoc. do 2 f_equal. unfold str_len. cbn [String.length]. lia.
    + destruct (IH1 (state step) (S i) Hb1) as (E1 & E2 & E3).
      rewrite str_app_cons in E1, E2, E3. rewrite E1, E2, E3.
      split_and!; [done|done|]. rewrite app_assoc. do 2 f_equal. unfold str_len. cbn [String.length]. lia.
Qed.

(** ** Segments *)

(** A text scanned from a state, as the segments between its placeholders. *)
Inductive segmented : ScanState → string → list string → Prop :=
| segmented_last st s : scan_from 0 st s = [] → segmented st s [s]
| segmented_cons st seg s segs :
    scan_from 0 st seg = [] → final st seg = Normal → segmented Normal s segs →
    segmented st (seg +:+ String "?" s) (seg :: segs).

(** The positions between segments, and the segments around given texts. *)
Fixpoint offsets (i : nat) (segs : list string) : list nat :=
  match segs with
  | [] | [_] => []
  | seg :: segs => (i + str_len seg)%nat :: offsets (S (i + str_len seg)) segs
  end.

Fixpoint fill (segs lits : list string) : string :=
  match segs, lits with
  | seg :: segs, lit :: lits => seg +:+ lit +:+ fill segs lits
  | seg :: _, [] => seg
  | [], _ => ""
  end.

Lemma scan_from_nil i j st s : scan_from i st s = [] → scan_from j st s = [].
Proof.
  revert st i j. induction s as [|c s IH1 IH2] using str_two_ind; intros st i j; [done|].
  destruct s as [|d s].
  - cbn [scan_from str_head]. by destruct (is_placeholder _).
  - destruct (scan_cons c d s st i) as (_ & _ & ->).
    destruct (scan_cons c d s st j) as (_ & _ & ->).
    destruct (is_placeholder _); [done|]. cbn [app].
    destruct (consumed_pair _); [by eapply IH2|apply IH1].
Qed.

Lemma boundary_question s : boundary s "?" = true.
Proof.
  unfold boundary. destruct (str_last s) as [a|]; [|done]. cbn [str_head].
  unfold is_pair. cbn. by rewrite !andb_false_r.
Qed.

Lemma scan_question s i :
  boundary (String "?" "") s = true ∧
  scan_from i Normal (String "?" s) = i :: scan_from (S i) Normal s ∧
  marks Normal (String "?" s) = Normal :: marks Normal s.
Proof. split; [unfold boundary; by destruct s|]. destruct s; done. Qed.

Lemma segmented_offsets st s segs i : segmented st s segs → scan_from i st s = offsets i segs.
Proof.
  intros Hs. revert i. induction Hs as [st s Hs|st seg s segs Hseg Hf Hs IH]; intros i.
  - by apply (scan_from_nil 0).
  - assert (boundary seg (String "?" s) = true) as Hb by apply (boundary_question seg).
    destruct (scan_app seg (String "?" s) st i Hb) as (_ & _ & ->).
    rewrite (scan_from_nil 0 i) by done. rewrite Hf.
    destruct (scan_question s (i + str_len seg)) as (_ & -> & _). rewrite IH.
    cbn [app offsets]. inversion Hs; by subst.
Qed.

(** A character in front of a text joins its first segment. *)
Lemma segmented_push st st' c t segs :
  let step := scan_step st c (str_head t) in
  is_placeholder step = false → consumed_pair step = false → st' = state step →
  segmented st' t segs → ∃ segs', segmented st (String c t) segs'.
Proof.
  intros step Hp Hc Est Hs. destruct Hs as [st' t Ht|st' seg t segs Ht Hf Hs].
  - exists [String c t]. constructor. destruct t as [|d t].
    + cbn [scan_from]. fold step. by rewrite Hp.
    + destruct (scan_cons c d t st 0) as (_ & _ & ->). unfold step in *. cbn [str_head] in *.
      rewrite Hp, Hc, <- Est. by apply (scan_from_nil 0).
  - exists (String c seg :: segs).
    assert (step = scan_step st c (str_head seg)) as E.
    { unfold step. destruct seg as [|e seg]; [|done]. apply scan_step_no_pair.
      unfold is_pair. cbn. by rewrite !andb_false_r. }
    apply (segmented_cons st (String c seg) t segs); [| |done]; destruct seg as [|e seg].
    + cbn [scan_from]. by rewrite <- E, Hp.
    + destruct (scan_cons c e seg st 0) as (_ & _ & ->). cbn [str_head] in E.
      rewrite <- E, Hp, Hc, <- Est. by apply (scan_from_nil 0).
    + cbn [final]. by rewrite <- E, <- Est.
    + destruct (scan_cons c e seg st 0) as (_ & -> & _). cbn [str_head] in E.
      by rewrite <- E, Hc, <- Est.
Qed.

Lemma segmented_push_pair st st' c d t segs :
  let step := scan_step st c (Some d) in
  is_placeholder step = false → consumed_pair step = true → st' = state step →
  segmented st' t segs → ∃ segs', segmented st (String c (String d t)) segs'.
Proof.
  intros step Hp Hc Est Hs. destruct Hs as [st' t Ht|st' seg t segs Ht Hf Hs].
  - exists [String c (String d t)]. constructor.
    destruct (scan_cons c d t st 0) as (_ & _ & ->). fold step. rewrite Hp, Hc, <- Est.
    by apply (scan_from_nil 0).
  - exists (String c (String d seg) :: segs).
    apply (segmented_cons st (String c (String d seg)) t segs); [| |done];
      destruct (scan_cons c d seg st 0) as (_ & Ef & Es); fold step in Ef, Es.
    + rewrite Es, Hp, Hc, <- Est. by apply (scan_from_nil 0).
    + by rewrite Ef, Hc, <- Est.
Qed.

Lemma placeholder_step st c next :
  is_placeholder (scan_step st c next) = true → c = "?"%char ∧ st = Normal.
Proof.
  destruct st; cbn [scan_step];
    unfold step_outside_literal, step_inside_quotes, step_inside_line_comment,
      step_inside_block_comment; repeat case_match; try done.
  intros _. split; [by apply Ascii.eqb_eq|done].
Qed.

(** Every text has its segments. *)
Lemma segmented_exists st s : ∃ segs, segmented st s segs.
Proof.
  revert st. induction s as [|c s IH1 IH2] using str_two_ind; intros st.
  { exists [""%string]. by constructor. }
  destruct (is_placeholder (scan_step st c (str_head s))) eqn:Hp.
  { apply placeholder_step in Hp as [-> ->]. destruct (IH1 Normal) as [segs Hs].
    exists (""%string :: segs). by apply (segmented_cons Normal "" s segs). }
  destruct (consumed_pair (scan_step st c (str_head s))) eqn:Hc.
  - destruct s as [|d s]; [cbn [str_head] in Hc; by rewrite scan_step_alone in Hc|].
    destruct (IH2 d s eq_refl (state (scan_step st c (Some d)))) as [segs Hs].
    by eapply segmented_push_pair.
  - destruct (IH1 (state (scan_step st c (str_head s)))) as [segs Hs].
    by eapply segmented_push.
Qed.

(** ** Tokens *)
(** What the scanner is to recognise, as a grammar of its own. A quoted text ends at the
    first quote that is not doubled, a line comment in front of the line feed, a block
    comment at its first end; each may also be open up to the end of the text. [opaque o rest]
    says that [o] is such a token in front of [rest]. *)
Definition line_feed : ascii := "010".

Inductive opaque : string → string → Prop :=
| opaque_quoted q body rest :
    q = squote ∨ q = dquote → not_quote_head q rest = true → opaque (quoted q body) rest
| opaque_open_quote q body :
    q = squote ∨ q = dquote →
    opaque (String q (replace_char q (String q (String q "")) body)) ""
| opaque_line body rest :
    contains_char line_feed body = false → rest = ""%string ∨ str_head rest = Some line_feed →
    opaque ("--" +:+ body) rest
| opaque_block body rest :
    contains_str "*/" (body +:+ "*") = false → opaque ("/*" +:+ body +:+ "*/") rest
| opaque_open_block body : contains_str "*/" body = false → opaque ("/*" +:+ body) "".

(** A placeholder, a string, identifier or comment, and any other character. *)
Inductive token := Placeholder | Opaque (text : string) | Plain (c : ascii).

Definition plain_start (c : ascii) (rest : string) : Prop :=
  c ≠ "?"%char ∧ c ≠ squote ∧ c ≠ dquote ∧
  ¬ (c = "-"%char ∧ str_head rest = Some "-"%char) ∧
  ¬ (c = "/"%char ∧ str_head rest = Some "*"%char).

Inductive lexes : string → list token → Prop :=
| lexes_nil : lexes "" []
| lexes_placeholder rest ts : lexes rest ts → lexes (String "?" rest) (Placeholder :: ts)
| lexes_opaque o rest ts : opaque o rest → lexes rest ts → lexes (o +:+ rest) (Opaque o :: ts)
| lexes_plain c rest ts :
    plain_start c rest → lexes rest ts → lexes (String c rest) (Plain c :: ts).

(** The tokens as text, with the given texts in place of the placeholders. *)
Fixpoint render (ts : list token) (lits : list string) : string :=
  match ts, lits with
  | [], _ => ""
  | Plain c :: ts, _ => String c (render ts lits)
  | Opaque o :: ts, _ => o +:+ render ts lits
  | Placeholder :: ts, l :: lits => l +:+ render ts lits
  | Placeholder :: ts, [] => render ts []
  end.

Definition is_mark (t : token) : bool := match t with Placeholder => true | _ => false end.
Definition placeholders (ts : list token) : nat := length (filter is_mark ts).

(** The offsets of the placeholders. *)
Fixpoint placeholder_offsets (i : nat) (ts : list token) : list nat :=
  match ts with
  | [] => []
  | Plain _ :: ts => placeholder_offsets (S i) ts
  | Opaque o :: ts => placeholder_offsets (i + str_len o) ts
  | Placeholder :: ts => i :: placeholder_offsets (S i) ts
  end.

(** The texts between the placeholders. *)
Definition push (p : string) (segs : list string) : list string :=
  match segs with [] => [p] | seg :: segs => (p +:+ seg) :: segs end.

Fixpoint segments (ts : list token) : list string :=
  match ts with
  | [] => [""%string]
  | Plain c :: ts => push (String c "") (segments ts)
  | Opaque o :: ts => push o (segments ts)
  | Placeholder :: ts => ""%string :: segments ts
  end.

(** *** The scanner on tokens *)
Lemma scan_go st st' a t i :
  scan_step st a (str_head t) = go st' → scan_from i st (String a t) = scan_from (S i) st' t.
Proof.
  intros Hs. destruct t as [|d t].
  - cbn [scan_from]. by rewrite Hs.
  - destruct (scan_cons a d t st i) as (_ & _ & ->). cbn [str_head] in Hs. by rewrite Hs.
Qed.

Lemma scan_pair st st' a b t i :
  scan_step st a (Some b) = go_past_pair st' →
  scan_from i st (String a (String b t)) = scan_from (S (S i)) st' t.
Proof. intros Hs. destruct (scan_cons a b t st i) as (_ & _ & ->). by rewrite Hs. Qed.

Lemma next_not q t : not_quote_head q t = true → next_is q (str_head t) = false.
Proof. destruct t as [|a t]; [done|]. cbn. by rewrite negb_true_iff. Qed.

Section Quotes.
Context (q : ascii) (st : ScanState).
Context (inside : ∀ a next, scan_step st a next = step_inside_quotes st q a next).

Lemma quote_ends t : not_quote_head q t = true → scan_step st q (str_head t) = go Normal.
Proof.
  intros Hq. rewrite inside. unfold step_inside_quotes. rewrite Ascii.eqb_refl. cbn [negb].
  by rewrite next_not.
Qed.

Lemma quote_inside a next : a ≠ q → scan_step st a next = go st.
Proof.
  intros Ha. rewrite inside. unfold step_inside_quotes. apply Ascii.eqb_neq in Ha. by rewrite Ha.
Qed.

Lemma quote_doubled : scan_step st q (Some q) = go_past_pair st.
Proof. rewrite inside. unfold step_inside_quotes. cbn. by rewrite Ascii.eqb_refl. Qed.

Lemma scan_through_quotes body rest i :
  not_quote_head q rest = true →
  scan_from i st (replace_char q (String q (String q "")) body +:+ String q rest)
  = scan_from (S (i + str_len (replace_char q (String q (String q "")) body))) Normal rest.
Proof.
  intros Hr. revert i. induction body as [|a body IH]; intros i; cbn [replace_char].
  - rewrite str_app_nil_l, Nat.add_0_r. by apply scan_go, quote_ends.
  - destruct (Ascii.eqb_spec a q) as [->|Ha].
    + rewrite !str_app_cons, str_app_nil_l. rewrite (scan_pair st st) by apply quote_doubled.
      rewrite IH. f_equal. unfold str_len. cbn [String.length]. lia.
    + rewrite !str_app_cons, str_app_nil_l. rewrite (scan_go st st) by by apply quote_inside.
      rewrite IH. f_equal. unfold str_len. cbn [String.length]. lia.
Qed.

Lemma scan_open_quote body i :
  scan_from i st (replace_char q (String q (String q "")) body) = [].
Proof.
  revert i. induction body as [|a body IH]; intros i; cbn [replace_char]; [done|].
  destruct (Ascii.eqb_spec a q) as [->|Ha].
  - rewrite !str_app_cons, str_app_nil_l. rewrite (scan_pair st st) by apply quote_doubled. apply IH.
  - rewrite !str_app_cons, str_app_nil_l. rewrite (scan_go st st) by by apply quote_inside. apply IH.
Qed.
End Quotes.

Lemma scan_line body rest i :
  contains_char line_feed body = false → rest = ""%string ∨ str_head rest = Some line_feed →
  scan_from i LineComment (body +:+ rest) = scan_from (i + str_len body) Normal rest.
Proof.
  intros Hb Hr. revert i. induction body as [|a body IH]; intros i.
  - rewrite str_app_nil_l, Nat.add_0_r. destruct rest as [|a rest]; [done|].
    destruct Hr as [|[= ->]]; [done|].
    rewrite !(scan_go _ Normal) by done. done.
  - cbn [contains_char] in Hb. apply orb_false_iff in Hb as [Ha Hb]. rewrite str_app_cons.
    rewrite (scan_go _ LineComment).
    + rewrite IH by done. f_equal. unfold str_len. cbn [String.length]. lia.
    + cbn [scan_step]. unfold step_inside_line_comment. unfold line_feed in Ha. by rewrite Ha.
Qed.

(** Inside a block comment that does not end here. *)
Lemma block_step a t :
  starts_with "*/" (String a t) = false → scan_step BlockComment a (str_head t) = go BlockComment.
Proof.
  intros Hs. cbn [scan_step]. unfold step_inside_block_comment, starts_with in *. revert Hs.
  cbn [strip_prefix]. rewrite (Ascii.eqb_sym "*" a). destruct (Ascii.eqb a "*"); [|done].
  destruct t as [|b t]; [done|]. cbn [strip_prefix str_head next_is andb].
  rewrite (Ascii.eqb_sym "/" b). by destruct (Ascii.eqb b "/").
Qed.

Lemma scan_block body rest i :
  contains_str "*/" (body +:+ "*") = false →
  scan_from i BlockComment (body +:+ "*/" +:+ rest) = scan_from (i + str_len body + 2) Normal rest.
Proof.
  revert i. induction body as [|a body IH]; intros i Hb.
  - rewrite str_app_nil_l. change ("*/" +:+ rest) with (String "*" (String "/" rest)).
    rewrite (scan_pair BlockComment Normal) by done. f_equal. cbn. lia.
  - rewrite str_app_cons in *. cbn [contains_str] in Hb. apply orb_false_iff in Hb as [Ha Hb].
    rewrite (scan_go _ BlockComment).
    + rewrite IH by done. f_equal. unfold str_len. cbn [String.length]. lia.
    + apply block_step. destruct body as [|b body].
      * unfold starts_with. cbn. by destruct a as [[] [] [] [] [] [] [] []].
      * unfold starts_with in *. rewrite !str_app_cons in *. cbn [strip_prefix] in *.
        by repeat case_match.
Qed.

Lemma scan_open_block body i :
  contains_str "*/" body = false → scan_from i BlockComment body = [].
Proof.
  revert i. induction body as [|a body IH]; intros i Hb; [done|].
  cbn [contains_str] in Hb. apply orb_false_iff in Hb as [Ha Hb].
  rewrite (scan_go _ BlockComment) by by apply block_step. by apply IH.
Qed.

Lemma scan_opaque o rest i :
  opaque o rest → scan_from i Normal (o +:+ rest) = scan_from (i + str_len o) Normal rest.
Proof.
  destruct 1 as [q body rest Hq Hr|q body Hq|body rest Hb Hr|body rest Hb|body Hb].
  - unfold quoted. rewrite str_app_cons, str_app_assoc, str_app_char.
    assert (∀ st, scan_step Normal q (str_head (replace_char q (String q (String q "")) body
        +:+ String q rest)) = go st →
      (∀ a next, scan_step st a next = step_inside_quotes st q a next) →
      scan_from i Normal (String q (replace_char q (String q (String q "")) body +:+ String q rest))
      = scan_from (i + str_len (String q (replace_char q (String q (String q "")) body
          +:+ String q ""))) Normal rest) as H.
    { intros st Hs Hi. rewrite (scan_go _ st), (scan_through_quotes q st) by done. f_equal.
      change (str_len (String q (replace_char q (String q (String q "")) body +:+ String q "")))
        with (S (str_len (replace_char q (String q (String q "")) body +:+ String q ""))).
      rewrite str_len_app. change (str_len (String q "")) with 1%nat. lia. }
    destruct Hq as [-> | ->]; [by apply (H SingleQuoted)|by apply (H DoubleQuoted)].
  - rewrite str_app_nil_r. change (scan_from (i + ?k) Normal "") with (@nil nat).
    destruct Hq as [-> | ->]; [rewrite (scan_go _ SingleQuoted) by done
      |rewrite (scan_go _ DoubleQuoted) by done]; by apply scan_open_quote.
  - change (("--" +:+ body) +:+ rest) with (String "-" (String "-" (body +:+ rest))).
    rewrite (scan_pair _ LineComment) by done. rewrite scan_line by done. f_equal.
    rewrite str_len_app. cbn. lia.
  - rewrite !str_app_assoc. change ("/*" +:+ body +:+ "*/" +:+ rest)
      with (String "/" (String "*" (body +:+ "*/" +:+ rest))).
    rewrite (scan_pair _ BlockComment) by done. rewrite scan_block by done. f_equal.
    rewrite !str_len_app. cbn. lia.
  - rewrite str_app_nil_r. change ("/*" +:+ body) with (String "/" (String "*" body)).
    rewrite (scan_pair _ BlockComment) by done. by rewrite scan_open_block.
Qed.

Lemma plain_start_step c rest : plain_start c rest → scan_step Normal c (str_head rest) = go Normal.
Proof.
  intros (Hm & Hs & Hd & Hl & Hb). cbn [scan_step]. unfold step_outside_literal.
  rewrite (proj2 (Ascii.eqb_neq c "?")), (proj2 (Ascii.eqb_neq c squote)),
    (proj2 (Ascii.eqb_neq c dquote)) by done.
  assert (∀ x d, ¬ (c = x ∧ str_head rest = Some d) →
    Ascii.eqb c x && next_is d (str_head rest) = false) as Hpair.
  { intros x d Hn. destruct (Ascii.eqb_spec c x) as [->|]; [|done]. cbn [andb].
    destruct (str_head rest) as [e|]; [|done]. cbn [next_is].
    apply Ascii.eqb_neq. intros ->. by apply Hn. }
  by rewrite !Hpair by done.
Qed.

(** The scanner finds exactly the placeholder tokens. *)
Lemma lexes_scan s ts i : lexes s ts → scan_from i Normal s = placeholder_offsets i ts.
Proof.
  intros Hl. revert i. induction Hl as [|rest ts _ IH|o rest ts Ho _ IH|c rest ts Hc _ IH]; intros i.
  - done.
  - destruct (scan_question rest i) as (_ & -> & _). cbn. by rewrite IH.
  - rewrite scan_opaque by done. apply IH.
  - rewrite (scan_go _ Normal) by by apply plain_start_step. apply IH.
Qed.

(** *** Every text has tokens *)
Lemma quote_split q t :
  (∃ body rest, t = replace_char q (String q (String q "")) body +:+ String q rest ∧
     not_quote_head q rest = true) ∨
  ∃ body, t = replace_char q (String q (String q "")) body.
Proof.
  induction t as [|a t IH1 IH2] using str_two_ind; [by right; exists ""%string|].
  destruct (decide (a = q)) as [->|Ha].
  - destruct t as [|b t]; [by left; exists ""%string, ""%string|].
    destruct (decide (b = q)) as [->|Hb].
    + destruct (IH2 q t eq_refl) as [(body & rest & -> & Hr)|(body & ->)].
      * left. exists (String q body), rest. split; [|done]. cbn [replace_char].
        by rewrite Ascii.eqb_refl, !str_app_cons, str_app_nil_l.
      * right. exists (String q body). cbn [replace_char].
        by rewrite Ascii.eqb_refl, !str_app_cons, str_app_nil_l.
    + left. exists ""%string, (String b t). split; [done|]. cbn. apply negb_true_iff.
      by apply Ascii.eqb_neq.
  - assert (∀ body, replace_char q (String q (String q "")) (String a body)
      = String a (replace_char q (String q (String q "")) body)) as Hr.
    { intros body. cbn [replace_char]. apply Ascii.eqb_neq in Ha. by rewrite Ha. }
    destruct IH1 as [(body & rest & -> & Hq)|(body & ->)].
    + left. exists (String a body), rest. by rewrite Hr, str_app_cons.
    + right. exists (String a body). by rewrite Hr.
Qed.

Lemma line_split t : ∃ body rest, t = body +:+ rest ∧ contains_char line_feed body = false ∧
  (rest = ""%string ∨ str_head rest = Some line_feed).
Proof.
  induction t as [|a t (body & rest & -> & Hb & Hr)]; [by exists ""%string, ""%string; auto|].
  destruct (decide (a = line_feed)) as [->|Ha].
  - exists ""%string, (String line_feed (body +:+ rest)). by auto.
  - exists (String a body), rest. split; [done|]. split; [|done]. cbn [contains_char].
    apply Ascii.eqb_neq in Ha. by rewrite Ha.
Qed.

Lemma block_split t :
  (∃ body rest, t = body +:+ "*/" +:+ rest ∧ contains_str "*/" (body +:+ "*") = false) ∨
  contains_str "*/" t = false.
Proof.
  induction t as [|a t IH]; [by right|].
  destruct (starts_with "*/" (String a t)) eqn:E.
  - left. unfold starts_with in E. destruct (strip_prefix "*/" (String a t)) as [r|] eqn:Er; [|done].
    apply strip_prefix_Some in Er as ->. by exists ""%string, r.
  - destruct IH as [(body & rest & -> & Hb)|Ht].
    + left. exists (String a body), rest. split; [done|]. rewrite str_app_cons.
      cbn [contains_str]. rewrite Hb, orb_false_r.
      destruct body as [|b body]; [by destruct a as [[] [] [] [] [] [] [] []]|].
      unfold starts_with in *. rewrite !str_app_cons in *. cbn [strip_prefix] in *.
      by repeat case_match.
    + right. cbn [contains_str]. by rewrite E.
Qed.

Lemma lexes_exists s : ∃ ts, lexes s ts.
Proof.
  induction s as [s IH] using (induction_ltof1 _ str_len). unfold ltof, str_len in IH.
  assert (∀ o rest, s = o +:+ rest → o ≠ ""%string → opaque o rest → ∃ ts, lexes s ts) as Hopaque.
  { intros o rest -> Hne Ho. destruct (IH rest) as [ts Hts].
    - destruct o; [done|]. rewrite str_app_cons. cbn [String.length].
      fold (str_len (o +:+ rest)) (str_len rest). rewrite str_len_app. lia.
    - exists (Opaque o :: ts). by constructor. }
  destruct s as [|c t]; [exists []; constructor|].
  destruct (IH t) as [ts Hts]; [cbn [String.length]; lia|].
  destruct (decide (c = "?"%char)) as [->|Hm]; [by exists (Placeholder :: ts); constructor|].
  destruct (decide (c = squote ∨ c = dquote)) as [Hq|Hq].
  { destruct (quote_split c t) as [(body & rest & -> & Hr)|(body & ->)].
    - apply (Hopaque (quoted c body) rest); [|done|by constructor]. unfold quoted.
      by rewrite str_app_cons, str_app_assoc.
    - apply (Hopaque (String c (replace_char c (String c (String c "")) body)) ""%string);
        [by rewrite str_app_nil_r|done|by constructor]. }
  destruct (decide (c = "-"%char ∧ str_head t = Some "-"%char)) as [[-> Ht]|Hl].
  { destruct t as [|b t]; [done|]. injection Ht as ->.
    destruct (line_split t) as (body & rest & -> & Hb & Hr).
    apply (Hopaque ("--" +:+ body) rest); [by rewrite str_app_assoc|done|by constructor]. }
  destruct (decide (c = "/"%char ∧ str_head t = Some "*"%char)) as [[-> Ht]|Hb].
  { destruct t as [|b t]; [done|]. injection Ht as ->.
    destruct (block_split t) as [(body & rest & -> & Hb)|Hb].
    - apply (Hopaque ("/*" +:+ body +:+ "*/") rest); [by rewrite !str_app_assoc|done|by constructor].
    - apply (Hopaque ("/*" +:+ t) ""%string); [by rewrite str_app_nil_r|done|by constructor]. }
  exists (Plain c :: ts). constructor; [|done]. split; [done|]. tauto.
Qed.

(** *** Tokens and segments *)
Lemma segments_cons ts : ∃ seg segs, segments ts = seg :: segs.
Proof.
  induction ts as [|[|o|c] ts (seg & segs & E)]; cbn [segments]; rewrite ?E; by eexists _, _.
Qed.

Lemma length_segments ts : pred (length (segments ts)) = placeholders ts.
Proof.
  unfold placeholders. induction ts as [|[|o|c] ts IH]; [done|..];
    destruct (segments_cons ts) as (seg & segs & E); cbn [segments] in *; rewrite E in *;
    cbn [length pred push] in *.
  - rewrite filter_cons_True by done. cbn [length]. by rewrite <- IH.
  - by rewrite filter_cons_False by (by intros []).
  - by rewrite filter_cons_False by (by intros []).
Qed.

Lemma fill_push p segs lits : segs ≠ [] → fill (push p segs) lits = p +:+ fill segs lits.
Proof. destruct segs as [|seg segs]; [done|]. destruct lits; [done|]. cbn. by rewrite str_app_assoc. Qed.

Lemma fill_segments ts lits :
  length lits = placeholders ts → fill (segments ts) lits = render ts lits.
Proof.
  unfold placeholders. revert lits. induction ts as [|[|o|c] ts IH]; intros lits Hl.
  - by destruct lits.
  - rewrite filter_cons_True in Hl by done. destruct lits as [|l lits]; [done|].
    cbn [segments fill render]. rewrite str_app_nil_l, IH; [done|]. by injection Hl.
  - rewrite filter_cons_False in Hl by (by intros []). cbn [segments render].
    rewrite fill_push by (by destruct (segments_cons ts) as (? & ? & ->)). by rewrite IH.
  - rewrite filter_cons_False in Hl by (by intros []). cbn [segments render].
    rewrite fill_push by (by destruct (segments_cons ts) as (? & ? & ->)). by rewrite IH.
Qed.

Lemma offsets_push p segs i : segs ≠ [] → offsets i (push p segs) = offsets (i + str_len p) segs.
Proof.
  destruct segs as [|seg [|seg' segs]]; [done|done|]. intros _. cbn [push offsets].
  by rewrite str_len_app, Nat.add_assoc.
Qed.

Lemma offsets_segments ts i : offsets i (segments ts) = placeholder_offsets i ts.
Proof.
  revert i. induction ts as [|[|o|c] ts IH]; intros i; [done|..]; cbn [segments placeholder_offsets];
    destruct (segments_cons ts) as (seg & segs & E); rewrite <- IH, ?E in *.
  - cbn [offsets]. by rewrite Nat.add_0_r.
  - by rewrite offsets_push.
  - rewrite offsets_push by done. by rewrite Nat.add_1_r.
Qed.

Lemma str_app_inj_len (s1 s2 t1 t2 : string) :
  str_len s1 = str_len s2 → s1 +:+ t1 = s2 +:+ t2 → s1 = s2 ∧ t1 = t2.
Proof.
  revert s2. induction s1 as [|a s1 IH]; intros [|b s2] Hl Ht; cbn in Hl; try done.
  rewrite !str_app_cons in Ht. injection Ht as -> Ht.
  destruct (IH s2 ltac:(unfold str_len; lia) Ht) as [-> ->]. done.
Qed.

(** Segments are determined by the text and the places between them. *)
Lemma segments_unique segs segs' i :
  segs ≠ [] → segs' ≠ [] → offsets i segs = offsets i segs' →
  fill segs (replicate (pred (length segs)) "?") = fill segs' (replicate (pred (length segs')) "?") →
  segs = segs'.
Proof.
  revert segs' i. induction segs as [|seg segs IH]; [done|]. intros [|seg' segs'] i _ Hne; [done|].
  destruct segs as [|s2 segs], segs' as [|s2' segs']; [|done..|].
  { intros _ Hf. cbn in Hf. by rewrite Hf. }
  cbn [offsets length pred replicate fill]. intros [= Hi Ho] Hf.
  assert (seg = seg' ∧ String "?" (fill (s2 :: segs) (replicate (length segs) "?"))
    = String "?" (fill (s2' :: segs') (replicate (length segs') "?"))) as [-> Hrest].
  { apply str_app_inj_len; [lia|exact Hf]. }
  injection Hrest as Hrest. apply (f_equal (cons seg')). apply (IH _ (S (i + str_len seg'))); [done|done|exact Ho|exact Hrest].
Qed.

Lemma lexes_text s ts : lexes s ts → render ts (replicate (placeholders ts) "?") = s.
Proof.
  unfold placeholders. induction 1 as [|rest ts _ IH|o rest ts Ho _ IH|c rest ts Hc _ IH].
  - done.
  - rewrite filter_cons_True by done. cbn [length replicate render]. by rewrite IH.
  - rewrite filter_cons_False by (by intros []). cbn [render]. by rewrite IH.
  - rewrite filter_cons_False by (by intros []). cbn [render]. by rewrite IH.
Qed.

Lemma segmented_text st s segs :
  segmented st s segs → s = fill segs (replicate (pred (length segs)) "?") ∧ segs ≠ [].
Proof.
  induction 1 as [st s Hs|st seg s segs Hseg Hf Hs [IH Hne]]; [done|]. split; [|done].
  destruct segs as [|seg' segs]; [done|]. by rewrite IH at 1.
Qed.

Lemma lexes_segmented s ts : lexes s ts → segmented Normal s (segments ts).
Proof.
  intros Hl. destruct (segmented_exists Normal s) as [segs Hs].
  destruct (segmented_text _ _ _ Hs) as [Hf Hne].
  assert (segs = segments ts) as <-; [|done].
  apply (segments_unique _ _ 0); [done|by destruct (segments_cons ts) as (? & ? & ->)|..].
  - by rewrite offsets_segments, <- (lexes_scan s ts), (segmented_offsets Normal s segs).
  - rewrite <- Hf, length_segments, fill_segments by apply length_replicate. symmetry.
    by apply lexes_text.
Qed.

(** ** Character boundaries *)
Definition starts_char (s : string) : bool :=
  match s with EmptyString => true | String a _ => negb (is_cont (byte_of_ascii a)) end.

(** A text that begins with a character and is UTF-8 from there. *)
Definition valid_from (s : string) : Prop := ∃ i, utf8_check i (as_bytes s) = None.

Lemma valid_from_starts s : valid_from s → starts_char s = true.
Proof.
  intros [i Hi]. destruct s as [|a s]; [done|]. cbn [starts_char]. apply negb_true_iff.
  change (as_bytes (String a s)) with (byte_of_ascii a :: as_bytes s) in Hi.
  destruct (is_cont (byte_of_ascii a)) eqn:Hc; [|done]. exfalso. revert Hi. clear -Hc.
  unfold is_cont, byte_in in Hc. rewrite andb_true_iff, !Z.leb_le in Hc.
  cbn [utf8_check]. unfold byte_in.
  rewrite (proj2 (Z.ltb_ge _ _)) by lia.
  do 3 (rewrite (proj2 (Z.leb_gt _ _)) by lia; cbn [andb]). done.
Qed.

Lemma second_not_ascii b b1 :
  byte_val b1 < 128 →
  is_cont b1 = false ∧ second_of_3 b b1 = false ∧ second_of_4 b b1 = false.
Proof.
  intros H. assert (∀ lo hi, 128 ≤ lo → byte_in lo hi b1 = false) as Hf.
  { intros lo hi Hlo. unfold byte_in. by rewrite (proj2 (Z.leb_gt _ _)) by lia. }
  unfold second_of_3, second_of_4, is_cont. rewrite !Hf by lia. by repeat case_match.
Qed.

(** What follows an ASCII character is UTF-8 of its own. *)
Lemma utf8_check_after i bs b rest :
  byte_val b < 128 → utf8_check i (bs ++ b :: rest) = None → ∃ j, utf8_check j rest = None.
Proof.
  intros Hb. remember (length bs) as n eqn:En. revert i bs En.
  induction n as [n IH] using lt_wf_ind. intros i bs ->.
  destruct bs as [|b0 bs]; cbn [app utf8_check].
  { rewrite (proj2 (Z.ltb_lt _ _) Hb). by eexists. }
  destruct (byte_val b0 <? 128); [apply (IH (length bs)); [cbn; lia|done]|].
  pose proof (second_not_ascii b0 b Hb) as (N1 & N2 & N3).
  destruct (byte_in 194 223 b0).
  { destruct bs as [|b1 bs]; cbn [app]; [by rewrite N1|].
    destruct (is_cont b1); [|done]. apply (IH (length bs)); [cbn; lia|done]. }
  destruct (byte_in 224 239 b0).
  { destruct bs as [|b1 bs]; cbn [app]; [by rewrite N2|]. destruct (second_of_3 b0 b1); [|done].
    destruct bs as [|b2 bs]; cbn [app]; [by rewrite N1|]. destruct (is_cont b2); [|done].
    apply (IH (length bs)); [cbn; lia|done]. }
  destruct (byte_in 240 244 b0); [|done].
  destruct bs as [|b1 bs]; cbn [app]; [by rewrite N3|]. destruct (second_of_4 b0 b1); [|done].
  destruct bs as [|b2 bs]; cbn [app]; [by rewrite N1|]. destruct (is_cont b2); [|done].
  destruct bs as [|b3 bs]; cbn [app]; [by rewrite N1|]. destruct (is_cont b3); [|done].
  apply (IH (length bs)); [cbn; lia|done].
Qed.

Lemma valid_from_after a s : valid_from (a +:+ String "?" s) → valid_from s.
Proof. intros [i Hi]. rewrite as_bytes_app in Hi. by eapply utf8_check_after in Hi. Qed.

Lemma boundary_app s1 s2 :
  starts_char s2 = true → is_char_boundary (s1 +:+ s2) (str_len s1) = true.
Proof.
  intros Hs. unfold is_char_boundary. rewrite str_len_app.
  destruct (Nat.eqb_spec (str_len s1) (str_len s1 + str_len s2)) as [|Hne]; [done|].
  destruct s2 as [|a s2]; [cbn in Hne; lia|].
  assert (String.get (str_len s1) (s1 +:+ String a s2) = Some a) as ->; [|done].
  clear. induction s1 as [|b s1 IH]; [done|]. rewrite str_app_cons. exact IH.
Qed.

(** Replacing the placeholder between two texts. *)
Lemma replace_at_question a literal b :
  starts_char (a +:+ String "?" b) = true → starts_char b = true →
  replace_at (str_len a) literal (a +:+ String "?" b) = Ok (a +:+ literal +:+ b).
Proof.
  intros Ha Hb. unfold replace_at, str_slice_from, str_slice.
  assert (S (str_len a) = str_len (a +:+ "?")) as El
    by (rewrite str_len_app; unfold str_len; cbn [String.length]; lia).
  assert (a +:+ String "?" b = (a +:+ "?") +:+ b) as E by (by rewrite str_app_assoc).
  pose proof (boundary_app "" (a +:+ String "?" b) Ha) as B0.
  rewrite str_app_nil_l in B0. change (str_len "") with 0%nat in B0.
  pose proof (boundary_app a (String "?" b) eq_refl) as B1.
  pose proof (boundary_app (a +:+ "?") b Hb) as B2. rewrite <- E, <- El in B2.
  assert (is_char_boundary (a +:+ String "?" b) (str_len (a +:+ String "?" b)) = true) as B3.
  { unfold is_char_boundary. by rewrite Nat.eqb_refl. }
  rewrite B0, B1, B2, B3, !(proj2 (Nat.leb_le _ _)).
  - cbn [andb mbind outcome_bind]. rewrite Nat.sub_0_r. do 2 f_equal.
    + apply (substring_app "" a).
    + f_equal. rewrite E at 2. rewrite <- (str_app_nil_r b) at 2.
      replace (str_len (a +:+ String "?" b) - S (str_len a))%nat with (str_len b).
      * rewrite El. apply substring_app.
      * rewrite E, str_len_app, El. lia.
  - lia.
  - rewrite str_len_app. unfold str_len. cbn [String.length]. lia.
Qed.

(** ** Substitution *)
Section Substitution.
Context `{UnicodeCase, ParameterText}.

(** The literal of a parameter. *)
Definition literal_of (ps : list (option SqlParam)) (i : nat) : outcome QueryError string :=
  match ps !! i with
  | Some (Some p) => to_sql_literal p
  | Some None => Err (ParameterBindingError i "Parameter not bound")
  | None => Panic
  end.

(** The literals of the parameters [k], [k + 1], ..., the last one evaluated first. *)
Fixpoint literals (ps : list (option SqlParam)) (k n : nat) : outcome QueryError (list string) :=
  match n with
  | O => Ok []
  | S n => rest ← literals ps (S k) n; literal ← literal_of ps k; Ok (literal :: rest)
  end.

Context `{!ParameterTextLaws H0}.

Lemma show_nat_head z : 0 ≤ z → starts_char (show_nat z) = true ∧ show_nat z ≠ ""%string.
Proof.
  intros Hz. destruct (show_nat_spec z Hz) as (_ & Hne & Hd). split; [|done].
  destruct (show_nat z) as [|a s]; [done|]. cbn in Hd. apply andb_true_iff in Hd as [Ha _].
  cbn [starts_char]. apply negb_true_iff, ascii_not_cont. revert Ha. clear.
  destruct a as [[] [] [] [] [] [] [] []]; done.
Qed.

(** A literal is not empty and begins with an ASCII character. *)
Lemma literal_head p l : to_sql_literal p = Ok l → starts_char l = true ∧ l ≠ ""%string.
Proof.
  destruct p as [|b|i|f|s|b]; cbn [to_sql_literal].
  - by intros [= <-].
  - by intros [= <-]; destruct b.
  - intros [= <-]. unfold show_int. destruct (Z.ltb_spec i 0); [done|]. by apply show_nat_head.
  - intros Hf. assert (l = show_f64 f ∧ is_decimal_text (show_f64 f) = true) as [-> Hd].
    { pose proof (show_f64_decimal f). destruct f; by simplify_eq. }
    revert Hd. clear. destruct (show_f64 f) as [|a w]; [done|]. cbn [starts_char].
    destruct a as [[] [] [] [] [] [] [] []]; done.
  - destruct (contains_sql_injection_pattern s); [done|]. by intros [= <-].
  - by intros [= <-].
Qed.

Lemma starts_char_app s t : starts_char (s +:+ t) = true → s ≠ ""%string → starts_char s = true.
Proof. by destruct s. Qed.

Lemma starts_char_fill segs st s lits :
  segmented st s segs → starts_char s = true →
  Forall (λ l, starts_char l = true ∧ l ≠ ""%string) lits →
  starts_char (fill segs lits) = true.
Proof.
  intros Hs Hc Hl. destruct Hs as [st s Hs|st seg s segs Hseg Hf Hs].
  - cbn [fill]. destruct lits as [|l lits]; [done|].
    inversion Hl as [|? ? [Hl1 Hl2] _]; subst. destruct s; [by destruct l|done].
  - cbn [fill]. destruct lits as [|l lits]; [by destruct seg|].
    inversion Hl as [|? ? [Hl1 Hl2] _]; subst. destruct seg; [by destruct l|done].
Qed.

Lemma length_offsets i segs : length (offsets i segs) = pred (length segs).
Proof.
  revert i. induction segs as [|s [|s' segs] IH]; intros i; [done|done|].
  change (S (length (offsets (S (i + str_len s)) (s' :: segs))) = S (length segs)).
  by rewrite IH.
Qed.

Lemma imap_pair_zip {A} (xs : list A) k :
  imap (λ i x, (k + i, x)%nat) xs = zip (seq k (length xs)) xs.
Proof.
  revert k. induction xs as [|x xs IH]; intros k; [done|].
  rewrite imap_cons. cbn [length seq zip zip_with]. rewrite Nat.add_0_r. f_equal.
  rewrite <- IH. apply imap_ext. intros i y _. cbn. f_equal. lia.
Qed.

Lemma literals_heads ps k n lits :
  literals ps k n = Ok lits →
  length lits = n ∧ Forall (λ l, starts_char l = true ∧ l ≠ ""%string) lits.
Proof.
  revert k lits. induction n as [|n IH]; intros k lits; cbn [literals]; [by intros [= <-]|].
  intros (rest & Hr & (l & Hl & [= <-])%bind_ok)%bind_ok.
  destruct (IH _ _ Hr) as [Hn Hf]. split; [cbn; by rewrite Hn|]. constructor; [|done].
  unfold literal_of in Hl. destruct (ps !! k) as [[p|]|]; [|done..]. by eapply literal_head.
Qed.

(** The loop from the last placeholder to the first, behind an untouched text. *)
Lemma substitute_segments ps st s segs pre k :
  segmented st s segs → starts_char (pre +:+ s) = true → valid_from s →
  foldr (λ p text, substitute ps text p) (Ok (pre +:+ s))
    (zip (seq k (pred (length segs))) (offsets (str_len pre) segs))
  = (lits ← literals ps k (pred (length segs)); Ok (pre +:+ fill segs lits)).
Proof.
  intros Hs. revert pre k. induction Hs as [st s Hs|st seg s segs Hseg Hf Hs IH];
    intros pre k Hc Hv.
  - done.
  - pose proof (valid_from_after _ _ Hv) as Hv'.
    assert (segs ≠ []) as Hne by (by inversion Hs).
    destruct segs as [|seg' segs']; [done|].
    change (offsets (str_len pre) (seg :: seg' :: segs')) with
      ((str_len pre + str_len seg)%nat
       :: offsets (S (str_len pre + str_len seg)) (seg' :: segs')).
    cbn [length pred seq].
    change (length segs') with (pred (length (seg' :: segs'))).
    cbn [zip zip_with foldr literals].
    assert (pre +:+ seg +:+ String "?" s = (pre +:+ seg +:+ "?") +:+ s) as E
      by (by rewrite !str_app_assoc).
    assert (S (str_len pre + str_len seg) = str_len (pre +:+ seg +:+ "?")) as El
      by (rewrite !str_len_app; unfold str_len; cbn [String.length]; lia).
    rewrite E, El. rewrite E in Hc.
    rewrite (IH _ (S k) Hc Hv').
    destruct (literals ps (S k) _) as [lits|e|] eqn:Hl; [|done..].
    destruct (literals_heads _ _ _ _ Hl) as [_ Hf'].
    cbn [mbind outcome_bind]. unfold substitute, literal_of. cbn [fst snd].
    destruct (ps !! k) as [[p|]|]; [|done..]. cbn [ok_or mbind outcome_bind].
    destruct (to_sql_literal p) as [l|e|]; [|done..]. cbn [mbind outcome_bind].
    rewrite !str_app_assoc, str_app_char, <- (str_app_assoc pre seg), <- str_len_app.
    rewrite replace_at_question; [by rewrite !str_app_assoc| |].
    + destruct (pre +:+ seg) as [|a w] eqn:Ew; [done|]. rewrite <- str_app_assoc, Ew in Hc. done.
    + eapply starts_char_fill; [exact Hs| |done]. by apply valid_from_starts.
Qed.

Lemma foldl_reverse {A B} (f : A → B → A) a l :
  foldl f a (reverse l) = foldr (λ b x, f x b) a l.
Proof. induction l as [|b l IH]; [done|]. by rewrite reverse_cons, foldl_app, IH. Qed.

(** [build_sql] puts the literals between the segments. *)
Lemma build_sql_fill stmt segs :
  valid_str (sql stmt) → segmented Normal (sql stmt) segs →
  build_sql stmt =
    (if (length (parameters stmt) <? pred (length segs))%nat
     then Err (ParameterBindingError (length (parameters stmt)) "Not enough parameters bound")
     else lits ← literals (parameters stmt) 0 (pred (length segs)); Ok (fill segs lits)).
Proof.
  intros Hv Hs. unfold build_sql, scan_placeholders.
  rewrite (segmented_offsets Normal _ segs 0 Hs), length_offsets.
  destruct (_ <? _)%nat; [done|]. rewrite foldl_reverse.
  change (imap pair (offsets 0 segs)) with (imap (λ i x, (0 + i, x)%nat) (offsets 0 segs)).
  rewrite imap_pair_zip, length_offsets.
  apply (substitute_segments (parameters stmt) Normal (sql stmt) segs "" 0); [done| |].
  - apply (valid_from_starts (sql stmt)). by exists 0%nat.
  - by exists 0%nat.
Qed.
End Substitution.
