(* ===== verification/StatementSafety.v ===== *)
(** * Substituted statements

    What [build_sql] does with the bound parameters, when the text it produces keeps
    the context of every character, and a statement for which it does not. *)
From S2P Require Import Prelude MachineInt RustStr StrText Errors Float64 Statement.
From S2P Require Import StatementText.
From Stdlib Require Import Ascii Floats.SpecFloat.

#[local] Open Scope Z_scope.

(** ** Literals in their context *)
Definition is_plain (a : ascii) : bool :=
  is_digit a || is_ascii_alphabetic a || Ascii.eqb a ".".

Lemma plain_step a next : is_plain a = true → scan_step Normal a next = go Normal.
Proof. destruct a as [[] [] [] [] [] [] [] []]; done. Qed.

Lemma plain_pair a b : is_plain a = true → is_pair a b = false ∧ is_pair b a = false.
Proof.
  intros Ha. unfold is_pair.
  assert (∀ c, is_plain c = false → Ascii.eqb a c = false) as Hc.
  { intros c Hc. apply Ascii.eqb_neq. intros ->. congruence. }
  rewrite !Hc by done. by rewrite !andb_false_r.
Qed.

Lemma final_plain s : str_forall is_plain s = true → final Normal s = Normal.
Proof.
  induction s as [|c s IH1 IH2] using str_two_ind; [done|]. cbn [str_forall].
  rewrite andb_true_iff. intros [Hc Hs]. destruct s as [|d s].
  - cbn [final str_head]. by rewrite plain_step.
  - destruct (scan_cons c d s Normal 0) as (_ & -> & _). rewrite plain_step by done. by apply IH1.
Qed.

(** The text after an opening quote closes the quote. *)
Lemma final_quoted_body s :
  final SingleQuoted (replace_char squote (String squote (String squote "")) s +:+ String squote "")
  = Normal.
Proof.
  induction s as [|a s IH]; [done|]. cbn [replace_char].
  destruct (Ascii.eqb_spec a squote) as [->|Hne].
  - rewrite !str_app_cons, str_app_nil_l.
    match goal with |- final _ (String _ (String _ ?t)) = _ =>
      destruct (scan_cons squote squote t SingleQuoted 0) as (_ & -> & _) end.
    exact IH.
  - rewrite str_app_char, str_app_cons.
    destruct (replace_char _ _ s +:+ String squote "") as [|d t] eqn:E.
    { by destruct (replace_char squote (String squote (String squote "")) s). }
    destruct (scan_cons a d t SingleQuoted 0) as (_ & -> & _). cbn [scan_step].
    unfold step_inside_quotes. apply Ascii.eqb_neq in Hne. rewrite Hne. exact IH.
Qed.

Lemma final_quoted s : final Normal (quoted squote s) = Normal.
Proof.
  unfold quoted.
  destruct (replace_char _ _ s +:+ String squote "") as [|d t] eqn:E.
  { by destruct (replace_char squote (String squote (String squote "")) s). }
  destruct (scan_cons squote d t Normal 0) as (_ & -> & _).
  cbn [scan_step step_outside_literal]. change (final SingleQuoted (String d t) = Normal).
  rewrite <- E. apply final_quoted_body.
Qed.

Lemma str_last_app s a : str_last (s +:+ String a "") = Some a.
Proof.
  induction s as [|b s IH]; [done|]. rewrite str_app_cons.
  cbn [str_last]. destruct (s +:+ String a "") eqn:E; [by destruct s|done].
Qed.

Lemma str_last_forall P s a : str_forall P s = true → str_last s = Some a → P a = true.
Proof.
  induction s as [|b s IH]; [done|]. cbn [str_forall str_last]. rewrite andb_true_iff.
  intros [Hb Hs]. destruct s as [|c s]; [by intros [= <-]|by apply IH].
Qed.

(** What may stand next to a literal. *)
Definition literal_ok (l : string) : Prop :=
  final Normal l = Normal ∧ l ≠ ""%string ∧
  (∀ a b, str_head l = Some b → is_pair a b = true → a = "-"%char ∨ a = squote) ∧
  (∀ a b, str_last l = Some a → is_pair a b = true → b = squote).

Lemma plain_literal_ok l : str_forall is_plain l = true → l ≠ ""%string → literal_ok l.
Proof.
  intros Hl Hne. split_and!; [by apply final_plain|done| |].
  - intros a b Hb Hp. destruct l as [|c l]; [done|]. injection Hb as ->. cbn in Hl.
    apply andb_true_iff in Hl as [Hc _]. destruct (plain_pair b a Hc) as [_ E]. by rewrite E in Hp.
  - intros a b Ha Hp. pose proof (str_last_forall _ _ _ Hl Ha) as Hc.
    destruct (plain_pair a b Hc) as [E _]. by rewrite E in Hp.
Qed.

Lemma negative_literal_ok l :
  str_forall is_plain l = true → l ≠ ""%string → literal_ok (String "-" l).
Proof.
  intros Hl Hne. destruct (plain_literal_ok l Hl Hne) as (Hf & _ & _ & Hlast).
  destruct l as [|c l]; [done|]. split_and!; [|done| |].
  - destruct (scan_cons "-" c l Normal 0) as (_ & -> & _).
    assert (scan_step Normal "-" (Some c) = go Normal) as ->; [|exact Hf].
    cbn in Hl. apply andb_true_iff in Hl as [Hc _]. revert Hc. clear.
    destruct c as [[] [] [] [] [] [] [] []]; done.
  - intros a b [= <-] Hp. left. unfold is_pair in Hp. cbn in Hp.
    rewrite !andb_true_r, !andb_false_r, !orb_false_r in Hp. by apply Ascii.eqb_eq.
  - intros a b Ha Hp. by apply (Hlast a b).
Qed.

Lemma quoted_literal_ok s : literal_ok (quoted squote s).
Proof.
  split_and!; [apply final_quoted|done| |].
  - intros a b [= <-] Hp. right. unfold is_pair in Hp. cbn in Hp.
    rewrite !andb_false_r, !andb_true_r, !orb_false_r in Hp. by apply Ascii.eqb_eq.
  - intros a b Ha Hp. unfold quoted in Ha. rewrite <- str_app_cons, str_last_app in Ha.
    injection Ha as <-. unfold is_pair in Hp. cbn in Hp.
    rewrite orb_false_r in Hp. by apply Ascii.eqb_eq.
Qed.

Section Safety.
Context `{UnicodeCase, ParameterText, !ParameterTextLaws H0}.

Lemma digits_plain s : str_forall is_digit s = true → str_forall is_plain s = true.
Proof. apply str_forall_impl. intros a Ha. unfold is_plain. by rewrite Ha. Qed.

Lemma literal_ok_param p l : to_sql_literal p = Ok l → literal_ok l.
Proof.
  destruct p as [|b|i|f|s|b]; cbn [to_sql_literal].
  - intros [= <-]. by apply plain_literal_ok.
  - intros [= <-]. by destruct b; apply plain_literal_ok.
  - intros [= <-]. unfold show_int. destruct (Z.ltb_spec i 0).
    + destruct (show_nat_spec (- i)) as (_ & Hne & Hd); [lia|].
      apply negative_literal_ok; [by apply digits_plain|done].
    + destruct (show_nat_spec i) as (_ & Hne & Hd); [lia|].
      apply plain_literal_ok; [by apply digits_plain|done].
  - intros Hf. assert (l = show_f64 f ∧ is_decimal_text (show_f64 f) = true) as [-> Hd].
    { pose proof (show_f64_decimal f). destruct f; by simplify_eq. }
    unfold is_decimal_text in Hd. destruct (show_f64 f) as [|a w]; [done|].
    assert (∀ t, str_forall (λ a, is_digit a || (a =? ".")%char) t = true →
      str_forall is_plain t = true) as Hpl.
    { intros t. apply str_forall_impl. intros c Hc. unfold is_plain.
      rewrite orb_true_iff in *. destruct Hc as [->| ->]; [by left|by right]. }
    destruct (Ascii.eqb_spec a "-") as [->|Hne].
    + destruct w as [|c w]; [done|]. apply negative_literal_ok; [by apply Hpl|done].
    + apply plain_literal_ok; [|done]. apply Hpl.
      destruct a as [[] [] [] [] [] [] [] []]; done.
  - destruct (contains_sql_injection_pattern s); [done|]. intros [= <-].
    apply quoted_literal_ok.
  - intros [= <-]. pose proof (hex_encode_digits b) as Hh.
    assert (contains_char squote (hex_encode b) = false) as Hq.
    { by apply (contains_char_forall _ is_hex). }
    rewrite <- (replace_char_absent squote (String squote (String squote "")) (hex_encode b) Hq).
    apply quoted_literal_ok.
Qed.

(** ** The whole statement *)

(** Lists between lists. *)
Fixpoint weave {A} (xs ys : list (list A)) : list A :=
  match xs, ys with
  | x :: xs, y :: ys => x ++ y ++ weave xs ys
  | x :: _, [] => x
  | [], _ => []
  end.

(** No two characters of a pair meet where the literals are put in. *)
Fixpoint seams (segs lits : list string) : bool :=
  match segs, lits with
  | seg :: segs, l :: lits => boundary seg l && boundary l (fill segs lits) && seams segs lits
  | _, _ => true
  end.

(** What else can meet at a literal: a minus sign and a negative number, or a quote and the
    quote of a text literal, in front of the literal or behind it. *)
Definition collides (segs lits : list string) (i : nat) : Prop :=
  ∃ seg l, segs !! i = Some seg ∧ lits !! i = Some l ∧
    ((str_last seg = Some "-"%char ∧ str_head l = Some "-"%char) ∨
     (str_last seg = Some squote ∧ str_head l = Some squote) ∨
     (str_last l = Some squote ∧
      str_head (fill (drop (S i) segs) (drop (S i) lits)) = Some squote)).

Lemma is_pair_right a b : is_pair a b = true → a = "-"%char ∨ a = squote → b = a.
Proof.
  unfold is_pair. intros Hp [-> | ->]; cbn in Hp; rewrite ?orb_false_r in Hp;
    by apply Ascii.eqb_eq.
Qed.

Lemma is_pair_quote a : is_pair a squote = true → a = squote.
Proof. destruct a as [[] [] [] [] [] [] [] []]; done. Qed.

Lemma boundary_false s t : boundary s t = false →
  ∃ a b, str_last s = Some a ∧ str_head t = Some b ∧ is_pair a b = true.
Proof.
  unfold boundary. destruct (str_last s) as [a|], (str_head t) as [b|]; try done.
  rewrite negb_false_iff. by exists a, b.
Qed.

Lemma seams_collide segs lits :
  Forall literal_ok lits → seams segs lits = true ∨ ∃ i, collides segs lits i.
Proof.
  intros Hok. revert segs. induction Hok as [|l lits (_ & _ & Hh & Hl) _ IH];
    intros [|seg segs]; cbn [seams]; auto.
  destruct (boundary seg l) eqn:E1.
  - destruct (boundary l (fill segs lits)) eqn:E2.
    + destruct (IH segs) as [->|[i Hi]]; [by left|]. right. by exists (S i).
    + right. exists O, seg, l. split; [done|]. split; [done|]. right. right.
      apply boundary_false in E2 as (a & b & Ha & Hb & Hp).
      pose proof (Hl a b Ha Hp) as ->. apply is_pair_quote in Hp as ->. by split.
  - right. exists O, seg, l. split; [done|]. split; [done|].
    apply boundary_false in E1 as (a & b & Ha & Hb & Hp). pose proof (Hh a b Hb Hp) as Hor.
    apply is_pair_right in Hp as ->; [|done]. by destruct Hor as [-> | ->]; auto.
Qed.

Lemma boundary_head s t u : s ≠ ""%string → boundary u s = true → boundary u (s +:+ t) = true.
Proof. by destruct s. Qed.

Lemma marks_question st s segs :
  segmented st s segs → ∀ seg s', segs = seg :: s' → s' ≠ [] → final st seg = Normal.
Proof. intros Hs seg s' E Hne. destruct Hs; simplify_eq; done. Qed.

(** The marks of a text are those of its segments and placeholders. *)
Lemma marks_segments st s segs :
  segmented st s segs →
  marks st s = match segs with
    | [] => []
    | seg :: segs => marks st seg ++ concat ((λ s, Normal :: marks Normal s) <$> segs)
    end.
Proof.
  induction 1 as [st s Hs|st seg s segs Hseg Hf Hs IH]; [by rewrite app_nil_r|].
  destruct (scan_app seg (String "?" s) st 0) as (-> & _ & _); [apply (boundary_question seg)|].
  rewrite Hf. destruct (scan_question s 0) as (_ & _ & ->). rewrite IH.
  destruct segs as [|seg' segs]; [by inversion Hs|]. rewrite fmap_cons. done.
Qed.

(** Behind a text that ends outside literals and comments, the segments and the
    literals keep their marks. *)
Lemma marks_fill st s segs lits :
  segmented st s segs → seams segs lits = true → length lits = pred (length segs) →
  Forall literal_ok lits →
  marks st (fill segs lits) =
    match segs with
    | [] => []
    | seg :: segs => marks st seg ++ weave (marks Normal <$> lits) (marks Normal <$> segs)
    end.
Proof.
  intros Hs. revert lits. induction Hs as [st s Hs|st seg s segs Hseg Hf Hs IH];
    intros lits Hi Hl Hok.
  { destruct lits; [|done]. by rewrite app_nil_r. }
  destruct segs as [|seg' segs]; [by inversion Hs|].
  destruct lits as [|l lits]; [done|]. inversion Hok as [|? ? Hlok Hok']; subst.
  cbn [seams] in Hi. rewrite !andb_true_iff in Hi. destruct Hi as ((Hb & Hb2) & Hi).
  change (fill (seg :: seg' :: segs) (l :: lits)) with (seg +:+ l +:+ fill (seg' :: segs) lits).
  assert (boundary seg (l +:+ fill (seg' :: segs) lits) = true) as Hb1
    by (apply boundary_head; [apply Hlok|done]).
  destruct (scan_app seg _ st 0 Hb1) as (-> & _ & _). rewrite Hf.
  destruct (scan_app l _ Normal 0 Hb2) as (-> & _ & _).
  destruct Hlok as [-> _]. rewrite (IH lits) by (done || (cbn in Hl |- *; lia)). done.
Qed.
End Safety.

Lemma literals_lookup `{UnicodeCase, ParameterText} ps k n lits :
  literals ps k n = Ok lits →
  ∀ i l, lits !! i = Some l → literal_of ps (k + i) = Ok l.
Proof.
  revert k lits. induction n as [|n IH]; intros k lits; cbn [literals]; [by intros [= <-]|].
  intros (rest & Hr & (l & Hl & [= <-])%bind_ok)%bind_ok [|i] l' Hi; cbn in Hi.
  - injection Hi as <-. by rewrite Nat.add_0_r.
  - replace (k + S i)%nat with (S k + i)%nat by lia. by eapply IH.
Qed.

Lemma weave_swap {A} (m : string → list A) segs lits :
  segs ≠ [] → length lits = pred (length segs) →
  match segs with
  | [] => []
  | seg :: segs => m seg ++ weave (m <$> lits) (m <$> segs)
  end = weave (m <$> segs) (m <$> lits).
Proof.
  destruct segs as [|seg segs]; [done|]. intros _. cbn [length pred]. revert seg lits.
  induction segs as [|seg' segs IH]; intros seg [|l lits] Hl; try done; cbn in Hl.
  - cbn. by rewrite app_nil_r.
  - specialize (IH seg' lits ltac:(lia)). cbn [fmap list_fmap weave] in *.
    rewrite <- IH. done.
Qed.

Lemma weave_alternating (m : string → list ScanState) segs :
  segs ≠ [] →
  match segs with
  | [] => []
  | seg :: segs => m seg ++ concat ((λ s, Normal :: m s) <$> segs)
  end = weave (m <$> segs) (replicate (pred (length segs)) [Normal]).
Proof.
  destruct segs as [|seg segs]; [done|]. intros _. cbn [length pred]. revert seg.
  induction segs as [|seg' segs IH]; intros seg.
  - cbn. by rewrite app_nil_r.
  - specialize (IH seg'). cbn [fmap list_fmap concat length replicate weave] in *.
    rewrite <- IH. done.
Qed.

(** ** The theorems *)
Section Theorems.
Context `{UnicodeCase, ParameterText, !ParameterTextLaws H0}.

Lemma literals_no_panic ps n k :
  (k + n ≤ length ps)%nat → literals ps k n ≠ Panic.
Proof.
  revert k. induction n as [|n IH]; intros k Hk; [done|]. cbn [literals].
  specialize (IH (S k) ltac:(lia)).
  destruct (literals ps (S k) n); [|done..]. cbn [mbind outcome_bind].
  unfold literal_of. destruct (lookup_lt_is_Some_2 ps k ltac:(lia)) as [p ->].
  destruct p as [p|]; [|done]. destruct p as [|b|i|f|s|b]; try done; cbn [to_sql_literal].
  - by destruct f.
  - by destruct (contains_sql_injection_pattern s).
Qed.

(** C15: substitution, against a grammar of SQL texts of its own ([lexes]): every text is a
    sequence of quoted strings and identifiers (up to the first quote that is not doubled),
    line comments (up to the line feed), block comments (up to the first end), placeholders
    and other characters. However a statement's text is read by this grammar, the scanner
    finds exactly the placeholders - no question mark inside a string, an identifier or a
    comment, and every other one -, and [build_sql] puts the literals of the parameters in
    their places, in order, and leaves everything else. It fails when there are fewer
    parameters than placeholders, and otherwise with the error of the last parameter that is
    not bound or has no literal; a bound parameter without a placeholder is ignored. It
    never panics. *)
Theorem build_sql_substitutes stmt :
  valid_str (sql stmt) →
  (∃ ts, lexes (sql stmt) ts) ∧
  ∀ ts, lexes (sql stmt) ts →
    render ts (replicate (placeholders ts) "?") = sql stmt ∧
    scan_placeholders (sql stmt) = placeholder_offsets 0 ts ∧
    build_sql stmt =
      (if (length (parameters stmt) <? placeholders ts)%nat
       then Err (ParameterBindingError (length (parameters stmt)) "Not enough parameters bound")
       else lits ← literals (parameters stmt) 0 (placeholders ts); Ok (render ts lits)) ∧
    build_sql stmt ≠ Panic.
Proof.
  intros Hv. split; [apply lexes_exists|]. intros ts Hts.
  pose proof (build_sql_fill stmt _ Hv (lexes_segmented _ _ Hts)) as Hb.
  rewrite length_segments in Hb.
  assert (build_sql stmt =
    (if (length (parameters stmt) <? placeholders ts)%nat
     then Err (ParameterBindingError (length (parameters stmt)) "Not enough parameters bound")
     else lits ← literals (parameters stmt) 0 (placeholders ts); Ok (render ts lits))) as Hr.
  { rewrite Hb. destruct (_ <? _)%nat; [done|].
    destruct (literals (parameters stmt) 0 (placeholders ts)) as [lits| |] eqn:El; [|done..].
    cbn. destruct (literals_heads _ _ _ _ El) as [Hn _]. by rewrite fill_segments. }
  split; [by apply lexes_text|]. split; [by apply lexes_scan|]. split; [done|].
  rewrite Hr. destruct (Nat.ltb_spec (length (parameters stmt)) (placeholders ts)); [done|].
  pose proof (literals_no_panic (parameters stmt) (placeholders ts) 0 ltac:(lia)) as Hl.
  by destruct (literals (parameters stmt) 0 (placeholders ts)).
Qed.

(** C14: substituted literals stay literals. Every literal begins and ends in plain text, and
    a string parameter's literal is a quoted token that reads back as that string; and every
    character of the statement keeps the scanner state (text, string, identifier, comment)
    it had, unless two characters meet at the edge of a literal that are one token together:
    a minus sign in the statement in front of a negative number, which opens a comment, or
    a quote in front of or behind a text literal - the statement's own or that of a literal
    next to it -, which is taken as a doubled one. *)
Theorem literals_keep_context stmt ts text :
  valid_str (sql stmt) → lexes (sql stmt) ts → build_sql stmt = Ok text →
  let segs := segments ts in
  ∃ lits,
    literals (parameters stmt) 0 (placeholders ts) = Ok lits ∧ text = render ts lits ∧
    marks Normal (sql stmt) =
      weave (marks Normal <$> segs) (replicate (placeholders ts) [Normal]) ∧
    Forall (λ l, final Normal l = Normal) lits ∧
    (∀ i s, parameters stmt !! i = Some (Some (Text s)) → (i < length lits)%nat →
       lits !! i = Some (quoted squote s) ∧
       ∀ rest, not_quote_head squote rest = true →
         read_quoted squote (quoted squote s +:+ rest) = Some (s, rest)) ∧
    (marks Normal text = weave (marks Normal <$> segs) (marks Normal <$> lits) ∨
     ∃ i, collides segs lits i).
Proof.
  intros Hv Hts Hb segs. pose proof (lexes_segmented _ _ Hts) as Hs. fold segs in Hs.
  rewrite (build_sql_fill stmt segs Hv Hs) in Hb.
  destruct (_ <? _)%nat; [done|].
  apply bind_ok in Hb as (lits & Hl & [= <-]). exists lits.
  destruct (literals_heads _ _ _ _ Hl) as [Hn _].
  pose proof (literals_lookup _ _ _ _ Hl) as Hlk.
  assert (Forall literal_ok lits) as Hok.
  { apply Forall_lookup. intros i l Hil. specialize (Hlk i l Hil). unfold literal_of in Hlk.
    destruct (parameters stmt !! (0 + i)%nat) as [[p|]|]; [|done..].
    by eapply literal_ok_param. }
  split_and!; [| | |by eapply Forall_impl; [exact Hok|intros l [? _]]| |].
  - by rewrite <- length_segments.
  - apply fill_segments. by rewrite <- length_segments.
  - rewrite (marks_segments _ _ _ Hs), <- length_segments. apply weave_alternating.
    apply (segmented_text _ _ _ Hs).
  - intros i s Hp Hil. split; [|intros; by apply read_quoted_quoted].
    destruct (lookup_lt_is_Some_2 lits i Hil) as [l Hl']. rewrite Hl'. f_equal.
    specialize (Hlk i l Hl'). unfold literal_of in Hlk. cbn [Nat.add] in Hlk. rewrite Hp in Hlk.
    cbn [to_sql_literal] in Hlk. destruct (contains_sql_injection_pattern s); [done|].
    by injection Hlk.
  - destruct (seams_collide segs lits Hok) as [Hi|Hi]; [left|by right].
    rewrite (marks_fill _ _ _ _ Hs Hi Hn Hok). apply weave_swap; [|done].
    apply (segmented_text _ _ _ Hs).
Qed.
End Theorems.

(** ** A statement whose literals do not keep their context *)
Definition newline : string := String "010"%char "".

Definition dash_statement `{UnicodeCase} : Statement :=
  Statement_bind_all (Statement_new "SELECT 1-?, ?")
    [Integer (-1); Text (newline +:+ "; DROP TABLE T --")].

(** A negative number behind a minus sign opens a comment: the statement
    [SELECT 1-?, ?] with the parameters -1 and a text with a line break passes the
    injection check, and in the result the rest of the first line is a comment and
    the second line, which is the content of the string parameter, is plain SQL. *)
Theorem negative_literal_opens_comment `{UnicodeCase, ParameterText} :
  let head := "SELECT 1--1, '" +:+ newline in
  let payload := "; DROP TABLE T --" in
  build_sql dash_statement = Ok (head +:+ payload +:+ "'") ∧
  final Normal "SELECT 1--" = LineComment ∧
  final Normal head = Normal ∧
  marks Normal (head +:+ payload +:+ "'")
  = marks Normal head ++ replicate 17 Normal ++ [LineComment].
Proof. vm_compute. split_and!; reflexivity. Qed.

(** ** At concrete inputs *)
Definition ascii_case : UnicodeCase :=
  {| unicode_uppercase := to_ascii_uppercase; unicode_lowercase := to_ascii_lowercase |}.

Definition hex_text : ParameterText :=
  {| show_f64 := λ _, "0"; hex_encode := λ bs, join "" (show_hex_byte <$> bs) |}.

#[global] Instance hex_text_laws : ParameterTextLaws hex_text.
Proof.
  split; [by intros []|]. cbn [hex_encode hex_text]. unfold join.
  assert (∀ b, str_forall is_hex (show_hex_byte b) = true) as Hb by by intros [].
  assert (∀ bs, str_forall is_hex (String.concat "" (show_hex_byte <$> bs)) = true) as Hj; [|done].
  induction bs as [|b bs IH]; [done|]. rewrite fmap_cons. cbn [String.concat].
  destruct (show_hex_byte <$> bs) as [|w ws] eqn:E; [by apply Hb|].
  rewrite str_forall_app, Hb. exact IH.
Qed.

Definition quiet_statement : Statement :=
  Statement_bind_all (Statement_new (H := ascii_case)
    "SELECT '?', a FROM t WHERE b = ? AND c <> ? -- ?")
    [Text "it's"; Integer (-3)].

Definition quiet_tokens : list token :=
  (Plain <$> String.list_ascii_of_string "SELECT ") ++ [Opaque "'?'"] ++
  (Plain <$> String.list_ascii_of_string ", a FROM t WHERE b = ") ++ [Placeholder] ++
  (Plain <$> String.list_ascii_of_string " AND c <> ") ++ [Placeholder; Plain " "; Opaque "-- ?"].

Lemma quiet_lexes : lexes (sql quiet_statement) quiet_tokens.
Proof.
  assert (∀ c rest ts, bool_decide (c ∉ ["?"%char; squote; dquote; "-"%char; "/"%char]) = true →
    lexes rest ts → lexes (String c rest) (Plain c :: ts)) as Hplain.
  { intros c rest ts Hc%bool_decide_eq_true. constructor; [|done]. revert Hc.
    rewrite !not_elem_of_cons. intros (? & ? & ? & ? & ? & _).
    split_and!; [done|done|done|by intros [? _]|by intros [? _]]. }
  do 7 (apply Hplain; [done|]).
  apply (lexes_opaque "'?'"); [by apply (opaque_quoted squote "?"); [left|]|].
  do 21 (apply Hplain; [done|]). apply lexes_placeholder.
  do 10 (apply Hplain; [done|]). apply lexes_placeholder. apply Hplain; [done|].
  apply (lexes_opaque "-- ?" ""); [|constructor]. by apply (opaque_line " ?"); [|left].
Qed.

Lemma build_sql_substitutes_witness :
  scan_placeholders (sql quiet_statement) = [31; 42]%nat ∧
  build_sql (H := ascii_case) (H0 := hex_text) quiet_statement
  = Ok "SELECT '?', a FROM t WHERE b = 'it''s' AND c <> -3 -- ?".
Proof.
  destruct (build_sql_substitutes (H := ascii_case) (ParameterTextLaws0 := hex_text_laws)
    quiet_statement) as (_ & Hts); [by_decision|].
  destruct (Hts quiet_tokens quiet_lexes) as (_ & Hs & Hb & _).
  split; [rewrite Hs; vm_compute; reflexivity|rewrite Hb; vm_compute; reflexivity].
Defined.

Lemma literals_keep_context_witness :
  ∃ lits, lits !! 0%nat = Some (quoted squote "it's") ∧
    marks Normal "SELECT '?', a FROM t WHERE b = 'it''s' AND c <> -3 -- ?"
    = weave (marks Normal <$> segments quiet_tokens) (marks Normal <$> lits).
Proof.
  destruct (literals_keep_context (H := ascii_case) (ParameterTextLaws0 := hex_text_laws)
    quiet_statement quiet_tokens
    "SELECT '?', a FROM t WHERE b = 'it''s' AND c <> -3 -- ?")
    as (lits & Hl & _ & _ & _ & _ & Hm).
  - by_decision.
  - exact quiet_lexes.
  - vm_compute. reflexivity.
  - exists lits.
    vm_compute in Hl. injection Hl as <-.
    split; [reflexivity|]. destruct Hm as [Hm|[i Hi]]; [exact Hm|]. exfalso.
    destruct Hi as (seg & l & Hseg & Hl & Hi).
    destruct i as [|[|i]]; [| |done]; vm_compute in Hseg, Hl; injection Hseg as <-;
      injection Hl as <-; vm_compute in Hi; destruct Hi as [[? ?]|[[? ?]|[? ?]]]; discriminate.
Defined.
