(* ===== verification/PreparedRows.v ===== *)
(** * Rows of a prepared statement

    The theorem that the rows given to a prepared statement are the rows that the
    payload of CMD_EXECUTE_PREPARED carries. *)
From S2P Require Import Prelude MachineInt RustStr Errors Float64 Json ResultParser Messages.
From S2P Require Import ParamEncoding ParamCodec ParamSplit Statement StatementSafety.
From Stdlib Require Import Floats.SpecFloat.

#[local] Open Scope Z_scope.

Lemma mapM_outcome_ext2 {E A A' B} (f : A → outcome E B) (g : A' → outcome E B) xs ys :
  Forall2 (λ x y, f x = g y) xs ys → mapM f xs = mapM g ys.
Proof. induction 1 as [|x y xs ys Hxy _ IH]; [done|]. cbn [mapM]. by rewrite Hxy, IH. Qed.

Section Rows.
Context `{HB : BuildProfile, HJ : SerdeJson, HP : PowI, HT : ParameterText, HF : !JsonFloat}.

(** The index of the first row whose length is not [n]. *)
Definition first_misfit (n : Z) (rows : list (list SqlParam)) (i : nat) : Prop :=
  (∃ row, rows !! i = Some row ∧ Z.of_nat (length row) ≠ n) ∧
  ∀ j row, (j < i)%nat → rows !! j = Some row → Z.of_nat (length row) = n.

Lemma check_rows_spec k n rows :
  (Forall (λ row, Z.of_nat (length row) = n) rows ∧ check_rows k n rows = Ok ()) ∨
  (∃ i message, first_misfit n rows i ∧
     check_rows k n rows = Err (ParameterBindingError (k + i) message)).
Proof.
  revert k. induction rows as [|row rows IH]; intros k; [by left|]. cbn [check_rows].
  destruct (Z.eqb_spec (Z.of_nat (length row)) n) as [E|E].
  - destruct (IH (S k)) as [[Hf ->]|(i & message & [(row' & Hr & Hn) Hj] & ->)].
    + left. by split; [constructor|].
    + right. exists (S i), message. split; [|by rewrite Nat.add_succ_r].
      split; [by exists row'|]. intros [|j] r Hlt Hl; [by injection Hl as <-|].
      eapply Hj; [|exact Hl]. lia.
  - right. eexists 0%nat, _. split; [|by rewrite Nat.add_0_r].
    split; [by exists row|]. intros j r Hlt. lia.
Qed.

(** The value of a row in a column. *)
Definition param_at (c : nat) (row : list SqlParam) : outcome QueryError json :=
  match row !! c with Some v => Ok (parameter_to_json v) | None => Panic end.

Lemma column_ok_values c rows n :
  Forall (λ row, Z.of_nat (length row) = n) rows → Z.of_nat c < n →
  ∃ col, mapM (param_at c) rows = Ok col ∧ length col = length rows ∧
    ∀ r row v, rows !! r = Some row → row !! c = Some v →
      col !! r = Some (parameter_to_json v).
Proof.
  induction 1 as [|row rows Hrow _ IH]; intros Hc.
  { exists []. split_and!; [done|done|by intros]. }
  destruct (IH Hc) as (col & Hm & Hl & Hv). destruct (lookup_lt_is_Some_2 row c ltac:(lia)) as [v Hrc].
  assert (param_at c row = Ok (parameter_to_json v)) as Hp by (unfold param_at; by rewrite Hrc).
  exists (parameter_to_json v :: col). cbn [mapM]. rewrite Hp. cbn [mbind outcome_bind]. rewrite Hm.
  split_and!; [done|by cbn; rewrite Hl|].
  intros [|r] row' v' Hr Hv'; cbn in *; [by simplify_eq|by eapply Hv].
Qed.

(** The columns of rows that all have [n] values. *)
Lemma batch_columns rows n :
  Forall (λ row, length row = n) rows →
  ∃ cols, mapM (λ c, mapM (param_at c) rows) (seq 0 n) = Ok cols ∧ length cols = n ∧
    Forall (λ col, length col = length rows) cols ∧
    ∀ r c row v, rows !! r = Some row → row !! c = Some v →
      ∃ col, cols !! c = Some col ∧ col !! r = Some (parameter_to_json v).
Proof.
  intros Hrows.
  assert (Forall (λ row, Z.of_nat (length row) = Z.of_nat n) rows) as Hz
    by (eapply Forall_impl; [exact Hrows|cbn; lia]).
  assert (∀ k m, (k + m ≤ n)%nat → ∃ cols, mapM (λ c, mapM (param_at c) rows) (seq k m) = Ok cols ∧
    length cols = m ∧ Forall (λ col, length col = length rows) cols ∧
    ∀ r c row v, rows !! r = Some row → row !! (k + c)%nat = Some v → (c < m)%nat →
      ∃ col, cols !! c = Some col ∧ col !! r = Some (parameter_to_json v)) as Hk.
  { intros k m. revert k. induction m as [|m IH]; intros k Hkm.
    { exists []. split_and!; [done|done|constructor|lia]. }
    destruct (IH (S k) ltac:(lia)) as (cols & Hm & Hl & Hf & Hv).
    destruct (column_ok_values k rows (Z.of_nat n) Hz ltac:(lia)) as (col & Hc & Hcl & Hcv).
    exists (col :: cols). cbn [seq mapM]. rewrite Hc, Hm.
    split_and!; [done|by cbn; rewrite Hl|by constructor|].
    intros r [|c] row v Hr Hrv Hlt.
    - rewrite Nat.add_0_r in Hrv. exists col. split; [done|]. by eapply Hcv.
    - cbn. eapply Hv; [exact Hr| |lia]. by rewrite Nat.add_succ_r in Hrv. }
  destruct (Hk 0%nat n ltac:(lia)) as (cols & Hm & Hl & Hf & Hv). exists cols.
  split_and!; [done|done|done|]. intros r c row v Hr Hrv. eapply Hv; [exact Hr|exact Hrv|].
  pose proof (Forall_lookup_1 _ _ _ _ Hrows Hr) as <-. by apply lookup_lt_Some in Hrv.
Qed.

(** The values bound for one row. *)
Definition bound_params (columns : list ParameterColumn) (row : list SqlParam)
    : outcome TransportError (list (option ParamValue)) :=
  mapM (λ '(v, c), bound_param (pc_wire_type c) (parameter_to_json v) (pc_scale c))
    (zip row columns).

Lemma bound_row_params cols columns r row :
  length columns = length cols → length row = length cols →
  (∀ c v, row !! c = Some v →
     ∃ col, cols !! c = Some col ∧ col !! r = Some (parameter_to_json v)) →
  bound_row cols columns r = bound_params columns row.
Proof.
  intros Hl Hr Hv. unfold bound_row, bound_params. apply mapM_outcome_ext2.
  apply Forall2_same_length_lookup. rewrite !length_zip. split; [lia|].
  intros c [col pc] [v pc'] Hl1 Hl2.
  apply lookup_zip_with_Some in Hl1 as (? & ? & [= <- <-] & Hc & Hp).
  apply lookup_zip_with_Some in Hl2 as (? & ? & [= <- <-] & Hrv & Hp').
  destruct (Hv c v Hrv) as (col' & Hc' & Hcr). simplify_eq.
  unfold bound_cell. cbn [fst snd]. by rewrite Hcr.
Qed.

(** Batches of a prepared statement: rows of the statement's parameter count become
    columns whose values, read back as the rows of the payload, are those of the
    given rows in the given order; and a row of another length is rejected with the
    index of the first such row. *)
Theorem batch_rows_reach_server p rows :
  0 < parameter_count p → rows ≠ [] →
  (Forall (λ row, Z.of_nat (length row) = parameter_count p) rows ∧
   ∃ cols, build_batch_parameters_data p rows = Ok (Some cols) ∧
     first_len cols = length rows ∧
     let columns := parameter_columns (p_handle p) cols in
     bound_rows cols columns (seq 0 (length rows)) = mapM (bound_params columns) rows) ∨
  (∃ i message, first_misfit (parameter_count p) rows i ∧
     build_batch_parameters_data p rows = Err (ParameterBindingError i message)).
Proof.
  intros Hn Hne. unfold build_batch_parameters_data.
  destruct rows as [|row0 rows0] eqn:Erows; [done|]. rewrite <- Erows in *. clear Hne.
  destruct (check_rows_spec 0 (parameter_count p) rows) as [[Hf Hc]|(i & message & Hi & Hc)].
  - left. split; [done|]. rewrite Hc. cbn [mbind outcome_bind].
    set (n := Z.to_nat (parameter_count p)) in *.
    assert (Forall (λ row, length row = n) rows) as Hf'
      by (eapply Forall_impl; [exact Hf|intros row Hr; subst n; cbv beta in Hr; lia]).
    destruct (batch_columns rows n Hf') as (cols & Hm & Hl & Hfc & Hv).
    exists cols. unfold param_at in Hm. rewrite Hm.
    split; [done|]. split.
    + destruct cols as [|col cols]; [cbn in Hl; lia|]. by inversion Hfc.
    + cbv zeta. unfold bound_rows. apply mapM_outcome_ext2.
      apply Forall2_same_length_lookup. rewrite length_seq. split; [done|].
      intros r k row Hk Hr. apply lookup_seq in Hk as [-> _]. cbn [Nat.add].
      apply bound_row_params; [apply length_parameter_columns| |].
      * rewrite Hl. exact (Forall_lookup_1 _ _ _ _ Hf' Hr).
      * intros c v Hrv. by eapply Hv.
  - right. exists i, message. split; [done|]. by rewrite Hc.
Qed.
End Rows.

(** ** At a concrete batch *)
(** Doubles as JSON numbers by their bits. *)
Definition json_bits : JsonFloat (H := int_numbers) := λ f,
  match f with
  | S754_nan | S754_infinity _ => JNull
  | f => JNumber (inr (f64_encode f))
  end.

Definition sample_prepared : PreparedStatement :=
  {| p_handle := sample_handle; p_parameters := replicate 4 None; p_closed := false |}.

Definition sample_batch : list (list SqlParam) :=
  [[Integer (-5); Text "x"; Text "2024-02-29"; Text "1999-12-31 23:59:59.5"];
   [Null; Text "yz"; Text ""; Null]].

Lemma batch_rows_reach_server_witness :
  ∃ cols, build_batch_parameters_data (H := int_numbers) (H0 := hex_text) (H1 := json_bits)
      sample_prepared sample_batch = Ok (Some cols) ∧
    bound_rows (H := dev_profile) (H0 := int_numbers) (H1 := table_powi) cols
      (parameter_columns (H0 := int_numbers) sample_handle cols) (seq 0 2) = Ok sample_rows.
Proof.
  destruct (batch_rows_reach_server (HB := dev_profile) (HJ := int_numbers) (HP := table_powi)
    (HT := hex_text) (HF := json_bits) sample_prepared sample_batch)
    as [(_ & cols & Hb & _ & Hr)|(i & message & ((row & Hi & Hn) & _) & _)].
  - reflexivity.
  - discriminate.
  - exists cols. split; [exact Hb|]. etransitivity; [exact Hr|].
    vm_compute in Hb. injection Hb as <-. vm_compute. reflexivity.
  - by destruct i as [|[|[|i]]]; [injection Hi as <-..| |]; try (by vm_compute in Hn).
Defined.
