(* ===== verification/Infer.v ===== *)
(** * Inferred table schemas

    [types/infer.rs], [types/csv_infer.rs] and [types/parquet_infer.rs]: column
    names and types of the table a file is imported into, the widening of the
    types of several files, and the CREATE TABLE statement. Opening a file and
    reading its Arrow schema are the methods of [SchemaFiles]. *)
From S2P Require Import Prelude MachineInt RustStr StrText Errors DateTime ExasolTypes.
From Stdlib Require Import Ascii.

#[local] Open Scope Z_scope.

(** ** Column names *)

(** [name.chars()] of the sanitiser: a character is its first byte, and the
    continuation bytes of a character that is not ASCII are skipped. *)
Fixpoint sanitize_chars (s : string) : string :=
  match s with
  | EmptyString => ""
  | String a s =>
    if is_cont (byte_of_ascii a) then sanitize_chars s
    else String (if is_ascii_alphanumeric a || Ascii.eqb a "_" then upper_char a else "_"%char)
           (sanitize_chars s)
  end.

(* code: types/infer.rs 83-131 sanitize_column_name *)
Definition sanitize_column_name (name : string) : string :=
  let result := sanitize_chars name in
  let result := match result with
                | String c _ => if is_digit c then "_" +:+ result else result
                | EmptyString => result
                end in
  if (str_len result =? 0)%nat then "_" else result.

(* code: types/infer.rs 133-156 quote_column_name *)
Definition quote_column_name (name : string) : string :=
  let escaped := replace_char dquote (String dquote (String dquote "")) name in
  String dquote "" +:+ escaped +:+ String dquote "".

(* code: types/infer.rs 158-164 quote_identifier *)
Definition quote_identifier (name : string) : string := quote_column_name name.

(* code: types/infer.rs 166-173 format_column_name *)
Definition format_column_name (name : string) (mode : ColumnNameMode) : string :=
  match mode with
  | Quoted => quote_column_name name
  | Sanitize => sanitize_column_name name
  end.

(** ** Widening *)
(* code: types/infer.rs 175-265 widen_type *)
Definition widen_type (a b : ExasolType) : ExasolType :=
  if decide (a = b) then a
  else match a, b with
  | Decimal p1 s1, Decimal p2 s2 => Decimal (Z.min (Z.max p1 p2) 36) (Z.max s1 s2)
  | Varchar s1, Varchar s2 => Varchar (Z.min (Z.max s1 s2) 2000000)
  | Char s1, Char s2 => Char (Z.min (Z.max s1 s2) 2000)
  | Char s1, Varchar s2 | Varchar s2, Char s1 => Varchar (Z.min (Z.max s1 s2) 2000000)
  | Decimal _ _, Double | Double, Decimal _ _ => Double
  | Timestamp tz1, Timestamp tz2 => Timestamp (tz1 || tz2)
  | IntervalDayToSecond p1, IntervalDayToSecond p2 => IntervalDayToSecond (Z.max p1 p2)
  | _, _ => Varchar 2000000
  end.

(** ** Schemas *)
(* code: types/infer.rs 10-21 InferredColumn *)
Record InferredColumn := {
  original_name : string;
  ddl_name : string;
  exasol_type : ExasolType;
  nullable : bool;
}.

(* code: types/infer.rs 23-30 InferredTableSchema *)
Record InferredTableSchema := {
  columns : list InferredColumn;
  source_files : list string;
}.

(* code: types/infer.rs 32-81 to_ddl *)
Definition to_ddl (schema : InferredTableSchema) (table_name : string)
    (schema_name : option string) : string :=
  let table_ref := match schema_name with
                   | Some schema => schema +:+ "." +:+ table_name
                   | None => table_name
                   end in
  let newline := String (ascii_of_nat 10) "" in
  let column_defs :=
    (λ col, "    " +:+ ddl_name col +:+ " " +:+ to_ddl_type (exasol_type col)) <$> columns schema in
  "CREATE TABLE " +:+ table_ref +:+ " (" +:+ newline +:+
  join ("," +:+ newline) column_defs +:+ newline +:+ ");".

(* code: types/csv_infer.rs 29-59 CsvInferenceOptions *)
Record CsvInferenceOptions := {
  delimiter : Z;
  has_header : bool;
  quote : option Z;
  escape : option Z;
  null_regex : option string;
  max_sample_records : option Z;
  column_name_mode : ColumnNameMode;
}.

(* code: types/csv_infer.rs 47-59 default *)
Definition CsvInferenceOptions_default : CsvInferenceOptions :=
  {| delimiter := 44; has_header := true; quote := Some 34; escape := None;
     null_regex := Some "^$"; max_sample_records := None; column_name_mode := Quoted |}.

(** The settings the program makes on arrow-csv's [Format]; an absent one keeps
    the library's default. *)
Record CsvFormat := {
  fmt_header : bool; fmt_delimiter : Z; fmt_quote : option Z; fmt_escape : option Z;
}.

(* code: types/csv_infer.rs 118-132 build_csv_format *)
Definition build_csv_format (options : CsvInferenceOptions) : CsvFormat :=
  {| fmt_header := has_header options; fmt_delimiter := delimiter options;
     fmt_quote := quote options; fmt_escape := escape options |}.

(** Files and the schema readers of arrow-csv (with the number of records it
    read) and parquet; errors are their text. *)
Class SchemaFiles := {
  file : Type;
  open_file : string → outcome string file;
  csv_infer_schema : CsvFormat → file → option Z → outcome string (list Field * Z);
  parquet_schema : file → outcome string (list Field);
}.

Section Inference.
Context `{ArrowTypeLib, SchemaFiles}.

(* code: types/csv_infer.rs 134-161 csv_schema_to_columns *)
Definition csv_schema_to_columns (schema : list Field) (options : CsvInferenceOptions)
    : list InferredColumn :=
  imap (λ i field,
    let original_name :=
      if has_header options then f_name field
      else "col_" +:+ show_int (Z.of_nat i + 1) in
    {| original_name := original_name;
       ddl_name := format_column_name original_name (column_name_mode options);
       exasol_type := match arrow_to_exasol (f_data_type field) with
                      | Ok t => t
                      | _ => Varchar 2000000
                      end;
       nullable := f_nullable field |}) schema.

(** Lines 191-209, and again 255-280: the columns of one CSV file. *)
(* code: types/csv_infer.rs 255-282 infer_schema_from_csv_files *)
Definition csv_file_columns (file_path : string) (options : CsvInferenceOptions)
    : outcome ImportError (list InferredColumn) :=
  f ← map_err (λ e, SchemaInferenceError ("Failed to open file '" +:+ file_path +:+ "': " +:+ e))
    (open_file file_path);
  '(schema, records_read) ←
    map_err (λ e, SchemaInferenceError
      ("Failed to infer CSV schema from '" +:+ file_path +:+ "': " +:+ e))
    (csv_infer_schema (build_csv_format options) f (max_sample_records options));
  if records_read =? 0 then
    Err (SchemaInferenceError ("CSV file '" +:+ file_path +:+ "' contains no data rows"))
  else Ok (csv_schema_to_columns schema options).

(* code: types/csv_infer.rs 163-217 infer_schema_from_csv *)
Definition infer_schema_from_csv (file_path : string) (options : CsvInferenceOptions)
    : outcome ImportError InferredTableSchema :=
  columns ← csv_file_columns file_path options;
  Ok {| columns := columns; source_files := [file_path] |}.

(** [columns[i]] widened by the type and nullability of another file's column. *)
Definition widen_column (c : InferredColumn) (t : ExasolType) (n : bool) : InferredColumn :=
  {| original_name := original_name c; ddl_name := ddl_name c;
     exasol_type := widen_type (exasol_type c) t; nullable := nullable c || n |}.

Definition mismatch {A} (first_path path : string) (n m : nat) : outcome ImportError A :=
  Err (SchemaMismatchError ("Schema mismatch: '" +:+ first_path +:+ "' has " +:+
    show_int (Z.of_nat n) +:+ " columns, but '" +:+ path +:+ "' has " +:+
    show_int (Z.of_nat m) +:+ " columns")).

(* code: types/csv_infer.rs 284-304 infer_schema_from_csv_files *)
Definition merge_columns (first_path path : string) (merged : option (list InferredColumn))
    (file_columns : list InferredColumn) : outcome ImportError (list InferredColumn) :=
  match merged with
  | None => Ok file_columns
  | Some columns =>
    if negb (length file_columns =? length columns)%nat then
      mismatch first_path path (length columns) (length file_columns)
    else Ok (zip_with (λ c other, widen_column c (exasol_type other) (nullable other))
               columns file_columns)
  end.

(** The loop over the files; [merged] is the loop variable. *)
(* code: types/csv_infer.rs 254-306 infer_schema_from_csv_files *)
Fixpoint merge_csv_files (first_path : string) (options : CsvInferenceOptions)
    (merged : option (list InferredColumn)) (paths : list string)
    : outcome ImportError (option (list InferredColumn)) :=
  match paths with
  | [] => Ok merged
  | path :: paths =>
    file_columns ← csv_file_columns path options;
    columns ← merge_columns first_path path merged file_columns;
    merge_csv_files first_path options (Some columns) paths
  end.

(* code: types/csv_infer.rs 219-313 infer_schema_from_csv_files *)
Definition infer_schema_from_csv_files (file_paths : list string) (options : CsvInferenceOptions)
    : outcome ImportError InferredTableSchema :=
  match file_paths with
  | [] => Err (SchemaInferenceError "No files provided for schema inference")
  | [file_path] => infer_schema_from_csv file_path options
  | first_path :: _ =>
    merged_columns ← merge_csv_files first_path options None file_paths;
    match merged_columns with
    | Some columns => Ok {| columns := columns; source_files := file_paths |}
    | None => Panic
    end
  end.

(** [ConversionError] as text, for the one kind [arrow_to_exasol] returns. *)
Definition show_unsupported (e : ConversionError) : string :=
  match e with UnsupportedType t => "Unsupported Exasol type: " +:+ t | _ => "" end.

(* code: types/parquet_infer.rs 158-183 arrow_schema_to_columns *)
Fixpoint arrow_schema_to_columns (schema : list Field) (mode : ColumnNameMode)
    : outcome ImportError (list InferredColumn) :=
  match schema with
  | [] => Ok []
  | field :: schema =>
    exasol_type ← map_err (λ e, SchemaInferenceError
        ("Failed to map type for column '" +:+ f_name field +:+ "': " +:+ show_unsupported e))
      (arrow_to_exasol (f_data_type field));
    rest ← arrow_schema_to_columns schema mode;
    Ok ({| original_name := f_name field; ddl_name := format_column_name (f_name field) mode;
           exasol_type := exasol_type; nullable := f_nullable field |} :: rest)
  end.

(** Lines 38-54 and 102-118: the schema in the footer of one file. *)
(* code: types/parquet_infer.rs 101-119 infer_schema_from_parquet_files *)
Definition parquet_file_schema (file_path : string) : outcome ImportError (list Field) :=
  f ← map_err (λ e, SchemaInferenceError ("Failed to open file '" +:+ file_path +:+ "': " +:+ e))
    (open_file file_path);
  map_err (λ e, SchemaInferenceError
      ("Failed to read Parquet metadata from '" +:+ file_path +:+ "': " +:+ e))
    (parquet_schema f).

(* code: types/parquet_infer.rs 14-62 infer_schema_from_parquet *)
Definition infer_schema_from_parquet (file_path : string) (mode : ColumnNameMode)
    : outcome ImportError InferredTableSchema :=
  schema ← parquet_file_schema file_path;
  columns ← arrow_schema_to_columns schema mode;
  Ok {| columns := columns; source_files := [file_path] |}.

(* code: types/parquet_infer.rs 137-149 infer_schema_from_parquet_files *)
Fixpoint merge_fields (path : string) (columns : list InferredColumn) (schema : list Field)
    : outcome ImportError (list InferredColumn) :=
  match columns, schema with
  | c :: columns, field :: schema =>
    other_type ← map_err (λ e, SchemaInferenceError
        ("Failed to map type for column '" +:+ f_name field +:+ "' in '" +:+ path +:+ "': "
         +:+ show_unsupported e))
      (arrow_to_exasol (f_data_type field));
    rest ← merge_fields path columns schema;
    Ok (widen_column c other_type (f_nullable field) :: rest)
  | _, _ => Ok columns
  end.

(* code: types/parquet_infer.rs 125-150 infer_schema_from_parquet_files *)
Fixpoint merge_parquet_schemas (first_path : string) (columns : list InferredColumn)
    (schemas : list (string * list Field)) : outcome ImportError (list InferredColumn) :=
  match schemas with
  | [] => Ok columns
  | (path, schema) :: schemas =>
    if negb (length schema =? length columns)%nat then
      mismatch first_path path (length columns) (length schema)
    else
      columns ← merge_fields path columns schema;
      merge_parquet_schemas first_path columns schemas
  end.

(** Every footer is read before the first merge. *)
Fixpoint read_parquet_schemas (paths : list string)
    : outcome ImportError (list (string * list Field)) :=
  match paths with
  | [] => Ok []
  | path :: paths =>
    schema ← parquet_file_schema path;
    rest ← read_parquet_schemas paths;
    Ok ((path, schema) :: rest)
  end.

(* code: types/parquet_infer.rs 64-156 infer_schema_from_parquet_files *)
Definition infer_schema_from_parquet_files (file_paths : list string) (mode : ColumnNameMode)
    : outcome ImportError InferredTableSchema :=
  match file_paths with
  | [] => Err (SchemaInferenceError "No files provided for schema inference")
  | [file_path] => infer_schema_from_parquet file_path mode
  | _ =>
    schemas ← read_parquet_schemas file_paths;
    match schemas with
    | [] => Panic
    | (first_path, first_schema) :: rest =>
      columns ← arrow_schema_to_columns first_schema mode;
      columns ← merge_parquet_schemas first_path columns rest;
      Ok {| columns := columns; source_files := file_paths |}
    end
  end.
End Inference.

(** ** Widening: lemmas *)
Lemma widen_idemp a : widen_type a a = a.
Proof. unfold widen_type. by rewrite decide_True. Qed.

Lemma widen_comm a b : widen_type a b = widen_type b a.
Proof.
  unfold widen_type. destruct (decide (a = b)) as [->|Hne]; [by rewrite decide_True|].
  rewrite decide_False by congruence.
  destruct a, b; try done; f_equal; try lia. by rewrite orb_comm.
Qed.

(** Without the test for equal types. *)
Definition widen_merge (a b : ExasolType) : ExasolType :=
  match a, b with
  | Decimal p1 s1, Decimal p2 s2 => Decimal (Z.max p1 p2) (Z.max s1 s2)
  | Varchar s1, Varchar s2 => Varchar (Z.max s1 s2)
  | Char s1, Char s2 => Char (Z.max s1 s2)
  | Char s1, Varchar s2 | Varchar s2, Char s1 => Varchar (Z.max s1 s2)
  | Decimal _ _, Double | Double, Decimal _ _ => Double
  | Timestamp tz1, Timestamp tz2 => Timestamp (tz1 || tz2)
  | IntervalDayToSecond p1, IntervalDayToSecond p2 => IntervalDayToSecond (Z.max p1 p2)
  | Boolean, Boolean => Boolean
  | Double, Double => Double
  | Date, Date => Date
  | IntervalYearToMonth, IntervalYearToMonth => IntervalYearToMonth
  | Geometry s1, Geometry s2 => if decide (s1 = s2) then Geometry s1 else Varchar 2000000
  | Hashtype n1, Hashtype n2 => if decide (n1 = n2) then Hashtype n1 else Varchar 2000000
  | _, _ => Varchar 2000000
  end.

Lemma widen_merge_eq a b :
  creatable_type a → creatable_type b → widen_type a b = widen_merge a b.
Proof.
  unfold widen_type, creatable_type. intros Ha Hb.
  destruct (decide (a = b)) as [->|Hne].
  - destruct b as [| | | | | |[]| | |s|n]; cbn; rewrite ?Z.max_id; try done; by rewrite decide_True.
  - destruct a, b; try done; cbn; try (f_equal; lia);
      try (rewrite decide_False by congruence; done).
Qed.

Lemma widen_creatable a b : creatable_type a → creatable_type b → creatable_type (widen_type a b).
Proof.
  intros Ha Hb. rewrite widen_merge_eq by done. unfold creatable_type in *.
  destruct a, b; cbn; try done; try lia; repeat case_match; try done; simplify_eq; try lia.
Qed.

Lemma widen_assoc a b c :
  creatable_type a → creatable_type b → creatable_type c →
  widen_type (widen_type a b) c = widen_type a (widen_type b c).
Proof.
  intros Ha Hb Hc.
  rewrite (widen_merge_eq _ c), (widen_merge_eq a (widen_type b c)) by auto using widen_creatable.
  rewrite !widen_merge_eq by done. unfold creatable_type in *.
  destruct a, b, c; cbn; try done; repeat case_match; simplify_eq/=; try done;
    try (f_equal; lia); try (f_equal; by rewrite orb_assoc);
    case_decide; congruence.
Qed.

(** ** Joining the columns of several files *)
Section Join.
Context {A : Type} (f : A → A → A) (P : A → Prop).
Hypothesis f_closed : ∀ a b, P a → P b → P (f a b).
Hypothesis f_idemp : ∀ a, P a → f a a = a.
Hypothesis f_comm : ∀ a b, P a → P b → f a b = f b a.
Hypothesis f_assoc : ∀ a b c, P a → P b → P c → f (f a b) c = f a (f b c).

Lemma foldl_closed l a : P a → Forall P l → P (foldl f a l).
Proof. intros Ha Hl. revert a Ha. induction Hl; intros; cbn; auto. Qed.

Lemma foldl_permutation l1 l2 a :
  l1 ≡ₚ l2 → P a → Forall P l1 → foldl f a l1 = foldl f a l2.
Proof.
  intros Hp. revert a. induction Hp as [|x l1 l2 _ IH|x y l|l1 l2 l3 H1 IH1 _ IH2];
    intros a Ha Hl; [done|..].
  - apply Forall_cons in Hl as [Hx Hl]. cbn. by apply IH; auto.
  - apply Forall_cons in Hl as [Hx Hl]. apply Forall_cons in Hl as [Hy Hl]. cbn.
    f_equal. rewrite f_assoc, (f_comm y x), <- f_assoc by done. done.
  - rewrite IH1 by done. apply IH2; [done|]. by rewrite <- H1.
Qed.

(** Joining an element that is joined again changes nothing. *)
Lemma foldl_absorb x l a : P a → Forall P l → x ∈ l → foldl f (f a x) l = foldl f a l.
Proof.
  intros Ha Hl Hx. apply elem_of_Permutation in Hx as [l' Hl'].
  assert (Forall P (x :: l')) as Hl2 by (by rewrite <- Hl').
  pose proof Hl2 as [Hx Hl3]%Forall_cons.
  rewrite !(foldl_permutation l (x :: l')) by auto. cbn.
  by rewrite f_assoc, f_idemp.
Qed.

(** The join of a list from its first element on. *)
Lemma join_any_order x l1 y l2 :
  x :: l1 ≡ₚ y :: l2 → Forall P (x :: l1) → foldl f x l1 = foldl f y l2.
Proof.
  intros Hp Hl. pose proof Hl as [Hx Hl1]%Forall_cons.
  assert (Forall P (y :: l2)) as Hl' by (by rewrite <- Hp).
  pose proof Hl' as [Hy Hl2]%Forall_cons.
  assert (foldl f x l1 = foldl f x (x :: l1)) as -> by (cbn; by rewrite f_idemp).
  assert (foldl f y l2 = foldl f y (y :: l2)) as -> by (cbn; by rewrite f_idemp).
  assert (x ∈ y :: l2) by (rewrite <- Hp; by left).
  rewrite (foldl_permutation _ _ x Hp) by done.
  rewrite <- (foldl_absorb y _ x), <- (foldl_absorb x _ y) by (done || by left).
  by rewrite f_comm.
Qed.
End Join.

(** ** The schema of several CSV files *)

(** The type and nullability of each column. *)
Definition shape (c : InferredColumn) : ExasolType * bool := (exasol_type c, nullable c).
Definition shapes (cs : list InferredColumn) : list (ExasolType * bool) := shape <$> cs.
Definition join_shape (c1 c2 : ExasolType * bool) : ExasolType * bool :=
  (widen_type c1.1 c2.1, c1.2 || c2.2).
Definition join_row : list (ExasolType * bool) → list (ExasolType * bool) → list (ExasolType * bool) :=
  zip_with join_shape.
Definition good_row (n : nat) (r : list (ExasolType * bool)) : Prop :=
  length r = n ∧ Forall (λ c, creatable_type c.1) r.

Section Rows.
Context (n : nat).

Lemma join_row_closed r1 r2 : good_row n r1 → good_row n r2 → good_row n (join_row r1 r2).
Proof.
  intros [L1 H1] [L2 H2].
  split; [unfold join_row; by rewrite length_zip_with_l_eq by congruence|].
  clear L1 L2. revert r2 H2. induction H1 as [|c1 r1 Hc1 _ IH]; intros r2 H2; [constructor|].
  destruct H2 as [|c2 r2 Hc2 H2]; constructor; [by apply widen_creatable|by apply IH].
Qed.

Lemma join_row_idemp r : good_row n r → join_row r r = r.
Proof.
  intros _. induction r as [|[t b] r IH]; [done|]. unfold join_row in *. cbn. rewrite IH.
  f_equal. unfold join_shape. cbn. by rewrite widen_idemp, orb_diag.
Qed.

Lemma join_row_comm r1 r2 : good_row n r1 → good_row n r2 → join_row r1 r2 = join_row r2 r1.
Proof.
  intros _ _. revert r2. induction r1 as [|c1 r1 IH]; intros [|c2 r2]; try done.
  unfold join_row in *. cbn. rewrite IH. f_equal. unfold join_shape.
  by rewrite widen_comm, orb_comm.
Qed.

Lemma join_row_assoc r1 r2 r3 :
  good_row n r1 → good_row n r2 → good_row n r3 →
  join_row (join_row r1 r2) r3 = join_row r1 (join_row r2 r3).
Proof.
  intros [_ H1] [_ H2] [_ H3]. revert r2 r3 H2 H3.
  induction H1 as [|c1 r1 Hc1 _ IH]; intros r2 r3 H2 H3; [done|].
  destruct H2 as [|c2 r2 Hc2 H2], H3 as [|c3 r3 Hc3 H3]; try done.
  unfold join_row in *. cbn. rewrite IH by done. f_equal. unfold join_shape. cbn.
  by rewrite widen_assoc, orb_assoc.
Qed.
End Rows.

Section Files.
Context `{ArrowTypeLib, SchemaFiles} (options : CsvInferenceOptions).

Lemma csv_file_columns_good path cs :
  csv_file_columns path options = Ok cs → good_row (length cs) (shapes cs).
Proof.
  unfold csv_file_columns, good_row, shapes. intros Hc. split; [by rewrite length_fmap|].
  apply bind_ok in Hc as (f & _ & Hc). apply bind_ok in Hc as ([schema n] & _ & Hc).
  destruct (n =? 0); [done|]. injection Hc as <-.
  apply Forall_fmap, Forall_lookup. intros i c. unfold csv_schema_to_columns.
  rewrite list_lookup_imap. destruct (schema !! i) as [field|]; [|done]. intros [= <-]. cbn.
  destruct (arrow_to_exasol (f_data_type field)) as [t| |] eqn:Ht; [|by_decision..].
  by apply arrow_to_exasol_creatable in Ht as [? _].
Qed.

(** Success of the loop, and its result, in terms of the files' columns. *)
Lemma merge_csv_files_spec first_path paths cs r :
  merge_csv_files first_path options (Some cs) paths = Ok r →
  ∃ css out, Forall2 (λ p c, csv_file_columns p options = Ok c) paths css ∧
    Forall (λ c, length c = length cs) css ∧ r = Some out ∧
    shapes out = foldl join_row (shapes cs) (shapes <$> css).
Proof.
  revert cs r. induction paths as [|p paths IH]; intros cs r Hm.
  - cbn in Hm. injection Hm as <-. exists [], cs. repeat constructor.
  - cbn [merge_csv_files] in Hm. apply bind_ok in Hm as (c & Hc & Hm).
    apply bind_ok in Hm as (m & Hmm & Hm). unfold merge_columns in Hmm.
    destruct (Nat.eqb_spec (length c) (length cs)) as [Hl|]; [|done].
    cbn [negb] in Hmm. injection Hmm as <-.
    destruct (IH _ _ Hm) as (css & out & Hf & Hls & -> & Hs).
    exists (c :: css), out. split; [by constructor|]. split; [|split; [done|]].
    + constructor; [done|]. eapply Forall_impl; [exact Hls|]. cbn. intros c' ->.
      by rewrite length_zip_with_l_eq.
    + rewrite Hs. cbn. f_equal. clear. revert c.
      induction cs as [|x cs IH]; intros [|y c]; cbn; try done. by rewrite IH.
Qed.

Lemma merge_csv_files_ok first_path paths cs css :
  Forall2 (λ p c, csv_file_columns p options = Ok c) paths css →
  Forall (λ c, length c = length cs) css →
  ∃ out, merge_csv_files first_path options (Some cs) paths = Ok (Some out).
Proof.
  intros Hf. revert cs. induction Hf as [|p c paths css Hc _ IH]; intros cs Hl.
  - by exists cs.
  - apply Forall_cons in Hl as [Hl Hls]. cbn [merge_csv_files]. rewrite Hc.
    unfold merge_columns. cbn [mbind outcome_bind].
    rewrite (proj2 (Nat.eqb_eq _ _)) by done. cbn [negb mbind outcome_bind]. apply IH. eapply Forall_impl; [exact Hls|].
    cbn. intros c' ->. by rewrite length_zip_with_l_eq.
Qed.

(** One file or many: the schema is the join of the files' columns. *)
Lemma infer_csv_spec path paths s :
  infer_schema_from_csv_files (path :: paths) options = Ok s →
  ∃ c css, csv_file_columns path options = Ok c ∧
    Forall2 (λ p c, csv_file_columns p options = Ok c) paths css ∧
    Forall (λ c', length c' = length c) css ∧
    shapes (columns s) = foldl join_row (shapes c) (shapes <$> css).
Proof.
  intros Hi. destruct paths as [|p2 paths].
  - cbn in Hi. apply bind_ok in Hi as (c & Hc & [= <-]). exists c, []. by repeat constructor.
  - unfold infer_schema_from_csv_files in Hi. apply bind_ok in Hi as (r & Hm & Hi).
    change (merge_csv_files path options None (path :: p2 :: paths)) with
      (c ← csv_file_columns path options;
       m ← merge_columns path path None c;
       merge_csv_files path options (Some m) (p2 :: paths)) in Hm.
    apply bind_ok in Hm as (c & Hc & Hm). cbn [merge_columns mbind outcome_bind] in Hm.
    apply merge_csv_files_spec in Hm as (css & out & Hf & Hl & -> & Hs).
    injection Hi as <-. by exists c, css.
Qed.

Lemma infer_csv_ok path paths c css :
  csv_file_columns path options = Ok c →
  Forall2 (λ p c, csv_file_columns p options = Ok c) paths css →
  Forall (λ c', length c' = length c) css →
  ∃ s, infer_schema_from_csv_files (path :: paths) options = Ok s.
Proof.
  intros Hc Hf Hl. destruct Hf as [|p2 c2 paths css H2 Hf].
  - cbn. unfold infer_schema_from_csv. rewrite Hc. by eexists.
  - unfold infer_schema_from_csv_files.
    change (merge_csv_files path options None (path :: p2 :: paths)) with
      (c ← csv_file_columns path options;
       m ← merge_columns path path None c;
       merge_csv_files path options (Some m) (p2 :: paths)).
    rewrite Hc. cbn [merge_columns mbind outcome_bind].
    destruct (merge_csv_files_ok path (p2 :: paths) c (c2 :: css)) as [out Hout];
      [by constructor|done|].
    rewrite Hout. by eexists.
Qed.

(** Schema inference over several CSV files does not depend on their order:
    if the files infer to a schema, every ordering of them does, with the same
    type and nullability for every column. *)
Theorem csv_inference_any_order paths1 paths2 s1 :
  paths1 ≡ₚ paths2 →
  infer_schema_from_csv_files paths1 options = Ok s1 →
  ∃ s2, infer_schema_from_csv_files paths2 options = Ok s2 ∧
        shapes (columns s2) = shapes (columns s1).
Proof.
  intros Hp Hi. destruct paths1 as [|p1 paths1]; [done|].
  destruct paths2 as [|p2 paths2]; [by apply Permutation_sym, Permutation_nil_cons in Hp|].
  destruct (infer_csv_spec _ _ _ Hi) as (c1 & css1 & Hc1 & Hf1 & Hl1 & Hs1).
  destruct (Permutation_Forall2 Hp (List.Forall2_cons _ _ Hc1 Hf1)) as (cs2 & Hp2 & Hf2).
  destruct cs2 as [|c2 css2]; [by apply Permutation_sym, Permutation_nil_cons in Hp2|].
  apply Forall2_cons in Hf2 as [Hc2 Hf2].
  assert (Forall (λ c, length c = length c1) (c2 :: css2)) as Hl
    by (rewrite <- Hp2; by constructor).
  apply Forall_cons in Hl as [Hl2 Hls2]. rewrite <- Hl2 in Hls2.
  destruct (infer_csv_ok _ _ _ _ Hc2 Hf2 Hls2) as [s2 Hi2]. exists s2. split; [done|].
  destruct (infer_csv_spec _ _ _ Hi2) as (c2' & css2' & Hc2' & Hf2' & _ & ->).
  assert (c2' = c2) as -> by congruence.
  assert (css2' = css2) as ->.
  { clear -Hf2 Hf2'. revert css2 Hf2. induction Hf2'; intros css2 Hf2; inversion Hf2; subst;
      [done|]. f_equal; [congruence|auto]. }
  rewrite Hs1. symmetry. apply (join_any_order join_row (good_row (length c1)));
    eauto using join_row_closed, join_row_idemp, join_row_comm, join_row_assoc.
  - rewrite <- !(fmap_cons shapes). by rewrite Hp2.
  - rewrite <- fmap_cons. apply Forall_fmap. constructor; [by eapply csv_file_columns_good|].
    clear -Hf1 Hl1. induction Hf1 as [|p c ps cs Hc _ IH]; [constructor|].
    apply Forall_cons in Hl1 as [Hl Hl1]. constructor; [|by apply IH].
    cbn. rewrite <- Hl. by eapply csv_file_columns_good.
Qed.
End Files.

(** Two one-column files, one of decimals and one of doubles. *)
Definition two_files : SchemaFiles := {|
  file := string;
  open_file p := Ok p;
  csv_infer_schema _ p _ :=
    Ok ([{| f_name := "c"; f_data_type := if bool_decide (p = "a") then AInt32 else AFloat64;
            f_nullable := false |}], 1);
  parquet_schema _ := Ok [];
|}.

Lemma csv_inference_any_order_witness :
  ∃ s2, infer_schema_from_csv_files (H := type_map_lib) (H0 := two_files) ["b"; "a"]
          CsvInferenceOptions_default = Ok s2 ∧ shapes (columns s2) = [(Double, false)].
Proof.
  destruct (infer_schema_from_csv_files (H := type_map_lib) (H0 := two_files) ["a"; "b"]
    CsvInferenceOptions_default) as [s1| |] eqn:E; [|discriminate E..].
  assert (shapes (columns s1) = [(Double, false)]) as Hs
    by (vm_compute in E; injection E as <-; reflexivity).
  destruct (csv_inference_any_order (H := type_map_lib) (H0 := two_files)
    CsvInferenceOptions_default ["a"; "b"] ["b"; "a"] s1) as (s2 & H2 & Hs2).
  - apply Permutation_swap.
  - exact E.
  - exists s2. split; [exact H2|]. rewrite Hs2. exact Hs.
Defined.

(** ** Properties of widening and of names *)

(** [widen_type] is a join on the creatable types: idempotent, commutative and
    associative, with a creatable result. *)
Theorem widen_semilattice :
  (∀ a, widen_type a a = a) ∧
  (∀ a b, widen_type a b = widen_type b a) ∧
  (∀ a b, creatable_type a → creatable_type b → creatable_type (widen_type a b)) ∧
  (∀ a b c, creatable_type a → creatable_type b → creatable_type c →
     widen_type (widen_type a b) c = widen_type a (widen_type b c)).
Proof.
  split; [exact widen_idemp|]. split; [exact widen_comm|]. split; [exact widen_creatable|].
  exact widen_assoc.
Qed.

Lemma widen_semilattice_witness :
  widen_type (widen_type (Char 10) (Varchar 5)) Boolean
  = widen_type (Char 10) (widen_type (Varchar 5) Boolean).
Proof. apply widen_semilattice; by_decision. Defined.

(** The values of a DECIMAL, in its units. *)
Definition decimal_holds (t : ExasolType) (units scale : Z) : Prop :=
  match t with
  | Decimal p s => scale ≤ s ∧ Z.abs units * 10 ^ (s - scale) < 10 ^ p
  | _ => True
  end.

(** The DECIMAL widening is not a supertype: taking the maxima of precision and
    scale separately loses integer digits, so a value of one input type need not
    fit the result, although the documentation of [widen_type] says it does. *)
Theorem widen_loses_digits :
  widen_type (Decimal 18 0) (Decimal 5 4) = Decimal 18 4 ∧
  decimal_holds (Decimal 18 0) 999999999999999999 0 ∧
  ¬ decimal_holds (widen_type (Decimal 18 0) (Decimal 5 4)) 999999999999999999 0.
Proof.
  split; [reflexivity|]. split; [by_decision|].
  intros [_ H]. vm_compute in H. discriminate H.
Qed.

Lemma sanitize_chars_shape s :
  str_forall (λ a, is_ascii_upper a || is_digit a || Ascii.eqb a "_") (sanitize_chars s) = true.
Proof.
  induction s as [|a s IH]; [done|]. cbn [sanitize_chars]. case_match; [done|].
  cbn [str_forall]. rewrite IH, andb_true_r.
  destruct a as [[] [] [] [] [] [] [] []]; reflexivity.
Qed.

Lemma sanitize_chars_id s :
  str_forall (λ a, is_ascii_upper a || is_digit a || Ascii.eqb a "_") s = true →
  sanitize_chars s = s.
Proof.
  induction s as [|a s IH]; [done|]. cbn [str_forall sanitize_chars]. rewrite andb_true_iff.
  intros [Ha Hs]. rewrite IH by done.
  destruct a as [[] [] [] [] [] [] [] []]; first [discriminate Ha|reflexivity].
Qed.

(** A plain identifier: upper-case ASCII letters, digits and underscores, not
    empty and not beginning with a digit. *)
Definition plain_identifier (s : string) : bool :=
  str_forall (λ a, is_ascii_upper a || is_digit a || Ascii.eqb a "_") s &&
  match s with String a _ => negb (is_digit a) | EmptyString => false end.

(** Column names: in [Quoted] mode the DDL name is one quoted identifier whose
    reader sees exactly the original name, whatever characters it holds, and stops
    at its end; in [Sanitize] mode it is a plain identifier, and sanitising it
    again changes nothing. *)
Theorem column_names_safe name rest :
  not_quote_head dquote rest = true →
  read_quoted dquote (format_column_name name Quoted +:+ rest) = Some (name, rest) ∧
  plain_identifier (format_column_name name Sanitize) = true ∧
  sanitize_column_name (format_column_name name Sanitize) = format_column_name name Sanitize.
Proof.
  intros Hr. split; [by apply (read_quoted_quoted dquote)|].
  assert (∀ s, plain_identifier s = true → sanitize_column_name s = s) as Hid.
  { intros s [Hs Hh]%andb_true_iff. unfold sanitize_column_name.
    rewrite sanitize_chars_id by done. destruct s as [|a s]; [done|].
    apply negb_true_iff in Hh. by rewrite Hh. }
  assert (plain_identifier (sanitize_column_name name) = true) as Hp; [|by auto].
  unfold sanitize_column_name. pose proof (sanitize_chars_shape name) as Hs.
  destruct (sanitize_chars name) as [|a s]; [done|]. destruct (is_digit a) eqn:Ha.
  - change (str_len ("_" +:+ String a s) =? 0)%nat with false. cbv match.
    rewrite str_app_char. unfold plain_identifier. cbn [str_forall] in *. by rewrite Hs.
  - change (str_len (String a s) =? 0)%nat with false. cbv match.
    unfold plain_identifier. by rewrite Hs, Ha.
Qed.

Lemma column_names_safe_witness :
  read_quoted dquote (format_column_name "my Column" Quoted +:+ " DOUBLE")
  = Some ("my Column", " DOUBLE").
Proof. apply (column_names_safe "my Column" " DOUBLE"). reflexivity. Defined.
