(* ===== verification/Clauses.v ===== *)
(** * Clauses of IMPORT and EXPORT

    [query/clauses.rs]: the endpoint and the CSV framing options that both statements
    spell alike, and the grammar of these clauses as readers. A [char] is its UTF-8
    text. *)
From S2P Require Import Prelude MachineInt RustStr StrText.
From Stdlib Require Import Ascii.

#[local] Open Scope Z_scope.

Definition newline : ascii := ascii_of_nat 10.
Definition nl : string := String newline "".

(** [s.replace('\'', "''")]. *)
Definition escape_quotes (s : string) : string :=
  replace_char squote (String squote (String squote "")) s.
(** [format!("'{}'", s)]. *)
Definition in_quotes (s : string) : string := String squote (s +:+ String squote "").

(* code: query/clauses.rs 8-26 quoted_endpoint *)
Definition quoted_endpoint (address url_suffix : string) (public_key : option string) : string :=
  let address := escape_quotes address in
  let url_suffix := escape_quotes url_suffix in
  match public_key with
  | Some fingerprint =>
    in_quotes ("https://" +:+ address +:+ url_suffix) +:+ " PUBLIC KEY "
    +:+ in_quotes (escape_quotes fingerprint)
  | None => in_quotes ("http://" +:+ address +:+ url_suffix)
  end.

(* code: query/clauses.rs 61-69 escape_sql_char *)
Definition escape_sql_char (c : string) : string :=
  if String.eqb c (String squote "") then String squote (String squote "") else c.

(* code: query/clauses.rs 28-37 CsvFraming *)
Record CsvFraming := {
  f_encoding : string;
  f_column_separator : string;
  f_column_delimiter : string;
  f_row_separator : string;
}.

(* code: query/clauses.rs 39-51 CsvFraming::to_sql *)
Definition CsvFraming_to_sql (f : CsvFraming) : string :=
  nl +:+ "ENCODING = " +:+ in_quotes (escape_quotes (f_encoding f)) +:+
  nl +:+ "COLUMN SEPARATOR = " +:+ in_quotes (escape_sql_char (f_column_separator f)) +:+
  nl +:+ "COLUMN DELIMITER = " +:+ in_quotes (escape_sql_char (f_column_delimiter f)) +:+
  nl +:+ "ROW SEPARATOR = " +:+ in_quotes (escape_quotes (f_row_separator f)).

(* code: query/clauses.rs 53-59 null_clause *)
Definition null_clause (null_value : option string) : string :=
  match null_value with
  | None => ""
  | Some value => nl +:+ "NULL = " +:+ in_quotes (escape_quotes value)
  end.

(** ** Readers *)
(** A reader returns what it read and the text behind it. *)
Definition text_reader (A : Type) : Type := string → option (A * string).

Definition expect (p : string) : text_reader unit := λ s, (λ r, ((), r)) <$> strip_prefix p s.

(** The clause if it is there. *)
Definition optional {A} (p : string) (r : text_reader A) : text_reader (option A) := λ s,
  match strip_prefix p s with
  | Some rest => '(a, rest) ← r rest; Some (Some a, rest)
  | None => Some (None, s)
  end.

Definition literal : text_reader string := read_quoted squote.

(** The URL and the key of an endpoint. *)
Definition read_endpoint : text_reader (string * option string) := λ s,
  '(url, s) ← literal s;
  '(key, s) ← optional " PUBLIC KEY " literal s;
  Some ((url, key), s).

Definition read_framing : text_reader CsvFraming := λ s,
  '(_, s) ← expect (nl +:+ "ENCODING = ") s;
  '(encoding, s) ← literal s;
  '(_, s) ← expect (nl +:+ "COLUMN SEPARATOR = ") s;
  '(separator, s) ← literal s;
  '(_, s) ← expect (nl +:+ "COLUMN DELIMITER = ") s;
  '(delimiter, s) ← literal s;
  '(_, s) ← expect (nl +:+ "ROW SEPARATOR = ") s;
  '(row, s) ← literal s;
  Some ({| f_encoding := encoding; f_column_separator := separator;
           f_column_delimiter := delimiter; f_row_separator := row |}, s).

Definition read_null : text_reader (option string) := optional (nl +:+ "NULL = ") literal.

(** The URL that an endpoint stands for. *)
Definition endpoint_url (address url_suffix : string) (public_key : option string) : string :=
  (if public_key then "https://" else "http://") +:+ address +:+ url_suffix.

(** A [char]: one character, encoded. *)
Definition one_char (c : string) : Prop :=
  valid_str c ∧
  match c with
  | EmptyString => False
  | String a r => is_cont (byte_of_ascii a) = false ∧
      str_forall (λ b, is_cont (byte_of_ascii b)) r = true
  end.

(** ** Lemmas *)
Lemma in_quotes_escape s : in_quotes (escape_quotes s) = quoted squote s.
Proof. done. Qed.

Lemma literal_quoted s r : not_quote_head squote r = true → literal (quoted squote s +:+ r) = Some (s, r).
Proof. apply read_quoted_quoted. Qed.

(** What a literal is read from. *)
Lemma read_quoted_body_sound q s c r :
  read_quoted_body q s = Some (c, r) → String q s = quoted q c +:+ r.
Proof.
  unfold quoted. rewrite str_app_cons. intros Hb. f_equal. revert c r Hb.
  induction s as [s IH] using (induction_ltof1 _ str_len). unfold ltof in IH.
  intros c r. destruct s as [|a s]; [done|]. cbn [read_quoted_body].
  destruct (Ascii.eqb_spec a q) as [->|Ha].
  - destruct s as [|b s]; [by intros [= <- <-]|].
    destruct (Ascii.eqb_spec b q) as [->|]; [|by intros [= <- <-]].
    destruct (read_quoted_body q s) as [[c' r']|] eqn:E; [|done]. intros [= <- <-].
    apply IH in E; [|unfold str_len; cbn; lia]. cbn [replace_char]. rewrite Ascii.eqb_refl, E.
    by rewrite !str_app_cons, str_app_nil_l.
  - destruct (read_quoted_body q s) as [[c' r']|] eqn:E; [|done]. intros [= <- <-].
    apply IH in E; [|unfold str_len; cbn; lia]. cbn [replace_char]. rewrite (proj2 (Ascii.eqb_neq _ _)) by done.
    by rewrite E, !str_app_cons, str_app_nil_l.
Qed.

Lemma literal_sound s c r : literal s = Some (c, r) → s = quoted squote c +:+ r.
Proof.
  unfold literal, read_quoted. destruct s as [|a s]; [done|].
  destruct (Ascii.eqb_spec a squote) as [->|]; [|done]. apply read_quoted_body_sound.
Qed.

Lemma repeat_cons c j t : str_repeat j c +:+ String c t = str_repeat (S j) c +:+ t.
Proof.
  induction j as [|j IH]; [done|]. cbn [str_repeat] in *. rewrite !str_app_cons in *.
  by rewrite IH.
Qed.

(** A text that is put between quotes as it is reads back only if it has no quote. *)
Lemma quotes_misread j s rest r :
  not_quote_head squote rest = true →
  s +:+ String squote rest
  = String squote (str_repeat j squote +:+ escape_quotes s +:+ String squote r) → False.
Proof.
  intros Hr. revert j. induction s as [|a s IH]; intros j.
  - cbn. intros [= ->]. by destruct j.
  - rewrite str_app_cons. intros [= -> Hs]. apply (IH (S j)). rewrite Hs.
    unfold escape_quotes. cbn [replace_char]. rewrite Ascii.eqb_refl.
    rewrite !str_app_cons, str_app_nil_l, !repeat_cons. done.
Qed.

Lemma literal_unescaped name rest r :
  not_quote_head squote rest = true →
  literal (in_quotes name +:+ rest) = Some (name, r) → contains_char squote name = false.
Proof.
  intros Hr Hl%literal_sound. unfold in_quotes, quoted in Hl. rewrite !str_app_cons in Hl.
  injection Hl as Hl. rewrite !str_app_assoc, !str_app_char in Hl. fold (escape_quotes name) in Hl.
  induction name as [|a s IH]; [done|]. unfold escape_quotes in Hl.
  cbn [contains_char replace_char] in *. destruct (Ascii.eqb_spec a squote) as [->|Ha].
  - exfalso. rewrite !str_app_cons, str_app_nil_l in Hl. injection Hl as Hl.
    by apply (quotes_misread 0 s rest r).
  - rewrite !str_app_cons, str_app_nil_l in Hl. injection Hl as Hl. by apply IH.
Qed.

Lemma escape_quotes_absent s : contains_char squote s = false → escape_quotes s = s.
Proof. apply replace_char_absent. Qed.

Lemma one_char_quote c : one_char c → c = String squote "" ∨ contains_char squote c = false.
Proof.
  destruct c as [|a r]; [by intros []|]. intros (Hv & Ha & Hr).
  destruct (decide (r = ""%string)) as [->|Hne].
  - cbn. destruct (Ascii.eqb_spec a squote) as [->|]; [by left|by right].
  - right. cbn [contains_char]. apply orb_false_iff. split.
    + apply Ascii.eqb_neq. intros ->. destruct r as [|b r]; [done|]. cbn in Hr.
      apply andb_prop in Hr as [Hb _]. unfold valid_str in Hv.
      change (as_bytes (String squote (String b r)))
        with (byte_of_ascii squote :: byte_of_ascii b :: as_bytes r) in Hv.
      revert Hb Hv. generalize (byte_of_ascii b). intros x Hb. by destruct x.
    + clear Hne Hv. induction r as [|b r IH]; [done|]. cbn in Hr |- *.
      apply andb_prop in Hr as [Hb Hr]. rewrite IH by done. rewrite orb_false_r.
      apply Ascii.eqb_neq. by intros ->.
Qed.

Lemma escape_sql_char_quotes c : one_char c → escape_sql_char c = escape_quotes c.
Proof.
  unfold escape_sql_char. intros [-> | Hc]%one_char_quote; [done|].
  destruct (String.eqb_spec c (String squote "")) as [->|_]; [done|].
  by rewrite escape_quotes_absent.
Qed.

Lemma expect_app p s : expect p (p +:+ s) = Some ((), s).
Proof. unfold expect. by rewrite strip_prefix_app. Qed.

Lemma quoted_endpoint_text address suffix key :
  quoted_endpoint address suffix key
  = quoted squote (endpoint_url address suffix key) +:+
    match key with Some k => " PUBLIC KEY " +:+ quoted squote k | None => "" end.
Proof.
  unfold quoted_endpoint, endpoint_url. rewrite <- in_quotes_escape.
  unfold escape_quotes. rewrite !replace_char_app. destruct key as [k|]; [done|].
  by rewrite str_app_nil_r.
Qed.

(** What follows an endpoint in the statements. *)
Definition ends_endpoint (s : string) : Prop :=
  not_quote_head squote s = true ∧ strip_prefix " PUBLIC KEY " s = None.

Lemma read_endpoint_text address suffix key rest :
  ends_endpoint rest →
  read_endpoint (quoted_endpoint address suffix key +:+ rest)
  = Some ((endpoint_url address suffix key, key), rest).
Proof.
  intros [Hq Hp]. rewrite quoted_endpoint_text, str_app_assoc. unfold read_endpoint.
  rewrite literal_quoted by (by destruct key). cbn [mbind option_bind].
  unfold optional. destruct key as [k|].
  - rewrite str_app_assoc, strip_prefix_app, literal_quoted by done. done.
  - by rewrite str_app_nil_l, Hp.
Qed.

Definition framing_ok (f : CsvFraming) : Prop :=
  one_char (f_column_separator f) ∧ one_char (f_column_delimiter f).

Lemma read_framing_text f rest :
  framing_ok f → not_quote_head squote rest = true →
  read_framing (CsvFraming_to_sql f +:+ rest) = Some (f, rest).
Proof.
  intros [Hs Hd] Hr. unfold CsvFraming_to_sql, read_framing.
  rewrite !escape_sql_char_quotes, !in_quotes_escape by done.
  rewrite !str_app_assoc. destruct f as [e s d r]. cbn [f_encoding f_column_separator
    f_column_delimiter f_row_separator].
  repeat (rewrite <- (str_app_assoc nl), expect_app; cbn [mbind option_bind];
          rewrite literal_quoted by done; cbn [mbind option_bind]). done.
Qed.

Lemma optional_present {A} p (r : text_reader A) s a rest :
  r s = Some (a, rest) → optional p r (p +:+ s) = Some (Some a, rest).
Proof. intros Hr. unfold optional. rewrite strip_prefix_app, Hr. done. Qed.

Lemma optional_absent {A} p (r : text_reader A) s :
  strip_prefix p s = None → optional p r s = Some (None, s).
Proof. intros Hp. unfold optional. by rewrite Hp. Qed.

Lemma read_null_text v rest :
  not_quote_head squote rest = true → strip_prefix (nl +:+ "NULL = ") rest = None →
  read_null (null_clause v +:+ rest) = Some (v, rest).
Proof.
  intros Hq Hn. unfold read_null, null_clause. destruct v as [v|].
  - rewrite <- str_app_assoc, in_quotes_escape, str_app_assoc. apply optional_present.
    by apply literal_quoted.
  - rewrite str_app_nil_l. by apply optional_absent.
Qed.

(** A value that is written without escaping reads back if it has no quote. *)
Lemma literal_plain f r :
  contains_char squote f = false → not_quote_head squote r = true →
  literal (in_quotes f +:+ r) = Some (f, r).
Proof.
  intros Hf Hr. rewrite <- (escape_quotes_absent f Hf) at 1. rewrite in_quotes_escape.
  by apply literal_quoted.
Qed.
