(* ===== verification/ImportQuery.v ===== *)
(** * The IMPORT statement

    [query/import.rs]: the options of an import and the statement they are written as;
    a reader of IMPORT statements, and the theorem that it reads the options back. *)
From S2P Require Import Prelude MachineInt RustStr StrText Clauses.
From Stdlib Require Import Ascii.

#[local] Open Scope Z_scope.

(* code: query/import.rs 11-21 RowSeparator *)
Inductive RowSeparator := LF | CR | CRLF.

(* code: query/import.rs 24-31 RowSeparator::to_sql *)
Definition RowSeparator_to_sql (r : RowSeparator) : string :=
  match r with LF => "LF" | CR => "CR" | CRLF => "CRLF" end.

(* code: query/import.rs 34-44 Compression *)
Inductive Compression := Uncompressed | Gzip | Bzip2.

(* code: query/import.rs 47-54 Compression::extension *)
Definition extension (c : Compression) : string :=
  match c with Uncompressed => ".csv" | Gzip => ".csv.gz" | Bzip2 => ".csv.bz2" end.

(* code: query/import.rs 57-66 ImportFormat *)
Inductive ImportFormat := Csv | Parquet.

(* code: query/import.rs 68-80 TrimMode *)
Inductive TrimMode := NoTrim | LTrim | RTrim | Trim.

(* code: query/import.rs 83-91 TrimMode::to_sql *)
Definition TrimMode_to_sql (t : TrimMode) : option string :=
  match t with
  | NoTrim => None | LTrim => Some "LTRIM" | RTrim => Some "RTRIM" | Trim => Some "TRIM"
  end.

(* code: query/import.rs 94-123 ImportFileEntry *)
Record ImportFileEntry := {
  fe_address : string;
  fe_file_name : string;
  fe_public_key : option string;
}.

(* code: query/import.rs 146-182 ImportQuery *)
Record ImportQuery := {
  table : string;
  schema : option string;
  columns : option (list string);
  address : option string;
  public_key : option string;
  file_name : string;
  file_entries : option (list ImportFileEntry);
  column_separator : string;
  column_delimiter : string;
  row_separator : RowSeparator;
  encoding : string;
  skip : Z;
  null_value : option string;
  trim : TrimMode;
  compression : Compression;
  reject_limit : option Z;
  format : ImportFormat;
}.

(* code: query/import.rs 185-210 ImportQuery::new *)
Definition ImportQuery_new (table : string) : ImportQuery := {|
  table := table; schema := None; columns := None; address := None; public_key := None;
  file_name := "001.csv"; file_entries := None; column_separator := ",";
  column_delimiter := String dquote ""; row_separator := LF; encoding := "UTF-8"; skip := 0;
  null_value := None; trim := NoTrim; compression := Uncompressed; reject_limit := None;
  format := Csv;
|}.

(* code: query/import.rs 481-483 is_parquet *)
Definition is_parquet (q : ImportQuery) : bool :=
  match format q with Parquet => true | Csv => false end.

(** The first of the suffixes that the name has. *)
Definition strip_extension (s : string) : option string :=
  match strip_suffix ".gz" s with
  | Some r => Some r
  | None =>
    match strip_suffix ".bz2" s with
    | Some r => Some r
    | None =>
      match strip_suffix ".csv" s with
      | Some r => Some r
      | None => strip_suffix ".parquet" s
      end
    end
  end.

(** Every round shortens the name. *)
Fixpoint strip_extensions (fuel : nat) (s : string) : string :=
  match strip_extension s, fuel with
  | Some r, S fuel => if (str_len r <? str_len s)%nat then strip_extensions fuel r else s
  | _, _ => s
  end.

(* code: query/import.rs 499-512 strip_known_extensions *)
Definition strip_known_extensions (s : string) : string := strip_extensions (str_len s) s.

(* code: query/import.rs 485-496 file_name_for *)
Definition file_name_for (q : ImportQuery) (base_name : string) : string :=
  let base := strip_known_extensions base_name in
  match format q with
  | Parquet => base +:+ ".parquet"
  | Csv => base +:+ extension (compression q)
  end.

(* code: query/import.rs 444-456 endpoint_of *)
Definition endpoint_of (q : ImportQuery) (address : string) (public_key : option string) : string :=
  quoted_endpoint address (if is_parquet q then ";MaxConcurrentReads=1" else "") public_key.

(* code: query/import.rs 394-409 target_clause *)
Definition target_clause (q : ImportQuery) : string :=
  "IMPORT INTO " +:+
  match schema q with Some s => s +:+ "." | None => "" end +:+
  table q +:+
  match columns q with Some cols => " (" +:+ join ", " cols +:+ ")" | None => "" end.

(* code: query/import.rs 422-428 source_clause *)
Definition file_clause (q : ImportQuery) (e : ImportFileEntry) : string :=
  " AT " +:+ endpoint_of q (fe_address e) (fe_public_key e) +:+
  " FILE " +:+ in_quotes (file_name_for q (fe_file_name e)).

(* code: query/import.rs 411-442 source_clause *)
Definition source_clause (q : ImportQuery) : string :=
  nl +:+ "FROM " +:+ (if is_parquet q then "PARQUET" else "CSV") +:+
  match file_entries q with
  | Some entries => join "" (file_clause q <$> entries)
  | None =>
    " AT " +:+ endpoint_of q (default ""%string (address q)) (public_key q) +:+
    nl +:+ "FILE " +:+ in_quotes (file_name_for q (file_name q))
  end.

(** The framing options of a query. *)
Definition framing_of (q : ImportQuery) : CsvFraming :=
  {| f_encoding := encoding q; f_column_separator := column_separator q;
     f_column_delimiter := column_delimiter q;
     f_row_separator := RowSeparator_to_sql (row_separator q) |}.

(* code: query/import.rs 458-479 csv_option_clauses *)
Definition csv_option_clauses (q : ImportQuery) : string :=
  CsvFraming_to_sql (framing_of q) +:+
  (if 0 <? skip q then nl +:+ "SKIP = " +:+ show_nat (skip q) else "") +:+
  null_clause (null_value q) +:+
  match TrimMode_to_sql (trim q) with
  | Some t => nl +:+ "TRIM = " +:+ in_quotes t
  | None => ""
  end +:+
  match reject_limit q with Some n => nl +:+ "REJECT LIMIT " +:+ show_nat n | None => "" end.

(* code: query/import.rs 375-392 ImportQuery::build *)
Definition build (q : ImportQuery) : string :=
  target_clause q +:+ source_clause q +:+
  (if is_parquet q then ""%string else csv_option_clauses q).

(** ** The builder *)
Section Builder.
Context (q : ImportQuery).

(* code: query/import.rs 212-219 ImportQuery::schema *)
Definition with_schema (s : string) : ImportQuery := {|
  table := table q; schema := Some s; columns := columns q; address := address q;
  public_key := public_key q; file_name := file_name q; file_entries := file_entries q;
  column_separator := column_separator q; column_delimiter := column_delimiter q;
  row_separator := row_separator q; encoding := encoding q; skip := skip q;
  null_value := null_value q; trim := trim q; compression := compression q;
  reject_limit := reject_limit q; format := format q |}.

(* code: query/import.rs 221-230 ImportQuery::columns *)
Definition with_columns (cols : list string) : ImportQuery := {|
  table := table q; schema := schema q; columns := Some cols; address := address q;
  public_key := public_key q; file_name := file_name q; file_entries := file_entries q;
  column_separator := column_separator q; column_delimiter := column_delimiter q;
  row_separator := row_separator q; encoding := encoding q; skip := skip q;
  null_value := null_value q; trim := trim q; compression := compression q;
  reject_limit := reject_limit q; format := format q |}.

(* code: query/import.rs 232-239 ImportQuery::at_address *)
Definition at_address (addr : string) : ImportQuery := {|
  table := table q; schema := schema q; columns := columns q; address := Some addr;
  public_key := public_key q; file_name := file_name q; file_entries := file_entries q;
  column_separator := column_separator q; column_delimiter := column_delimiter q;
  row_separator := row_separator q; encoding := encoding q; skip := skip q;
  null_value := null_value q; trim := trim q; compression := compression q;
  reject_limit := reject_limit q; format := format q |}.

(* code: query/import.rs 241-250 ImportQuery::with_public_key *)
Definition with_public_key (fingerprint : string) : ImportQuery := {|
  table := table q; schema := schema q; columns := columns q; address := address q;
  public_key := Some fingerprint; file_name := file_name q; file_entries := file_entries q;
  column_separator := column_separator q; column_delimiter := column_delimiter q;
  row_separator := row_separator q; encoding := encoding q; skip := skip q;
  null_value := null_value q; trim := trim q; compression := compression q;
  reject_limit := reject_limit q; format := format q |}.

(* code: query/import.rs 252-259 ImportQuery::file_name *)
Definition with_file_name (name : string) : ImportQuery := {|
  table := table q; schema := schema q; columns := columns q; address := address q;
  public_key := public_key q; file_name := name; file_entries := file_entries q;
  column_separator := column_separator q; column_delimiter := column_delimiter q;
  row_separator := row_separator q; encoding := encoding q; skip := skip q;
  null_value := null_value q; trim := trim q; compression := compression q;
  reject_limit := reject_limit q; format := format q |}.

(* code: query/import.rs 261-268 ImportQuery::column_separator *)
Definition with_column_separator (sep : string) : ImportQuery := {|
  table := table q; schema := schema q; columns := columns q; address := address q;
  public_key := public_key q; file_name := file_name q; file_entries := file_entries q;
  column_separator := sep; column_delimiter := column_delimiter q;
  row_separator := row_separator q; encoding := encoding q; skip := skip q;
  null_value := null_value q; trim := trim q; compression := compression q;
  reject_limit := reject_limit q; format := format q |}.

(* code: query/import.rs 270-277 ImportQuery::column_delimiter *)
Definition with_column_delimiter (delim : string) : ImportQuery := {|
  table := table q; schema := schema q; columns := columns q; address := address q;
  public_key := public_key q; file_name := file_name q; file_entries := file_entries q;
  column_separator := column_separator q; column_delimiter := delim;
  row_separator := row_separator q; encoding := encoding q; skip := skip q;
  null_value := null_value q; trim := trim q; compression := compression q;
  reject_limit := reject_limit q; format := format q |}.

(* code: query/import.rs 279-286 ImportQuery::row_separator *)
Definition with_row_separator (sep : RowSeparator) : ImportQuery := {|
  table := table q; schema := schema q; columns := columns q; address := address q;
  public_key := public_key q; file_name := file_name q; file_entries := file_entries q;
  column_separator := column_separator q; column_delimiter := column_delimiter q;
  row_separator := sep; encoding := encoding q; skip := skip q; null_value := null_value q;
  trim := trim q; compression := compression q; reject_limit := reject_limit q; format := format q |}.

(* code: query/import.rs 288-295 ImportQuery::encoding *)
Definition with_encoding (enc : string) : ImportQuery := {|
  table := table q; schema := schema q; columns := columns q; address := address q;
  public_key := public_key q; file_name := file_name q; file_entries := file_entries q;
  column_separator := column_separator q; column_delimiter := column_delimiter q;
  row_separator := row_separator q; encoding := enc; skip := skip q; null_value := null_value q;
  trim := trim q; compression := compression q; reject_limit := reject_limit q; format := format q |}.

(* code: query/import.rs 297-304 ImportQuery::skip *)
Definition with_skip (rows : Z) : ImportQuery := {|
  table := table q; schema := schema q; columns := columns q; address := address q;
  public_key := public_key q; file_name := file_name q; file_entries := file_entries q;
  column_separator := column_separator q; column_delimiter := column_delimiter q;
  row_separator := row_separator q; encoding := encoding q; skip := rows;
  null_value := null_value q; trim := trim q; compression := compression q;
  reject_limit := reject_limit q; format := format q |}.

(* code: query/import.rs 306-313 ImportQuery::null_value *)
Definition with_null_value (val : string) : ImportQuery := {|
  table := table q; schema := schema q; columns := columns q; address := address q;
  public_key := public_key q; file_name := file_name q; file_entries := file_entries q;
  column_separator := column_separator q; column_delimiter := column_delimiter q;
  row_separator := row_separator q; encoding := encoding q; skip := skip q;
  null_value := Some val; trim := trim q; compression := compression q;
  reject_limit := reject_limit q; format := format q |}.

(* code: query/import.rs 315-322 ImportQuery::trim *)
Definition with_trim (t : TrimMode) : ImportQuery := {|
  table := table q; schema := schema q; columns := columns q; address := address q;
  public_key := public_key q; file_name := file_name q; file_entries := file_entries q;
  column_separator := column_separator q; column_delimiter := column_delimiter q;
  row_separator := row_separator q; encoding := encoding q; skip := skip q;
  null_value := null_value q; trim := t; compression := compression q;
  reject_limit := reject_limit q; format := format q |}.

(* code: query/import.rs 324-333 ImportQuery::compressed *)
Definition compressed (c : Compression) : ImportQuery := {|
  table := table q; schema := schema q; columns := columns q; address := address q;
  public_key := public_key q; file_name := file_name q; file_entries := file_entries q;
  column_separator := column_separator q; column_delimiter := column_delimiter q;
  row_separator := row_separator q; encoding := encoding q; skip := skip q;
  null_value := null_value q; trim := trim q; compression := c; reject_limit := reject_limit q;
  format := format q |}.

(* code: query/import.rs 335-342 ImportQuery::reject_limit *)
Definition with_reject_limit (limit : Z) : ImportQuery := {|
  table := table q; schema := schema q; columns := columns q; address := address q;
  public_key := public_key q; file_name := file_name q; file_entries := file_entries q;
  column_separator := column_separator q; column_delimiter := column_delimiter q;
  row_separator := row_separator q; encoding := encoding q; skip := skip q;
  null_value := null_value q; trim := trim q; compression := compression q;
  reject_limit := Some limit; format := format q |}.

(* code: query/import.rs 344-356 ImportQuery::with_format *)
Definition with_format (f : ImportFormat) : ImportQuery := {|
  table := table q; schema := schema q; columns := columns q; address := address q;
  public_key := public_key q; file_name := file_name q; file_entries := file_entries q;
  column_separator := column_separator q; column_delimiter := column_delimiter q;
  row_separator := row_separator q; encoding := encoding q; skip := skip q;
  null_value := null_value q; trim := trim q; compression := compression q;
  reject_limit := reject_limit q; format := f |}.

(* code: query/import.rs 358-373 ImportQuery::with_files *)
Definition with_files (entries : list ImportFileEntry) : ImportQuery := {|
  table := table q; schema := schema q; columns := columns q; address := address q;
  public_key := public_key q; file_name := file_name q; file_entries := Some entries;
  column_separator := column_separator q; column_delimiter := column_delimiter q;
  row_separator := row_separator q; encoding := encoding q; skip := skip q;
  null_value := null_value q; trim := trim q; compression := compression q;
  reject_limit := reject_limit q; format := format q |}.

End Builder.

(** ** A reader of IMPORT statements *)
Record FileSpec := { s_url : string; s_key : option string; s_file : string }.

Record CsvSpec := {
  s_framing : CsvFraming;
  s_skip : Z;
  s_null : option string;
  s_trim : option string;
  s_reject : option Z;
}.

Record ImportSpec := {
  s_target : string;
  s_parquet : bool;
  s_files : list FileSpec;
  s_csv : option CsvSpec;
}.

(** The decimal digits at the head, and the text behind them. *)
Fixpoint span_digits (s : string) : string * string :=
  match s with
  | String a r =>
    if is_digit a then let '(d, r) := span_digits r in (String a d, r) else (""%string, s)
  | EmptyString => (""%string, s)
  end.

Definition read_number : text_reader Z := λ s,
  let '(d, r) := span_digits s in (λ n, (n, r)) <$> parse_nat d.

(** A file: an endpoint and the file's name, on the same line or the next. *)
Definition read_file : text_reader FileSpec := λ s,
  '(_, s) ← expect " AT " s;
  '((url, key), s) ← read_endpoint s;
  '(_, s) ← match strip_prefix " FILE " s with
            | Some r => Some ((), r)
            | None => expect (nl +:+ "FILE ") s
            end;
  '(file, s) ← literal s;
  Some ({| s_url := url; s_key := key; s_file := file |}, s).

(** The files, as long as there is one. *)
Fixpoint read_files (fuel : nat) : text_reader (list FileSpec) := λ s,
  match strip_prefix " AT " s, fuel with
  | Some _, S fuel =>
    '(f, s) ← read_file s; '(fs, s) ← read_files fuel s; Some (f :: fs, s)
  | _, _ => Some ([], s)
  end.

Definition read_csv : text_reader CsvSpec := λ s,
  '(framing, s) ← read_framing s;
  '(sk, s) ← optional (nl +:+ "SKIP = ") read_number s;
  '(nul, s) ← read_null s;
  '(tr, s) ← optional (nl +:+ "TRIM = ") literal s;
  '(rej, s) ← optional (nl +:+ "REJECT LIMIT ") read_number s;
  Some ({| s_framing := framing; s_skip := default 0 sk; s_null := nul; s_trim := tr;
           s_reject := rej |}, s).

(** A whole statement. *)
Definition read_import (s : string) : option ImportSpec :=
  s ← strip_prefix "IMPORT INTO " s;
  '(target, s) ← split_once newline s;
  s ← strip_prefix "FROM " s;
  '(parquet, s) ← match strip_prefix "PARQUET" s with
                  | Some r => Some (true, r)
                  | None => (λ r, (false, r)) <$> strip_prefix "CSV" s
                  end;
  '(files, s) ← read_files (str_len s) s;
  '(csv, s) ← (if parquet : bool then Some (None, s)
               else '(c, s) ← read_csv s; Some (Some c, s));
  if String.eqb s "" then
    Some {| s_target := target; s_parquet := parquet; s_files := files; s_csv := csv |}
  else None.

(** ** What a query asks for *)
Definition spec_files (q : ImportQuery) : list FileSpec :=
  let url address key :=
    endpoint_url address (if is_parquet q then ";MaxConcurrentReads=1" else "") key in
  match file_entries q with
  | Some entries =>
    (λ e, {| s_url := url (fe_address e) (fe_public_key e); s_key := fe_public_key e;
             s_file := file_name_for q (fe_file_name e) |}) <$> entries
  | None =>
    [{| s_url := url (default ""%string (address q)) (public_key q); s_key := public_key q;
        s_file := file_name_for q (file_name q) |}]
  end.

Definition spec_csv (q : ImportQuery) : CsvSpec :=
  {| s_framing := framing_of q; s_skip := skip q; s_null := null_value q;
     s_trim := TrimMode_to_sql (trim q); s_reject := reject_limit q |}.

Definition spec_of (q : ImportQuery) : ImportSpec :=
  {| s_target := default ""%string (strip_prefix "IMPORT INTO " (target_clause q));
     s_parquet := is_parquet q; s_files := spec_files q;
     s_csv := if is_parquet q then None else Some (spec_csv q) |}.

(** The names of the files in the statement. *)
Definition file_names (q : ImportQuery) : list string := s_file <$> spec_files q.

Definition unquoted (name : string) : Prop := contains_char squote name = false.

Record import_ok (q : ImportQuery) : Prop := {
  ok_target : contains_char newline (target_clause q) = false;
  ok_framing : framing_ok (framing_of q);
  ok_numbers : 0 ≤ skip q ∧ ∀ n, reject_limit q = Some n → 0 ≤ n;
}.

(** ** Lemmas *)
Lemma span_digits_app d r :
  str_forall is_digit d = true →
  match r with String a _ => is_digit a = false | EmptyString => True end →
  span_digits (d +:+ r) = (d, r).
Proof.
  intros Hd Hr. induction d as [|a d IH].
  - rewrite str_app_nil_l. destruct r as [|a r]; [done|]. cbn. by rewrite Hr.
  - cbn in Hd. apply andb_prop in Hd as [Ha Hd]. rewrite str_app_cons. cbn.
    by rewrite Ha, IH.
Qed.

(** A text that a number or a name cannot run into. *)
Definition line_start (s : string) : Prop :=
  match s with String a _ => a = newline | EmptyString => True end.

Lemma line_start_quote s : line_start s → not_quote_head squote s = true.
Proof. destruct s as [|a s]; [done|]. by intros ->. Qed.

Lemma read_number_text n r : 0 ≤ n → line_start r → read_number (show_nat n +:+ r) = Some (n, r).
Proof.
  intros Hn Hr. unfold read_number. destruct (show_nat_spec n Hn) as (Hp & Hne & Hd).
  rewrite span_digits_app; [|done|by destruct r as [|a r]; [|rewrite Hr]].
  unfold parse_nat. destruct (show_nat n); [done|]. by rewrite Hp.
Qed.

(** The text of a number clause reads back. *)
Lemma optional_number p n r :
  0 ≤ n → line_start r → optional p read_number (p +:+ show_nat n +:+ r) = Some (Some n, r).
Proof. intros Hn Hr. by apply optional_present, read_number_text. Qed.

Section Reads.
Context (q : ImportQuery).

Definition file_ok (e : ImportFileEntry) : Prop := unquoted (file_name_for q (fe_file_name e)).

Definition spec_file (e : ImportFileEntry) : FileSpec :=
  {| s_url := endpoint_url (fe_address e) (if is_parquet q then ";MaxConcurrentReads=1" else "")
                (fe_public_key e);
     s_key := fe_public_key e; s_file := file_name_for q (fe_file_name e) |}.

(** What follows a file: the next one, a new line, or nothing. *)
Definition behind_file (s : string) : Prop :=
  line_start s ∨ ∃ r, s = " AT '" +:+ r.

Lemma behind_file_quote s : behind_file s → not_quote_head squote s = true.
Proof. intros [Hs|[r ->]]; [by apply line_start_quote|done]. Qed.

Lemma endpoint_behind r : ends_endpoint (" FILE " +:+ r) ∧ ends_endpoint (nl +:+ "FILE " +:+ r).
Proof. done. Qed.

Lemma read_file_text e r :
  file_ok e → behind_file r →
  read_file (file_clause q e +:+ r) = Some (spec_file e, r).
Proof.
  intros He Hr. unfold file_clause, endpoint_of, read_file. rewrite !str_app_assoc, expect_app.
  cbn [mbind option_bind].
  rewrite read_endpoint_text by (by apply endpoint_behind). cbn [mbind option_bind].
  rewrite strip_prefix_app. cbn [mbind option_bind].
  rewrite literal_plain by (done || by apply behind_file_quote). done.
Qed.

Lemma file_clause_head e r : ∃ r', file_clause q e +:+ r = " AT '" +:+ r'.
Proof.
  unfold file_clause, endpoint_of. rewrite quoted_endpoint_text. unfold quoted.
  eexists. by rewrite !str_app_assoc, str_app_cons.
Qed.

Lemma files_behind es r : line_start r → behind_file (join "" (file_clause q <$> es) +:+ r).
Proof.
  intros Hr. destruct es as [|e es]; [by left|]. right.
  destruct es as [|e' es]; [apply (file_clause_head e r)|].
  cbn [fmap list_fmap]. unfold join. cbn [String.concat]. rewrite !str_app_assoc.
  apply file_clause_head.
Qed.

Lemma join_cons s ws : join "" (s :: ws) = s +:+ join "" ws.
Proof. destruct ws; [by rewrite str_app_nil_r|done]. Qed.

Lemma files_length es r : (length es ≤ str_len (join "" (file_clause q <$> es) +:+ r))%nat.
Proof.
  induction es as [|e es IH]; [cbn; lia|]. cbn [fmap list_fmap length].
  rewrite join_cons, str_app_assoc, str_len_app.
  unfold file_clause at 1. rewrite str_len_app. change (str_len " AT ") with 4%nat. lia.
Qed.

Lemma read_files_text es r fuel :
  Forall file_ok es → line_start r → (length es ≤ fuel)%nat →
  read_files fuel (join "" (file_clause q <$> es) +:+ r) = Some (spec_file <$> es, r).
Proof.
  intros Hes Hr. revert fuel. induction Hes as [|e es He _ IH]; intros fuel Hf.
  - rewrite str_app_nil_l. destruct r as [|a r]; [by destruct fuel|]. cbn in Hr. subst a.
    by destruct fuel.
  - destruct fuel as [|fuel]; [cbn in Hf; lia|]. cbn [fmap list_fmap]. rewrite join_cons, str_app_assoc.
    pose proof (read_file_text e (join "" (file_clause q <$> es) +:+ r) He (files_behind es r Hr))
      as Hread.
    destruct (file_clause_head e (join "" (file_clause q <$> es) +:+ r)) as [r' Hr'].
    rewrite Hr' in *. cbn [read_files]. change (" AT '" +:+ r') with (" AT " +:+ (String squote r')) at 1.
    rewrite strip_prefix_app, Hread. cbn [mbind option_bind].
    rewrite IH by (cbn in Hf; lia). done.
Qed.
(** The other way round: what reads back has no quotes in its names. *)
Lemma read_file_plain e r r' :
  behind_file r → read_file (file_clause q e +:+ r) = Some (spec_file e, r') →
  file_ok e ∧ r' = r.
Proof.
  intros Hr Hf.
  assert (file_ok e) as He.
  { revert Hf. unfold file_clause, endpoint_of, read_file. rewrite !str_app_assoc, expect_app.
    cbn [mbind option_bind].
    rewrite read_endpoint_text by (by apply endpoint_behind). cbn [mbind option_bind].
    rewrite strip_prefix_app. cbn [mbind option_bind].
    intros ([f s] & Hl & Hs)%bind_Some. unfold spec_file in Hs. simplify_eq.
    eapply literal_unescaped; [by apply behind_file_quote|done]. }
  split; [done|]. rewrite read_file_text in Hf by done. by injection Hf as ->.
Qed.

Lemma read_files_plain es r r' fuel :
  line_start r → (length es ≤ fuel)%nat →
  read_files fuel (join "" (file_clause q <$> es) +:+ r) = Some (spec_file <$> es, r') →
  Forall file_ok es.
Proof.
  intros Hr. revert fuel r'. induction es as [|e es IH]; intros fuel r' Hf; [constructor|].
  destruct fuel as [|fuel]; [cbn in Hf; lia|]. cbn [fmap list_fmap]. rewrite join_cons, str_app_assoc.
  pose proof (read_file_plain e (join "" (file_clause q <$> es) +:+ r)) as Hread.
  destruct (file_clause_head e (join "" (file_clause q <$> es) +:+ r)) as [r1 Hr1].
  rewrite Hr1 in *. cbn [read_files]. change (" AT '" +:+ r1) with (" AT " +:+ (String squote r1)) at 1.
  rewrite strip_prefix_app.
  intros ([f s] & Hfile & ([fs s'] & Hfiles & Heq)%bind_Some)%bind_Some. simplify_eq.
  destruct (Hread s (files_behind es r Hr) Hfile) as [He ->].
  constructor; [done|]. eapply IH; [|exact Hfiles]. cbn in Hf. lia.
Qed.
End Reads.

Section Statement.
Context (q : ImportQuery).

Lemma read_single_text r fuel :
  unquoted (file_name_for q (file_name q)) → line_start r →
  (1 ≤ fuel)%nat →
  read_files fuel (" AT " +:+ endpoint_of q (default ""%string (address q)) (public_key q) +:+
    nl +:+ "FILE " +:+ in_quotes (file_name_for q (file_name q)) +:+ r)
  = Some ([{| s_url := endpoint_url (default ""%string (address q))
                (if is_parquet q then ";MaxConcurrentReads=1" else "") (public_key q);
              s_key := public_key q; s_file := file_name_for q (file_name q) |}], r).
Proof.
  intros Hf Hr Hfuel. destruct fuel as [|fuel]; [lia|].
  cbn [read_files]. rewrite strip_prefix_app. unfold read_file. rewrite expect_app.
  cbn [mbind option_bind]. unfold endpoint_of.
  rewrite read_endpoint_text by apply endpoint_behind. cbn [mbind option_bind].
  change (strip_prefix " FILE " (nl +:+ _)) with (@None string). cbv match.
  rewrite <- str_app_assoc, expect_app. cbn [mbind option_bind].
  rewrite literal_plain by (done || by apply line_start_quote). cbn [mbind option_bind].
  destruct r as [|a r]; [by destruct fuel|]. cbn in Hr. subst a. by destruct fuel.
Qed.

Lemma read_single_plain r r' fuel :
  line_start r → (1 ≤ fuel)%nat →
  read_files fuel (" AT " +:+ endpoint_of q (default ""%string (address q)) (public_key q) +:+
    nl +:+ "FILE " +:+ in_quotes (file_name_for q (file_name q)) +:+ r)
  = Some ([{| s_url := endpoint_url (default ""%string (address q))
                (if is_parquet q then ";MaxConcurrentReads=1" else "") (public_key q);
              s_key := public_key q; s_file := file_name_for q (file_name q) |}], r') →
  unquoted (file_name_for q (file_name q)).
Proof.
  intros Hr Hfuel. destruct fuel as [|fuel]; [lia|].
  cbn [read_files]. rewrite strip_prefix_app. unfold read_file. rewrite expect_app.
  cbn [mbind option_bind]. unfold endpoint_of.
  rewrite read_endpoint_text by apply endpoint_behind. cbn [mbind option_bind].
  change (strip_prefix " FILE " (nl +:+ _)) with (@None string). cbv match.
  rewrite <- str_app_assoc, expect_app. cbn [mbind option_bind].
  intros ([f s] & ([f' s1] & Hl & Hf)%bind_Some & ([fs s2] & _ & Hs)%bind_Some)%bind_Some.
  simplify_eq. eapply literal_unescaped; [by apply line_start_quote|done].
Qed.

(** The optional clauses behind the framing, from the last one on. *)
Definition reject_text : string :=
  match reject_limit q with Some n => nl +:+ "REJECT LIMIT " +:+ show_nat n | None => "" end.
Definition trim_text : string :=
  match TrimMode_to_sql (trim q) with
  | Some t => nl +:+ "TRIM = " +:+ in_quotes t
  | None => ""
  end.
Definition skip_text : string :=
  if 0 <? skip q then nl +:+ "SKIP = " +:+ show_nat (skip q) else "".

Lemma null_clause_head v : null_clause v = ""%string ∨ ∃ r, null_clause v = nl +:+ "NULL = " +:+ r.
Proof. destruct v as [v|]; [right|by left]. eexists. reflexivity. Qed.

Lemma read_skip_text r :
  0 ≤ skip q → line_start r → strip_prefix (nl +:+ "SKIP = ") r = None →
  optional (nl +:+ "SKIP = ") read_number (skip_text +:+ r)
  = Some (if 0 <? skip q then Some (skip q) else None, r).
Proof.
  intros Hs Hr Hn. unfold skip_text. destruct (0 <? skip q); [|by apply optional_absent].
  rewrite !str_app_assoc, <- (str_app_assoc nl). by apply optional_number.
Qed.

Lemma read_trim_text r :
  line_start r → strip_prefix (nl +:+ "TRIM = ") r = None →
  optional (nl +:+ "TRIM = ") literal (trim_text +:+ r) = Some (TrimMode_to_sql (trim q), r).
Proof.
  intros Hr Hn. unfold trim_text. destruct (trim q); cbn [TrimMode_to_sql];
    [by apply optional_absent|..];
    (rewrite !str_app_assoc, <- (str_app_assoc nl); apply optional_present, literal_plain;
     [done|by apply line_start_quote]).
Qed.

Lemma read_reject_text :
  (∀ n, reject_limit q = Some n → 0 ≤ n) →
  optional (nl +:+ "REJECT LIMIT ") read_number reject_text = Some (reject_limit q, ""%string).
Proof.
  intros Hl. unfold reject_text. destruct (reject_limit q) as [n|]; [|by apply optional_absent].
  rewrite <- (str_app_nil_r (show_nat n)), <- !str_app_assoc, (str_app_assoc (nl +:+ _)).
  by apply optional_number; [apply Hl|].
Qed.

Lemma read_csv_text : import_ok q → read_csv (csv_option_clauses q) = Some (spec_csv q, ""%string).
Proof.
  intros [_ Hf [Hs Hl]]. unfold csv_option_clauses, read_csv.
  fold reject_text trim_text skip_text.
  assert (line_start reject_text) as H1 by (unfold reject_text; by destruct (reject_limit q)).
  assert (line_start (trim_text +:+ reject_text)) as H2 by (unfold trim_text; by destruct (trim q)).
  assert (line_start (null_clause (null_value q) +:+ trim_text +:+ reject_text)) as H3
    by (by destruct (null_clause_head (null_value q)) as [-> | [r ->]]).
  assert (line_start (skip_text +:+ null_clause (null_value q) +:+ trim_text +:+ reject_text)) as H4
    by (unfold skip_text; by destruct (0 <? skip q)).
  rewrite read_framing_text by (done || by apply line_start_quote). cbn [mbind option_bind].
  rewrite read_skip_text; [|done|done|].
  2:{ destruct (null_clause_head (null_value q)) as [-> | [r ->]]; [|done].
      unfold trim_text, reject_text. by destruct (trim q), (reject_limit q). }
  cbn [mbind option_bind].
  rewrite read_null_text; [|by apply line_start_quote|unfold trim_text, reject_text;
    by destruct (trim q), (reject_limit q)]. cbn [mbind option_bind].
  rewrite read_trim_text; [|done|unfold reject_text; by destruct (reject_limit q)].
  cbn [mbind option_bind]. rewrite read_reject_text by done. cbn [mbind option_bind].
  unfold spec_csv. f_equal. f_equal. f_equal. destruct (Z.ltb_spec 0 (skip q)); cbn; lia.
Qed.

Lemma target_split : ∃ t, target_clause q = "IMPORT INTO " +:+ t.
Proof. by eexists. Qed.

(** The files of a query, behind the format. *)
Definition files_text : string :=
  match file_entries q with
  | Some entries => join "" (file_clause q <$> entries)
  | None =>
    " AT " +:+ endpoint_of q (default ""%string (address q)) (public_key q) +:+
    nl +:+ "FILE " +:+ in_quotes (file_name_for q (file_name q))
  end.

Lemma read_source_text r fuel :
  Forall unquoted (file_names q) → line_start r →
  (str_len (files_text +:+ r) ≤ fuel)%nat →
  read_files fuel (files_text +:+ r) = Some (spec_files q, r).
Proof.
  unfold files_text, file_names, spec_files. intros Hf Hr Hfuel.
  destruct (file_entries q) as [es|].
  - apply read_files_text; [|done|].
    + by rewrite !Forall_fmap in Hf.
    + etransitivity; [apply files_length|exact Hfuel].
  - apply Forall_cons in Hf as [Hf _]. rewrite !str_app_assoc in *.
    apply read_single_text; [done|done|].
    etransitivity; [|exact Hfuel]. rewrite str_len_app.
    change (str_len " AT ") with 4%nat. lia.
Qed.

Lemma read_source_plain r r' fuel :
  line_start r → (str_len (files_text +:+ r) ≤ fuel)%nat →
  read_files fuel (files_text +:+ r) = Some (spec_files q, r') →
  Forall unquoted (file_names q).
Proof.
  unfold files_text, file_names, spec_files. intros Hr Hfuel.
  destruct (file_entries q) as [es|].
  - intros Hes%(read_files_plain q es r r' fuel Hr).
    + by rewrite !Forall_fmap.
    + etransitivity; [apply files_length|exact Hfuel].
  - rewrite !str_app_assoc in *. intros Hs%read_single_plain; [by repeat constructor|done|].
    etransitivity; [|exact Hfuel]. rewrite str_len_app.
    change (str_len " AT ") with 4%nat. lia.
Qed.

(** The statement up to the files. *)
Lemma read_import_files :
  import_ok q →
  read_import (build q) =
    ('(files, s) ← read_files
       (str_len (files_text +:+ if is_parquet q then ""%string else csv_option_clauses q))
       (files_text +:+ if is_parquet q then ""%string else csv_option_clauses q);
     '(csv, s) ← (if is_parquet q then Some (None, s)
                  else '(c, s) ← read_csv s; Some (Some c, s));
     if String.eqb s "" then
       Some {| s_target := s_target (spec_of q); s_parquet := is_parquet q; s_files := files;
               s_csv := csv |}
     else None).
Proof.
  intros Hq. pose proof Hq as [Ht _ _]. unfold build, read_import.
  destruct target_split as [t Et]. rewrite Et, str_app_assoc, strip_prefix_app.
  cbn [mbind option_bind]. unfold source_clause. fold files_text.
  assert (contains_char newline t = false) as Hnt.
  { rewrite Et, contains_char_app in Ht. by apply orb_false_iff in Ht as [_ ?]. }
  rewrite !str_app_assoc. unfold nl at 1. rewrite str_app_char, split_once_cons by done.
  cbn [mbind option_bind]. rewrite strip_prefix_app. cbn [mbind option_bind].
  set (options := if is_parquet q then ""%string else csv_option_clauses q).
  replace (match strip_prefix "PARQUET" _ with Some r => _ | None => _ end)
    with (Some (is_parquet q, files_text +:+ options))
    by (destruct (is_parquet q); [by rewrite strip_prefix_app|done]).
  cbn [mbind option_bind spec_of s_target]. by rewrite Et, strip_prefix_app.
Qed.

(** C20: an IMPORT statement: whatever the endpoints, keys, encoding, separators, null text
    and limits of an import, with one file or many, a reader of the statement text sees
    exactly these options - every quote inside a value is doubled, so that no value ends
    its literal and becomes SQL - if and only if no file name holds a quote. File names are
    not escaped, and a statement with a quote in one of them never reads back as what it
    was built for. The target (schema, table and columns, which the statement takes as they
    are) is taken to hold no line feed, the separators to be single characters and the
    numbers not to be negative. *)
Theorem import_reads_back :
  import_ok q →
  read_import (build q) = Some (spec_of q) ↔ Forall unquoted (file_names q).
Proof.
  intros Hq. rewrite read_import_files by done.
  set (options := if is_parquet q then ""%string else csv_option_clauses q).
  assert (line_start options) as Ho by (unfold options; by destruct (is_parquet q)).
  split.
  - intros ([files s] & Hf & ([csv s'] & _ & Hs)%bind_Some)%bind_Some.
    destruct (String.eqb s' ""); [|done]. unfold spec_of in Hs. simplify_eq.
    by eapply read_source_plain.
  - intros Hf. rewrite read_source_text by done. cbn [mbind option_bind].
    unfold options, spec_of. destruct (is_parquet q); [done|].
    rewrite read_csv_text by done. done.
Qed.
End Statement.

Lemma name_without_extension s : strip_known_extensions (s +:+ "b") = s +:+ "b".
Proof.
  assert (strip_extension (s +:+ "b") = None) as Hn
    by (unfold strip_extension, strip_suffix; by rewrite str_rev_app).
  unfold strip_known_extensions. by destruct (str_len (s +:+ "b")); cbn; rewrite Hn.
Qed.

(** The names of import files are not escaped: a file name with a quote in it ends the
    name's literal, and the rest becomes SQL. For every address and host there is one file
    whose statement is the statement of two files, the second one at that host. *)
Theorem file_name_adds_file t addr host :
  contains_char squote host = false →
  build (with_files (ImportQuery_new t)
    [{| fe_address := addr; fe_public_key := None;
        fe_file_name := "a.csv' AT 'http://" +:+ host +:+ "' FILE 'b" |}])
  = build (with_files (ImportQuery_new t)
      [{| fe_address := addr; fe_public_key := None; fe_file_name := "a" |};
       {| fe_address := host; fe_public_key := None; fe_file_name := "b" |}]).
Proof.
  intros Hh. unfold build. f_equal.
  assert (∀ s, file_name_for (with_files (ImportQuery_new t) s)
    ("a.csv' AT 'http://" +:+ host +:+ "' FILE 'b")
    = "a.csv' AT 'http://" +:+ host +:+ "' FILE 'b.csv") as Hn.
  { intros s. unfold file_name_for. change "' FILE 'b" with ("' FILE '" +:+ "b").
    rewrite <- !str_app_assoc, name_without_extension. cbn [format with_files ImportQuery_new
      compression extension]. by rewrite !str_app_assoc. }
  unfold source_clause. cbn [file_entries with_files is_parquet format ImportQuery_new fmap list_fmap].
  unfold file_clause at 1. cbn [fe_address fe_public_key fe_file_name]. rewrite Hn.
  unfold file_clause, endpoint_of, quoted_endpoint. cbn [fe_address fe_public_key fe_file_name
    is_parquet with_files ImportQuery_new format].
  rewrite (escape_quotes_absent host) by done. unfold join. cbn [String.concat].
  unfold in_quotes. cbn. repeat (rewrite ?str_app_assoc, ?str_app_cons, ?str_app_nil_l). done.
Qed.

Definition sample_import : ImportQuery :=
  with_null_value (with_trim (with_reject_limit (with_skip (with_public_key (with_column_separator
    (at_address (with_schema (ImportQuery_new "T") "S") "10.0.0.5:8563") ";") "ab'cd") 1) 10) RTrim)
    "it's null".

Lemma import_reads_back_witness :
  read_import (build sample_import) = Some (spec_of sample_import) ∧
  s_csv (spec_of sample_import) = Some
    {| s_framing := {| f_encoding := "UTF-8"; f_column_separator := ";";
                       f_column_delimiter := String dquote ""; f_row_separator := "LF" |};
       s_skip := 1; s_null := Some "it's null"; s_trim := Some "RTRIM"; s_reject := Some 10 |} ∧
  read_import (build (with_file_name (ImportQuery_new "T") "it's"))
    ≠ Some (spec_of (with_file_name (ImportQuery_new "T") "it's")).
Proof.
  split; [|split; [reflexivity|]].
  - apply import_reads_back; [|repeat constructor]. split.
    + reflexivity.
    + split; split; reflexivity || (split; reflexivity).
    + split; [vm_compute; discriminate|]. by intros n [= <-].
  - intros Hread. apply import_reads_back in Hread as Hf.
    + apply Forall_cons in Hf as [Hf _]. discriminate Hf.
    + split; [reflexivity|split; split; reflexivity || (split; reflexivity)|done].
Defined.

Lemma file_name_adds_file_witness :
  build (with_files (ImportQuery_new "T")
    [{| fe_address := "10.0.0.5:1"; fe_public_key := None;
        fe_file_name := "a.csv' AT 'http://evil.example:80' FILE 'b" |}])
  = build (with_files (ImportQuery_new "T")
      [{| fe_address := "10.0.0.5:1"; fe_public_key := None; fe_file_name := "a" |};
       {| fe_address := "evil.example:80"; fe_public_key := None; fe_file_name := "b" |}]).
Proof. apply (file_name_adds_file "T" "10.0.0.5:1" "evil.example:80"). reflexivity. Defined.
