(* ===== verification/ExportQuery.v ===== *)
(** * The EXPORT statement

    [query/export.rs]: the options of an export and the statement they are written as;
    a reader of the statement behind its source, and the theorem that it reads the
    options back. *)
From S2P Require Import Prelude MachineInt RustStr StrText Clauses.
From Stdlib Require Import Ascii.

#[local] Open Scope Z_scope.

(* code: query/export.rs 11-21 RowSeparator *)
Inductive RowSeparator := LF | CR | CRLF.

(* code: query/export.rs 24-31 RowSeparator::as_sql *)
Definition RowSeparator_as_sql (r : RowSeparator) : string :=
  match r with LF => "LF" | CR => "CR" | CRLF => "CRLF" end.

(* code: query/export.rs 34-44 Compression *)
Inductive Compression := Uncompressed | Gzip | Bzip2.

(* code: query/export.rs 47-54 Compression::extension *)
Definition extension (c : Compression) : string :=
  match c with Uncompressed => "" | Gzip => ".gz" | Bzip2 => ".bz2" end.

(* code: query/export.rs 57-67 DelimitMode *)
Inductive DelimitMode := Auto | Always | Never.

(* code: query/export.rs 70-77 DelimitMode::as_sql *)
Definition DelimitMode_as_sql (m : DelimitMode) : string :=
  match m with Auto => "AUTO" | Always => "ALWAYS" | Never => "NEVER" end.

(* code: query/export.rs 80-97 ExportSource *)
Inductive ExportSource :=
| Table (schema : option string) (name : string) (columns : list string)
| Query (sql : string).

(* code: query/export.rs 99-104 qualified_name *)
Definition qualified_name (schema : option string) (name : string) : string :=
  match schema with Some schema => schema +:+ "." +:+ name | None => name end.

(* code: query/export.rs 112-131 ExportSource::select_statement *)
Definition select_statement (s : ExportSource) : string :=
  match s with
  | Table schema name columns =>
    let select_list := match columns with [] => "*"%string | _ => join ", " columns end in
    "SELECT " +:+ select_list +:+ " FROM " +:+ qualified_name schema name
  | Query sql => sql
  end.

(* code: query/export.rs 139-164 ExportQuery *)
Record ExportQuery := {
  source : ExportSource;
  address : string;
  public_key : option string;
  file_name : string;
  column_separator : string;
  column_delimiter : string;
  row_separator : RowSeparator;
  encoding : string;
  null_value : option string;
  delimit_mode : DelimitMode;
  compression : Compression;
  with_column_names : bool;
}.

(* code: query/export.rs 197-213 ExportQuery::with_source *)
Definition with_source (source : ExportSource) : ExportQuery := {|
  source := source; address := ""; public_key := None; file_name := "001.csv";
  column_separator := ","; column_delimiter := String dquote ""; row_separator := LF;
  encoding := "UTF-8"; null_value := None; delimit_mode := Auto; compression := Uncompressed;
  with_column_names := false;
|}.

(* code: query/export.rs 175-181 ExportQuery::from_table *)
Definition from_table (table : string) : ExportQuery := with_source (Table None table []).

(* code: query/export.rs 191-195 ExportQuery::from_query *)
Definition from_query (sql : string) : ExportQuery := with_source (Query sql).

(* code: query/export.rs 395-413 source_clause *)
Definition source_clause (q : ExportQuery) : string :=
  match source q with
  | Table schema name columns =>
    "EXPORT " +:+ qualified_name schema name +:+
    match columns with [] => "" | _ => " (" +:+ join ", " columns +:+ ")" end
  | Query query => "EXPORT (" +:+ query +:+ ")"
  end.

(* code: query/export.rs 415-423 destination_clause *)
Definition destination_clause (q : ExportQuery) : string :=
  nl +:+ "INTO CSV AT " +:+ quoted_endpoint (address q) "" (public_key q) +:+
  nl +:+ "FILE " +:+ in_quotes (file_name q +:+ extension (compression q)).

(** The framing options of a query. *)
Definition framing_of (q : ExportQuery) : CsvFraming :=
  {| f_encoding := encoding q; f_column_separator := column_separator q;
     f_column_delimiter := column_delimiter q;
     f_row_separator := RowSeparator_as_sql (row_separator q) |}.

(* code: query/export.rs 425-442 format_option_clauses *)
Definition format_option_clauses (q : ExportQuery) : string :=
  CsvFraming_to_sql (framing_of q) +:+
  null_clause (null_value q) +:+
  (if with_column_names q then nl +:+ "WITH COLUMN NAMES" else ""%string) +:+
  nl +:+ "DELIMIT = " +:+ DelimitMode_as_sql (delimit_mode q).

(* code: query/export.rs 383-393 ExportQuery::build *)
Definition build (q : ExportQuery) : string :=
  source_clause q +:+ destination_clause q +:+ format_option_clauses q.

(** ** The builder *)
Section Builder.
Context (q : ExportQuery).

Definition set_source (s : ExportSource) : ExportQuery := {|
  source := s; address := address q; public_key := public_key q; file_name := file_name q;
  column_separator := column_separator q; column_delimiter := column_delimiter q;
  row_separator := row_separator q; encoding := encoding q; null_value := null_value q;
  delimit_mode := delimit_mode q; compression := compression q;
  with_column_names := with_column_names q |}.

(* code: query/export.rs 215-230 ExportQuery::schema *)
Definition with_schema (s : string) : ExportQuery :=
  match source q with
  | Table _ name columns => set_source (Table (Some s) name columns)
  | Query _ => q
  end.

(* code: query/export.rs 232-247 ExportQuery::columns *)
Definition with_columns (cols : list string) : ExportQuery :=
  match source q with
  | Table schema name _ => set_source (Table schema name cols)
  | Query _ => q
  end.

(* code: query/export.rs 249-260 ExportQuery::at_address *)
Definition at_address (addr : string) : ExportQuery := {|
  source := source q; address := addr; public_key := public_key q; file_name := file_name q;
  column_separator := column_separator q; column_delimiter := column_delimiter q;
  row_separator := row_separator q; encoding := encoding q; null_value := null_value q;
  delimit_mode := delimit_mode q; compression := compression q;
  with_column_names := with_column_names q |}.

(* code: query/export.rs 262-272 ExportQuery::with_public_key *)
Definition with_public_key (fingerprint : string) : ExportQuery := {|
  source := source q; address := address q; public_key := Some fingerprint;
  file_name := file_name q; column_separator := column_separator q;
  column_delimiter := column_delimiter q; row_separator := row_separator q;
  encoding := encoding q; null_value := null_value q; delimit_mode := delimit_mode q;
  compression := compression q; with_column_names := with_column_names q |}.

(* code: query/export.rs 274-285 ExportQuery::file_name *)
Definition with_file_name (name : string) : ExportQuery := {|
  source := source q; address := address q; public_key := public_key q; file_name := name;
  column_separator := column_separator q; column_delimiter := column_delimiter q;
  row_separator := row_separator q; encoding := encoding q; null_value := null_value q;
  delimit_mode := delimit_mode q; compression := compression q;
  with_column_names := with_column_names q |}.

(* code: query/export.rs 287-297 ExportQuery::column_separator *)
Definition with_column_separator (sep : string) : ExportQuery := {|
  source := source q; address := address q; public_key := public_key q; file_name := file_name q;
  column_separator := sep; column_delimiter := column_delimiter q;
  row_separator := row_separator q; encoding := encoding q; null_value := null_value q;
  delimit_mode := delimit_mode q; compression := compression q;
  with_column_names := with_column_names q |}.

(* code: query/export.rs 299-309 ExportQuery::column_delimiter *)
Definition with_column_delimiter (delim : string) : ExportQuery := {|
  source := source q; address := address q; public_key := public_key q; file_name := file_name q;
  column_separator := column_separator q; column_delimiter := delim;
  row_separator := row_separator q; encoding := encoding q; null_value := null_value q;
  delimit_mode := delimit_mode q; compression := compression q;
  with_column_names := with_column_names q |}.

(* code: query/export.rs 311-321 ExportQuery::row_separator *)
Definition with_row_separator (sep : RowSeparator) : ExportQuery := {|
  source := source q; address := address q; public_key := public_key q; file_name := file_name q;
  column_separator := column_separator q; column_delimiter := column_delimiter q;
  row_separator := sep; encoding := encoding q; null_value := null_value q;
  delimit_mode := delimit_mode q; compression := compression q;
  with_column_names := with_column_names q |}.

(* code: query/export.rs 323-333 ExportQuery::encoding *)
Definition with_encoding (enc : string) : ExportQuery := {|
  source := source q; address := address q; public_key := public_key q; file_name := file_name q;
  column_separator := column_separator q; column_delimiter := column_delimiter q;
  row_separator := row_separator q; encoding := enc; null_value := null_value q;
  delimit_mode := delimit_mode q; compression := compression q;
  with_column_names := with_column_names q |}.

(* code: query/export.rs 335-345 ExportQuery::null_value *)
Definition with_null_value (val : string) : ExportQuery := {|
  source := source q; address := address q; public_key := public_key q; file_name := file_name q;
  column_separator := column_separator q; column_delimiter := column_delimiter q;
  row_separator := row_separator q; encoding := encoding q; null_value := Some val;
  delimit_mode := delimit_mode q; compression := compression q;
  with_column_names := with_column_names q |}.

(* code: query/export.rs 347-357 ExportQuery::delimit_mode *)
Definition with_delimit_mode (mode : DelimitMode) : ExportQuery := {|
  source := source q; address := address q; public_key := public_key q; file_name := file_name q;
  column_separator := column_separator q; column_delimiter := column_delimiter q;
  row_separator := row_separator q; encoding := encoding q; null_value := null_value q;
  delimit_mode := mode; compression := compression q; with_column_names := with_column_names q |}.

(* code: query/export.rs 359-369 ExportQuery::compressed *)
Definition compressed (c : Compression) : ExportQuery := {|
  source := source q; address := address q; public_key := public_key q; file_name := file_name q;
  column_separator := column_separator q; column_delimiter := column_delimiter q;
  row_separator := row_separator q; encoding := encoding q; null_value := null_value q;
  delimit_mode := delimit_mode q; compression := c; with_column_names := with_column_names q |}.

(* code: query/export.rs 371-381 ExportQuery::with_column_names *)
Definition set_with_column_names (include : bool) : ExportQuery := {|
  source := source q; address := address q; public_key := public_key q; file_name := file_name q;
  column_separator := column_separator q; column_delimiter := column_delimiter q;
  row_separator := row_separator q; encoding := encoding q; null_value := null_value q;
  delimit_mode := delimit_mode q; compression := compression q; with_column_names := include |}.

End Builder.

(** ** A reader of the statement behind its source *)
Record ExportSpec := {
  s_url : string;
  s_key : option string;
  s_file : string;
  s_framing : CsvFraming;
  s_null : option string;
  s_names : bool;
  s_delimit : DelimitMode;
}.

Definition read_delimit (s : string) : option DelimitMode :=
  if String.eqb s "AUTO" then Some Auto
  else if String.eqb s "ALWAYS" then Some Always
  else if String.eqb s "NEVER" then Some Never else None.

Definition read_options (s : string) : option ExportSpec :=
  '(_, s) ← expect (nl +:+ "INTO CSV AT ") s;
  '((url, key), s) ← read_endpoint s;
  '(_, s) ← expect (nl +:+ "FILE ") s;
  '(file, s) ← literal s;
  '(framing, s) ← read_framing s;
  '(nul, s) ← read_null s;
  '(names, s) ← optional (nl +:+ "WITH COLUMN NAMES") (λ s, Some (tt, s)) s;
  '(_, s) ← expect (nl +:+ "DELIMIT = ") s;
  mode ← read_delimit s;
  Some {| s_url := url; s_key := key; s_file := file; s_framing := framing; s_null := nul;
          s_names := match names with Some tt => true | None => false end; s_delimit := mode |}.

(** What a query asks for. *)
Definition spec_of (q : ExportQuery) : ExportSpec :=
  {| s_url := endpoint_url (address q) "" (public_key q); s_key := public_key q;
     s_file := file_name q +:+ extension (compression q); s_framing := framing_of q;
     s_null := null_value q; s_names := with_column_names q; s_delimit := delimit_mode q |}.

Lemma quote_then_line s : not_quote_head squote (nl +:+ s) = true.
Proof. done. Qed.

(** An EXPORT statement: behind its source clause, whatever the options of an export,
    a reader of the statement text sees exactly these options, with every quote inside a
    value doubled; the file name is the exception, it is not escaped and is taken to hold
    no quote. The statement that describes the columns beforehand selects from the same
    table, or is the query itself. *)
Theorem export_reads_back q :
  contains_char squote (file_name q) = false → framing_ok (framing_of q) →
  ∃ text, build q = source_clause q +:+ text ∧ read_options text = Some (spec_of q) ∧
    match source q with
    | Query sql => select_statement (source q) = sql ∧ source_clause q = "EXPORT (" +:+ sql +:+ ")"
    | Table schema name [] =>
      select_statement (source q) = "SELECT * FROM " +:+ qualified_name schema name ∧
      source_clause q = "EXPORT " +:+ qualified_name schema name
    | Table schema name cols =>
      select_statement (source q)
      = "SELECT " +:+ join ", " cols +:+ " FROM " +:+ qualified_name schema name ∧
      source_clause q = "EXPORT " +:+ qualified_name schema name +:+ " (" +:+ join ", " cols +:+ ")"
    end.
Proof.
  intros Hf Hfr. eexists. split; [reflexivity|]. split.
  2:{ unfold source_clause. destruct (source q) as [schema name [|c cols]|sql]; cbn [select_statement];
      [by rewrite str_app_nil_r|done|done]. }
  unfold destination_clause, read_options. rewrite !str_app_assoc.
  rewrite <- (str_app_assoc nl "INTO CSV AT "), expect_app. cbn [mbind option_bind].
  rewrite read_endpoint_text by done. cbn [mbind option_bind].
  rewrite <- (str_app_assoc nl "FILE "), expect_app. cbn [mbind option_bind].
  unfold format_option_clauses. rewrite ?str_app_assoc.
  assert (contains_char squote (file_name q +:+ extension (compression q)) = false) as Hname
    by (rewrite contains_char_app, Hf; by destruct (compression q)).
  rewrite literal_plain by done. cbn [mbind option_bind].
  set (mode := nl +:+ "DELIMIT = " +:+ DelimitMode_as_sql (delimit_mode q)).
  set (names := if with_column_names q then nl +:+ "WITH COLUMN NAMES" else ""%string).
  assert (not_quote_head squote (names +:+ mode) = true) as Hq
    by (unfold names; by destruct (with_column_names q)).
  assert (strip_prefix (nl +:+ "NULL = ") (names +:+ mode) = None) as Hn
    by (unfold names; by destruct (with_column_names q)).
  rewrite read_framing_text; [|done|by destruct (null_value q)]. cbn [mbind option_bind].
  rewrite read_null_text by done. cbn [mbind option_bind].
  replace (optional (nl +:+ "WITH COLUMN NAMES") _ (names +:+ mode))
    with (Some (if with_column_names q then Some () else None, mode))
    by (symmetry; unfold names; destruct (with_column_names q);
        [by apply optional_present|by apply optional_absent]).
  cbn [mbind option_bind]. unfold mode. rewrite <- (str_app_assoc nl), expect_app.
  cbn [mbind option_bind]. unfold spec_of. by destruct (delimit_mode q), (with_column_names q).
Qed.

Definition sample_export : ExportQuery :=
  compressed (with_null_value (set_with_column_names (at_address (with_schema (from_table "T") "S")
    "10.0.0.5:8563") true) "it's null") Gzip.

Lemma export_reads_back_witness :
  ∃ text, build sample_export = "EXPORT S.T" +:+ text ∧
    read_options text = Some (spec_of sample_export) ∧
    s_file (spec_of sample_export) = "001.csv.gz"%string.
Proof.
  destruct (export_reads_back sample_export) as (text & Hb & Hr & _).
  - reflexivity.
  - split; split; reflexivity || (split; reflexivity).
  - exists text. split; [exact Hb|]. split; [exact Hr|reflexivity].
Defined.
