(* ===== verification/ConnectionString.v ===== *)
(** * Connection strings

    [connection/params.rs]: the connection parameters, their builder with its checks, and
    the parser of connection strings. Percent decoding belongs to the [urlencoding] crate
    and is a class, and so is the order in which a hash map is iterated. *)
From S2P Require Import Prelude MachineInt RustStr StrText Errors.
From Stdlib Require Import Ascii.

#[local] Open Scope Z_scope.

(** [urlencoding::decode] with the text of its error. *)
Class UrlDecode := url_decode : string → string + string.

(** The order in which [HashMap::into_iter] yields the entries. *)
Class HashOrder := hash_order : gmap string string → list (string * string).
Class HashOrderLaws (H : HashOrder) := hash_order_perm m : hash_order m ≡ₚ map_to_list m.

(** The crate's version, which the build supplies. *)
Class CrateVersion := crate_version : string.

(* code: connection/params.rs 13-55 ConnectionParams *)
Record ConnectionParams := {
  host : string;
  port : Z;
  username : string;
  password : string;
  schema : option string;
  connection_timeout : Z;
  query_timeout : option Z;
  use_tls : bool;
  validate_server_certificate : bool;
  certificate_fingerprint : option string;
  client_name : string;
  client_version : string;
  transport : option string;
}.

(** Timeouts are in seconds. *)
(* code: connection/params.rs 197-213 ConnectionBuilder *)
Record ConnectionBuilder := {
  b_host : option string;
  b_port : option Z;
  b_username : option string;
  b_password : option string;
  b_schema : option string;
  b_connection_timeout : option Z;
  b_query_timeout : option Z;
  b_use_tls : option bool;
  b_validate : option bool;
  b_fingerprint : option string;
  b_client_name : option string;
  b_client_version : option string;
  b_transport : option string;
}.

(* code: connection/params.rs 216-233 ConnectionBuilder::new *)
Definition ConnectionBuilder_new : ConnectionBuilder := {|
  b_host := None; b_port := None; b_username := None; b_password := None; b_schema := None;
  b_connection_timeout := None; b_query_timeout := None; b_use_tls := None; b_validate := None;
  b_fingerprint := None; b_client_name := None; b_client_version := None; b_transport := None;
|}.

Section Setters.
Context (b : ConnectionBuilder).

(* code: connection/params.rs 235-239 ConnectionBuilder::host *)
Definition set_host (v : string) : ConnectionBuilder := {|
  b_host := Some v; b_port := b_port b; b_username := b_username b; b_password := b_password b;
  b_schema := b_schema b; b_connection_timeout := b_connection_timeout b;
  b_query_timeout := b_query_timeout b; b_use_tls := b_use_tls b; b_validate := b_validate b;
  b_fingerprint := b_fingerprint b; b_client_name := b_client_name b;
  b_client_version := b_client_version b; b_transport := b_transport b |}.

(* code: connection/params.rs 241-245 ConnectionBuilder::port *)
Definition set_port (v : Z) : ConnectionBuilder := {|
  b_host := b_host b; b_port := Some v; b_username := b_username b; b_password := b_password b;
  b_schema := b_schema b; b_connection_timeout := b_connection_timeout b;
  b_query_timeout := b_query_timeout b; b_use_tls := b_use_tls b; b_validate := b_validate b;
  b_fingerprint := b_fingerprint b; b_client_name := b_client_name b;
  b_client_version := b_client_version b; b_transport := b_transport b |}.

(* code: connection/params.rs 247-251 ConnectionBuilder::username *)
Definition set_username (v : string) : ConnectionBuilder := {|
  b_host := b_host b; b_port := b_port b; b_username := Some v; b_password := b_password b;
  b_schema := b_schema b; b_connection_timeout := b_connection_timeout b;
  b_query_timeout := b_query_timeout b; b_use_tls := b_use_tls b; b_validate := b_validate b;
  b_fingerprint := b_fingerprint b; b_client_name := b_client_name b;
  b_client_version := b_client_version b; b_transport := b_transport b |}.

(* code: connection/params.rs 253-257 ConnectionBuilder::password *)
Definition set_password (v : string) : ConnectionBuilder := {|
  b_host := b_host b; b_port := b_port b; b_username := b_username b; b_password := Some v;
  b_schema := b_schema b; b_connection_timeout := b_connection_timeout b;
  b_query_timeout := b_query_timeout b; b_use_tls := b_use_tls b; b_validate := b_validate b;
  b_fingerprint := b_fingerprint b; b_client_name := b_client_name b;
  b_client_version := b_client_version b; b_transport := b_transport b |}.

(* code: connection/params.rs 259-263 ConnectionBuilder::schema *)
Definition set_schema (v : string) : ConnectionBuilder := {|
  b_host := b_host b; b_port := b_port b; b_username := b_username b; b_password := b_password b;
  b_schema := Some v; b_connection_timeout := b_connection_timeout b;
  b_query_timeout := b_query_timeout b; b_use_tls := b_use_tls b; b_validate := b_validate b;
  b_fingerprint := b_fingerprint b; b_client_name := b_client_name b;
  b_client_version := b_client_version b; b_transport := b_transport b |}.

(* code: connection/params.rs 265-269 ConnectionBuilder::connection_timeout *)
Definition set_connection_timeout (v : Z) : ConnectionBuilder := {|
  b_host := b_host b; b_port := b_port b; b_username := b_username b; b_password := b_password b;
  b_schema := b_schema b; b_connection_timeout := Some v; b_query_timeout := b_query_timeout b;
  b_use_tls := b_use_tls b; b_validate := b_validate b; b_fingerprint := b_fingerprint b;
  b_client_name := b_client_name b; b_client_version := b_client_version b;
  b_transport := b_transport b |}.

(* code: connection/params.rs 271-275 ConnectionBuilder::query_timeout *)
Definition set_query_timeout (v : Z) : ConnectionBuilder := {|
  b_host := b_host b; b_port := b_port b; b_username := b_username b; b_password := b_password b;
  b_schema := b_schema b; b_connection_timeout := b_connection_timeout b;
  b_query_timeout := Some v; b_use_tls := b_use_tls b; b_validate := b_validate b;
  b_fingerprint := b_fingerprint b; b_client_name := b_client_name b;
  b_client_version := b_client_version b; b_transport := b_transport b |}.

(* code: connection/params.rs 283-287 ConnectionBuilder::use_tls *)
Definition set_use_tls (v : bool) : ConnectionBuilder := {|
  b_host := b_host b; b_port := b_port b; b_username := b_username b; b_password := b_password b;
  b_schema := b_schema b; b_connection_timeout := b_connection_timeout b;
  b_query_timeout := b_query_timeout b; b_use_tls := Some v; b_validate := b_validate b;
  b_fingerprint := b_fingerprint b; b_client_name := b_client_name b;
  b_client_version := b_client_version b; b_transport := b_transport b |}.

(* code: connection/params.rs 289-293 ConnectionBuilder::validate_server_certificate *)
Definition set_validate (v : bool) : ConnectionBuilder := {|
  b_host := b_host b; b_port := b_port b; b_username := b_username b; b_password := b_password b;
  b_schema := b_schema b; b_connection_timeout := b_connection_timeout b;
  b_query_timeout := b_query_timeout b; b_use_tls := b_use_tls b; b_validate := Some v;
  b_fingerprint := b_fingerprint b; b_client_name := b_client_name b;
  b_client_version := b_client_version b; b_transport := b_transport b |}.

(* code: connection/params.rs 295-299 ConnectionBuilder::certificate_fingerprint *)
Definition set_fingerprint (v : string) : ConnectionBuilder := {|
  b_host := b_host b; b_port := b_port b; b_username := b_username b; b_password := b_password b;
  b_schema := b_schema b; b_connection_timeout := b_connection_timeout b;
  b_query_timeout := b_query_timeout b; b_use_tls := b_use_tls b; b_validate := b_validate b;
  b_fingerprint := Some v; b_client_name := b_client_name b;
  b_client_version := b_client_version b; b_transport := b_transport b |}.

(* code: connection/params.rs 301-305 ConnectionBuilder::client_name *)
Definition set_client_name (v : string) : ConnectionBuilder := {|
  b_host := b_host b; b_port := b_port b; b_username := b_username b; b_password := b_password b;
  b_schema := b_schema b; b_connection_timeout := b_connection_timeout b;
  b_query_timeout := b_query_timeout b; b_use_tls := b_use_tls b; b_validate := b_validate b;
  b_fingerprint := b_fingerprint b; b_client_name := Some v;
  b_client_version := b_client_version b; b_transport := b_transport b |}.

(* code: connection/params.rs 307-311 ConnectionBuilder::client_version *)
Definition set_client_version (v : string) : ConnectionBuilder := {|
  b_host := b_host b; b_port := b_port b; b_username := b_username b; b_password := b_password b;
  b_schema := b_schema b; b_connection_timeout := b_connection_timeout b;
  b_query_timeout := b_query_timeout b; b_use_tls := b_use_tls b; b_validate := b_validate b;
  b_fingerprint := b_fingerprint b; b_client_name := b_client_name b; b_client_version := Some v;
  b_transport := b_transport b |}.

(* code: connection/params.rs 313-317 ConnectionBuilder::transport *)
Definition set_transport (v : string) : ConnectionBuilder := {|
  b_host := b_host b; b_port := b_port b; b_username := b_username b; b_password := b_password b;
  b_schema := b_schema b; b_connection_timeout := b_connection_timeout b;
  b_query_timeout := b_query_timeout b; b_use_tls := b_use_tls b; b_validate := b_validate b;
  b_fingerprint := b_fingerprint b; b_client_name := b_client_name b;
  b_client_version := b_client_version b; b_transport := Some v |}.

End Setters.

Definition invalid {A} (parameter message : string) : outcome ConnectionError A :=
  Err (InvalidParameter parameter message).

Section Params.
Context `{UrlDecode, HashOrder, CrateVersion, UnicodeCase}.

(* code: connection/params.rs 319-388 ConnectionBuilder::build *)
Definition build (b : ConnectionBuilder) : outcome ConnectionError ConnectionParams :=
  host ← ok_or (InvalidParameter "host" "Host is required") (b_host b);
  username ← ok_or (InvalidParameter "username" "Username is required") (b_username b);
  if String.eqb host "" then invalid "host" "Host cannot be empty"
  else if String.eqb username "" then invalid "username" "Username cannot be empty"
  else
    let port := default 8563 (b_port b) in
    if port =? 0 then invalid "port" "Port must be greater than 0"
    else
      let connection_timeout := default 30 (b_connection_timeout b) in
      if 300 <? connection_timeout then
        invalid "connection_timeout" "Connection timeout cannot exceed 300 seconds"
      else Ok {|
        host := host; port := port; username := username;
        password := default ""%string (b_password b); schema := b_schema b;
        connection_timeout := connection_timeout; query_timeout := b_query_timeout b;
        use_tls := default true (b_use_tls b);
        validate_server_certificate := default true (b_validate b);
        certificate_fingerprint := b_fingerprint b;
        client_name := default "exarrow-rs"%string (b_client_name b);
        client_version := default crate_version (b_client_version b);
        transport := b_transport b |}.

(** [urlencoding::decode(s).map_err(|e| ParseError(...))?]. *)
Definition decode (what s : string) : outcome ConnectionError string :=
  match url_decode s with
  | inl t => Ok t
  | inr e => Err (ParseError ("Failed to decode " +:+ what +:+ ": " +:+ e))
  end.

(** The pairs of a query, from position [index] on. *)
Fixpoint parse_pairs (index : nat) (pairs : list string) (params : gmap string string)
    : outcome ConnectionError (gmap string string) :=
  match pairs with
  | [] => Ok params
  | item :: pairs =>
    if String.eqb item "" then parse_pairs (S index) pairs params
    else
      '(key, value) ← ok_or (ParseError ("Invalid query parameter format at position "
                         +:+ show_nat (Z.of_nat (S index)) +:+ ": expected key=value"))
                        (split_once "=" item);
      key ← decode "key" key;
      value ← decode "value" value;
      parse_pairs (S index) pairs (<[key := value]> params)
  end.

(* code: connection/params.rs 421-452 parse_query_params *)
Definition parse_query_params (query : option string)
    : outcome ConnectionError (gmap string string) :=
  match query with
  | Some query => parse_pairs 0 (split_on "&" query) ∅
  | None => Ok ∅
  end.

(* code: connection/params.rs 454-474 parse_auth *)
Definition parse_auth (auth : string) : outcome ConnectionError (string * option string) :=
  let '(user, pass) := match split_once ":" auth with
                       | Some (user, pass) => (user, Some pass)
                       | None => (auth, None)
                       end in
  user ← decode "username" user;
  match pass with
  | Some pass => pass ← decode "password" pass; Ok (user, Some pass)
  | None => Ok (user, None)
  end.

Definition invalid_port : ConnectionError :=
  ParseError "Invalid port: expected a number from 1 to 65535".

Definition parse_port (text : string) : outcome ConnectionError Z :=
  ok_or invalid_port (parse_int U16 text).

(** [find(']')] and the slices on both sides of it. *)
(* code: connection/params.rs 476-506 parse_host_port *)
Definition parse_host_port (host_port : string) : outcome ConnectionError (string * Z) :=
  let plain :=
    match rsplit_once ":" host_port with
    | Some (host, port_str) => port ← parse_port port_str; Ok (host, port)
    | None => Ok (host_port, 8563)
    end in
  match strip_prefix "[" host_port with
  | Some inner =>
    match split_once "]" inner with
    | Some (host, port_part) =>
      match strip_prefix ":" port_part with
      | Some stripped => port ← parse_port stripped; Ok (host, port)
      | None => Ok (host, 8563)
      end
    | None => plain
    end
  | None => plain
  end.

(* code: connection/params.rs 508-528 ACCEPTED_QUERY_KEYS *)
Definition ACCEPTED_QUERY_KEYS : list string :=
  ["timeout"; "connection_timeout"; "query_timeout"; "tls"; "use_tls"; "ssl";
   "validate_certificate"; "verify_certificate"; "validateservercertificate"; "client_name";
   "client_version"; "certificate_fingerprint"; "certificatefingerprint"; "transport"; "user";
   "username"; "password"; "pass"]%string.

(* code: connection/params.rs 607-616 parse_timeout *)
Definition parse_timeout (key value : string) : outcome ConnectionError Z :=
  ok_or (InvalidParameter key "Invalid timeout value: expected a whole number of seconds")
    (parse_int U64 value).

Definition one_of (s : string) (texts : list string) : bool := existsb (String.eqb s) texts.

(* code: connection/params.rs 618-629 parse_bool *)
Definition parse_bool (key value : string) : outcome ConnectionError bool :=
  let text := to_lowercase value in
  if one_of text ["true"; "1"; "yes"; "on"] then Ok true
  else if one_of text ["false"; "0"; "no"; "off"] then Ok false
  else invalid key "Invalid boolean value: expected true, false, 1, 0, yes, no, on, or off".

Definition unknown_parameter (key : string) (redact_keys : bool) : ConnectionError :=
  let '(parameter, hint) :=
    if redact_keys then
      ("<redacted>",
       " The query contains '@': percent-encode '?' and '@' in the user name and password.")
    else (key, "") in
  InvalidParameter parameter ("Unknown connection parameter." +:+ hint
    +:+ " Accepted parameters: " +:+ join ", " ACCEPTED_QUERY_KEYS).

(** One entry of the query. *)
(* code: connection/params.rs 541-602 apply_query_params *)
Definition apply_query_param (redact_keys : bool) (b : ConnectionBuilder)
    (entry : string * string) : outcome ConnectionError ConnectionBuilder :=
  let '(key, value) := entry in
  if one_of key ["timeout"; "connection_timeout"] then
    t ← parse_timeout key value; Ok (set_connection_timeout b t)
  else if one_of key ["query_timeout"] then
    t ← parse_timeout key value; Ok (set_query_timeout b t)
  else if one_of key ["idle_timeout"] then _ ← parse_timeout key value; Ok b
  else if one_of key ["tls"; "use_tls"; "ssl"] then
    v ← parse_bool key value; Ok (set_use_tls b v)
  else if one_of key ["validate_certificate"; "verify_certificate"; "validateservercertificate"] then
    v ← parse_bool key value; Ok (set_validate b v)
  else if one_of key ["client_name"] then Ok (set_client_name b value)
  else if one_of key ["client_version"] then Ok (set_client_version b value)
  else if one_of key ["certificate_fingerprint"; "certificatefingerprint"] then
    Ok (set_fingerprint b value)
  else if one_of key ["transport"] then
    let transport_lower := to_lowercase value in
    if one_of transport_lower ["native"; "websocket"] then Ok (set_transport b transport_lower)
    else invalid "transport" "Invalid transport value. Must be 'native' or 'websocket'"
  else Err (unknown_parameter key redact_keys).

Fixpoint apply_entries (redact_keys : bool) (b : ConnectionBuilder)
    (entries : list (string * string)) : outcome ConnectionError ConnectionBuilder :=
  match entries with
  | [] => Ok b
  | entry :: entries => b ← apply_query_param redact_keys b entry; apply_entries redact_keys b entries
  end.

(* code: connection/params.rs 530-605 apply_query_params *)
Definition apply_query_params (b : ConnectionBuilder) (params : gmap string string)
    (redact_keys : bool) : outcome ConnectionError ConnectionBuilder :=
  apply_entries redact_keys b (hash_order params).

(** The first value that is there. *)
Definition or_else {A} (o1 o2 : option A) : option A := match o1 with Some a => Some a | None => o2 end.

Definition credential_keys : list string := ["user"; "username"; "password"; "pass"]%string.

(** [rfind('@')] and the slices on both sides of it. *)
(* code: connection/params.rs 79-147 parse_with_credentials *)
Definition parse_with_credentials (uri : string) (username password : option string)
    : outcome ConnectionError ConnectionParams :=
  url ← ok_or (ParseError "Connection string must start with 'exasol://'")
          (strip_prefix "exasol://" (trim uri));
  let '(main_part, query_string) :=
    match split_once "?" url with
    | Some (main, query) => (main, Some query)
    | None => (url, None)
    end in
  params ← parse_query_params query_string;
  let '(auth_part, host_part) :=
    match rsplit_once "@" main_part with
    | Some (auth, host) => (Some auth, host)
    | None => (None, main_part)
    end in
  '(userinfo_username, userinfo_password) ←
    match auth_part with
    | Some auth => '(user, pass) ← parse_auth auth; Ok (Some user, pass)
    | None => Ok (None, None)
    end;
  let query_user := params !! "user"%string in
  let query_username := params !! "username"%string in
  let query_password := params !! "password"%string in
  let query_pass := params !! "pass"%string in
  let params := foldr delete params credential_keys in
  username ← ok_or (ParseError "Username is required")
    (or_else username (or_else userinfo_username (or_else query_user query_username)));
  let password := default ""%string
    (or_else password (or_else userinfo_password (or_else query_password query_pass))) in
  let '(host_port, schema) :=
    match split_once "/" host_part with
    | Some (host, schema) => (host, if String.eqb schema "" then None else Some schema)
    | None => (host_part, None)
    end in
  '(host, port) ← parse_host_port host_port;
  let builder := set_password (set_username (set_port (set_host ConnectionBuilder_new host) port)
                   username) password in
  let builder := match schema with Some schema => set_schema builder schema | None => builder end in
  let redact_keys := match query_string with Some q => contains_char "@" q | None => false end in
  builder ← apply_query_params builder params redact_keys;
  build builder.
End Params.
