(* ===== verification/Session.v ===== *)
(** * Sessions

    [connection/version.rs] and [connection/session.rs]: release versions, and the session
    as a shared state behind atomics and a lock. An operation is a process: its atomic
    accesses one after the other, so that operations of several tasks interleave. At the end
    the requests and responses of [connection/auth.rs], and where they print a password. *)
From S2P Require Import Prelude MachineInt RustStr StrText Errors Json.
From Stdlib Require Import Ascii.
From stdpp Require Import relations.

#[local] Open Scope Z_scope.

(** ** Release versions *)
Definition Version : Type := Z * Z * Z.

(** [chars().take_while(is_ascii_digit)]. *)
Fixpoint digit_run (s : string) : string :=
  match s with
  | String a r => if is_digit a then String a (digit_run r) else ""
  | EmptyString => ""
  end.

(* code: connection/version.rs 7-33 parse_release_version *)
Definition parse_release_version (s : string) : option Version :=
  match split_on "." s with
  | major :: minor :: parts =>
    major ← parse_int U32 major;
    minor ← parse_int U32 minor;
    patch ← match parts with
            | raw :: _ => let digits := digit_run raw in
                          if String.eqb digits "" then None else parse_int U32 digits
            | [] => Some 0
            end;
    Some (major, minor, patch)
  | _ => None
  end.

(** The order of tuples. *)
Definition pair_le (a b : Z * Z) : bool := (a.1 <? b.1) || ((a.1 =? b.1) && (a.2 <=? b.2)).
Definition version_le (a b : Version) : bool :=
  let '(a1, a2, a3) := a in
  let '(b1, b2, b3) := b in
  (a1 <? b1) || ((a1 =? b1) && ((a2 <? b2) || ((a2 =? b2) && (a3 <=? b3)))).

(* code: connection/version.rs 35-42 supports_at_least *)
Definition supports_at_least (parsed : Version) (major minor : Z) : bool :=
  let '(m, n, _) := parsed in pair_le (major, minor) (m, n).

(* code: connection/version.rs 44-55 supports_native_parquet_import *)
Definition supports_native_parquet_import (v : Version) : bool := version_le (2025, 1, 11) v.

(** ** The session *)
(* code: connection/session.rs 13-41 SessionConfig *)
Record SessionConfig := {
  max_retries : Z;
  auto_commit : bool;
  default_fetch_size : Z;
  query_timeout : option Z;
}.

(* code: connection/session.rs 32-41 SessionConfig::default *)
Definition SessionConfig_default : SessionConfig :=
  {| max_retries := 3; auto_commit := true; default_fetch_size := 1000; query_timeout := None |}.

(* code: connection/session.rs 43-60 SessionState *)
Inductive SessionState := Ready | InTransaction | Closing | Closed.

#[global] Instance SessionState_eq_dec : EqDecision SessionState.
Proof. solve_decision. Defined.

(* code: connection/session.rs 62-67 SessionState::can_execute *)
Definition can_execute (s : SessionState) : bool :=
  match s with Ready | InTransaction => true | _ => false end.

(** What the tasks share, and the release version of the login. *)
(* code: connection/session.rs 69-91 Session *)
Record Session := {
  s_release_version : string;
  s_config : SessionConfig;
  s_state : SessionState;
  s_query_count : Z;
  s_in_transaction : bool;
}.

(* code: connection/session.rs 94-105 Session::new *)
Definition Session_new (release_version : string) (config : SessionConfig) : Session :=
  {| s_release_version := release_version; s_config := config; s_state := Ready;
     s_query_count := 0; s_in_transaction := false |}.

Definition with_state (v : SessionState) (s : Session) : Session :=
  {| s_release_version := s_release_version s; s_config := s_config s; s_state := v;
     s_query_count := s_query_count s; s_in_transaction := s_in_transaction s |}.
Definition with_transaction (v : bool) (s : Session) : Session :=
  {| s_release_version := s_release_version s; s_config := s_config s; s_state := s_state s;
     s_query_count := s_query_count s; s_in_transaction := v |}.
Definition with_count (v : Z) (s : Session) : Session :=
  {| s_release_version := s_release_version s; s_config := s_config s; s_state := s_state s;
     s_query_count := v; s_in_transaction := s_in_transaction s |}.

(** The memo holds what [parse_release_version] gives. *)
(* code: connection/session.rs 124-128 parsed_release_version *)
Definition parsed_release_version (s : Session) : option Version :=
  parse_release_version (s_release_version s).

(* code: connection/session.rs 107-113 Session::supports_native_parquet_import *)
Definition session_supports_parquet (s : Session) : bool :=
  match parsed_release_version s with Some v => supports_native_parquet_import v | None => false end.

(* code: connection/session.rs 115-122 Session::supports_at_least *)
Definition session_supports_at_least (s : Session) (major minor patch : Z) : bool :=
  match parsed_release_version s with
  | Some v => version_le (major, minor, patch) v
  | None => false
  end.

(** ** Operations as processes *)
Inductive proc :=
| Done (r : outcome ConnectionError unit)
| Atomic (access : Session → Session * proc).

(** A write, and a decision on what is read. *)
Definition write (f : Session → Session) (k : proc) : proc := Atomic (λ s, (f s, k)).
Definition read {A} (f : Session → A) (k : A → proc) : proc := Atomic (λ s, (s, k (f s))).

(* code: connection/session.rs 158-162 set_state *)
Definition set_state (new_state : SessionState) (k : proc) : proc := write (with_state new_state) k.

(* code: connection/session.rs 164-167 increment_query_count *)
Definition increment_query_count (k : proc) : proc :=
  write (λ s, with_count (wrap U64 (s_query_count s + 1)) s) k.

(* code: connection/session.rs 250-259 validate_ready *)
Definition validate_ready (k : proc) : proc :=
  read s_state (λ st, if can_execute st then k else Done (Err ConnectionClosed)).

(* code: connection/session.rs 179-194 ensure_can_begin_transaction *)
Definition ensure_can_begin_transaction (k : proc) : proc :=
  validate_ready (read s_in_transaction (λ active : bool,
    if active then Done (Err (InvalidParameter "transaction" "Transaction already active")) else k)).

(* code: connection/session.rs 196-204 begin_transaction *)
Definition begin_transaction : proc :=
  ensure_can_begin_transaction
    (write (with_transaction true) (set_state InTransaction (Done (Ok ())))).

(** Ends the transaction, if there is one. *)
Definition end_transaction : proc :=
  read s_in_transaction (λ active : bool,
    if active then write (with_transaction false) (set_state Ready (Done (Ok ())))
    else Done (Ok ())).

(* code: connection/session.rs 206-216 commit_transaction *)
Definition commit_transaction : proc := end_transaction.
(* code: connection/session.rs 218-228 rollback_transaction *)
Definition rollback_transaction : proc := end_transaction.

(* code: connection/session.rs 230-243 close *)
Definition close : proc :=
  set_state Closing (read s_in_transaction (λ active : bool,
    let rest := set_state Closed (Done (Ok ())) in
    if active then write (with_transaction false) rest else rest)).

(** A process alone, from start to end. *)
Fixpoint run (p : proc) (s : Session) : outcome ConnectionError unit * Session :=
  match p with
  | Done r => (r, s)
  | Atomic access => let '(s, p) := access s in run p s
  end.

(** Tasks on one session: in every step one of them does its next access. *)
Inductive task_step : relation (Session * list proc) :=
| step_task s before access after s' p :
  access s = (s', p) →
  task_step (s, before ++ Atomic access :: after) (s', before ++ p :: after).

(** ** The contract *)
(** What a client sees of a session. *)
Inductive Phase := Idle | Active | Over.

Definition phase (s : Session) : Phase :=
  if can_execute (s_state s) then if s_in_transaction s then Active else Idle else Over.

Inductive Call := Begin | Commit | Rollback | Close.

Definition body (c : Call) : proc :=
  match c with
  | Begin => begin_transaction | Commit => commit_transaction
  | Rollback => rollback_transaction | Close => close
  end.

Definition call_spec (c : Call) (before : Phase) : outcome ConnectionError unit * Phase :=
  match c, before with
  | Begin, Idle => (Ok (), Active)
  | Begin, Active => (Err (InvalidParameter "transaction" "Transaction already active"), Active)
  | Begin, Over => (Err ConnectionClosed, Over)
  | (Commit | Rollback), Active => (Ok (), Idle)
  | (Commit | Rollback), p => (Ok (), p)
  | Close, _ => (Ok (), Over)
  end.

(** The flag and the state agree. *)
Definition session_inv (s : Session) : Prop :=
  s_in_transaction s = bool_decide (s_state s = InTransaction).

Definition call_all (cs : list Call) (s : Session) : Session :=
  foldl (λ s c, (run (body c) s).2) s cs.

Lemma call_step c s :
  session_inv s →
  session_inv (run (body c) s).2 ∧
  ((run (body c) s).1, phase (run (body c) s).2) = call_spec c (phase s).
Proof.
  destruct s as [v g st n t]. unfold session_inv, phase. cbn [s_in_transaction s_state].
  intros ->. destruct c, st; vm_compute; done.
Qed.

Lemma calls_inv cs s : session_inv s → session_inv (call_all cs s).
Proof.
  unfold call_all. revert s. induction cs as [|c cs IH]; intros s Hs; [done|]. cbn [foldl].
  by apply IH, call_step.
Qed.

(** A session used by one task at a time: after any sequence of calls on a new session
    the transaction flag and the state agree, and each call does what its contract says
    for the phase the session is in: a transaction begins only outside one, commit and
    rollback end it or do nothing, a closed session stays closed and begins nothing. *)
Theorem session_refines_phases version config cs c :
  let s := call_all cs (Session_new version config) in
  session_inv s ∧
  ((run (body c) s).1, phase (run (body c) s).2) = call_spec c (phase s).
Proof.
  intros s. assert (session_inv s) as Hs by (by apply calls_inv). split; [done|].
  by apply call_step.
Qed.

(** A session used by several tasks at once keeps no such contract, since each of its
    operations reads first and writes later: two tasks can both begin a transaction
    successfully, and a commit that overlaps a close can leave the session ready for
    queries after the close has returned. *)
Theorem session_races version config :
  (∃ s, rtc task_step (Session_new version config, [begin_transaction; begin_transaction])
          (s, [Done (Ok ()); Done (Ok ())])) ∧
  (∃ s, rtc task_step (call_all [Begin] (Session_new version config), [commit_transaction; close])
          (s, [Done (Ok ()); Done (Ok ())]) ∧ s_state s = Ready).
Proof.
  split.
  - eexists.
    do 2 (eapply rtc_l; [by apply (step_task _ [])|]). cbn [app].
    do 2 (eapply rtc_l; [by apply (step_task _ [_] _ [])|]). cbn [app].
    do 2 (eapply rtc_l; [by apply (step_task _ [])|]). cbn [app].
    do 2 (eapply rtc_l; [by apply (step_task _ [_] _ [])|]). apply rtc_refl.
  - eexists. split.
    + eapply rtc_l; [by apply (step_task _ [])|]. cbn [app].
      do 4 (eapply rtc_l; [by apply (step_task _ [_] _ [])|]; cbn [app]).
      do 2 (eapply rtc_l; [by apply (step_task _ [])|]; cbn [app]). apply rtc_refl.
    + reflexivity.
Qed.

(** ** Versions *)
Lemma digit_run_app d r :
  str_forall is_digit d = true →
  match r with String a _ => is_digit a = false | EmptyString => True end →
  digit_run (d +:+ r) = d.
Proof.
  intros Hd Hr. induction d as [|a d IH].
  - rewrite str_app_nil_l. destruct r as [|a r]; [done|]. cbn. by rewrite Hr.
  - cbn in Hd. apply andb_prop in Hd as [Ha Hd]. rewrite str_app_cons. cbn. by rewrite Ha, IH.
Qed.

Lemma version_le_total a b : version_le a b = true ∨ version_le b a = true.
Proof.
  destruct a as [[a1 a2] a3], b as [[b1 b2] b3]. unfold version_le.
  destruct (Z.ltb_spec a1 b1), (Z.ltb_spec b1 a1), (Z.eqb_spec a1 b1), (Z.eqb_spec b1 a1),
    (Z.ltb_spec a2 b2), (Z.ltb_spec b2 a2), (Z.eqb_spec a2 b2), (Z.eqb_spec b2 a2),
    (Z.leb_spec a3 b3), (Z.leb_spec b3 a3); cbn; try (by left); try (by right); lia.
Qed.

(** ** Authentication requests *)
(** [Debug] of a [str] and of a JSON value, and of the [Option]s of an [AuthRequest]. *)
Class DebugText `{SerdeJson} := {
  debug_str : string → string;
  debug_value : json → string;
}.

(* code: connection/auth.rs 11-18 Credentials *)
Record AuthCredentials := { auth_username : string; auth_password : list byte }.

(* code: connection/auth.rs 20-27 Credentials::new *)
Definition AuthCredentials_new (username password : string) : AuthCredentials :=
  {| auth_username := username; auth_password := as_bytes password |}.

(** The bytes that a [SecureString] leaves behind. *)
(* code: connection/auth.rs 71-78 SecureString::drop *)
Definition SecureString_drop (data : list byte) : list byte := (λ _, x00) <$> data.

(* code: connection/auth.rs 52-56 Credentials::fmt *)
Definition display_credentials (c : AuthCredentials) : string :=
  "Credentials(username: " +:+ auth_username c +:+ ")".

Section Auth.
Context `{DebugText}.

(* code: connection/auth.rs 86-115 AuthRequest *)
Record LoginRequest := {
  lr_command : string;
  lr_username : string;
  lr_password : string;
  lr_use_compression : option bool;
  lr_session_id : option string;
  lr_client_name : option string;
  lr_client_version : option string;
  lr_driver_name : option string;
  lr_attributes : option json;
}.

(* code: connection/auth.rs 117-131 AuthRequest::new *)
Definition LoginRequest_new (username password : string) : LoginRequest := {|
  lr_command := "login"; lr_username := username; lr_password := password;
  lr_use_compression := Some false; lr_session_id := None; lr_client_name := None;
  lr_client_version := None; lr_driver_name := Some "exarrow-rs";
  lr_attributes := None;
|}.

(* code: connection/auth.rs 133-138 AuthRequest::with_client_info *)
Definition with_client_info (r : LoginRequest) (name version : string) : LoginRequest := {|
  lr_command := lr_command r; lr_username := lr_username r; lr_password := lr_password r;
  lr_use_compression := lr_use_compression r; lr_session_id := lr_session_id r;
  lr_client_name := Some name; lr_client_version := Some version;
  lr_driver_name := lr_driver_name r; lr_attributes := lr_attributes r |}.

(* code: connection/auth.rs 140-144 AuthRequest::with_session_id *)
Definition with_session_id (r : LoginRequest) (id : string) : LoginRequest := {|
  lr_command := lr_command r; lr_username := lr_username r; lr_password := lr_password r;
  lr_use_compression := lr_use_compression r; lr_session_id := Some id;
  lr_client_name := lr_client_name r; lr_client_version := lr_client_version r;
  lr_driver_name := lr_driver_name r; lr_attributes := lr_attributes r |}.

(* code: connection/auth.rs 146-150 AuthRequest::with_compression *)
Definition with_compression (r : LoginRequest) (enabled : bool) : LoginRequest := {|
  lr_command := lr_command r; lr_username := lr_username r; lr_password := lr_password r;
  lr_use_compression := Some enabled; lr_session_id := lr_session_id r;
  lr_client_name := lr_client_name r; lr_client_version := lr_client_version r;
  lr_driver_name := lr_driver_name r; lr_attributes := lr_attributes r |}.

(* code: connection/auth.rs 152-156 AuthRequest::with_attributes *)
Definition with_attributes (r : LoginRequest) (attributes : json) : LoginRequest := {|
  lr_command := lr_command r; lr_username := lr_username r; lr_password := lr_password r;
  lr_use_compression := lr_use_compression r; lr_session_id := lr_session_id r;
  lr_client_name := lr_client_name r; lr_client_version := lr_client_version r;
  lr_driver_name := lr_driver_name r; lr_attributes := Some attributes |}.

Definition member {A} (name : string) (ser : A → json) (v : option A) : list (string * json) :=
  match v with Some a => [(name, ser a)] | None => [] end.

(* code: connection/auth.rs 86-115 AuthRequest *)
Definition ser_login_request (r : LoginRequest) : json :=
  JObject ([("command", JString (lr_command r)); ("username", JString (lr_username r));
            ("password", JString (lr_password r))]
    ++ member "useCompression" JBool (lr_use_compression r)
    ++ member "sessionId" JString (lr_session_id r)
    ++ member "clientName" JString (lr_client_name r)
    ++ member "clientVersion" JString (lr_client_version r)
    ++ member "driverName" JString (lr_driver_name r)
    ++ member "attributes" id (lr_attributes r)).

(** A derived [Debug] of a struct, and of an [Option]. *)
Definition debug_struct (name : string) (fields : list (string * string)) : string :=
  name +:+ " { " +:+ String.concat ", " ((λ '(f, v), f +:+ ": " +:+ v) <$> fields) +:+ " }".
Definition debug_opt {A} (show : A → string) (v : option A) : string :=
  match v with Some a => "Some(" +:+ show a +:+ ")" | None => "None" end.

(* code: connection/auth.rs 86-87 AuthRequest *)
Definition debug_login_request (r : LoginRequest) : string :=
  debug_struct "AuthRequest"
    [("command", debug_str (lr_command r)); ("username", debug_str (lr_username r));
     ("password", debug_str (lr_password r));
     ("use_compression", debug_opt (λ b : bool, if b then "true" else "false") (lr_use_compression r));
     ("session_id", debug_opt debug_str (lr_session_id r));
     ("client_name", debug_opt debug_str (lr_client_name r));
     ("client_version", debug_opt debug_str (lr_client_version r));
     ("driver_name", debug_opt debug_str (lr_driver_name r));
     ("attributes", debug_opt debug_value (lr_attributes r))].

(* code: connection/auth.rs 159-168 AuthRequest::fmt *)
Definition display_login_request (r : LoginRequest) : string :=
  "AuthRequest { username: " +:+ lr_username r +:+ ", password: <redacted> }".

(* code: connection/auth.rs 43-50 Credentials::fmt *)
Definition debug_credentials (c : AuthCredentials) : string :=
  debug_struct "Credentials"
    [("username", debug_str (auth_username c)); ("password", debug_str "<redacted>")].

(** ** Responses *)
(* code: connection/auth.rs 183-217 AuthResponseData *)
Record AuthResponseData := {
  rd_session_id : string;
  rd_protocol_version : Z;
  rd_release_version : string;
  rd_database_name : string;
  rd_product_name : string;
  rd_max_data_message_size : Z;
  rd_max_identifier_length : Z;
  rd_max_varchar_length : Z;
  rd_identifier_quote_string : string;
  rd_time_zone : string;
  rd_time_zone_behavior : string;
}.

(* code: connection/auth.rs 219-227 ExceptionInfo *)
Record AuthException := { exc_text : string; exc_sql_code : string }.

(* code: connection/auth.rs 170-181 AuthResponse *)
Record AuthReply := {
  resp_status : string;
  resp_data : option AuthResponseData;
  resp_exception : option AuthException;
}.

(* code: connection/auth.rs 230-233 AuthResponse::is_success *)
Definition is_success (r : AuthReply) : bool :=
  String.eqb (resp_status r) "ok" && bool_decide (is_Some (resp_data r)).

(* code: connection/auth.rs 235-240 AuthResponse::session_id *)
Definition response_session_id (r : AuthReply) : option string :=
  rd_session_id <$> resp_data r.

(* code: connection/auth.rs 242-247 AuthResponse::error_message *)
Definition error_message (r : AuthReply) : option string :=
  (λ exc, exc_text exc +:+ " (" +:+ exc_sql_code exc +:+ ")") <$> resp_exception r.

(* code: connection/auth.rs 250-255 AuthenticationHandler *)
Record AuthenticationHandler := {
  credentials : AuthCredentials;
  handler_client_name : string;
  handler_client_version : string;
}.

(** The password's bytes are those of a text. *)
(* code: connection/auth.rs 267-274 AuthenticationHandler::build_auth_request *)
Definition build_auth_request (h : AuthenticationHandler) : LoginRequest :=
  with_client_info
    (LoginRequest_new (auth_username (credentials h)) (str_of_bytes (auth_password (credentials h))))
    (handler_client_name h) (handler_client_version h).

(* code: connection/auth.rs 276-279 AuthenticationHandler::build_reconnect_request *)
Definition build_reconnect_request (h : AuthenticationHandler) (id : string) : LoginRequest :=
  with_session_id (build_auth_request h) id.

(* code: connection/auth.rs 281-299 AuthenticationHandler::process_auth_response *)
Definition process_auth_response (r : AuthReply) : outcome ConnectionError AuthResponseData :=
  if is_success r then
    ok_or (AuthenticationFailed "Server returned success but no response data") (resp_data r)
  else
    Err (AuthenticationFailed (default "Unknown authentication error" (error_message r))).

(* code: connection/auth.rs 307-315 AuthenticationHandler::fmt *)
Definition debug_handler (h : AuthenticationHandler) : string :=
  debug_struct "AuthenticationHandler"
    [("credentials", debug_credentials (credentials h));
     ("client_name", debug_str (handler_client_name h));
     ("client_version", debug_str (handler_client_version h))].

(** A response is accepted exactly if its status is [ok] and it has data, which is returned;
    the texts that are made of credentials, of a handler and for the display of a request do
    not depend on the password, and the request holds the password as it was given. *)
Theorem auth_keeps_password username p1 p2 name version r :
  let h p := {| credentials := AuthCredentials_new username p;
                handler_client_name := name; handler_client_version := version |} in
  lr_password (build_auth_request (h p1)) = p1 ∧
  debug_handler (h p1) = debug_handler (h p2) ∧
  display_login_request (build_auth_request (h p1))
    = display_login_request (build_auth_request (h p2)) ∧
  (∀ d, process_auth_response r = Ok d ↔ resp_status r = "ok" ∧ resp_data r = Some d).
Proof.
  cbn zeta. split; [apply str_of_as_bytes|]. split; [done|]. split; [done|]. intros d.
  unfold process_auth_response, is_success.
  destruct (String.eqb_spec (resp_status r) "ok"), (resp_data r) as [d'|]; cbn; naive_solver.
Qed.

(** The derived [Debug] of a request prints the password. *)
Theorem request_debug_prints_password r :
  ∃ pre suf, debug_login_request r = pre +:+ "password: " +:+ debug_str (lr_password r) +:+ suf.
Proof.
  unfold debug_login_request, debug_struct.
  exists ("AuthRequest { command: " +:+ debug_str (lr_command r) +:+ ", username: "
          +:+ debug_str (lr_username r) +:+ ", ").
  eexists. cbn [fmap list_fmap String.concat]. rewrite !str_app_assoc. reflexivity.
Qed.
End Auth.
