(* ===== verification/Csv.v ===== *)
(** * CSV rows

    [import/csv.rs] and [export/csv.rs]: a row as a CSV line, and the two readers of CSV
    text. A [char] is its UTF-8 text. The theorems at
    the end read written rows back. *)
From S2P Require Import Prelude MachineInt RustStr StrText Clauses.
From S2P Require ImportQuery.
From Stdlib Require Import Ascii.

#[local] Open Scope Z_scope.

(** ** Characters *)
Definition newline_char : string := String (ascii_of_nat 10) "".
Definition return_char : string := String (ascii_of_nat 13) "".

Section Csv.
Context (separator delimiter : string).

(** ** Writing *)
(* code: import/csv.rs 316-319 format_csv_row *)
Definition needs_quoting (value : list string) : bool :=
  bool_decide (separator ∈ value) || bool_decide (delimiter ∈ value)
  || bool_decide (newline_char ∈ value) || bool_decide (return_char ∈ value).

(* code: import/csv.rs 323-329 format_csv_row *)
Definition escape_chars (value : list string) : list string :=
  value ≫= λ ch, if decide (ch = delimiter) then [delimiter; ch] else [ch].

(* code: import/csv.rs 314-333 format_csv_row *)
Definition format_field (value : list string) : list string :=
  if needs_quoting value then [delimiter] ++ escape_chars value ++ [delimiter] else value.

(* code: import/csv.rs 305-334 format_csv_row *)
Fixpoint format_fields (first : bool) (row : list string) : list string :=
  match row with
  | [] => []
  | field :: row =>
    (if first then [] else [separator]) ++ format_field (chars field) ++ format_fields false row
  end.

(* code: import/csv.rs 336-344 format_csv_row *)
Definition row_end (r : ImportQuery.RowSeparator) : list string :=
  match r with
  | ImportQuery.LF => [newline_char]
  | ImportQuery.CR => [return_char]
  | ImportQuery.CRLF => [return_char; newline_char]
  end.

(* code: import/csv.rs 295-347 format_csv_row *)
Definition format_csv_row (row : list string) (r : ImportQuery.RowSeparator) : string :=
  String.concat "" (format_fields true row ++ row_end r).

(** ** Reading *)
(** [CsvRows]: the characters to come, and the rows yielded so far. *)
(* code: export/csv.rs 919-925 CsvRows *)
Record CsvRows := { rest_chars : list string; rows_yielded : nat }.

(** Why the scan of a row stopped. *)
Inductive row_stop := RowEnd | TextEnd | OpenQuote.

(** The characters of one row: its fields, the last field, and what is behind it. *)
(* code: export/csv.rs 944-980 CsvRows::next *)
Fixpoint scan_row (cs : list string) (row : list string) (field : string) (in_quotes : bool)
    : list string * string * list string * row_stop :=
  match cs with
  | [] => (row, field, [], if in_quotes then OpenQuote else TextEnd)
  | c :: cs =>
    if in_quotes then
      if decide (c ≠ delimiter) then scan_row cs row (field +:+ c) true
      else match cs with
           | d :: cs' =>
             if decide (d = delimiter) then scan_row cs' row (field +:+ delimiter) true
             else scan_row cs row field false
           | [] => scan_row cs row field false
           end
    else if decide (c = delimiter) then scan_row cs row field true
    else if decide (c = separator) then scan_row cs (row ++ [field]) "" false
    else if decide (c = newline_char) then (row, field, cs, RowEnd)
    else if decide (c = return_char) then
      if decide (head cs = Some newline_char) then scan_row cs row field false
      else (row, field, cs, RowEnd)
    else scan_row cs row (field +:+ c) false
  end.

(** The error of an open quote: the row it was in. *)
(* code: export/csv.rs 938-981 CsvRows::next *)
Definition next_row (s : CsvRows) : option (outcome nat (list string)) * CsvRows :=
  match scan_row (rest_chars s) [] "" false with
  | (row, field, cs, how) =>
    match how with
    | OpenQuote => (Some (Err (rows_yielded s)), {| rest_chars := cs; rows_yielded := rows_yielded s |})
    | TextEnd =>
      if decide (rest_chars s = []) then (None, s)
      else (Some (Ok (row ++ [field])), {| rest_chars := cs; rows_yielded := S (rows_yielded s) |})
    | RowEnd => (Some (Ok (row ++ [field])), {| rest_chars := cs; rows_yielded := S (rows_yielded s) |})
    end
  end.

(** [csv_rows(data, ..).collect()]: a row takes at least a character. *)
(* code: export/csv.rs 896-902 parse_csv *)
Fixpoint collect_rows (fuel : nat) (s : CsvRows) : outcome nat (list (list string)) :=
  match fuel with
  | O => Panic
  | S fuel =>
    match next_row s with
    | (None, _) => Ok []
    | (Some r, s) => row ← r; rows ← collect_rows fuel s; Ok (row :: rows)
    end
  end.

(* code: export/csv.rs 910-917 csv_rows *)
Definition csv_rows (data : string) : CsvRows := {| rest_chars := chars data; rows_yielded := 0 |}.

(* code: export/csv.rs 896-902 parse_csv *)
Definition parse_csv (data : string) : outcome nat (list (list string)) :=
  collect_rows (S (length (chars data))) (csv_rows data).

(* code: export/csv.rs 1000-1026 parse_csv_row *)
Fixpoint scan_line (cs : list string) (fields : list string) (current_field : string)
    (in_quotes : bool) : list string * bool :=
  match cs with
  | [] => (fields ++ [current_field], in_quotes)
  | c :: cs =>
    if in_quotes then
      if decide (c = delimiter) then
        match cs with
        | d :: cs' =>
          if decide (d = delimiter) then scan_line cs' fields (current_field +:+ delimiter) true
          else scan_line cs fields current_field false
        | [] => scan_line cs fields current_field false
        end
      else scan_line cs fields (current_field +:+ c) true
    else if decide (c = delimiter) then scan_line cs fields current_field true
    else if decide (c = separator) then scan_line cs (fields ++ [current_field]) "" false
    else scan_line cs fields (current_field +:+ c) false
  end.

(* code: export/csv.rs 994-1027 parse_csv_row *)
Definition parse_csv_row (line : string) : list string * bool := scan_line (chars line) [] "" false.
End Csv.

Arguments rest_chars _.
Arguments rows_yielded _.

(** ** Lemmas *)
(** A character: a byte that starts one and continuation bytes. *)
Definition char_ok (c : string) : Prop :=
  match c with
  | EmptyString => False
  | String a r => is_cont (byte_of_ascii a) = false ∧
      str_forall (λ b, is_cont (byte_of_ascii b)) r = true
  end.

Definition text_of (cs : list string) : string := String.concat "" cs.

Lemma text_of_cons c cs : text_of (c :: cs) = c +:+ text_of cs.
Proof. destruct cs; [by rewrite str_app_nil_r|done]. Qed.

Lemma text_of_app cs1 cs2 : text_of (cs1 ++ cs2) = text_of cs1 +:+ text_of cs2.
Proof.
  induction cs1 as [|c cs1 IH]; [done|]. cbn [app]. by rewrite !text_of_cons, IH, str_app_assoc.
Qed.

Lemma text_of_chars s : text_of (chars s) = s.
Proof.
  induction s as [|a s IH]; [done|]. cbn [chars]. destruct (chars s) as [|c cs] eqn:E.
  - cbn in IH. by subst s.
  - rewrite text_of_cons in IH. destruct (starts_cont c); rewrite !text_of_cons, <- IH; done.
Qed.

Lemma chars_head s c cs : chars s = c :: cs → starts_cont c = starts_cont s.
Proof.
  destruct s as [|a s]; [done|]. cbn [chars].
  destruct (chars s) as [|c' cs']; [by intros [= <- <-]|].
  by destruct (starts_cont c'); intros [= <- <-].
Qed.

Lemma chars_cont r s :
  str_forall (λ b, is_cont (byte_of_ascii b)) r = true → starts_cont s = false →
  chars (r +:+ s) = match r with EmptyString => chars s | _ => r :: chars s end.
Proof.
  intros Hr Hs. induction r as [|a r IH]; [done|]. cbn [str_forall] in Hr.
  apply andb_true_iff in Hr as [Ha Hr]. rewrite str_app_cons. cbn [chars]. rewrite IH by done.
  destruct r as [|b r].
  - destruct (chars s) as [|c cs] eqn:E; [done|]. apply chars_head in E. by rewrite E, Hs.
  - cbn [str_forall] in Hr. apply andb_true_iff in Hr as [Hb Hr]. cbn [starts_cont]. by rewrite Hb.
Qed.

Lemma chars_cons c s : char_ok c → starts_cont s = false → chars (c +:+ s) = c :: chars s.
Proof.
  destruct c as [|a r]; [done|]. intros [Ha Hr] Hs. rewrite str_app_cons. cbn [chars].
  rewrite chars_cont by done. destruct r as [|b r].
  - destruct (chars s) as [|c cs] eqn:E; [done|].
    apply chars_head in E. by rewrite E, Hs.
  - cbn [str_forall] in Hr. apply andb_true_iff in Hr as [Hb Hr]. cbn [starts_cont]. by rewrite Hb.
Qed.

Lemma text_of_starts cs : Forall char_ok cs → starts_cont (text_of cs) = false.
Proof.
  intros Hcs. destruct Hcs as [|c cs Hc _]; [done|]. destruct c as [|a r]; [done|].
  rewrite text_of_cons. apply Hc.
Qed.

Lemma chars_text_of cs : Forall char_ok cs → chars (text_of cs) = cs.
Proof.
  induction 1 as [|c cs Hc Hcs IH]; [done|]. rewrite text_of_cons, chars_cons; [by rewrite IH|done|].
  by apply text_of_starts.
Qed.

Lemma chars_ok s : starts_cont s = false → Forall char_ok (chars s).
Proof.
  assert (∀ s, Forall char_ok (tail (chars s)) ∧
    match chars s with
    | [] => s = ""%string
    | c :: _ => starts_cont c = starts_cont s ∧
        (starts_cont c = true → str_forall (λ b, is_cont (byte_of_ascii b)) c = true) ∧
        (starts_cont c = false → char_ok c)
    end) as Hall.
  { clear. induction s as [|a s [IHt IHh]]; [done|]. cbn [chars].
    destruct (chars s) as [|c cs]; [cbn; split_and!; try done; intros ->; done|].
    destruct IHh as (Es & Hc & Hn). cbn [tail] in IHt. destruct (starts_cont c) eqn:Ec; cbn [tail].
    - split; [done|]. specialize (Hc eq_refl). split; [done|]. cbn [starts_cont].
      split; [intros Ha; cbn [str_forall]; by rewrite Ha, Hc|intros Ha; by split].
    - split; [constructor; [by apply Hn|done]|]. split; [done|]. cbn [starts_cont str_forall].
      split; [intros ->; done|intros Ha; by split]. }
  intros Hs. destruct (Hall s) as [Ht Hh]. destruct (chars s) as [|c cs]; [constructor|].
  destruct Hh as (E & _ & Hn). constructor; [|done]. apply Hn. by rewrite E.
Qed.

Lemma valid_starts s : valid_str s → starts_cont s = false.
Proof.
  destruct s as [|a s]; [done|]. unfold valid_str. cbn [starts_cont]. change (as_bytes (String a s))
    with (byte_of_ascii a :: as_bytes s). cbn [utf8_check].
  generalize (byte_of_ascii a) (as_bytes s). intros b bs. unfold is_cont, byte_in.
  intros E. apply andb_false_iff. rewrite !Z.leb_gt. destruct (Z.ltb_spec (byte_val b) 128); [by left|].
  right. destruct (Z.lt_ge_cases 191 (byte_val b)); [done|]. exfalso.
  repeat (match type of E with context [(?x <=? byte_val b) && _] =>
    destruct (Z.leb_spec x (byte_val b)); [lia|] end; cbn [andb] in E). done.
Qed.

(** ** Reading back what was written *)
Section Reading.
Context (separator delimiter : string).
Abbreviation scan := (scan_row separator delimiter).
Abbreviation quoting := (needs_quoting separator delimiter).

(** The two characters differ from each other and from the line ends. *)
Record csv_ok : Prop := {
  separator_char : char_ok separator;
  delimiter_char : char_ok delimiter;
  sep_delim : separator ≠ delimiter;
  sep_nl : separator ≠ newline_char;
  sep_cr : separator ≠ return_char;
  delim_nl : delimiter ≠ newline_char;
  delim_cr : delimiter ≠ return_char;
}.

Context (Hok : csv_ok).

Lemma scan_plain v cs row f :
  quoting v = false → scan (v ++ cs) row f false = scan cs row (f +:+ text_of v) false.
Proof.
  unfold needs_quoting. rewrite !orb_false_iff, !bool_decide_eq_false.
  intros [[[Hs Hd] Hn] Hr]. revert f. induction v as [|c v IH]; intros f.
  { cbn. by rewrite str_app_nil_r. }
  rewrite not_elem_of_cons in Hs, Hd, Hn, Hr. destruct Hs, Hd, Hn, Hr.
  cbn [app scan_row]. rewrite !decide_False by congruence. rewrite IH by done.
  by rewrite text_of_cons, str_app_assoc.
Qed.

(** A closing quote: the delimiter that no second one follows. *)
Lemma scan_close cs row f :
  head cs ≠ Some delimiter → scan (delimiter :: cs) row f true = scan cs row f false.
Proof.
  intros Hh. cbn [scan_row]. rewrite decide_False by (intros Hn; by apply Hn).
  destruct cs as [|d cs]; [done|]. rewrite decide_False by (intros ->; by apply Hh). done.
Qed.

Lemma scan_quoted v cs row f :
  head cs ≠ Some delimiter →
  scan (escape_chars delimiter v ++ delimiter :: cs) row f true
  = scan cs row (f +:+ text_of v) false.
Proof.
  intros Hh. revert f. induction v as [|c v IH]; intros f.
  { cbn [escape_chars mbind list_bind app text_of String.concat]. rewrite str_app_nil_r. by apply scan_close. }
  unfold escape_chars. cbn [mbind list_bind]. fold (escape_chars delimiter v).
  rewrite text_of_cons, <- str_app_assoc. destruct (decide (c = delimiter)) as [->|Hc].
  - rewrite <- app_assoc. cbn [app scan_row]. rewrite decide_False by (intros Hn; by apply Hn).
    rewrite decide_True by done. apply IH.
  - rewrite <- app_assoc. cbn [app scan_row]. rewrite decide_True by done. apply IH.
Qed.

Lemma scan_field v cs row :
  head cs ≠ Some delimiter →
  scan (format_field separator delimiter v ++ cs) row "" false = scan cs row (text_of v) false.
Proof.
  intros Hh. unfold format_field. destruct (quoting v) eqn:E.
  - cbn [app scan_row]. rewrite decide_True by done.
    rewrite <- app_assoc. cbn [app]. by rewrite scan_quoted.
  - by rewrite scan_plain.
Qed.

Definition line_end (cs : list string) : Prop :=
  head cs = Some newline_char ∨ head cs = Some return_char.

Lemma line_end_not_delim cs : line_end cs → head cs ≠ Some delimiter.
Proof. destruct Hok. intros [-> | ->]; congruence. Qed.

Lemma scan_fields fs f cs row :
  line_end cs →
  ∃ row' f',
    scan (format_fields separator delimiter true (f :: fs) ++ cs) row "" false
    = scan cs row' f' false ∧ row' ++ [f'] = row ++ f :: fs.
Proof.
  intros Hl. cbn [format_fields app]. revert f row. induction fs as [|g fs IH]; intros f row.
  - exists row, f. cbn [format_fields]. rewrite app_nil_r.
    rewrite scan_field, text_of_chars by (by apply line_end_not_delim). done.
  - cbn [format_fields]. rewrite <- app_assoc. rewrite scan_field, text_of_chars.
    2:{ destruct Hok. cbn. congruence. }
    rewrite <- !app_assoc. cbn [app]. cbn [scan_row]. destruct Hok.
    rewrite decide_False, decide_True by done.
    destruct (IH g (row ++ [f])) as (row' & f' & Hs & Hr).
    exists row', f'. rewrite app_assoc, Hs, Hr, <- app_assoc. done.
Qed.

Lemma scan_end r cs row f :
  (r = ImportQuery.CR → head cs ≠ Some newline_char) →
  scan (row_end r ++ cs) row f false = (row, f, cs, RowEnd).
Proof.
  destruct Hok. intros Hcs. destruct r; cbn [row_end app scan_row].
  - by rewrite !decide_False, decide_True by done.
  - rewrite decide_False, decide_False, decide_False, decide_True by done.
    rewrite decide_False by (by apply Hcs). done.
  - rewrite decide_False, decide_False, decide_False, decide_True by done.
    rewrite decide_True by done. by rewrite !decide_False, decide_True by done.
Qed.

Lemma row_end_line r cs : line_end (row_end r ++ cs).
Proof. destruct r; [by left|by right|by right]. Qed.

(** A row without fields is read as one empty field. *)
Definition read_as (row : list string) : list string :=
  match row with [] => [""%string] | _ => row end.

Definition row_chars (r : ImportQuery.RowSeparator) (row : list string) : list string :=
  format_fields separator delimiter true row ++ row_end r.

Lemma next_row_text r row cs n :
  (r = ImportQuery.CR → head cs ≠ Some newline_char) →
  next_row separator delimiter {| rest_chars := row_chars r row ++ cs; rows_yielded := n |}
  = (Some (Ok (read_as row)), {| rest_chars := cs; rows_yielded := S n |}).
Proof.
  intros Hcs. unfold next_row, row_chars. cbn [rest_chars rows_yielded]. rewrite <- app_assoc.
  destruct row as [|f fs].
  - cbn [format_fields app]. by rewrite scan_end.
  - destruct (scan_fields fs f (row_end r ++ cs) [] (row_end_line r cs)) as (row' & f' & -> & Hr).
    rewrite scan_end by done. by rewrite Hr.
Qed.

(** No row begins with a line feed when rows end with a carriage return. *)
Lemma row_head row cs :
  head (row_chars ImportQuery.CR row ++ cs) ≠ Some newline_char.
Proof.
  destruct Hok. unfold row_chars. destruct row as [|f fs]; [by cbn|]. cbn [format_fields app].
  unfold format_field. destruct (quoting (chars f)) eqn:E; [cbn; congruence|].
  unfold needs_quoting in E. rewrite !orb_false_iff, !bool_decide_eq_false in E.
  destruct E as [[_ Hn] _]. destruct (chars f) as [|c cf].
  - destruct fs as [|g fs]; cbn; [done|congruence].
  - cbn. intros [= ->]. apply Hn. left.
Qed.

Lemma collect_text r rows fuel n :
  (length rows < fuel)%nat →
  collect_rows separator delimiter fuel
    {| rest_chars := concat (row_chars r <$> rows); rows_yielded := n |} = Ok (read_as <$> rows).
Proof.
  revert fuel n. induction rows as [|row rows IH]; intros fuel n Hf;
    (destruct fuel as [|fuel]; [cbn in Hf; lia|]); [done|].
  cbn [fmap list_fmap concat collect_rows]. rewrite next_row_text.
  - cbn [mbind outcome_bind]. rewrite IH by (cbn in Hf; lia). done.
  - intros ->. destruct rows as [|row' rows]; [done|]. apply row_head.
Qed.

Lemma row_chars_ok r row :
  Forall valid_str row → Forall char_ok (row_chars r row).
Proof.
  intros Hv. unfold row_chars. apply Forall_app. split; [|destruct r; by repeat constructor].
  generalize true. induction Hv as [|f fs Hf _ IH]; intros first; [constructor|].
  cbn [format_fields]. apply Forall_app. split; [destruct first; [constructor|by repeat constructor; apply Hok]|].
  apply Forall_app. split; [|apply IH]. unfold format_field.
  pose proof (chars_ok f (valid_starts f Hf)) as Hc. destruct Hok. destruct (quoting (chars f)); [|done].
  apply Forall_app. split; [by constructor|]. apply Forall_app. split; [|by constructor].
  unfold escape_chars. apply Forall_bind. eapply Forall_impl; [exact Hc|].
  intros c Hcc. cbn. destruct (decide _); by repeat constructor.
Qed.
End Reading.

(** Rows written one behind the other are read back. *)
Lemma rows_read_back separator delimiter r rows :
  csv_ok separator delimiter → Forall (Forall valid_str) rows →
  parse_csv separator delimiter
    (String.concat "" ((λ row, format_csv_row separator delimiter row r) <$> rows))
  = Ok (read_as <$> rows).
Proof.
  intros Hok Hv.
  assert (String.concat "" ((λ row, format_csv_row separator delimiter row r) <$> rows)
    = text_of (concat (row_chars separator delimiter r <$> rows))) as ->.
  { clear Hv. induction rows as [|row rows IH]; [done|]. cbn [fmap list_fmap concat].
    rewrite text_of_app, <- IH. apply text_of_cons. }
  assert (Forall char_ok (concat (row_chars separator delimiter r <$> rows))) as Hc.
  { induction Hv as [|row rows Hr _ IH]; [constructor|]. cbn [fmap list_fmap concat].
    apply Forall_app. split; [by apply row_chars_ok|done]. }
  unfold parse_csv, csv_rows. rewrite chars_text_of by done. apply collect_text; [done|].
  assert (length rows ≤ length (concat (row_chars separator delimiter r <$> rows)))%nat; [|lia].
  clear. induction rows as [|row rows IH]; [done|]. cbn [fmap list_fmap concat length].
  rewrite length_app. unfold row_chars at 1. rewrite length_app. destruct r; cbn; lia.
Qed.

(** CSV text reads back: for any two different characters as separator and delimiter
    that are not line ends, and for each of the three line ends, the rows that an import
    formats - whatever their fields hold, separators, quotes and line breaks included -
    are parsed by the reader of an export into the same fields; only a row without fields
    comes back as one empty field. *)
Theorem csv_reads_back separator delimiter r rows :
  csv_ok separator delimiter → Forall (Forall valid_str) rows →
  parse_csv separator delimiter
    (String.concat "" ((λ row, format_csv_row separator delimiter row r) <$> rows))
  = Ok (read_as <$> rows).
Proof. apply rows_read_back. Qed.

(** ** The two readers *)
Lemma scan_line_row separator delimiter cs row f q :
  newline_char ∉ cs → return_char ∉ cs →
  ∃ row' f',
    scan_row separator delimiter cs row f q
    = (row', f', [], if (scan_line separator delimiter cs row f q).2 then OpenQuote else TextEnd) ∧
    (scan_line separator delimiter cs row f q).1 = row' ++ [f'].
Proof.
  remember (length cs) as n eqn:En. revert cs En row f q.
  induction (lt_wf n) as [n _ IH]. intros cs -> row f q Hn Hr.
  destruct cs as [|c cs]; [cbn; by destruct q; eauto|].
  apply not_elem_of_cons in Hn as [Hn0 Hn], Hr as [Hr0 Hr]. cbn [scan_row scan_line].
  destruct q.
  - destruct (decide (c = delimiter)) as [->|Hc].
    + rewrite decide_False by (intros Hx; by apply Hx). destruct cs as [|d cs].
      { by apply (IH 0%nat); [cbn; lia| |..]. }
      destruct (decide (d = delimiter)) as [->|Hd].
      * apply not_elem_of_cons in Hn as [_ Hn], Hr as [_ Hr].
        by apply (IH (length cs)); [cbn; lia|..].
      * by apply (IH (length (d :: cs))); [cbn; lia|..].
    + rewrite decide_True by done. by apply (IH (length cs)); [cbn; lia|..].
  - destruct (decide (c = delimiter)); [by apply (IH (length cs)); [cbn; lia|..]|].
    destruct (decide (c = separator)); [by apply (IH (length cs)); [cbn; lia|..]|].
    rewrite !decide_False by congruence. by apply (IH (length cs)); [cbn; lia|..].
Qed.

(** The two CSV readers of the crate: on a line without line ends the reader of rows
    yields exactly the fields of the reader of lines, and fails exactly when that one
    reports an open quote. *)
Theorem csv_readers_agree separator delimiter line :
  contains_char (ascii_of_nat 10) line = false → contains_char (ascii_of_nat 13) line = false →
  line ≠ ""%string →
  let '(fields, in_quotes) := parse_csv_row separator delimiter line in
  (next_row separator delimiter (csv_rows line)).1
  = Some (if in_quotes : bool then Err 0%nat else Ok fields).
Proof.
  intros Hn Hr Hl.
  assert (∀ a, contains_char a line = false → String a "" ∉ chars line) as Hin.
  { clear. intros a. induction line as [|b s IH]; [set_solver|]. cbn [contains_char chars].
    rewrite orb_false_iff. intros [Hb Hs]. specialize (IH Hs). apply Ascii.eqb_neq in Hb.
    destruct (chars s) as [|c cs]; [set_solver|]. apply not_elem_of_cons in IH as [Hc Hcs].
    destruct (starts_cont c) eqn:Ec; apply not_elem_of_cons; (split; [|set_solver]).
    - intros [= -> Ei]. by subst c.
    - congruence. }
  destruct (scan_line_row separator delimiter (chars line) [] "" false) as (row & f & Es & Ef);
    [by apply Hin|by apply Hin|].
  unfold parse_csv_row, next_row, csv_rows. cbn [rest_chars rows_yielded]. rewrite Es.
  destruct (scan_line _ _ _ _ _ _) as [fields q]. cbn [fst snd] in *. subst fields.
  destruct q; [done|]. rewrite decide_False; [done|].
  intros E. apply Hl. by rewrite <- (text_of_chars line), E.
Qed.
