(* ===== verification/CsvImport.v ===== *)
(** * CSV import

    [import/csv.rs]: the options of a CSV import and the statement they give, and the
    ways the data goes through the tunnel: at once, from a reader, and piece by piece. *)
From S2P Require Import Prelude MachineInt RustStr StrText Errors HttpWire Effect Json Messages.
From S2P Require Import Lifecycle Tls HttpTunnel HttpClient Csv.
From S2P Require ImportQuery.

#[local] Open Scope Z_scope.

(* code: import/csv.rs 22-23 DEFAULT_BUFFER_SIZE *)
Definition DEFAULT_BUFFER_SIZE : Z := 64 * 1024.

(** ** Options *)
(* code: import/csv.rs 28-76 CsvImportOptions *)
Record CsvImportOptions := {
  encoding : string;
  column_separator : string;
  column_delimiter : string;
  row_separator : ImportQuery.RowSeparator;
  skip_rows : Z;
  null_value : option string;
  trim_mode : ImportQuery.TrimMode;
  compression : ImportQuery.Compression;
  reject_limit : option Z;
  use_tls : bool;
  schema : option string;
  columns : option (list string);
  host : string;
  port : Z;
}.

(* code: import/csv.rs 78-104 CsvImportOptions::default *)
Definition CsvImportOptions_default : CsvImportOptions := {|
  encoding := "UTF-8"; column_separator := ","; column_delimiter := String dquote "";
  row_separator := ImportQuery.LF; skip_rows := 0; null_value := None;
  trim_mode := ImportQuery.NoTrim; compression := ImportQuery.Uncompressed;
  reject_limit := None; use_tls := false; schema := None; columns := None;
  host := ""; port := 0;
|}.

Section Setters.
Context (o : CsvImportOptions).

(* code: import/csv.rs 106-110 CsvImportOptions::encoding *)
Definition with_encoding (enc : string) : CsvImportOptions := {|
  encoding := enc; column_separator := column_separator o; column_delimiter :=
  column_delimiter o; row_separator := row_separator o; skip_rows := skip_rows o;
  null_value := null_value o; trim_mode := trim_mode o; compression := compression o;
  reject_limit := reject_limit o; use_tls := use_tls o; schema := schema o; columns :=
  columns o; host := host o; port := port o |}.

(* code: import/csv.rs 112-116 CsvImportOptions::column_separator *)
Definition with_column_separator (sep : string) : CsvImportOptions := {|
  encoding := encoding o; column_separator := sep; column_delimiter := column_delimiter o;
  row_separator := row_separator o; skip_rows := skip_rows o; null_value := null_value o;
  trim_mode := trim_mode o; compression := compression o; reject_limit := reject_limit o;
  use_tls := use_tls o; schema := schema o; columns := columns o; host := host o; port :=
  port o |}.

(* code: import/csv.rs 118-122 CsvImportOptions::column_delimiter *)
Definition with_column_delimiter (delim : string) : CsvImportOptions := {|
  encoding := encoding o; column_separator := column_separator o; column_delimiter :=
  delim; row_separator := row_separator o; skip_rows := skip_rows o; null_value :=
  null_value o; trim_mode := trim_mode o; compression := compression o; reject_limit :=
  reject_limit o; use_tls := use_tls o; schema := schema o; columns := columns o; host :=
  host o; port := port o |}.

(* code: import/csv.rs 124-128 CsvImportOptions::row_separator *)
Definition with_row_separator (sep : ImportQuery.RowSeparator) : CsvImportOptions := {|
  encoding := encoding o; column_separator := column_separator o; column_delimiter :=
  column_delimiter o; row_separator := sep; skip_rows := skip_rows o; null_value :=
  null_value o; trim_mode := trim_mode o; compression := compression o; reject_limit :=
  reject_limit o; use_tls := use_tls o; schema := schema o; columns := columns o; host :=
  host o; port := port o |}.

(* code: import/csv.rs 130-134 CsvImportOptions::skip_rows *)
Definition with_skip_rows (rows : Z) : CsvImportOptions := {|
  encoding := encoding o; column_separator := column_separator o; column_delimiter :=
  column_delimiter o; row_separator := row_separator o; skip_rows := rows; null_value :=
  null_value o; trim_mode := trim_mode o; compression := compression o; reject_limit :=
  reject_limit o; use_tls := use_tls o; schema := schema o; columns := columns o; host :=
  host o; port := port o |}.

(* code: import/csv.rs 136-140 CsvImportOptions::null_value *)
Definition with_null_value (val : string) : CsvImportOptions := {|
  encoding := encoding o; column_separator := column_separator o; column_delimiter :=
  column_delimiter o; row_separator := row_separator o; skip_rows := skip_rows o;
  null_value := Some val; trim_mode := trim_mode o; compression := compression o;
  reject_limit := reject_limit o; use_tls := use_tls o; schema := schema o; columns :=
  columns o; host := host o; port := port o |}.

(* code: import/csv.rs 142-146 CsvImportOptions::trim_mode *)
Definition with_trim_mode (mode : ImportQuery.TrimMode) : CsvImportOptions := {|
  encoding := encoding o; column_separator := column_separator o; column_delimiter :=
  column_delimiter o; row_separator := row_separator o; skip_rows := skip_rows o;
  null_value := null_value o; trim_mode := mode; compression := compression o;
  reject_limit := reject_limit o; use_tls := use_tls o; schema := schema o; columns :=
  columns o; host := host o; port := port o |}.

(* code: import/csv.rs 148-152 CsvImportOptions::compression *)
Definition with_compression (c : ImportQuery.Compression) : CsvImportOptions := {|
  encoding := encoding o; column_separator := column_separator o; column_delimiter :=
  column_delimiter o; row_separator := row_separator o; skip_rows := skip_rows o;
  null_value := null_value o; trim_mode := trim_mode o; compression := c; reject_limit :=
  reject_limit o; use_tls := use_tls o; schema := schema o; columns := columns o; host :=
  host o; port := port o |}.

(* code: import/csv.rs 154-158 CsvImportOptions::reject_limit *)
Definition with_reject_limit (limit : Z) : CsvImportOptions := {|
  encoding := encoding o; column_separator := column_separator o; column_delimiter :=
  column_delimiter o; row_separator := row_separator o; skip_rows := skip_rows o;
  null_value := null_value o; trim_mode := trim_mode o; compression := compression o;
  reject_limit := Some limit; use_tls := use_tls o; schema := schema o; columns := columns
  o; host := host o; port := port o |}.

(* code: import/csv.rs 160-164 CsvImportOptions::use_tls *)
Definition with_use_tls (tls : bool) : CsvImportOptions := {|
  encoding := encoding o; column_separator := column_separator o; column_delimiter :=
  column_delimiter o; row_separator := row_separator o; skip_rows := skip_rows o;
  null_value := null_value o; trim_mode := trim_mode o; compression := compression o;
  reject_limit := reject_limit o; use_tls := tls; schema := schema o; columns := columns
  o; host := host o; port := port o |}.

(* code: import/csv.rs 166-170 CsvImportOptions::schema *)
Definition with_schema (s : string) : CsvImportOptions := {|
  encoding := encoding o; column_separator := column_separator o; column_delimiter :=
  column_delimiter o; row_separator := row_separator o; skip_rows := skip_rows o;
  null_value := null_value o; trim_mode := trim_mode o; compression := compression o;
  reject_limit := reject_limit o; use_tls := use_tls o; schema := Some s; columns :=
  columns o; host := host o; port := port o |}.

(* code: import/csv.rs 172-176 CsvImportOptions::columns *)
Definition with_columns (cols : list string) : CsvImportOptions := {|
  encoding := encoding o; column_separator := column_separator o; column_delimiter :=
  column_delimiter o; row_separator := row_separator o; skip_rows := skip_rows o;
  null_value := null_value o; trim_mode := trim_mode o; compression := compression o;
  reject_limit := reject_limit o; use_tls := use_tls o; schema := schema o; columns :=
  Some cols; host := host o; port := port o |}.

(* code: import/csv.rs 184-188 CsvImportOptions::exasol_host *)
Definition exasol_host (h : string) : CsvImportOptions := {|
  encoding := encoding o; column_separator := column_separator o; column_delimiter :=
  column_delimiter o; row_separator := row_separator o; skip_rows := skip_rows o;
  null_value := null_value o; trim_mode := trim_mode o; compression := compression o;
  reject_limit := reject_limit o; use_tls := use_tls o; schema := schema o; columns :=
  columns o; host := h; port := port o |}.

(* code: import/csv.rs 193-197 CsvImportOptions::exasol_port *)
Definition exasol_port (p : Z) : CsvImportOptions := {|
  encoding := encoding o; column_separator := column_separator o; column_delimiter :=
  column_delimiter o; row_separator := row_separator o; skip_rows := skip_rows o;
  null_value := null_value o; trim_mode := trim_mode o; compression := compression o;
  reject_limit := reject_limit o; use_tls := use_tls o; schema := schema o; columns :=
  columns o; host := host o; port := p |}.
End Setters.

(** [if let Some(x) = o { q = f(q, x) }]. *)
Definition if_some {A B} (o : option A) (f : B → A → B) (b : B) : B :=
  match o with Some a => f b a | None => b end.

(** The options that every CSV import states. *)
Definition with_csv_options (o : CsvImportOptions) (q : ImportQuery.ImportQuery)
    : ImportQuery.ImportQuery :=
  let q := ImportQuery.with_encoding q (encoding o) in
  let q := ImportQuery.with_column_separator q (column_separator o) in
  let q := ImportQuery.with_column_delimiter q (column_delimiter o) in
  let q := ImportQuery.with_row_separator q (row_separator o) in
  let q := ImportQuery.with_skip q (skip_rows o) in
  let q := ImportQuery.with_trim q (trim_mode o) in
  let q := ImportQuery.compressed q (compression o) in
  let q := if_some (null_value o) ImportQuery.with_null_value q in
  if_some (reject_limit o) ImportQuery.with_reject_limit q.

(* code: import/csv.rs 200-234 CsvImportOptions::build_query *)
Definition build_query (o : CsvImportOptions) (table address : string)
    (public_key : option string) : ImportQuery.ImportQuery :=
  let q := ImportQuery.at_address (ImportQuery.ImportQuery_new table) address in
  let q := if_some (schema o) ImportQuery.with_schema q in
  let q := if_some (columns o) ImportQuery.with_columns q in
  let q := if_some public_key ImportQuery.with_public_key q in
  with_csv_options o q.

(* code: import/csv.rs 562-596 build_multi_file_query *)
Definition build_multi_file_query (table : string) (o : CsvImportOptions)
    (entries : list ImportQuery.ImportFileEntry) : ImportQuery.ImportQuery :=
  let q := ImportQuery.with_files (ImportQuery.ImportQuery_new table) entries in
  let q := if_some (schema o) ImportQuery.with_schema q in
  let q := if_some (columns o) ImportQuery.with_columns q in
  with_csv_options o q.

(** ** Compression by file name *)
#[global] Instance Compression_eq_dec : EqDecision ImportQuery.Compression.
Proof. solve_decision. Defined.

(** A path is its text. *)
(* code: import/csv.rs 359-373 detect_compression *)
Definition detect_compression `{UnicodeCase} (file_path : string)
    (explicit_compression : ImportQuery.Compression) : ImportQuery.Compression :=
  if decide (explicit_compression ≠ ImportQuery.Uncompressed) then explicit_compression
  else
    let path_str := to_lowercase file_path in
    if ends_with ".gz" path_str || ends_with ".gzip" path_str then ImportQuery.Gzip
    else if ends_with ".bz2" path_str || ends_with ".bzip2" path_str then ImportQuery.Bzip2
    else ImportQuery.Uncompressed.

(* code: import/csv.rs 384-386 is_compressed_file *)
Definition is_compressed_file `{UnicodeCase} (file_path : string) : bool :=
  bool_decide (detect_compression file_path ImportQuery.Uncompressed ≠ ImportQuery.Uncompressed).

(** ** Encoders *)
(** flate2 and bzip2: an encoder's state, a write with the bytes that became ready, and
    its end; an error is its text. *)
Class Encoders := {
  encoder : Type;
  encoder_new : ImportQuery.Compression → encoder;
  encoder_write : encoder → list byte → list byte * encoder + string;
  encoder_finish : encoder → list byte + string;
}.

Section Streaming.
Context `{Clock, Network, UnicodeCase, TunnelNetwork, CertLib, FingerprintLib, Encoders}.

(* code: import/csv.rs 909-914 StreamEncoder *)
Inductive StreamEncoder := GzipEncoder (e : encoder) | Bzip2Encoder (e : encoder).

(* code: import/csv.rs 918-930 StreamEncoder::new *)
Definition StreamEncoder_new (c : ImportQuery.Compression) : option StreamEncoder :=
  match c with
  | ImportQuery.Uncompressed => None
  | ImportQuery.Gzip => Some (GzipEncoder (encoder_new ImportQuery.Gzip))
  | ImportQuery.Bzip2 => Some (Bzip2Encoder (encoder_new ImportQuery.Bzip2))
  end.

Definition encoder_name (e : StreamEncoder) : string :=
  match e with GzipEncoder _ => "Gzip" | Bzip2Encoder _ => "Bzip2" end.
Definition encoder_of (e : StreamEncoder) : encoder :=
  match e with GzipEncoder e | Bzip2Encoder e => e end.
Definition with_encoder (e : StreamEncoder) (s : encoder) : StreamEncoder :=
  match e with GzipEncoder _ => GzipEncoder s | Bzip2Encoder _ => Bzip2Encoder s end.

(* code: import/csv.rs 935-944 StreamEncoder::write *)
Definition StreamEncoder_write (e : StreamEncoder) (piece : list byte)
    : outcome ImportError (list byte * StreamEncoder) :=
  match encoder_write (encoder_of e) piece with
  | inl (ready, s) => Ok (ready, with_encoder e s)
  | inr err => Err (CompressionError (encoder_name e +:+ " compression failed: " +:+ err))
  end.

(* code: import/csv.rs 947-954 StreamEncoder::finish *)
Definition StreamEncoder_finish (e : StreamEncoder) : outcome ImportError (list byte) :=
  match encoder_finish (encoder_of e) with
  | inl pending => Ok pending
  | inr err => Err (CompressionError (encoder_name e +:+ " finalization failed: " +:+ err))
  end.

(* code: import/csv.rs 958-965 compress_data *)
Definition compress_data (data : list byte) (c : ImportQuery.Compression)
    : outcome ImportError (list byte) :=
  match StreamEncoder_new c with
  | None => Ok data
  | Some e =>
    '(compressed, e) ← StreamEncoder_write e data;
    pending ← StreamEncoder_finish e;
    Ok (compressed ++ pending)
  end.

(** ** Actions that fail with an import error *)
Inductive import_stop := ImportFailed (e : ImportError) | ImportCancelled.

(** [m().await.map_err(f)?]. *)
Definition transport {T A} (f : TransportError → ImportError) (m : io T A)
    : action import_stop (World * T) A := λ s,
  let '(o, s) := m s in
  (map_err (λ e, match e with Failed e => ImportFailed (f e) | Cancelled => ImportCancelled end) o, s).

Definition importing {T A} (m : outcome ImportError A) : action import_stop (World * T) A :=
  pure_call (map_err ImportFailed m).

Definition request_failed (e : TransportError) : ImportError :=
  HttpTransportError ("Failed to handle import request: " +:+ show_transport_error e).

Context {X : Type}.
Abbreviation iio := (action import_stop (World * (HttpTransportClient * X))).

(* code: import/csv.rs 873-878 write_chunked_data *)
Fixpoint write_chunks (pieces : list (list byte)) : iio unit :=
  match pieces with
  | [] => mret ()
  | chunk :: pieces =>
    _ ← transport ImportTransportError (write_chunked_body chunk); write_chunks pieces
  end.

(* code: import/csv.rs 868-887 write_chunked_data *)
Definition write_chunked_data (data : list byte) : iio unit :=
  _ ← write_chunks (chunks (Z.to_nat DEFAULT_BUFFER_SIZE) data);
  transport ImportTransportError write_final_chunk.

(* code: import/csv.rs 896-907 send_import_response *)
Definition send_import_response (data : list byte) : iio unit :=
  _ ← transport request_failed handle_import_request; write_chunked_data data.

(** An [AsyncRead]: the pieces it has, and whether it ends or fails behind them. *)
Record Reader := { reads : list (list byte); fails : option string }.

(** [reader.read(&mut piece)] with a buffer of [n] bytes; nothing at the end. *)
Definition reader_read (n : nat) (r : Reader) : outcome ImportError (list byte * Reader) :=
  match reads r with
  | [] => match fails r with Some e => Err (ImportIoError e) | None => Ok ([], r) end
  | p :: ps =>
    Ok (take n p, {| reads := match drop n p with [] => ps | p => p :: ps end; fails := fails r |})
  end.

(** [reader.read_to_end(&mut data)]. *)
Definition read_to_end (r : Reader) : outcome ImportError (list byte) :=
  match fails r with Some e => Err (ImportIoError e) | None => Ok (concat (reads r)) end.

(* code: import/csv.rs 839-861 stream_reader_to_connection *)
Definition stream_reader_to_connection (r : Reader) (c : ImportQuery.Compression) : iio unit :=
  _ ← transport request_failed handle_import_request;
  data ← importing (read_to_end r);
  compressed_data ← importing (compress_data data c);
  write_chunked_data compressed_data.

(* code: import/csv.rs 1011-1022 write_body_piece *)
Definition write_body_piece (body : list byte) : iio unit :=
  match body with
  | [] => mret ()
  | _ => transport ImportTransportError (write_chunked_body body)
  end.

(** What is sent for a piece: its compressed bytes, or itself. *)
(* code: import/csv.rs 993-996 stream_file_to_connection *)
Definition encode_piece (e : option StreamEncoder) (piece : list byte)
    : outcome ImportError (list byte * option StreamEncoder) :=
  match e with
  | Some e => '(body, e) ← StreamEncoder_write e piece; Ok (body, Some e)
  | None => Ok (piece, None)
  end.

(** A read takes at least a byte, so that the bytes of the reader bound the rounds. *)
(* code: import/csv.rs 988-998 stream_file_to_connection *)
Fixpoint stream_pieces (fuel : nat) (r : Reader) (e : option StreamEncoder)
    : iio (option StreamEncoder) :=
  match fuel with
  | O => pure_call Panic
  | S fuel =>
    '(piece, r) ← importing (reader_read (Z.to_nat DEFAULT_BUFFER_SIZE) r);
    match piece with
    | [] => mret e
    | _ =>
      '(body, e) ← importing (encode_piece e piece);
      _ ← write_body_piece body;
      stream_pieces fuel r e
    end
  end.

(* code: import/csv.rs 974-1007 stream_file_to_connection *)
Definition stream_file_to_connection (r : Reader) (c : ImportQuery.Compression) : iio unit :=
  _ ← transport request_failed handle_import_request;
  e ← stream_pieces (S (length (concat (reads r)))) r (StreamEncoder_new c);
  _ ← match e with
      | Some e => pending ← importing (StreamEncoder_finish e); write_body_piece pending
      | None => mret ()
      end;
  transport ImportTransportError write_final_chunk.

(** The rows of an iterator. *)
(* code: import/csv.rs 679-693 import_from_iter *)
Definition stream_rows (o : CsvImportOptions) (rows : list (list string)) : iio unit :=
  let data := concat ((λ row, as_bytes (format_csv_row (column_separator o) (column_delimiter o)
                                          row (row_separator o))) <$> rows) in
  compressed_data ← importing (compress_data data (compression o));
  send_import_response compressed_data.

(** The bytes of a file, compressed unless its name says that they are. *)
(* code: import/csv.rs 437-449 import_from_file *)
Definition stream_file_data (file_is_compressed : bool) (data : list byte)
    (c : ImportQuery.Compression) : iio unit :=
  compressed_data ← importing (if file_is_compressed then Ok data else compress_data data c);
  send_import_response compressed_data.

(** The data that a callback sent through its [DataPipeSender], and how the callback ended:
    with an error, or a panic, of which the join error gives the text. Nothing is sent before
    the callback has ended. *)
(* code: import/csv.rs 734-761 import_from_callback *)
Definition stream_callback (chunks : list (list byte)) (ended : outcome ImportError unit)
    (join_error : string) (c : ImportQuery.Compression) : iio unit :=
  _ ← importing (match ended with
                 | Ok () => Ok ()
                 | Err e => Err (StreamError ("Callback error: " +:+ show_import_error e))
                 | Panic => Err (StreamError ("Callback task panicked: " +:+ join_error))
                 end);
  compressed_data ← importing (compress_data (concat chunks) c);
  send_import_response compressed_data.

(** ** The statement *)
(** The tunnel and the statement that names it. *)
(* code: import/csv.rs 779-794 import_csv_internal *)
Definition open_import {T} (o : CsvImportOptions) (table : string)
    : action import_stop (World * T) (HttpTransportClient * string) :=
  client ← transport (λ e, HttpTransportError
                        ("Failed to connect to Exasol: " +:+ show_transport_error e))
             (connect (host o) (port o) (use_tls o));
  mret (client, ImportQuery.build
                  (build_query o table (internal_address client) (public_key_fingerprint client))).

(** The options and the treatment of the data that a file's name asks for. *)
(* code: import/csv.rs 420-428 import_from_file *)
Definition import_file_plan (file_path : string) (o : CsvImportOptions)
    : CsvImportOptions * bool :=
  (with_compression o (detect_compression file_path (compression o)), is_compressed_file file_path).

(** The compression each file of several is sent with. *)
(* code: import/csv.rs 528-542 import_from_files *)
Definition import_files_plan (paths : list string) (o : CsvImportOptions)
    : list (string * ImportQuery.Compression) :=
  (λ path, (path, if is_compressed_file path then ImportQuery.Uncompressed else compression o))
    <$> paths.
End Streaming.

(** ** The statement and the stream *)
(** Both run at once; [select!] sees which ends first. The statement, if it is reached,
    ends as [sql]; the stream, if it runs to its end, as [stream]. *)
(* code: import/csv.rs 806-830 import_csv_internal *)
Definition settle_import (sql_first : bool) (sql : outcome string Z)
    (stream : outcome ImportError unit) : outcome ImportError Z :=
  if sql_first then
    row_count ← map_err SqlError sql;
    _ ← stream;
    Ok row_count
  else
    _ ← stream;
    map_err SqlError sql.
