(* ===== verification/CsvStream.v ===== *)
(** * Import bodies

    What Exasol reads when a CSV import streams its data: everything and an end, or a body
    without an end; and which compression the statement announces for it. *)
From S2P Require Import Prelude MachineInt RustStr StrText Errors HttpWire Effect Json.
From S2P Require Import Messages Lifecycle Tls HttpTunnel HttpClient HttpRuns HttpBodies.
From S2P Require Import Csv CsvImport.
From S2P Require ImportQuery.

#[local] Open Scope Z_scope.

(** ** Encoders *)
(** A run of an encoder over pieces: the bytes that became ready, and its state. *)
Fixpoint encode_pieces `{Encoders} (e : option StreamEncoder) (pieces : list (list byte))
    : list (list byte) * outcome ImportError (option StreamEncoder) :=
  match pieces with
  | [] => ([], Ok e)
  | p :: pieces =>
    match encode_piece e p with
    | Ok (body, e) => let '(bodies, o) := encode_pieces e pieces in (body :: bodies, o)
    | Err err => ([], Err err)
    | Panic => ([], Panic)
    end
  end.

(** The bytes behind the last piece. *)
Definition encode_end `{Encoders} (e : option StreamEncoder) : outcome ImportError (list byte) :=
  match e with Some e => StreamEncoder_finish e | None => Ok [] end.

(** An encoder's output decodes to what was written to it, and every part of it is a
    vector. *)
Class EncoderLaws (E : Encoders) := {
  decode : ImportQuery.Compression → list byte → option (list byte);
  decode_plain bs : decode ImportQuery.Uncompressed bs = Some bs;
  decode_run c pieces bodies e last :
    encode_pieces (StreamEncoder_new c) pieces = (bodies, Ok e) → encode_end e = Ok last →
    decode c (concat bodies ++ last) = Some (concat pieces);
  encoder_write_fits e piece body e' :
    encoder_write e piece = inl (body, e') → Z.of_nat (length body) ≤ imax USize;
  encoder_finish_fits e body :
    encoder_finish e = inl body → Z.of_nat (length body) ≤ imax USize;
}.

(** Encoders that never fail on what fits into the buffer of a read. *)
Definition encoders_work `{Encoders} : Prop :=
  (∀ e p, Z.of_nat (length p) ≤ DEFAULT_BUFFER_SIZE → ∃ r, encoder_write e p = inl r) ∧
  ∀ e, ∃ r, encoder_finish e = inl r.

(** ** Actions of an import *)
Section Stream.
Context `{Clock, Network, UnicodeCase, TunnelNetwork, CertLib, FingerprintLib, Encoders}.
Context {X : Type}.

Lemma transport_ends {T A} f (m : io T A) s a s' :
  ends m s (Ok a) s' → ends (transport f m) s (Ok a) s'.
Proof. intros Hm w Hw. destruct (Hm w Hw) as (w' & E & ?). unfold transport. rewrite E. by eexists. Qed.

Lemma importing_ends {T A} (m : outcome ImportError A) (s : T) :
  ends (importing m) s (map_err ImportFailed m) s.
Proof. intros w Hw. by exists w. Qed.

Context (c : HttpTransportClient) (io : TunnelIo) (x : X).
Context (Hr : ∀ z, representable z = true) (Hw : pure_write).

Abbreviation at_ k := (on c io k, x).

Lemma write_chunks_ends pieces k :
  ends (write_chunks pieces) (at_ k) (Ok ()) (at_ (put k (concat (body_piece <$> pieces)))).
Proof.
  revert k. induction pieces as [|p pieces IH]; intros k; cbn [write_chunks fmap list_fmap concat].
  - rewrite put_nil. apply ends_ret.
  - rewrite <- put_put. eapply ends_bind; [|apply IH].
    by apply transport_ends, write_chunked_body_next.
Qed.

Lemma write_body_piece_ends body k :
  ends (write_body_piece body) (at_ k) (Ok ()) (at_ (put k (body_piece body))).
Proof.
  destruct body as [|b body]; [cbn; rewrite put_nil; apply ends_ret|].
  by apply transport_ends, (write_chunked_body_next (b :: body)).
Qed.

Lemma final_chunk_ends k :
  ends (transport ImportTransportError write_final_chunk) (at_ k) (Ok ())
    (at_ (put k (encode_chunk []))).
Proof. by apply transport_ends, write_next. Qed.

Lemma write_chunked_data_ends data k :
  ends (write_chunked_data data) (at_ k) (Ok ())
    (at_ (put k (import_body (chunks (Z.to_nat DEFAULT_BUFFER_SIZE) data)))).
Proof.
  unfold write_chunked_data, import_body. rewrite <- put_put.
  eapply ends_bind; [apply write_chunks_ends|apply final_chunk_ends].
Qed.

(** ** Pieces of a reader *)
Definition buffer : nat := piece_max.

Lemma buffer_size : Z.to_nat DEFAULT_BUFFER_SIZE = buffer.
Proof. unfold buffer. rewrite piece_max_eq. reflexivity. Qed.

(** A reader whose reads are not empty; what a loop with the buffer reads of it. *)
Definition reader_ok (r : Reader) : Prop := Forall (λ p, p ≠ []) (reads r).
Definition pieces_read (r : Reader) : list (list byte) := concat (chunks buffer <$> reads r).

Lemma concat_pieces_read r : concat (pieces_read r) = concat (reads r).
Proof.
  unfold pieces_read. induction (reads r) as [|p ps IH]; [done|]. cbn [fmap list_fmap concat].
  by rewrite concat_app, IH, concat_chunks by apply piece_max_pos.
Qed.

Lemma reader_read_cases r :
  reader_ok r →
  match pieces_read r with
  | [] => reads r = [] ∧ reader_read buffer r
      = match fails r with Some e => Err (ImportIoError e) | None => Ok ([], r) end
  | p :: ps => ∃ r', reader_read buffer r = Ok (p, r') ∧ reader_ok r' ∧ fails r' = fails r ∧
      pieces_read r' = ps ∧ p ≠ [] ∧
      (length (concat (reads r')) < length (concat (reads r)))%nat
  end.
Proof.
  destruct r as [[|p ps] fl]; [done|]. unfold reader_ok, pieces_read, reader_read. cbn [reads fails].
  intros Hok. apply Forall_cons in Hok as [Hp Hps]. cbn [fmap list_fmap concat].
  pose proof piece_max_pos as Hn. rewrite chunks_cons by done. cbn [app].
  eexists. split; [reflexivity|]. cbn [reads fails]. fold buffer in *.
  assert (take buffer p ≠ []) as Ht.
  { intros E. apply (f_equal length) in E. rewrite length_take in E. destruct p; [done|].
    unfold buffer in *. cbn [length] in E. lia. }
  assert (0 < length (take buffer p))%nat by (destruct (take buffer p); [done|cbn; lia]).
  pose proof (f_equal length (take_drop buffer p)) as Hl. rewrite length_app in Hl.
  rewrite length_app.
  destruct (drop buffer p) as [|b q] eqn:Ed; cbn [length] in Hl.
  - split_and!; [done|done|done|done|]. lia.
  - split_and!; [by constructor|done|done|done|]. cbn [concat]. rewrite length_app. cbn [length]. lia.
Qed.

Lemma pieces_read_fit r : Forall (λ p, Z.of_nat (length p) ≤ DEFAULT_BUFFER_SIZE) (pieces_read r).
Proof.
  unfold pieces_read. induction (reads r) as [|p ps IH]; [constructor|]. cbn [fmap list_fmap concat].
  apply Forall_app. split; [|done].
  eapply Forall_impl; [apply chunks_sizes, piece_max_pos|]. intros q [_ Hq]. cbn beta.
  fold buffer in Hq. rewrite <- buffer_size in Hq. unfold DEFAULT_BUFFER_SIZE in *. lia.
Qed.

(** What streaming makes of the reader: its pieces encoded, until an error. *)
Definition stream_result (e : option StreamEncoder) (r : Reader)
    : list (list byte) * outcome ImportError (option StreamEncoder) :=
  let '(bodies, o) := encode_pieces e (pieces_read r) in
  (bodies, e ← o; match fails r with Some err => Err (ImportIoError err) | None => Ok e end).

Lemma stream_pieces_ends fuel r e k :
  reader_ok r → (length (concat (reads r)) < fuel)%nat →
  ends (stream_pieces fuel r e) (at_ k) (map_err ImportFailed (stream_result e r).2)
    (at_ (put k (concat (body_piece <$> (stream_result e r).1)))).
Proof.
  revert r e k. induction fuel as [|fuel IH]; intros r e k Hok Hf; [lia|].
  cbn [stream_pieces]. rewrite buffer_size. pose proof (reader_read_cases r Hok) as Hread.
  unfold stream_result. destruct (pieces_read r) as [|p ps] eqn:Ep.
  - destruct Hread as [_ Hread]. cbn [encode_pieces fst snd fmap list_fmap concat]. rewrite put_nil.
    destruct (fails r) as [err|].
    + apply ends_bind_err. rewrite Hread. apply (importing_ends (Err (ImportIoError err))).
    + eapply ends_bind; [rewrite Hread; apply (importing_ends (Ok ([], r)))|apply ends_ret].
  - destruct Hread as (r' & Hread & Hok' & Hfl & Hps & Hp & Hl). cbn [encode_pieces].
    eapply ends_bind; [rewrite Hread; apply (importing_ends (Ok (p, r')))|].
    cbn beta iota. destruct p as [|b p]; [done|]. set (q := b :: p) in *.
    destruct (encode_piece e q) as [[body e']|err|] eqn:Eq.
    + eapply ends_bind; [apply (importing_ends (Ok (body, e')))|].
      eapply ends_bind; [apply write_body_piece_ends|].
      assert (length (concat (reads r')) < fuel)%nat as Hf' by lia.
      specialize (IH r' e' (put k (body_piece body)) Hok' Hf'). unfold stream_result in IH.
      rewrite Hps, Hfl in IH. destruct (encode_pieces e' ps) as [bodies o].
      cbn [fst snd fmap list_fmap concat] in *. by rewrite <- put_put.
    + cbn [fst snd fmap list_fmap concat map_err]. rewrite put_nil.
      apply ends_bind_err. apply (importing_ends (Err err)).
    + exfalso. unfold encode_piece, StreamEncoder_write in Eq. destruct e as [e|]; [|done].
      by destruct (encoder_write _ _) as [[? ?]|?].
Qed.
End Stream.

(** ** The whole body *)
Section Bodies.
Context `{Encoders}.

Lemma encode_plain pieces : encode_pieces None pieces = (pieces, Ok None).
Proof. induction pieces as [|p pieces IH]; [done|]. cbn. by rewrite IH. Qed.

Lemma encode_fits `{!EncoderLaws H} e pieces :
  pieces_fit (encode_pieces (Some e) pieces).1.
Proof.
  revert e. induction pieces as [|p pieces IH]; intros e; [constructor|].
  cbn [encode_pieces encode_piece]. unfold StreamEncoder_write.
  destruct (encoder_write (encoder_of e) p) as [[body s]|err] eqn:E; [|constructor].
  cbn. specialize (IH (with_encoder e s)).
  destruct (encode_pieces _ pieces) as [bodies o]. constructor; [|done].
  by eapply encoder_write_fits.
Qed.

Lemma chunk_pieces_fit n ps : (0 < n)%nat → Z.of_nat n ≤ imax USize →
  pieces_fit (concat (chunks n <$> ps)).
Proof.
  intros Hn Hl. unfold pieces_fit. induction ps as [|p ps IH]; [constructor|].
  cbn [fmap list_fmap concat]. apply Forall_app. split; [|done].
  eapply Forall_impl; [by apply (chunks_sizes n p)|]. cbn beta. lia.
Qed.

Lemma buffer_fits : Z.of_nat buffer ≤ imax USize.
Proof. unfold buffer. rewrite piece_max_eq. by vm_compute. Qed.

Lemma bodies_fit `{!EncoderLaws H} cmp r :
  pieces_fit (encode_pieces (StreamEncoder_new cmp) (pieces_read r)).1.
Proof.
  destruct cmp; [|apply encode_fits..]. cbn [StreamEncoder_new]. rewrite encode_plain.
  apply chunk_pieces_fit; [apply piece_max_pos|apply buffer_fits].
Qed.

Lemma end_fits `{!EncoderLaws H} e last :
  encode_end e = Ok last → Z.of_nat (length last) ≤ imax USize.
Proof.
  unfold encode_end, StreamEncoder_finish. destruct e as [e|]; [|by intros [= <-]].
  destruct (encoder_finish _) eqn:E; [|done]. intros [= <-]. by eapply encoder_finish_fits.
Qed.

Lemma encode_works e pieces :
  encoders_work → Forall (λ p, Z.of_nat (length p) ≤ DEFAULT_BUFFER_SIZE) pieces →
  ∃ bodies e', encode_pieces e pieces = (bodies, Ok e').
Proof.
  intros [Hwr _] Hps. revert e. induction Hps as [|p pieces Hp _ IH]; intros e; [by do 2 eexists|].
  cbn [encode_pieces]. destruct e as [e|]; cbn [encode_piece].
  - unfold StreamEncoder_write. destruct (Hwr (encoder_of e) p Hp) as [[body s] ->]. cbn.
    destruct (IH (Some (with_encoder e s))) as (bodies & e' & ->). by do 2 eexists.
  - destruct (IH None) as (bodies & e' & ->). by do 2 eexists.
Qed.
End Bodies.

Section ImportBodies.
Context `{Clock, Network, UnicodeCase, TunnelNetwork, CertLib, FingerprintLib}.
Context `{EncoderLaws, Consumer}.

(** What a reader of chunked bodies makes of [body]. *)
Definition reads_whole (body data : list byte) : Prop := ∀ k sink rest,
  room sink = None → inbound k = body ++ rest →
  ∃ sink', ends forward_chunked_body (k, sink) (Ok ()) (got k rest, sink') ∧
           concat (delivered sink') = concat (delivered sink) ++ data.

Definition refuses (body : list byte) : Prop := ∀ k sink,
  inbound k = body → ∃ e s, ends forward_chunked_body (k, sink) (Err (Failed e)) s.

(** What is sent for the reader's data, and how the stream ends. *)
Definition file_body (cmp : ImportQuery.Compression) (r : Reader)
    : list byte * outcome ImportError unit :=
  let '(bodies, o) := stream_result (StreamEncoder_new cmp) r in
  let begun := concat (body_piece <$> bodies) in
  match e ← o; encode_end e with
  | Ok last => (begun ++ body_piece last ++ encode_chunk [], Ok ())
  | Err err => (begun, Err err)
  | Panic => (begun, Panic)
  end.

(** The end of the stream: the pending bytes of the encoder and the last chunk. *)
Lemma stream_end_ends {X} c io (x : X) k (e : option StreamEncoder) :
  (∀ z, representable z = true) → pure_write →
  ends (_ ← match e with
            | Some e => pending ← importing (StreamEncoder_finish e); write_body_piece pending
            | None => mret ()
            end; transport ImportTransportError write_final_chunk)
    (on c io k, x) (map_err ImportFailed (_ ← encode_end e; Ok ()))
    (on c io (put k (match encode_end e with
                     | Ok last => body_piece last ++ encode_chunk []
                     | _ => []
                     end)), x).
Proof.
  intros Hr Hw. destruct e as [e|]; cbn [encode_end].
  - destruct (StreamEncoder_finish e) as [last|err|] eqn:Ef.
    + rewrite <- put_put. eapply ends_bind; [|by apply final_chunk_ends].
      eapply ends_bind; [apply (importing_ends (Ok last))|]. by apply write_body_piece_ends.
    + rewrite put_nil. apply ends_bind_err, ends_bind_err, (importing_ends (Err err)).
    + exfalso. revert Ef. unfold StreamEncoder_finish. by destruct (encoder_finish _).
  - eapply ends_bind; [apply ends_ret|]. cbn [body_piece app]. by apply final_chunk_ends.
Qed.

Lemma stream_file_ends {X} c io (x : X) r cmp path hs rest :
  (∀ z, representable z = true) → pure_write → serves c io → path_ok path →
  Forall header_ok hs → reader_ok r →
  inbound (socket_of io) = request_bytes Get path hs ++ rest →
  ends (stream_file_to_connection r cmp) (c, x) (map_err ImportFailed (file_body cmp r).2)
    (on c io (put (got (socket_of io) rest)
                (build_chunked_response_headers ++ (file_body cmp r).1)), x).
Proof.
  intros Hr Hw Hs Hp Hh Hrd Hi. unfold stream_file_to_connection, file_body.
  eapply ends_bind; [by eapply transport_ends, handle_import_ends|]. rewrite <- put_put.
  set (k1 := put (got _ _) _).
  pose proof (stream_pieces_ends c io x Hr Hw (S (length (concat (reads r)))) r
    (StreamEncoder_new cmp) k1 Hrd ltac:(lia)) as Hst.
  destruct (stream_result _ r) as [bodies [e|err|]]; cbn [fst snd mbind outcome_bind] in *.
  - eapply ends_bind; [exact Hst|].
    pose proof (stream_end_ends c io x (put k1 (concat (body_piece <$> bodies))) e Hr Hw) as He.
    rewrite put_put in He. destruct (encode_end e) as [last|err|]; cbn [fst snd];
      rewrite ?app_nil_r in He; exact He.
  - by apply ends_bind_err.
  - intros w Hc. destruct (Hst w Hc) as (w' & Ew & Hc'). exists w'. split; [|done].
    unfold mbind, action_bind. by rewrite Ew.
Qed.

Lemma file_body_whole cmp r :
  (file_body cmp r).2 = Ok () →
  fails r = None ∧ ∃ data, reads_whole (file_body cmp r).1 data ∧
                           decode cmp data = Some (concat (reads r)).
Proof.
  pose proof (bodies_fit cmp r) as Hfit. unfold file_body, stream_result.
  destruct (encode_pieces _ _) as [bodies [e|err|]] eqn:Ee; [|done..]. cbn [mbind outcome_bind].
  destruct (fails r); [done|]. cbn [mbind outcome_bind].
  destruct (encode_end e) as [last|err|] eqn:El; [|done..]. intros _. split; [done|].
  exists (concat (bodies ++ [last])). split.
  - intros k sink rest Hk Hi. apply import_body_read; [|done|].
    + apply Forall_app. split; [exact Hfit|]. constructor; [|constructor]. by eapply end_fits.
    + rewrite Hi. unfold import_body. rewrite fmap_app, concat_app. cbn [fmap list_fmap concat fst].
      by rewrite app_nil_r, <- !app_assoc.
  - rewrite concat_app. cbn [concat]. rewrite app_nil_r, <- concat_pieces_read.
    by eapply decode_run.
Qed.

Lemma file_body_cut cmp r err : (file_body cmp r).2 = Err err → refuses (file_body cmp r).1.
Proof.
  pose proof (bodies_fit cmp r) as Hfit. unfold file_body, stream_result.
  destruct (encode_pieces _ _) as [bodies oe]. cbn [fst] in Hfit.
  destruct (e ← (e ← oe; _); encode_end e) as [last|err'|]; [done| |done].
  intros _ k sink Hi. by eapply import_body_cut.
Qed.

Lemma file_body_works cmp r :
  fails r = None → encoders_work → (file_body cmp r).2 = Ok ().
Proof.
  intros Hf He. unfold file_body, stream_result.
  destruct (encode_works (StreamEncoder_new cmp) (pieces_read r) He (pieces_read_fit r))
    as (bodies & e & ->).
  rewrite Hf. cbn [mbind outcome_bind]. destruct e as [e|]; [|done]. cbn [encode_end].
  unfold StreamEncoder_finish. by destruct (proj2 He (encoder_of e)) as [last ->].
Qed.

Lemma file_body_no_panic cmp r : (file_body cmp r).2 ≠ Panic.
Proof.
  assert (∀ e ps, (encode_pieces e ps).2 ≠ Panic) as Hnp.
  { intros e ps. revert e. induction ps as [|p ps IH]; intros e; [done|]. cbn [encode_pieces].
    destruct e as [e|]; cbn [encode_piece].
    - unfold StreamEncoder_write. destruct (encoder_write _ _) as [[body s]|]; [|done]. cbn.
      specialize (IH (Some (with_encoder e s))). by destruct (encode_pieces _ ps).
    - specialize (IH None). by destruct (encode_pieces _ ps). }
  unfold file_body, stream_result. specialize (Hnp (StreamEncoder_new cmp) (pieces_read r)).
  destruct (encode_pieces _ _) as [bodies [e|err|]]; [|done..]. cbn [mbind outcome_bind].
  destruct (fails r); [done|]. cbn [mbind outcome_bind]. destruct e as [e|]; [|done].
  cbn [encode_end]. unfold StreamEncoder_finish. by destruct (encoder_finish _).
Qed.

(** C25: a file through the tunnel: when an IMPORT is streamed from a reader - in whatever
    pieces the reader gives, compressed or not - and the stream succeeds, the reader was
    at its end, and a reader of the chunked body finds bytes that decode to exactly its
    data; when it fails, on a read or in the encoder, the body has no end, so that such a
    reader refuses it and no part of the file passes for the whole. It fails only then. *)
Theorem import_body_complete {X} c io (x : X) r cmp path hs rest :
  (∀ z, representable z = true) → pure_write → serves c io → path_ok path →
  Forall header_ok hs → reader_ok r →
  inbound (socket_of io) = request_bytes Get path hs ++ rest →
  ∃ body o,
    ends (stream_file_to_connection r cmp) (c, x) o
      (on c io (put (got (socket_of io) rest) (build_chunked_response_headers ++ body)), x) ∧
    ((o = Ok () ∧ fails r = None ∧
      ∃ data, reads_whole body data ∧ decode cmp data = Some (concat (reads r))) ∨
     (∃ err, o = Err (ImportFailed err) ∧ refuses body)) ∧
    (fails r = None → encoders_work → o = Ok ()).
Proof.
  intros Hr Hw Hs Hp Hh Hrd Hi. exists (file_body cmp r).1, (map_err ImportFailed (file_body cmp r).2).
  split; [by eapply stream_file_ends|]. split.
  - destruct (file_body cmp r).2 as [[]|err|] eqn:Eo.
    + left. split; [done|]. by apply file_body_whole.
    + right. exists err. split; [done|]. by eapply file_body_cut.
    + by apply file_body_no_panic in Eo.
  - intros Hf He. by rewrite file_body_works.
Qed.
End ImportBodies.

(** ** The compression that the statement announces *)
Section Announced.
Context `{UnicodeCase}.

Lemma build_query_compression o table addr pk :
  ImportQuery.compression (build_query o table addr pk) = compression o.
Proof.
  unfold build_query, with_csv_options, if_some.
  by destruct (null_value o), (reject_limit o), (schema o), (columns o), pk.
Qed.

Lemma build_multi_compression table o entries :
  ImportQuery.compression (build_multi_file_query table o entries) = compression o.
Proof.
  unfold build_multi_file_query, with_csv_options, if_some.
  by destruct (null_value o), (reject_limit o), (schema o), (columns o).
Qed.

(** The compression a CSV import announces for its files: for one file without an
    explicit choice the statement names the compression of the file's extension, and the
    bytes go out as they are exactly when there is one. For several files the extensions
    decide only what is sent: gzip bytes go out as they are while the statement names
    plain CSV files; and an explicit choice is announced even for a file whose extension
    says another, which is sent as it is. *)
Theorem compression_announced :
  (∀ path o table addr pk, compression o = ImportQuery.Uncompressed →
    let '(o', as_is) := import_file_plan path o in
    ImportQuery.compression (build_query o' table addr pk)
      = detect_compression path ImportQuery.Uncompressed ∧
    (as_is = true ↔ detect_compression path ImportQuery.Uncompressed ≠ ImportQuery.Uncompressed)) ∧
  (∀ paths o table entries path, path ∈ paths →
    compression o = ImportQuery.Uncompressed →
    (path, ImportQuery.Uncompressed) ∈ import_files_plan paths o ∧
    ImportQuery.compression (build_multi_file_query table o entries) = ImportQuery.Uncompressed) ∧
  detect_compression "part1.csv.gz" ImportQuery.Uncompressed = ImportQuery.Gzip ∧
  (∀ table addr pk,
    let '(o', as_is) := import_file_plan "a.csv.bz2"
                          (with_compression CsvImportOptions_default ImportQuery.Gzip) in
    as_is = true ∧ ImportQuery.compression (build_query o' table addr pk) = ImportQuery.Gzip).
Proof.
  split_and!.
  - intros path o table addr pk Ho. unfold import_file_plan.
    rewrite build_query_compression. split; [cbn; by rewrite Ho|].
    unfold is_compressed_file. by rewrite bool_decide_eq_true.
  - intros paths o table entries path Hin Ho. rewrite build_multi_compression. split; [|done].
    unfold import_files_plan. rewrite Ho. apply list_elem_of_fmap. exists path. split; [|done].
    by destruct (is_compressed_file path).
  - reflexivity.
  - intros table addr pk. unfold import_file_plan. rewrite build_query_compression. by split.
Qed.
End Announced.
