(* ===== verification/ParallelImport.v ===== *)
(** * Imports of several files

    [import/parallel.rs]: the pool of tunnel connections, the streaming tasks and how their
    ends become the result of the import; and [import_from_files] of [import/csv.rs], which
    pairs them with the IMPORT statement. A task is what its action does in a world of its
    own; the tasks, their joins and the statement interleave as events of a state machine.
    The theorems: an import settles by the documented rules in every interleaving, it always
    can, and one that succeeds has sent every file whole. *)
From S2P Require Import Prelude MachineInt RustStr StrText Errors HttpWire Effect Json.
From S2P Require Import Messages Lifecycle Tls HttpTunnel HttpClient HttpRuns HttpBodies.
From S2P Require Import Csv CsvImport CsvStream.
From S2P Require ImportQuery.
From stdpp Require Import relations.

#[local] Open Scope Z_scope.

(* code: import/parallel.rs 17-18 CHUNK_SIZE *)
Definition CHUNK_SIZE : Z := 64 * 1024.

(** ** Tasks *)
(** How a spawned task ends: its future returned, or it panicked or was cancelled, which
    the text of the [JoinError] says. *)
Inductive task_end (A : Type) :=
| Returned (o : A + ImportError)
| JoinFailed (is_cancelled : bool) (text : string).
Arguments Returned {A} o.
Arguments JoinFailed {A} is_cancelled text.

#[global] Instance task_end_eq_dec A `{EqDecision A} : EqDecision (task_end A).
Proof. solve_decision. Defined.

(** The [Display] of the [JoinError] of a task, by its index and whether it was cancelled. *)
Class JoinErrors := join_error : nat → bool → string.

Definition task_end_of `{JoinErrors} {A} (idx : nat) (o : outcome import_stop A) : task_end A :=
  match o with
  | Ok a => Returned (inl a)
  | Err (ImportFailed e) => Returned (inr e)
  | Err ImportCancelled => JoinFailed true (join_error idx true)
  | Panic => JoinFailed false (join_error idx false)
  end.

(* code: import/parallel.rs 20-34 resolve_stream_task *)
Definition resolve_stream_task (joined : task_end unit) : unit + ImportError :=
  match joined with
  | Returned (inl _) => inl ()
  | Returned (inr e) => inr e
  | JoinFailed _ e => inr (StreamError ("Stream task panicked: " +:+ e))
  end.

(** [tunnel] is the end of the tunnel task, after a failed statement that of the aborted
    task. *)
(* code: import/parallel.rs 36-57 finish_import *)
Definition finish_import (statement : Z + string) (tunnel : task_end unit) : Z + ImportError :=
  match statement with
  | inl row_count =>
    match resolve_stream_task tunnel with inl _ => inl row_count | inr e => inr e end
  | inr statement_error =>
    let tunnel_error :=
      match tunnel with
      | JoinFailed true _ => None
      | joined => match resolve_stream_task joined with inl _ => None | inr e => Some e end
      end in
    inr (default (SqlError statement_error) tunnel_error)
  end.

(** ** The pool *)
(* code: import/parallel.rs 59-82 ImportFileEntry *)
Record ImportFileEntry := {
  address : string;
  file_name : string;
  public_key : option string;
}.

(* code: import/parallel.rs 84-93 ParallelTransportPool *)
Record ParallelTransportPool := {
  connections : list HttpTransportClient;
  entries : list ImportFileEntry;
}.

(* code: import/parallel.rs 197-213 ParallelTransportPool::query_file_entries *)
Definition query_file_entries (pool : ParallelTransportPool) : list ImportQuery.ImportFileEntry :=
  (λ e, {| ImportQuery.fe_address := address e; ImportQuery.fe_file_name := file_name e;
           ImportQuery.fe_public_key := public_key e |}) <$> entries pool.

(* code: import/parallel.rs 167-172 ParallelTransportPool::connect *)
Definition pool_file_name (idx : nat) : string := show_padded 3 (Z.of_nat idx + 1) +:+ ".csv".

(* code: import/parallel.rs 166-173 ParallelTransportPool::connect *)
Definition pool_entry (idx : nat) (client : HttpTransportClient) : ImportFileEntry := {|
  address := internal_address client;
  file_name := pool_file_name idx;
  public_key := public_key_fingerprint client;
|}.

(* code: import/parallel.rs 153-164 ParallelTransportPool::connect *)
Definition join_connection (idx : nat) (joined : task_end HttpTransportClient)
    : outcome ImportError HttpTransportClient :=
  match joined with
  | JoinFailed _ e =>
    Err (ParallelImportError ("Connection task " +:+ show_count idx +:+ " panicked: " +:+ e))
  | Returned (inr e) =>
    Err (ParallelImportError ("Connection " +:+ show_count idx +:+ " failed: "
                              +:+ show_import_error e))
  | Returned (inl client) => Ok client
  end.

(** The handles are awaited in the order in which the tasks were spawned. *)
(* code: import/parallel.rs 148-185 ParallelTransportPool::connect *)
Fixpoint collect_connections (idx : nat) (handles : list (task_end HttpTransportClient))
    : outcome ImportError ParallelTransportPool :=
  match handles with
  | [] => Ok {| connections := []; entries := [] |}
  | handle :: handles =>
    client ← join_connection idx handle;
    pool ← collect_connections (S idx) handles;
    Ok {| connections := client :: connections pool;
          entries := pool_entry idx client :: entries pool |}
  end.

Section Parallel.
Context `{Clock, Network, UnicodeCase, TunnelNetwork, CertLib, FingerprintLib, Encoders}.
Context `{FileIo, JoinErrors}.

(* code: import/parallel.rs 137-143 ParallelTransportPool::connect *)
Definition connect_task {T} (host : string) (port : Z) (use_tls : bool)
    : action import_stop (World * T) HttpTransportClient :=
  transport (λ e, HttpTransportError ("Failed to connect to Exasol: " +:+ show_transport_error e))
    (connect host port use_tls).

(** The task of index [i] runs in the world [worlds i]. *)
(* code: import/parallel.rs 121-186 ParallelTransportPool::connect *)
Definition pool_connect (worlds : nat → World) (host : string) (port : Z) (use_tls : bool)
    (file_count : nat) : outcome ImportError ParallelTransportPool :=
  match file_count with
  | O => Err (InvalidConfig "file_count must be at least 1")
  | _ => collect_connections 0
           ((λ i, task_end_of i (connect_task host port use_tls (worlds i, ())).1)
              <$> seq 0 file_count)
  end.

(** ** The streams of one connection *)
Section Streams.
Context {X : Type}.
Abbreviation iio := (action import_stop (World * (HttpTransportClient * X))).

Definition file_failed (idx : nat) (what : string) (e : TransportError) : ImportError :=
  ParallelImportError ("File " +:+ show_count idx +:+ " " +:+ what +:+ show_transport_error e).

(* code: import/parallel.rs 271-276 stream_files_parallel *)
Fixpoint stream_chunks (idx : nat) (pieces : list (list byte)) : iio unit :=
  match pieces with
  | [] => mret ()
  | chunk :: pieces =>
    _ ← transport (file_failed idx "streaming failed: ") (write_chunked_body chunk);
    stream_chunks idx pieces
  end.

(* code: import/parallel.rs 255-290 stream_files_parallel *)
Definition stream_data (item : nat * list byte) : iio unit :=
  let '(idx, data) := item in
  _ ← transport (file_failed idx "failed to handle import request: ") handle_import_request;
  _ ← stream_chunks idx (chunks (Z.to_nat CHUNK_SIZE) data);
  transport (file_failed idx "failed to send final chunk: ") write_final_chunk.

(* code: import/csv.rs 1024-1030 OpenedCsvFile *)
Record OpenedCsvFile := {
  csv_path : string;
  csv_reader : Reader;
  csv_compression : ImportQuery.Compression;
}.

(** The error of a task with the file in front. *)
Definition name_file (file : string) (e : import_stop) : import_stop :=
  match e with
  | ImportFailed e => ImportFailed (ParallelImportError (file +:+ ": " +:+ show_import_error e))
  | ImportCancelled => ImportCancelled
  end.

(* code: import/csv.rs 1032-1043 stream_named_file *)
Definition stream_named_file (file : OpenedCsvFile) : iio unit :=
  map_error (name_file (csv_path file))
    (stream_file_to_connection (csv_reader file) (csv_compression file)).
End Streams.

(** A file that opened, or the error of opening it. *)
(* code: import/parallel.rs 402-425 stream_parquet_files_parallel *)
Definition stream_parquet_file (item : nat * (string * (FileSource + string)))
    : action import_stop (World * (HttpTransportClient * SeekableFile)) unit :=
  let '(idx, (path, opened)) := item in
  let failed what e :=
    ParallelImportError ("File " +:+ show_count idx +:+ ": " +:+ what path +:+ e) in
  file ← importing match opened with
                   | inl file => Ok file
                   | inr e => Err (failed (λ p, "failed to open '" +:+ p +:+ "': ") e)
                   end;
  transport (λ e, failed (λ p, "serving '" +:+ p +:+ "' failed: ") (show_transport_error e))
    (handle_parquet_import_requests file).

(** ** The tasks of a group *)
(** What each task does if it is left alone: item [i] goes through connection [i]. *)
(* code: import/parallel.rs 292-321 stream_in_parallel *)
Definition stream_in_parallel {X I} (worlds : nat → World) (x : X)
    (clients : list HttpTransportClient) (items : list I)
    (stream_one : I → action import_stop (World * (HttpTransportClient * X)) unit)
    : list (task_end unit) + ImportError :=
  if decide (length clients = length items) then
    inl (imap (λ i '(client, item), task_end_of i (stream_one item (worlds i, (client, x))).1)
           (zip clients items))
  else
    inr (InvalidConfig ("Connection count (" +:+ show_count (length clients)
                        +:+ ") != file count (" +:+ show_count (length items) +:+ ")")).

(* code: import/parallel.rs 255-262 stream_files_parallel *)
Definition stream_files_parallel (worlds : nat → World) (clients : list HttpTransportClient)
    (file_data : list (list byte)) : list (task_end unit) + ImportError :=
  stream_in_parallel worlds () clients (imap pair file_data) stream_data.

(* code: import/parallel.rs 396-402 stream_parquet_files_parallel *)
Definition stream_parquet_files_parallel (worlds : nat → World) (x : SeekableFile)
    (clients : list HttpTransportClient) (files : list (string * (FileSource + string)))
    : list (task_end unit) + ImportError :=
  stream_in_parallel worlds x clients (imap pair files) stream_parquet_file.

(** ** CSV files *)
(** A path, or several, as the files of an import. *)
(* code: import/source.rs 32-35 IntoFileSources *)
Class IntoFileSources (S : Type) := into_sources : S → list string.
(* code: import/source.rs 37-53 IntoFileSources *)
#[global] Instance path_sources : IntoFileSources string := λ path, [path].
(* code: import/source.rs 55-77 IntoFileSources *)
#[global] Instance paths_sources : IntoFileSources (list string) := λ paths, paths.

(** Every file is opened before anything is sent. *)
(* code: import/csv.rs 526-542 import_from_files *)
Fixpoint open_csv_files (open : string → Reader + string)
    (plan : list (string * ImportQuery.Compression)) : outcome ImportError (list OpenedCsvFile) :=
  match plan with
  | [] => Ok []
  | (path, compression) :: plan =>
    file ← match open path with
           | inl reader =>
             Ok {| csv_path := path; csv_reader := reader; csv_compression := compression |}
           | inr e => Err (ImportIoError ("failed to open " +:+ path +:+ ": " +:+ e))
           end;
    files ← open_csv_files open plan;
    Ok (file :: files)
  end.

(** One file is imported by itself; several with a statement, their connections and their
    files. *)
Inductive import_plan :=
| SingleFile (path : string)
| ManyFiles (sql : string) (clients : list HttpTransportClient) (files : list OpenedCsvFile).

(* code: import/csv.rs 503-558 import_from_files *)
Definition import_from_files (open : string → Reader + string) (worlds : nat → World)
    (table : string) (paths : list string) (o : CsvImportOptions)
    : outcome ImportError import_plan :=
  match into_sources paths with
  | [path] => Ok (SingleFile path)
  | [] => Err (InvalidConfig "No files provided for import")
  | _ =>
    files ← open_csv_files open (import_files_plan paths o);
    pool ← pool_connect worlds (host o) (port o) (use_tls o) (length paths);
    Ok (ManyFiles (ImportQuery.build (build_multi_file_query table o (query_file_entries pool)))
          (connections pool) files)
  end.
End Parallel.

(** ** Joining the tasks *)
(** A join task only awaits its handle: it neither panics nor is it aborted before the
    joins are over. *)
(* code: import/parallel.rs 340-352 join_stream_handles *)
Definition join_outcome (idx : nat) (outcome : task_end unit) : unit + ImportError :=
  match outcome with
  | JoinFailed _ e =>
    inr (ParallelImportError ("Stream task " +:+ show_count idx +:+ " panicked: " +:+ e))
  | Returned (inl _) => inl ()
  | Returned (inr (ImportConversionError m)) => inr (ImportConversionError m)
  | Returned (inr e) =>
    inr (ParallelImportError ("Stream " +:+ show_count idx +:+ " failed: "
                              +:+ show_import_error e))
  end.

Inductive task_state := Running | Aborting | Ended (e : task_end unit).

#[global] Instance task_state_eq_dec : EqDecision task_state.
Proof. solve_decision. Defined.

(* code: import/parallel.rs 362-368 AbortOnDrop::drop *)
Definition abort_all (tasks : list task_state) : list task_state :=
  (λ t, match t with Running => Aborting | t => t end) <$> tasks.

(** An import of several files: the streaming tasks, the joins that were not taken yet,
    the end of the tunnel task that joins them, the statement's result and the import's. *)
(* code: import/parallel.rs 323-360 join_stream_handles *)
Record ImportRun := {
  tasks : list task_state;
  joins : list nat;
  tunnel : option (task_end unit);
  statement : option (Z + string);
  result : option (Z + ImportError);
}.

Definition import_start (n : nat) : ImportRun := {|
  tasks := replicate n Running; joins := seq 0 n; tunnel := None; statement := None;
  result := None;
|}.

Definition set_tasks (ts : list task_state) (s : ImportRun) : ImportRun := {|
  tasks := ts; joins := joins s; tunnel := tunnel s; statement := statement s;
  result := result s |}.

(** The tunnel task ends: its guard aborts the tasks. *)
(* code: import/parallel.rs 331-335 join_stream_handles *)
Definition end_tunnel (e : task_end unit) (s : ImportRun) : ImportRun := {|
  tasks := abort_all (tasks s); joins := joins s; tunnel := Some e; statement := statement s;
  result := result s |}.

(** What can happen next: a task comes to its end or, aborted, is cancelled; the tunnel
    task takes the join of a task that ended, or finds that none is left; the statement
    returns, after which a failed one has the tunnel task aborted; the import returns. *)
Inductive import_event :=
| TaskEnds (i : nat)
| TaskCancelled (i : nat)
| JoinNext (i : nat)
| AllJoined
| TunnelCancelled
| StatementReturns (r : Z + string)
| ImportReturns.

Section Steps.
Context `{JoinErrors} (runs : list (task_end unit)).

(** A step of the import, unless the event cannot happen. *)
(* code: import/parallel.rs 323-360 join_stream_handles *)
Definition import_step (ev : import_event) (s : ImportRun) : option ImportRun :=
  match ev with
  | TaskEnds i =>
    t ← tasks s !! i; e ← runs !! i;
    match t with Ended _ => None | _ => Some (set_tasks (<[i := Ended e]> (tasks s)) s) end
  | TaskCancelled i =>
    t ← tasks s !! i;
    match t with
    | Aborting => Some (set_tasks (<[i := Ended (JoinFailed true (join_error i true))]> (tasks s)) s)
    | _ => None
    end
  | JoinNext i =>
    t ← tasks s !! i;
    match t, tunnel s with
    | Ended e, None =>
      if decide (i ∈ joins s) then
        match join_outcome i e with
        | inl _ => Some {| tasks := tasks s; joins := filter (λ j, j ≠ i) (joins s);
                           tunnel := None; statement := statement s; result := result s |}
        | inr err => Some (end_tunnel (Returned (inr err)) s)
        end
      else None
    | _, _ => None
    end
  | AllJoined =>
    match joins s, tunnel s with
    | [], None => Some (end_tunnel (Returned (inl ())) s)
    | _, _ => None
    end
  | TunnelCancelled =>
    match statement s, tunnel s with
    | Some (inr _), None =>
      Some (end_tunnel (JoinFailed true (join_error (length runs) true)) s)
    | _, _ => None
    end
  | StatementReturns r =>
    match statement s with
    | None => Some {| tasks := tasks s; joins := joins s; tunnel := tunnel s;
                      statement := Some r; result := result s |}
    | Some _ => None
    end
  | ImportReturns =>
    match statement s, tunnel s, result s with
    | Some r, Some e, None =>
      Some {| tasks := tasks s; joins := joins s; tunnel := tunnel s; statement := statement s;
              result := Some (finish_import r e) |}
    | _, _, _ => None
    end
  end.

Definition import_next (s s' : ImportRun) : Prop := ∃ ev, import_step ev s = Some s'.

(** The states of an import of [runs] tasks. *)
Definition reached (s : ImportRun) : Prop := rtc import_next (import_start (length runs)) s.

(** The state behind a sequence of events. *)
Fixpoint import_run (evs : list import_event) (s : ImportRun) : option ImportRun :=
  match evs with
  | [] => Some s
  | ev :: evs => s ← import_step ev s; import_run evs s
  end.

Lemma run_reached evs s : import_run evs (import_start (length runs)) = Some s → reached s.
Proof.
  unfold reached. generalize (import_start (length runs)). induction evs as [|ev evs IH]; intros s0.
  - by intros [= ->].
  - cbn [import_run]. intros (s1 & Hev & Hrun)%bind_Some. eapply rtc_l; [by exists ev|by apply IH].
Qed.

(** ** What a run keeps *)
Definition stream_failed (i : nat) (e : ImportError) : Prop :=
  ∃ r, runs !! i = Some r ∧ join_outcome i r = inr e.

Lemma join_ok i e u : join_outcome i e = inl u → e = Returned (inl ()).
Proof. by destruct e as [[[]|[]]|]. Qed.

Lemma abort_all_lookup ts i t :
  abort_all ts !! i = Some t →
  t ≠ Running ∧ ∃ t0, ts !! i = Some t0 ∧ (t0 = t ∨ t0 = Running ∧ t = Aborting).
Proof.
  unfold abort_all. rewrite list_lookup_fmap. destruct (ts !! i) as [t0|]; [|done]. cbn.
  intros [= <-]. split; [by destruct t0|]. exists t0. split; [done|]. destruct t0; auto.
Qed.

Lemma abort_all_ended ts i e : ts !! i = Some (Ended e) → abort_all ts !! i = Some (Ended e).
Proof. intros Ht. unfold abort_all. by rewrite list_lookup_fmap, Ht. Qed.

Record import_ok (s : ImportRun) : Prop := {
  ok_length : length (tasks s) = length runs;
  ok_ended i e : tasks s !! i = Some (Ended e) → tunnel s = None → runs !! i = Some e;
  ok_running i t : tasks s !! i = Some t → t = Running → tunnel s = None;
  ok_aborting i t : tasks s !! i = Some t → t = Aborting → tunnel s ≠ None;
  ok_joins i : i ∈ joins s → (i < length runs)%nat;
  ok_taken i : (i < length runs)%nat → i ∉ joins s → runs !! i = Some (Returned (inl ()));
  ok_tunnel :
    match tunnel s with
    | None => True
    | Some (Returned (inl _)) => joins s = []
    | Some (Returned (inr err)) => ∃ i, stream_failed i err
    | Some (JoinFailed c _) => c = true ∧ ∃ m, statement s = Some (inr m)
    end;
  ok_result o :
    result s = Some o → ∃ r e, statement s = Some r ∧ tunnel s = Some e ∧ o = finish_import r e;
}.

Lemma start_ok : import_ok (import_start (length runs)).
Proof.
  split; cbn; try done.
  - by rewrite length_replicate.
  - intros i e [? _]%lookup_replicate. done.
  - by intros i t [-> _]%lookup_replicate.
  - intros i [_ Hi]%elem_of_seq. done.
  - intros i Hi []. apply elem_of_seq. lia.
Qed.

(** The tunnel task ends in a state that is kept. *)
Lemma end_tunnel_ok e s :
  import_ok s → tunnel s = None → result s = None →
  match e with
  | Returned (inl _) => joins s = []
  | Returned (inr err) => ∃ i, stream_failed i err
  | JoinFailed c _ => c = true ∧ ∃ m, statement s = Some (inr m)
  end → import_ok (end_tunnel e s).
Proof.
  intros Hs Ht Hres He. split; cbn; try done.
  - unfold abort_all. rewrite length_fmap. apply Hs.
  - by intros i t [? _]%abort_all_lookup ->.
  - intros i Hi. by apply Hs.
  - intros i Hi. by apply Hs.
  - by rewrite Hres.
Qed.

Lemma result_ended s : import_ok s → tunnel s = None → result s = None.
Proof.
  intros Hs Ht. destruct (result s) as [o|] eqn:Hres; [|done].
  destruct (ok_result s Hs o Hres) as (r & e & _ & Ht' & _). congruence.
Qed.

Lemma set_task_ok i t e s :
  import_ok s → tasks s !! i = Some t → (tunnel s = None → runs !! i = Some e) →
  import_ok (set_tasks (<[i := Ended e]> (tasks s)) s).
Proof.
  intros Hs Ht He. split; cbn; try apply Hs.
  - rewrite length_insert. apply Hs.
  - intros j e' Hj Htn. destruct (decide (i = j)) as [<-|Hne].
    + rewrite list_lookup_insert_eq in Hj by by eapply lookup_lt_Some. simplify_eq. by apply He.
    + rewrite list_lookup_insert_ne in Hj by done. by eapply Hs.
  - intros j t' Hj ->. destruct (decide (i = j)) as [<-|Hne].
    + rewrite list_lookup_insert_eq in Hj by by eapply lookup_lt_Some. done.
    + rewrite list_lookup_insert_ne in Hj by done. by eapply ok_running.
  - intros j t' Hj ->. destruct (decide (i = j)) as [<-|Hne].
    + rewrite list_lookup_insert_eq in Hj by by eapply lookup_lt_Some. done.
    + rewrite list_lookup_insert_ne in Hj by done. by eapply ok_aborting.
Qed.

Lemma step_ok ev s s' : import_ok s → import_step ev s = Some s' → import_ok s'.
Proof.
  intros Hs. pose proof (result_ended s Hs) as Hnone. destruct ev; cbn [import_step].
  - intros (t & Ht & (e & He & Hev)%bind_Some)%bind_Some.
    destruct t; simplify_eq; by eapply set_task_ok.
  - intros (t & Ht & Hev)%bind_Some. destruct t; simplify_eq. eapply set_task_ok; [done..|].
    intros Htn. by destruct (ok_aborting s Hs i Aborting Ht eq_refl).
  - intros (t & Ht & Hev)%bind_Some. destruct t as [| |e]; try done.
    destruct (tunnel s) eqn:Htn; [done|]. case_decide as Hi; [|done].
    pose proof (ok_ended s Hs i e Ht Htn) as Hr.
    destruct (join_outcome i e) as [u|err] eqn:Ej; simplify_eq.
    + apply join_ok in Ej as ->. split; cbn; try apply Hs; try done.
      * intros. by eapply ok_ended.
      * intros j t Hj ->. by destruct (ok_aborting s Hs j Aborting Hj eq_refl).
      * intros j [_ Hj]%list_elem_of_filter. by apply Hs.
      * intros j Hlt Hj. destruct (decide (j = i)) as [->|Hne]; [done|].
        apply (ok_taken s Hs); [done|]. intros Hin. by apply Hj, list_elem_of_filter.
      * rewrite Hnone by done. done.
    + apply end_tunnel_ok; [done|done|by apply Hnone|]. by exists i, e.
  - destruct (joins s) eqn:Hj; [|done]. destruct (tunnel s) eqn:Htn; [done|]. intros [= <-].
    apply end_tunnel_ok; [done|done|by apply Hnone|done].
  - destruct (statement s) as [[|m]|] eqn:Hst; [done| |done]. destruct (tunnel s) eqn:Htn; [done|].
    intros [= <-]. apply end_tunnel_ok; [done|done|by apply Hnone|]. split; [done|by exists m].
  - destruct (statement s) eqn:Hst; [done|]. intros [= <-]. split; cbn; try apply Hs.
    + pose proof (ok_tunnel s Hs) as Ht. destruct (tunnel s) as [[[]|c text]|]; try done.
      destruct Ht as (_ & m & Hm). congruence.
    + intros o Ho. destruct (ok_result s Hs o Ho) as (r' & e & Hr' & _). congruence.
  - destruct (statement s) as [r|] eqn:Hst; [|done]. destruct (tunnel s) as [e|] eqn:Htn; [|done].
    destruct (result s) eqn:Hres; [done|]. intros [= <-].
    pose proof (ok_tunnel s Hs) as Ht. rewrite Htn in Ht.
    split; cbn; try apply Hs; try done.
    + intros j t Hj ->. by rewrite (ok_running s Hs j Running Hj eq_refl) in Htn.
    + by rewrite <- Hst.
    + intros o [= <-]. by exists r, e.
Qed.

Lemma reached_ok s : reached s → import_ok s.
Proof.
  unfold reached. intros Hr. pose proof start_ok as H0. revert H0.
  induction Hr as [|s1 s2 s3 [ev Hev] _ IH]; [done|]. intros H1. by eapply IH, step_ok.
Qed.

(** ** How an import settles *)
Definition all_streamed : Prop := ∀ i r, runs !! i = Some r → r = Returned (inl ()).

Lemma taken_all s : import_ok s → joins s = [] → all_streamed.
Proof.
  intros Hs Hj i r Hr. pose proof (lookup_lt_Some _ _ _ Hr) as Hlt.
  pose proof (ok_taken s Hs i Hlt ltac:(rewrite Hj; inversion 1)) as Hi. congruence.
Qed.

Lemma settled s o :
  import_ok s → result s = Some o →
  match o with
  | inl rows => statement s = Some (inl rows) ∧ all_streamed
  | inr e =>
    (∃ i, stream_failed i e) ∨
    ∃ m, statement s = Some (inr m) ∧ e = SqlError m ∧
      ∀ err, tunnel s ≠ Some (Returned (inr err))
  end.
Proof.
  intros Hs Ho. destruct (ok_result s Hs o Ho) as (r & e & Hst & Ht & ->).
  pose proof (ok_tunnel s Hs) as Htn. rewrite Ht in Htn.
  destruct r as [rows|m], e as [[[]|err]|c text]; cbn; try (by left).
  - split; [done|]. by eapply taken_all.
  - destruct Htn as (_ & m & Hm). congruence.
  - right. exists m. by rewrite Ht.
  - destruct Htn as [-> (m' & Hm)]. right. exists m. by rewrite Ht.
Qed.

(** C26: An import of several files settles by its rules, however its tasks, their joins and
    the statement interleave. When it has returned, no task is left running: each has ended
    or is aborted. It returned the row count exactly as its statement did and all streams
    had succeeded. Otherwise the error is that of a stream, which carries the stream's index
    or is its conversion error, or it is the statement's, and then no stream's failure had
    been reported before the tunnel was aborted. *)
Theorem import_settles s o :
  reached s → result s = Some o →
  (∀ i, tasks s !! i ≠ Some Running) ∧
  match o with
  | inl rows => statement s = Some (inl rows) ∧ all_streamed
  | inr e =>
    (∃ i, stream_failed i e) ∨
    ∃ m, statement s = Some (inr m) ∧ e = SqlError m ∧
      ∀ err, tunnel s ≠ Some (Returned (inr err))
  end.
Proof.
  intros Hs%reached_ok Ho. pose proof (settled s o Hs Ho) as Hset.
  destruct (ok_result s Hs o Ho) as (r & e & _ & Ht & _).
  split; [|exact Hset]. intros i Hi. by rewrite (ok_running s Hs i Running Hi eq_refl) in Ht.
Qed.

(** ** How an import ends *)
Definition task_weight (t : task_state) : nat :=
  match t with Running => 2 | Aborting => 1 | Ended _ => 0 end.

Definition weight (s : ImportRun) : nat :=
  (sum_list_with task_weight (tasks s) + length (joins s) + (if tunnel s then 0 else 1)
   + (if statement s then 0 else 1) + (if result s then 0 else 1))%nat.

Lemma ended_weight ts i t e :
  ts !! i = Some t → (0 < task_weight t)%nat →
  (sum_list_with task_weight (<[i := Ended e]> ts) < sum_list_with task_weight ts)%nat.
Proof.
  revert i. induction ts as [|u ts IH]; intros [|i]; simpl; try done.
  - intros [= ->] Hw. change (task_weight (Ended e)) with O. lia.
  - intros Ht Hw. specialize (IH i Ht Hw). lia.
Qed.

Lemma aborted_weight ts :
  (sum_list_with task_weight (abort_all ts) ≤ sum_list_with task_weight ts)%nat.
Proof. unfold abort_all. induction ts as [|[] ts IH]; cbn in *; lia. Qed.

Lemma filter_weight i (js : list nat) :
  i ∈ js → (length (filter (λ j, j ≠ i) js) < length js)%nat.
Proof.
  induction js as [|j js IH]; [by inversion 1|]. rewrite elem_of_cons. intros Hi.
  pose proof (length_filter (λ j, j ≠ i) js). destruct (decide (j = i)) as [->|Hne].
  - rewrite filter_cons_False by tauto. cbn. lia.
  - rewrite filter_cons_True by done. cbn. apply Nat.lt_succ_r. destruct Hi as [->|Hi]; [done|].
    specialize (IH Hi). lia.
Qed.

Ltac fields := cbn [tasks joins tunnel statement result set_tasks end_tunnel].

Lemma step_weight ev s s' : import_step ev s = Some s' → (weight s' < weight s)%nat.
Proof.
  unfold weight. destruct ev; cbn [import_step].
  - intros (t & Ht & (e & He & Hev)%bind_Some)%bind_Some.
    pose proof (ended_weight (tasks s) i t e Ht) as Hw.
    destruct t; simplify_eq; specialize (Hw (ltac:(cbn; lia))); fields; lia.
  - intros (t & Ht & Hev)%bind_Some.
    pose proof (ended_weight (tasks s) i t (JoinFailed true (join_error i true)) Ht) as Hw.
    destruct t; simplify_eq; specialize (Hw (ltac:(cbn; lia))); fields; lia.
  - intros (t & Ht & Hev)%bind_Some. destruct t as [| |e]; try done.
    destruct (tunnel s) eqn:Htn; [done|]. case_decide as Hi; [|done].
    destruct (join_outcome i e); simplify_eq; fields.
    + pose proof (filter_weight i (joins s) Hi). lia.
    + pose proof (aborted_weight (tasks s)). lia.
  - destruct (joins s) eqn:Hj; [|done]. destruct (tunnel s) eqn:Htn; [done|]. intros [= <-]. fields.
    rewrite Hj. pose proof (aborted_weight (tasks s)). lia.
  - destruct (statement s) as [[|m]|] eqn:Hst; [done| |done]. destruct (tunnel s) eqn:Htn; [done|].
    intros [= <-]. fields. rewrite Hst. pose proof (aborted_weight (tasks s)). lia.
  - destruct (statement s) eqn:Hst; [done|]. intros [= <-]. fields. lia.
  - destruct (statement s) as [r|] eqn:Hst; [|done]. destruct (tunnel s) as [e|] eqn:Htn; [|done].
    destruct (result s) eqn:Hres; [done|]. intros [= <-]. fields. lia.
Qed.

Lemma steps_weight k s s' : nsteps import_next k s s' → (k + weight s' ≤ weight s)%nat.
Proof. induction 1 as [|k s1 s2 s3 [ev Hev%step_weight] _ IH]; lia. Qed.

Lemma start_weight n : weight (import_start n) = (3 * n + 3)%nat.
Proof.
  unfold weight. cbn. rewrite length_seq.
  assert (sum_list_with task_weight (replicate n Running) = 2 * n)%nat as ->; [|lia].
  induction n as [|n IH]; [done|]. cbn in *. lia.
Qed.

(** An event of the driver alone: it waits neither for a stream nor for the statement. *)
Definition driver_event (ev : import_event) : Prop :=
  match ev with JoinNext _ | AllJoined | TunnelCancelled | ImportReturns => True | _ => False end.

(** What the driver has to wait for: the statement, and after its success the streams, or
    a first one that fails. *)
Definition may_return (s : ImportRun) : Prop :=
  (∃ m, statement s = Some (inr m)) ∨
  (∃ rows, statement s = Some (inl rows)) ∧
  ((∀ i t, tasks s !! i = Some t → ∃ e, t = Ended e) ∨
   ∃ i e err, tasks s !! i = Some (Ended e) ∧ join_outcome i e = inr err).

(** C27: An import of several files returns: every run of it is at most [3 n + 3] events long
    for [n] files, and as long as it has not returned, the driver itself can go on once its
    statement has failed, or has succeeded and every stream has ended or any one has failed.
    So a stream that waits forever behind another that failed, or behind a rejected
    statement, does not hold the import up. *)
Theorem import_returns s :
  reached s →
  (∀ k s', nsteps import_next k (import_start (length runs)) s' → k ≤ 3 * length runs + 3)%nat ∧
  (result s = None → may_return s → ∃ ev s', driver_event ev ∧ import_step ev s = Some s').
Proof.
  intros Hs%reached_ok. split.
  { intros k s' Hk%steps_weight. rewrite start_weight in Hk. lia. }
  intros Hres Hmay. destruct (tunnel s) as [e|] eqn:Ht.
  { exists ImportReturns. cbn [import_step]. rewrite Ht, Hres.
    destruct Hmay as [[m ->]|[[rows ->] _]]; by eexists. }
  assert (∀ i e, tasks s !! i = Some (Ended e) → i ∈ joins s →
    ∃ ev s', driver_event ev ∧ import_step ev s = Some s') as Hjoin.
  { intros i e Hi Hin. exists (JoinNext i). cbn [import_step]. rewrite Hi, Ht. cbn.
    rewrite decide_True by done. destruct (join_outcome i e); by eexists. }
  destruct Hmay as [[m Hm]|[_ [Hall|(i & e & err & Hi & He)]]].
  - exists TunnelCancelled. cbn [import_step]. rewrite Hm, Ht. by eexists.
  - destruct (joins s) as [|i js] eqn:Hj.
    + exists AllJoined. cbn [import_step]. rewrite Hj, Ht. by eexists.
    + assert (i < length (tasks s))%nat as [t Hi]%lookup_lt_is_Some_2.
      { rewrite (ok_length s Hs). apply (ok_joins s Hs). rewrite Hj. by left. }
      destruct (Hall i t Hi) as [e ->]. rewrite <- Hj in *. apply (Hjoin i e Hi). rewrite Hj. by left.
  - apply (Hjoin i e Hi). destruct (decide (i ∈ joins s)) as [|Hn]; [done|].
    pose proof (ok_ended s Hs i e Hi Ht) as Hr. pose proof (lookup_lt_Some _ _ _ Hr) as Hlt.
    pose proof (ok_taken s Hs i Hlt Hn) as Hok. rewrite Hok in Hr. by injection Hr as <-.
Qed.
End Steps.

(** ** The statement and its connections *)
Lemma collect_connections_ok idx handles pool :
  collect_connections idx handles = Ok pool →
  handles = (λ c, Returned (inl c)) <$> connections pool ∧
  entries pool = imap (λ i c, pool_entry (idx + i) c) (connections pool).
Proof.
  revert idx pool. induction handles as [|h hs IH]; intros idx pool; cbn [collect_connections].
  { by intros [= <-]. }
  destruct h as [[c|e]|b t]; cbn [join_connection mbind outcome_bind]; try done.
  destruct (collect_connections (S idx) hs) as [p|e|] eqn:Hp; try done.
  intros [= <-]. destruct (IH _ _ Hp) as [-> He]. cbn. split; [done|].
  rewrite Nat.add_0_r, He. f_equal. apply imap_ext. intros i c' _. cbn. by rewrite Nat.add_succ_r.
Qed.

Lemma pool_file_name_inj i j : pool_file_name i = pool_file_name j → i = j.
Proof.
  unfold pool_file_name. intros H.
  assert (∀ s s' t : string, s +:+ t = s' +:+ t → s = s') as Hcancel.
  { intros s s' t Ht. apply (f_equal as_bytes) in Ht. rewrite !as_bytes_app in Ht.
    apply app_inv_tail in Ht. apply (f_equal str_of_bytes) in Ht. by rewrite !str_of_as_bytes in Ht. }
  apply Hcancel in H. apply (f_equal (parse_digits 0)) in H.
  destruct (show_padded_spec 3 (Z.of_nat i + 1)) as [Hi _]; [lia|].
  destruct (show_padded_spec 3 (Z.of_nat j + 1)) as [Hj _]; [lia|].
  rewrite Hi, Hj in H. injection H. lia.
Qed.

Lemma map_error_ends {E E' T A} (f : E → E') (m : action E (World * T) A) s o s' :
  ends m s o s' → ends (map_error f m) s (map_err f o) s'.
Proof.
  intros Hm w Hw. destruct (Hm w Hw) as (w' & Hrun & ?). unfold map_error.
  rewrite Hrun. by eexists.
Qed.

Section Files.
Context `{Clock, Network, UnicodeCase, TunnelNetwork, CertLib, FingerprintLib}.
Context `{EncoderLaws, JoinErrors, Consumer}.

Lemma open_csv_files_ok open plan files :
  open_csv_files open plan = Ok files →
  plan = (λ f, (csv_path f, csv_compression f)) <$> files ∧
  Forall (λ f, open (csv_path f) = inl (csv_reader f)) files.
Proof.
  revert files. induction plan as [|[p c] plan IH]; intros files; cbn [open_csv_files].
  { by intros [= <-]. }
  destruct (open p) as [r|e] eqn:Ho; [|done]. cbn [mbind outcome_bind].
  destruct (open_csv_files open plan) as [fs|e|] eqn:Hfs; [|done..]. intros [= <-].
  destruct (IH fs eq_refl) as [-> Hall]. split; [done|]. by constructor.
Qed.

Lemma task_returned {A} i (o : outcome import_stop A) a :
  task_end_of i o = Returned (inl a) → o = Ok a.
Proof. by destruct o as [|[]|]; cbn; intros [= ->]. Qed.

Lemma pool_connected worlds host port use_tls n pool :
  pool_connect worlds host port use_tls n = Ok pool →
  length (connections pool) = n ∧
  (∀ i c, connections pool !! i = Some c →
    (connect_task host port use_tls (worlds i, ())).1 = Ok c) ∧
  entries pool = imap pool_entry (connections pool).
Proof.
  unfold pool_connect. destruct n as [|n]; [done|].
  intros [Hcs Hes]%collect_connections_ok. split_and!; [| |exact Hes].
  - apply (f_equal length) in Hcs. by rewrite !length_fmap, length_seq in Hcs.
  - intros i c Hc. apply (f_equal (.!! i)) in Hcs. rewrite !list_lookup_fmap, Hc in Hcs.
    destruct (seq 0 (S n) !! i) as [j|] eqn:Hj; [|done].
    apply lookup_seq in Hj as [-> _]. cbn in Hcs. injection Hcs as Hcs. by eapply task_returned.
Qed.

(** The statement of an import of several files names, in order and under distinct names,
    the connection each file goes through: all files opened before any connection, with
    the compression their names ask for, and the i-th file name stands for the address and
    key of the connection the i-th task made. *)
Theorem files_announced open worlds table paths o sql clients files :
  import_from_files open worlds table paths o = Ok (ManyFiles sql clients files) →
  csv_path <$> files = paths ∧
  (λ f, (csv_path f, csv_compression f)) <$> files = import_files_plan paths o ∧
  Forall (λ f, open (csv_path f) = inl (csv_reader f)) files ∧
  length clients = length files ∧
  (∀ i c, clients !! i = Some c →
    (connect_task (host o) (port o) (use_tls o) (worlds i, ())).1 = Ok c) ∧
  ∃ named, sql = ImportQuery.build (build_multi_file_query table o named) ∧
    named = imap (λ i c, {| ImportQuery.fe_address := internal_address c;
                            ImportQuery.fe_file_name := pool_file_name i;
                            ImportQuery.fe_public_key := public_key_fingerprint c |}) clients ∧
    NoDup (ImportQuery.fe_file_name <$> named).
Proof.
  destruct paths as [|p1 [|p2 ps]] eqn:Hps; [done..|]. unfold import_from_files, into_sources, paths_sources.
  rewrite <- !Hps.
  destruct (open_csv_files _ _) as [fs|e|] eqn:Hfs; [|done..]. cbn [mbind outcome_bind].
  destruct (pool_connect _ _ _ _ _) as [pool|e|] eqn:Hpool; [|done..]. intros [= <- <- ->].
  destruct (open_csv_files_ok _ _ _ Hfs) as [Hplan Hopen].
  destruct (pool_connected _ _ _ _ _ _ Hpool) as (Hlen & Hcs & Hes).
  assert (csv_path <$> files = paths) as Hpaths.
  { apply (f_equal (fmap fst)) in Hplan. unfold import_files_plan in Hplan.
    rewrite <- !list_fmap_compose in Hplan. rewrite <- (list_fmap_id paths).
    symmetry. exact Hplan. }
  split_and!; [done..| |done|].
  - by rewrite Hlen, <- Hpaths, length_fmap.
  - eexists. split; [done|]. unfold query_file_entries. rewrite Hes, fmap_imap. split; [done|].
    rewrite fmap_imap. apply NoDup_alt. intros i j x. rewrite !list_lookup_imap.
    destruct (connections pool !! i), (connections pool !! j); cbn; try done.
    intros [= Hi] [= Hj]. apply pool_file_name_inj. by rewrite Hi.
Qed.

(** ** The files of an import *)
(** Exasol's request stands on the connection. *)
Definition requested (c : HttpTransportClient) (io : TunnelIo) (rest : list byte) : Prop :=
  serves c io ∧ ∃ path hs, path_ok path ∧ Forall header_ok hs ∧
    inbound (socket_of io) = request_bytes Get path hs ++ rest.

(** What the tasks of the files do, in their worlds. *)
Definition csv_tasks (worlds : nat → World) (clients : list HttpTransportClient)
    (files : list OpenedCsvFile) : list (task_end unit) + ImportError :=
  stream_in_parallel worlds () clients files stream_named_file.

(** C28: An import of several CSV files that returns a row count has sent every file whole:
    with connections on which Exasol's requests stand, in every interleaving of the tasks,
    their joins and the statement that ends in a result, the i-th connection carries the
    response headers and a body that a reader takes as complete, and that decodes to all
    the bytes of the i-th file; and no file failed to be read. *)
Theorem files_sent_whole worlds clients files ios rests runs s rows :
  (∀ z, representable z = true) → pure_write → (∀ i, cutoff (worlds i) = None) →
  csv_tasks worlds clients files = inl runs →
  (∀ i c f, clients !! i = Some c → files !! i = Some f →
    requested c (ios i) (rests i) ∧ reader_ok (csv_reader f)) →
  reached runs s → result s = Some (inl rows) →
  statement s = Some (inl rows) ∧ length clients = length files ∧
  ∀ i c f, clients !! i = Some c → files !! i = Some f →
    fails (csv_reader f) = None ∧
    ∃ w' body data,
      stream_named_file f (worlds i, (c, ())) =
        (Ok (), (w', (on c (ios i) (put (got (socket_of (ios i)) (rests i))
                                     (build_chunked_response_headers ++ body)), ()))) ∧
      reads_whole body data ∧ decode (csv_compression f) data = Some (concat (reads (csv_reader f))).
Proof.
  intros Hr Hw Hcut Hruns Hreq Hs%reached_ok Ho.
  destruct (settled _ _ _ Hs Ho) as [Hst Hall]. split; [done|].
  unfold csv_tasks, stream_in_parallel in Hruns. case_decide as Hlen; [|done].
  injection Hruns as <-. split; [done|]. intros i c f Hc Hf.
  destruct (Hreq i c f Hc Hf) as [(Hserve & path & hs & Hp & Hh & Hin) Hread].
  pose proof (stream_file_ends c (ios i) () (csv_reader f) (csv_compression f) path hs (rests i)
    Hr Hw Hserve Hp Hh Hread Hin) as Hends.
  apply (map_error_ends (name_file (csv_path f))) in Hends.
  destruct (Hends (worlds i) (Hcut i)) as (w' & Hrun & _).
  change (map_error _ _ (worlds i, (c, ()))) with (stream_named_file f (worlds i, (c, ()))) in Hrun.
  assert (task_end_of i (stream_named_file f (worlds i, (c, ()))).1 = Returned (inl ())) as Hok.
  { apply (Hall i). rewrite list_lookup_imap, lookup_zip_with, Hc, Hf. done. }
  apply task_returned in Hok. rewrite Hrun in Hok. cbn [fst] in Hok.
  assert ((file_body (csv_compression f) (csv_reader f)).2 = Ok ()) as Hbody
    by (destruct (file_body _ _).2 as [[]|e|]; [done|by cbn in Hok..]).
  destruct (file_body_whole _ _ Hbody) as (Hfails & data & Hdata & Hdec). split; [done|].
  exists w', (file_body (csv_compression f) (csv_reader f)).1, data. split_and!; [|done..].
  rewrite Hrun, Hbody. done.
Qed.
End Files.
