(* ===== verification/CsvExport.v ===== *)
(** * CSV export

    [export/csv.rs]: the options of a CSV export and the statement they give, the decoding
    of the body for its writer, and the end of an export as a state machine over the
    statement, the consumer and the tunnel, which all run at once. *)
From S2P Require Import Prelude MachineInt RustStr StrText Errors HttpWire.
From S2P Require ExportQuery Csv.

#[local] Open Scope Z_scope.

(* code: export/csv.rs 35-37 DEFAULT_PIPE_BUFFER_SIZE *)
Definition DEFAULT_PIPE_BUFFER_SIZE : nat := 16.

(* code: export/csv.rs 39-95 ExportError *)
Inductive ExportError :=
| ExportIoError (message : string)
| ExportTransportError (error : TransportError)
| ExportHttpTransportError (message : string)
| SqlExecutionError (message : string)
| CsvParseError (row : nat) (message : string)
| DecompressionError (message : string)
| ExportChannelError (message : string)
| ExportTimeout (timeout_ms : Z) (transport_terminated : bool)
| ExportCancelled.

(** [Display] of the error. *)
(* code: export/csv.rs 39-95 ExportError *)
Definition show_export_error (e : ExportError) : string :=
  match e with
  | ExportIoError m => "I/O error: " +:+ m
  | ExportTransportError e => "Transport error: " +:+ show_transport_error e
  | ExportHttpTransportError m => "HTTP transport error: " +:+ m
  | SqlExecutionError m => "SQL execution error: " +:+ m
  | CsvParseError row m => "CSV parsing error at row " +:+ show_count row +:+ ": " +:+ m
  | DecompressionError m => "Decompression error: " +:+ m
  | ExportChannelError m => "Channel error: " +:+ m
  | ExportTimeout ms terminated =>
    "Export timed out after " +:+ show_int ms +:+ "ms; " +:+
    (if terminated
     then "the transport was terminated, reconnect before the next operation"
     else "the transport is still usable")
  | ExportCancelled => "Export was cancelled"
  end.

(** ** Options *)
(* code: export/csv.rs 97-145 CsvExportOptions *)
Record CsvExportOptions := {
  column_separator : string;
  column_delimiter : string;
  row_separator : ExportQuery.RowSeparator;
  encoding : string;
  null_value : option string;
  compression : ExportQuery.Compression;
  with_column_names : bool;
  use_tls : bool;
  timeout_ms : option Z;
  host : string;
  port : Z;
}.

(* code: export/csv.rs 147-170 CsvExportOptions::default *)
Definition CsvExportOptions_default : CsvExportOptions := {|
  column_separator := ","; column_delimiter := String dquote "";
  row_separator := ExportQuery.LF; encoding := "UTF-8"; null_value := None;
  compression := ExportQuery.Uncompressed; with_column_names := false; use_tls := false;
  timeout_ms := None; host := ""; port := 0;
|}.

Section Setters.
Context (o : CsvExportOptions).

(* code: export/csv.rs 172-176 CsvExportOptions::column_separator *)
Definition set_column_separator (sep : string) : CsvExportOptions := {|
  column_separator := sep; column_delimiter := column_delimiter o; row_separator :=
  row_separator o; encoding := encoding o; null_value := null_value o; compression :=
  compression o; with_column_names := with_column_names o; use_tls := use_tls o;
  timeout_ms := timeout_ms o; host := host o; port := port o |}.

(* code: export/csv.rs 178-182 CsvExportOptions::column_delimiter *)
Definition set_column_delimiter (delim : string) : CsvExportOptions := {|
  column_separator := column_separator o; column_delimiter := delim; row_separator :=
  row_separator o; encoding := encoding o; null_value := null_value o; compression :=
  compression o; with_column_names := with_column_names o; use_tls := use_tls o;
  timeout_ms := timeout_ms o; host := host o; port := port o |}.

(* code: export/csv.rs 184-188 CsvExportOptions::row_separator *)
Definition set_row_separator (sep : ExportQuery.RowSeparator) : CsvExportOptions := {|
  column_separator := column_separator o; column_delimiter := column_delimiter o;
  row_separator := sep; encoding := encoding o; null_value := null_value o; compression :=
  compression o; with_column_names := with_column_names o; use_tls := use_tls o;
  timeout_ms := timeout_ms o; host := host o; port := port o |}.

(* code: export/csv.rs 190-194 CsvExportOptions::encoding *)
Definition set_encoding (enc : string) : CsvExportOptions := {|
  column_separator := column_separator o; column_delimiter := column_delimiter o;
  row_separator := row_separator o; encoding := enc; null_value := null_value o;
  compression := compression o; with_column_names := with_column_names o; use_tls :=
  use_tls o; timeout_ms := timeout_ms o; host := host o; port := port o |}.

(* code: export/csv.rs 196-200 CsvExportOptions::null_value *)
Definition set_null_value (val : string) : CsvExportOptions := {|
  column_separator := column_separator o; column_delimiter := column_delimiter o;
  row_separator := row_separator o; encoding := encoding o; null_value := Some val;
  compression := compression o; with_column_names := with_column_names o; use_tls :=
  use_tls o; timeout_ms := timeout_ms o; host := host o; port := port o |}.

(* code: export/csv.rs 202-206 CsvExportOptions::compression *)
Definition set_compression (c : ExportQuery.Compression) : CsvExportOptions := {|
  column_separator := column_separator o; column_delimiter := column_delimiter o;
  row_separator := row_separator o; encoding := encoding o; null_value := null_value o;
  compression := c; with_column_names := with_column_names o; use_tls := use_tls o;
  timeout_ms := timeout_ms o; host := host o; port := port o |}.

(* code: export/csv.rs 208-212 CsvExportOptions::with_column_names *)
Definition set_with_column_names (include : bool) : CsvExportOptions := {|
  column_separator := column_separator o; column_delimiter := column_delimiter o;
  row_separator := row_separator o; encoding := encoding o; null_value := null_value o;
  compression := compression o; with_column_names := include; use_tls := use_tls o;
  timeout_ms := timeout_ms o; host := host o; port := port o |}.

(* code: export/csv.rs 214-218 CsvExportOptions::use_tls *)
Definition set_use_tls (tls : bool) : CsvExportOptions := {|
  column_separator := column_separator o; column_delimiter := column_delimiter o;
  row_separator := row_separator o; encoding := encoding o; null_value := null_value o;
  compression := compression o; with_column_names := with_column_names o; use_tls := tls;
  timeout_ms := timeout_ms o; host := host o; port := port o |}.

(* code: export/csv.rs 225-229 CsvExportOptions::timeout_ms *)
Definition set_timeout_ms (timeout : Z) : CsvExportOptions := {|
  column_separator := column_separator o; column_delimiter := column_delimiter o;
  row_separator := row_separator o; encoding := encoding o; null_value := null_value o;
  compression := compression o; with_column_names := with_column_names o; use_tls :=
  use_tls o; timeout_ms := Some timeout; host := host o; port := port o |}.

(* code: export/csv.rs 234-238 CsvExportOptions::exasol_host *)
Definition exasol_host (h : string) : CsvExportOptions := {|
  column_separator := column_separator o; column_delimiter := column_delimiter o;
  row_separator := row_separator o; encoding := encoding o; null_value := null_value o;
  compression := compression o; with_column_names := with_column_names o; use_tls :=
  use_tls o; timeout_ms := timeout_ms o; host := h; port := port o |}.

(* code: export/csv.rs 243-247 CsvExportOptions::exasol_port *)
Definition exasol_port (p : Z) : CsvExportOptions := {|
  column_separator := column_separator o; column_delimiter := column_delimiter o;
  row_separator := row_separator o; encoding := encoding o; null_value := null_value o;
  compression := compression o; with_column_names := with_column_names o; use_tls :=
  use_tls o; timeout_ms := timeout_ms o; host := host o; port := p |}.
End Setters.

(* code: export/csv.rs 250-261 SharedCsvExportParams *)
Record SharedCsvExportParams := {
  sp_column_separator : string;
  sp_column_delimiter : string;
  sp_host : string;
  sp_port : Z;
  sp_use_tls : bool;
}.

(* code: export/csv.rs 269-277 shared_csv_export_options *)
Definition shared_csv_export_options (p : SharedCsvExportParams) : CsvExportOptions :=
  let o := set_column_separator CsvExportOptions_default (sp_column_separator p) in
  let o := set_column_delimiter o (sp_column_delimiter p) in
  let o := set_with_column_names o false in
  let o := exasol_host o (sp_host p) in
  let o := exasol_port o (sp_port p) in
  set_use_tls o (sp_use_tls p).

(** The statement of an export. *)
(* code: export/csv.rs 523-560 export_to_callback *)
Definition export_query (source : ExportQuery.ExportSource) (o : CsvExportOptions)
    (internal_addr : string) (fingerprint : option string) : ExportQuery.ExportQuery :=
  let q := match source with
           | ExportQuery.Table schema name columns =>
             let q := ExportQuery.from_table name in
             let q := match schema with Some s => ExportQuery.with_schema q s | None => q end in
             match columns with [] => q | _ => ExportQuery.with_columns q columns end
           | ExportQuery.Query sql => ExportQuery.from_query sql
           end in
  let q := ExportQuery.at_address q internal_addr in
  let q := ExportQuery.with_column_separator q (column_separator o) in
  let q := ExportQuery.with_column_delimiter q (column_delimiter o) in
  let q := ExportQuery.with_row_separator q (row_separator o) in
  let q := ExportQuery.with_encoding q (encoding o) in
  let q := ExportQuery.set_with_column_names q (with_column_names o) in
  let q := ExportQuery.compressed q (compression o) in
  let q := match null_value o with Some v => ExportQuery.with_null_value q v | None => q end in
  match fingerprint with Some fp => ExportQuery.with_public_key q fp | None => q end.

(** ** The end of an export

    Three tasks run at once: the EXPORT statement, the consumer of the body and the tunnel.
    A task that is ready gives its result when the driver polls it. *)
Abbreviation result A := (A + ExportError)%type.

Section Settle.
Context {R : Type}.

(** Where [settle_export] is. *)
(* code: export/csv.rs 717-756 settle_export *)
Inductive Phase :=
| Selecting
| CallbackReturned (value : R)
| JoiningTunnel (value : R)
| FailedOnTunnel (callback_error : ExportError)
| JoiningFailed (callback_error : ExportError)
| CallbackFailed (callback_error : ExportError)
| StatementDone
| Returned (r : result R).

(** The tasks, the flags they share with the driver, and the transport. [sql_read] is
    [sql_response_read]; [broken] is the error behind the flag [failed]. *)
(* code: export/csv.rs 659-664 TunnelTask *)
Record Export := {
  phase : Phase;
  sql : option (result unit);
  callback : option (result R);
  broken : option ExportError;
  tunnel : option (result unit);
  discarding : bool;
  aborted : bool;
  sql_read : bool;
  transport_terminated : bool;
}.

(* code: export/csv.rs 562-589 export_to_callback *)
Definition Export_start : Export := {|
  phase := Selecting; sql := None; callback := None; broken := None; tunnel := None;
  discarding := false; aborted := false; sql_read := false; transport_terminated := false;
|}.

Definition set_phase (s : Export) (p : Phase) : Export := {|
  phase := p; sql := sql s; callback := callback s; broken := broken s; tunnel := tunnel s;
  discarding := discarding s; aborted := aborted s; sql_read := sql_read s;
  transport_terminated := transport_terminated s |}.

(* code: export/csv.rs 685-689 TunnelTask::discard *)
Definition discard (s : Export) : Export := {|
  phase := phase s; sql := sql s; callback := callback s; broken := broken s;
  tunnel := tunnel s; discarding := true; aborted := aborted s; sql_read := sql_read s;
  transport_terminated := transport_terminated s |}.

(* code: export/csv.rs 691-693 TunnelTask::has_failed *)
Definition has_failed (s : Export) : bool := bool_decide (is_Some (broken s)).

(* code: export/csv.rs 695-698 TunnelTask::abort *)
Definition abort (s : Export) : Export := {|
  phase := phase s; sql := sql s; callback := callback s; broken := broken s;
  tunnel := tunnel s; discarding := discarding s; aborted := true; sql_read := sql_read s;
  transport_terminated := transport_terminated s |}.

(* code: export/csv.rs 575-583 export_to_callback *)
Definition mark_read (s : Export) : Export := {|
  phase := phase s; sql := sql s; callback := callback s; broken := broken s;
  tunnel := tunnel s; discarding := discarding s; aborted := aborted s; sql_read := true;
  transport_terminated := transport_terminated s |}.

(** A poll of the statement: its result, if it is ready, and that it was read. *)
Definition poll_sql (s : Export) : option (result unit * Export) :=
  (λ r, (r, mark_read s)) <$> sql s.

(** One step of the driver, if it is not blocked. *)
(* code: export/csv.rs 711-757 settle_export *)
Definition settle_step (s : Export) : option Export :=
  match phase s with
  | Selecting =>
    match callback s with
    | Some (inl value) => Some (set_phase (discard s) (CallbackReturned value))
    | Some (inr e) =>
      if has_failed s then Some (set_phase s (FailedOnTunnel e))
      else Some (set_phase (abort s) (CallbackFailed e))
    | None =>
      '(r, s) ← poll_sql s;
      match r with
      | inr e => Some (set_phase (abort s) (Returned (inr e)))
      | inl _ => Some (set_phase s StatementDone)
      end
    end
  | CallbackReturned value =>
    '(r, s) ← poll_sql s;
    match r with
    | inr e => Some (set_phase (abort s) (Returned (inr e)))
    | inl _ => Some (set_phase s (JoiningTunnel value))
    end
  | JoiningTunnel value =>
    r ← tunnel s;
    Some (set_phase s (Returned (match r with inl _ => inl value | inr e => inr e end)))
  | FailedOnTunnel callback_error =>
    '(r, s) ← poll_sql s;
    match r with
    | inr e => Some (set_phase s (Returned (inr e)))
    | inl _ => Some (set_phase s (JoiningFailed callback_error))
    end
  | JoiningFailed callback_error =>
    r ← tunnel s;
    Some (set_phase s (Returned (inr (match r with inl _ => callback_error | inr e => e end))))
  | CallbackFailed callback_error =>
    '(_, s) ← poll_sql s; Some (set_phase s (Returned (inr callback_error)))
  | StatementDone =>
    tunnel_result ← tunnel s;
    callback_result ← callback s;
    Some (set_phase s (Returned (match tunnel_result with
                                 | inl _ => callback_result
                                 | inr e => inr e
                                 end)))
  | Returned _ => None
  end.

(** A poll runs the driver until it is blocked: three steps lead to a result. *)
(* code: export/csv.rs 709-721 settle_export *)
Fixpoint poll (fuel : nat) (s : Export) : Export :=
  match fuel with
  | O => s
  | S fuel => match settle_step s with Some s => poll fuel s | None => s end
  end.

(** What happens around the driver. A task becomes ready once; the tunnel records that it
    broke before its end is seen, and an aborted tunnel ends no more. *)
Inductive Event :=
| SqlReady (r : result unit)
| CallbackReady (r : result R)
| TunnelBreaks (e : ExportError)
| TunnelEnds
| TunnelPanics (e : ExportError)
| Poll
| TimerFires (timeout_ms : Z).

(** The tunnel's task records its failure before it ends. *)
(* code: export/csv.rs 619-637 serve_export_tunnel *)
Definition tunnel_result (s : Export) : result unit :=
  match broken s with Some e => inr e | None => inl () end.

Definition set_tunnel (s : Export) (r : result unit) : Export :=
  if aborted s then s else
  match tunnel s with
  | Some _ => s
  | None => {|
      phase := phase s; sql := sql s; callback := callback s; broken := broken s;
      tunnel := Some r; discarding := discarding s; aborted := aborted s;
      sql_read := sql_read s; transport_terminated := transport_terminated s |}
  end.

(* code: export/csv.rs 598-611 export_to_callback *)
Definition time_out (s : Export) (bound_ms : Z) : Export :=
  match phase s with
  | Returned _ => s
  | _ =>
    let s := abort s in
    let terminated := negb (sql_read s) in
    {| phase := Returned (inr (ExportTimeout bound_ms terminated)); sql := sql s;
       callback := callback s; broken := broken s; tunnel := tunnel s;
       discarding := discarding s; aborted := aborted s; sql_read := sql_read s;
       transport_terminated := terminated |}
  end.

(* code: export/csv.rs 575-611 export_to_callback *)
Definition happens (s : Export) (e : Event) : Export :=
  match e with
  | SqlReady r => {|
      phase := phase s; sql := match sql s with Some r => Some r | None => Some r end;
      callback := callback s; broken := broken s; tunnel := tunnel s;
      discarding := discarding s; aborted := aborted s; sql_read := sql_read s;
      transport_terminated := transport_terminated s |}
  | CallbackReady r => {|
      phase := phase s; sql := sql s;
      callback := match callback s with Some r => Some r | None => Some r end;
      broken := broken s; tunnel := tunnel s; discarding := discarding s;
      aborted := aborted s; sql_read := sql_read s;
      transport_terminated := transport_terminated s |}
  | TunnelBreaks e =>
    if aborted s then s else
    match tunnel s with
    | Some _ => s
    | None => {|
        phase := phase s; sql := sql s; callback := callback s;
        broken := match broken s with Some e => Some e | None => Some e end;
        tunnel := tunnel s; discarding := discarding s; aborted := aborted s;
        sql_read := sql_read s; transport_terminated := transport_terminated s |}
    end
  | TunnelEnds => set_tunnel s (tunnel_result s)
  | TunnelPanics e => set_tunnel s (inr e)
  | Poll => poll 3 s
  | TimerFires bound_ms => time_out s bound_ms
  end.

(** From the first poll of the export on. *)
(* code: export/csv.rs 587-611 export_to_callback *)
Definition schedule (events : list Event) : Export := foldl happens Export_start events.
End Settle.

Arguments Phase _ : clear implicits.
Arguments Export _ : clear implicits.
Arguments Event _ : clear implicits.

(** ** Handing pieces to the consumer *)
(** What happens to a piece: the consumer takes it, its end is closed, or [discard] fires
    while it waits. *)
Inductive Handed := Taken | ConsumerClosed | DiscardFired.

(* code: export/csv.rs 642-657 relay_pieces *)
Fixpoint relay_pieces (discarding : bool) (pieces : list (list byte * Handed)) : list (list byte) :=
  match pieces with
  | [] => []
  | (piece, how) :: pieces =>
    if discarding then relay_pieces discarding pieces
    else match how with
         | Taken => piece :: relay_pieces false pieces
         | ConsumerClosed | DiscardFired => relay_pieces true pieces
         end
  end.

(** ** Decoding the body *)
(* code: export/csv.rs 759-761 DECODED_BLOCK_MAX_BYTES *)
Definition DECODED_BLOCK_MAX_BYTES : Z := 64 * 1024.

(* code: export/csv.rs 763-768 FeedState *)
Record FeedState := { data : list byte; position : nat; ended : bool }.

(** Why a read gave nothing. *)
Inductive ReadError := WouldBlock | UnexpectedEof (text : string) | OtherError (text : string).

(* code: export/csv.rs 775-789 PieceFeed::read *)
Definition feed_read (out_len : nat) (f : FeedState) : outcome ReadError (list byte) * FeedState :=
  let len := Nat.min out_len (length (data f) - position f) in
  if (len =? 0)%nat then
    (if ended f || (out_len =? 0)%nat then Ok [] else Err WouldBlock, f)
  else
    (Ok (take len (drop (position f) (data f))),
     {| data := data f; position := (position f + len)%nat; ended := ended f |}).

(** flate2 and bzip2: a decoder's state, and a read that may take input from the feed. *)
Class Decoders := {
  decoder : Type;
  decoder_new : ExportQuery.Compression → decoder;
  decoder_read : decoder → nat → FeedState → outcome ReadError (list byte) * (decoder * FeedState);
}.

Section Decode.
Context `{Decoders}.

(* code: export/csv.rs 791-798 PieceDecoder *)
Record PieceDecoder := { feed : FeedState; reader : option decoder; codec : string }.

(* code: export/csv.rs 801-814 PieceDecoder::new *)
Definition PieceDecoder_new (c : ExportQuery.Compression) : PieceDecoder :=
  let feed := {| data := []; position := O; ended := false |} in
  match c with
  | ExportQuery.Uncompressed => {| feed := feed; reader := None; codec := "plain" |}
  | ExportQuery.Gzip => {| feed := feed; reader := Some (decoder_new c); codec := "gzip" |}
  | ExportQuery.Bzip2 => {| feed := feed; reader := Some (decoder_new c); codec := "bzip2" |}
  end.

Definition with_feed (d : PieceDecoder) (f : FeedState) : PieceDecoder :=
  {| feed := f; reader := reader d; codec := codec d |}.

(* code: export/csv.rs 822-830 PieceDecoder::push *)
Definition push (d : PieceDecoder) (piece : list byte) : PieceDecoder :=
  let f := feed d in
  with_feed d
    (if (position f =? length (data f))%nat
     then {| data := piece; position := O; ended := ended f |}
     else {| data := data f ++ piece; position := position f; ended := ended f |}).

(* code: export/csv.rs 834-836 PieceDecoder::end *)
Definition end_feed (d : PieceDecoder) : PieceDecoder :=
  with_feed d {| data := data (feed d); position := position (feed d); ended := true |}.

(** A read of at most [block] bytes. *)
Definition read_block (block : nat) (d : PieceDecoder)
    : outcome ReadError (list byte) * PieceDecoder :=
  match reader d with
  | None => let '(r, f) := feed_read block (feed d) in (r, with_feed d f)
  | Some dec =>
    let '(r, (dec, f)) := decoder_read dec block (feed d) in
    (r, {| feed := f; reader := Some dec; codec := codec d |})
  end.

(* code: export/csv.rs 840-860 PieceDecoder::next_block *)
Definition next_block (block : nat) (d : PieceDecoder)
    : outcome ExportError (option (list byte)) * PieceDecoder :=
  let '(r, d) := read_block block d in
  (match r with
   | Ok [] => Ok None
   | Ok bytes => Ok (Some bytes)
   | Err WouldBlock => Ok None
   | Err (UnexpectedEof e) =>
     Err (DecompressionError ("The " +:+ codec d +:+
       " stream of the export body ended before it was complete: " +:+ e))
   | Err (OtherError e) =>
     Err (DecompressionError ("Failed to decode the " +:+ codec d +:+ " export body: " +:+ e))
   | Panic => Panic
   end, d).

(** A writer: the bytes written, and the error of its next write or flush. *)
Record Writer := { written : list byte; write_fails : option string; flush_fails : option string }.

(* code: export/csv.rs 383-385 count_line_feeds *)
Definition count_line_feeds (bytes : list byte) : Z :=
  Z.of_nat (length (filter (λ b, b = x0a) bytes)).

(** The blocks that the decoder has now. *)
(* code: export/csv.rs 884-894 write_blocks *)
Fixpoint write_blocks (block fuel : nat) (d : PieceDecoder) (w : Writer)
    : outcome ExportError Z * (PieceDecoder * Writer) :=
  match fuel with
  | O => (Panic, (d, w))
  | S fuel =>
    match next_block block d with
    | (Ok None, d) => (Ok 0, (d, w))
    | (Ok (Some bytes), d) =>
      match write_fails w with
      | Some e => (Err (ExportIoError e), (d, w))
      | None =>
        let w := {| written := written w ++ bytes; write_fails := write_fails w;
                    flush_fails := flush_fails w |} in
        let '(r, s) := write_blocks block fuel d w in
        (n ← r; Ok (count_line_feeds bytes + n), s)
      end
    | (Err e, d) => (Err e, (d, w))
    | (Panic, d) => (Panic, (d, w))
    end
  end.

(** [fuel] bounds the blocks of one piece. *)
(* code: export/csv.rs 873-876 write_decoded *)
Fixpoint write_pieces (block fuel : nat) (pieces : list (list byte)) (d : PieceDecoder) (w : Writer)
    : outcome ExportError Z * (PieceDecoder * Writer) :=
  match pieces with
  | [] => (Ok 0, (d, w))
  | piece :: pieces =>
    match write_blocks block fuel (push d piece) w with
    | (Ok n, (d, w)) =>
      let '(r, s) := write_pieces block fuel pieces d w in (m ← r; Ok (n + m), s)
    | (Err e, s) => (Err e, s)
    | (Panic, s) => (Panic, s)
    end
  end.

(* code: export/csv.rs 865-882 write_decoded *)
Definition write_decoded (block fuel : nat) (pieces : list (list byte))
    (c : ExportQuery.Compression) (w : Writer) : outcome ExportError Z * Writer :=
  match write_pieces block fuel pieces (PieceDecoder_new c) w with
  | (Ok n, (d, w)) =>
    match write_blocks block fuel (end_feed d) w with
    | (Ok m, (_, w)) =>
      (match flush_fails w with Some e => Err (ExportIoError e) | None => Ok (n + m) end, w)
    | (Err e, (_, w)) => (Err e, w)
    | (Panic, (_, w)) => (Panic, w)
    end
  | (Err e, (_, w)) => (Err e, w)
  | (Panic, (_, w)) => (Panic, w)
  end.

(** What the callback of an export to a list returns for the pieces. *)
(* code: export/csv.rs 407-428 export_to_list *)
Definition collect_list (block fuel : nat) (pieces : list (list byte)) (c : ExportQuery.Compression)
    (separator delimiter : string) : outcome ExportError (list (list string)) :=
  let vec := {| written := []; write_fails := None; flush_fails := None |} in
  match write_decoded block fuel pieces c vec with
  | (Ok _, data) =>
    csv_string ← map_err (λ e, CsvParseError 0 ("Invalid UTF-8: " +:+ show_utf8_error e))
      (from_utf8 (written data));
    map_err (λ row, CsvParseError row "Unclosed quote at end of data")
      (Csv.parse_csv separator delimiter csv_string)
  | (Err e, _) => Err e
  | (Panic, _) => Panic
  end.
End Decode.
