(* ===== verification/ExportSettle.v ===== *)
(** * How an export ends

    Every order in which the statement, the consumer and the tunnel of a CSV export become
    ready leads to the result that the documented rules give, with the statement's response
    read or the transport terminated; and the decoder writes the whole body. *)
From S2P Require Import Prelude MachineInt RustStr StrText Errors HttpWire CsvExport.
From S2P Require ExportQuery.

#[local] Open Scope Z_scope.

Section Settled.
Context {R : Type}.
Implicit Types s seen : Export R.

(** The state at the poll in which the driver first saw a task ready. *)
Definition decided (events : list (Event R)) seen : Prop :=
  ∃ before after, events = before ++ Poll :: after ∧ seen = schedule before ∧
    phase seen = Selecting.

(** The consumer had failed when the driver decided. *)
Definition callback_failed seen (e : ExportError) : Prop := callback seen = Some (inr e).
Definition no_callback_failure seen : Prop := ∀ e, ¬ callback_failed seen e.

(** The rules of [export_to_callback], in their order: [seen] is the state in which the
    driver decided, [s] one in which it has returned. *)
Inductive settles seen s : CsvExport.result R → Prop :=
| body_cut_statement_failed e q :
    callback_failed seen e → has_failed seen = true → sql s = Some (inr q) →
    settles seen s (inr q)
| body_cut e t :
    callback_failed seen e → has_failed seen = true → sql s = Some (inl ()) →
    tunnel s = Some (inr t) → settles seen s (inr t)
| callback_failed_first e :
    callback_failed seen e → has_failed seen = false → aborted s = true → is_Some (sql s) →
    settles seen s (inr e)
| statement_failed q :
    no_callback_failure seen → sql s = Some (inr q) → aborted s = true →
    settles seen s (inr q)
| tunnel_failed t :
    no_callback_failure seen → sql s = Some (inl ()) → tunnel s = Some (inr t) →
    settles seen s (inr t)
| delivered r :
    no_callback_failure seen → sql s = Some (inl ()) → tunnel s = Some (inl ()) →
    callback s = Some r → settles seen s r.

(** ** The invariant *)
(** What the phase says of the tasks; [D] holds of the states the driver decided in. *)
Definition phase_inv (D : Export R → Prop) s : Prop :=
  match phase s with
  | Selecting => sql_read s = false ∧ aborted s = false
  | CallbackReturned v => aborted s = false ∧
      ∃ seen, D seen ∧ no_callback_failure seen ∧ callback s = Some (inl v)
  | JoiningTunnel v => aborted s = false ∧ sql_read s = true ∧ sql s = Some (inl ()) ∧
      ∃ seen, D seen ∧ no_callback_failure seen ∧ callback s = Some (inl v)
  | FailedOnTunnel e => aborted s = false ∧ is_Some (broken s) ∧
      ∃ seen, D seen ∧ callback_failed seen e ∧ has_failed seen = true
  | JoiningFailed e => aborted s = false ∧ sql_read s = true ∧ sql s = Some (inl ()) ∧
      is_Some (broken s) ∧ ∃ seen, D seen ∧ callback_failed seen e ∧ has_failed seen = true
  | CallbackFailed e => aborted s = true ∧
      ∃ seen, D seen ∧ callback_failed seen e ∧ has_failed seen = false
  | StatementDone => aborted s = false ∧ sql_read s = true ∧ sql s = Some (inl ()) ∧
      ∃ seen, D seen ∧ no_callback_failure seen
  | Returned r =>
      (sql_read s = true ∧ transport_terminated s = false ∧
       ∃ seen, D seen ∧ settles seen s r)
      ∨ (transport_terminated s = negb (sql_read s) ∧ aborted s = true ∧
         ∃ bound_ms, r = inr (ExportTimeout bound_ms (negb (sql_read s))))
  end.

(** A tunnel that recorded its failure does not end well, and nothing is terminated
    before the driver returns. *)
Definition tunnel_inv s : Prop :=
  (is_Some (broken s) → tunnel s ≠ Some (inl ())) ∧
  (transport_terminated s = true → ∃ r, phase s = Returned r).

Lemma phase_inv_mono (D D' : Export R → Prop) s :
  (∀ seen, D seen → D' seen) → phase_inv D s → phase_inv D' s.
Proof. intros HD. unfold phase_inv. destruct (phase s); naive_solver. Qed.

Lemma settles_mono seen s s' r :
  settles seen s r → (∀ q, sql s = Some q → sql s' = Some q) →
  (∀ t, tunnel s = Some t → tunnel s' = Some t) →
  (∀ c, callback s = Some c → callback s' = Some c) → (aborted s = true → aborted s' = true) →
  settles seen s' r.
Proof.
  intros Hs Hq Ht Hc Ha.
  destruct Hs as [e q ? ? ?|e t ? ? ? ?|e ? ? ? [q ?]|q ? ? ?|t ? ? ?|r ? ? ? ?].
  - apply (body_cut_statement_failed _ _ e); auto.
  - apply (body_cut _ _ e); auto.
  - apply callback_failed_first; eauto.
  - apply statement_failed; auto.
  - apply tunnel_failed; auto.
  - apply delivered; auto.
Qed.

Lemma has_failed_broken s : has_failed s = true ↔ is_Some (broken s).
Proof. apply bool_decide_eq_true. Qed.

(** Close a goal of [phase_inv] that is about a result: the rule is found by its
    premises. *)
#[local] Hint Constructors settles : core.
#[local] Hint Resolve -> has_failed_broken : core.
Ltac by_rule :=
  left; split_and!; [by auto|by auto|]; eexists; split; [eassumption|]; cbn; eauto.

Lemma no_failure_pending s : callback s = None → no_callback_failure s.
Proof. intros E e. unfold callback_failed. by rewrite E. Qed.

Lemma no_failure_returned s v : callback s = Some (inl v) → no_callback_failure s.
Proof. intros E e. unfold callback_failed. by rewrite E. Qed.

#[local] Hint Resolve no_failure_pending no_failure_returned : core.

Ltac run_step Hs :=
  unfold settle_step, poll_sql, mbind, option_bind, fmap, option_fmap, option_map in Hs.

(** The driver only moves its own part of the state. *)
Lemma settle_step_tasks s s' :
  settle_step s = Some s' →
  sql s' = sql s ∧ callback s' = callback s ∧ broken s' = broken s ∧ tunnel s' = tunnel s ∧
  transport_terminated s' = transport_terminated s ∧ phase s' ≠ Selecting ∧
  (∀ r, phase s ≠ Returned r).
Proof. intros Hs. run_step Hs. repeat (case_match; simplify_eq/=); split_and!; done. Qed.

(** A step of the driver. *)
Lemma settle_step_inv D s s' :
  (phase s = Selecting → D s) → transport_terminated s = false →
  (is_Some (broken s) → tunnel s ≠ Some (inl ())) → phase_inv D s →
  settle_step s = Some s' → phase_inv D s'.
Proof.
  intros HD Hn Hb Hp Hs. run_step Hs. unfold phase_inv in Hp.
  destruct (phase s) eqn:Ep; [specialize (HD eq_refl)|..];
    repeat match goal with
      | H : _ ∧ _ |- _ => destruct H
      | H : ∃ _, _ |- _ => destruct H
      end; simplify_eq/=; repeat (case_match; simplify_eq/=); unfold phase_inv; cbn;
    repeat match goal with u : unit |- _ => destruct u end; try by_rule;
    try by split_and!; eauto 10.
  by destruct Hb.
Qed.

(** ** All that happens *)
Definition inv (events : list (Event R)) s : Prop :=
  phase_inv (decided events) s ∧
  (is_Some (broken s) → tunnel s ≠ Some (inl ())) ∧
  (transport_terminated s = true → ∃ r, phase s = Returned r).

Lemma decided_snoc events e seen : decided events seen → decided (events ++ [e]) seen.
Proof.
  intros (before & after & -> & ? & ?). exists before, (after ++ [e]).
  by rewrite <- app_assoc.
Qed.

Lemma inv_snoc events e s : inv events s → inv (events ++ [e]) s.
Proof. intros (Hp & ?). split; [|done]. eapply phase_inv_mono; [|done]. apply decided_snoc. Qed.

Lemma poll_inv fuel events s :
  inv events s → (phase s = Selecting → decided events s) → inv events (poll fuel s).
Proof.
  revert s. induction fuel as [|fuel IH]; intros s (Hp & Hb & Ht) HD; [done|]. cbn.
  destruct (settle_step s) as [s'|] eqn:Hs; [|done].
  destruct (settle_step_tasks _ _ Hs) as (_ & _ & E1 & E2 & E3 & Hsel & Hret).
  assert (transport_terminated s = false) as Hn.
  { destruct (transport_terminated s); [|done]. destruct Ht as [r E]; [done|]. by destruct (Hret r). }
  apply IH; [|done]. split_and!.
  - by eapply settle_step_inv.
  - by rewrite E1, E2.
  - by rewrite E3, Hn.
Qed.

(** An event that only makes a task ready. *)
Lemma phase_inv_ready D s s' :
  phase_inv D s → phase s' = phase s → sql_read s' = sql_read s → aborted s' = aborted s →
  transport_terminated s' = transport_terminated s →
  (∀ q, sql s = Some q → sql s' = Some q) → (∀ t, tunnel s = Some t → tunnel s' = Some t) →
  (∀ c, callback s = Some c → callback s' = Some c) →
  (is_Some (broken s) → is_Some (broken s')) → phase_inv D s'.
Proof.
  unfold phase_inv. intros Hp -> -> Ea -> Hq Ht Hc Hb. rewrite Ea.
  destruct (phase s);
    repeat match goal with
      | H : _ ∧ _ |- _ => destruct H
      | H : ∃ _, _ |- _ => destruct H
      end; try by split_and!; eauto 10.
  destruct Hp as [(? & ? & seen & ? & ?)|]; [|by right]. left. split_and!; [done..|].
  exists seen. split; [done|]. eapply settles_mono; [done|auto..]. by rewrite Ea.
Qed.

Lemma set_tunnel_inv events s r :
  inv events s → (is_Some (broken s) → r ≠ inl ()) → inv events (set_tunnel s r).
Proof.
  intros (Hp & Hb & Ht) Hr. unfold set_tunnel. destruct (aborted s) eqn:Ea; [done|].
  destruct (tunnel s) eqn:Et; [split_and!; [done|by rewrite Et|done]|].
  split_and!; [|cbn; intros ?%Hr; congruence|done].
  eapply phase_inv_ready; [done|try done..]; cbn. by rewrite Et.
Qed.

Lemma happens_inv events e s :
  inv events s → (phase s = Selecting → decided (events ++ [Poll]) s) →
  inv (events ++ [e]) (happens s e).
Proof.
  intros Hinv HD. destruct e as [r|r|e| |e| |bound_ms].
  6: { apply poll_inv; [by apply inv_snoc|done]. }
  all: apply inv_snoc; pose proof Hinv as (Hp & Hb & Ht).
  1, 2: split_and!; [|done|done]; eapply phase_inv_ready; [done|try done..];
    cbn; by intros ? ->.
  - cbn. destruct (aborted s) eqn:Ea; [done|]. destruct (tunnel s) eqn:Et; [done|].
    split_and!; [|done|done].
    eapply phase_inv_ready; [done|try done..]; cbn; [by rewrite Et|by intros [? ->]].
  - apply set_tunnel_inv; [done|]. unfold tunnel_result. by intros [? ->].
  - by apply set_tunnel_inv.
  - cbn. unfold time_out. destruct (phase s) eqn:Ep; try done;
      (split_and!; [right|done|cbn; by eexists]); cbn; eauto.
Qed.

Lemma inv_holds events : inv events (schedule events).
Proof.
  unfold schedule. induction events as [|e events IH] using rev_ind.
  { split_and!; [done|by intros [? ?]|done]. }
  rewrite foldl_snoc. apply happens_inv; [done|]. intros Hsel.
  by exists events, [].
Qed.

(** C24: However the statement, the consumer and the tunnel of an export interleave, the
    driver returns what the first matching documented rule gives: the statement's error or
    the tunnel's when a broken tunnel made the consumer fail, the consumer's error when it
    failed first, the statement's error, the tunnel's error, and otherwise the consumer's
    result; in each case the response of the statement was read, so the connection is in
    sync and is kept. Only when the timer fires first does it return the timeout, and it
    then terminates the transport exactly when the response was not read. *)
Theorem settled_by_rules : ∀ (events : list (Event R)) r,
  phase (schedule events) = Returned r →
  (sql_read (schedule events) = true ∧ transport_terminated (schedule events) = false ∧
   ∃ seen, decided events seen ∧ settles seen (schedule events) r)
  ∨ (transport_terminated (schedule events) = negb (sql_read (schedule events)) ∧
     aborted (schedule events) = true ∧
     ∃ bound_ms, r = inr (ExportTimeout bound_ms (negb (sql_read (schedule events))))).
Proof.
  intros events r Hr. destruct (inv_holds events) as (Hp & _). unfold phase_inv in Hp.
  by rewrite Hr in Hp.
Qed.

(** ** The driver returns *)
(** The steps that a poll can still make. *)
Definition steps_left (p : Phase R) : nat :=
  match p with
  | Selecting => 3
  | CallbackReturned _ | FailedOnTunnel _ => 2
  | JoiningTunnel _ | JoiningFailed _ | CallbackFailed _ | StatementDone => 1
  | Returned _ => O
  end.

Lemma settle_step_left s s' :
  settle_step s = Some s' → (steps_left (phase s') < steps_left (phase s))%nat.
Proof. intros Hs. run_step Hs. repeat (case_match; simplify_eq/=); lia. Qed.

Lemma poll_blocks fuel s :
  (steps_left (phase s) ≤ fuel)%nat → settle_step (poll fuel s) = None.
Proof.
  revert s. induction fuel as [|fuel IH]; intros s Hf; cbn;
    destruct (settle_step s) as [s'|] eqn:Hs; try done; apply settle_step_left in Hs; [lia|].
  apply IH. lia.
Qed.

Lemma poll_tasks fuel s :
  sql (poll fuel s) = sql s ∧ callback (poll fuel s) = callback s ∧
  tunnel (poll fuel s) = tunnel s.
Proof.
  revert s. induction fuel as [|fuel IH]; intros s; cbn; [done|].
  destruct (settle_step s) as [s'|] eqn:Hs; [|done].
  destruct (settle_step_tasks _ _ Hs) as (<- & <- & _ & <- & _). apply IH.
Qed.

Lemma ready_not_blocked s :
  is_Some (sql s) → is_Some (callback s) → is_Some (tunnel s) → settle_step s = None →
  ∃ r, phase s = Returned r.
Proof.
  intros [q Hq] [c Hc] [t Ht]. unfold settle_step, poll_sql. rewrite Hq, Hc, Ht.
  intros Hs. destruct (phase s); [..|by eexists]; exfalso; simplify_eq/=;
    repeat (case_match; simplify_eq/=).
Qed.

(** An aborted tunnel is no longer needed. *)
Lemma aborted_returns D s :
  phase_inv D s → aborted s = true → is_Some (sql s) → ∃ r, phase (poll 3 s) = Returned r.
Proof.
  unfold phase_inv. intros Hp Ha [q Hq]. rewrite Ha in Hp.
  cbn [poll]. unfold settle_step at 1. unfold poll_sql. rewrite Hq.
  destruct (phase s) eqn:Ep; try (by destruct Hp); cbn; [|by exists r].
  by eexists.
Qed.

(** A poll of the export always ends, and it returns the result as soon as the statement
    and the consumer are ready and the tunnel has ended or was aborted by the driver: no
    interleaving leaves the export waiting for something that will not come. *)
Theorem export_returns : ∀ events : list (Event R),
  settle_step (schedule (events ++ [Poll])) = None ∧
  (is_Some (sql (schedule events)) → is_Some (callback (schedule events)) →
   is_Some (tunnel (schedule events)) ∨ aborted (schedule events) = true →
   ∃ r, phase (schedule (events ++ [Poll])) = Returned r).
Proof.
  intros events.
  assert (schedule (events ++ [Poll]) = poll 3 (schedule events)) as E
    by (unfold schedule; by rewrite foldl_snoc).
  rewrite E. set (s := schedule events).
  assert (settle_step (poll 3 s) = None) as Hblock 
    by (apply poll_blocks; destruct (phase s); cbn; lia).
  split; [done|]. intros Hq Hc Ht.
  destruct Ht as [Ht|Ha]; [|by eapply aborted_returns; [apply inv_holds|..]].
  destruct (poll_tasks 3 s) as (Eq & Ec & Et).
  apply ready_not_blocked; [by rewrite Eq|by rewrite Ec|by rewrite Et|done].
Qed.
End Settled.

(** The consumer fails after the tunnel broke, and the statement's error is returned. *)
Lemma settled_by_rules_witness :
  let cut := [TunnelBreaks (ExportHttpTransportError "cut"); Poll;
              CallbackReady (inr (CsvParseError 1 "no end")); Poll; TunnelEnds;
              SqlReady (inr (SqlExecutionError "ETL-5106")); Poll] : list (Event unit) in
  phase (schedule cut) = Returned (inr (SqlExecutionError "ETL-5106")) ∧
  sql_read (schedule cut) = true.
Proof.
  intros cut. assert (phase (schedule cut) = Returned (inr (SqlExecutionError "ETL-5106"))) as Hr
    by reflexivity.
  split; [exact Hr|].
  destruct (settled_by_rules cut _ Hr) as [(? & _)|(_ & _ & ? & [=])]. done.
Defined.

(** ** Decoding *)
Section Decode.
Context `{Decoders}.

Lemma count_line_feeds_app bs bs' :
  count_line_feeds (bs ++ bs') = count_line_feeds bs + count_line_feeds bs'.
Proof. unfold count_line_feeds. rewrite filter_app, length_app. lia. Qed.

(** The rest of the feed of a decoder of a plain body. *)
Definition plain (d : PieceDecoder) (rest : list byte) : Prop :=
  reader d = None ∧ (position (feed d) ≤ length (data (feed d)))%nat ∧
  drop (position (feed d)) (data (feed d)) = rest.

Definition keeps_writing (w : Writer) : Prop := write_fails w = None ∧ flush_fails w = None.

Definition wrote (w : Writer) (bytes : list byte) : Writer :=
  {| written := written w ++ bytes; write_fails := write_fails w; flush_fails := flush_fails w |}.

Lemma wrote_nil w : wrote w [] = w.
Proof. destruct w. unfold wrote. by rewrite app_nil_r. Qed.

Lemma wrote_wrote w a b : wrote (wrote w a) b = wrote w (a ++ b).
Proof. unfold wrote. cbn. by rewrite app_assoc. Qed.

Lemma next_block_plain block d rest :
  (0 < block)%nat → plain d rest →
  ∃ d', plain d' (drop block rest) ∧
    next_block block d = (Ok (match rest with [] => None | _ => Some (take block rest) end), d').
Proof.
  intros Hb (Hr & Hp & Hd). unfold next_block, read_block, feed_read. rewrite Hr.
  assert (length (data (feed d)) - position (feed d) = length rest)%nat as El
    by (rewrite <- Hd, length_drop; lia).
  rewrite El. destruct rest as [|b rest].
  - rewrite Nat.min_0_r. cbn [length Nat.eqb].
    exists (with_feed d (feed d)). split; [by rewrite drop_nil|].
    destruct (ended (feed d)), (Nat.eqb_spec block 0); try lia; done.
  - set (n := Nat.min block (length (b :: rest))).
    assert (n ≠ 0)%nat as Hn by (subst n; cbn [length]; lia).
    destruct (Nat.eqb_spec n 0); [done|]. rewrite Hd.
    assert (∀ l : list byte, l = b :: rest → take n l = take block l ∧ drop n l = drop block l)
      as Htd.
    { intros l El'. subst n. rewrite <- El'. destruct (Nat.min_spec block (length l)) as [[? ->]|[? ->]];
        [done|]. by rewrite !take_ge, !drop_ge by lia. }
    destruct (Htd _ eq_refl) as [-> Hdrop].
    eexists. split; [|destruct (take block (b :: rest)) eqn:Et; [|done]].
    + unfold plain. cbn. rewrite Hr. split_and!; [done|subst n; cbn [length] in *; lia|].
      by rewrite <- drop_drop, Hd.
    + by destruct block.
Qed.

Lemma write_blocks_plain block fuel d rest w :
  (0 < block)%nat → plain d rest → (length rest < fuel)%nat → write_fails w = None →
  ∃ d', plain d' [] ∧ write_blocks block fuel d w = (Ok (count_line_feeds rest), (d', wrote w rest)).
Proof.
  intros Hb. revert d rest w. induction fuel as [|fuel IH]; intros d rest w Hd Hf Hw; [lia|].
  cbn [write_blocks]. destruct (next_block_plain block d rest Hb Hd) as (d' & Hd' & ->).
  destruct rest as [|b rest]; [rewrite drop_nil in Hd'; exists d'; by rewrite wrote_nil|].
  rewrite Hw. destruct (IH d' (drop block (b :: rest)) (wrote w (take block (b :: rest))))
    as (d2 & Hd2 & E); [done| |done|].
  { destruct block; [lia|]. cbn [drop length] in *. rewrite length_drop. lia. }
  unfold wrote at 1 in E. rewrite Hw in E. exists d2. split; [done|]. rewrite E.
  cbn [mbind outcome_bind]. rewrite wrote_wrote, <- count_line_feeds_app, !take_drop. done.
Qed.

Lemma push_plain d piece : plain d [] → plain (push d piece) piece.
Proof.
  intros (Hr & Hp & Hd). unfold push, plain. cbn. rewrite Hr.
  apply (f_equal length) in Hd. rewrite length_drop in Hd. cbn in Hd.
  rewrite (proj2 (Nat.eqb_eq _ _)) by lia. cbn. split_and!; [done|lia|done].
Qed.

Lemma write_pieces_plain block fuel pieces d w :
  (0 < block)%nat → Forall (λ p, length p < fuel)%nat pieces → plain d [] →
  write_fails w = None →
  ∃ d', plain d' [] ∧
    write_pieces block fuel pieces d w
    = (Ok (count_line_feeds (concat pieces)), (d', wrote w (concat pieces))).
Proof.
  intros Hb Hf. revert d w. induction Hf as [|p pieces Hp _ IH]; intros d w Hd Hw.
  { exists d. cbn. by rewrite wrote_nil. }
  cbn [write_pieces concat].
  destruct (write_blocks_plain block fuel (push d p) p w) as (d1 & Hd1 & ->);
    [done|by apply push_plain|done..|].
  destruct (IH d1 (wrote w p)) as (d2 & Hd2 & ->); [done..|]. exists d2. split; [done|].
  cbn [mbind outcome_bind]. by rewrite count_line_feeds_app, wrote_wrote.
Qed.

(** An export without compression writes to the file exactly the bytes of the body's
    pieces in their order, whatever the sizes of the pieces and of the decoder's blocks, and
    reports as many rows as these bytes have line feeds; a writer that fails makes it return
    the error instead of a row count. *)
Theorem export_file_is_body : ∀ (block fuel : nat) pieces (w : Writer),
  (0 < block)%nat → Forall (λ p, length p < fuel)%nat ([] :: pieces) →
  (keeps_writing w →
   write_decoded block fuel pieces ExportQuery.Uncompressed w
   = (Ok (count_line_feeds (concat pieces)), wrote w (concat pieces))) ∧
  (∀ e, write_fails w = Some e → concat pieces ≠ [] →
   write_decoded block fuel pieces ExportQuery.Uncompressed w = (Err (ExportIoError e), w)).
Proof.
  intros block fuel pieces w Hb Hf. apply Forall_cons in Hf as [H0 Hf]. cbn in H0.
  unfold write_decoded.
  assert (plain (PieceDecoder_new ExportQuery.Uncompressed) []) as Hnew by done.
  split; [intros [Hw Hfl]|intros e Hw Hne].
  - destruct (write_pieces_plain block fuel pieces _ w Hb Hf Hnew Hw) as (d & Hd & ->).
    destruct (write_blocks_plain block fuel (end_feed d) [] (wrote w (concat pieces)))
      as (d' & _ & ->); [done|done|done|done|].
    rewrite wrote_nil. cbn. rewrite Hfl. unfold count_line_feeds at 2. cbn. by rewrite Z.add_0_r.
  - revert Hnew. generalize (PieceDecoder_new ExportQuery.Uncompressed) as d.
    assert (∀ d, plain d [] → ∃ d',
      write_pieces block fuel pieces d w = (Err (ExportIoError e), (d', w))) as Hp.
    2: { intros d Hd. by destruct (Hp d Hd) as [d' ->]. }
    induction Hf as [|p pieces Hp _ IH]; intros d Hd; [done|]. cbn [write_pieces concat] in *.
    apply (push_plain _ p) in Hd. destruct fuel as [|fuel]; [lia|]. cbn [write_blocks].
    destruct (next_block_plain block _ p Hb Hd) as (d' & Hd' & ->).
    destruct p as [|b p]; [|rewrite Hw; by eexists].
    rewrite drop_nil in Hd'. destruct (IH Hne d' Hd') as [d2 ->]. by exists d2.
Qed.
End Decode.

(** A decoder for the statement of witnesses: no compression is decoded. *)
#[local] Instance no_decoders : Decoders := {|
  decoder := unit;
  decoder_new _ := ();
  decoder_read _ _ f := (Err (OtherError "unsupported"), ((), f));
|}.

Lemma export_file_is_body_witness :
  let w := {| written := []; write_fails := None; flush_fails := None |} in
  let pieces := [[x61; x0a; x62]; []; [x0a]] in
  write_decoded 2 4 pieces ExportQuery.Uncompressed w
  = (Ok 2, {| written := [x61; x0a; x62; x0a]; write_fails := None; flush_fails := None |}).
Proof.
  intros w pieces. destruct (export_file_is_body 2 4 pieces w) as [E _].
  - lia.
  - repeat constructor; cbn; lia.
  - apply E. by split.
Defined.

(** ** The relay *)
(** The consumer sees the body's first pieces, whenever it stops taking them. *)
Lemma relay_prefix discarding pieces :
  relay_pieces discarding pieces `prefix_of` (pieces.*1).
Proof.
  assert (∀ ps, relay_pieces true ps = []) as Hd by (induction ps as [|[? ?] ps]; done).
  revert discarding. induction pieces as [|[p []] pieces IH]; intros [|]; cbn;
    rewrite ?Hd; try apply prefix_nil. apply prefix_cons, IH.
Qed.
