(* ===== verification/TunnelWitness.v ===== *)
(** * The data tunnel at concrete inputs

    A peer on a socket that never fails, and the theorems of the data tunnel and of the CSV
    import and export applied to what it sends. *)
From S2P Require Import Prelude MachineInt RustStr StrText Errors HttpWire Effect Json Messages.
From S2P Require Import Lifecycle Tls HttpTunnel HttpClient HttpRuns HttpBodies TunnelStates.
From S2P Require Import Csv CsvImport CsvStream ParallelImport.
From S2P Require ImportQuery.
From Stdlib Require Import Ascii.

#[local] Open Scope Z_scope.

(** ** The platform *)
Definition unbounded_clock : Clock := λ _, true.
Definition ascii_only : UnicodeCase := {| unicode_uppercase s := s; unicode_lowercase s := s |}.

(** The bytes of a response packet: 4 + 4 bytes, the address, the port. *)
Definition response_packet : list byte :=
  [x02; x02; x02; x02; x43; x22; x00; x00] ++
  take 16 (as_bytes "10.0.0.1" ++ replicate 16 x00).

Definition calm : Network := {|
  io_delay _ := 1%nat; connect_delay := 5%nat;
  tcp_connect _ := inl {| inbound := response_packet; sent := [] |};
  nodelay_error _ := None; write_error _ _ := None; flush_error _ := None;
  read_error := "early eof";
|}.

Definition easy_tls : TunnelNetwork := {|
  read_some _ n := inl n; shutdown_error _ := None; accept_delay _ := 3%nat;
  tls_accept _ k := inl k;
|}.

Definition one_certificate : CertLib := {|
  key_pair n := inl ([x30; x01], [x30; x02]); certificate_params_error _ := None;
  self_signed _ := inl [x30; x03]; private_key_error _ := None;
  server_config_error _ _ := None;
|}.

Definition no_digest : FingerprintLib := {| sha2_256 _ := []; base64_standard _ := "AA=" |}.
Definition prompt : Consumer := λ _, 2%nat.
Definition plain_files : FileIo := {|
  seek_error _ := None; file_error _ := None; file_eof := "failed to fill whole buffer" |}.

(** An encoder that gives every piece back, and fails on one that is no vector. *)
Definition copying : Encoders := {|
  encoder := unit;
  encoder_new _ := ();
  encoder_write e p :=
    if decide (Z.of_nat (length p) ≤ imax USize) then inl (p, e) else inr "too large"%string;
  encoder_finish _ := inl [];
|}.

#[local] Existing Instances unbounded_clock ascii_only calm easy_tls one_certificate no_digest
  prompt plain_files copying.

#[local] Instance copying_laws : EncoderLaws copying.
Proof.
  refine {| decode _ bs := Some bs |}; [done|..].
  - intros c pieces bodies e last Hp Hl.
    assert (∀ e0, encode_pieces e0 pieces = (bodies, Ok e) → concat bodies = concat pieces) as Hc.
    { clear Hp. revert bodies. induction pieces as [|p ps IH]; intros bodies e0; cbn [encode_pieces].
      { by intros [= <- _]. }
      destruct e0 as [e0|]; cbn [encode_piece].
      - unfold StreamEncoder_write. cbn. case_decide; [|done]. cbn.
        destruct (encode_pieces _ ps) as [bs o] eqn:E. intros [= <- ->]. cbn. f_equal. by eapply IH.
      - destruct (encode_pieces _ ps) as [bs o] eqn:E. intros [= <- ->]. cbn. f_equal. by eapply IH. }
    assert (last = []) as ->.
    { destruct e; cbn in Hl; [unfold StreamEncoder_finish in Hl; cbn in Hl|]; by injection Hl. }
    rewrite app_nil_r. f_equal. by eapply Hc.
  - intros [] p body []. cbn. case_decide; [|done]. by intros [= <-].
  - intros [] body. cbn. by intros [= <-].
Defined.

Lemma copying_works : encoders_work.
Proof.
  split; [|by eexists]. intros e p Hp. cbn [encoder_write copying].
  rewrite decide_True; [by eexists|]. unfold DEFAULT_BUFFER_SIZE in Hp.
  change (imax USize) with 18446744073709551615. lia.
Qed.

(** ** Requests *)
Definition quiet : World := {| now := 0; cutoff := None; draws := 0 |}.
Definition the_socket_with (bytes : list byte) : Socket := {| inbound := bytes; sent := [] |}.
Definition open_client (bytes : list byte) : HttpTransportClient :=
  {| stream := Open (PlainIo (the_socket_with bytes)); internal_addr := "10.0.0.1:8563";
     tls_certificate := None |}.

Definition put_headers : list (string * string) := [("Transfer-Encoding", "chunked")]%string.
Definition two_chunks : list (string * list byte) := [("2", [x61; x0a]); ("1", [x62])]%string.

Lemma calm_writes : pure_write.
Proof. by split. Qed.

Lemma graphic_header n v : header_ok (n, v) ↔ bool_decide (valid_str (header_line (n, v))) &&
  negb (contains_char cr (header_line (n, v))) && negb (contains_char ":"%char n) && graphic_ends n &&
  graphic_ends v = true.
Proof.
  unfold header_ok, line_ok. cbn [fst snd].
  rewrite !andb_true_iff, !negb_true_iff, bool_decide_eq_true. tauto.
Qed.

Lemma export_body_delivered_witness :
  let bytes := request_bytes Put "/1" put_headers ++ chunked_bytes two_chunks "0" in
  let sink := {| delivered := []; room := None |} in
  ∃ w' k', (handle_export_request (quiet, (open_client bytes, sink))).2
    = (w', (on (open_client bytes) (PlainIo (the_socket_with bytes))
              (put (the_socket_with []) build_ok_response), k')) ∧
    concat (delivered k') = [x61; x0a; x62].
Proof.
  intros bytes sink.
  assert (Forall header_ok put_headers) as Hh by (repeat constructor; by apply graphic_header).
  assert (∀ l n, bool_decide (valid_str l) && negb (contains_char cr l) = true →
    parse_chunk_size l = Ok n → size_line l n) as Hl.
  { intros l n [?%bool_decide_eq_true ?%negb_true_iff]%andb_true_iff. by repeat split. }
  destruct (export_body_delivered (open_client bytes) (PlainIo (the_socket_with bytes)) sink
    "/1" put_headers (chunked_bytes two_chunks "0") (body_of two_chunks) (pieces_of two_chunks) [])
    as (He & Hd & Hc & _).
  - done.
  - apply calm_writes.
  - by left.
  - by split.
  - exact Hh.
  - apply chunked_body; [reflexivity| |by apply Hl].
    repeat constructor; cbn; try done; by apply Hl.
  - by rewrite app_nil_r.
  - destruct (He quiet eq_refl) as (w' & E & _). rewrite E. do 2 eexists. split; [reflexivity|].
    rewrite Hd. exact Hc.
Defined.

(** A size probe, a range and a plain request; then the peer closes. *)
Lemma parquet_served_witness :
  let file := [x50; x41; x52; x31] in
  let f := {| file_at _ := file; position := 0 |} in
  let rs := [{| fr_head := true; fr_path := "/f"; fr_headers := [] |};
             {| fr_head := false; fr_path := "/f"; fr_headers := [("Range", "bytes=1-9")%string] |};
             {| fr_head := false; fr_path := "/f"; fr_headers := [] |}] in
  let bytes := concat (fr_bytes <$> rs) in
  answer file <$> rs = as_bytes <$> [
    "HTTP/1.1 200 OK" +:+ crlf +:+ "Content-Length: 4" +:+ crlf +:+ crlf;
    "HTTP/1.1 206 Partial Content" +:+ crlf +:+ "Content-Length: 3" +:+ crlf +:+
      "Content-Range: bytes 1-3/4" +:+ crlf +:+ crlf +:+ "AR1";
    "HTTP/1.1 200 OK" +:+ crlf +:+ "Content-Length: 4" +:+ crlf +:+ crlf +:+ "PAR1"]%string ∧
  ∃ x', ends (handle_parquet_import_requests f)
          (open_client bytes, {| source := f; file_len := 0 |}) (Ok ())
          (on (open_client bytes) (PlainIo (the_socket_with bytes))
             (put (the_socket_with []) (concat (answer file <$> rs))), x').
Proof.
  intros file f rs bytes. split; [reflexivity|].
  destruct (parquet_served f file (open_client bytes) (PlainIo (the_socket_with bytes))
    {| source := f; file_len := 0 |} rs [] [] [] (Ok ())) as [x' Hx].
  - done.
  - apply calm_writes.
  - by left.
  - by repeat split.
  - repeat constructor; try done; by apply graphic_header.
  - apply peer_closes.
  - by rewrite app_nil_r.
  - exists x'. rewrite app_nil_r in Hx. exact Hx.
Defined.

(** A TLS tunnel that is written to. *)
Lemma tls_tunnel_private_witness :
  ∃ c s', connect_with_timeout "localhost" 8563 true 1000 (quiet, ()) = (Ok c, s') ∧
    let c' := (write [x61] (quiet, (c, ()))).2.2.1 in
    public_key_fingerprint c' = Some "sha256//AA="%string ∧
    stream c' = Open (TlsIo {| inbound := []; sent := generate_magic_packet ++ [x61] |}).
Proof.
  do 2 eexists. split; [vm_compute; reflexivity|]. cbv zeta.
  match goal with |- context [write [x61] (quiet, (?c, ()))] => set (c0 := c) end.
  destruct (tls_tunnel_private "localhost" 8563 1000 quiet () c0
    (connect_with_timeout "localhost" 8563 true 1000 (quiet, ())).2
    (write [x61] (quiet, (c0, ()))).2.2.1) as [Hf _].
  - vm_compute. reflexivity.
  - apply rtc_once. apply (op_write unit () quiet c0 [x61]).
  - split; [rewrite Hf|]; vm_compute; reflexivity.
Defined.

Lemma import_body_complete_witness :
  let r := {| reads := [[x61; x0a]; [x62]]; fails := None |} in
  let bytes := request_bytes Get "/1" [] in
  ∃ body, ends (stream_file_to_connection r ImportQuery.Gzip) (open_client bytes, ()) (Ok ())
      (on (open_client bytes) (PlainIo (the_socket_with bytes))
         (put (the_socket_with []) (build_chunked_response_headers ++ body)), ()) ∧
    reads_whole body [x61; x0a; x62].
Proof.
  intros r bytes.
  destruct (import_body_complete (open_client bytes) (PlainIo (the_socket_with bytes)) ()
    r ImportQuery.Gzip "/1" [] []) as (body & o & He & Hb & Hok).
  - done.
  - apply calm_writes.
  - by left.
  - by split.
  - constructor.
  - by repeat constructor.
  - by rewrite app_nil_r.
  - exists body. rewrite (Hok eq_refl copying_works) in *. split; [exact He|].
    destruct Hb as [(_ & _ & data & Hd & [= <-])|(? & ? & _)]; [exact Hd|done].
Defined.

(** ** Imports of several files *)
#[local] Instance plain_join_errors : JoinErrors := λ _ c,
  if c : bool then "task was cancelled" else "task panicked".

(** The second stream fails while the first one waits. *)
Definition one_fails : list (task_end unit) :=
  [Returned (inl ()); Returned (inr (ImportIoError "unreadable"))].

Definition rejected : ImportRun := {|
  tasks := [Aborting; Ended (Returned (inr (ImportIoError "unreadable")))];
  joins := [0; 1]%nat;
  tunnel := Some (Returned (inr (ParallelImportError "Stream 1 failed: IO error: unreadable")));
  statement := Some (inr "connection lost"%string);
  result := Some (inr (ParallelImportError "Stream 1 failed: IO error: unreadable"));
|}.

Lemma import_settles_witness :
  reached one_fails rejected ∧ tasks rejected !! 0%nat ≠ Some Running ∧
  ∃ i, stream_failed one_fails i (ParallelImportError "Stream 1 failed: IO error: unreadable").
Proof.
  assert (reached one_fails rejected) as Hr.
  { apply (run_reached one_fails
      [TaskEnds 1; JoinNext 1; StatementReturns (inr "connection lost"%string); ImportReturns]).
    vm_compute. reflexivity. }
  destruct (import_settles one_fails rejected _ Hr eq_refl) as [Hrun [Hf|(m & _ & He & _)]];
    [|discriminate He].
  split; [exact Hr|]. split; [apply Hrun|exact Hf].
Defined.

Definition statement_failed : ImportRun := {|
  tasks := [Running; Running]; joins := [0; 1]%nat; tunnel := None;
  statement := Some (inr "syntax error"%string); result := None;
|}.

Lemma import_returns_witness :
  reached one_fails statement_failed ∧
  ∃ ev s', driver_event ev ∧ import_step one_fails ev statement_failed = Some s'.
Proof.
  assert (reached one_fails statement_failed) as Hr.
  { apply (run_reached one_fails [StatementReturns (inr "syntax error"%string)]).
    vm_compute. reflexivity. }
  split; [exact Hr|].
  apply (import_returns one_fails statement_failed Hr); [done|]. left. by eexists.
Defined.

(** Two files of which the second is streamed first. *)
Definition second_file : OpenedCsvFile :=
  {| csv_path := "b.csv"; csv_reader := {| reads := [[x63]]; fails := None |};
     csv_compression := ImportQuery.Gzip |}.
Definition two_files : list OpenedCsvFile := [
  {| csv_path := "a.csv"; csv_reader := {| reads := [[x61; x0a]; [x62]]; fails := None |};
     csv_compression := ImportQuery.Uncompressed |};
  second_file ].
Definition get_request : list byte := request_bytes Get "/001.csv" [].
Definition both_sent : ImportRun := {|
  tasks := [Ended (Returned (inl ())); Ended (Returned (inl ()))]; joins := [];
  tunnel := Some (Returned (inl ())); statement := Some (inl 3); result := Some (inl 3);
|}.

Lemma files_sent_whole_witness :
  let c := open_client get_request in
  csv_tasks (λ _, quiet) [c; c] two_files = inl [Returned (inl ()); Returned (inl ())] ∧
  ∃ w' body data,
    stream_named_file second_file (quiet, (c, ())) =
      (Ok (), (w', (on c (PlainIo (the_socket_with get_request))
                      (put (the_socket_with []) (build_chunked_response_headers ++ body)), ()))) ∧
    reads_whole body data ∧ decode ImportQuery.Gzip data = Some [x63].
Proof.
  intros c.
  assert (csv_tasks (λ _, quiet) [c; c] two_files = inl [Returned (inl ()); Returned (inl ())]) as Ht
    by (vm_compute; reflexivity).
  split; [exact Ht|].
  destruct (files_sent_whole (λ _, quiet) [c; c] two_files
    (λ _, PlainIo (the_socket_with get_request)) (λ _, []) [Returned (inl ()); Returned (inl ())] both_sent 3) as (_ & _ & Hfiles).
  - done.
  - apply calm_writes.
  - done.
  - exact Ht.
  - intros i c' f Hc Hf.
    assert (c' = c) as -> by (destruct i as [|[|]]; [| |done]; injection Hc; done).
    split; [split; [by left|]|].
    + exists "/001.csv"%string, []. split; [by split|]. split; [constructor|by rewrite app_nil_r].
    + destruct i as [|[|]]; [| |done]; injection Hf as <-; by repeat constructor.
  - apply (run_reached _ [TaskEnds 1; JoinNext 1; StatementReturns (inl 3); TaskEnds 0; JoinNext 0;
                          AllJoined; ImportReturns]).
    vm_compute. reflexivity.
  - done.
  - destruct (Hfiles 1%nat c second_file eq_refl eq_refl)
      as [_ (w' & body & data & Hrun & Hbody & Hdec)].
    exists w', body, data. split; [exact Hrun|]. split; [exact Hbody|exact Hdec].
Defined.

(** ** CSV text *)
Lemma comma_and_quote : csv_ok "," "'".
Proof. by split. Qed.

Lemma csv_reads_back_witness :
  parse_csv "," "'" (String.concat "" ((λ row, format_csv_row "," "'" row ImportQuery.CRLF) <$>
    [["a,b"; "it's"; ""]; ["x"]]%string)) = Ok [["a,b"; "it's"; ""]; ["x"]]%string.
Proof.
  rewrite (csv_reads_back "," "'" ImportQuery.CRLF _ comma_and_quote); [reflexivity|].
  repeat constructor.
Defined.

Lemma csv_readers_agree_witness :
  (next_row "," "'" (csv_rows "a,'b,c'")).1 = Some (Ok ["a"; "b,c"]%string) ∧
  (next_row "," "'" (csv_rows "a,'b,c")).1 = Some (Err 0%nat).
Proof.
  split; [apply (csv_readers_agree "," "'" "a,'b,c'")|apply (csv_readers_agree "," "'" "a,'b,c")];
    done.
Defined.
