(* ===== verification/RowMajor.v ===== *)
(** * Row-major results

    [transport/deserialize.rs]: the columns of a JSON result become rows while they are
    read, and the rows are the transposed columns, padded with nulls. *)
From S2P Require Import Prelude MachineInt RustStr Json.

(** serde's error for a value of another type than the visitor expects. *)
Class SerdeErrors `{SerdeJson} := invalid_type : json → string → string.

Section Deserialize.
Context `{SerdeErrors}.

(** The values of one column go to the rows from [row_idx] on. *)
(* code: transport/deserialize.rs 166-186 ColumnVisitor::visit_seq *)
Fixpoint push_values (col_idx row_idx : nat) (values : list json) (rows : list (list json))
    : list (list json) * nat :=
  match values with
  | [] => (rows, row_idx)
  | value :: values =>
    let rows :=
      if (col_idx =? 0)%nat then rows ++ [[value]]
      else match rows !! row_idx with
           | Some row => <[row_idx := row ++ [value]]> rows
           | None => rows ++ [replicate col_idx JNull ++ [value]]
           end in
    push_values col_idx (S row_idx) values rows
  end.

(* code: transport/deserialize.rs 188-192 ColumnVisitor::visit_seq *)
Definition pad_rows (row_idx : nat) (rows : list (list json)) : list (list json) :=
  imap (λ i row, if (i <? row_idx)%nat then row else row ++ [JNull]) rows.

(* code: transport/deserialize.rs 162-195 ColumnVisitor::visit_seq *)
Definition visit_column (col_idx : nat) (rows : list (list json)) (values : list json)
    : list (list json) :=
  let '(rows, row_idx) := push_values col_idx 0 values rows in pad_rows row_idx rows.

(* code: transport/deserialize.rs 134-142 ColumnSeed::deserialize *)
Definition column_seed (col_idx : nat) (rows : list (list json)) (column : json)
    : outcome string (list (list json)) :=
  match column with
  | JArray values => Ok (visit_column col_idx rows values)
  | v => Err (invalid_type v "array of column values")
  end.

(* code: transport/deserialize.rs 100-118 DataVisitor::visit_seq *)
Fixpoint visit_columns (col_idx : nat) (rows : list (list json)) (columns : list json)
    : outcome string (list (list json)) :=
  match columns with
  | [] => Ok rows
  | column :: columns =>
    rows ← column_seed col_idx rows column;
    visit_columns (S col_idx) rows columns
  end.

(* code: transport/deserialize.rs 38-43 to_row_major *)
Definition to_row_major (v : json) : outcome string (list (list json)) :=
  match v with
  | JArray columns => visit_columns 0 [] columns
  | v => Err (invalid_type v "column-major data array")
  end.

(* code: transport/deserialize.rs 48-85 to_row_major_option *)
Definition to_row_major_option (v : json) : outcome string (option (list (list json))) :=
  match v with
  | JNull => Ok None
  | v => Some <$> to_row_major v
  end.

(** ** The reference: the transposed columns *)
Definition row_at (columns : list (list json)) (i : nat) : list json :=
  (λ column, default JNull (column !! i)) <$> columns.

Definition height (columns : list (list json)) : nat := max_list (length <$> columns).

Definition transposed (columns : list (list json)) : list (list json) :=
  row_at columns <$> seq 0 (height columns).

Lemma push_values_rows col_idx row_idx values rows :
  col_idx ≠ O → row_idx ≤ length rows →
  let '(rows', row_idx') := push_values col_idx row_idx values rows in
  row_idx' = (row_idx + length values)%nat ∧ length rows' = Nat.max (length rows) row_idx' ∧
  ∀ i, rows' !! i =
    if decide (row_idx ≤ i < row_idx') then
      Some (default (replicate col_idx JNull) (rows !! i) ++
            [default JNull (values !! (i - row_idx)%nat)])
    else rows !! i.
Proof.
  intros Hc. revert row_idx rows. induction values as [|v values IH]; intros row_idx rows Hr.
  { cbn [push_values length]. split_and!; [lia|lia|]. intros i. by rewrite decide_False by lia. }
  cbn [push_values length]. rewrite (proj2 (Nat.eqb_neq _ _)) by done.
  set (rows1 := match rows !! row_idx with Some _ => _ | None => _ end).
  assert (length rows1 = Nat.max (length rows) (S row_idx) ∧
    ∀ i, rows1 !! i = if decide (i = row_idx) then
      Some (default (replicate col_idx JNull) (rows !! i) ++ [v]) else rows !! i) as [Hl Hi].
  { subst rows1. destruct (rows !! row_idx) as [row|] eqn:E.
    - apply lookup_lt_Some in E as Hlt. split; [rewrite length_insert; lia|].
      intros i. case_decide as Hd; [subst i; by rewrite list_lookup_insert_eq, E by done|].
      by rewrite list_lookup_insert_ne.
    - apply lookup_ge_None in E as Hge. assert (row_idx = length rows) as -> by lia.
      split; [rewrite length_app; cbn; lia|]. intros i.
      case_decide as Hd; [subst i; by rewrite lookup_app_r, Nat.sub_diag, E by done|].
      destruct (decide (i < length rows)) as [?|?]; [by rewrite lookup_app_l|].
      rewrite !(proj2 (lookup_ge_None _ _)); [done|lia|rewrite length_app; cbn; lia]. }
  specialize (IH (S row_idx) rows1 ltac:(lia)). destruct (push_values _ _ _ _) as [rows2 r2].
  destruct IH as (-> & Hl2 & Hi2). split_and!; [lia|lia|]. intros i. rewrite Hi2, Hi.
  destruct (decide (i = row_idx)) as [->|Hne].
  - rewrite decide_False, decide_True, Nat.sub_diag by lia. done.
  - case_decide as H1.
    + rewrite decide_True by lia. replace (i - row_idx)%nat with (S (i - S row_idx)) by lia. done.
    + by rewrite decide_False by lia.
Qed.

(** The first column makes the rows. *)
Lemma push_first_rows row_idx values rows :
  push_values 0 row_idx values rows
  = (rows ++ ((λ v, [v]) <$> values), (row_idx + length values)%nat).
Proof.
  revert row_idx rows. induction values as [|v values IH]; intros row_idx rows; cbn [push_values].
  - by rewrite app_nil_r, Nat.add_0_r.
  - cbn [Nat.eqb]. rewrite IH, <- app_assoc. cbn. by rewrite Nat.add_succ_r.
Qed.

Lemma height_snoc columns column :
  height (columns ++ [column]) = Nat.max (height columns) (length column).
Proof. unfold height. rewrite fmap_app. induction columns as [|c cs IH]; cbn in *; lia. Qed.

Lemma row_at_snoc columns column i :
  row_at (columns ++ [column]) i = row_at columns i ++ [default JNull (column !! i)].
Proof. unfold row_at. by rewrite fmap_app. Qed.

Lemma row_at_beyond columns i :
  height columns ≤ i → row_at columns i = replicate (length columns) JNull.
Proof.
  unfold height, row_at. induction columns as [|c cs IH]; intros Hi; cbn in *; [done|].
  rewrite (proj2 (lookup_ge_None c i)) by lia. cbn. f_equal. apply IH. lia.
Qed.

Lemma length_transposed columns : length (transposed columns) = height columns.
Proof. unfold transposed. by rewrite length_fmap, length_seq. Qed.

Lemma transposed_lookup columns i :
  transposed columns !! i = if decide (i < height columns) then Some (row_at columns i) else None.
Proof.
  unfold transposed. rewrite list_lookup_fmap. case_decide as Hi.
  - by rewrite lookup_seq_lt by done.
  - by rewrite lookup_seq_ge by lia.
Qed.

Lemma pad_rows_lookup n rows i :
  pad_rows n rows !! i
  = (λ row, if (i <? n)%nat then row else row ++ [JNull]) <$> rows !! i.
Proof. unfold pad_rows. apply list_lookup_imap. Qed.

Lemma visit_column_transposed columns column :
  visit_column (length columns) (transposed columns) column = transposed (columns ++ [column]).
Proof.
  unfold visit_column. apply list_eq. intros i. rewrite transposed_lookup, height_snoc, row_at_snoc.
  destruct columns as [|c cs].
  { rewrite push_first_rows, pad_rows_lookup. cbn [length transposed height fmap list_fmap max_list
      foldr seq app Nat.add]. rewrite list_lookup_fmap. change (Nat.max 0 (length column)) with (length column).
    case_decide as Hi.
    - destruct (lookup_lt_is_Some_2 column i Hi) as [v Hv]. rewrite Hv. cbn [fmap option_fmap option_map].
      by rewrite (proj2 (Nat.ltb_lt _ _)).
    - by rewrite (proj2 (lookup_ge_None column i)) by lia. }
  set (columns := c :: cs) in *.
  pose proof (push_values_rows (length columns) 0 column (transposed columns) ltac:(done) ltac:(lia))
    as Hp.
  destruct (push_values _ _ _ _) as [rows n]. destruct Hp as (-> & Hl & Hi).
  cbn [Nat.add] in *. rewrite pad_rows_lookup, Hi, transposed_lookup, Nat.sub_0_r.
  destruct (decide (i < length column)) as [Hc|Hc].
  - rewrite (decide_True _ _ (conj (Nat.le_0_l i) Hc)), (proj2 (Nat.ltb_lt _ _)) by done.
    rewrite (decide_True (P := i < Nat.max _ _)) by lia. cbn [fmap option_fmap option_map].
    case_decide as Hh; [done|]. cbn [default]. by rewrite row_at_beyond by lia.
  - rewrite (decide_False (P := 0 ≤ i < length column)) by lia.
    rewrite (proj2 (Nat.ltb_ge _ _)), (proj2 (lookup_ge_None column i)) by lia.
    case_decide as Hh; [by rewrite decide_True by lia|by rewrite decide_False by lia].
Qed.

Lemma visit_columns_transposed before columns :
  visit_columns (length before) (transposed before) (JArray <$> columns)
  = Ok (transposed (before ++ columns)).
Proof.
  revert before. induction columns as [|c cs IH]; intros before; cbn.
  - by rewrite app_nil_r.
  - rewrite visit_column_transposed. specialize (IH (before ++ [c])).
    rewrite length_app, Nat.add_comm, <- app_assoc in IH. exact IH.
Qed.

(** The deserialiser of JSON results gives exactly the transposed columns, in one pass:
    row [i] holds the [i]-th value of every column, and null for a column that ends before
    the longest one; it refuses everything that is not an array of arrays, and reads null
    where the data are optional. *)
Theorem to_row_major_transposes :
  (∀ columns, to_row_major (JArray (JArray <$> columns)) = Ok (transposed columns) ∧
    to_row_major_option (JArray (JArray <$> columns)) = Ok (Some (transposed columns))) ∧
  (∀ columns i j row column, transposed columns !! i = Some row → columns !! j = Some column →
    row !! j = Some (default JNull (column !! i))) ∧
  (∀ vs rows, to_row_major (JArray vs) = Ok rows → ∃ columns, vs = JArray <$> columns) ∧
  to_row_major_option JNull = Ok None.
Proof.
  assert (∀ columns, to_row_major (JArray (JArray <$> columns)) = Ok (transposed columns)) as Ht
    by (intros columns; apply (visit_columns_transposed [] columns)).
  split_and!; [|..|done].
  - intros columns. split; [apply Ht|]. cbn [to_row_major_option]. by rewrite Ht.
  - intros columns i j row column Hi Hj. rewrite transposed_lookup in Hi. case_decide; [|done].
    injection Hi as <-. unfold row_at. by rewrite list_lookup_fmap, Hj.
  - intros vs rows. cbn [to_row_major]. generalize O, (@nil (list json)).
    induction vs as [|v vs IH]; intros n rs; [by exists []|]. cbn [visit_columns].
    destruct v as [| | | |values|]; try done. cbn. intros E. apply IH in E as [columns ->].
    by exists (values :: columns).
Qed.
End Deserialize.
