(* ===== verification/ArrayBuilders.v ===== *)
(** * Arrays from JSON values

    [arrow_conversion/builders.rs]: the strict builders, which turn the JSON values of one
    column into the cells of an Arrow array and report the first value that does not fit,
    with the context that [error.rs] adds to it. Running out of memory is not modelled: the
    capacities that the builders ask for are computed, and that they are granted is not a
    question of this code. The schema of a result set, which the builders follow, comes
    last. *)
From S2P Require Import Prelude MachineInt RustStr StrText Float64 Json ExasolTypes DateTime.
From S2P Require Import Interval HttpWire ResultParser.
From S2P Require Statement.
From Stdlib Require Import Ascii.

#[local] Open Scope Z_scope.

(** serde_json's [Debug] text of a value, arrow's [Display] text of a type, and the error of
    arrow's decimal builder for a precision and a scale. *)
Class ColumnText `{SerdeJson} := {
  json_debug : json → string;
  display_arrow_type : ArrowType → string;
  precision_scale_error : Z → Z → option string;
}.

(* code: error.rs 160-174 ColumnConversionError *)
Inductive ColumnConversionError :=
| ValueError (row : nat) (reason : string) (overflow : bool)
| OtherError (error : ConversionError).

(* code: error.rs 177-183 ColumnConversionError::invalid_value *)
Definition invalid_value (row : nat) (reason : string) : ColumnConversionError :=
  ValueError row reason false.

(* code: error.rs 185-191 ColumnConversionError::overflow *)
Definition overflow_at (row : nat) (reason : string) : ColumnConversionError :=
  ValueError row reason true.

Section Builders.
Context `{ColumnText, Statement.ParameterText, PowI, BuildProfile}.

(* code: error.rs 196-237 ColumnConversionError::into_conversion_error *)
Definition into_conversion_error (column : nat) (column_name : string) (values : list json)
    (target_type : ArrowType) (e : ColumnConversionError) : ConversionError :=
  match e with
  | OtherError error => error
  | ValueError row reason overflow =>
    let value := json_display (default JNull (values !! row)) in
    let target_type := display_arrow_type target_type in
    if overflow then NumericOverflow row column column_name value target_type reason
    else ValueConversionFailed row column column_name value target_type reason
  end.

Abbreviation cell := (outcome ColumnConversionError (option Cell)).
Abbreviation array := (outcome ColumnConversionError (list (option Cell))).

(** The loop over the values with their rows; the first error ends it. *)
Definition each_row (f : nat → json → cell) (values : list json) : array :=
  mapM (λ '(row, value), f row value) (imap pair values).

(** A value of a builder: null, or what [read] makes of it. *)
Definition or_null (read : nat → json → outcome ColumnConversionError Cell)
    (row : nat) (value : json) : cell :=
  if json_is_null value then Ok None else Some <$> read row value.

Definition expected {A} (what : string) (row : nat) (value : json)
    : outcome ColumnConversionError A :=
  Err (invalid_value row ("Expected " +:+ what +:+ ", got: " +:+ json_debug value)).

(** A value that must be a string. *)
Definition from_str (what : string) (read : nat → string → outcome ColumnConversionError Cell)
    (row : nat) (value : json) : outcome ColumnConversionError Cell :=
  match json_as_str value with
  | Some s => read row s
  | None => expected what row value
  end.

(* code: arrow_conversion/builders.rs 80-97 build_boolean_array *)
Definition build_boolean_array : list json → array :=
  each_row (or_null (λ row value,
    match json_as_bool value with
    | Some b => Ok (CBoolean b)
    | None => expected "boolean" row value
    end)).

(** [as_str] lengths of the first ten values. *)
Definition sample_lengths (values : list json) : list Z :=
  omap (λ v, (λ s, Z.of_nat (str_len s)) <$> json_as_str v) (take 10 values).

(* code: arrow_conversion/builders.rs 99-117 estimate_string_capacity *)
Definition estimate_string_capacity {E} (values : list json) : outcome E Z :=
  let lengths := sample_lengths values in
  let average := match lengths with
                 | [] => 32
                 | _ => foldr Z.add 0 lengths / Z.of_nat (length lengths) + 8
                 end in
  arith USize (average * Z.of_nat (length values)).

(* code: arrow_conversion/builders.rs 119-139 build_string_array *)
Definition build_string_array (values : list json) : array :=
  _ ← estimate_string_capacity values;
  each_row (or_null (from_str "string" (λ _ s, Ok (CUtf8 s)))) values.

Definition digits_of (s : string) : list ascii := filter (λ a, is_digit a = true) (String.list_ascii_of_string s).

Fixpoint skip_zeros (digits : list ascii) : list ascii :=
  match digits with
  | a :: r => if Ascii.eqb a "0" then skip_zeros r else digits
  | [] => []
  end.

(* code: arrow_conversion/builders.rs 154-192 validate_decimal_precision *)
Definition validate_decimal_precision (value_str : string) (precision : Z) (row : nat)
    : outcome ColumnConversionError unit :=
  let digits := digits_of value_str in
  let total_digits := Z.of_nat (length digits) in
  let significant_count := match skip_zeros digits with
                           | [] => 1
                           | digits => Z.of_nat (length digits)
                           end in
  if precision <? significant_count then
    Err (overflow_at row (show_nat significant_count +:+ " significant digits exceed precision "
                          +:+ show_nat precision))
  else if precision + 1 <? total_digits then
    Err (overflow_at row (show_nat total_digits +:+ " digits exceed precision "
                          +:+ show_nat precision))
  else Ok ().

(* code: arrow_conversion/builders.rs 216-248 parse_decimal_to_i128 *)
Definition json_decimal_to_i128 (precision scale : Z) (row : nat) (value : json)
    : outcome ColumnConversionError Z :=
  match json_as_i64 value with
  | Some n => power ← arith I128 (10 ^ wrap U32 scale); arith I128 (n * power)
  | None =>
    match json_as_f64 value with
    | Some bits =>
      let scaled := f64_round (f64_mul (f64_decode bits) (powi10 scale)) in
      ok_or (overflow_at row "Value does not fit in 128 bits") (parse_int I128 (Statement.show_f64 scaled))
    | None =>
      match json_as_str value with
      | None => expected "numeric value" row value
      | Some value_str =>
        _ ← validate_decimal_precision value_str precision row;
        map_err (invalid_value row) (parse_decimal_to_i128 value_str scale)
      end
    end
  end.

(* code: arrow_conversion/builders.rs 194-213 build_decimal128_array *)
Definition build_decimal128_array (values : list json) (precision scale : Z) : array :=
  match precision_scale_error precision scale with
  | Some e => Err (OtherError (ConversionArrowError e))
  | None =>
    each_row (or_null (λ row value,
      CDecimal128 <$> json_decimal_to_i128 precision scale row value)) values
  end.

(** The bits of [f64::INFINITY], [f64::NEG_INFINITY] and [f64::NAN]. *)
Definition named_f64 (s : string) : option Z :=
  if String.eqb s "Infinity" then Some 0x7FF0000000000000
  else if String.eqb s "-Infinity" then Some 0xFFF0000000000000
  else if String.eqb s "NaN" then Some 0x7FF8000000000000
  else None.

(* code: arrow_conversion/builders.rs 250-280 build_double_array *)
Definition build_double_array : list json → array :=
  each_row (or_null (λ row value,
    match json_as_f64 value with
    | Some f => Ok (CFloat64 f)
    | None =>
      match json_as_i64 value with
      | Some i => Ok (CFloat64 (f64_encode (f64_of_int i)))
      | None =>
        match json_as_str value with
        | Some s =>
          match named_f64 s with
          | Some f => Ok (CFloat64 f)
          | None => f ← ok_or (invalid_value row ("Invalid float value: " +:+ s)) (parse_f64 s);
                    Ok (CFloat64 f)
          end
        | None => expected "number" row value
        end
      end
    end)).

(* code: arrow_conversion/builders.rs 282-306 build_date_array *)
Definition build_date_array : list json → array :=
  each_row (or_null (from_str "date string" (λ row s,
    CDate32 <$> map_err (invalid_value row) (parse_date_to_days s)))).

(** The time zone is the array's type, not in its cells. *)
(* code: arrow_conversion/builders.rs 308-344 build_timestamp_array *)
Definition build_timestamp_array : list json → array :=
  each_row (or_null (from_str "timestamp string" (λ row s,
    CTimestamp <$> map_err (invalid_value row) (parse_timestamp_to_micros s)))).

(* code: arrow_conversion/builders.rs 346-365 build_interval_array *)
Definition build_interval_array : list json → array :=
  each_row (or_null (from_str "interval string" (λ row s,
    CInterval <$> map_err (invalid_value row) (parse_interval s)))).

(* code: arrow_conversion/builders.rs 412-415 decode_hex *)
Definition hex_byte (s : string) (i : nat) : outcome unit byte :=
  pair ← str_slice i (i + 2) s;
  byte_of <$> map_err (λ _, ()) (from_str_radix_16 U8 pair).

(* code: arrow_conversion/builders.rs 407-416 decode_hex *)
Definition decode_hex (s : string) : outcome unit (list byte) :=
  if Nat.odd (str_len s) then Err ()
  else mapM (λ k, hex_byte s (2 * k)) (seq 0 (str_len s / 2)).

(* code: arrow_conversion/builders.rs 368-384 build_binary_array *)
Definition estimate_binary_capacity {E} (values : list json) : outcome E Z :=
  let sample_total := foldr Z.add 0 ((λ n, n / 2) <$> sample_lengths values) in
  let average := match take 10 values with
                 | [] => 32
                 | sample => Z.max 1 (sample_total / Z.of_nat (length sample))
                 end in
  arith USize (average * Z.of_nat (length values)).

(* code: arrow_conversion/builders.rs 367-404 build_binary_array *)
Definition build_binary_array (values : list json) : array :=
  _ ← estimate_binary_capacity values;
  each_row (or_null (from_str "hex string" (λ row s,
    CBinary <$> map_err (λ _, invalid_value row ("Invalid hex string: " +:+ s)) (decode_hex s)))) values.

(* code: arrow_conversion/builders.rs 57-78 build_typed_array *)
Definition build_typed_array (t : ExasolType) (values : list json) : array :=
  match t with
  | Boolean => build_boolean_array values
  | Char _ | Varchar _ => build_string_array values
  | Decimal precision scale => build_decimal128_array values precision scale
  | Double => build_double_array values
  | Date => build_date_array values
  | Timestamp _ => build_timestamp_array values
  | IntervalYearToMonth | IntervalDayToSecond _ => build_interval_array values
  | Geometry _ | Hashtype _ => build_binary_array values
  end.

(* code: arrow_conversion/builders.rs 45-55 build_array *)
Definition build_array (t : ExasolType) (values : list json) (column : nat)
    (column_name : string) : outcome ConversionError (list (option Cell)) :=
  target_type ← exasol_to_arrow t true;
  map_err (into_conversion_error column column_name values target_type)
    (build_typed_array t values).
End Builders.

(** ** Schemas *)
(* code: types/schema.rs 7-16 ColumnMetadata *)
Record ColumnMetadata := {
  cm_name : string;
  cm_data_type : ExasolType;
  cm_nullable : bool;
}.

(** A field with its metadata; a schema is its fields and its own metadata. *)
Record MetaField := { mf_field : Field; mf_metadata : gmap string string }.
Record Schema := { s_fields : list MetaField; s_metadata : gmap string string }.

#[global] Instance MetaField_eq_dec : EqDecision MetaField.
Proof. solve_decision. Defined.

(* code: types/schema.rs 18-21 SchemaBuilder *)
Record SchemaBuilder := { sb_columns : list ColumnMetadata }.

(* code: types/schema.rs 25-29 SchemaBuilder::new *)
Definition SchemaBuilder_new : SchemaBuilder := {| sb_columns := [] |}.

(* code: types/schema.rs 32-35 SchemaBuilder::add_column *)
Definition add_column (b : SchemaBuilder) (column : ColumnMetadata) : SchemaBuilder :=
  {| sb_columns := sb_columns b ++ [column] |}.

(* code: types/schema.rs 38-41 SchemaBuilder::add_columns *)
Definition add_columns (b : SchemaBuilder) (columns : list ColumnMetadata) : SchemaBuilder :=
  {| sb_columns := sb_columns b ++ columns |}.

Section Build.
Context `{TypeJson}.

(* code: types/schema.rs 54-59 SchemaBuilder::build *)
Definition build_field (col : ColumnMetadata) : outcome ConversionError MetaField :=
  arrow_type ← exasol_to_arrow (cm_data_type col) (cm_nullable col);
  Ok {| mf_field := {| f_name := cm_name col; f_data_type := arrow_type;
                       f_nullable := cm_nullable col |};
        mf_metadata := create_field_metadata (cm_data_type col) |}.

(* code: types/schema.rs 50-63 SchemaBuilder::build *)
Definition schema_build (b : SchemaBuilder) : outcome ConversionError Schema :=
  fields ← mapM build_field (sb_columns b);
  Ok {| s_fields := fields; s_metadata := ∅ |}.

(* code: types/schema.rs 66-72 SchemaBuilder::build_with_metadata *)
Definition build_with_metadata (b : SchemaBuilder) (metadata : gmap string string)
    : outcome ConversionError Schema :=
  schema ← schema_build b;
  Ok {| s_fields := s_fields schema; s_metadata := metadata |}.
End Build.
