(* ===== verification/ArrowConverter.v ===== *)
(** * The Arrow converter

    [arrow_conversion/converter.rs]: row-major JSON results become record batches, by a
    conversion that borrows the rows and by one that consumes them. *)
From S2P Require Import Prelude MachineInt RustStr Float64 Json ExasolTypes ResultParser.
From S2P Require Import Messages ArrayBuilders.
From S2P Require Statement.

#[local] Open Scope Z_scope.

(** A batch with the metadata of its fields and its schema. *)
Record Batch := {
  b_schema : Schema;
  b_columns : list (list (option Cell));
  b_rows : nat;
}.

#[global] Instance Schema_eq_dec : EqDecision Schema.
Proof. solve_decision. Defined.
#[global] Instance Cell_eq_dec : EqDecision Cell.
Proof. solve_decision. Defined.
#[global] Instance Batch_eq_dec : EqDecision Batch.
Proof. solve_decision. Defined.

(** Arrow's error for a batch without columns and without a row count. *)
Class EmptyBatchError := no_columns_error : string.

Section Batches.
Context `{ArrowLib, EmptyBatchError}.

Definition fields_of (s : Schema) : list Field := mf_field <$> s_fields s.

(** [RecordBatch::try_new]: the rows are those of the first column. *)
Definition try_new (s : Schema) (columns : list (list (option Cell)))
    : outcome ConversionError Batch :=
  match columns with
  | [] => Err (ConversionArrowError no_columns_error)
  | first :: _ =>
    match record_batch_error (fields_of s) columns (length first) with
    | Some e => Err (ConversionArrowError e)
    | None => Ok {| b_schema := s; b_columns := columns; b_rows := length first |}
    end
  end.

(** [RecordBatch::new_empty]. *)
Definition new_empty (s : Schema) : Batch :=
  {| b_schema := s; b_columns := replicate (length (s_fields s)) []; b_rows := 0 |}.

(** A batch of the native transport: its fields carry no metadata. *)
Definition plain_schema (fields : list Field) : Schema :=
  {| s_fields := (λ f, {| mf_field := f; mf_metadata := ∅ |}) <$> fields; s_metadata := ∅ |}.
Definition native_batch (b : RecordBatch) : Batch :=
  {| b_schema := plain_schema (rb_fields b); b_columns := rb_columns b; b_rows := rb_rows b |}.
End Batches.

Section Converter.
Context `{ColumnText, Statement.ParameterText, PowI, BuildProfile, TypeJson}.
Context `{ArrowLib, EmptyBatchError}.

(* code: arrow_conversion/converter.rs 20-23 ArrowConverter *)
Record ArrowConverter := { schema : Schema; column_types : list ExasolType }.

(* code: arrow_conversion/converter.rs 36-67 ArrowConverter::new *)
Definition ArrowConverter_new (columns : list ColumnInfo) : outcome ConversionError ArrowConverter :=
  column_metadata ← mapM (λ col, (λ t, (ci_name col, t)) <$> parse_exasol_type (ci_data_type col))
                      columns;
  let builder := foldl (λ b '(name, t),
    add_column b {| cm_name := name; cm_data_type := t; cm_nullable := true |})
    SchemaBuilder_new column_metadata in
  schema ← schema_build builder;
  Ok {| schema := schema; column_types := column_metadata.*2 |}.

(* code: arrow_conversion/converter.rs 179-190 ArrowConverter::check_row_width *)
Definition check_row_width (c : ArrowConverter) (rows : list (list json))
    : outcome ConversionError unit :=
  match rows with
  | first_row :: _ =>
    if (length first_row =? length (column_types c))%nat then Ok ()
    else Err (SchemaMismatch ("Data has " +:+ show_nat (Z.of_nat (length first_row))
                              +:+ " columns, expected "
                              +:+ show_nat (Z.of_nat (length (column_types c)))))
  | [] => Ok ()
  end.

(** [column_values[col_idx]] and [schema.field(col_idx)] panic out of range. *)
(* code: arrow_conversion/converter.rs 203-210 ArrowConverter::build_record_batch *)
Definition build_column (c : ArrowConverter) (column_values : list (list json)) (col_idx : nat)
    (t : ExasolType) : outcome ConversionError (list (option Cell)) :=
  match column_values !! col_idx, s_fields (schema c) !! col_idx with
  | Some values, Some field => build_array t values col_idx (f_name (mf_field field))
  | _, _ => Panic
  end.

(* code: arrow_conversion/converter.rs 195-215 ArrowConverter::build_record_batch *)
Definition build_record_batch (c : ArrowConverter) (column_values : list (list json))
    : outcome ConversionError Batch :=
  arrays ← mapM (λ '(col_idx, t), build_column c column_values col_idx t)
             (imap pair (column_types c));
  try_new (schema c) arrays.

(* code: arrow_conversion/converter.rs 108-114 convert_to_record_batch *)
Definition columns_of_rows (num_columns : nat) (rows : list (list json)) : list (list json) :=
  (λ col_idx, (λ row, default JNull (row !! col_idx)) <$> rows) <$> seq 0 num_columns.

(* code: arrow_conversion/converter.rs 92-117 convert_to_record_batch *)
Definition convert_to_record_batch (c : ArrowConverter) (d : ResultData)
    : outcome ConversionError Batch :=
  match rd_data d with
  | PayloadArrow batch => Ok (native_batch batch)
  | PayloadJson [] => Ok (new_empty (schema c))
  | PayloadJson rows =>
    _ ← check_row_width c rows;
    build_record_batch c (columns_of_rows (length (column_types c)) rows)
  end.

(** A row goes to the columns it has values for, the values beyond them are dropped. *)
(* code: arrow_conversion/converter.rs 158-164 convert_to_record_batch_owned *)
Definition push_row (columns : list (list json)) (row : list json) : list (list json) :=
  imap (λ col_idx column,
    match row !! col_idx with Some value => column ++ [value] | None => column end) columns.

(* code: arrow_conversion/converter.rs 152-164 convert_to_record_batch_owned *)
Definition drain_rows (num_columns : nat) (rows : list (list json)) : list (list json) :=
  foldl push_row (replicate num_columns []) rows.

(* code: arrow_conversion/converter.rs 136-172 convert_to_record_batch_owned *)
Definition convert_to_record_batch_owned (c : ArrowConverter) (d : ResultData)
    : outcome ConversionError Batch :=
  match rd_data d with
  | PayloadArrow batch => Ok (native_batch batch)
  | PayloadJson [] => Ok (new_empty (schema c))
  | PayloadJson rows =>
    _ ← check_row_width c rows;
    build_record_batch c (drain_rows (length (column_types c)) rows)
  end.

(* code: arrow_conversion/converter.rs 226-234 convert_chunks *)
Definition convert_chunks (c : ArrowConverter) (chunks : list ResultData)
    : outcome ConversionError (list Batch) :=
  mapM (convert_to_record_batch c) chunks.

(* code: arrow_conversion/converter.rs 246-254 convert_chunks_owned *)
Definition convert_chunks_owned (c : ArrowConverter) (chunks : list ResultData)
    : outcome ConversionError (list Batch) :=
  mapM (convert_to_record_batch_owned c) chunks.
End Converter.
