(* ===== verification/Conversions.v ===== *)
(** * What the converter makes of JSON results

    The two conversions agree, the columns that Exasol sent are the columns that are
    converted, and what a conversion returns is typed and complete, or names the value that
    did not fit. *)
From S2P Require Import Prelude MachineInt RustStr Float64 Json RowMajor ExasolTypes.
From S2P Require Import DateTime Interval ResultParser Messages ArrayBuilders ArrowConverter.
From S2P Require Statement.

#[local] Open Scope Z_scope.

(** ** Loops over the rows of a column *)
Section Loops.
Context `{SerdeJson}.

Lemma imap_pair_cons {A} n (x : A) xs :
  imap (λ i y, ((n + i)%nat, y)) (x :: xs) = (n, x) :: imap (λ i y, ((S n + i)%nat, y)) xs.
Proof.
  rewrite imap_cons, Nat.add_0_r. f_equal. apply imap_ext. intros i y _. cbn. f_equal. lia.
Qed.

(** A run over enumerated values: the results in order, or the first failure. *)
Lemma mapM_enumerate {E A B} (f : nat → A → outcome E B) xs :
  match mapM (λ '(i, x), f i x) (imap pair xs) with
  | Ok ys => length ys = length xs ∧
      ∀ i x, xs !! i = Some x → ∃ y, ys !! i = Some y ∧ f i x = Ok y
  | Err e => ∃ i x, xs !! i = Some x ∧ f i x = Err e
  | Panic => ∃ i x, xs !! i = Some x ∧ f i x = Panic
  end.
Proof.
  assert (∀ n, match mapM (λ '(i, x), f i x) (imap (λ i y, ((n + i)%nat, y)) xs) with
    | Ok ys => length ys = length xs ∧
        ∀ i x, xs !! i = Some x → ∃ y, ys !! i = Some y ∧ f (n + i)%nat x = Ok y
    | Err e => ∃ i x, xs !! i = Some x ∧ f (n + i)%nat x = Err e
    | Panic => ∃ i x, xs !! i = Some x ∧ f (n + i)%nat x = Panic
    end) as Hn; [|apply (Hn O)].
  induction xs as [|x xs IH]; intros n; [done|]. rewrite imap_pair_cons. cbn [mapM].
  assert (∀ o, f n x = o → f (n + 0)%nat x = o) as H0 by (intros ? <-; by rewrite Nat.add_0_r).
  assert (∀ i y o, f (S n + i)%nat y = o → f (n + S i)%nat y = o) as HS
    by (intros i y ? <-; by rewrite Nat.add_succ_r).
  destruct (f n x) as [y|e|] eqn:Ef; cbn [mbind outcome_bind];
    [|exists O, x; by eauto|exists O, x; by eauto].
  specialize (IH (S n)). destruct (mapM _ _) as [ys|e|]; cbn [mbind outcome_bind mret outcome_ret].
  - destruct IH as [Hl Hi]. split; [cbn; by rewrite Hl|].
    intros [|i] x' Hx; [injection Hx as <-; exists y; by eauto|].
    destruct (Hi i x' Hx) as (y' & ? & ?). exists y'. by eauto.
  - destruct IH as (i & x' & Hx & Hf). exists (S i), x'. by eauto.
  - destruct IH as (i & x' & Hx & Hf). exists (S i), x'. by eauto.
Qed.
End Loops.

(** ** The strict builders *)
Section Builders.
Context `{ColumnText, Statement.ParameterText, PowI, BuildProfile}.

(** What a JSON value stands for in a column of a type: null for null, a boolean, the text
    itself, a DECIMAL by its scale, a double, the day, instant or interval that a text
    spells, the bytes that it encodes; and an error for everything else. *)
Definition json_cell (t : ExasolType) (row : nat) (value : json)
    : outcome ColumnConversionError (option Cell) :=
  let some := fmap (M := outcome ColumnConversionError) (@Some Cell) in
  let text_of (what : string) (parse : string → outcome string Cell) :=
    match value with
    | JString s => some (map_err (invalid_value row) (parse s))
    | _ => expected what row value
    end in
  match value, t with
  | JNull, _ => Ok None
  | JBool b, Boolean => Ok (Some (CBoolean b))
  | _, Boolean => expected "boolean" row value
  | _, (Char _ | Varchar _) => text_of "string" (λ s, Ok (CUtf8 s))
  | JNumber n, Decimal _ scale =>
    match number_as_i64 n, number_as_f64 n with
    | Some i, _ =>
      some (power ← arith I128 (10 ^ wrap U32 scale); CDecimal128 <$> arith I128 (i * power))
    | None, Some bits =>
      let scaled := f64_round (f64_mul (f64_decode bits) (powi10 scale)) in
      some (CDecimal128 <$> ok_or (overflow_at row "Value does not fit in 128 bits")
                              (parse_int I128 (Statement.show_f64 scaled)))
    | None, None => expected "numeric value" row value
    end
  | JString s, Decimal precision scale =>
    _ ← validate_decimal_precision s precision row;
    some (CDecimal128 <$> map_err (invalid_value row) (parse_decimal_to_i128 s scale))
  | _, Decimal _ _ => expected "numeric value" row value
  | JNumber n, Double =>
    match number_as_f64 n, number_as_i64 n with
    | Some bits, _ => Ok (Some (CFloat64 bits))
    | None, Some i => Ok (Some (CFloat64 (f64_encode (f64_of_int i))))
    | None, None => expected "number" row value
    end
  | JString s, Double =>
    match named_f64 s, parse_f64 s with
    | Some bits, _ => Ok (Some (CFloat64 bits))
    | None, Some bits => Ok (Some (CFloat64 bits))
    | None, None => Err (invalid_value row ("Invalid float value: " +:+ s))
    end
  | _, Double => expected "number" row value
  | _, Date => text_of "date string" (λ s, CDate32 <$> parse_date_to_days s)
  | _, Timestamp _ => text_of "timestamp string" (λ s, CTimestamp <$> parse_timestamp_to_micros s)
  | _, (IntervalYearToMonth | IntervalDayToSecond _) =>
    text_of "interval string" (λ s, CInterval <$> parse_interval s)
  | _, (Geometry _ | Hashtype _) =>
    text_of "hex string"
      (λ s, CBinary <$> map_err (λ _, "Invalid hex string: " +:+ s) (decode_hex s))
  end.

(** What is checked for a column before its values: the capacity that is asked for, and the
    precision and scale of a DECIMAL. *)
Definition column_check (t : ExasolType) (values : list json) : outcome ColumnConversionError unit :=
  match t with
  | Char _ | Varchar _ => _ ← estimate_string_capacity values; Ok ()
  | Geometry _ | Hashtype _ => _ ← estimate_binary_capacity values; Ok ()
  | Decimal precision scale =>
    match precision_scale_error precision scale with
    | Some m => Err (OtherError (ConversionArrowError m))
    | None => Ok ()
    end
  | _ => Ok ()
  end.

Lemma each_row_ext f g values :
  (∀ row value, f row value = g row value) → each_row f values = each_row g values.
Proof.
  intros Hfg. unfold each_row. generalize (imap pair values). intros xs.
  induction xs as [|[row value] xs IH]; [done|]. cbn [mapM]. by rewrite Hfg, IH.
Qed.

(** The builders are the reading of each value, behind the check of the column. *)
Lemma built_array t values :
  build_typed_array t values = (_ ← column_check t values; each_row (json_cell t) values).
Proof.
  assert (∀ (what : outcome ColumnConversionError Z) f g,
    (∀ row value, f row value = g row value) →
    (_ ← what; each_row f values) = (_ ← (_ ← what; Ok ()); each_row g values)) as Hcap.
  { intros [z|e|] f g Hfg; cbn; [by apply each_row_ext|done|done]. }
  destruct t as [|size|size|precision scale| | |tz| |precision|srid|size];
    unfold build_typed_array, column_check.
  all: try (apply Hcap || apply each_row_ext); try (intros row [|b|n|s|vs|ms]; try reflexivity).
  - unfold build_decimal128_array. destruct (precision_scale_error precision scale); [done|].
    apply each_row_ext. intros row [|b|n|s|vs|ms]; try reflexivity.
    + unfold or_null, json_decimal_to_i128. cbn -[fmap outcome_fmap arith Z.pow wrap].
      destruct (number_as_i64 n) as [i|]; cbn -[arith Z.pow wrap].
      * destruct (arith I128 _); [|done..]. cbn [mbind outcome_bind]. by destruct (arith I128 _).
      * destruct (number_as_f64 n); cbn; [|done]. by destruct (parse_int I128 _).
    + unfold or_null, json_decimal_to_i128. cbn -[validate_decimal_precision parse_decimal_to_i128].
      destruct (validate_decimal_precision s precision row); [|done..].
      cbn [mbind outcome_bind]. by destruct (parse_decimal_to_i128 s scale).
  - unfold or_null. cbn. destruct (number_as_f64 n), (number_as_i64 n); done.
  - unfold or_null. cbn. by destruct (named_f64 s), (parse_f64 s).
  - unfold or_null. cbn. by destruct (parse_date_to_days s).
  - unfold or_null. cbn. by destruct (parse_timestamp_to_micros s).
  - unfold or_null. cbn. by destruct (parse_interval s).
  - unfold or_null. cbn. by destruct (parse_interval s).
  - unfold or_null. cbn. by destruct (decode_hex s).
  - unfold or_null. cbn. by destruct (decode_hex s).
Qed.

Definition cell_of_type (ty : ArrowType) (row : nat) (value : json)
    (o : outcome ColumnConversionError (option Cell)) : Prop :=
  match o with
  | Ok None => value = JNull
  | Ok (Some c) => value ≠ JNull ∧ cell_has_type ty c = true
  | Err e => value ≠ JNull ∧ ∃ reason overflow, e = ValueError row reason overflow
  | Panic => value ≠ JNull
  end.

Lemma cell_of_text ty row value {A} (k : A → Cell) (m : outcome string A) :
  value ≠ JNull → (∀ a, cell_has_type ty (k a) = true) →
  cell_of_type ty row value (Some <$> map_err (invalid_value row) (k <$> m)).
Proof. intros Hv Hk. destruct m; cbn; [by split|split; [done|by do 2 eexists]|done]. Qed.

Lemma cell_unexpected ty what row value :
  value ≠ JNull → cell_of_type ty row value (expected what row value).
Proof. intros Hv. split; [done|by do 2 eexists]. Qed.

(** A cell is null exactly for null, and else of the column's type; an error names the row. *)
Lemma json_cell_type t ty row value :
  exasol_to_arrow t true = Ok ty → cell_of_type ty row value (json_cell t row value).
Proof.
  intros Ht.
  destruct t as [|size|size|precision scale| | |[]| |precision|srid|size]; injection Ht as <-;
    destruct value as [|b|n|s|vs|ms]; cbn [json_cell]; try done;
    try (by apply cell_unexpected); try (by apply cell_of_text).
  - destruct (number_as_i64 n) as [i|]; [|destruct (number_as_f64 n) as [bits|]].
    + unfold arith. repeat (case_match; cbn); done.
    + destruct (parse_int I128 _); cbn; [done|]. split; [done|by do 2 eexists].
    + by apply cell_unexpected.
  - unfold validate_decimal_precision.
    repeat (destruct (_ <? _); [split; [done|by do 2 eexists]|]). cbn [mbind outcome_bind].
    destruct (parse_decimal_to_i128 s scale); cbn; [done|split; [done|by do 2 eexists]|done].
  - destruct (number_as_f64 n), (number_as_i64 n); cbn; try done. split; [done|by do 2 eexists].
  - destruct (named_f64 s), (parse_f64 s); cbn; try done. split; [done|by do 2 eexists].
Qed.

Lemma json_cell_null t ty row value cell :
  exasol_to_arrow t true = Ok ty → json_cell t row value = Ok cell → (cell = None ↔ value = JNull).
Proof.
  intros Ht Hc. pose proof (json_cell_type t ty row value Ht) as Htype. rewrite Hc in Htype.
  cbn in Htype. destruct cell; [|done]. split; [done|]. by intros ->; destruct Htype.
Qed.

(** What a builder returns for a column: the reading of every value, or the error or the
    panic of the check or of a value. *)
Definition column_result (t : ExasolType) (values : list json)
    (o : outcome ColumnConversionError (list (option Cell))) : Prop :=
  match o with
  | Ok cells => length cells = length values ∧
      ∀ row value, values !! row = Some value →
        ∃ cell, cells !! row = Some cell ∧ json_cell t row value = Ok cell
  | o => column_check t values = match o with Err e => Err e | _ => Panic end ∨
      ∃ row value, values !! row = Some value ∧
        json_cell t row value = match o with Err e => Err e | _ => Panic end
  end.

Lemma built_column t values : column_result t values (build_typed_array t values).
Proof.
  rewrite built_array. destruct (column_check t values) as [[]|e|] eqn:Ec; cbn [mbind outcome_bind];
    [|by left..].
  unfold each_row. pose proof (mapM_enumerate (json_cell t) values) as Hm.
  destruct (mapM _ _) as [cells|e|]; [|by right..].
  destruct Hm as [Hl Hi]. split; [done|]. intros row value Hv.
  destruct (Hi row value Hv) as (cell & ? & ?). by exists cell.
Qed.

Lemma column_check_error t values e : column_check t values = Err e →
  ∃ precision scale m, t = Decimal precision scale ∧ precision_scale_error precision scale = Some m ∧
    e = OtherError (ConversionArrowError m).
Proof.
  assert (∀ z, (_ ← arith (E := ColumnConversionError) USize z; Ok ()) ≠ Err e) as Har.
  { intros z. unfold arith. by destruct (in_rangeb USize z), overflow_checks. }
  destruct t; cbn [column_check]; try done; try (intros E; exfalso; eapply Har, E).
  destruct (precision_scale_error precision scale) eqn:E; [|done]. intros [= <-]. by eauto 10.
Qed.
End Builders.

(** ** Rows and columns *)
Section Columns.
Context `{ColumnText}.

Lemma push_row_cells columns row rest :
  (length columns ≤ length row)%nat →
  imap (λ i column, column ++ ((λ r : list json, default JNull (r !! i)) <$> rest))
    (push_row columns row)
  = imap (λ i column, column ++ ((λ r : list json, default JNull (r !! i)) <$> row :: rest)) columns.
Proof.
  intros Hl. apply list_eq. intros i. unfold push_row. rewrite !list_lookup_imap.
  destruct (columns !! i) as [column|] eqn:Ec; [|done]. cbn [fmap option_fmap option_map].
  apply lookup_lt_Some in Ec. destruct (lookup_lt_is_Some_2 row i) as [v Hv]; [lia|].
  rewrite Hv. cbn. by rewrite Hv, <- app_assoc.
Qed.

(** Draining rows that are wide enough gives their columns. *)
Lemma drain_rows_columns n rows :
  Forall (λ r, n ≤ length r)%nat rows → drain_rows n rows = columns_of_rows n rows.
Proof.
  intros Hr. unfold drain_rows.
  assert (∀ columns, length columns = n → foldl push_row columns rows
    = imap (λ i column, column ++ ((λ r : list json, default JNull (r !! i)) <$> rows)) columns)
    as Hf.
  { induction Hr as [|row rows Hrow _ IH]; intros columns Hl.
    - cbn. apply list_eq. intros i. rewrite list_lookup_imap.
      destruct (columns !! i); cbn; by rewrite ?app_nil_r.
    - cbn [foldl]. rewrite IH by (unfold push_row; by rewrite length_imap).
      apply push_row_cells. lia. }
  rewrite Hf by apply length_replicate. unfold columns_of_rows. apply list_eq. intros i.
  rewrite list_lookup_imap, list_lookup_fmap.
  destruct (decide (i < n)%nat) as [Hi|Hi].
  - by rewrite lookup_replicate_2, lookup_seq_lt by done.
  - by rewrite (proj2 (lookup_ge_None _ _)), lookup_seq_ge by (rewrite ?length_replicate; lia).
Qed.

(** A column filled with nulls up to the height. *)
Definition padded (height : nat) (column : list json) : list json :=
  column ++ replicate (height - length column) JNull.

Lemma columns_of_transposed columns :
  columns_of_rows (length columns) (transposed columns) = padded (height columns) <$> columns.
Proof.
  unfold columns_of_rows, transposed. apply list_eq. intros j. rewrite !list_lookup_fmap.
  destruct (columns !! j) as [column|] eqn:Ej.
  2: { by rewrite lookup_seq_ge by (by apply lookup_ge_None). }
  apply lookup_lt_Some in Ej as Hj. rewrite lookup_seq_lt by done. cbn [fmap option_fmap option_map].
  f_equal. rewrite <- list_fmap_compose. apply list_eq. intros i. rewrite list_lookup_fmap.
  assert (length column ≤ height columns)%nat as Hh.
  { unfold height. apply max_list_elem_of_le, list_elem_of_fmap. exists column. split; [done|].
    by eapply list_elem_of_lookup_2. }
  unfold padded, row_at, compose. cbn [Nat.add].
  destruct (decide (i < height columns)%nat) as [Hi|Hi].
  - rewrite lookup_seq_lt by done. cbn. rewrite list_lookup_fmap, Ej. cbn. f_equal.
    destruct (decide (i < length column)%nat) as [?|?].
    + rewrite lookup_app_l by done. by destruct (lookup_lt_is_Some_2 column i) as [v ->].
    + rewrite lookup_app_r, lookup_replicate_2 by lia.
      by rewrite (proj2 (lookup_ge_None column i)) by lia.
  - rewrite lookup_seq_ge by lia.
    symmetry. apply lookup_ge_None. rewrite length_app, length_replicate. lia.
Qed.

Lemma transposed_widths columns : Forall (λ r, length r = length columns) (transposed columns).
Proof.
  unfold transposed. apply Forall_fmap, Forall_true. intros i. cbn. unfold row_at. by rewrite length_fmap.
Qed.
End Columns.

(** ** The two conversions *)
Section Conversions.
Context `{J : SerdeJson, !SerdeErrors, !ColumnText, Statement.ParameterText, PowI}.
Context `{BuildProfile, TypeJson}.
Context `{ArrowLib, EmptyBatchError}.

(** Rows of one width. *)
Definition uniform (d : ResultData) : Prop :=
  match rd_data d with
  | PayloadJson (first :: rows) => Forall (λ r, length r = length first) rows
  | _ => True
  end.

Lemma owned_agrees c d :
  uniform d → convert_to_record_batch_owned c d = convert_to_record_batch c d.
Proof.
  unfold uniform, convert_to_record_batch_owned, convert_to_record_batch.
  destruct (rd_data d) as [[|first rows]|batch]; [done| |done]. intros Hu. unfold check_row_width.
  destruct (Nat.eqb_spec (length first) (length (column_types c))) as [Hl|?]; [|done].
  cbn [mbind outcome_bind]. f_equal. apply drain_rows_columns. rewrite <- Hl.
  constructor; [done|]. eapply Forall_impl; [exact Hu|]. cbn. lia.
Qed.

(** The conversion that consumes the rows and the one that borrows them return the same
    batch or the same error on every result whose rows have one width, which the
    deserialiser guarantees; and for a result that arrived as columns both convert exactly
    these columns, padded with nulls where they were of different lengths. *)
Theorem conversions_agree :
  (∀ c d, uniform d → convert_to_record_batch_owned c d = convert_to_record_batch c d) ∧
  (∀ c ds, Forall uniform ds → convert_chunks_owned c ds = convert_chunks c ds) ∧
  (∀ c d columns rows, to_row_major (JArray (JArray <$> columns)) = Ok rows → rows ≠ [] →
    rd_data d = PayloadJson rows → length columns = length (column_types c) →
    convert_to_record_batch c d = build_record_batch c (padded (height columns) <$> columns) ∧
    convert_to_record_batch_owned c d = build_record_batch c (padded (height columns) <$> columns)).
Proof.
  split_and!; [apply owned_agrees|..].
  - intros c ds Hu. unfold convert_chunks_owned, convert_chunks.
    induction Hu as [|d ds Hd _ IH]; [done|]. cbn [mapM]. by rewrite owned_agrees, IH.
  - intros c d columns rows Hr Hne Hd Hl.
    assert (rows = transposed columns) as ->.
    { assert (to_row_major (JArray (JArray <$> columns)) = Ok (transposed columns)) as Ht
        by apply (visit_columns_transposed [] columns).
      rewrite Ht in Hr. by injection Hr. }
    pose proof (transposed_widths columns) as Hw.
    assert (uniform d) as Hu.
    { unfold uniform. rewrite Hd. destruct (transposed columns) as [|first rest]; [done|].
      apply Forall_cons in Hw as [-> Hw]. done. }
    rewrite owned_agrees by done. cut (convert_to_record_batch c d
      = build_record_batch c (padded (height columns) <$> columns)); [done|].
    rewrite <- columns_of_transposed, Hl. unfold convert_to_record_batch. rewrite Hd.
    destruct (transposed columns) as [|first rest]; [done|].
    apply Forall_cons in Hw as [Hw _]. unfold check_row_width. by rewrite Hw, Hl, Nat.eqb_refl.
Qed.

(** The converter of column descriptions: a nullable field of the mapped type per column,
    with the Exasol type in its metadata. *)
Definition column_of (info : ColumnInfo) (f : MetaField) (t : ExasolType) : Prop :=
  parse_exasol_type (ci_data_type info) = Ok t ∧
  ∃ ty, exasol_to_arrow t true = Ok ty ∧
    f = {| mf_field := {| f_name := ci_name info; f_data_type := ty; f_nullable := true |};
           mf_metadata := create_field_metadata t |}.

Lemma added_columns metadata b :
  sb_columns (foldl (λ b '(name, t),
    add_column b {| cm_name := name; cm_data_type := t; cm_nullable := true |}) b metadata)
  = sb_columns b ++ ((λ '(name, t),
      {| cm_name := name; cm_data_type := t; cm_nullable := true |}) <$> metadata).
Proof.
  revert b. induction metadata as [|[name t] metadata IH]; intros b; cbn; [by rewrite app_nil_r|].
  rewrite IH. cbn. by rewrite <- app_assoc.
Qed.

Lemma new_converter infos c :
  ArrowConverter_new infos = Ok c →
  length (column_types c) = length infos ∧ length (s_fields (schema c)) = length infos ∧
  ∀ j info, infos !! j = Some info → ∃ f t,
    s_fields (schema c) !! j = Some f ∧ column_types c !! j = Some t ∧ column_of info f t.
Proof.
  unfold ArrowConverter_new. intros (ms & Hm & (s & Hs & [= <-])%bind_ok)%bind_ok.
  unfold schema_build in Hs. rewrite added_columns in Hs. cbn [sb_columns SchemaBuilder_new app] in Hs.
  apply bind_ok in Hs as (fields & Hf & [= <-]). cbn [schema column_types s_fields].
  apply mapM_outcome_ok in Hm, Hf. apply Forall2_fmap_l in Hf.
  pose proof (Forall2_length _ _ _ Hm) as Hl1. pose proof (Forall2_length _ _ _ Hf) as Hl2.
  rewrite length_fmap. split_and!; [done|congruence|]. intros j info Hj.
  destruct (Forall2_lookup_l _ _ _ _ _ Hm Hj) as ([name t] & Hj2 & Ho).
  destruct (Forall2_lookup_l _ _ _ _ _ Hf Hj2) as (f & Hj3 & Hb).
  apply fmap_ok in Ho as (t' & Ht & [= -> ->]). exists f, t'.
  rewrite list_lookup_fmap, Hj2. split_and!; [done..|].
  cbn in Hb. apply bind_ok in Hb as (ty & Hty & [= <-]). split; [done|by exists ty].
Qed.

(** The value in a row and a column, with the column's description and type. *)
Definition value_at (infos : list ColumnInfo) (rows : list (list json)) (row col : nat)
    (v : json) (info : ColumnInfo) (t : ExasolType) : Prop :=
  (∃ r, rows !! row = Some r ∧ r !! col = Some v) ∧ infos !! col = Some info ∧
  parse_exasol_type (ci_data_type info) = Ok t.

(** The value that an error of the conversion is about: its reading is the error. *)
Definition conversion_error (infos : list ColumnInfo) (rows : list (list json)) (e : ConversionError)
    : Prop :=
  (∃ first m, head rows = Some first ∧ length first ≠ length infos ∧ e = SchemaMismatch m) ∨
  (∃ row col v info t ty reason (overflow : bool),
     value_at infos rows row col v info t ∧ v ≠ JNull ∧ exasol_to_arrow t true = Ok ty ∧
     json_cell t row v = Err (ValueError row reason overflow) ∧
     e = (if overflow then NumericOverflow else ValueConversionFailed)
           row col (ci_name info) (json_display v) (display_arrow_type ty) reason) ∨
  (∃ precision scale m, precision_scale_error precision scale = Some m ∧ e = ConversionArrowError m).

(** What a conversion panics at: a value whose reading panics, or a column for which more
    capacity is asked for than an address space has. *)
Definition conversion_panic (infos : list ColumnInfo) (rows : list (list json)) : Prop :=
  (∃ row col v info t, value_at infos rows row col v info t ∧ json_cell t row v = Panic) ∨
  ∃ col info t, infos !! col = Some info ∧ parse_exasol_type (ci_data_type info) = Ok t ∧
    column_check t ((λ r : list json, default JNull (r !! col)) <$> rows) = Panic.

Lemma columns_of_rows_lookup n rows j values i :
  columns_of_rows n rows !! j = Some values →
  values !! i = (λ r : list json, default JNull (r !! j)) <$> rows !! i.
Proof.
  unfold columns_of_rows. rewrite list_lookup_fmap. intros Hj.
  destruct (seq 0 n !! j) as [k|] eqn:Ek; [|done]. apply lookup_seq in Ek as [-> _].
  injection Hj as <-. by rewrite list_lookup_fmap.
Qed.

(** One column of rows of one width. *)
Lemma build_column_result infos c rows j t :
  ArrowConverter_new infos = Ok c → column_types c !! j = Some t →
  Forall (λ r, length r = length (column_types c)) rows →
  match build_column c (columns_of_rows (length (column_types c)) rows) j t with
  | Ok cells => length cells = length rows ∧
      (∃ f, s_fields (schema c) !! j = Some f ∧ typed_column (mf_field f) cells) ∧
      ∀ row v info t', value_at infos rows row j v info t' →
        ∃ cell, cells !! row = Some cell ∧ json_cell t' row v = Ok cell
  | Err e => conversion_error infos rows e
  | Panic => conversion_panic infos rows
  end.
Proof.
  intros Hc Ht Hw. destruct (new_converter _ _ Hc) as (Hl & _ & Hi).
  apply lookup_lt_Some in Ht as Hlt.
  destruct (lookup_lt_is_Some_2 infos j) as [info Hj]; [by rewrite <- Hl|].
  destruct (Hi j info Hj) as (f & t' & Hf & Ht' & Hpt & ty & Hty & ->). simplify_eq.
  unfold build_column. rewrite Hf.
  assert (columns_of_rows (length (column_types c)) rows !! j
    = Some ((λ r : list json, default JNull (r !! j)) <$> rows)) as Ev.
  { unfold columns_of_rows. by rewrite list_lookup_fmap, lookup_seq_lt. }
  rewrite Ev. set (values := (λ r : list json, default JNull (r !! j)) <$> rows) in *.
  assert (∀ row v, values !! row = Some v → ∃ r, rows !! row = Some r ∧ r !! j = Some v) as Hv.
  { intros row v (r & -> & Hr)%list_lookup_fmap_Some. exists r. split; [done|].
    apply (Forall_lookup_1 _ _ _ _ Hw) in Hr.
    by destruct (lookup_lt_is_Some_2 r j) as [v ->]; [rewrite Hr|]. }
  unfold build_array. rewrite Hty. cbn [mbind outcome_bind].
  pose proof (built_column t values) as Hr.
  destruct (build_typed_array t values) as [cells|e|]; cbn [map_err column_result] in *.
  - destruct Hr as [Hlc Hcells]. unfold values in Hlc. rewrite length_fmap in Hlc. split; [done|]. split.
    + eexists. split; [done|]. split; [done|]. apply Forall_lookup. intros i o Ho.
      apply lookup_lt_Some in Ho as Hi'.
      destruct (lookup_lt_is_Some_2 values i) as [v Hvi]; [unfold values; rewrite length_fmap; congruence|].
      destruct (Hcells i v Hvi) as (cell & E & Hx). simplify_eq.
      pose proof (json_cell_type t ty i v Hty) as Hcell. rewrite Hx in Hcell. cbn in Hcell.
      destruct o; [apply Hcell|done].
    + intros row v info' t' ((r & Hrow & Hcol) & Hinfo & Hp). simplify_eq.
      rewrite Hpt in Hp. injection Hp as <-.
      apply Hcells. unfold values. by rewrite list_lookup_fmap, Hrow; cbn; rewrite Hcol.
  - destruct Hr as [(p & sc & m & -> & Hm & ->)%column_check_error|(row & v & Hvr & Hcell)].
    { right. right. by eauto. }
    right. left. pose proof (json_cell_type t ty row v Hty) as Htype. rewrite Hcell in Htype.
    destruct Htype as (Hnull & reason & overflow & ->).
    exists row, j, v, info, t, ty, reason, overflow.
    split; [by split; [apply Hv|]|]. split; [done|]. split; [done|]. split; [done|].
    cbn [into_conversion_error]. rewrite Hvr. by destruct overflow.
  - destruct Hr as [Hcheck|(row & v & Hvr & Hcell)]; [right; by exists j, info, t|left].
    exists row, j, v, info, t. split; [by split; [apply Hv|]|done].
Qed.

End Conversions.
