(* ===== verification/JsonColumns.v ===== *)
(** * Lenient columns of a result set

    [query/results.rs]: the arrays that a result set builds from JSON rows. A value that
    does not fit its column is read as null where the strict builders of
    [arrow_conversion/builders.rs] fail. Where they accept a column, the result set reads the
    same cells, with exceptions that are proved too. *)
From S2P Require Import Prelude MachineInt RustStr StrText Float64 Json ExasolTypes DateTime.
From S2P Require Import Interval ResultParser Messages ArrayBuilders ArrowConverter Conversions.
From S2P Require Statement.
From Stdlib Require Import Ascii Floats.SpecFloat.

#[local] Open Scope Z_scope.

(** Whether [s.parse::<T>()] fails with an overflow: the digits leave the range of the signed
    type [t] before a character that is no digit. *)
Fixpoint digits_overflow (t : ity) (negative : bool) (acc : Z) (s : string) : bool :=
  match s with
  | EmptyString => false
  | String a s =>
    is_digit a &&
    let acc := 10 * acc + (if negative then - digit_val a else digit_val a) in
    if in_rangeb t acc then digits_overflow t negative acc s else true
  end.

Definition parse_overflows (t : ity) (s : string) : bool :=
  let '(negative, digits) := Float64.span_sign s in digits_overflow t negative 0 digits.

(* code: query/results.rs 758-763 DecimalParseFailure *)
Record DecimalParseFailure := { reason : string; overflow : bool }.

(* code: query/results.rs 766-771 DecimalParseFailure::invalid *)
Definition invalid (reason : string) : DecimalParseFailure := {| reason := reason; overflow := false |}.

(* code: query/results.rs 773-778 DecimalParseFailure::overflow *)
Definition overflowing (reason : string) : DecimalParseFailure := {| reason := reason; overflow := true |}.

Section Lenient.
Context `{J : SerdeJson, !ColumnText, Statement.ParameterText, PowI, BuildProfile}.

Abbreviation array := (outcome ColumnConversionError (list (option Cell))).

(** [Result::ok]. *)
Definition ok_option {E F A} (m : outcome E A) : outcome F (option A) :=
  match m with Ok a => Ok (Some a) | Err _ => Ok None | Panic => Panic end.

(* code: query/results.rs 579-589 json_to_primitive_array *)
Definition json_to_primitive_array (extract : json → outcome ColumnConversionError (option Cell))
    : list json → array := mapM extract.

(* code: query/results.rs 592-598 json_to_boolean_array *)
Definition json_to_boolean_array (values : list json) : array :=
  Ok ((λ v, CBoolean <$> json_as_bool v) <$> values).

(* code: query/results.rs 601-621 json_to_interval_array *)
Definition json_to_interval_array (values : list json) : array :=
  each_row (λ row value,
    match value with
    | JNull => Ok None
    | JString text => (λ v, Some (CInterval v)) <$> map_err (invalid_value row) (parse_interval text)
    | other => Err (invalid_value row ("Expected an INTERVAL string, got " +:+ json_display other))
    end) values.

(* code: query/results.rs 624-630 json_to_binary_array *)
Definition json_to_binary_array (values : list json) : array :=
  Ok ((λ v, (λ s, CBinary (as_bytes s)) <$> json_as_str v) <$> values).

(* code: query/results.rs 633-646 json_to_string_array *)
Definition json_to_string_array (values : list json) (render : json → string) : array :=
  Ok ((λ v, if json_is_null v then None else Some (CUtf8 (render v))) <$> values).

(* code: query/results.rs 652-656 render_as_text *)
Definition render_as_text (value : json) : string :=
  default (json_display value) (json_as_str value).

(* code: query/results.rs 703-755 parse_string_to_decimal *)
Definition parse_string_to_decimal (s : string) (scale : Z) : outcome DecimalParseFailure Z :=
  if String.eqb s "" then Err (invalid "Empty decimal string")
  else
    '(integer_part, decimal_part) ←
      match split_on "." s with
      | [i] => Ok (i, "")
      | [i; d] => Ok (i, d)
      | _ => Err (invalid ("Invalid decimal format: " +:+ s))
      end;
    result ← ok_or (if parse_overflows I128 integer_part
                    then overflowing ("integer part " +:+ integer_part +:+ " exceeds the 128-bit range")
                    else invalid ("Invalid integer part: " +:+ integer_part))
               (parse_int I128 integer_part);
    power ← arith I128 (10 ^ wrap U32 scale);
    result ← ok_or (overflowing "Decimal overflow") (checked I128 (result * power));
    if (str_len decimal_part =? 0)%nat then Ok result
    else
      let decimal_digits := Nat.min (str_len decimal_part) (Z.to_nat (wrap USize scale)) in
      prefix ← str_slice_to decimal_digits decimal_part;
      decimal_value ← ok_or (invalid ("Invalid decimal part: " +:+ decimal_part))
                        (parse_int I128 prefix);
      power ← arith I128 (10 ^ wrap U32 (wrap USize scale - Z.of_nat decimal_digits));
      scaled_decimal ← arith I128 (decimal_value * power);
      fraction ← (if starts_with "-" integer_part then arith I128 (- scaled_decimal)
                  else Ok scaled_decimal);
      ok_or (overflowing "Decimal overflow") (checked I128 (result + fraction)).

(* code: query/results.rs 687-698 scale_to_decimal *)
Definition scale_to_decimal (value : json) (scale : Z) : outcome DecimalParseFailure (option Z) :=
  match json_as_str value with
  | Some text => Some <$> parse_string_to_decimal text scale
  | None =>
    match json_as_i64 value with
    | Some integer =>
      power ← arith I64 (10 ^ wrap U32 scale); Some <$> arith I64 (integer * power)
    | None =>
      match json_as_f64 value with
      | Some float => Ok (Some (f64_to_int I128 (f64_mul (f64_decode float) (powi10 scale))))
      | None => Ok None
      end
    end
  end.

(* code: query/results.rs 659-680 json_to_decimal_array *)
Definition json_to_decimal_array (values : list json) (precision scale : Z) : array :=
  match precision_scale_error precision scale with
  | Some e => Err (OtherError (ConversionArrowError e))
  | None =>
    each_row (λ row value,
      (λ scaled : option Z, CDecimal128 <$> scaled) <$>
      map_err (λ failure, ValueError row (reason failure) (overflow failure))
        (scale_to_decimal value scale)) values
  end.

(** A temporal value: the text that [parse] reads, or null. *)
Definition temporal (parse : string → outcome string Z) (k : Z → Cell) (value : json)
    : outcome ColumnConversionError (option Cell) :=
  match json_as_str value with
  | Some s => (λ r : option Z, k <$> r) <$> ok_option (parse s)
  | None => Ok None
  end.

(* code: query/results.rs 522-576 json_column_to_array *)
Definition json_column_to_array (field : Field) (values : list json) : array :=
  match f_data_type field with
  | ABoolean => json_to_boolean_array values
  | AInt32 => json_to_primitive_array (λ v, Ok ((λ i, CInt32 (wrap I32 i)) <$> json_as_i64 v)) values
  | AInt64 => json_to_primitive_array (λ v, Ok (CInt64 <$> json_as_i64 v)) values
  | AFloat64 => json_to_primitive_array (λ v, Ok (CFloat64 <$> json_as_f64 v)) values
  | AUtf8 => json_to_string_array values render_as_text
  | ADecimal128 precision scale => json_to_decimal_array values precision scale
  | ADate32 => json_to_primitive_array (temporal parse_date_to_days CDate32) values
  | ATimestamp _ _ => json_to_primitive_array (temporal parse_timestamp_to_micros CTimestamp) values
  | AInterval MonthDayNano => json_to_interval_array values
  | ABinary => json_to_binary_array values
  | other => Err (OtherError (SchemaMismatch
      ("Column " +:+ f_name field +:+ " has Arrow type " +:+ display_arrow_type other
       +:+ ", which no result set column maps to")))
  end.
End Lenient.

(** ** Rows to a batch *)
Section Rows.
Context `{J : SerdeJson, !ColumnText, Statement.ParameterText, PowI, BuildProfile}.
Context `{ArrowLib, EmptyBatchError}.

(** A batch without rows: an empty array of each field's type. *)
(* code: query/results.rs 464-472 empty_record_batch *)
Definition empty_record_batch (s : Schema) : outcome ConversionError Batch :=
  try_new s ((λ _, []) <$> s_fields s).

(* code: query/results.rs 505-509 column_of *)
Definition column_of_rows (rows : list (list json)) (column_index : nat) : list json :=
  (λ row, default JNull (row !! column_index)) <$> rows.

Definition row_column (rows : list (list json)) (column_index : nat) (field : MetaField)
    : outcome ConversionError (list (option Cell)) :=
  let values := column_of_rows rows column_index in
  map_err (into_conversion_error column_index (f_name (mf_field field)) values
             (f_data_type (mf_field field)))
    (json_column_to_array (mf_field field) values).

(* code: query/results.rs 475-502 column_major_to_record_batch *)
Definition column_major_to_record_batch (rows : list (list json)) (s : Schema)
    : outcome ConversionError Batch :=
  match rows with
  | [] => empty_record_batch s
  | _ =>
    arrays ← mapM (λ '(column_index, field), row_column rows column_index field)
      (imap pair (s_fields s));
    try_new s arrays
  end.
End Rows.

(** ** Lenient and strict columns *)
Section Agreement.
Context `{J : SerdeJson, !ColumnText, Statement.ParameterText, PowI, BuildProfile}.

Lemma parse_int_magnitude t s z : parse_int t s = Some z → - 10 ^ Z.of_nat (str_len s) < z < 10 ^ Z.of_nat (str_len s).
Proof.
  assert (∀ r v, parse_nat r = Some v → 0 ≤ v < 10 ^ Z.of_nat (str_len r)) as Hn.
  { intros [|a r] v; [done|]. apply parse_digits_bound. }
  assert (∀ r : string, ∀ a : ascii, 10 ^ Z.of_nat (str_len r) ≤ 10 ^ Z.of_nat (str_len (String a r))) as Hm.
  { intros r a. apply Z.pow_le_mono_r; [lia|]. unfold str_len. cbn [String.length]. lia. }
  unfold parse_int. intros (m & Hm' & [-> _]%checked_Some)%bind_Some.
  assert (parse_nat s = Some m ∨ ∃ a r v, s = String a r ∧ parse_nat r = Some v ∧ (m = v ∨ m = - v))
    as [Hs|(a & r & v & -> & Hv & Hmv)].
  { destruct s as [|[[] [] [] [] [] [] [] []] r]; cbn [parse_nat] in Hm'; try (by left);
      try (destruct (isigned t); [|done]);
      try (apply fmap_Some in Hm' as (v & Hv & ->)); right; do 3 eexists; eauto. }
  - apply Hn in Hs. lia.
  - apply Hn in Hv. specialize (Hm r a). lia.
Qed.

(** What [m] accepts, [m'] accepts with the same value. *)
Definition accepts {E F A} (m : outcome E A) (m' : outcome F A) : Prop :=
  ∀ a, m = Ok a → m' = Ok a.

Lemma accepts_bind {E F A B} (m : outcome E A) (m' : outcome F A) (k : A → outcome E B) k' :
  accepts m m' → (∀ a, m = Ok a → accepts (k a) (k' a)) → accepts (m ≫= k) (m' ≫= k').
Proof.
  intros Hm Hk b (a & Ha & Hb)%bind_ok. apply bind_ok. exists a. split; [by apply Hm|by eapply Hk].
Qed.

Lemma accepts_ok_or {E F A} (e : E) (f : F) (o : option A) : accepts (ok_or e o) (ok_or f o).
Proof. intros a. destruct o; [by intros [= ->]|done]. Qed.

Lemma accepts_arith {E F} t z : accepts (arith (E := E) t z) (arith (E := F) t z).
Proof. intros a. unfold arith. destruct (in_rangeb t z), overflow_checks; try done; by intros [= ->]. Qed.

Lemma accepts_slice {E F} n s : accepts (str_slice_to (E := E) n s) (str_slice_to (E := F) n s).
Proof. intros a. unfold str_slice_to. destruct (is_char_boundary s n); [by intros [= ->]|done]. Qed.

Lemma accepts_ok {E F A} (a : A) : accepts (E := E) (F := F) (Ok a) (Ok a).
Proof. intros b. by intros [= ->]. Qed.

Lemma str_len_str_take n s : (n ≤ str_len s)%nat → str_len (str_take n s) = n.
Proof.
  unfold str_take, str_len. revert n. induction s as [|a s IH]; intros [|n] Hn; try done.
  - cbn in Hn. lia.
  - cbn in *. rewrite IH; lia.
Qed.

(** A fraction of at most 38 digits is not the least [i128]. *)
Lemma fraction_not_least scale prefix v :
  0 ≤ scale ≤ 38 → Z.of_nat (str_len prefix) ≤ scale → parse_int I128 prefix = Some v →
  let power := 10 ^ (scale - Z.of_nat (str_len prefix)) in
  in_range I128 power ∧ in_range I128 (v * power) ∧ in_range I128 (- (v * power)).
Proof.
  intros Hs Hl Hv power. apply parse_int_magnitude in Hv.
  assert (1 ≤ power ≤ 10 ^ 38) as Hp.
  { unfold power. split; [|apply Z.pow_le_mono_r; lia].
    pose proof (Z.pow_pos_nonneg 10 (scale - Z.of_nat (str_len prefix))). lia. }
  assert (10 ^ Z.of_nat (str_len prefix) * power = 10 ^ scale) as Hm
    by (unfold power; rewrite <- Z.pow_add_r by lia; f_equal; lia).
  assert (10 ^ scale ≤ 10 ^ 38) as Hb by (apply Z.pow_le_mono_r; lia).
  change (10 ^ 38) with 100000000000000000000000000000000000000 in *.
  assert (- 10 ^ scale ≤ v * power ≤ 10 ^ scale) by nia.
  split_and!; range.
Qed.

(** The two decimal parsers agree on what the strict one accepts. *)
Lemma decimal_parsers_agree s scale :
  0 ≤ scale ≤ 38 → accepts (parse_decimal_to_i128 s scale) (parse_string_to_decimal s scale).
Proof.
  intros Hs. unfold parse_decimal_to_i128, parse_string_to_decimal.
  destruct (String.eqb_spec s "") as [->|_]; [done|].
  eapply accepts_bind.
  { destruct (split_on "." s) as [|? [|? [|]]]; [done|apply accepts_ok..|done]. }
  intros [ip dp] _. eapply accepts_bind; [apply accepts_ok_or|]. intros whole _.
  eapply accepts_bind; [apply accepts_arith|]. intros power _.
  eapply accepts_bind; [apply accepts_ok_or|]. intros result _.
  destruct (Nat.eqb_spec (str_len dp) 0) as [_|_]; [apply accepts_ok|].
  rewrite !(wrap_id USize scale) by range. set (n := Nat.min (str_len dp) (Z.to_nat scale)).
  assert (Z.of_nat n ≤ scale) as Hn by (unfold n; lia).
  rewrite (wrap_id U32 (scale - Z.of_nat n)) by range.
  eapply accepts_bind; [apply accepts_slice|]. intros prefix Hprefix.
  assert (str_len prefix = n) as Hlen.
  { unfold str_slice_to in Hprefix. destruct (is_char_boundary dp n); [|done].
    injection Hprefix as <-. apply str_len_str_take. unfold n. lia. }
  eapply accepts_bind; [apply accepts_ok_or|]. intros v Hv.
  assert (parse_int I128 prefix = Some v) as Hv' by (by destruct (parse_int I128 prefix); simplify_eq/=).
  destruct (fraction_not_least scale prefix v Hs) as (Hp & Hpos & Hneg); [lia|done|].
  rewrite Hlen in Hp, Hpos, Hneg.
  eapply accepts_bind; [apply accepts_arith|]. intros p' Hp'. rewrite arith_in in Hp' by done.
  injection Hp' as <-.
  eapply accepts_bind; [apply accepts_arith|]. intros scaled Hsc.
  destruct (starts_with "-" ip); cbn [mbind outcome_bind]; [|apply accepts_ok_or].
  assert (scaled = v * 10 ^ (scale - Z.of_nat n)) as ->.
  { rewrite arith_in in Hsc by done. by injection Hsc. }
  rewrite arith_in by done. cbn [mbind outcome_bind]. rewrite Z.add_opp_r. apply accepts_ok_or.
Qed.

(** The columns on which the two agree: decimals from text, or from whole numbers whose scaled
    value fits 64 bits; doubles from numbers; no binary data. *)
Definition agreeing (t : ExasolType) (value : json) : Prop :=
  match t with
  | Decimal _ scale =>
      0 ≤ scale ≤ 38 ∧ (value = JNull ∨ is_Some (json_as_str value)) ∨
      0 ≤ scale ≤ 18 ∧ ∃ i, json_as_i64 value = Some i ∧ in_range I64 i ∧
        in_range I64 (i * 10 ^ scale)
  | Double => value = JNull ∨ is_Some (json_as_f64 value)
  | Geometry _ | Hashtype _ => False
  | _ => True
  end.

Lemma accepts_mapM {E F A B} (f : A → outcome E B) (g : A → outcome F B) xs :
  Forall (λ x, accepts (f x) (g x)) xs → accepts (mapM f xs) (mapM g xs).
Proof.
  induction 1 as [|x xs Hx _ IH]; [apply accepts_ok|]. cbn [mapM].
  eapply accepts_bind; [done|]. intros y _. eapply accepts_bind; [done|]. intros ys _. apply accepts_ok.
Qed.

(** Enumerated values and the values themselves. *)
Lemma accepts_each (f : nat → json → outcome ColumnConversionError (option Cell))
    (g : json → outcome ColumnConversionError (option Cell)) values :
  Forall (λ v, ∀ row, accepts (f row v) (g v)) values → accepts (each_row f values) (mapM g values).
Proof.
  intros Hv cells Hc. apply mapM_outcome_ok.
  pose proof (mapM_enumerate f values) as Hm. unfold each_row in Hc. rewrite Hc in Hm.
  destruct Hm as [Hl Hi]. apply Forall2_same_length_lookup. split; [done|]. intros i v c Hvi Hci.
  destruct (Hi i v Hvi) as (c' & Hc' & Ho). simplify_eq.
  by apply (Forall_lookup_1 _ _ _ _ Hv Hvi i).
Qed.

Lemma accepts_each_row (f g : nat → json → outcome ColumnConversionError (option Cell)) values :
  Forall (λ v, ∀ row, accepts (f row v) (g row v)) values →
  accepts (each_row f values) (each_row g values).
Proof.
  intros Hv. unfold each_row. apply accepts_mapM, Forall_lookup. intros i [row v] Hi.
  apply list_lookup_imap_Some in Hi as (v' & Hv' & [= -> ->]). by apply (Forall_lookup_1 _ _ _ _ Hv Hv').
Qed.

Lemma mapM_pure {E A B} (f : A → B) xs : mapM (λ x, Ok (E := E) (f x)) xs = Ok (f <$> xs).
Proof. apply mapM_outcome_ok. induction xs; by constructor. Qed.

(** A nullable temporal value. *)
Lemma accepts_temporal what parse k row v :
  accepts (or_null (from_str what (λ row s, k <$> map_err (invalid_value row) (parse s))) row v)
    (temporal parse k v).
Proof.
  unfold or_null, from_str, temporal. destruct v as [| | |s| |]; try done; [apply accepts_ok|].
  cbn. destruct (parse s); cbn; [apply accepts_ok|done..].
Qed.

(** A whole number at a scale whose power of ten fits 64 bits. *)
Lemma scaled_bounds i scale :
  in_range I64 i → 0 ≤ scale ≤ 18 → in_range I64 (10 ^ scale) ∧ in_range I128 (i * 10 ^ scale).
Proof.
  intros Hr Hsc. assert (1 ≤ 10 ^ scale ≤ 1000000000000000000) as Hp.
  { split; [pose proof (Z.pow_pos_nonneg 10 scale); lia|].
    change 1000000000000000000 with (10 ^ 18). apply Z.pow_le_mono_r; lia. }
  split; [range|].
  assert (- 9223372036854775808 ≤ i ≤ 9223372036854775807) as Hi' by (split; range).
  set (p := 10 ^ scale) in *. clearbody p.
  assert (- 9223372036854775808 * 1000000000000000000 ≤ i * p
          ≤ 9223372036854775807 * 1000000000000000000) by nia.
  range.
Qed.

(** The strict builder scales a whole number in 128 bits, the result set in 64. *)
Lemma strict_whole precision scale row v i :
  json_as_i64 v = Some i → in_range I64 i → 0 ≤ scale ≤ 18 →
  json_decimal_to_i128 precision scale row v = Ok (i * 10 ^ scale).
Proof.
  intros Hi Hr Hsc. destruct (scaled_bounds i scale Hr Hsc) as [Hp Hw].
  unfold json_decimal_to_i128. rewrite Hi, (wrap_id U32 scale), (arith_in I128 (10 ^ scale)) by range.
  cbn [mbind outcome_bind]. by apply arith_in.
Qed.

Lemma lenient_whole scale v i :
  json_as_str v = None → json_as_i64 v = Some i → in_range I64 i → 0 ≤ scale ≤ 18 →
  scale_to_decimal v scale = Some <$> arith I64 (i * 10 ^ scale).
Proof.
  intros Hs Hi Hr Hsc. destruct (scaled_bounds i scale Hr Hsc) as [Hp _].
  unfold scale_to_decimal. by rewrite Hs, Hi, (wrap_id U32 scale), (arith_in I64 (10 ^ scale)) by range.
Qed.

Lemma mapM_read (f : json → option Cell) values :
  Ok (f <$> values) = mapM (λ v, Ok (E := ColumnConversionError) (f v)) values.
Proof. by rewrite mapM_pure. Qed.

(** What the strict builder accepts of a text column, the result set reads the same. *)
Lemma strings_agree values :
  accepts (build_string_array values) (json_to_string_array values render_as_text).
Proof.
  unfold build_string_array, json_to_string_array. intros cells (_ & _ & Hc)%bind_ok.
  revert cells Hc. rewrite mapM_read. apply accepts_each, Forall_true.
  intros v row. by destruct v; try apply accepts_ok.
Qed.

(** What the strict builder accepts of a decimal column, the result set reads the same. *)
Lemma decimals_agree precision scale row v :
  agreeing (Decimal precision scale) v →
  accepts (or_null (λ row v, CDecimal128 <$> json_decimal_to_i128 precision scale row v) row v)
    ((λ scaled : option Z, CDecimal128 <$> scaled) <$>
     map_err (λ failure, ValueError row (reason failure) (overflow failure)) (scale_to_decimal v scale)).
Proof.
  intros [[Hs [->|[s Es]]]|(Hsc & i & Hi & Hr & Hsr)].
  - apply accepts_ok.
  - destruct v as [| | |s'| |]; try done. injection Es as ->. unfold or_null, scale_to_decimal.
    cbn [json_is_null json_as_str]. unfold json_decimal_to_i128. cbn [json_as_i64 json_as_f64 json_as_str].
    intros o (c & (z & (_ & _ & Hz)%bind_ok & ->)%fmap_ok & ->)%fmap_ok.
    destruct (parse_decimal_to_i128 s scale) as [z'| |] eqn:E; [|done..]. injection Hz as ->.
    by rewrite (decimal_parsers_agree s scale Hs z E).
  - destruct v as [| |n| | |]; try done. unfold or_null. cbn [json_is_null].
    rewrite (strict_whole _ _ _ _ i Hi Hr Hsc), (lenient_whole _ _ i) by done.
    rewrite arith_in by done. apply accepts_ok.
Qed.

End Agreement.
