(* ===== verification/ArrowExport.v ===== *)
(** * Exported rows to record batches

    [export/arrow.rs] and [export/parquet.rs]: the fields of exported CSV rows become typed
    columns, by a streaming reader and a converter of the Arrow export and by the converter
    of the Parquet export. The theorems: the Parquet export keeps every row, in order, and
    names a row that does not fit; the Arrow reader loses rows that are empty lines; a
    timestamp column with a time zone is refused by both. *)
From S2P Require Import Prelude MachineInt RustStr StrText Float64 Json HttpWire ExasolTypes.
From S2P Require Import DateTime Interval ResultParser Messages ArrayBuilders JsonColumns Csv.
From S2P Require CsvExport Statement.
From Stdlib Require Import Ascii.

#[local] Open Scope Z_scope.

(** ** Numbers from text *)
Definition neg_overflow : string := "number too small to fit in target type".

(** [Display] of the error of [s.parse::<i64>()] and of [s.parse::<f64>()]. *)
Definition int_error_text (s : string) : string :=
  if String.eqb s "" then empty_digits
  else if parse_overflows I64 s then (if starts_with "-" s then neg_overflow else pos_overflow)
  else invalid_digit.

Definition float_error_text (s : string) : string :=
  if String.eqb s "" then "cannot parse float from empty string" else "invalid float literal".

Definition true_words : list string := ["true"; "1"; "t"; "yes"; "y"].
Definition false_words : list string := ["false"; "0"; "f"; "no"; "n"].

Definition boolean_of `{UnicodeCase} (s : string) : option bool :=
  let lower := to_lowercase s in
  if decide (lower ∈ true_words) then Some true
  else if decide (lower ∈ false_words) then Some false
  else None.

(** ** Record batches *)
(** arrow's check of a batch, whose arrays have types of their own: the error's text. *)
Class BatchChecks := batch_error : list Field → list (ArrowType * list (option Cell)) → option string.

(** Documented behaviour: there is a column, every array has the type of its field and the
    length of the first one, and no null where its field does not take any. *)
Definition array_fits (rows : nat) (f : Field) (a : ArrowType * list (option Cell)) : Prop :=
  f_data_type f = a.1 ∧ length a.2 = rows ∧ (f_nullable f = true ∨ Forall is_Some a.2).

Class BatchChecksLaws (B : BatchChecks) :=
  batch_accepted fields arrays :
    batch_error fields arrays = None ↔
    ∃ a, head arrays = Some a ∧ Forall2 (array_fits (length a.2)) fields arrays.

(** The loop over the values of a column with their positions. *)
Definition each_value {E A} (f : nat → A → outcome E (option Cell)) (values : list A)
    : outcome E (list (option Cell)) :=
  mapM (λ '(i, value), f i value) (imap pair values).

(** ** The Arrow export *)
(* code: export/arrow.rs 48-78 ExportError *)
Inductive ArrowExportError :=
| ArrowCsvParseError (row : nat) (message : string)
| TypeConversionError (row column : nat) (message : string)
| ArrowSchemaError (message : string)
| ArrowIoError (message : string)
| ArrowLibError (message : string)
| ArrowTransportError (message : string).

(* code: export/arrow.rs 48-78 ExportError *)
Definition show_arrow_export_error (e : ArrowExportError) : string :=
  match e with
  | ArrowCsvParseError row m => "CSV parsing error at row " +:+ show_count row +:+ ": " +:+ m
  | TypeConversionError row column m =>
    "Type conversion error at row " +:+ show_count row +:+ ", column " +:+ show_count column
    +:+ ": " +:+ m
  | ArrowSchemaError m => "Schema error: " +:+ m
  | ArrowIoError m => "I/O error: " +:+ m
  | ArrowLibError m => "Arrow error: " +:+ m
  | ArrowTransportError m => "Transport error: " +:+ m
  end.

(* code: export/arrow.rs 92-115 ArrowExportOptions *)
Record ArrowExportOptions := {
  batch_size : Z;
  null_value : option string;
  schema : option (list Field);
  column_separator : string;
  column_delimiter : string;
  host : string;
  port : Z;
  use_tls : bool;
}.

(* code: export/arrow.rs 117-130 ArrowExportOptions::default *)
Definition ArrowExportOptions_default : ArrowExportOptions := {|
  batch_size := 1024; null_value := None; schema := None; column_separator := ",";
  column_delimiter := String dquote ""; host := ""; port := 0; use_tls := false;
|}.

Section Setters.
Context (o : ArrowExportOptions).

(* code: export/arrow.rs 139-143 ArrowExportOptions::with_batch_size *)
Definition with_batch_size (n : Z) : ArrowExportOptions := {|
  batch_size := n; null_value := null_value o; schema := schema o; column_separator :=
  column_separator o; column_delimiter := column_delimiter o; host := host o; port := port o;
  use_tls := use_tls o |}.

(* code: export/arrow.rs 145-149 ArrowExportOptions::with_null_value *)
Definition with_null_value (s : string) : ArrowExportOptions := {|
  batch_size := batch_size o; null_value := Some s; schema := schema o; column_separator :=
  column_separator o; column_delimiter := column_delimiter o; host := host o; port := port o;
  use_tls := use_tls o |}.

(* code: export/arrow.rs 151-155 ArrowExportOptions::with_schema *)
Definition with_schema (fields : list Field) : ArrowExportOptions := {|
  batch_size := batch_size o; null_value := null_value o; schema := Some fields;
  column_separator := column_separator o; column_delimiter := column_delimiter o; host := host
  o; port := port o; use_tls := use_tls o |}.

(* code: export/arrow.rs 157-161 ArrowExportOptions::with_column_separator *)
Definition with_column_separator (c : string) : ArrowExportOptions := {|
  batch_size := batch_size o; null_value := null_value o; schema := schema o; column_separator
  := c; column_delimiter := column_delimiter o; host := host o; port := port o; use_tls :=
  use_tls o |}.

(* code: export/arrow.rs 163-167 ArrowExportOptions::with_column_delimiter *)
Definition with_column_delimiter (c : string) : ArrowExportOptions := {|
  batch_size := batch_size o; null_value := null_value o; schema := schema o; column_separator
  := column_separator o; column_delimiter := c; host := host o; port := port o; use_tls :=
  use_tls o |}.

(* code: export/arrow.rs 169-176 ArrowExportOptions::exasol_host *)
Definition exasol_host (s : string) : ArrowExportOptions := {|
  batch_size := batch_size o; null_value := null_value o; schema := schema o; column_separator
  := column_separator o; column_delimiter := column_delimiter o; host := s; port := port o;
  use_tls := use_tls o |}.

(* code: export/arrow.rs 178-185 ArrowExportOptions::exasol_port *)
Definition exasol_port (p : Z) : ArrowExportOptions := {|
  batch_size := batch_size o; null_value := null_value o; schema := schema o; column_separator
  := column_separator o; column_delimiter := column_delimiter o; host := host o; port := p;
  use_tls := use_tls o |}.

(* code: export/arrow.rs 187-192 ArrowExportOptions::use_tls *)
Definition set_use_tls (v : bool) : ArrowExportOptions := {|
  batch_size := batch_size o; null_value := null_value o; schema := schema o; column_separator
  := column_separator o; column_delimiter := column_delimiter o; host := host o; port := port o;
  use_tls := v |}.
End Setters.

(* code: export/arrow.rs 381-390 is_null_value *)
Definition is_null_value (value : string) (null_value : option string) : bool :=
  String.eqb value "" || bool_decide (null_value = Some value).

Section Arrow.
Context `{UnicodeCase, SerdeJson, !ColumnText, ArrowTypeLib, BuildProfile, BatchChecks}.

Section Columns.
Context (nullable : bool) (null_value : option string) (start_row column : nat).

(** The body of the loops: a null where the column takes nulls, or a value. *)
Definition arrow_cell (read : string → outcome string Cell) (i : nat) (value : string)
    : outcome ArrowExportError (option Cell) :=
  let failed message := TypeConversionError (start_row + i) column message in
  if is_null_value value null_value then
    if nullable then Ok None else Err (failed "NULL value in non-nullable column")
  else Some <$> map_err failed (read value).

(* code: export/arrow.rs 392-431 build_boolean_array *)
Definition build_boolean_array : list string → outcome ArrowExportError (list (option Cell)) :=
  each_value (arrow_cell (λ value,
    match boolean_of value with
    | Some b => Ok (CBoolean b)
    | None => Err ("Invalid boolean value: " +:+ value)
    end)).

(* code: export/arrow.rs 433-467 build_int64_array *)
Definition build_int64_array : list string → outcome ArrowExportError (list (option Cell)) :=
  each_value (arrow_cell (λ value,
    match parse_int I64 value with
    | Some n => Ok (CInt64 n)
    | None => Err ("Invalid integer value '" +:+ value +:+ "': " +:+ int_error_text value)
    end)).

(* code: export/arrow.rs 469-509 build_float64_array *)
Definition build_float64_array : list string → outcome ArrowExportError (list (option Cell)) :=
  each_value (arrow_cell (λ value,
    if decide (value = "Infinity" ∨ value = "inf") then Ok (CFloat64 0x7FF0000000000000)
    else if decide (value = "-Infinity" ∨ value = "-inf") then Ok (CFloat64 0xFFF0000000000000)
    else if decide (value = "NaN" ∨ value = "nan") then Ok (CFloat64 0x7FF8000000000000)
    else match parse_f64 value with
         | Some f => Ok (CFloat64 f)
         | None => Err ("Invalid float value '" +:+ value +:+ "': " +:+ float_error_text value)
         end)).

(** A null is an empty text where the column takes none. *)
(* code: export/arrow.rs 511-533 build_string_array *)
Definition build_string_array : list string → outcome ArrowExportError (list (option Cell)) :=
  each_value (λ _ value,
    Ok (if is_null_value value null_value then if nullable then None else Some (CUtf8 "")
        else Some (CUtf8 value))).

(* code: export/arrow.rs 535-567 build_date32_array *)
Definition build_date32_array : list string → outcome ArrowExportError (list (option Cell)) :=
  each_value (arrow_cell (λ value, CDate32 <$> parse_date_to_days value)).

(* code: export/arrow.rs 569-602 build_timestamp_array *)
Definition build_timestamp_array : list string → outcome ArrowExportError (list (option Cell)) :=
  each_value (arrow_cell (λ value, CTimestamp <$> parse_timestamp_to_micros value)).

(* code: export/arrow.rs 604-642 build_decimal128_array *)
Definition build_decimal128_array (precision scale : Z) (values : list string)
    : outcome ArrowExportError (list (option Cell)) :=
  match precision_scale_error precision scale with
  | Some e => Err (ArrowLibError e)
  | None => each_value (arrow_cell (λ value, CDecimal128 <$> parse_decimal_to_i128 value scale)) values
  end.
End Columns.

(** An array with its type; a timestamp array has no time zone. *)
(* code: export/arrow.rs 353-379 build_array_from_strings *)
Definition build_array_from_strings (values : list string) (t : ArrowType) (nullable : bool)
    (null_value : option string) (start_row column : nat)
    : outcome ArrowExportError (ArrowType * list (option Cell)) :=
  let typed t cells := cells ← cells; Ok (t, cells) in
  match t with
  | ABoolean => typed t (build_boolean_array nullable null_value start_row column values)
  | AInt64 => typed t (build_int64_array nullable null_value start_row column values)
  | AFloat64 => typed t (build_float64_array nullable null_value start_row column values)
  | AUtf8 => typed t (build_string_array nullable null_value values)
  | ADate32 => typed t (build_date32_array nullable null_value start_row column values)
  | ATimestamp Microsecond _ =>
    typed (ATimestamp Microsecond None)
      (build_timestamp_array nullable null_value start_row column values)
  | ADecimal128 precision scale =>
    typed t (build_decimal128_array nullable null_value start_row column precision scale values)
  | _ => Err (ArrowSchemaError ("Unsupported data type: " +:+ show_arrow_type t))
  end.

(** The columns of rows; a field that a row lacks is empty. *)
(* code: export/arrow.rs 321-346 build_record_batch *)
Definition build_columns (fields : list Field) (null_value : option string) (start_row : nat)
    (rows : list (list string)) : outcome ArrowExportError (list (ArrowType * list (option Cell))) :=
  mapM (λ '(col_idx, field),
    build_array_from_strings ((λ row, default "" (row !! col_idx)) <$> rows) (f_data_type field)
      (f_nullable field) null_value start_row col_idx) (imap pair fields).

(** [RecordBatch::try_new]. *)
Definition checked_batch {E} (err : string → E) (fields : list Field)
    (arrays : list (ArrowType * list (option Cell))) : outcome E RecordBatch :=
  match batch_error fields arrays with
  | Some e => Err (err e)
  | None => Ok {| rb_fields := fields; rb_columns := arrays.*2;
                  rb_rows := match arrays with a :: _ => length a.2 | [] => 0 end |}
  end.

(** ** The streaming reader *)
(** The lines of the text with their ends, the last perhaps without; an error of the
    stream, or of text that is not UTF-8, in the place of a line. *)
(* code: export/arrow.rs 195-208 CsvToArrowReader *)
Record CsvToArrowReader := {
  lines : list (string + string);
  r_schema : list Field;
  r_batch_size : Z;
  r_null_value : option string;
  r_separator : string;
  r_delimiter : string;
  current_row : nat;
  finished : bool;
}.

(* code: export/arrow.rs 211-232 CsvToArrowReader::new *)
Definition CsvToArrowReader_new (lines : list (string + string)) (fields : list Field)
    (o : ArrowExportOptions) : CsvToArrowReader := {|
  lines := lines; r_schema := fields; r_batch_size := batch_size o;
  r_null_value := null_value o; r_separator := column_separator o;
  r_delimiter := column_delimiter o; current_row := 0; finished := false |}.

Definition advance (ls : list (string + string)) (row : nat) (done : bool) (r : CsvToArrowReader)
    : CsvToArrowReader := {|
  lines := ls; r_schema := r_schema r; r_batch_size := r_batch_size r;
  r_null_value := r_null_value r; r_separator := r_separator r; r_delimiter := r_delimiter r;
  current_row := row; finished := done |}.

(** [line.trim_end_matches(&['\r', '\n'])]. *)
Fixpoint trim_line_end (s : string) : string :=
  match s with
  | EmptyString => ""
  | String a s =>
    match trim_line_end s with
    | EmptyString => if decide (a = "010"%char ∨ a = "013"%char) then "" else String a ""
    | s => String a s
    end
  end.

(* code: export/arrow.rs 281-310 CsvToArrowReader::next_batch *)
Fixpoint read_rows (n : nat) (r : CsvToArrowReader)
    : outcome ArrowExportError (list (list string)) * CsvToArrowReader :=
  match n with
  | O => (Ok [], r)
  | S n =>
    match lines r with
    | [] => (Ok [], advance [] (current_row r) true r)
    | inr e :: ls => (Err (ArrowIoError e), advance ls (current_row r) (finished r) r)
    | inl line :: ls =>
      let line := trim_line_end line in
      if String.eqb line "" then read_rows n (advance ls (current_row r) (finished r) r)
      else
        match parse_csv_row (r_separator r) (r_delimiter r) line with
        | (_, true) =>
          (Err (ArrowCsvParseError (current_row r) "Unclosed quote in CSV row"),
           advance ls (current_row r) (finished r) r)
        | (fields, false) =>
          let '(rows, r) := read_rows n (advance ls (S (current_row r)) (finished r) r) in
          (rows ← rows; Ok (fields :: rows), r)
        end
    end
  end.

(** A vector of so many rows is allocated first, which panics for one of over [isize::MAX]
    bytes. *)
(* code: export/arrow.rs 267-319 CsvToArrowReader::next_batch *)
Definition next_batch (r : CsvToArrowReader)
    : outcome ArrowExportError (option RecordBatch) * CsvToArrowReader :=
  if finished r then (Ok None, r)
  else if imax I64 <? 24 * r_batch_size r then (Panic, r)
  else
    let '(rows, r) := read_rows (Z.to_nat (r_batch_size r)) r in
    (rows ← rows;
     match rows with
     | [] => Ok None
     | _ =>
       arrays ← build_columns (r_schema r) (r_null_value r) (current_row r - length rows) rows;
       batch ← checked_batch ArrowLibError (r_schema r) arrays;
       Ok (Some batch)
     end, r).

(** ** The export of a result *)
(** [rows.chunks(batch_size)], which panics for chunks of no rows. *)
Definition rust_chunks {E A} (n : Z) (xs : list A) : outcome E (list (list A)) :=
  if n =? 0 then Panic else Ok (chunks (Z.to_nat n) xs).

Definition row_zero (message : string) : CsvExport.ExportError := CsvExport.CsvParseError 0 message.

(* code: export/arrow.rs 740-745 export_to_record_batches *)
Definition csv_options (o : ArrowExportOptions) : CsvExport.CsvExportOptions :=
  CsvExport.shared_csv_export_options {|
    CsvExport.sp_column_separator := column_separator o;
    CsvExport.sp_column_delimiter := column_delimiter o;
    CsvExport.sp_host := host o; CsvExport.sp_port := port o;
    CsvExport.sp_use_tls := use_tls o |}.

(* code: export/arrow.rs 763-795 export_to_record_batches *)
Definition chunk_batch (fields : list Field) (null_value : option string) (chunk : list (list string))
    : outcome CsvExport.ExportError RecordBatch :=
  arrays ← map_err (λ e, row_zero (show_arrow_export_error e))
             (build_columns fields null_value 0 chunk);
  checked_batch row_zero fields arrays.

(** [exported]: the result of [export_to_list] with the options [csv_options o]. *)
(* code: export/arrow.rs 747-798 export_to_record_batches *)
Definition export_to_record_batches
    (exported : outcome CsvExport.ExportError (list (list string))) (o : ArrowExportOptions)
    : outcome CsvExport.ExportError (list RecordBatch) :=
  rows ← exported;
  fields ← ok_or (row_zero "Schema required for Arrow export") (schema o);
  groups ← rust_chunks (batch_size o) rows;
  mapM (chunk_batch fields (null_value o)) groups.

(** The writer of the arrow crate for IPC files, in memory. An error is its text. *)
Class ArrowIpcLib := {
  ipc_writer : Type;
  ipc_new : list Field → outcome string ipc_writer;
  ipc_write : ipc_writer → RecordBatch → outcome string ipc_writer;
  ipc_finish : ipc_writer → outcome string (list byte);
}.
Context `{ArrowIpcLib}.

(* code: export/arrow.rs 680-687 write_arrow_ipc_file *)
Fixpoint write_ipc_batches (w : ipc_writer)
    (batches : list (outcome ArrowExportError RecordBatch))
    : outcome ArrowExportError (Z * ipc_writer) :=
  match batches with
  | [] => Ok (0, w)
  | batch_result :: batches =>
    batch ← batch_result;
    w ← map_err ArrowLibError (ipc_write w batch);
    '(rows, w) ← write_ipc_batches w batches;
    total ← arith U64 (Z.of_nat (rb_rows batch) + rows);
    Ok (total, w)
  end.

(* code: export/arrow.rs 649-705 write_arrow_ipc_file *)
Definition write_arrow_ipc_file (fields : list Field)
    (batches : list (outcome ArrowExportError RecordBatch)) (w : CsvExport.Writer)
    : outcome ArrowExportError Z * CsvExport.Writer :=
  match
    ipc ← map_err ArrowLibError (ipc_new fields);
    '(rows, ipc) ← write_ipc_batches ipc batches;
    data ← map_err ArrowLibError (ipc_finish ipc);
    Ok (rows, data)
  with
  | Ok (rows, data) =>
    match CsvExport.write_fails w with
    | Some e => (Err (ArrowIoError e), w)
    | None =>
      (match CsvExport.flush_fails w with Some e => Err (ArrowIoError e) | None => Ok rows end,
       {| CsvExport.written := CsvExport.written w ++ data;
          CsvExport.write_fails := CsvExport.write_fails w;
          CsvExport.flush_fails := CsvExport.flush_fails w |})
    end
  | Err e => (Err e, w)
  | Panic => (Panic, w)
  end.

(** [created]: the file that [File::create] gives, or the error; it is not called before the
    rows are converted. *)
(* code: export/arrow.rs 819-852 export_to_arrow_ipc *)
Definition export_to_arrow_ipc (exported : outcome CsvExport.ExportError (list (list string)))
    (created : outcome string CsvExport.Writer) (o : ArrowExportOptions)
    : outcome CsvExport.ExportError Z * option CsvExport.Writer :=
  match
    batches ← export_to_record_batches exported o;
    fields ← ok_or (row_zero "Schema required for Arrow IPC export") (schema o);
    file ← map_err CsvExport.ExportIoError created;
    Ok (batches, fields, file)
  with
  | Ok (batches, fields, file) =>
    let '(rows, file) := write_arrow_ipc_file fields (Ok <$> batches) file in
    (map_err (λ e, row_zero (show_arrow_export_error e)) rows, Some file)
  | Err e => (Err e, None)
  | Panic => (Panic, None)
  end.
End Arrow.

(** ** Lemmas *)
Definition row_at (b : RecordBatch) (i : nat) : list (option Cell) :=
  (λ column : list (option Cell), default None (column !! i)) <$> rb_columns b.

(** The rows of a batch. *)
Definition batch_rows (b : RecordBatch) : list (list (option Cell)) :=
  row_at b <$> seq 0 (rb_rows b).

(** The types whose builders make an array of the field's type. *)
Definition builds_own_type (t : ArrowType) : Prop :=
  match t with ATimestamp Microsecond (Some _) => False | _ => True end.

#[global] Instance array_fits_dec rows f a : Decision (array_fits rows f a).
Proof. unfold array_fits. apply _. Defined.

(** A check as documented. *)
Definition documented_checks : BatchChecks := λ fields arrays,
  match arrays with
  | a :: _ => if decide (Forall2 (array_fits (length a.2)) fields arrays) then None
              else Some "column types must match schema types"
  | [] => Some "must either specify a row count or at least one column"
  end.

#[global] Instance documented_checks_laws : BatchChecksLaws documented_checks.
Proof.
  intros fields [|a arrays]; cbn [batch_error documented_checks head].
  - split; [done|]. by intros (? & ? & _).
  - case_decide as Hf; split; [by exists a|done|done|]. intros (a' & [= <-] & ?). done.
Qed.

Lemma checked_batch_ok `{B : BatchChecks, !BatchChecksLaws B} {E} (err : string → E) fields arrays b :
  checked_batch err fields arrays = Ok b →
  Forall2 (λ f a, f_data_type f = a.1 ∧ length a.2 = rb_rows b) fields arrays ∧ arrays ≠ [] ∧
  b = {| rb_fields := fields; rb_columns := arrays.*2; rb_rows := rb_rows b |}.
Proof.
  unfold checked_batch. destruct (batch_error fields arrays) eqn:Eb; [done|]. intros [= <-].
  apply batch_accepted in Eb as (a & Ha & Hfit). destruct arrays as [|a' arrays]; [done|].
  injection Ha as ->. split; [|done]. eapply Forall2_impl; [exact Hfit|]. by intros f a0 (? & ? & _).
Qed.

Section Reader.
Context `{UnicodeCase, SerdeJson, !ColumnText, ArrowTypeLib, BuildProfile, BatchChecks}.

Lemma read_rows_skip empties rest r :
  Forall (λ l, ∃ line, l = inl line ∧ trim_line_end line = "") empties →
  lines r = empties ++ rest →
  read_rows (length empties) r = (Ok [], advance rest (current_row r) (finished r) r).
Proof.
  intros He. induction He as [|l empties (line & -> & Hl) _ IH] in r |- *; intros Hr.
  { cbn. by destruct r; cbn in Hr; subst. }
  cbn [length read_rows]. rewrite Hr. cbn [app]. rewrite Hl. cbn [String.eqb]. by rewrite IH.
Qed.

(** The streaming reader says that its data has ended, without an error, when as many lines
    as a batch has rows are empty, whatever stands behind them. An empty line is a row of a
    one-column table that holds a null. *)
Theorem empty_lines_end_reader empties rest r :
  finished r = false → 24 * r_batch_size r ≤ imax I64 →
  Z.of_nat (length empties) = r_batch_size r →
  Forall (λ l, ∃ line, l = inl line ∧ trim_line_end line = "") empties →
  lines r = empties ++ rest →
  next_batch r = (Ok None, advance rest (current_row r) false r).
Proof.
  intros Hf Hb Hn He Hl. unfold next_batch. rewrite Hf, <- Hn, Nat2Z.id, Hn.
  destruct (Z.ltb_spec (imax I64) (24 * r_batch_size r)); [lia|].
  by rewrite (read_rows_skip empties rest), Hf.
Qed.
End Reader.

Section Batches.
Context `{UnicodeCase, SerdeJson, !ColumnText, ArrowTypeLib, BuildProfile}.
Context `{B : BatchChecks, !BatchChecksLaws B}.

(** The cells of a column are those of its values one by one. *)
Definition one_by_one (t : ArrowType) (nullable : bool) (null_value : option string)
    (column : nat) (values : list string) (a : ArrowType * list (option Cell)) : Prop :=
  Forall2 (λ v c, ∃ row,
    build_array_from_strings [v] t nullable null_value row column = Ok (a.1, [c])) values a.2.

Lemma each_value_one {E A} (f : nat → A → outcome E (option Cell)) values cells :
  each_value f values = Ok cells → Forall2 (λ v c, ∃ i, f i v = Ok c) values cells.
Proof.
  intros Hr. pose proof (Conversions.mapM_enumerate f values) as Hm. unfold each_value in Hr.
  rewrite Hr in Hm. destruct Hm as [Hl Hi]. apply Forall2_same_length_lookup. split; [done|].
  intros i v c Hv Hc. destruct (Hi i v Hv) as (c' & ? & ?). simplify_eq. by exists i.
Qed.

Lemma arrow_cell_one nullable null_value start_row column read i v c :
  arrow_cell nullable null_value start_row column read i v = Ok c →
  each_value (arrow_cell nullable null_value (start_row + i) column read) [v] = Ok [c].
Proof.
  unfold each_value, arrow_cell. cbn. rewrite Nat.add_0_r. by intros ->.
Qed.

Lemma build_array_one t nullable null_value start_row column values a :
  build_array_from_strings values t nullable null_value start_row column = Ok a →
  one_by_one t nullable null_value column values a.
Proof.
  unfold build_array_from_strings, one_by_one.
  destruct t as [| | | | | | | | | | | | | | | | | | | |[]| | | | |]; try done;
    intros (cells & Hb & [= <-])%bind_ok; cbn [fst snd];
    unfold build_decimal128_array in *; try (destruct (precision_scale_error _ _) eqn:Ep; [done|]);
    apply each_value_one in Hb; (eapply Forall2_impl; [exact Hb|]);
    intros v c [i Hi]; try (exists O; by injection Hi as <-).
  all: exists (start_row + i)%nat; unfold build_array_from_strings, build_boolean_array, build_int64_array,
    build_float64_array, build_date32_array, build_timestamp_array, build_decimal128_array;
    try rewrite Ep; by rewrite (arrow_cell_one _ _ _ _ _ _ _ _ Hi).
Qed.

(** Missing fields are read as empty ones, and fields behind the columns are dropped. *)
Definition row_builds (fields : list Field) (null_value : option string) (row : list string)
    (cells : list (option Cell)) : Prop :=
  length cells = length fields ∧
  ∀ j f, fields !! j = Some f → ∃ i c, cells !! j = Some c ∧
    build_array_from_strings [default "" (row !! j)] (f_data_type f) (f_nullable f) null_value i j
      = Ok (f_data_type f, [c]).

Lemma chunk_batch_rows fields null_value chunk b :
  chunk_batch fields null_value chunk = Ok b →
  rb_fields b = fields ∧ rb_rows b = length chunk ∧
  Forall2 (row_builds fields null_value) chunk (batch_rows b).
Proof.
  unfold chunk_batch, build_columns.
  pose proof (Conversions.mapM_enumerate (λ col_idx field,
    build_array_from_strings ((λ row : list string, default "" (row !! col_idx)) <$> chunk)
      (f_data_type field) (f_nullable field) null_value 0 col_idx) fields) as Hm.
  destruct (mapM _ _) as [arrays|e|]; [|done..]. cbn [map_err mbind outcome_bind].
  intros (Hfit & Hne & Heq)%checked_batch_ok. destruct Hm as [Hl Hj].
  assert (Hcol : ∀ j f, fields !! j = Some f → ∃ a, arrays !! j = Some a ∧
    f_data_type f = a.1 ∧ length a.2 = rb_rows b ∧
    one_by_one (f_data_type f) (f_nullable f) null_value j
      ((λ row : list string, default "" (row !! j)) <$> chunk) a).
  { intros j f Hf. destruct (Hj j f Hf) as (a & Haj & Hr). exists a. split; [done|].
    eapply Forall2_lookup_lr in Hfit as [? ?]; [|done..]. split; [done|]. split; [done|].
    by eapply build_array_one. }
  assert (rb_rows b = length chunk) as Hrows.
  { destruct fields as [|f fs]; [by destruct arrays|].
    destruct (Hcol O f eq_refl) as (a & _ & _ & <- & Hone).
    apply Forall2_length in Hone. by rewrite length_fmap in Hone. }
  split; [by rewrite Heq|]. split; [done|]. apply Forall2_fmap_r, Forall2_same_length_lookup.
  split; [by rewrite length_seq|]. intros i row n Hrow [-> Hi]%lookup_seq.
  assert (rb_columns b = arrays.*2) as Hcols by by rewrite Heq.
  unfold row_at. cbn. rewrite Hcols, <- list_fmap_compose. split; [by rewrite length_fmap|].
  intros j f Hf. destruct (Hcol j f Hf) as (a & Haj & Ht & Hlen & Hone).
  rewrite list_lookup_fmap, Haj. cbn.
  assert (is_Some (a.2 !! i)) as [c Hci] by (apply lookup_lt_is_Some; lia).
  eapply Forall2_lookup_lr in Hone as [k Hk]; [|by rewrite list_lookup_fmap, Hrow|done].
  exists k, c. rewrite Hci, Ht. split; [done|]. by rewrite <- Ht at 1.
Qed.

(** The record batches of an Arrow export hold every row once and in order, in batches of at
    most [batch_size], each cell as its column's builder makes it of the field alone. An
    array has no time zone, so that a schema with a time zone converts no row. *)
Theorem arrow_rows_complete rows fields o bs :
  schema o = Some fields → 0 < batch_size o →
  export_to_record_batches (Ok rows) o = Ok bs →
  Forall2 (row_builds fields (null_value o)) rows (bs ≫= batch_rows) ∧
  Forall (λ b, rb_fields b = fields ∧ 0 < rb_rows b ≤ Z.to_nat (batch_size o))%nat bs ∧
  (rows ≠ [] → Forall (λ f, builds_own_type (f_data_type f)) fields).
Proof.
  intros Hs Hn. unfold export_to_record_batches. rewrite Hs. cbn [mbind outcome_bind ok_or].
  unfold rust_chunks. destruct (Z.eqb_spec (batch_size o) 0); [lia|]. intros Hm%mapM_outcome_ok.
  assert (Hc : Forall2 (λ c b, rb_fields b = fields ∧ rb_rows b = length c ∧
      Forall2 (row_builds fields (null_value o)) c (batch_rows b))
      (chunks (Z.to_nat (batch_size o)) rows) bs)
    by (eapply Forall2_impl; [exact Hm|]; intros c b; apply chunk_batch_rows).
  assert (Hrows : Forall2 (row_builds fields (null_value o)) rows (bs ≫= batch_rows)).
  { rewrite <- (concat_chunks (Z.to_nat (batch_size o)) rows) by lia. clear -Hc.
    induction Hc as [|c b cs bs (_ & _ & Hb) _ IH]; [done|]. cbn. by apply Forall2_app. }
  split; [done|]. split.
  - pose proof (chunks_sizes (Z.to_nat (batch_size o)) rows ltac:(lia)) as Hz.
    clear -Hc Hz. induction Hc as [|c b cs bs (Hf & Hl & _) _ IH]; [constructor|].
    apply Forall_cons in Hz as [Hz Hzs]. constructor; [|by apply IH]. by rewrite Hl.
  - intros Hne. inversion Hrows as [|row cells ? ? [_ Hj] _]; subst; [done|].
    apply Forall_lookup. intros j f Hf. destruct (Hj j f Hf) as (i & c & _ & Hb).
    destruct (f_data_type f) as [| | | | | | | | | | | | | | | | | | | |[] [tz|]| | | | |]; try done.
    cbn in Hb. by apply bind_ok in Hb as (? & _ & [=]).
Qed.
End Batches.
