(* ===== verification/ResultSets.v ===== *)
(** * Result sets

    [query/results.rs]: a result is a row count or a stream of batches, whose pages are
    fetched on demand - all at once or one by one - until the rows received reach the total
    that Exasol announced. The transport is an interface with two operations. *)
From S2P Require Import Prelude MachineInt RustStr Float64 Json Errors Effect ExasolTypes.
From S2P Require Import ResultParser Messages Lifecycle ArrayBuilders ArrowConverter.
From S2P Require Import JsonColumns.
From S2P Require Statement.

#[local] Open Scope Z_scope.

(** The operations of [TransportProtocol] that a result set uses, on a state [S] that holds
    the transport. *)
Class ResultTransport `{SerdeJson} (S : Type) := {
  fetch_results : Z → action stop S ResultData;
  close_result_set : Z → action stop S unit;
}.

(** Why an operation of a result set ended without a result: an error, or the drop of its
    future. *)
Inductive query_stop := QueryFailed (e : QueryError) | QueryCancelled.

(** [m.await.map_err(err)]. *)
Definition map_stop {S A} (err : TransportError → QueryError) (m : action stop S A)
    : action query_stop S A := λ s,
  match m s with
  | (Ok a, s) => (Ok a, s)
  | (Err (Failed e), s) => (Err (QueryFailed (err e)), s)
  | (Err Cancelled, s) => (Err QueryCancelled, s)
  | (Panic, s) => (Panic, s)
  end.

(** [map_err(|e| QueryError::ExecutionFailed(e.to_string()))]. *)
Definition execution_failed (e : TransportError) : QueryError :=
  ExecutionFailed (show_transport_error e).
Definition conversion_failed (e : ConversionError) : QueryError :=
  ExecutionFailed (show_conversion_error e).

(** ** Metadata *)
(* code: query/results.rs 26-37 QueryMetadata *)
Record QueryMetadata := {
  qm_schema : Schema;
  total_rows : option Z;
  column_count : nat;
  execution_time_ms : option Z;
}.

(* code: query/results.rs 40-48 QueryMetadata::new *)
Definition QueryMetadata_new (s : Schema) (total : option Z) : QueryMetadata :=
  {| qm_schema := s; total_rows := total; column_count := length (s_fields s);
     execution_time_ms := None |}.

(* code: query/results.rs 51-54 QueryMetadata::with_execution_time *)
Definition with_execution_time (m : QueryMetadata) (ms : Z) : QueryMetadata :=
  {| qm_schema := qm_schema m; total_rows := total_rows m; column_count := column_count m;
     execution_time_ms := Some ms |}.

(* code: query/results.rs 57-63 QueryMetadata::column_names *)
Definition column_names (m : QueryMetadata) : list string :=
  (λ f, f_name (mf_field f)) <$> s_fields (qm_schema m).

(* code: query/results.rs 66-68 QueryMetadata::column_types *)
Definition column_types_of (m : QueryMetadata) : list ArrowType :=
  (λ f, f_data_type (mf_field f)) <$> s_fields (qm_schema m).

(** ** The result *)
(* code: query/results.rs 88-103 ResultSetInner *)
Inductive ResultSetInner :=
| RowCount (count : Z)
| Stream (handle : option Z) (metadata : QueryMetadata) (batches : list Batch) (complete : bool).

(* code: query/results.rs 211-217 ResultSet::row_count *)
Definition row_count (r : ResultSetInner) : option Z :=
  match r with RowCount count => Some count | _ => None end.

(* code: query/results.rs 220-225 ResultSet::metadata *)
Definition metadata_of (r : ResultSetInner) : option QueryMetadata :=
  match r with Stream _ metadata _ _ => Some metadata | _ => None end.

(* code: query/results.rs 228-230 ResultSet::is_stream *)
Definition is_stream (r : ResultSetInner) : bool :=
  match r with Stream _ _ _ _ => true | _ => false end.

(* code: query/results.rs 378-380 ResultSet::row_count_of *)
Definition row_count_of (batches : list Batch) : nat := sum_list (b_rows <$> batches).

(** [metadata.total_rows.unwrap_or(0).max(0) as usize]. *)
Definition total_of (m : QueryMetadata) : nat := Z.to_nat (default 0 (total_rows m)).


Section Payload.
Context `{J : SerdeJson, !ColumnText, Statement.ParameterText, PowI, BuildProfile}.
Context `{TypeJson, ArrowLib, EmptyBatchError}.

(* code: query/results.rs 388-403 ResultSet::build_schema *)
Definition build_schema (columns : list ColumnInfo) : outcome ConversionError Schema :=
  column_metadata ← mapM (λ col,
    data_type ← exasol_type_of (ci_data_type col);
    Ok {| cm_name := ci_name col; cm_data_type := data_type; cm_nullable := true |}) columns;
  schema_build (add_columns SchemaBuilder_new column_metadata).

(** [RecordBatch::try_new_with_options] with a row count. *)
Definition try_new_with_rows (s : Schema) (columns : list (list (option Cell))) (rows : nat)
    : outcome ConversionError Batch :=
  match record_batch_error (fields_of s) columns rows with
  | Some e => Err (ConversionArrowError e)
  | None => Ok {| b_schema := s; b_columns := columns; b_rows := rows |}
  end.

(* code: query/results.rs 422-456 ResultSet::with_field_metadata *)
Definition with_field_metadata (batch : Batch) (s : Schema) : outcome ConversionError Batch :=
  let batch_fields := s_fields (b_schema batch) in
  if (length batch_fields =? length (s_fields s))%nat then
    let fields := zip_with (λ batch_field schema_field,
      {| mf_field := mf_field batch_field; mf_metadata := mf_metadata schema_field |})
      batch_fields (s_fields s) in
    try_new_with_rows {| s_fields := fields; s_metadata := s_metadata (b_schema batch) |}
      (b_columns batch) (b_rows batch)
  else Err (SchemaMismatch ("Arrow batch has " +:+ show_count (length batch_fields)
    +:+ " columns, but the result set metadata schema has " +:+ show_count (length (s_fields s)))).

(* code: query/results.rs 412-420 ResultSet::payload_to_record_batch *)
Definition payload_to_record_batch (d : ResultData) (s : Schema) : outcome ConversionError Batch :=
  match rd_data d with
  | PayloadArrow batch => with_field_metadata (native_batch batch) s
  | PayloadJson rows => column_major_to_record_batch rows s
  end.

(* code: query/results.rs 164-209 ResultSet::from_transport_result *)
Definition from_transport_result (r : QueryResult) : outcome QueryError ResultSetInner :=
  match r with
  | QRowCount count => Ok (RowCount count)
  | QResultSet handle data =>
    s ← map_err conversion_failed (build_schema (rd_columns data));
    let metadata := QueryMetadata_new s (Some (rd_total_rows data)) in
    let num_rows_received := wrap I64 (Z.of_nat (payload_num_rows (rd_data data))) in
    batch ← map_err conversion_failed
      (if payload_is_empty (rd_data data) then empty_record_batch s
       else payload_to_record_batch data s);
    let complete := bool_decide (handle = None) || (rd_total_rows data =? num_rows_received) in
    Ok (Stream handle metadata [batch] complete)
  end.

(** ** Pages *)
(* code: query/results.rs 149-152 PageFetchError *)
Inductive PageFetchError := Fetch (e : QueryError) | RowCountMismatch (message : string).

(* code: query/results.rs 154-161 PageFetchError::from *)
Definition page_error (e : PageFetchError) : QueryError :=
  match e with Fetch e => e | RowCountMismatch message => ExecutionFailed message end.

Section Fetching.
Context {S : Type} `{!ResultTransport S}.

(** A page is fetched, or the stream has ended; an error of the page is a value, and only a
    dropped future stops the action. *)
(* code: query/results.rs 323-361 ResultSet::fetch_page_after *)
Definition fetch_page_after (handle : Z) (m : QueryMetadata) (rows_received : nat)
    : action query_stop S (option Batch + PageFetchError) := λ s,
  let total := total_of m in
  if (0 <? total)%nat && (total <=? rows_received)%nat then (Ok (inl None), s)
  else
    match fetch_results handle s with
    | (Err (Failed e), s) => (Ok (inr (Fetch (execution_failed e))), s)
    | (Err Cancelled, s) => (Err QueryCancelled, s)
    | (Panic, s) => (Panic, s)
    | (Ok result_data, s) =>
      if payload_is_empty (rd_data result_data) then
        (Ok (if (total =? 0)%nat then inl None
             else inr (RowCountMismatch ("Result set ended after " +:+ show_count rows_received
                    +:+ " rows, but its total row count is " +:+ show_count total))), s)
      else
        match payload_to_record_batch result_data (qm_schema m) with
        | Err e => (Ok (inr (Fetch (conversion_failed e))), s)
        | Panic => (Panic, s)
        | Ok batch =>
          let rows_after_page := (rows_received + b_rows batch)%nat in
          if (0 <? total)%nat && (total <? rows_after_page)%nat then
            (Ok (inr (RowCountMismatch ("Result set delivered " +:+ show_count rows_after_page
                   +:+ " rows, but its total row count is " +:+ show_count total))), s)
          else (Ok (inl (Some batch)), s)
        end
    end.

(** The loop over the pages; without a known total the server decides when it ends. *)
(* code: query/results.rs 299-313 ResultSet::paginate_remaining *)
Fixpoint paginate_remaining (exhausted : action query_stop S (list Batch)) (fuel : nat) (handle : Z)
    (m : QueryMetadata) (collected : list Batch) : action query_stop S (list Batch) :=
  match fuel with
  | O => exhausted
  | Datatypes.S fuel =>
    page ← fetch_page_after handle m (row_count_of collected);
    match page with
    | inl (Some batch) => paginate_remaining exhausted fuel handle m (collected ++ [batch])
    | inl None => mret collected
    | inr e => λ s, (Err (QueryFailed (page_error e)), s)
    end
  end.

(* code: query/results.rs 364-376 ResultSet::check_buffered_rows *)
Definition check_buffered_rows (m : QueryMetadata) (batches : list Batch) : outcome QueryError unit :=
  let total := total_of m in
  let rows := row_count_of batches in
  if (0 <? total)%nat && negb (rows =? total)%nat then
    Err (ExecutionFailed ("Result set delivered " +:+ show_count rows
                          +:+ " rows, but its total row count is " +:+ show_count total))
  else Ok ().

(** The rows that are missing bound the pages, as no page is empty. *)
Definition pages_left (m : QueryMetadata) (batches : list Batch) : nat :=
  Datatypes.S (total_of m - row_count_of batches).

(** The handle of a stream is closed after the pagination, whatever came of it; an error of
    the close is ignored. *)
Definition close_after (handle : option Z) (pagination : outcome query_stop (list Batch) * S)
    : outcome query_stop (list Batch) * S :=
  match pagination, handle with
  | (Err QueryCancelled, _), _ | (Panic, _), _ | _, None => pagination
  | (result, s), Some h =>
    match close_result_set h s with
    | (Err Cancelled, s) => (Err QueryCancelled, s)
    | (Panic, s) => (Panic, s)
    | (_, s) => (result, s)
    end
  end.

(* code: query/results.rs 263-292 ResultSet::fetch_all *)
Definition fetch_all (exhausted : action query_stop S (list Batch)) (fuel : nat) (r : ResultSetInner)
    : action query_stop S (list Batch) := λ s,
  match r with
  | RowCount _ =>
    (Err (QueryFailed (NoResultSet "Cannot fetch batches from row count result")), s)
  | Stream handle m batches complete =>
    close_after handle
      match handle, complete with
      | Some h, false => paginate_remaining exhausted fuel h m batches s
      | _, _ => (match check_buffered_rows m batches with
                 | Ok _ => Ok batches
                 | Err e => Err (QueryFailed e)
                 | Panic => Panic
                 end, s)
      end
  end.

(** ** The iterator *)
(* code: query/results.rs 784-797 ResultSetIterator *)
Record ResultSetIterator := {
  it_handle : option Z;
  it_metadata : QueryMetadata;
  it_batches : list Batch;
  current_index : nat;
  it_complete : bool;
}.

(* code: query/results.rs 236-255 ResultSet::into_iterator *)
Definition into_iterator (r : ResultSetInner) : outcome QueryError ResultSetIterator :=
  match r with
  | Stream handle m batches complete =>
    Ok {| it_handle := handle; it_metadata := m; it_batches := batches; current_index := O;
          it_complete := complete |}
  | RowCount _ => Err (NoResultSet "Cannot iterate over row count result")
  end.

Definition set_complete (it : ResultSetIterator) : ResultSetIterator :=
  {| it_handle := it_handle it; it_metadata := it_metadata it; it_batches := it_batches it;
     current_index := current_index it; it_complete := true |}.

Definition step_over (it : ResultSetIterator) (batches : list Batch) : ResultSetIterator :=
  {| it_handle := it_handle it; it_metadata := it_metadata it; it_batches := batches;
     current_index := Datatypes.S (current_index it); it_complete := it_complete it |}.

(** The iterator is part of the state, as it changes on an error too. *)
(* code: query/results.rs 806-834 ResultSetIterator::fetch_next_batch *)
Definition fetch_next_batch (it : ResultSetIterator)
    : action query_stop S ((option Batch + QueryError) * ResultSetIterator) :=
  if it_complete it then mret (inl None, it)
  else
    match it_handle it with
    | None => mret (inl None, set_complete it)
    | Some h =>
      page ← fetch_page_after h (it_metadata it) (row_count_of (it_batches it));
      mret match page with
           | inl None => (inl None, set_complete it)
           | inl batch => (inl batch, it)
           | inr (RowCountMismatch _ as e) => (inr (page_error e), set_complete it)
           | inr e => (inr (page_error e), it)
           end
    end.

(** Where [next_batch] is called: without a runtime, on a thread that entered one, or inside
    a task, where tokio's [block_on] panics. *)
Inductive RuntimeContext := NoRuntime | Entered | InsideTask.

(* code: query/results.rs 844-876 ResultSetIterator::next_batch *)
Definition next_batch (runtime : RuntimeContext) (it : ResultSetIterator)
    : action query_stop S (option (Batch + QueryError) * ResultSetIterator) :=
  match it_batches it !! current_index it with
  | Some batch => mret (Some (inl batch), step_over it (it_batches it))
  | None =>
    if it_complete it then mret (None, it)
    else
      match runtime with
      | NoRuntime => mret (Some (inr (InvalidState "No async runtime available")), it)
      | InsideTask => pure_call Panic
      | Entered =>
        '(result, it) ← fetch_next_batch it;
        mret match result with
             | inl (Some batch) => (Some (inl batch), step_over it (it_batches it ++ [batch]))
             | inl None => (None, it)
             | inr e => (Some (inr e), it)
             end
      end
  end.

(* code: query/results.rs 879-888 ResultSetIterator::close *)
Definition iterator_close (it : ResultSetIterator) : action query_stop S unit :=
  match it_handle it with
  | Some h => map_stop execution_failed (close_result_set h)
  | None => mret ()
  end.
End Fetching.
End Payload.
