(* ===== verification/ResultPages.v ===== *)
(** * All rows of a result set

    Fetching a result set returns the rows that Exasol announced or an error, in a bounded
    number of rounds, and the iterator yields what [fetch_all] collects. *)
From S2P Require Import Prelude MachineInt RustStr Float64 Json Errors Effect ExasolTypes.
From S2P Require Import ResultParser Messages Lifecycle ArrayBuilders ArrowConverter.
From S2P Require Import Conversions JsonColumns ResultSets.
From S2P Require Statement.

#[local] Open Scope Z_scope.

Section Pages.
Context `{J : SerdeJson, !ColumnText, Statement.ParameterText, PowI, BuildProfile}.
Context `{TypeJson, ArrowLib, EmptyBatchError}.

(** ** Rows of a page *)
Lemma length_mapM {E A B} (f : A → outcome E B) xs ys : mapM f xs = Ok ys → length ys = length xs.
Proof. intros Hm%mapM_outcome_ok. symmetry. by eapply Forall2_length. Qed.

Lemma length_each_row f values (cells : list (option Cell)) :
  each_row f values = Ok cells → length cells = length values.
Proof. unfold each_row. intros Hc%length_mapM. by rewrite length_imap in Hc. Qed.

Lemma length_json_column f values cells :
  json_column_to_array f values = Ok cells → length cells = length values.
Proof.
  unfold json_column_to_array, json_to_boolean_array, json_to_string_array, json_to_binary_array,
    json_to_primitive_array, json_to_interval_array, json_to_decimal_array.
  destruct (f_data_type f); try done;
    try (intros Hc; by apply length_mapM in Hc); try (intros [= <-]; by rewrite length_fmap);
    try (intros Hc; by apply length_each_row in Hc).
  - destruct unit; try done. intros Hc; by apply length_each_row in Hc.
  - destruct (precision_scale_error _ _); [done|]. intros Hc; by apply length_each_row in Hc.
Qed.

Lemma try_new_rows s columns b :
  try_new s columns = Ok b → ∃ first rest, columns = first :: rest ∧ b_rows b = length first.
Proof.
  unfold try_new. destruct columns as [|first rest]; [done|].
  destruct (record_batch_error _ _ _); [done|]. intros [= <-]. by exists first, rest.
Qed.

(** A batch of rows has them all. *)
Lemma json_rows rows s b :
  rows ≠ [] → column_major_to_record_batch rows s = Ok b → b_rows b = length rows.
Proof.
  intros Hne. unfold column_major_to_record_batch. destruct rows as [|row rows]; [done|].
  set (all := row :: rows). intros (arrays & Ha & Hb)%bind_ok.
  apply try_new_rows in Hb as (first & rest & -> & ->).
  pose proof (mapM_enumerate (row_column all) (s_fields s)) as Hm.
  rewrite Ha in Hm. destruct Hm as [Hl Hi].
  destruct (s_fields s) as [|f fs] eqn:Ef; [done|].
  destruct (Hi O f eq_refl) as (cells & Hc & Ho). injection Hc as <-. unfold row_column in Ho.
  destruct (json_column_to_array _ _) as [cells|e|] eqn:Ej; [|done..]. injection Ho as ->.
  apply length_json_column in Ej. rewrite Ej. unfold column_of_rows. by rewrite length_fmap.
Qed.

(** A page: a payload with rows, and its batch. *)
Definition page_of (m : QueryMetadata) (d : ResultData) (b : Batch) : Prop :=
  payload_is_empty (rd_data d) = false ∧ payload_to_record_batch d (qm_schema m) = Ok b.

Lemma page_rows m d b :
  page_of m d b → b_rows b = payload_num_rows (rd_data d) ∧ (0 < b_rows b)%nat.
Proof.
  unfold page_of, payload_to_record_batch.
  destruct (rd_data d) as [rows|batch]; cbn [payload_is_empty payload_num_rows]; intros [Hne Hb].
  - assert (rows ≠ []) as Hr by (by intros ->).
    apply json_rows in Hb; [|done]. rewrite Hb. split; [done|]. destruct rows; [done|cbn; lia].
  - apply Nat.eqb_neq in Hne. unfold with_field_metadata, try_new_with_rows in Hb.
    destruct (_ =? _)%nat; [|done]. destruct (record_batch_error _ _ _); [done|].
    injection Hb as <-. cbn. split; [done|lia].
Qed.

Lemma row_count_app b1 b2 : row_count_of (b1 ++ b2) = (row_count_of b1 + row_count_of b2)%nat.
Proof. unfold row_count_of. rewrite fmap_app. induction b1; cbn in *; lia. Qed.

Lemma row_count_one b : row_count_of [b] = b_rows b.
Proof. unfold row_count_of. cbn. lia. Qed.

(** ** Fetching *)
Section Fetching.
Context {S : Type} `{!ResultTransport S}.
Implicit Types s : S.

(** Successful fetches, one after the other. *)
Inductive fetches (h : Z) : S → list ResultData → S → Prop :=
| no_fetch s : fetches h s [] s
| one_more s d s1 ds s2 :
    fetch_results h s = (Ok d, s1) → fetches h s1 ds s2 → fetches h s (d :: ds) s2.

Lemma fetches_snoc h s ds s1 d s2 :
  fetches h s ds s1 → fetch_results h s1 = (Ok d, s2) → fetches h s (ds ++ [d]) s2.
Proof.
  intros Hf Hd. induction Hf as [s|s d' s1' ds s2' Hd' _ IH]; cbn.
  - econstructor; [done|constructor].
  - econstructor; [done|]. by apply IH.
Qed.

(** What a round of the pagination does. *)
Lemma fetch_page_cases h m n s :
  match fetch_page_after h m n s with
  | (Ok (inl (Some b)), s') => ∃ d, fetch_results h s = (Ok d, s') ∧ page_of m d b ∧
      (total_of m = 0 ∨ (n < total_of m ∧ n + b_rows b ≤ total_of m))%nat
  | (Ok (inl None), s') => ((0 < total_of m ≤ n)%nat ∧ s' = s) ∨
      (total_of m = 0%nat ∧ ∃ d, fetch_results h s = (Ok d, s') ∧ payload_is_empty (rd_data d) = true)
  | _ => True
  end.
Proof.
  unfold fetch_page_after. destruct (_ && _) eqn:E.
  { apply andb_true_iff in E as [?%Nat.ltb_lt ?%Nat.leb_le]. by left. }
  assert (total_of m = 0 ∨ n < total_of m)%nat as Ht.
  { apply andb_false_iff in E as [?%Nat.ltb_ge|?%Nat.leb_gt]; lia. }
  destruct (fetch_results h s) as [[d|[e|]|] s'] eqn:Ef; [|done..].
  destruct (payload_is_empty (rd_data d)) eqn:Ee.
  { destruct (Nat.eqb_spec (total_of m) 0); [|done]. right. by eauto. }
  destruct (payload_to_record_batch d (qm_schema m)) as [b|e|] eqn:Ep; [|done..].
  destruct (_ && (_ <? _)%nat) eqn:Eo; [done|]. exists d. split; [done|]. split; [done|].
  apply andb_false_iff in Eo as [?%Nat.ltb_ge|?%Nat.ltb_ge]; [left; lia|].
  destruct Ht; [by left|right; lia].
Qed.

(** The pagination adds fetched pages to what it has, and stops where it should. *)
Lemma paginate_sound exhausted fuel h m batches s bs s' :
  (∀ s bs s', exhausted s ≠ (Ok bs, s')) →
  paginate_remaining exhausted fuel h m batches s = (Ok bs, s') →
  ∃ more ds, bs = batches ++ more ∧ Forall2 (page_of m) ds more ∧
    (((0 < total_of m)%nat ∧ fetches h s ds s' ∧
      (row_count_of bs = total_of m ∨ (more = [] ∧ (total_of m ≤ row_count_of bs)%nat))) ∨
     (total_of m = 0%nat ∧ ∃ d, fetches h s (ds ++ [d]) s' ∧ payload_is_empty (rd_data d) = true)).
Proof.
  intros Hex. revert batches s. induction fuel as [|fuel IH]; intros batches s Hp; [by apply Hex in Hp|].
  cbn [paginate_remaining] in Hp. unfold mbind, action_bind in Hp.
  pose proof (fetch_page_cases h m (row_count_of batches) s) as Hc.
  destruct (fetch_page_after h m _ s) as [[[[b|]|e]|e|] s1]; [|..|done|done|done].
  - destruct Hc as (d & Hd & Hpage & Hn). apply IH in Hp as (more & ds & -> & Hpages & Hend).
    exists (b :: more), (d :: ds). rewrite <- app_assoc in *. split; [done|]. split; [by constructor|].
    destruct Hend as [(Ht & Hf & Hrows)|(Ht & d' & Hf & He)].
    + left. split; [done|]. split; [by econstructor|]. left. destruct Hrows as [?|[-> Hrows]]; [done|].
      rewrite app_nil_r, row_count_app, row_count_one in *. lia.
    + right. split; [done|]. exists d'. split; [by econstructor|done].
  - injection Hp as <- <-. exists [], []. rewrite app_nil_r. split; [done|]. split; [done|].
    destruct Hc as [[Ht ->]|(Ht & d & Hd & He)].
    + left. split; [lia|]. split; [constructor|]. right. split; [done|lia].
    + right. split; [done|]. exists d. split; [econstructor; [done|constructor]|done].
Qed.

(** Pages that complete the total are all fetched, and nothing after them. *)
Lemma paginate_complete exhausted h m s ds s' :
  fetches h s ds s' → (0 < total_of m)%nat → ∀ fuel pages batches,
  Forall2 (page_of m) ds pages → row_count_of (batches ++ pages) = total_of m →
  (length ds < fuel)%nat →
  paginate_remaining exhausted fuel h m batches s = (Ok (batches ++ pages), s').
Proof.
  intros Hf Ht. induction Hf as [s|s d s1 ds s2 Hd _ IH]; intros fuel pages batches Hp Hrows Hl;
    (destruct fuel as [|fuel]; [cbn in Hl; lia|]); cbn [paginate_remaining];
    unfold mbind, action_bind, fetch_page_after; rewrite (proj2 (Nat.ltb_lt _ _)) by done; cbn [andb].
  - apply Forall2_nil_inv_l in Hp as ->. rewrite app_nil_r in *.
    by rewrite (proj2 (Nat.leb_le _ _)) by lia.
  - apply Forall2_cons_inv_l in Hp as (b & pages' & Hpage & Hp & ->).
    apply page_rows in Hpage as Hb. destruct Hpage as [He Hb']. destruct Hb as [_ Hb].
    change (batches ++ b :: pages') with (batches ++ [b] ++ pages') in *.
    pose proof Hrows as Hrows'. rewrite !row_count_app, row_count_one in Hrows'.
    rewrite (proj2 (Nat.leb_gt _ _)) by lia. rewrite Hd, He, Hb'.
    rewrite (proj2 (Nat.ltb_ge _ _)) by lia.
    rewrite app_assoc in *.
    apply IH; [done|done|cbn in Hl; lia].
Qed.

(** A known total bounds the rounds: the loop never runs out of fuel. *)
Lemma paginate_bounded ex ex' fuel h m batches s :
  (0 < total_of m)%nat → (pages_left m batches ≤ fuel)%nat →
  paginate_remaining ex fuel h m batches s
  = paginate_remaining ex' (pages_left m batches) h m batches s.
Proof.
  intros Ht. unfold pages_left. remember (total_of m - row_count_of batches)%nat as k eqn:Ek.
  revert ex fuel batches s Ek. induction (lt_wf k) as [k _ IH]. intros ex fuel batches s Ek Hf.
  destruct fuel as [|fuel]; [lia|]. cbn [paginate_remaining]. unfold mbind, action_bind.
  pose proof (fetch_page_cases h m (row_count_of batches) s) as Hc.
  destruct (fetch_page_after h m _ s) as [[[[b|]|e]|e|] s1]; [|done..].
  destruct Hc as (d & _ & Hpage & Hn). apply page_rows in Hpage as [_ Hb].
  assert (row_count_of (batches ++ [b]) = row_count_of batches + b_rows b)%nat as Hr
    by (by rewrite row_count_app, row_count_one).
  set (k' := (total_of m - row_count_of (batches ++ [b]))%nat).
  assert (k' < k)%nat as Hk by (unfold k'; lia).
  rewrite (IH k' Hk ex fuel (batches ++ [b]) s1 eq_refl ltac:(lia)). symmetry.
  rewrite (IH k' Hk ex' k (batches ++ [b]) s1 eq_refl ltac:(lia)). done.
Qed.

(** ** All batches at once *)

(** What [fetch_all] returned of a stream: the buffered batches and one batch for each page
    that was fetched, in their order, and the handle was closed after the last. *)
Lemma close_after_ok handle p bs s' :
  close_after handle p = (Ok bs, s') →
  fst p = Ok bs ∧
  match handle with
  | None => s' = snd p
  | Some h => ∃ r, close_result_set h (snd p) = (r, s') ∧ (r = Ok () ∨ ∃ e, r = Err (Failed e))
  end.
Proof.
  unfold close_after. destruct p as [[a|[e|]|] s], handle as [h|]; intros Hc; simplify_eq/=; try done.
  - destruct (close_result_set h s) as [[[]|[e|]|] s1]; simplify_eq; split; eauto.
  - by destruct (close_result_set h s) as [[[]|[e'|]|] s1].
Qed.

Lemma fetch_all_batches exhausted fuel handle m batches complete s bs s' :
  (0 < total_of m)%nat → (pages_left m batches ≤ fuel)%nat →
  fetch_all exhausted fuel (Stream handle m batches complete) s = (Ok bs, s') →
  ∃ pages ds, bs = batches ++ pages ∧ Forall2 (page_of m) ds pages ∧
    (row_count_of bs = total_of m ∨
     (is_Some handle ∧ complete = false ∧ pages = [] ∧ total_of m < row_count_of batches)%nat) ∧
    match handle with
    | None => ds = [] ∧ s' = s
    | Some h => ∃ s1 r, fetches h s ds s1 ∧ close_result_set h s1 = (r, s') ∧
        (r = Ok () ∨ ∃ e, r = Err (Failed e))
    end.
Proof.
  intros Ht Hfuel. cbn [fetch_all]. intros Hc. apply close_after_ok in Hc as [Hok Hclose].
  assert (handle = None ∨ complete = true →
    bs = batches ∧ row_count_of batches = total_of m ∧ (match handle with
      | None => s' = s
      | Some h => ∃ r, close_result_set h s = (r, s') ∧ (r = Ok () ∨ ∃ e, r = Err (Failed e))
      end)) as Hbuffered.
  { clear -Hok Hclose Ht. unfold check_buffered_rows in *.
    assert (0 <? total_of m = true)%nat as E by by apply Nat.ltb_lt.
    rewrite E in *. destruct (Nat.eqb_spec (row_count_of batches) (total_of m)).
    - destruct handle as [h|], complete; intros [?|?]; simplify_eq/=; eauto.
    - destruct handle as [h|], complete; intros [?|?]; simplify_eq/=. }
  destruct handle as [h|], complete.
  1, 3, 4: destruct Hbuffered as (-> & Hrows & Hs); [by auto|]; exists [], [];
    rewrite app_nil_r; split; [done|]; split; [by apply Forall2_nil_2|];
    split; [by left|]; try done.
  { destruct Hs as (r & Hr & Hor). exists s, r. by split; [constructor|]. }
  clear Hbuffered. rewrite (paginate_bounded _ (λ s, (Panic, s)) fuel) in Hok, Hclose by done.
  destruct (paginate_remaining _ _ _ _ _ s) as [o s1] eqn:Ep. cbn in Hok, Hclose. subst o.
  apply paginate_sound in Ep as (pages & ds & -> & Hpages & [(_ & Hf & Hrows)|[? _]]); [|lia|done].
  exists pages, ds. split_and!; [done|done|..].
  - destruct Hrows as [?|[-> Hrows]]; [by left|]. rewrite app_nil_r in *.
    destruct (decide (row_count_of batches = total_of m)); [by left|right].
    split_and!; [by eexists|done|done|lia].
  - destruct Hclose as (r & ? & ?). by exists s1, r.
Qed.

(** C9: when [fetch_all] succeeds on a stream whose total is known, it returned the buffered
    batches followed by a batch for each page that it fetched, in the order of the fetches,
    and the handle was closed after the last page. Their rows are the total that Exasol
    announced, with one exception: a first page that alone has more rows than the total,
    with a handle that is not read to its end. Such a page is returned as it is, with the
    surplus, without a fetch and without an error, whereas the comment on
    [fetch_page_after], the end-of-stream rule that [fetch_all] shares, makes a page that
    overshoots the total an error. *)
Theorem fetch_all_exact exhausted fuel handle m batches complete s :
  (0 < total_of m)%nat → (pages_left m batches ≤ fuel)%nat →
  (∀ bs s', fetch_all exhausted fuel (Stream handle m batches complete) s = (Ok bs, s') →
     ∃ pages ds, bs = batches ++ pages ∧ Forall2 (page_of m) ds pages ∧
       (row_count_of bs = total_of m ∨
        (is_Some handle ∧ complete = false ∧ pages = [] ∧ total_of m < row_count_of batches)%nat) ∧
       match handle with
       | None => ds = [] ∧ s' = s
       | Some h => ∃ s1 r, fetches h s ds s1 ∧ close_result_set h s1 = (r, s') ∧
           (r = Ok () ∨ ∃ e, r = Err (Failed e))
       end) ∧
  (∀ h, handle = Some h → complete = false → (total_of m < row_count_of batches)%nat →
     fetch_all exhausted fuel (Stream handle m batches complete) s
     = close_after (Some h) (Ok batches, s)).
Proof.
  intros Ht Hfuel. split; [intros bs s'; by apply fetch_all_batches|].
  intros h -> -> Hrows. cbn [fetch_all]. f_equal. unfold pages_left in Hfuel.
  destruct fuel as [|fuel]; [lia|]. cbn [paginate_remaining]. unfold mbind, action_bind.
  unfold fetch_page_after. rewrite (proj2 (Nat.ltb_lt _ _)) by done. cbn [andb].
  by rewrite (proj2 (Nat.leb_le _ _)) by lia.
Qed.

(** With a known total the rounds are bounded by the missing rows, as a page has at least
    one row and a page too many is an error: beyond [pages_left] neither more fuel nor what
    would happen without fuel matters, on success, on errors and on a dropped future. *)
Theorem fetch_all_terminates exhausted exhausted' fuel handle m batches complete s :
  (0 < total_of m)%nat → (pages_left m batches ≤ fuel)%nat →
  fetch_all exhausted fuel (Stream handle m batches complete) s
  = fetch_all exhausted' (pages_left m batches) (Stream handle m batches complete) s.
Proof.
  intros. cbn [fetch_all]. destruct handle as [h|], complete; try done. f_equal.
  by apply paginate_bounded.
Qed.

(** ** One batch at a time *)

(** [while let Some(batch) = iterator.next() { ... }] with [?] on the batches. *)
Fixpoint drain (exhausted : action query_stop S (list Batch)) (fuel : nat) (acc : list Batch)
    (it : ResultSetIterator) : action query_stop S (list Batch) :=
  match fuel with
  | O => exhausted
  | Datatypes.S fuel =>
    '(item, it) ← next_batch Entered it;
    match item with
    | Some (inl batch) => drain exhausted fuel (acc ++ [batch]) it
    | Some (inr e) => λ s, (Err (QueryFailed e), s)
    | None => mret acc
    end
  end.

Definition iterator_at (handle : option Z) m batches index complete : ResultSetIterator :=
  {| it_handle := handle; it_metadata := m; it_batches := batches; current_index := index;
     it_complete := complete |}.

(** The buffered batches come first. *)
Lemma drain_buffered exhausted k fuel handle m batches index complete s :
  (length batches = index + k)%nat →
  drain exhausted (k + fuel) (take index batches) (iterator_at handle m batches index complete) s
  = drain exhausted fuel batches (iterator_at handle m batches (length batches) complete) s.
Proof.
  revert index. induction k as [|k IH]; intros index Hl.
  { rewrite Nat.add_0_r in Hl. subst index. by rewrite firstn_all. }
  destruct (lookup_lt_is_Some_2 batches index) as [b Hb]; [lia|].
  cbn [Nat.add drain]. unfold mbind, action_bind, next_batch. cbn [it_batches iterator_at current_index].
  rewrite Hb. cbn. rewrite <- (take_S_r _ _ _ Hb). apply (IH (Datatypes.S index)). lia.
Qed.

(** Then the pages come, as in [fetch_all]. *)
Lemma drain_pages exhausted fuel h m batches s :
  drain exhausted fuel batches (iterator_at (Some h) m batches (length batches) false) s
  = paginate_remaining exhausted fuel h m batches s.
Proof.
  revert batches s. induction fuel as [|fuel IH]; intros batches s; [done|].
  cbn [drain paginate_remaining]. unfold mbind, action_bind, next_batch, fetch_next_batch.
  cbn [it_batches iterator_at current_index it_complete it_handle it_metadata].
  rewrite lookup_ge_None_2 by lia. unfold mbind, action_bind.
  destruct (fetch_page_after h m _ s) as [[[[b|]|[e|e]]|e|] s1]; cbn; [|done..].
  unfold step_over. cbn. rewrite <- IH. unfold iterator_at. by rewrite length_app, Nat.add_1_r.
Qed.

(** Without pages there is nothing more. *)
Lemma drain_end exhausted fuel handle m batches complete s :
  handle = None ∨ complete = true →
  drain exhausted (Datatypes.S fuel) batches
    (iterator_at handle m batches (length batches) complete) s = (Ok batches, s).
Proof.
  intros Hc. cbn [drain]. unfold mbind, action_bind, next_batch, fetch_next_batch.
  cbn [it_batches iterator_at current_index it_complete it_handle it_metadata].
  rewrite lookup_ge_None_2 by lia. destruct Hc as [-> | ->]; [by destruct complete|done].
Qed.

(** Draining the iterator of a stream yields what [fetch_all] collects, with the same
    fetches in the same order and the same errors, while pages are left, and when the rows
    that were buffered are the total; [fetch_all] closes the handle after. But on a stream
    without further pages the iterator yields the buffered batches whatever their rows,
    where [fetch_all] returns an error unless they are the announced total. *)
Theorem iterator_agrees exhausted fuel handle m batches complete s :
  let drained := drain exhausted (length batches + Datatypes.S fuel) []
                   (iterator_at handle m batches 0 complete) s in
  let fetched := fetch_all exhausted (Datatypes.S fuel) (Stream handle m batches complete) s in
  into_iterator (Stream handle m batches complete) = Ok (iterator_at handle m batches 0 complete) ∧
  match handle, complete with
  | Some h, false => fetched = close_after handle drained
  | _, _ => drained = (Ok batches, s) ∧
      fetched = close_after handle
        match check_buffered_rows m batches with
        | Ok _ => drained
        | Err e => (Err (QueryFailed e), s)
        | Panic => (Panic, s)
        end
  end.
Proof.
  cbn zeta. split; [done|].
  pose proof (drain_buffered exhausted (length batches) (Datatypes.S fuel) handle m batches 0 complete s
    eq_refl) as Hd. cbn [take firstn] in Hd.
  change (take 0 batches) with (@nil Batch) in Hd. rewrite Hd. clear Hd.
  destruct handle as [h|], complete.
  2: { by rewrite drain_pages. }
  all: rewrite drain_end by auto; split; [done|]; cbn [fetch_all];
    by destruct (check_buffered_rows m batches) as [[]| |].
Qed.
End Fetching.
End Pages.
