(* ===== verification/NativeResults.v ===== *)
(** * Result sets over the native transport

    The native transport implements what a result set asks of a transport, and with a server
    in step the pages of a result set are the server's windows. *)
From S2P Require Import Prelude MachineInt RustStr Constants Errors Effect Framing Attributes.
From S2P Require Import Float64 Json ExasolTypes ResultParser Messages Lifecycle Encryption.
From S2P Require Import Handshake Tls ParamEncoding ParamSplit NativeTransport NativeInvariant.
From S2P Require Import NativeExchange NativeConversation ArrayBuilders ArrowConverter.
From S2P Require Import JsonColumns ResultSets ResultPages.
From S2P Require Statement.

#[local] Open Scope Z_scope.

Section Results.
Context `{BuildProfile, ArrowLib, J : SerdeJson, PowI, ChaCha20, BigUint, SecureRandom, Platform}.
Context `{Clock, Network, Rustls, ResponseDebug}.
Context `{!ColumnText, Statement.ParameterText, TypeJson, EmptyBatchError}.

#[export] Instance native_results : ResultTransport (World * NativeTcpTransport) := {|
  fetch_results := NativeTransport.fetch_results;
  close_result_set := NativeTransport.close_result_set;
|}.

Lemma fetch_times_fetches handle n s ds s' :
  fetch_times handle n s = (Ok ds, s') → fetches handle s ds s' ∧ length ds = n.
Proof.
  revert s ds. induction n as [|n IH]; intros s ds Hf; cbn [fetch_times] in Hf.
  { injection Hf as <- <-. by split; [constructor|]. }
  unfold mbind, action_bind in Hf.
  destruct (NativeTransport.fetch_results handle s) as [[d|e|] s1] eqn:Ed; [|done..].
  destruct (fetch_times handle n s1) as [[ds'|e|] s2] eqn:Et; [|done..].
  injection Hf as <- <-. apply IH in Et as [? <-]. split; [by econstructor|done].
Qed.

(** C5: all rows of a result set over the native transport: with a server that answers each
    fetch with its next window, and windows that complete the announced total, [fetch_all]
    returns the buffered batches and then each window as a batch, in the server's order, and
    the server was asked for consecutive windows: each starts where the rows received so far
    end. Then the handle is closed. *)
Theorem native_result_set exhausted handle columns limit position ts windows inb out e' c s rest
    m first pages :
  writes_work → connected_as c s → in_range U32 (next (c_serial c)) →
  fetch_ready handle columns limit position s.2 →
  conversation (c_cipher c) (c_serial c) ts inb out e' →
  fetch_turns handle columns limit position ts windows →
  inbound (c_socket c) = inb ++ rest →
  Forall2 (page_of m) (window_data columns <$> windows) pages →
  (0 < total_of m)%nat → row_count_of (first ++ pages) = total_of m →
  (∃ s', fetch_all exhausted (pages_left m first) (Stream (Some handle) m first false) s
         = close_after (Some handle) (Ok (first ++ pages), s') ∧
     connected_as (talked_from c (length ts) out rest e') s' ∧
     fetch_ready handle columns limit (position + window_rows windows) s'.2) ∧
  ∃ messages,
    server_serve (peer_of (c_cipher c)) ts out = Some (messages, inb, peer_of e') ∧
    sm_data <$> messages
    = (λ k, fetch_payload handle (position + window_rows (take k windows)) limit)
        <$> seq 0 (length ts).
Proof.
  intros Hw Hc Hn Hready Hconv Hts Hi Hpages Ht Hrows. split.
  - destruct (fetch_times_runs handle columns limit _ _ ts inb out e' Hconv Hw windows position c s rest
      eq_refl eq_refl Hc Hready Hts Hi) as (s' & Hrun & Hc' & Hready').
    exists s'. split; [|done]. apply fetch_times_fetches in Hrun as [Hf Hl].
    cbn [fetch_all]. f_equal.
    rewrite <- (paginate_bounded exhausted exhausted
      (pages_left m first + S (length (window_data columns <$> windows)))) by (done || lia).
    eapply paginate_complete; [exact Hf|done|done|done|lia].
  - eexists. split; [by apply serves_conversation|].
    by rewrite serve_data, (fetch_turns_data handle columns limit ts windows position).
Qed.
End Results.
