(* ===== verification/ArrowCsv.v ===== *)
(** * Arrow batches as CSV

    [import/arrow.rs]: the text of every Arrow type that an import converts, the rows and
    the writer, and the CSV import that the text is given to. At the end, the text
    of a decimal is read back by [parse_decimal_to_i128] of [types/conversion.rs]. *)
From S2P Require Import Prelude MachineInt RustStr StrText Float64 Errors Effect DateTime.
From S2P Require Import Interval ExasolTypes Csv.
From S2P Require Clauses Statement ImportQuery CsvImport.
From Stdlib Require Import Ascii Floats.SpecFloat.

#[local] Open Scope Z_scope.

(** ** Options *)
(** A [char] is its UTF-8 text. *)
(* code: import/arrow.rs 33-50 CsvWriterOptions *)
Record CsvWriterOptions := {
  column_separator : string;
  column_delimiter : string;
  row_separator : string;
  null_value : string;
  write_header : bool;
  date_format : string;
  timestamp_format : string;
}.

(* code: import/arrow.rs 52-64 CsvWriterOptions::default *)
Definition CsvWriterOptions_default : CsvWriterOptions :=
  {| column_separator := ","; column_delimiter := String (ascii_of_nat 34) "";
     row_separator := newline_char; null_value := ""; write_header := false;
     date_format := "%Y-%m-%d"; timestamp_format := "%Y-%m-%d %H:%M:%S%.6f" |}.

(* code: import/arrow.rs 66-87 ArrowImportOptions *)
Record ArrowImportOptions := {
  schema : option string;
  columns : option (list string);
  batch_size : Z;
  csv_options : CsvWriterOptions;
  use_tls : bool;
  host : string;
  port : Z;
}.

(* code: import/arrow.rs 89-101 ArrowImportOptions::default *)
Definition ArrowImportOptions_default : ArrowImportOptions :=
  {| schema := None; columns := None; batch_size := 10000; csv_options := CsvWriterOptions_default;
     use_tls := false; host := ""; port := 0 |}.

(** ** Arrays *)
(** A value of an array, as the type of the array stores it. *)
Inductive ArrowValue :=
| BoolValue (b : bool)
| IntValue (z : Z)
| Float32Value (bits : Z)
| Float64Value (bits : Z)
| TextValue (s : string)
| BytesValue (bs : list byte)
| DayTimeValue (days milliseconds : Z)
| MonthDayNanoValue (v : IntervalMonthDayNano).

(** An array: its type and its values, a null as [None]; a dictionary array has keys into
    the array of its values. *)
Inductive ArrowArray :=
| FlatArray (t : ArrowType) (values : list (option ArrowValue))
| DictionaryArray (key_type : ArrowType) (keys : list (option Z)) (values : ArrowArray).

Fixpoint array_type (a : ArrowArray) : ArrowType :=
  match a with
  | FlatArray t _ => t
  | DictionaryArray key_type _ values => ADictionary key_type (array_type values)
  end.

Definition array_length (a : ArrowArray) : nat :=
  match a with FlatArray _ values => length values | DictionaryArray _ keys _ => length keys end.

Record InputBatch := {
  ib_fields : list Field;
  ib_columns : list ArrowArray;
  ib_rows : nat;
}.

(** [f32] to [f64]: the value of the bits, which a double holds exactly. *)
Definition f32_widen (bits : Z) : spec_float :=
  let sign := 2 ^ 31 <=? bits in
  let e := bits / 2 ^ 23 mod 256 in
  let m := bits mod 2 ^ 23 in
  let finite m e := binary_normalize 53 1024 (if sign then - m else m) e sign in
  if e =? 255 then (if m =? 0 then S754_infinity sign else S754_nan)
  else if e =? 0 then finite m (-149)
  else finite (m + 2 ^ 23) (e - 150).

Section Text.
Context `{ArrowTypeLib, Chrono, Statement.ParameterText}.

(** ** Values to text *)
(* code: import/arrow.rs 621-647 escape_string *)
Definition escape_string (o : CsvWriterOptions) (s : string) : string :=
  let sep := column_separator o in
  let delim := column_delimiter o in
  let cs := chars s in
  let needs_quoting := bool_decide (sep ∈ cs) || bool_decide (delim ∈ cs)
    || bool_decide (newline_char ∈ cs) || bool_decide (return_char ∈ cs) in
  if negb needs_quoting then s
  else text_of ([delim] ++ (cs ≫= λ c, if decide (c = delim) then [delim; c] else [c]) ++ [delim]).

(* code: import/arrow.rs 649-663 format_float *)
Definition format_float (val : spec_float) : string :=
  match val with
  | S754_nan => "NaN"
  | S754_infinity sign => if sign then "-Infinity" else "Infinity"
  | _ => Statement.show_f64 val
  end.

(** [split_at] inside the digits, which are as many as the scale and one more at least. *)
(* code: import/arrow.rs 665-681 format_decimal_text *)
Definition format_decimal_text (unscaled : string) (scale : Z) : string :=
  if scale <=? 0 then unscaled +:+ str_repeat (Z.to_nat (Z.abs scale)) "0"
  else
    let '(sign, digits) := match strip_prefix "-" unscaled with
                           | Some digits => ("-", digits)
                           | None => ("", unscaled)
                           end in
    let scale := Z.to_nat (Z.abs scale) in
    let digits := str_repeat (S scale - str_len digits) "0" +:+ digits in
    sign +:+ str_take (str_len digits - scale) digits +:+ "."
      +:+ str_drop (str_len digits - scale) digits.

(** The formatters, as the values that the source's function pointers take. *)
(* code: import/arrow.rs 334-335 ValueFormatter *)
Inductive ValueFormatter :=
| format_boolean
| format_integer
| format_float_value
| format_string
| format_string_view
| format_dictionary_value
| format_binary
| format_binary_view
| format_fixed_size_binary
| format_date32
| format_date64
| format_year_month_value
| format_day_time_value
| format_month_day_nano_value
| format_timestamp
| format_decimal128_value
| format_decimal256_value.

Definition UNSUPPORTED_TYPE : string := "Unsupported Arrow type for CSV conversion".

(* code: import/arrow.rs 404-406 unsupported_type *)
Definition unsupported_type (t : ArrowType) : ImportError :=
  ImportConversionError (UNSUPPORTED_TYPE +:+ ": " +:+ show_arrow_type t).

(* code: import/arrow.rs 389-402 dictionary_formatter *)
Definition dictionary_formatter (key_type : ArrowType) : option ValueFormatter :=
  match key_type with
  | AInt8 | AInt16 | AInt32 | AInt64 | AUInt8 | AUInt16 | AUInt32 | AUInt64 =>
    Some format_dictionary_value
  | _ => None
  end.

(* code: import/arrow.rs 339-387 resolve_value_formatter *)
Definition resolve_value_formatter (t : ArrowType) : outcome ImportError ValueFormatter :=
  match t with
  | ABoolean => Ok format_boolean
  | AInt8 | AInt16 | AInt32 | AInt64 | AUInt8 | AUInt16 | AUInt32 | AUInt64 => Ok format_integer
  | AFloat32 | AFloat64 => Ok format_float_value
  | AUtf8 | ALargeUtf8 => Ok format_string
  | AUtf8View => Ok format_string_view
  | ADictionary key_type (AUtf8 | ALargeUtf8) =>
    ok_or (unsupported_type t) (dictionary_formatter key_type)
  | ADate32 => Ok format_date32
  | ADate64 => Ok format_date64
  | ATimestamp _ _ => Ok format_timestamp
  | ADecimal128 _ _ => Ok format_decimal128_value
  | ADecimal256 _ _ => Ok format_decimal256_value
  | ABinary | ALargeBinary => Ok format_binary
  | ABinaryView => Ok format_binary_view
  | AFixedSizeBinary _ => Ok format_fixed_size_binary
  | AInterval YearMonth => Ok format_year_month_value
  | AInterval DayTime => Ok format_day_time_value
  | AInterval MonthDayNano => Ok format_month_day_nano_value
  | ADictionary _ _ | OtherType _ => Err (unsupported_type t)
  end.

(** The array is read as the formatter's type, and panics when it is of another. *)
(* code: import/arrow.rs 445-619 format_boolean *)
Definition run_formatter (f : ValueFormatter) (o : CsvWriterOptions) (t : ArrowType) (v : ArrowValue)
    : outcome ImportError string :=
  match f, t, v with
  | format_boolean, _, BoolValue b => Ok (if b then "true" else "false")
  | format_integer, _, IntValue z => Ok (show_int z)
  | format_float_value, _, Float32Value bits => Ok (format_float (f32_widen bits))
  | format_float_value, _, Float64Value bits => Ok (format_float (f64_decode bits))
  | (format_string | format_string_view), _, TextValue s => Ok (escape_string o s)
  | (format_binary | format_binary_view | format_fixed_size_binary), _, BytesValue bs =>
    Ok (Statement.hex_encode bs)
  | format_date32, _, IntValue days =>
    map_err ImportConversionError (DateTime.format_date32 days)
  | format_date64, _, IntValue millis =>
    map_err ImportConversionError (DateTime.format_date64 millis)
  | format_year_month_value, _, IntValue months => Ok (format_interval_year_to_month months)
  | format_day_time_value, _, DayTimeValue days milliseconds =>
    map_err ImportConversionError (format_interval_day_to_second days milliseconds)
  | format_month_day_nano_value, _, MonthDayNanoValue value =>
    map_err ImportConversionError (format_interval_month_day_nano value)
  | format_timestamp, ATimestamp unit _, IntValue value =>
    map_err ImportConversionError (DateTime.format_timestamp unit value)
  | format_decimal128_value, ADecimal128 _ scale, IntValue value
  | format_decimal256_value, ADecimal256 _ scale, IntValue value =>
    Ok (format_decimal_text (show_int value) scale)
  | _, _, _ => Panic
  end.

(** A key is an index; a negative one is out of range. *)
Definition key_index (key : Z) : option nat := if key <? 0 then None else Some (Z.to_nat key).

(* code: import/arrow.rs 429-443 format_value *)
Fixpoint format_value (o : CsvWriterOptions) (array : ArrowArray) (row_idx : nat)
    : outcome ImportError string :=
  formatter ← resolve_value_formatter (array_type array);
  match array with
  | FlatArray t values =>
    match values !! row_idx with
    | None => Panic
    | Some None => Ok (null_value o)
    | Some (Some v) => run_formatter formatter o t v
    end
  | DictionaryArray _ keys values =>
    match keys !! row_idx with
    | None => Panic
    | Some None => Ok (null_value o)
    | Some (Some key) =>
      match key_index key with
      | Some key => format_value o values key
      | None => Panic
      end
    end
  end.

(** ** Rows *)
(* code: import/arrow.rs 408-427 check_schema_converts *)
Definition check_schema_converts (fields : list Field) : outcome ImportError unit :=
  _ ← mapM (λ field,
    map_err (λ _, ImportConversionError ("Column '" +:+ f_name field +:+ "': " +:+ UNSUPPORTED_TYPE
                    +:+ ": " +:+ show_arrow_type (f_data_type field)))
      (resolve_value_formatter (f_data_type field))) fields;
  Ok ().

(** The texts of the fields with the separator between them. *)
Definition joined (o : CsvWriterOptions) (fields : list string) : string :=
  String.concat (column_separator o) fields.

(* code: import/arrow.rs 294-308 format_header *)
Definition format_header (o : CsvWriterOptions) (b : InputBatch) : string :=
  joined o ((λ field, escape_string o (f_name field)) <$> ib_fields b) +:+ row_separator o.

(* code: import/arrow.rs 310-329 format_row *)
Definition format_row (o : CsvWriterOptions) (b : InputBatch) (row_idx : nat)
    : outcome ImportError string :=
  texts ← mapM (λ column, format_value o column row_idx) (ib_columns b);
  Ok (joined o texts +:+ row_separator o).

(** ** The writer *)
(** What is written to: an [AsyncWrite] or a [Write]. *)
Class ByteSink (W : Type) := {
  write_all : list byte → action string W unit;
  flush : action string W unit;
}.

(** A [Vec<u8>] takes everything. *)
#[global] Instance vec_sink : ByteSink (list byte) := {|
  write_all bs w := (Ok (), w ++ bs);
  flush w := (Ok (), w);
|}.

(** The IPC file reader of the arrow crate: the batches of a file, or why it is none. *)
Class ArrowIpcReader := open_ipc : list byte → list (InputBatch + string) + string.

Section Writer.
Context {W : Type} `{!ByteSink W}.

(* code: import/arrow.rs 183-187 ArrowToCsvWriter *)
Record ArrowToCsvWriter := { writer : W; options : CsvWriterOptions; rows_written : nat }.

Abbreviation wio := (action ImportError ArrowToCsvWriter).

(* code: import/arrow.rs 190-197 ArrowToCsvWriter::new *)
Definition ArrowToCsvWriter_new (w : W) (o : CsvWriterOptions) : ArrowToCsvWriter :=
  {| writer := w; options := o; rows_written := 0 |}.

(** An operation of the sink, its error as a CSV write error. *)
Definition on_writer {A} (m : action string W A) : wio A := λ s,
  let '(o, w) := m (writer s) in
  (map_err CsvWriteError o, {| writer := w; options := options s; rows_written := rows_written s |}).

Definition write_text (text : string) : wio nat :=
  _ ← on_writer (write_all (as_bytes text)); mret (str_len text).

(* code: import/arrow.rs 218-227 ArrowToCsvWriter::write_batch *)
Fixpoint write_rows (b : InputBatch) (rows : list nat) (bytes_written : nat) : wio nat :=
  match rows with
  | [] => mret bytes_written
  | row_idx :: rows =>
    s ← get;
    row_str ← pure_call (format_row (options s) b row_idx);
    n ← write_text row_str;
    write_rows b rows (bytes_written + n)
  end.

(** The writers of an [AsyncWrite] and of a [Write] are the same code. *)
(* code: import/arrow.rs 199-231 ArrowToCsvWriter::write_batch *)
Definition write_batch (b : InputBatch) : wio nat :=
  _ ← pure_call (check_schema_converts (ib_fields b));
  s ← get;
  bytes_written ← (if write_header (options s) && (rows_written s =? 0)%nat
                   then write_text (format_header (options s) b)
                   else mret 0%nat);
  bytes_written ← write_rows b (seq 0 (ib_rows b)) bytes_written;
  _ ← modify (λ s, {| writer := writer s; options := options s;
                      rows_written := (rows_written s + ib_rows b)%nat |});
  mret bytes_written.

(* code: import/arrow.rs 233-240 ArrowToCsvWriter::finish *)
Definition finish : wio nat :=
  _ ← on_writer flush;
  s ← get;
  mret (rows_written s).

(* code: import/arrow.rs 805-812 import_from_record_batches *)
Fixpoint write_batches (bs : list InputBatch) : wio unit :=
  match bs with
  | [] => mret ()
  | b :: bs => _ ← write_batch b; write_batches bs
  end.

(** The batches of an IPC reader, an error in the place of one. *)
(* code: import/arrow.rs 866-869 import_from_arrow_ipc *)
Fixpoint write_ipc_batches (items : list (InputBatch + string)) : wio unit :=
  match items with
  | [] => mret ()
  | inl b :: items => _ ← write_batch b; write_ipc_batches items
  | inr e :: _ => pure_call (Err (ArrowIpcError e))
  end.
End Writer.

(* code: import/arrow.rs 683-696 record_batch_to_csv *)
Definition record_batch_to_csv (b : InputBatch) (o : CsvWriterOptions) : outcome ImportError (list byte) :=
  match (_ ← write_batch b; finish) (ArrowToCsvWriter_new ([] : list byte) o) with
  | (Ok _, s) => Ok (writer s)
  | (Err e, _) => Err e
  | (Panic, _) => Panic
  end.

(** The text of several batches, which go to one import. *)
(* code: import/arrow.rs 805-813 import_from_record_batches *)
Definition record_batches_to_csv (bs : list InputBatch) (o : CsvWriterOptions)
    : outcome ImportError (list byte) :=
  match (_ ← write_batches bs; finish) (ArrowToCsvWriter_new ([] : list byte) o) with
  | (Ok _, s) => Ok (writer s)
  | (Err e, _) => Err e
  | (Panic, _) => Panic
  end.

(** The text of the batches of an IPC file, of which [read_to_end] gives the bytes. *)
(* code: import/arrow.rs 849-870 import_from_arrow_ipc *)
Definition arrow_ipc_to_csv `{ArrowIpcReader} (read : list byte + string) (o : CsvWriterOptions)
    : outcome ImportError (list byte) :=
  match read with
  | inr e => Err (ImportIoError e)
  | inl buffer =>
    match open_ipc buffer with
    | inr e => Err (ArrowIpcError e)
    | inl items =>
      match (_ ← write_ipc_batches items; finish) (ArrowToCsvWriter_new ([] : list byte) o) with
      | (Ok _, s) => Ok (writer s)
      | (Err e, _) => Err e
      | (Panic, _) => Panic
      end
    end
  end.

(** An IPC file is imported as its batches are, if all of them can be read; otherwise nothing
    of it is. *)
Theorem arrow_ipc_as_batches `{ArrowIpcReader} buffer items o :
  open_ipc buffer = inl items →
  (∀ bs, items = inl <$> bs → arrow_ipc_to_csv (inl buffer) o = record_batches_to_csv bs o) ∧
  (∀ e, inr e ∈ items → ∀ data, arrow_ipc_to_csv (inl buffer) o ≠ Ok data).
Proof.
  intros Ho. unfold arrow_ipc_to_csv, record_batches_to_csv. rewrite Ho. split.
  - intros bs ->. enough (∀ s : ArrowToCsvWriter (W := list byte),
      write_ipc_batches (inl <$> bs) s = write_batches bs s) as Hs
      by (unfold mbind, action_bind; by rewrite Hs).
    clear Ho. induction bs as [|b bs IH]; intros s; [done|]. cbn. unfold mbind, action_bind.
    destruct (write_batch b s) as [[]]; [apply IH|done..].
  - intros e He. enough (∀ s : ArrowToCsvWriter (W := list byte),
      ∀ u, (write_ipc_batches items s).1 ≠ Ok u) as Hs.
    { intros data. unfold mbind, action_bind. specialize (Hs (ArrowToCsvWriter_new [] o)).
      destruct (write_ipc_batches items _) as [[u|?|] s]; [by destruct (Hs u)|done..]. }
    clear Ho. induction items as [|[b|e'] items IH]; intros s u; [by apply not_elem_of_nil in He| |done].
    apply elem_of_cons in He as [|He]; [done|]. cbn. unfold mbind, action_bind.
    destruct (write_batch b s) as [[n|?|] s']; [by apply IH|done..].
Qed.
End Text.

(** ** The import *)
(** A new [CsvImportOptions] with the values that an Arrow import sets. *)
(* code: import/arrow.rs 743-767 csv_import_options *)
Definition csv_import_options (o : ArrowImportOptions) : CsvImport.CsvImportOptions :=
  {| CsvImport.encoding := "UTF-8";
     CsvImport.column_separator := column_separator (csv_options o);
     CsvImport.column_delimiter := column_delimiter (csv_options o);
     CsvImport.row_separator := ImportQuery.LF;
     CsvImport.skip_rows := 0;
     CsvImport.null_value := if String.eqb (null_value (csv_options o)) "" then None
                             else Some (null_value (csv_options o));
     CsvImport.trim_mode := ImportQuery.NoTrim;
     CsvImport.compression := ImportQuery.Uncompressed;
     CsvImport.reject_limit := None;
     CsvImport.use_tls := use_tls o;
     CsvImport.schema := schema o;
     CsvImport.columns := columns o;
     CsvImport.host := host o;
     CsvImport.port := port o |}.

(** ** Decimal text *)
(** ** Digits *)
Lemma show_digits_acc fuel z acc : show_digits fuel z acc = show_digits fuel z "" +:+ acc.
Proof.
  revert z acc. induction fuel as [|fuel IH]; intros z acc; [done|]. cbn [show_digits].
  destruct (z <? 10); [done|]. rewrite IH. symmetry. by rewrite IH, str_app_assoc, str_app_char.
Qed.

Lemma show_digits_fuel f1 f2 z acc :
  0 ≤ z < 2 ^ Z.of_nat f1 → z < 2 ^ Z.of_nat f2 → (0 < f1)%nat → (0 < f2)%nat →
  show_digits f1 z acc = show_digits f2 z acc.
Proof.
  revert f2 z acc. induction f1 as [|f1 IH]; intros [|f2] z acc H1 H2 ? ?; [lia..|].
  cbn [show_digits]. destruct (Z.ltb_spec z 10); [done|].
  rewrite Nat2Z.inj_succ, Z.pow_succ_r in H1, H2 by lia.
  assert (0 < f1 ∧ 0 < f2)%nat as [??].
  { split; [destruct f1; [cbn in *; lia|lia]|destruct f2; [cbn in *; lia|lia]]. }
  apply IH; [split; [by apply Z.div_pos; lia|]|..]; try done; apply Z.div_lt_upper_bound; lia.
Qed.

(** The last digit and the digits before it. *)
Lemma show_nat_step z :
  10 ≤ z → show_nat z = show_nat (z / 10) +:+ String (digit_char (z mod 10)) "".
Proof.
  intros Hz. unfold show_nat at 1. cbn [show_digits]. rewrite (proj2 (Z.ltb_ge _ _)) by done.
  rewrite show_digits_acc. f_equal. unfold show_nat.
  assert (0 < z / 10) by (apply Z.div_str_pos; lia).
  pose proof (Z.log2_spec z ltac:(lia)) as Hl. pose proof (Z.log2_spec (z / 10) ltac:(lia)) as Hl'.
  assert (3 ≤ Z.log2 z) by (apply Z.log2_le_pow2; lia).
  apply show_digits_fuel; try lia.
  - rewrite Z2Nat.id by lia. split; [lia|]. rewrite Z.pow_succ_r in Hl by lia.
    apply Z.div_lt_upper_bound; lia.
  - rewrite Nat2Z.inj_succ, Z2Nat.id by apply Z.log2_nonneg. lia.
Qed.

(** Digit strings of one length with one value are equal. *)
Lemma digits_unique s1 s2 v :
  parse_digits 0 s1 = Some v → parse_digits 0 s2 = Some v → str_len s1 = str_len s2 → s1 = s2.
Proof.
  assert (∀ s1 s2 a1 a2 v, parse_digits a1 s1 = Some v → parse_digits a2 s2 = Some v →
    str_len s1 = str_len s2 → s1 = s2 ∧ a1 = a2) as Hgen.
  { clear. induction s1 as [|c s1 IH]; intros [|d s2] a1 a2 v H1 H2 Hl; [|done..|].
    - cbn in H1, H2. by simplify_eq.
    - cbn [parse_digits] in H1, H2. destruct (is_digit c) eqn:Hc; [|done].
      destruct (is_digit d) eqn:Hd; [|done]. injection Hl as Hl.
      destruct (IH s2 _ _ v H1 H2 Hl) as [-> Ha].
      pose proof (digit_val_range c Hc). pose proof (digit_val_range d Hd).
      assert (a1 = a2 ∧ digit_val c = digit_val d) as [-> Hv] by lia. split; [|done]. f_equal.
      unfold digit_val in Hv.
      assert (nat_of_ascii c = nat_of_ascii d) as Hn by (lia).
      apply (f_equal ascii_of_nat) in Hn. by rewrite !ascii_nat_embedding in Hn. }
  intros H1 H2 Hl. by destruct (Hgen s1 s2 0 0 v H1 H2 Hl).
Qed.

Lemma padded_value w z : 0 ≤ z → parse_digits 0 (show_padded w z) = Some z.
Proof. intros Hz. by apply show_padded_spec. Qed.

(** The digits of a number before and behind the last [s]. *)
Lemma show_nat_split (s : nat) z :
  (1 ≤ s)%nat → 0 < z / 10 ^ Z.of_nat s →
  show_nat z = show_nat (z / 10 ^ Z.of_nat s) +:+ show_padded s (z mod 10 ^ Z.of_nat s).
Proof.
  induction s as [|s IH] in z |- *; intros Hs Hq; [lia|].
  assert (0 < 10 ^ Z.of_nat s) as Hp by (apply Z.pow_pos_nonneg; lia).
  rewrite Nat2Z.inj_succ, Z.pow_succ_r in * by lia.
  assert (10 ≤ z) as Hz.
  { destruct (Z.lt_ge_cases z 10); [|done]. exfalso.
    destruct (Z.lt_ge_cases z 0).
    - assert (z / (10 * 10 ^ Z.of_nat s) < 0) by (apply Z.div_lt_upper_bound; nia). lia.
    - rewrite Z.div_small in Hq by nia. lia. }
  rewrite show_nat_step, <- Z.div_div in * by lia.
  pose proof (Z.mod_pos_bound z 10 ltac:(lia)) as Hm.
  pose proof (Z.mod_pos_bound (z / 10) (10 ^ Z.of_nat s) Hp) as Hm'.
  assert (z mod (10 * 10 ^ Z.of_nat s) = 10 * ((z / 10) mod 10 ^ Z.of_nat s) + z mod 10) as Hmod.
  { rewrite (Z.rem_mul_r z 10) by lia. lia. }
  rewrite Hmod. destruct s as [|s].
  - change (10 ^ Z.of_nat 0) with 1 in *. rewrite Z.div_1_r, Z.mod_1_r in *. f_equal.
    rewrite Z.mul_0_r, Z.add_0_l. apply (digits_unique _ _ (z mod 10)).
    + cbn [parse_digits]. rewrite is_digit_char, digit_val_char by done. by f_equal.
    + apply padded_value; lia.
    + rewrite str_len_show_padded; [done| |lia]. change (10 ^ Z.of_nat 1) with 10. lia.
  - rewrite IH, str_app_assoc by (lia || done). f_equal.
    set (r := (z / 10) mod _) in *. apply (digits_unique _ _ (10 * r + z mod 10)).
    + rewrite parse_digits_app, padded_value by lia. cbn [mbind option_bind parse_digits].
      rewrite is_digit_char, digit_val_char by done. done.
    + apply padded_value. lia.
    + rewrite str_len_app, !str_len_show_padded; [cbn; lia|..]; try lia;
        rewrite ?(Nat2Z.inj_succ (S s)), ?Z.pow_succ_r by lia; lia.
Qed.

(** The digits padded to one more than [s]. *)
Lemma padded_split (s : nat) z :
  (1 ≤ s)%nat → 0 ≤ z →
  show_padded (S s) z = show_nat (z / 10 ^ Z.of_nat s) +:+ show_padded s (z mod 10 ^ Z.of_nat s).
Proof.
  intros Hs Hz. assert (0 < 10 ^ Z.of_nat s) as Hp by (apply Z.pow_pos_nonneg; lia).
  pose proof (Z.mod_pos_bound z _ Hp) as Hm.
  pose proof (str_len_show_padded (z mod 10 ^ Z.of_nat s) s Hm Hs) as Hl.
  destruct (decide (z / 10 ^ Z.of_nat s = 0)) as [H0|H0].
  - rewrite H0. apply Z.div_small_iff in H0 as [?|?]; [|lia|lia].
    apply (digits_unique _ _ z); [by apply padded_value|..].
    + rewrite parse_digits_app. change (parse_digits 0 (show_nat 0)) with (Some 0).
      cbn [mbind option_bind]. rewrite padded_value by lia. by rewrite Z.mod_small.
    + rewrite str_len_app, Hl. apply str_len_show_padded; [|lia].
      rewrite Nat2Z.inj_succ, Z.pow_succ_r by lia. lia.
  - assert (0 < z / 10 ^ Z.of_nat s) as Hq by (pose proof (Z.div_pos z (10 ^ Z.of_nat s)); lia).
    rewrite <- show_nat_split by done. unfold show_padded.
    rewrite (show_nat_split s z Hs Hq) at 1. rewrite str_len_app, Hl.
    assert (1 ≤ str_len (show_nat (z / 10 ^ Z.of_nat s)))%nat.
    { destruct (show_nat_spec (z / 10 ^ Z.of_nat s)) as (_ & Hne & _); [lia|].
      destruct (show_nat _); [done|cbn; lia]. }
    by replace (S s - _)%nat with O by lia.
Qed.

(** ** Text of a decimal *)
Lemma str_take_app s1 s2 : str_take (str_len s1) (s1 +:+ s2) = s1.
Proof.
  unfold str_take, str_len. induction s1 as [|a s1 IH]; [by destruct s2|].
  rewrite str_app_cons. cbn. by rewrite IH.
Qed.

Lemma str_drop_app s1 s2 : str_drop (str_len s1) (s1 +:+ s2) = s2.
Proof.
  unfold str_drop. replace (String.length (s1 +:+ s2) - str_len s1)%nat with (String.length s2)
    by (change (String.length (s1 +:+ s2)) with (str_len (s1 +:+ s2)); rewrite str_len_app;
        unfold str_len; lia).
  induction s1 as [|a s1 IH]; [|exact IH]. rewrite str_app_nil_l. cbn [str_len String.length].
  induction s2 as [|b s2 IH]; [done|]. cbn. by rewrite IH.
Qed.

Lemma show_int_parts v :
  show_int v = (if v <? 0 then "-" else "") +:+ show_nat (Z.abs v) ∧
  strip_prefix "-" (show_int v) = (if v <? 0 then Some (show_nat (Z.abs v)) else None).
Proof.
  unfold show_int. destruct (Z.ltb_spec v 0).
  - rewrite <- Z.abs_neq by lia. rewrite <- str_app_char. by rewrite strip_prefix_app.
  - rewrite Z.abs_eq by lia. split; [done|].
    destruct (show_nat_spec v) as (_ & _ & Hd); [lia|]. destruct (show_nat v) as [|a s]; [done|].
    cbn in Hd. apply andb_true_iff in Hd as [Ha _].
    unfold strip_prefix. cbn. destruct a as [[] [] [] [] [] [] [] []]; done.
Qed.

(** The written text: integer digits, and as many fraction digits as the scale. *)
Lemma format_decimal_text_parts v (s : nat) :
  (1 ≤ s)%nat →
  format_decimal_text (show_int v) (Z.of_nat s)
  = decimal_text (v <? 0) (Z.abs v / 10 ^ Z.of_nat s)
      (show_padded s (Z.abs v mod 10 ^ Z.of_nat s)).
Proof.
  intros Hs. unfold format_decimal_text, decimal_text. rewrite (proj2 (Z.leb_gt _ _)) by lia.
  destruct (show_int_parts v) as [-> ->].
  assert (0 < 10 ^ Z.of_nat s) as Hp by (apply Z.pow_pos_nonneg; lia).
  pose proof (Z.mod_pos_bound (Z.abs v) _ Hp) as Hm.
  pose proof (str_len_show_padded _ s Hm Hs) as Hl. rewrite Hl.
  rewrite (proj2 (Nat.eqb_neq _ _)) by lia. rewrite (Z.abs_eq (Z.of_nat s)), Nat2Z.id by lia.
  pose proof (padded_split s (Z.abs v) Hs ltac:(lia)) as Hsplit. unfold show_padded at 1 in Hsplit.
  destruct (v <? 0); rewrite ?str_app_nil_l; rewrite Hsplit, str_len_app, Hl, Nat.add_sub;
    by rewrite str_take_app, str_drop_app.
Qed.

(** The text that an import writes for a decimal is read back as the same unscaled value
    at the same scale, for every 128-bit value and every scale from 0 to 38. *)
Theorem decimal_text_roundtrip `{BuildProfile} v (s : nat) :
  in_range I128 v → (s ≤ 38)%nat →
  parse_decimal_to_i128 (format_decimal_text (show_int v) (Z.of_nat s)) (Z.of_nat s) = Ok v.
Proof.
  intros Hv Hs. assert (0 < 10 ^ Z.of_nat s) as Hp by (apply Z.pow_pos_nonneg; lia).
  set (q := Z.abs v / 10 ^ Z.of_nat s). set (r := Z.abs v mod 10 ^ Z.of_nat s).
  assert (0 ≤ q) by (apply Z.div_pos; lia).
  assert (Z.abs v = q * 10 ^ Z.of_nat s + r ∧ 0 ≤ r < 10 ^ Z.of_nat s) as [Habs Hr].
  { split; [pose proof (Z.div_mod (Z.abs v) (10 ^ Z.of_nat s)); lia|by apply Z.mod_pos_bound]. }
  destruct (decide (s = 0)%nat) as [->|Hne].
  - change (10 ^ Z.of_nat 0) with 1 in *. assert (r = 0) as Hr0 by lia.
    assert (format_decimal_text (show_int v) (Z.of_nat 0) = decimal_text (v <? 0) q "") as ->.
    { unfold format_decimal_text, decimal_text. cbn. rewrite !str_app_nil_r.
      destruct (show_int_parts v) as [-> _]. by replace q with (Z.abs v) by lia. }
    destruct (parse_decimal_value (v <? 0) q "" 0 0) as [Hok _]; [done|done|lia|by right|].
    rewrite Hok; unfold decimal_units; cbn [str_len String.length Nat.min Nat.sub];
      rewrite ?Z.div_0_l by done; change (10 ^ Z.of_nat 0) with 1;
      (assert ((if v <? 0 then - (q * 1 + 0 * 1) else q * 1 + 0 * 1) = v) as E
        by (destruct (Z.ltb_spec v 0); lia)); change (0 / 1) with 0 in *; by rewrite E.
  - rewrite format_decimal_text_parts by lia. fold q r.
    destruct (parse_decimal_value (v <? 0) q (show_padded s r) r s) as [Hok _];
      [done|apply padded_value; lia|done|left; lia|].
    pose proof (str_len_show_padded r s Hr ltac:(lia)) as Hl.
    assert (decimal_units (v <? 0) q r (str_len (show_padded s r)) s = v) as E.
    { unfold decimal_units. rewrite Hl, Nat.min_id, Nat.sub_diag.
      change (10 ^ Z.of_nat 0) with 1. rewrite Z.div_1_r, Z.mul_1_r. destruct (Z.ltb_spec v 0); lia. }
    rewrite Hok; by rewrite E.
Qed.

Lemma decimal_text_roundtrip_witness :
  format_decimal_text (show_int (-5)) 2 = "-0.05"%string ∧
  parse_decimal_to_i128 (H := dev_profile) "-0.05" 2 = Ok (-5).
Proof. split; [reflexivity|]. apply (decimal_text_roundtrip (H := dev_profile) (-5) 2); [vm_range|lia]. Defined.
