(* ===== verification/ArrowRows.v ===== *)
(** * Imported batches read back

    The CSV text of record batches is what a CSV import writes for the texts of their
    values, and a reader of it finds these texts; which Arrow types have a text. *)
From S2P Require Import Prelude MachineInt RustStr StrText Float64 Errors Effect Gregorian.
From S2P Require Import DateTime Interval ExasolTypes Csv ArrowCsv.
From S2P Require Statement StatementSafety ImportQuery CsvImport.
From Stdlib Require Import Ascii Floats.SpecFloat.

#[local] Open Scope Z_scope.

(** ** Characters of numbers, dates and intervals *)
Definition plain_char (a : ascii) : bool :=
  is_digit a || ((97 <=? Z.of_nat (nat_of_ascii a)) && (Z.of_nat (nat_of_ascii a) <=? 122))
  || contains_char a "-.: NI".

Abbreviation plain := (str_forall plain_char).

Lemma plain_digits s : str_forall is_digit s = true → plain s = true.
Proof. apply str_forall_impl. intros a Ha. unfold plain_char. by rewrite Ha. Qed.

Lemma plain_nat z : 0 ≤ z → plain (show_nat z) = true.
Proof. intros Hz. apply plain_digits, show_nat_spec, Hz. Qed.

Lemma plain_padded w z : 0 ≤ z → plain (show_padded w z) = true.
Proof. intros Hz. apply plain_digits, show_padded_spec, Hz. Qed.

Lemma plain_int z : plain (show_int z) = true.
Proof.
  unfold show_int. destruct (Z.ltb_spec z 0); [|by apply plain_nat].
  cbn [str_forall]. by rewrite plain_nat by lia.
Qed.

Lemma plain_number s : str_forall (λ a, is_digit a || Ascii.eqb a ".") s = true → plain s = true.
Proof.
  apply str_forall_impl. intros a. unfold plain_char. rewrite orb_true_iff.
  intros [-> | ->%Ascii.eqb_eq]; done.
Qed.

Lemma plain_float `{Statement.ParameterTextLaws} f : plain (format_float f) = true.
Proof.
  assert (∀ t, Statement.is_decimal_text t = true → plain t = true) as Hd.
  { intros t. unfold Statement.is_decimal_text. destruct t as [|a t]; [done|].
    destruct (Ascii.eqb_spec a "-") as [->|Hne]; [destruct t; [done|]; intros Ht; apply plain_number in Ht; exact Ht|].
    intros Ht. apply plain_number. revert Ht Hne. destruct a as [[] [] [] [] [] [] [] []]; done. }
  pose proof (Statement.show_f64_decimal f) as Hf. unfold format_float.
  destruct f as [s|[]| |s m e]; try reflexivity; by apply Hd.
Qed.

Lemma plain_hex `{Statement.ParameterTextLaws} bs : plain (Statement.hex_encode bs) = true.
Proof.
  eapply str_forall_impl; [|apply Statement.hex_encode_digits].
  intros a. unfold Statement.is_hex, plain_char, ascii_code.
  destruct (is_digit a); [done|]. cbn [orb]. intros [? ?%Z.leb_le]%andb_true_iff.
  apply orb_true_iff. left. apply andb_true_iff. split; [done|]. apply Z.leb_le. lia.
Qed.

Lemma plain_drop n s : plain s = true → plain (str_drop n s) = true.
Proof.
  unfold str_drop. generalize (String.length s - n)%nat. revert n.
  induction s as [|a s IH]; intros n k Hs; [by destruct n, k|]. destruct n as [|n].
  - destruct k; [done|]. cbn [str_forall] in Hs. apply andb_true_iff in Hs as [Ha Hs].
    cbn. rewrite Ha. by apply (IH O).
  - cbn [str_forall] in Hs. apply andb_true_iff in Hs as [_ Hs]. by apply (IH n).
Qed.

Lemma plain_take n s : plain s = true → plain (str_take n s) = true.
Proof.
  unfold str_take. revert n. induction s as [|a s IH]; intros [|n] Hs; try done.
  cbn [str_forall] in Hs. apply andb_true_iff in Hs as [Ha Hs]. cbn. rewrite Ha. by apply IH.
Qed.

Lemma plain_decimal s scale : plain s = true → plain (format_decimal_text s scale) = true.
Proof.
  intros Hs. unfold format_decimal_text.
  assert (∀ n, plain (str_repeat n "0") = true) as Hz by (intros; by apply str_forall_repeat).
  destruct (scale <=? 0); [by rewrite str_forall_app, Hs, Hz|].
  destruct (strip_prefix "-" s) as [r|] eqn:E.
  - apply strip_prefix_Some in E as ->. rewrite str_forall_app in Hs.
    apply andb_true_iff in Hs as [_ Hs].
    rewrite !str_forall_app, plain_take, plain_drop; rewrite ?str_forall_app, ?Hz, ?Hs; done.
  - rewrite !str_forall_app, plain_take, plain_drop; rewrite ?str_forall_app, ?Hz, ?Hs; done.
Qed.

Lemma plain_date `{ChronoLaws} d :
  valid_date d → 1 ≤ year d ≤ 9999 → plain (strftime_date d) = true.
Proof.
  intros Hd Hy. rewrite chrono_format_date by done. destruct Hd as (? & ?).
  rewrite !str_forall_app, !plain_padded by lia. done.
Qed.

Lemma plain_micros `{ChronoLaws} d t :
  valid_date d → 1 ≤ year d ≤ 9999 → 0 ≤ t < 86400000000 → plain (strftime_micros (d, t)) = true.
Proof.
  intros Hd Hy Ht. rewrite chrono_format_micros by done.
  rewrite !str_forall_app, plain_date, !plain_padded by (done || (apply Z.mod_pos_bound; lia) ||
    (apply Z.div_pos; lia)). done.
Qed.

Lemma plain_date32 `{ChronoLaws} n t : DateTime.format_date32 n = Ok t → plain t = true.
Proof.
  unfold DateTime.format_date32. unfold_monad.
  destruct (checked I32 _) as [c|]; [|done]. cbn [option_bind].
  destruct (from_num_days_from_ce_opt c) as [d|] eqn:Hd; [|done]. cbn [option_bind].
  apply chrono_date_sound, ce_day_at_iff in Hd as [Hv _].
  destruct (in_exasol_years (year d)) eqn:Hy; [|done]. apply in_exasol_years_true in Hy.
  cbn. intros [= <-]. by apply plain_date.
Qed.

Lemma map_err_ok {E F A} (f : E → F) (m : outcome E A) a : map_err f m = Ok a → m = Ok a.
Proof. destruct m; [by intros [= ->]|done..]. Qed.

Lemma plain_date64 `{ChronoLaws} n t : DateTime.format_date64 n = Ok t → plain t = true.
Proof.
  unfold DateTime.format_date64. intros (d & _ & Hr%map_err_ok)%bind_ok. by eapply plain_date32.
Qed.

Lemma plain_timestamp `{ChronoLaws} u v t : DateTime.format_timestamp u v = Ok t → plain t = true.
Proof.
  unfold DateTime.format_timestamp, format_timestamp_micros. unfold_monad.
  destruct (timestamp_unit_to_micros u v) as [m| |]; [|done..]. cbn [outcome_bind].
  destruct (from_timestamp_micros m) as [[d n]|] eqn:Hi; [|done]. cbn [option_bind fst].
  apply chrono_instant_sound in Hi as (Ht & k & [Hv _]%day_at_iff & _).
  destruct (in_exasol_years (year d)) eqn:Hy; [|done]. apply in_exasol_years_true in Hy.
  cbn. intros [= <-]. by apply plain_micros.
Qed.

Lemma plain_year_month m : plain (format_interval_year_to_month m) = true.
Proof.
  unfold format_interval_year_to_month, MONTHS_PER_YEAR.
  rewrite !str_forall_app, plain_nat, plain_padded by
    ((apply Z.div_pos; lia) || (apply Z.mod_pos_bound; lia)). by destruct (m <? 0).
Qed.

Lemma plain_day_second d ms t : format_interval_day_to_second d ms = Ok t → plain t = true.
Proof.
  unfold format_interval_day_to_second. intros (total & _ & Ht)%bind_ok.
  destruct (_ <? _); [done|]. injection Ht as <-.
  assert (0 ≤ Z.abs total mod MILLIS_PER_DAY) by (by apply Z.mod_pos_bound).
  rewrite !str_forall_app, plain_nat, !plain_padded by
    ((by apply Z.mod_pos_bound) || (by apply Z.div_pos)|| (apply Z.div_pos; [lia|done])).
  by destruct (total <? 0).
Qed.

Lemma plain_month_day_nano v t : format_interval_month_day_nano v = Ok t → plain t = true.
Proof.
  unfold format_interval_month_day_nano. destruct (negb _); [done|]. destruct (negb _); [done|].
  apply plain_day_second.
Qed.

(** A value that is no text has plain characters. *)
Lemma plain_value `{ArrowTypeLib, ChronoLaws, Statement.ParameterTextLaws} f o t v x :
  run_formatter f o t v = Ok x → (∀ s, v ≠ TextValue s) → plain x = true.
Proof.
  intros Hr Hv. destruct f, v, t; try discriminate Hr; try (by exfalso; eapply Hv);
    cbn [run_formatter] in Hr; try apply map_err_ok in Hr; try (injection Hr as <-);
    first [by destruct b|apply plain_int|apply plain_float|apply plain_hex|apply plain_year_month
      |apply plain_decimal, plain_int|by eapply plain_date32|by eapply plain_timestamp
      |by eapply plain_day_second|by eapply plain_month_day_nano|by eapply plain_date64].
Qed.

(** ** The texts that are imported *)
Section Rows.
Context `{ArrowTypeLib, CL : ChronoLaws, TL : Statement.ParameterTextLaws}.
Context (o : CsvWriterOptions).
Abbreviation sep := (column_separator o).
Abbreviation delim := (column_delimiter o).

(** The text of a value before it is quoted. *)
Definition value_text (f : ValueFormatter) (t : ArrowType) (v : ArrowValue) : outcome ImportError string :=
  match v with
  | TextValue s => match f with format_string | format_string_view => Ok s | _ => Panic end
  | _ => run_formatter f o t v
  end.

Fixpoint cell_text (array : ArrowArray) (i : nat) : outcome ImportError string :=
  formatter ← resolve_value_formatter (array_type array);
  match array with
  | FlatArray t values =>
    match values !! i with
    | None => Panic
    | Some None => Ok (null_value o)
    | Some (Some v) => value_text formatter t v
    end
  | DictionaryArray _ keys values =>
    match keys !! i with
    | None => Panic
    | Some None => Ok (null_value o)
    | Some (Some key) => match key_index key with Some k => cell_text values k | None => Panic end
    end
  end.

Definition batch_row (b : InputBatch) (i : nat) : outcome ImportError (list string) :=
  mapM (λ column, cell_text column i) (ib_columns b).

(** The rows of a batch behind [n] rows: the column names first while no row was written. *)
Definition batch_rows (n : nat) (b : InputBatch) : outcome ImportError (list (list string)) :=
  _ ← check_schema_converts (ib_fields b);
  rows ← mapM (batch_row b) (seq 0 (ib_rows b));
  Ok ((if write_header o && (n =? 0)%nat then [f_name <$> ib_fields b] else []) ++ rows).

Fixpoint csv_rows_of (n : nat) (bs : list InputBatch) : outcome ImportError (list (list string)) :=
  match bs with
  | [] => Ok []
  | b :: bs =>
    rows ← batch_rows n b;
    rest ← csv_rows_of (n + ib_rows b)%nat bs;
    Ok (rows ++ rest)
  end.

(** Options whose characters do not occur in numbers and dates, with line feeds, and with a
    null text that needs no quotes. *)
Record options_ok : Prop := {
  chars_differ : csv_ok sep delim;
  not_plain a : plain_char a = true → String a "" ≠ sep ∧ String a "" ≠ delim;
  line_feeds : row_separator o = newline_char;
  null_unquoted : needs_quoting sep delim (chars (null_value o)) = false;
}.

Context (Hok : options_ok).

Definition field_csv (s : string) : string := text_of (format_field sep delim (chars s)).
Definition csv_text (rows : list (list string)) : string :=
  String.concat "" ((λ row, format_csv_row sep delim row ImportQuery.LF) <$> rows).

Lemma escape_field s : escape_string o s = field_csv s.
Proof.
  unfold escape_string, field_csv, format_field.
  change (bool_decide (sep ∈ chars s) || _ || _ || _) with (needs_quoting sep delim (chars s)).
  destruct (needs_quoting sep delim (chars s)); cbn [negb]; [done|]. by rewrite text_of_chars.
Qed.

Lemma unquoted s : needs_quoting sep delim (chars s) = false → field_csv s = s.
Proof. unfold field_csv, format_field. intros ->. apply text_of_chars. Qed.

Lemma plain_char_ok a : plain_char a = true → char_ok (String a "").
Proof. destruct a as [[] [] [] [] [] [] [] []]; done. Qed.

Lemma plain_chars s : plain s = true → Forall (λ c, ∃ a, c = String a "" ∧ plain_char a = true) (chars s).
Proof.
  induction s as [|a s IH]; [constructor|]. cbn [str_forall]. intros [Ha Hs]%andb_true_iff.
  specialize (IH Hs). assert (starts_cont s = false) as Hst.
  { destruct s as [|b s]; [done|]. cbn [str_forall] in Hs. apply andb_true_iff in Hs as [Hb _].
    by apply plain_char_ok in Hb as [? _]. }
  rewrite <- (str_app_char a s), chars_cons by (done || by apply plain_char_ok).
  constructor; [by exists a|done].
Qed.

Lemma plain_unquoted s : plain s = true → needs_quoting sep delim (chars s) = false.
Proof.
  intros Hs%plain_chars. unfold needs_quoting. rewrite !orb_false_iff, !bool_decide_eq_false.
  rewrite Forall_forall in Hs. split_and!; intros (a & E & Ha)%Hs.
  - by destruct (not_plain Hok a Ha).
  - by destruct (not_plain Hok a Ha).
  - injection E as <-. done.
  - injection E as <-. done.
Qed.

Lemma value_field f t v : run_formatter f o t v = field_csv <$> value_text f t v.
Proof.
  assert ((∀ s, v ≠ TextValue s) → run_formatter f o t v = field_csv <$> run_formatter f o t v) as Hp.
  { intros Hv. destruct (run_formatter f o t v) as [x|e|] eqn:E; [|done..]. cbn.
    by rewrite unquoted by (eapply plain_unquoted, plain_value; eauto). }
  destruct v; try (by apply Hp). destruct f, t; cbn; by rewrite ?escape_field.
Qed.

Lemma format_value_field array i : format_value o array i = field_csv <$> cell_text array i.
Proof.
  induction array as [t values|key_type keys values IH] in i |- *; cbn [format_value cell_text];
    (destruct (resolve_value_formatter _) as [f|e|]; [|done..]); cbn [mbind outcome_bind].
  - destruct (values !! i) as [[v|]|]; [apply value_field| |done]. cbn.
    by rewrite unquoted by apply (null_unquoted Hok).
  - destruct (keys !! i) as [[key|]|]; [|cbn; by rewrite unquoted by apply (null_unquoted Hok)|done].
    by destruct (key_index key).
Qed.

Lemma text_of_fields first row :
  text_of (format_fields sep delim first row)
  = match row with
    | [] => ""
    | _ => (if first then "" else sep) +:+ String.concat sep (field_csv <$> row)
    end.
Proof.
  induction row as [|f row IH] in first |- *; [done|]. cbn [format_fields].
  rewrite text_of_app, text_of_app, IH. fold (field_csv f).
  assert (text_of (if first then [] else [sep]) = if first then "" else sep) as ->
    by (destruct first; [done|by rewrite text_of_cons, str_app_nil_r]).
  f_equal. destruct row as [|g row]; [by rewrite str_app_nil_r|done].
Qed.

Lemma format_row_csv b i :
  format_row o b i = (λ row, format_csv_row sep delim row ImportQuery.LF) <$> batch_row b i.
Proof.
  unfold format_row, batch_row.
  assert (∀ columns, mapM (λ column, format_value o column i) columns
    = fmap field_csv <$> mapM (λ column, cell_text column i) columns) as ->.
  { intros columns. induction columns as [|c columns IH]; [done|]. cbn [mapM].
    rewrite format_value_field, IH. destruct (cell_text c i); [|done..]. cbn.
    destruct (mapM (λ column, cell_text column i) columns); reflexivity. }
  destruct (mapM _ _) as [row|e|]; [|done..]. cbn [fmap outcome_fmap mbind outcome_bind]. f_equal.
  unfold format_csv_row. change (String.concat "" ?l) with (text_of l).
  rewrite text_of_app, text_of_fields. rewrite (line_feeds Hok). unfold joined.
  by destruct row.
Qed.

(** ** The writer on a vector *)
Abbreviation state := (@ArrowToCsvWriter (list byte)).

Definition written (s : state) (rows : list (list string)) (k : nat) : state :=
  {| writer := writer s ++ as_bytes (csv_text rows); options := o;
     rows_written := rows_written s + k |}.

Lemma written_nil s : options s = o → written s [] 0 = s.
Proof.
  destruct s. cbn. intros ->. unfold written. cbn. by rewrite app_nil_r, Nat.add_0_r.
Qed.

Lemma csv_text_cons row rows :
  csv_text (row :: rows) = format_csv_row sep delim row ImportQuery.LF +:+ csv_text rows.
Proof. unfold csv_text. apply text_of_cons. Qed.

Lemma csv_text_app rows1 rows2 : csv_text (rows1 ++ rows2) = csv_text rows1 +:+ csv_text rows2.
Proof. unfold csv_text. rewrite fmap_app. apply text_of_app. Qed.

Lemma written_app s rows1 rows2 k1 k2 :
  written (written s rows1 k1) rows2 k2 = written s (rows1 ++ rows2) (k1 + k2).
Proof.
  unfold written. cbn [writer rows_written]. f_equal; [|lia].
  by rewrite csv_text_app, as_bytes_app, app_assoc.
Qed.

(** An operation that should write [rows] and return, or end like [rows]; and then count. *)
Definition writes {A} (m : action ImportError state A) (s : state)
    (rows : outcome ImportError (list (list string))) (k : nat) : Prop :=
  match rows with
  | Ok rows => ∃ a, m s = (Ok a, written s rows k)
  | Err e => ∃ s', m s = (Err e, s')
  | Panic => ∃ s', m s = (Panic, s')
  end.

Lemma writes_nothing {A} (a : A) s : options s = o → writes (mret a) s (Ok []) 0.
Proof. intros Ho. exists a. by rewrite written_nil. Qed.

(** A result that is computed before the writing. *)
Lemma writes_after {A B X} (m : action ImportError state A) (p : outcome ImportError X) (f : X → A)
    (c : A → action ImportError state B) s rows k :
  m s = (f <$> p, s) → (∀ x, p = Ok x → writes (c (f x)) s (rows x) k) →
  writes (m ≫= c) s (p ≫= rows) k.
Proof.
  intros Hm Hc. unfold writes, mbind, action_bind. rewrite Hm.
  destruct p as [x|e|]; [exact (Hc x eq_refl)|by eexists..].
Qed.

Lemma writes_get {B} (c : state → action ImportError state B) s rows k :
  writes (c s) s rows k → writes (get ≫= c) s rows k.
Proof. done. Qed.

Lemma writes_bind {A B} (m : action ImportError state A) (c : A → action ImportError state B) s
    rows1 k1 rows2 k2 :
  writes m s rows1 k1 →
  (∀ a rows, rows1 = Ok rows → writes (c a) (written s rows k1) rows2 k2) →
  writes (m ≫= c) s (rows ← rows1; rest ← rows2; Ok (rows ++ rest)) (k1 + k2).
Proof.
  unfold writes. intros Hm Hc.
  assert (∀ o s', m s = (o, s') → (m ≫= c) s
    = match o with Ok a => c a s' | Err e => (Err e, s') | Panic => (Panic, s') end) as Hb
    by (intros o' s' E; unfold mbind, action_bind; rewrite E; by destruct o').
  destruct rows1 as [rows|e|]; cbn [mbind outcome_bind];
    [|by destruct Hm as [s' Hm]; eexists; apply (Hb _ _ Hm)..].
  destruct Hm as [a Hm]. rewrite (Hb _ _ Hm). specialize (Hc a rows eq_refl).
  destruct rows2 as [rest|e|]; cbn [mbind outcome_bind]; [|done..].
  destruct Hc as [x ->]. exists x. by rewrite written_app.
Qed.

Lemma write_row_vec s row :
  options s = o →
  writes (write_text (format_csv_row sep delim row ImportQuery.LF)) s (Ok [row]) 0.
Proof.
  intros Ho. eexists. unfold write_text, on_writer, written. unfold mbind, action_bind. cbn.
  by rewrite Ho, Nat.add_0_r.
Qed.

Lemma write_rows_vec b rows n s :
  options s = o → writes (write_rows b rows n) s (mapM (batch_row b) rows) 0.
Proof.
  induction rows as [|i rows IH] in n, s |- *; intros Ho; cbn [write_rows mapM]; [by apply writes_nothing|].
  apply writes_get.
  apply (writes_after _ (batch_row b i) (λ row, format_csv_row sep delim row ImportQuery.LF)).
  { unfold pure_call. by rewrite Ho, format_row_csv. }
  intros row _. apply (writes_bind _ _ s (Ok [row]) 0 (mapM (batch_row b) rows) 0); [by apply write_row_vec|].
  intros k rest [= <-]. by apply IH.
Qed.

Lemma header_text b : format_header o b = format_csv_row sep delim (f_name <$> ib_fields b) ImportQuery.LF.
Proof.
  unfold format_header, format_csv_row. change (String.concat "" ?l) with (text_of l).
  rewrite text_of_app, text_of_fields, (line_feeds Hok). unfold joined.
  assert ((λ field, escape_string o (f_name field)) <$> ib_fields b
    = field_csv <$> (f_name <$> ib_fields b)) as ->.
  { rewrite <- list_fmap_compose. apply list_fmap_ext. intros. apply escape_field. }
  by destruct (ib_fields b).
Qed.

Lemma count_rows s (k n : nat) :
  options s = o →
  writes (_ ← modify (λ s, {| writer := writer s; options := options s;
                              rows_written := (rows_written s + k)%nat |}); mret n) s (Ok []) k.
Proof.
  intros Ho. exists n. unfold mbind, action_bind, modify, written. cbn. by rewrite app_nil_r, Ho.
Qed.

Lemma write_batch_vec b s :
  options s = o → writes (write_batch b) s (batch_rows (rows_written s) b) (ib_rows b).
Proof.
  intros Ho. unfold write_batch, batch_rows.
  apply (writes_after _ (check_schema_converts (ib_fields b)) id).
  { unfold pure_call. by destruct (check_schema_converts _) as [[]| |]. }
  intros _ _. apply writes_get. cbn [id].
  rewrite Ho. set (header := write_header o && (rows_written s =? 0)%nat).
  set (names := if header then [f_name <$> ib_fields b] else []).
  cut (writes (n ← (if header then write_text (format_header o b) else mret 0%nat);
               n ← write_rows b (seq 0 (ib_rows b)) n;
               _ ← modify (λ s, {| writer := writer s; options := options s;
                                   rows_written := (rows_written s + ib_rows b)%nat |});
               mret n) s
         (rows ← Ok names; rest ← (rows ← mapM (batch_row b) (seq 0 (ib_rows b));
                                  rest ← Ok []; Ok (rows ++ rest)); Ok (rows ++ rest)) (0 + (0 + ib_rows b))).
  { cbn [mbind outcome_bind Nat.add].
    destruct (mapM (batch_row b) _) as [rows|e|]; cbn [mbind outcome_bind]; [|done..].
    by rewrite app_nil_r. }
  apply writes_bind.
  { unfold names. destruct header; [rewrite header_text; by apply write_row_vec|by apply writes_nothing]. }
  intros n rows _. apply writes_bind; [by apply write_rows_vec|]. intros. by apply count_rows.
Qed.

Lemma write_batches_vec bs s :
  options s = o →
  writes (write_batches bs) s (csv_rows_of (rows_written s) bs) (sum_list (ib_rows <$> bs)).
Proof.
  induction bs as [|b bs IH] in s |- *; intros Ho; cbn [write_batches csv_rows_of]; [by apply writes_nothing|].
  apply (writes_bind _ _ _ _ (ib_rows b)); [by apply write_batch_vec|].
  intros a rows _. by apply (IH (written s rows (ib_rows b))).
Qed.

Lemma record_batches_text bs :
  record_batches_to_csv bs o = (λ rows, as_bytes (csv_text rows)) <$> csv_rows_of 0 bs.
Proof.
  pose proof (write_batches_vec bs (ArrowToCsvWriter_new [] o) eq_refl) as Hw.
  unfold record_batches_to_csv, writes in *. unfold mbind, action_bind.
  cbn [rows_written ArrowToCsvWriter_new] in Hw.
  destruct (csv_rows_of 0 bs) as [rows|e|]; [|by destruct Hw as [s' ->]..].
  by destruct Hw as [a ->].
Qed.

(** ** Valid text *)
Fixpoint array_valid (array : ArrowArray) : Prop :=
  match array with
  | FlatArray _ values => ∀ s, Some (TextValue s) ∈ values → valid_str s
  | DictionaryArray _ _ values => array_valid values
  end.

Definition batch_valid (b : InputBatch) : Prop :=
  Forall (λ f, valid_str (f_name f)) (ib_fields b) ∧ Forall array_valid (ib_columns b).

Lemma plain_valid s : plain s = true → valid_str s.
Proof.
  intros Hs. unfold valid_str. apply utf8_check_ascii.
  induction s as [|a s IH]; [constructor|]. cbn [str_forall] in Hs. apply andb_true_iff in Hs as [Ha Hs].
  change (as_bytes (String a s)) with (byte_of_ascii a :: as_bytes s). constructor; [|by apply IH].
  revert Ha. destruct a as [[] [] [] [] [] [] [] []]; vm_compute; done.
Qed.

Lemma cell_text_valid array i s :
  valid_str (null_value o) → array_valid array → cell_text array i = Ok s → valid_str s.
Proof.
  intros Hn. induction array as [t values|key_type keys values IH] in i |- *; intros Hv;
    cbn [cell_text]; intros (f & _ & Hc)%bind_ok.
  - destruct (values !! i) as [[v|]|] eqn:Ei; [|by injection Hc as <-|done].
    destruct v; cbn [value_text] in Hc;
      try (eapply plain_valid, plain_value; [exact Hc|done]).
    destruct f; try done; injection Hc as <-; by eapply Hv, list_elem_of_lookup_2.
  - destruct (keys !! i) as [[key|]|]; [|by injection Hc as <-|done].
    destruct (key_index key); [|done]. by eapply IH.
Qed.

Lemma csv_rows_valid n bs rows :
  valid_str (null_value o) → Forall batch_valid bs → csv_rows_of n bs = Ok rows →
  Forall (Forall valid_str) rows.
Proof.
  intros Hn Hb. induction Hb as [|b bs [Hf Hc] _ IH] in n, rows |- *; cbn [csv_rows_of];
    [by intros [= <-]|].
  intros (rows1 & H1 & (rest & H2 & [= <-])%bind_ok)%bind_ok. apply Forall_app. split; [|by eapply IH].
  unfold batch_rows in H1. apply bind_ok in H1 as (_ & _ & (rs & Hr & [= <-])%bind_ok).
  apply Forall_app. split.
  { destruct (_ && _); [|done]. constructor; [|done]. by apply Forall_fmap. }
  apply mapM_outcome_ok in Hr. apply Forall_forall. intros row (j & Hj)%list_elem_of_lookup.
  destruct (Forall2_lookup_r _ _ _ _ _ Hr Hj) as (i & _ & Hrow). unfold batch_row in Hrow.
  apply mapM_outcome_ok in Hrow. apply Forall_forall. intros s (k & Hk)%list_elem_of_lookup.
  destruct (Forall2_lookup_r _ _ _ _ _ Hrow Hk) as (column & Hcol & Hs).
  eapply cell_text_valid; [done| |exact Hs]. by eapply (Forall_lookup_1 array_valid).
Qed.
End Rows.

(** C35: importing record batches: the CSV data is exactly what a CSV import writes for the
    texts of the values with the options that the statement names - or the same error, or
    panic, as the first value without a text - and a CSV reader with these options finds the
    texts, separators, quotes and line breaks in them included. Where the options ask for a
    header, the column names are the first row - and once more for each further batch until
    a row was written -, and the statement skips none. *)
Theorem arrow_rows_read_back `{ArrowTypeLib, CL : ChronoLaws, TL : Statement.ParameterTextLaws}
    (a : ArrowImportOptions) bs :
  let o := csv_options a in
  let c := csv_import_options a in
  let text rows := String.concat "" ((λ row, format_csv_row (CsvImport.column_separator c)
    (CsvImport.column_delimiter c) row (CsvImport.row_separator c)) <$> rows) in
  options_ok o → valid_str (null_value o) → Forall batch_valid bs →
  record_batches_to_csv bs o = (λ rows, as_bytes (text rows)) <$> csv_rows_of o 0 bs ∧
  (∀ rows, csv_rows_of o 0 bs = Ok rows →
     parse_csv (CsvImport.column_separator c) (CsvImport.column_delimiter c) (text rows)
     = Ok (read_as <$> rows)) ∧
  CsvImport.skip_rows c = 0.
Proof.
  intros o c text Hok Hn Hv. split; [by apply record_batches_text|]. split; [|done].
  intros rows Hr. apply rows_read_back; [apply (chars_differ o Hok)|].
  by eapply csv_rows_valid.
Qed.

(** ** Which types are converted *)

(** arrow documents the key types of dictionaries as the eight integer types. *)
Definition integer_types : list ArrowType :=
  [AInt8; AInt16; AInt32; AInt64; AUInt8; AUInt16; AUInt32; AUInt64].

Lemma check_schema_ok `{ArrowTypeLib} fields :
  match check_schema_converts fields with
  | Ok _ => Forall (λ f, ∃ fm, resolve_value_formatter (f_data_type f) = Ok fm) fields
  | Err e => ∃ i f, fields !! i = Some f ∧
      Forall (λ f, ∃ fm, resolve_value_formatter (f_data_type f) = Ok fm) (take i fields) ∧
      resolve_value_formatter (f_data_type f) = Err (unsupported_type (f_data_type f)) ∧
      e = ImportConversionError ("Column '" +:+ f_name f +:+ "': " +:+ UNSUPPORTED_TYPE
            +:+ ": " +:+ show_arrow_type (f_data_type f))
  | Panic => False
  end.
Proof.
  unfold check_schema_converts. induction fields as [|f fields IH]; [constructor|]. cbn [mapM].
  assert (∀ t, resolve_value_formatter t = Err (unsupported_type t) ∨
    ∃ fm, resolve_value_formatter t = Ok fm) as Hr.
  { intros t. destruct t; eauto; [by destruct unit; eauto|].
    cbn. destruct t2; eauto; by destruct t1; eauto. }
  destruct (Hr (f_data_type f)) as [E|[fm E]]; rewrite E; cbn [map_err mbind outcome_bind].
  { exists O, f. by split_and!; [|constructor| |]. }
  destruct (mapM _ fields) as [l|e|]; cbn [mbind outcome_bind mret outcome_ret] in *; [|..|done].
  - constructor; [by exists fm|done].
  - destruct IH as (i & g & Hi & Ht & Hg & He). exists (S i), g. split; [done|].
    split; [|done]. cbn. constructor; [by exists fm|done].
Qed.

(** The conversion of an import covers exactly the Arrow types that have an Exasol column
    type, and decimals beyond Exasol's limits; a batch with a column of another type is
    refused with the first such column's name and type before anything of it is written,
    and with the writer as it was. *)
Theorem conversion_decided_first `{ArrowTypeLib, Chrono, Statement.ParameterText} :
  (∀ t, is_dictionary_key_type t = bool_decide (t ∈ integer_types)) →
  (∀ t, (∃ f, resolve_value_formatter t = Ok f) ↔
        (∃ e, arrow_to_exasol t = Ok e) ∨ (∃ p s, t = ADecimal128 p s ∨ t = ADecimal256 p s)) ∧
  (∀ W (S : ByteSink W) b (s : @ArrowToCsvWriter W),
     ¬ Forall (λ f, ∃ fm, resolve_value_formatter (f_data_type f) = Ok fm) (ib_fields b) →
     ∃ i f, ib_fields b !! i = Some f ∧
       Forall (λ f, ∃ fm, resolve_value_formatter (f_data_type f) = Ok fm) (take i (ib_fields b)) ∧
       write_batch b s = (Err (ImportConversionError ("Column '" +:+ f_name f +:+ "': "
         +:+ UNSUPPORTED_TYPE +:+ ": " +:+ show_arrow_type (f_data_type f))), s)).
Proof.
  intros Hk. split.
  - intros t. split.
    + intros [f Hf]. destruct t; try discriminate Hf;
        try (left; by eexists); try (right; by eauto).
      * left. cbn. destruct unit; by eexists.
      * left. cbn in *. rewrite Hk. destruct t2; try done; destruct t1; try done; cbn; by eexists.
    + intros [[e He]|(p & s & [-> | ->])]; [|by eexists..].
      destruct t; try discriminate He; try (by eexists); [cbn; destruct unit; by eexists|].
      cbn in *. rewrite Hk in He. destruct (bool_decide_reflect (t1 ∈ integer_types)) as [Hi|]; [|done].
      destruct t2; try done; unfold integer_types in Hi; set_unfold in Hi;
        destruct_or!; subst; by eexists.
  - intros W S b s Hn. pose proof (check_schema_ok (ib_fields b)) as Hc.
    unfold write_batch, mbind, action_bind, pure_call.
    destruct (check_schema_converts (ib_fields b)) as [u|e|]; [by destruct Hn| |done].
    destruct Hc as (i & f & Hi & Ht & _ & ->). by exists i, f.
Qed.

(** ** At concrete inputs *)
Definition key_types : ArrowTypeLib :=
  {| is_dictionary_key_type t := bool_decide (t ∈ integer_types); show_arrow_type _ := "List" |}.

#[local] Existing Instances key_types calendar_chrono StatementSafety.hex_text.

Definition quoted_batch : InputBatch :=
  {| ib_fields := [{| f_name := "N"; f_data_type := ADecimal128 9 2; f_nullable := true |};
                   {| f_name := "S"; f_data_type := ADictionary AInt8 AUtf8; f_nullable := true |}];
     ib_columns := [FlatArray (ADecimal128 9 2) [Some (IntValue (-5)); None];
                    DictionaryArray AInt8 [Some 1; Some 0]
                      (FlatArray AUtf8 [Some (TextValue "a,b"); Some (TextValue "c")])];
     ib_rows := 2 |}.

Definition header_options : ArrowImportOptions :=
  {| schema := None; columns := None; batch_size := 10000;
     csv_options := {| column_separator := ","; column_delimiter := "'";
       row_separator := newline_char; null_value := "NULL"; write_header := true;
       date_format := ""; timestamp_format := "" |};
     use_tls := false; host := "localhost"; port := 8563 |}.

Lemma arrow_rows_read_back_witness :
  record_batches_to_csv [quoted_batch] (csv_options header_options)
    = Ok (as_bytes ("N,S" +:+ newline_char +:+ "-0.05,c" +:+ newline_char
                    +:+ "NULL,'a,b'" +:+ newline_char)) ∧
  csv_rows_of (csv_options header_options) 0 [quoted_batch]
    = Ok [["N"; "S"]; ["-0.05"; "c"]; ["NULL"; "a,b"]].
Proof.
  destruct (arrow_rows_read_back header_options [quoted_batch]) as (Hw & _ & _).
  - split; [by split|..]; [|reflexivity..].
    intros a Ha. split; intros E; injection E as ->; discriminate Ha.
  - vm_compute. reflexivity.
  - constructor; [|constructor]. split; [repeat (constructor; [vm_compute; reflexivity|]); constructor|].
    repeat constructor; cbn; intros s Hs; set_unfold in Hs; destruct_or!; simplify_eq; by vm_compute.
  - split; [rewrite Hw; vm_compute; reflexivity|vm_compute; reflexivity].
Defined.

Lemma conversion_decided_first_witness :
  ∃ e, write_batch {| ib_fields := [{| f_name := "L"; f_data_type := OtherType "List"; f_nullable := true |}];
                      ib_columns := []; ib_rows := 0 |}
         (ArrowToCsvWriter_new ([] : list byte) CsvWriterOptions_default)
       = (Err e, ArrowToCsvWriter_new [] CsvWriterOptions_default).
Proof.
  destruct conversion_decided_first as [_ Hw]; [intros; reflexivity|].
  edestruct (Hw (list byte) vec_sink) as (i & f & _ & _ & E); [|by eexists].
  cbn [ib_fields]. intros Hf. apply Forall_cons in Hf as [[fm Hfm] _]. discriminate Hfm.
Defined.
