(* ===== verification/ParquetImport.v ===== *)
(** * Parquet import

    [import/parquet.rs]: options, the checks of a file's footer, what an import does before
    it connects, the statements, and the streaming of a file as CSV, in which a producer
    renders record batches into a bounded queue while the tunnel sends them. Also the
    conversion of several files in [import/parallel.rs]. The reader of the parquet crate is a
    class. The theorems: every interleaving of the producer and the tunnel sends what
    rendering batch by batch would, it cannot get stuck, and its body ends only behind the
    last batch; and what is sent before an import is accepted. *)
From S2P Require Import Prelude MachineInt RustStr StrText Errors HttpWire Effect Json.
From S2P Require Import ExasolTypes Messages Lifecycle Tls HttpTunnel HttpClient HttpRuns.
From S2P Require Import HttpBodies Csv CsvImport CsvStream ParallelImport.
From S2P Require ImportQuery Infer ArrowCsv ArrowRows DateTime Statement StatementSafety.
From S2P Require TunnelWitness.
From stdpp Require Import relations.

#[local] Open Scope Z_scope.

(** ** Options *)
(* code: import/parquet.rs 38-89 ParquetImportOptions *)
Record ParquetImportOptions := {
  schema : option string;
  columns : option (list string);
  batch_size : Z;
  null_value : string;
  column_separator : string;
  column_delimiter : string;
  use_tls : bool;
  host : string;
  port : Z;
  create_table_if_not_exists : bool;
  column_name_mode : ColumnNameMode;
  native_parquet_override : option bool;
}.

(* code: import/parquet.rs 91-108 ParquetImportOptions::default *)
Definition ParquetImportOptions_default : ParquetImportOptions := {|
  schema := None; columns := None; batch_size := 1024; null_value := "";
  column_separator := ","; column_delimiter := String dquote ""; use_tls := false; host := "";
  port := 0; create_table_if_not_exists := false; column_name_mode := Quoted;
  native_parquet_override := None;
|}.

Section Setters.
Context (o : ParquetImportOptions).

(* code: import/parquet.rs 117-121 ParquetImportOptions::with_schema *)
Definition with_schema (s : string) : ParquetImportOptions := {|
  schema := Some s; columns := columns o; batch_size := batch_size o; null_value := null_value
  o; column_separator := column_separator o; column_delimiter := column_delimiter o; use_tls
  := use_tls o; host := host o; port := port o; create_table_if_not_exists :=
  create_table_if_not_exists o; column_name_mode := column_name_mode o;
  native_parquet_override := native_parquet_override o |}.

(* code: import/parquet.rs 123-127 ParquetImportOptions::with_columns *)
Definition with_columns (cols : list string) : ParquetImportOptions := {|
  schema := schema o; columns := Some cols; batch_size := batch_size o; null_value :=
  null_value o; column_separator := column_separator o; column_delimiter := column_delimiter
  o; use_tls := use_tls o; host := host o; port := port o; create_table_if_not_exists :=
  create_table_if_not_exists o; column_name_mode := column_name_mode o;
  native_parquet_override := native_parquet_override o |}.

(* code: import/parquet.rs 129-133 ParquetImportOptions::with_batch_size *)
Definition with_batch_size (n : Z) : ParquetImportOptions := {|
  schema := schema o; columns := columns o; batch_size := n; null_value := null_value o;
  column_separator := column_separator o; column_delimiter := column_delimiter o; use_tls :=
  use_tls o; host := host o; port := port o; create_table_if_not_exists :=
  create_table_if_not_exists o; column_name_mode := column_name_mode o;
  native_parquet_override := native_parquet_override o |}.

(* code: import/parquet.rs 135-139 ParquetImportOptions::with_null_value *)
Definition with_null_value (s : string) : ParquetImportOptions := {|
  schema := schema o; columns := columns o; batch_size := batch_size o; null_value := s;
  column_separator := column_separator o; column_delimiter := column_delimiter o; use_tls :=
  use_tls o; host := host o; port := port o; create_table_if_not_exists :=
  create_table_if_not_exists o; column_name_mode := column_name_mode o;
  native_parquet_override := native_parquet_override o |}.

(* code: import/parquet.rs 141-145 ParquetImportOptions::with_column_separator *)
Definition with_column_separator (c : string) : ParquetImportOptions := {|
  schema := schema o; columns := columns o; batch_size := batch_size o; null_value :=
  null_value o; column_separator := c; column_delimiter := column_delimiter o; use_tls :=
  use_tls o; host := host o; port := port o; create_table_if_not_exists :=
  create_table_if_not_exists o; column_name_mode := column_name_mode o;
  native_parquet_override := native_parquet_override o |}.

(* code: import/parquet.rs 147-151 ParquetImportOptions::with_column_delimiter *)
Definition with_column_delimiter (c : string) : ParquetImportOptions := {|
  schema := schema o; columns := columns o; batch_size := batch_size o; null_value :=
  null_value o; column_separator := column_separator o; column_delimiter := c; use_tls :=
  use_tls o; host := host o; port := port o; create_table_if_not_exists :=
  create_table_if_not_exists o; column_name_mode := column_name_mode o;
  native_parquet_override := native_parquet_override o |}.

(* code: import/parquet.rs 153-158 ParquetImportOptions::use_tls *)
Definition with_use_tls (v : bool) : ParquetImportOptions := {|
  schema := schema o; columns := columns o; batch_size := batch_size o; null_value :=
  null_value o; column_separator := column_separator o; column_delimiter := column_delimiter
  o; use_tls := v; host := host o; port := port o; create_table_if_not_exists :=
  create_table_if_not_exists o; column_name_mode := column_name_mode o;
  native_parquet_override := native_parquet_override o |}.

(* code: import/parquet.rs 160-167 ParquetImportOptions::with_exasol_host *)
Definition with_exasol_host (s : string) : ParquetImportOptions := {|
  schema := schema o; columns := columns o; batch_size := batch_size o; null_value :=
  null_value o; column_separator := column_separator o; column_delimiter := column_delimiter
  o; use_tls := use_tls o; host := s; port := port o; create_table_if_not_exists :=
  create_table_if_not_exists o; column_name_mode := column_name_mode o;
  native_parquet_override := native_parquet_override o |}.

(* code: import/parquet.rs 169-176 ParquetImportOptions::with_exasol_port *)
Definition with_exasol_port (p : Z) : ParquetImportOptions := {|
  schema := schema o; columns := columns o; batch_size := batch_size o; null_value :=
  null_value o; column_separator := column_separator o; column_delimiter := column_delimiter
  o; use_tls := use_tls o; host := host o; port := p; create_table_if_not_exists :=
  create_table_if_not_exists o; column_name_mode := column_name_mode o;
  native_parquet_override := native_parquet_override o |}.

(* code: import/parquet.rs 178-190 ParquetImportOptions::with_create_table_if_not_exists *)
Definition with_create_table_if_not_exists (create : bool) : ParquetImportOptions := {|
  schema := schema o; columns := columns o; batch_size := batch_size o; null_value :=
  null_value o; column_separator := column_separator o; column_delimiter := column_delimiter
  o; use_tls := use_tls o; host := host o; port := port o; create_table_if_not_exists :=
  create; column_name_mode := column_name_mode o; native_parquet_override :=
  native_parquet_override o |}.

(* code: import/parquet.rs 192-203 ParquetImportOptions::with_column_name_mode *)
Definition with_column_name_mode (mode : ColumnNameMode) : ParquetImportOptions := {|
  schema := schema o; columns := columns o; batch_size := batch_size o; null_value :=
  null_value o; column_separator := column_separator o; column_delimiter := column_delimiter
  o; use_tls := use_tls o; host := host o; port := port o; create_table_if_not_exists :=
  create_table_if_not_exists o; column_name_mode := mode; native_parquet_override :=
  native_parquet_override o |}.

(* code: import/parquet.rs 205-219 ParquetImportOptions::with_native_parquet *)
Definition with_native_parquet (v : option bool) : ParquetImportOptions := {|
  schema := schema o; columns := columns o; batch_size := batch_size o; null_value :=
  null_value o; column_separator := column_separator o; column_delimiter := column_delimiter
  o; use_tls := use_tls o; host := host o; port := port o; create_table_if_not_exists :=
  create_table_if_not_exists o; column_name_mode := column_name_mode o;
  native_parquet_override := v |}.
End Setters.

(** ** Files *)
(** The footer of a file: its Arrow schema, the keys of its metadata and its row count. *)
Record ParquetFooter := {
  footer_fields : list Field;
  footer_keys : option (list string);
  footer_rows : Z;
}.

(** An open file: its footer, and the reader of its batches of a size. *)
Record ParquetSource := {
  source_footer : ParquetFooter + string;
  source_batches : Z → list (ArrowCsv.InputBatch + string) + string;
}.

(** The parquet crate and the file system: the key under which a file has its Arrow schema;
    for a path the footer of a file, the file, and its bytes; the file in a buffer. An error
    is its text. *)
Class ParquetFiles := {
  ARROW_SCHEMA_META_KEY : string;
  path_footer : string → ParquetFooter + string;
  path_source : string → ParquetSource + string;
  path_bytes : string → FileSource + string;
  buffer_source : list byte → ParquetSource;
  buffer_bytes : list byte → FileSource;
}.

Section Footers.
Context `{ArrowTypeLib, UnicodeCase, ParquetFiles}.

(* code: import/parquet.rs 336-338 rejected_footer *)
Definition rejected_footer (path reason : string) : ImportError :=
  SchemaInferenceError ("Parquet file '" +:+ path +:+ "': " +:+ reason).

(* code: import/parquet.rs 340-349 read_footer *)
Definition read_footer (path : string) : outcome ImportError ParquetFooter :=
  match path_footer path with
  | inl footer => Ok footer
  | inr e => Err (SchemaInferenceError ("Failed to read the Parquet footer of '" +:+ path +:+ "': "
                                        +:+ e))
  end.

(* code: import/parquet.rs 351-379 native_auto_create_accepts *)
Definition native_auto_create_accepts (t : ArrowType) : bool :=
  match t with
  | ABoolean | AInt8 | AInt16 | AInt32 | AInt64 | AUInt8 | AUInt16 | AUInt32 | AUInt64
  | AFloat32 | AFloat64 | AUtf8 | ALargeUtf8 | ABinary | ALargeBinary | ADate32 | ADate64
  | ATimestamp _ _ | ADecimal128 _ _ | ADecimal256 _ _ => true
  | _ => false
  end.

(* code: import/parquet.rs 381-395 check_native_auto_create_types *)
Definition check_native_auto_create_types (fields : list Field) : outcome string unit :=
  match list_find (λ f, native_auto_create_accepts (f_data_type f) = false) fields with
  | Some (_, field) =>
    Err ("column '" +:+ f_name field +:+ "' has the Arrow type " +:+
         show_arrow_type (f_data_type field) +:+ ", for which native Parquet import cannot " +:+
         "create a column; import the file with with_native_parquet(Some(false))")
  | None => Ok ()
  end.

Definition is_interval (t : ArrowType) : bool :=
  match t with AInterval _ => true | _ => false end.

(* code: import/parquet.rs 397-429 check_intervals_keep_month_part *)
Definition check_intervals_keep_month_part (footer : ParquetFooter) : outcome string unit :=
  let has_arrow_schema :=
    match footer_keys footer with
    | Some keys => bool_decide (ARROW_SCHEMA_META_KEY ∈ keys)
    | None => false
    end in
  if has_arrow_schema then Ok ()
  else
    match list_find (λ f, is_interval (f_data_type f) = true) (footer_fields footer) with
    | Some (_, field) =>
      Err ("column '" +:+ f_name field +:+ "' holds Parquet INTERVAL values in a file without " +:+
           "an Arrow schema, which the Parquet reader reads as " +:+
           show_arrow_type (f_data_type field) +:+ ", so the column would lose its month part; " +:+
           "write the file with its Arrow schema to import it")
    | None => Ok ()
    end.

(* code: import/parquet.rs 318-325 check_native_auto_create_footer *)
Definition check_native_auto_create_footer (path : string) : outcome ImportError unit :=
  footer ← read_footer path;
  map_err (rejected_footer path) (check_native_auto_create_types (footer_fields footer)).

(* code: import/parquet.rs 327-334 check_csv_auto_create_footer *)
Definition check_csv_auto_create_footer (path : string) : outcome ImportError unit :=
  footer ← read_footer path;
  map_err (rejected_footer path) (check_intervals_keep_month_part footer).

Definition check_auto_create_footer (use_native : bool) (path : string) : outcome ImportError unit :=
  if use_native then check_native_auto_create_footer path else check_csv_auto_create_footer path.

(* code: import/parquet.rs 431-437 ParquetCsvSource *)
Record ParquetCsvSource := {
  row_count : Z;
  batches : list (ArrowCsv.InputBatch + string);
}.

Definition parquet_call {A} (r : A + string) : outcome ImportError A :=
  match r with inl a => Ok a | inr e => Err (ParquetError e) end.

(* code: import/parquet.rs 439-461 open_parquet_csv_reader *)
Definition open_parquet_csv_reader (source : ParquetSource) (o : ParquetImportOptions)
    : outcome ImportError ParquetCsvSource :=
  footer ← parquet_call (source_footer source);
  _ ← map_err SchemaInferenceError (check_intervals_keep_month_part footer);
  if footer_rows footer <? 0 then
    Err (ParquetError ("the Parquet footer reports a negative row count: "
                       +:+ show_int (footer_rows footer)))
  else
    reader ← parquet_call (source_batches source (batch_size o));
    Ok {| row_count := footer_rows footer; batches := reader |}.

(* code: import/parquet.rs 463-481 open_parquet_csv_file *)
Definition open_parquet_csv_file (path : string) (o : ParquetImportOptions)
    : outcome ImportError ParquetCsvSource :=
  match path_source path with
  | inr e => Err (ParallelImportError ("Failed to open Parquet file " +:+ path +:+ ": " +:+ e))
  | inl source =>
    map_err (λ e, ParallelImportError ("Failed to read Parquet file " +:+ path +:+ ": "
                                       +:+ show_import_error e))
      (open_parquet_csv_reader source o)
  end.

(* code: import/parquet.rs 293-300 open_parquet_file *)
Definition open_parquet_file {A} (open : string → A + string) (path : string)
    : outcome ImportError A :=
  match open path with
  | inl file => Ok file
  | inr e => Err (ImportIoError ("failed to open Parquet file '" +:+ path +:+ "': " +:+ e))
  end.
End Footers.

(** ** What an import does before it connects *)
(** The statement runner that the caller hands over: each statement may change the state. *)
Class SqlRunner (S : Type) := run_sql : string → action string S Z.

Section Planning.
Context `{ArrowTypeLib, UnicodeCase, ParquetFiles, Infer.SchemaFiles}.
Context {S : Type} `{!SqlRunner S}.
Abbreviation planning := (action ImportError S).

(* code: import/parquet.rs 35-36 DDL_ALREADY_EXISTS_MARKER *)
Definition DDL_ALREADY_EXISTS_MARKER : string := "already exists".

(* code: import/parquet.rs 302-316 create_table_from_ddl *)
Definition create_table_from_ddl (ddl : string) : planning unit := λ s,
  match run_sql ddl s with
  | (Ok _, s) => (Ok (), s)
  | (Err e, s) =>
    (if contains_str DDL_ALREADY_EXISTS_MARKER (to_lowercase e) then Ok () else Err (SqlError e), s)
  | (Panic, s) => (Panic, s)
  end.

(** Nothing to import, the bytes of a file to serve, or its batches to convert. *)
Inductive parquet_plan :=
| NoRows
| ServeBytes (file : FileSource)
| ServeCsv (reader : list (ArrowCsv.InputBatch + string)).

(* code: import/parquet.rs 276-290 import_from_parquet *)
Definition plan_csv (source : ParquetSource) (o : ParquetImportOptions)
    : outcome ImportError parquet_plan :=
  source ← open_parquet_csv_reader source o;
  Ok (if row_count source =? 0 then NoRows else ServeCsv (batches source)).

(* code: import/parquet.rs 255-290 import_from_parquet *)
Definition plan_parquet (table file_path : string) (o : ParquetImportOptions) (use_native : bool)
    : planning parquet_plan :=
  _ ← (if create_table_if_not_exists o then
         inferred_schema ←
           pure_call (Infer.infer_schema_from_parquet file_path (column_name_mode o));
         _ ← pure_call (check_auto_create_footer use_native file_path);
         create_table_from_ddl (Infer.to_ddl inferred_schema table (schema o))
       else mret ());
  if use_native then
    file ← pure_call (open_parquet_file path_bytes file_path);
    mret (ServeBytes file)
  else
    source ← pure_call (open_parquet_file path_source file_path);
    pure_call (plan_csv source o).

(** The whole stream is read first. *)
(* code: import/parquet.rs 701-736 import_from_parquet_stream *)
Definition plan_parquet_stream (reader : Reader) (o : ParquetImportOptions) (use_native : bool)
    : outcome ImportError parquet_plan :=
  buffer ← read_to_end reader;
  match buffer with
  | [] => Ok NoRows
  | _ =>
    if use_native then Ok (ServeBytes (buffer_bytes buffer)) else plan_csv (buffer_source buffer) o
  end.

Inductive parquet_files_plan :=
| OneFile (path : string)
| NoRowsInAny
| ServeFiles (paths : list string)
| ServeFilesCsv (readers : list (string * list (ArrowCsv.InputBatch + string))).

(* code: import/parquet.rs 848-855 import_from_parquet_files *)
Fixpoint open_parquet_csv_files (paths : list string) (o : ParquetImportOptions)
    : outcome ImportError (list (string * ParquetCsvSource)) :=
  match paths with
  | [] => Ok []
  | path :: paths =>
    source ← open_parquet_csv_file path o;
    files ← open_parquet_csv_files paths o;
    Ok ((path, source) :: files)
  end.

(* code: import/parquet.rs 787-876 import_from_parquet_files *)
Definition plan_parquet_files (table : string) (paths : list string) (o : ParquetImportOptions)
    (use_native : bool) : planning parquet_files_plan :=
  match into_sources paths with
  | [path] => mret (OneFile path)
  | [] => pure_call (Err (InvalidConfig "No files provided for import"))
  | paths =>
    _ ← (if create_table_if_not_exists o then
           inferred_schema ←
             pure_call (Infer.infer_schema_from_parquet_files paths (column_name_mode o));
           _ ← pure_call (mapM (check_auto_create_footer use_native) paths);
           create_table_from_ddl (Infer.to_ddl inferred_schema table (schema o))
         else mret ());
    if use_native then mret (ServeFiles paths)
    else
      files ← pure_call (open_parquet_csv_files paths o);
      mret (if forallb (λ '(_, source), row_count source =? 0) files then NoRowsInAny
            else ServeFilesCsv (prod_map id batches <$> files))
  end.
End Planning.

(** ** The statements *)
Section Statements.
Context (o : ParquetImportOptions).

(* code: import/parquet.rs 637-648 apply_schema_and_columns *)
Definition apply_schema_and_columns (q : ImportQuery.ImportQuery) : ImportQuery.ImportQuery :=
  if_some (columns o) ImportQuery.with_columns (if_some (schema o) ImportQuery.with_schema q).

(* code: import/parquet.rs 650-662 apply_csv_format *)
Definition apply_csv_format (q : ImportQuery.ImportQuery) : ImportQuery.ImportQuery :=
  let q := ImportQuery.with_encoding q "UTF-8" in
  let q := ImportQuery.with_column_separator q (column_separator o) in
  let q := ImportQuery.with_column_delimiter q (column_delimiter o) in
  let q := ImportQuery.with_row_separator q ImportQuery.LF in
  if String.eqb (null_value o) "" then q else ImportQuery.with_null_value q (null_value o).

(* code: import/parquet.rs 630-635 with_public_key *)
Definition with_public_key (q : ImportQuery.ImportQuery) (key : option string)
    : ImportQuery.ImportQuery := if_some key ImportQuery.with_public_key q.

(* code: import/parquet.rs 620-628 build_single_file_csv_query *)
Definition build_single_file_csv_query (table internal_addr : string) : ImportQuery.ImportQuery :=
  apply_csv_format
    (apply_schema_and_columns
       (ImportQuery.at_address (ImportQuery.ImportQuery_new table) internal_addr)).

(* code: import/parquet.rs 590-604 serve_parquet_csv *)
Definition parquet_csv_sql (table : string) (client : HttpTransportClient) : string :=
  ImportQuery.build (with_public_key (build_single_file_csv_query table (internal_address client))
                       (public_key_fingerprint client)).

(* code: import/parquet.rs 566-577 serve_parquet_file *)
Definition parquet_file_sql (table : string) (client : HttpTransportClient) : string :=
  let q := ImportQuery.at_address (ImportQuery.ImportQuery_new table) (internal_address client) in
  let q := ImportQuery.with_file_name (ImportQuery.with_format q ImportQuery.Parquet) "001" in
  ImportQuery.build (with_public_key (apply_schema_and_columns q) (public_key_fingerprint client)).

(* code: import/parquet.rs 902-910 build_multi_file_parquet_query *)
Definition build_multi_file_parquet_query (table : string)
    (entries : list ImportQuery.ImportFileEntry) : ImportQuery.ImportQuery :=
  apply_csv_format
    (apply_schema_and_columns (ImportQuery.with_files (ImportQuery.ImportQuery_new table) entries)).

(* code: import/parquet.rs 912-930 build_multi_file_parquet_native_query *)
Definition build_multi_file_parquet_native_query (table : string)
    (entries : list ImportQuery.ImportFileEntry) : ImportQuery.ImportQuery :=
  apply_schema_and_columns
    (ImportQuery.with_format (ImportQuery.with_files (ImportQuery.ImportQuery_new table) entries)
       ImportQuery.Parquet).
End Statements.

(** ** The tunnel of one file *)
Section Serving.
Context `{Clock, Network, UnicodeCase, TunnelNetwork, CertLib, FingerprintLib, FileIo}.
Context (o : ParquetImportOptions).

(* code: import/parquet.rs 612-618 connect_transport *)
Definition connect_transport {T} : action import_stop (World * T) HttpTransportClient :=
  transport (λ e, HttpTransportError ("Failed to connect to Exasol: " +:+ show_transport_error e))
    (connect (host o) (port o) (use_tls o)).

(** The connection and the statement that names it. *)
(* code: import/parquet.rs 590-604 serve_parquet_csv *)
Definition open_parquet_csv {T} (table : string)
    : action import_stop (World * T) (HttpTransportClient * string) :=
  client ← connect_transport; mret (client, parquet_csv_sql o table client).
(* code: import/parquet.rs 557-577 serve_parquet_file *)
Definition open_parquet_native {T} (table : string)
    : action import_stop (World * T) (HttpTransportClient * string) :=
  client ← connect_transport; mret (client, parquet_file_sql o table client).

(* code: import/parquet.rs 579-584 serve_parquet_file *)
Definition serve_parquet_file (file : FileSource)
    : action import_stop (World * (HttpTransportClient * SeekableFile)) unit :=
  transport ImportTransportError (handle_parquet_import_requests file).
End Serving.

(** ** Rendering *)
Section Rendering.
Context `{ArrowTypeLib, DateTime.Chrono, Statement.ParameterText}.
Context (o : ParquetImportOptions).

(* code: import/parquet.rs 947-953 record_batch_to_csv *)
Definition row_options (row_separator : string) : ArrowCsv.CsvWriterOptions := {|
  ArrowCsv.column_separator := column_separator o;
  ArrowCsv.column_delimiter := column_delimiter o;
  ArrowCsv.row_separator := row_separator;
  ArrowCsv.null_value := null_value o;
  ArrowCsv.write_header := ArrowCsv.write_header ArrowCsv.CsvWriterOptions_default;
  ArrowCsv.date_format := ArrowCsv.date_format ArrowCsv.CsvWriterOptions_default;
  ArrowCsv.timestamp_format := ArrowCsv.timestamp_format ArrowCsv.CsvWriterOptions_default;
|}.

(* code: import/parquet.rs 932-957 record_batch_to_csv *)
Definition record_batch_to_csv (b : ArrowCsv.InputBatch) : outcome ImportError (list string) :=
  _ ← ArrowCsv.check_schema_converts (ArrowCsv.ib_fields b);
  mapM (ArrowCsv.format_row (row_options "") b) (seq 0 (ArrowCsv.ib_rows b)).

(** A batch as the reader gives it, or its error, to one buffer of rows. *)
(* code: import/parquet.rs 496-502 render_parquet_csv *)
Definition render_batch (batch : ArrowCsv.InputBatch + string) : outcome ImportError (list byte) :=
  match batch with
  | inr e => Err (ArrowError e)
  | inl batch =>
    rows ← record_batch_to_csv batch;
    Ok (concat ((λ row, as_bytes row ++ [x0a]) <$> rows))
  end.

(** Each batch is rendered and handed over before the next one is decoded. *)
(* code: import/parquet.rs 483-505 render_parquet_csv *)
Fixpoint render_parquet_csv {S} (emit : list byte → action ImportError S unit)
    (reader : list (ArrowCsv.InputBatch + string)) : action ImportError S unit :=
  match reader with
  | [] => mret ()
  | batch :: reader =>
    buffer ← pure_call (render_batch batch);
    _ ← emit buffer;
    render_parquet_csv emit reader
  end.

(** The CSV of a whole file. *)
Definition parquet_csv (reader : list (ArrowCsv.InputBatch + string))
    : outcome ImportError (list byte) :=
  match render_parquet_csv (λ buffer csv_data, (Ok (), csv_data ++ buffer)) reader [] with
  | (Ok _, csv_data) => Ok csv_data
  | (Err e, _) => Err e
  | (Panic, _) => Panic
  end.
End Rendering.

(** ** The CSV of an Arrow import *)
Section SameCsv.
Context `{ArrowTypeLib, DateTime.Chrono, Statement.ParameterText} (o : ParquetImportOptions).

Abbreviation line_options := (row_options o newline_char).

Lemma format_value_same array i :
  ArrowCsv.format_value line_options array i = ArrowCsv.format_value (row_options o "") array i.
Proof.
  revert i. induction array as [t values|k keys values IH]; intros i; [reflexivity|].
  cbn [ArrowCsv.format_value]. destruct (ArrowCsv.resolve_value_formatter _); [|done..].
  cbn [mbind outcome_bind]. destruct (keys !! i) as [[key|]|]; [|done..].
  by destruct (ArrowCsv.key_index key).
Qed.

Lemma mapM_ext {A B} (f g : A → outcome ImportError B) xs :
  (∀ x, f x = g x) → mapM f xs = mapM g xs.
Proof. intros Hfg. induction xs as [|x xs IH]; cbn; [done|]. by rewrite Hfg, IH. Qed.

Lemma format_row_same b i :
  ArrowCsv.format_row line_options b i
  = (λ row, row +:+ newline_char) <$> ArrowCsv.format_row (row_options o "") b i.
Proof.
  unfold ArrowCsv.format_row.
  rewrite (mapM_ext _ (λ column, ArrowCsv.format_value (row_options o "") column i))
    by (intros; apply format_value_same).
  destruct (mapM _ _) as [texts|e|]; [|done..]. cbn. unfold ArrowCsv.joined. cbn.
  by rewrite str_app_nil_r.
Qed.

Abbreviation vec_state := (@ArrowCsv.ArrowToCsvWriter (list byte)).

(** The run of a writer into a vector that adds [bytes] or fails. *)
Definition adds {A} (r : outcome ImportError A * vec_state) (s : vec_state)
    (bytes : outcome ImportError (list byte)) : Prop :=
  match bytes with
  | Ok bs => ∃ a, r.1 = Ok a ∧ ArrowCsv.writer r.2 = ArrowCsv.writer s ++ bs ∧
                  ArrowCsv.options r.2 = ArrowCsv.options s
  | Err e => r.1 = Err e
  | Panic => r.1 = Panic
  end.

Definition row_lines (rows : list string) : list byte := concat ((λ row, as_bytes row ++ [x0a]) <$> rows).

Lemma write_rows_adds b rows n (s : vec_state) :
  ArrowCsv.options s = line_options →
  adds (ArrowCsv.write_rows b rows n s) s
    (row_lines <$> mapM (ArrowCsv.format_row (row_options o "") b) rows).
Proof.
  revert n s. induction rows as [|i rows IH]; intros n s Hs.
  { exists n. cbn. by rewrite app_nil_r. }
  cbn [ArrowCsv.write_rows mapM]. unfold mbind, action_bind, get, pure_call.
  rewrite Hs, format_row_same.
  destruct (ArrowCsv.format_row (row_options o "") b i) as [row|e|]; [|done..].
  cbn [fmap outcome_fmap]. unfold ArrowCsv.write_text, ArrowCsv.on_writer, mbind, action_bind.
  cbn -[ArrowCsv.write_rows as_bytes].
  match goal with |- adds (ArrowCsv.write_rows b rows ?n' ?s') _ _ => specialize (IH n' s' Hs) end.
  destruct (mapM _ rows) as [texts|e|]; cbn in *; [|done..].
  destruct IH as (a & Ha & Hw & Ho). exists a. split; [done|]. split; [|congruence].
  rewrite Hw, as_bytes_app. unfold row_lines. cbn. by rewrite <- !app_assoc.
Qed.

Lemma write_batch_adds b (s : vec_state) :
  ArrowCsv.options s = line_options →
  adds (ArrowCsv.write_batch b s) s (render_batch o (inl b)).
Proof.
  intros Hs. unfold ArrowCsv.write_batch, render_batch, record_batch_to_csv.
  unfold mbind, action_bind, outcome_bind, get, pure_call.
  destruct (ArrowCsv.check_schema_converts _); [|done..]. rewrite Hs. cbn [ArrowCsv.write_header andb].
  pose proof (write_rows_adds b (seq 0 (ArrowCsv.ib_rows b)) 0 s Hs) as Hrows.
  cbn [ArrowCsv.write_header row_options ArrowCsv.CsvWriterOptions_default andb]. unfold mret, action_ret.
  destruct (mapM _ _) as [rows|e|]; cbn [fmap outcome_fmap adds] in *;
    destruct (ArrowCsv.write_rows _ _ _ _) as [[m|e'|] s']; exact Hrows.
Qed.

(** The CSV a Parquet import sends for its batches is what the import of these record
    batches sends, with the error of the first value or column that does not convert. *)
Lemma parquet_csv_arrow bs :
  parquet_csv o (inl <$> bs) = ArrowCsv.record_batches_to_csv bs line_options.
Proof.
  unfold parquet_csv, ArrowCsv.record_batches_to_csv.
  assert (∀ s : vec_state, ArrowCsv.options s = line_options →
    match render_parquet_csv o (λ b d, (Ok (), d ++ b)) (inl <$> bs) (ArrowCsv.writer s) with
    | (Ok _, d) => ∃ s', ArrowCsv.write_batches bs s = (Ok (), s') ∧ ArrowCsv.writer s' = d
    | (Err e, _) => (ArrowCsv.write_batches bs s).1 = Err e
    | (Panic, _) => (ArrowCsv.write_batches bs s).1 = Panic
    end) as Hgen.
  { induction bs as [|b bs IH]; intros s Hs; [by exists s|].
    cbn [fmap list_fmap render_parquet_csv ArrowCsv.write_batches].
    pose proof (write_batch_adds b s Hs) as Hb. unfold mbind, action_bind, pure_call.
    destruct (render_batch o (inl b)) as [bytes|e|]; cbn [adds] in Hb;
      destruct (ArrowCsv.write_batch b s) as [[m|e'|] s'] eqn:Hrun; cbn [fst snd] in *;
      try congruence; destruct Hb as (a & Ha & Hw & Ho); try congruence.
    rewrite <- Hw. apply IH. congruence. }
  specialize (Hgen (ArrowCsv.ArrowToCsvWriter_new ([] : list byte) line_options) eq_refl).
  cbn [ArrowCsv.writer ArrowCsv.ArrowToCsvWriter_new] in Hgen. unfold mbind, action_bind.
  destruct (render_parquet_csv _ _ _ _) as [[u|e|] d].
  - destruct Hgen as (s' & -> & <-). done.
  - destruct (ArrowCsv.write_batches _ _) as [[]]; cbn in Hgen; congruence.
  - destruct (ArrowCsv.write_batches _ _) as [[]]; cbn in Hgen; congruence.
Qed.
End SameCsv.

Section Convert.
Context `{ArrowTypeLib, DateTime.Chrono, Statement.ParameterText, ParquetFiles, JoinErrors}.

(** The options of the conversion. *)
(* code: import/parallel.rs 456-462 convert_parquet_files_to_csv *)
Definition conversion_options (batch_size : Z) (null_value column_separator column_delimiter : string)
    : ParquetImportOptions :=
  let o := with_batch_size ParquetImportOptions_default batch_size in
  let o := with_null_value o null_value in
  let o := with_column_separator o column_separator in
  with_column_delimiter o column_delimiter.

(** One blocking task, with the task around it that waits for it. *)
(* code: import/parallel.rs 468-500 convert_parquet_files_to_csv *)
Definition convert_parquet_file (o : ParquetImportOptions) (idx : nat) (path : string)
    : task_end (list byte) :=
  let converted :=
    source ← open_parquet_csv_file path o;
    map_err (λ e, match e with
                  | ImportConversionError msg => ImportConversionError (path +:+ ": " +:+ msg)
                  | e => ParallelImportError ("Failed to read batch from " +:+ path +:+ ": "
                                              +:+ show_import_error e)
                  end) (parquet_csv o (batches source)) in
  match converted with
  | Ok csv_data => Returned (inl csv_data)
  | Err e => Returned (inr e)
  | Panic =>
    Returned (inr (ParallelImportError ("Parquet conversion task " +:+ show_count idx
                                        +:+ " panicked: " +:+ join_error idx false)))
  end.

(* code: import/parallel.rs 503-517 convert_parquet_files_to_csv *)
Fixpoint collect_conversions (idx : nat) (handles : list (task_end (list byte)))
    : outcome ImportError (list (list byte)) :=
  match handles with
  | [] => Ok []
  | handle :: handles =>
    csv_data ← match handle with
               | JoinFailed _ e =>
                 Err (ParallelImportError ("Conversion task " +:+ show_count idx +:+ " panicked: "
                                           +:+ e))
               | Returned (inr (ImportConversionError m)) => Err (ImportConversionError m)
               | Returned (inr e) =>
                 Err (ParallelImportError ("Conversion " +:+ show_count idx +:+ " failed: "
                                           +:+ show_import_error e))
               | Returned (inl csv_data) => Ok csv_data
               end;
    results ← collect_conversions (S idx) handles;
    Ok (csv_data :: results)
  end.

(* code: import/parallel.rs 448-520 convert_parquet_files_to_csv *)
Definition convert_parquet_files_to_csv (paths : list string) (batch_size : Z)
    (null_value column_separator column_delimiter : string)
    : outcome ImportError (list (list byte)) :=
  let o := conversion_options batch_size null_value column_separator column_delimiter in
  collect_conversions 0 (imap (convert_parquet_file o) paths).
End Convert.

(** ** The producer and the tunnel *)
(* code: import/parquet.rs 507-508 RENDERED_BATCH_QUEUE *)
Definition RENDERED_BATCH_QUEUE : nat := 2.

Section Pipe.
Context `{ArrowTypeLib, DateTime.Chrono, Statement.ParameterText}.
Context `{Clock, Network, UnicodeCase, TunnelNetwork, CertLib, FingerprintLib, JoinErrors}.
Context {X : Type} (o : ParquetImportOptions).
Abbreviation iio := (action import_stop (World * (HttpTransportClient * X))).

(** The blocking task: it renders, waits with a buffer for room in the queue, or is done. *)
Inductive producer_state :=
| Rendering (todo : list (ArrowCsv.InputBatch + string))
| Sending (buffer : list byte) (todo : list (ArrowCsv.InputBatch + string))
| ProducerDone (e : task_end unit).

(** How the future of the stream ends: with a result, or dropped. *)
Inductive stream_end := StreamOver (r : outcome import_stop unit) | StreamDropped.

Record Pipe := {
  producer : producer_state;
  queue : list (list byte);
  at_tunnel : World * (HttpTransportClient * X);
  over : option stream_end;
}.

(* code: import/parquet.rs 527-534 stream_parquet_csv *)
Definition pipe_start (reader : list (ArrowCsv.InputBatch + string))
    (s : World * (HttpTransportClient * X)) : Pipe :=
  {| producer := Rendering reader; queue := []; at_tunnel := s; over := None |}.

(** The producer takes a batch or sends a buffer, the tunnel takes a buffer, finds the
    queue closed and empty, or is dropped. *)
Inductive pipe_event := RenderBatch | SendBuffer | TakeBuffer | FinishStream | DropStream.

Definition set_producer (s : producer_state) (q : list (list byte)) (p : Pipe) : Pipe :=
  {| producer := s; queue := q; at_tunnel := at_tunnel p; over := over p |}.
Definition set_over (e : stream_end) (q : list (list byte))
    (s : World * (HttpTransportClient * X)) (p : Pipe) : Pipe :=
  {| producer := producer p; queue := q; at_tunnel := s; over := Some e |}.

(** The pieces of a buffer. *)
(* code: import/parquet.rs 537-542 stream_parquet_csv *)
Definition send_buffer (buffer : list byte) : iio unit :=
  write_chunks (chunks (Z.to_nat CHUNK_SIZE) buffer).

(* code: import/parquet.rs 545-549 stream_parquet_csv *)
Definition finish_stream (e : task_end unit) : iio unit :=
  match resolve_stream_task e with
  | inl _ => transport ImportTransportError write_final_chunk
  | inr err => importing (Err err)
  end.

(* code: import/parquet.rs 527-550 stream_parquet_csv *)
Definition pipe_step (ev : pipe_event) (p : Pipe) : option Pipe :=
  match ev with
  | RenderBatch =>
    match producer p with
    | Rendering [] => Some (set_producer (ProducerDone (Returned (inl ()))) (queue p) p)
    | Rendering (batch :: todo) =>
      let s :=
        match render_batch o batch with
        | Ok buffer => Sending buffer todo
        | Err e => ProducerDone (Returned (inr e))
        | Panic => ProducerDone (JoinFailed false (join_error 0 false))
        end in
      Some (set_producer s (queue p) p)
    | _ => None
    end
  | SendBuffer =>
    match producer p, over p with
    | Sending _ _, Some _ =>
      Some (set_producer (ProducerDone (Returned (inr (ChannelError
              "the HTTP tunnel stopped taking CSV")))) (queue p) p)
    | Sending buffer todo, None =>
      if (length (queue p) <? RENDERED_BATCH_QUEUE)%nat then
        Some (set_producer (Rendering todo) (queue p ++ [buffer]) p)
      else None
    | _, _ => None
    end
  | TakeBuffer =>
    match queue p, over p with
    | buffer :: q, None =>
      match send_buffer buffer (at_tunnel p) with
      | (Ok _, s) => Some {| producer := producer p; queue := q; at_tunnel := s; over := None |}
      | (Err e, s) => Some (set_over (StreamOver (Err e)) [] s p)
      | (Panic, s) => Some (set_over (StreamOver Panic) [] s p)
      end
    | _, _ => None
    end
  | FinishStream =>
    match queue p, producer p, over p with
    | [], ProducerDone e, None =>
      let '(r, s) := finish_stream e (at_tunnel p) in Some (set_over (StreamOver r) [] s p)
    | _, _, _ => None
    end
  | DropStream =>
    match over p with
    | None => Some (set_over StreamDropped [] (at_tunnel p) p)
    | Some _ => None
    end
  end.

Definition pipe_next (p p' : Pipe) : Prop := ∃ ev, pipe_step ev p = Some p'.

(** The state behind a sequence of events. *)
Fixpoint pipe_run (evs : list pipe_event) (p : Pipe) : option Pipe :=
  match evs with
  | [] => Some p
  | ev :: evs => p ← pipe_step ev p; pipe_run evs p
  end.

Lemma pipe_run_rtc evs p p' : pipe_run evs p = Some p' → rtc pipe_next p p'.
Proof.
  revert p. induction evs as [|ev evs IH]; intros p; cbn [pipe_run].
  - by intros [= ->].
  - intros (p1 & Hev & Hrun)%bind_Some. eapply rtc_l; [by exists ev|by apply IH].
Qed.

(** ** One batch behind the other *)
(** What the pipe does, without a queue. *)
(* code: import/parquet.rs 510-550 stream_parquet_csv *)
Fixpoint stream_batches (todo : list (ArrowCsv.InputBatch + string)) : iio unit :=
  match todo with
  | [] => finish_stream (Returned (inl ()))
  | batch :: todo =>
    match render_batch o batch with
    | Ok buffer => _ ← send_buffer buffer; stream_batches todo
    | Err e => finish_stream (Returned (inr e))
    | Panic => finish_stream (JoinFailed false (join_error 0 false))
    end
  end.

(* code: import/parquet.rs 510-550 stream_parquet_csv *)
Definition stream_parquet_csv (reader : list (ArrowCsv.InputBatch + string)) : iio unit :=
  _ ← transport request_failed handle_import_request;
  stream_batches reader.

(* code: import/parquet.rs 890-897 stream_parquet_files_as_csv *)
Definition name_parquet (path : string) (e : import_stop) : import_stop :=
  match e with
  | ImportFailed (ImportConversionError message) =>
    ImportFailed (ImportConversionError (path +:+ ": " +:+ message))
  | ImportFailed e => ImportFailed (ParallelImportError (path +:+ ": " +:+ show_import_error e))
  | ImportCancelled => ImportCancelled
  end.

(* code: import/parquet.rs 878-900 stream_parquet_files_as_csv *)
Definition stream_named_parquet (file : string * list (ArrowCsv.InputBatch + string)) : iio unit :=
  map_error (name_parquet file.1) (stream_parquet_csv file.2).

(** Each file of several through its own connection. *)
(* code: import/parquet.rs 878-900 stream_parquet_files_as_csv *)
Definition stream_parquet_files_as_csv (worlds : nat → World) (x : X)
    (clients : list HttpTransportClient)
    (files : list (string * list (ArrowCsv.InputBatch + string)))
    : list (task_end unit) + ImportError :=
  stream_in_parallel worlds x clients files stream_named_parquet.

(** What is left to do, as one action. *)
Fixpoint send_buffers (q : list (list byte)) (rest : iio unit) : iio unit :=
  match q with
  | [] => rest
  | buffer :: q => _ ← send_buffer buffer; send_buffers q rest
  end.

Definition left_to_do (s : producer_state) : iio unit :=
  match s with
  | Rendering todo => stream_batches todo
  | Sending buffer todo => _ ← send_buffer buffer; stream_batches todo
  | ProducerDone e => finish_stream e
  end.

(** The pipe ends as the sequential stream does from the start [s0]. *)
Definition on_course (reader : list (ArrowCsv.InputBatch + string))
    (s0 : World * (HttpTransportClient * X)) (p : Pipe) : Prop :=
  (length (queue p) ≤ RENDERED_BATCH_QUEUE)%nat ∧
  match over p with
  | None => send_buffers (queue p) (left_to_do (producer p)) (at_tunnel p) = stream_batches reader s0
  | Some (StreamOver r) => (r, at_tunnel p) = stream_batches reader s0
  | Some StreamDropped => True
  end.

Lemma bind_ext {A B} (m : iio A) (k k' : A → iio B) :
  (∀ a s, k a s = k' a s) → ∀ s, (m ≫= k) s = (m ≫= k') s.
Proof. intros Hk s. unfold mbind, action_bind. by destruct (m s) as [[a|e|] s1]. Qed.

Lemma send_buffers_ext q rest rest' :
  (∀ s, rest s = rest' s) → ∀ s, send_buffers q rest s = send_buffers q rest' s.
Proof.
  intros Hr. induction q as [|b q IH]; intros s; cbn [send_buffers]; [done|].
  by apply bind_ext.
Qed.

Lemma send_buffers_snoc q buffer rest s :
  send_buffers (q ++ [buffer]) rest s = send_buffers q (_ ← send_buffer buffer; rest) s.
Proof.
  revert s. induction q as [|b q IH]; intros s; cbn [app send_buffers]; [done|]. by apply bind_ext.
Qed.

Lemma step_on_course reader s0 ev p p' :
  on_course reader s0 p → pipe_step ev p = Some p' → on_course reader s0 p'.
Proof.
  intros [Hq Hp]. destruct ev; cbn [pipe_step].
  - destruct (producer p) as [todo| |] eqn:Hpr; [|done..].
    assert (∀ s, left_to_do (match todo with
      | [] => ProducerDone (Returned (inl ()))
      | batch :: todo => match render_batch o batch with
                         | Ok buffer => Sending buffer todo
                         | Err e => ProducerDone (Returned (inr e))
                         | Panic => ProducerDone (JoinFailed false (join_error 0 false))
                         end
      end) s = stream_batches todo s) as Hsame.
    { intros s. destruct todo as [|b todo]; [done|]. cbn [stream_batches].
      by destruct (render_batch o b). }
    intros Hstep. assert (over p' = over p ∧ at_tunnel p' = at_tunnel p ∧ queue p' = queue p ∧
      ∀ s, left_to_do (producer p') s = stream_batches todo s) as (Ho & Ha & Hq' & Hl).
    { destruct todo; injection Hstep as <-; split_and!; done. }
    split; [by rewrite Hq'|]. rewrite Ho, Ha, Hq'. destruct (over p) as [[]|]; [done..|].
    rewrite <- Hp. by apply send_buffers_ext.
  - destruct (producer p) as [|buffer todo|] eqn:Hpr; [done| |done].
    destruct (over p) as [e|] eqn:Ho.
    + intros [= <-]. split; cbn; [done|]. by rewrite Ho.
    + destruct (Nat.ltb_spec (length (queue p)) RENDERED_BATCH_QUEUE) as [Hlt|]; [|done].
      intros [= <-]. split; cbn; [rewrite length_app; cbn; lia|]. rewrite Ho.
      by rewrite send_buffers_snoc.
  - destruct (queue p) as [|buffer q] eqn:Hqu; [done|]. destruct (over p) eqn:Ho; [done|].
    cbn [send_buffers] in Hp. unfold mbind, action_bind in Hp. cbn in Hq.
    destruct (send_buffer buffer (at_tunnel p)) as [[u|e|] s]; intros [= <-];
      (split; cbn; [lia|done]).
  - destruct (queue p) eqn:Hqu; [|done]. destruct (producer p) as [| |e] eqn:Hpr; [done..|].
    destruct (over p) eqn:Ho; [done|]. cbn [send_buffers left_to_do] in Hp.
    destruct (finish_stream e (at_tunnel p)) as [r s]. intros [= <-]. by split.
  - destruct (over p) eqn:Ho; [done|]. intros [= <-]. split; cbn; [lia|done].
Qed.

Lemma pipe_on_course reader s p : rtc pipe_next (pipe_start reader s) p → on_course reader s p.
Proof.
  intros Hr. assert (on_course reader s (pipe_start reader s)) as Hstart by (split; cbn; [lia|done]).
  revert Hstart. induction Hr as [|p1 p2 p3 [ev Hev] _ IH]; [done|].
  intros Hp1. by eapply IH, step_on_course.
Qed.

(** ** The end of a stream *)
Definition producer_weight (s : producer_state) : nat :=
  match s with
  | Rendering todo => 3 * length todo + 1
  | Sending _ todo => 3 * length todo + 3
  | ProducerDone _ => 0
  end.

Definition pipe_weight (p : Pipe) : nat :=
  (producer_weight (producer p) + length (queue p) + if over p then 0 else 1)%nat.

Lemma pipe_step_weight ev p p' : pipe_step ev p = Some p' → (pipe_weight p' < pipe_weight p)%nat.
Proof.
  unfold pipe_weight. destruct ev; cbn [pipe_step].
  - destruct (producer p) as [[|b todo]| |] eqn:Hp; try done; intros [= <-]; cbn; [lia|].
    destruct (render_batch o b); cbn; lia.
  - destruct (producer p) as [|buffer todo|] eqn:Hp; try done.
    destruct (over p) eqn:Ho; [intros [= <-]; cbn; rewrite Ho; lia|].
    destruct (_ <? _)%nat; [|done]. intros [= <-]. cbn. rewrite Ho, length_app. cbn. lia.
  - destruct (queue p); [done|]. destruct (over p) eqn:Ho; [done|].
    destruct (send_buffer _ _) as [[u|e|] s]; intros [= <-]; cbn; lia.
  - destruct (queue p); [|done]. destruct (producer p) eqn:Hp; try done.
    destruct (over p) eqn:Ho; [done|]. destruct (finish_stream _ _). intros [= <-]. cbn.
    rewrite Hp. cbn. lia.
  - destruct (over p) eqn:Ho; [done|]. intros [= <-]. cbn. lia.
Qed.

Lemma pipe_steps_weight k p p' : nsteps pipe_next k p p' → (k + pipe_weight p' ≤ pipe_weight p)%nat.
Proof. induction 1 as [|k p1 p2 p3 [ev Hev%pipe_step_weight] _ IH]; lia. Qed.

(** C30: A file streamed as CSV never gets stuck between its producer and its tunnel: at most
    two rendered batches wait in the queue, a run is at most [3 n + 2] events long for [n]
    batches, and unless the stream is over and the producer done, one of the two can go on -
    also the producer behind a stream that failed or was dropped, which then ends instead of
    waiting for room forever. *)
Theorem parquet_stream_ends reader s p :
  rtc pipe_next (pipe_start reader s) p →
  (length (queue p) ≤ 2)%nat ∧
  (∀ k p', nsteps pipe_next k (pipe_start reader s) p' → k ≤ 3 * length reader + 2)%nat ∧
  ((over p ≠ None ∧ ∃ e, producer p = ProducerDone e) ∨
   ∃ ev p', ev ≠ DropStream ∧ pipe_step ev p = Some p').
Proof.
  intros Hr. destruct (pipe_on_course _ _ _ Hr) as [Hq _]. split; [exact Hq|]. split.
  { intros k p' Hk%pipe_steps_weight. unfold pipe_weight in Hk. cbn in Hk. lia. }
  destruct (producer p) as [todo|buffer todo|e] eqn:Hp.
  - right. exists RenderBatch. cbn [pipe_step]. rewrite Hp. destruct todo; by eexists.
  - right. destruct (over p) eqn:Ho.
    { exists SendBuffer. cbn [pipe_step]. rewrite Hp, Ho. by eexists. }
    destruct (Nat.ltb_spec (length (queue p)) RENDERED_BATCH_QUEUE) as [Hlt|Hge].
    { exists SendBuffer. cbn [pipe_step]. rewrite Hp, Ho.
      destruct (Nat.ltb_spec (length (queue p)) RENDERED_BATCH_QUEUE); [by eexists|lia]. }
    exists TakeBuffer. cbn [pipe_step]. rewrite Ho.
    destruct (queue p); [cbn in Hge; unfold RENDERED_BATCH_QUEUE in Hge; lia|].
    destruct (send_buffer _ _) as [[u|e|] s']; by eexists.
  - destruct (over p) as [e'|] eqn:Ho; [left; split; [done|by exists e]|right].
    destruct (queue p) as [|b q] eqn:Hqu.
    + exists FinishStream. cbn [pipe_step]. rewrite Hqu, Hp, Ho.
      destruct (finish_stream _ _). by eexists.
    + exists TakeBuffer. cbn [pipe_step]. rewrite Hqu, Ho.
      destruct (send_buffer _ _) as [[u|e'|] s']; by eexists.
Qed.

(** ** What a stream sends *)
(** The buffers before the first batch that fails, and how the rendering ends. *)
Fixpoint rendered (todo : list (ArrowCsv.InputBatch + string))
    : list (list byte) * outcome ImportError unit :=
  match todo with
  | [] => ([], Ok ())
  | batch :: todo =>
    match render_batch o batch with
    | Ok buffer => let '(buffers, e) := rendered todo in (buffer :: buffers, e)
    | Err e => ([], Err e)
    | Panic => ([], Err (StreamError ("Stream task panicked: " +:+ join_error 0 false)))
    end
  end.

Definition buffer_pieces (buffers : list (list byte)) : list (list byte) :=
  concat (chunks (Z.to_nat CHUNK_SIZE) <$> buffers).

Definition csv_body (reader : list (ArrowCsv.InputBatch + string)) : list byte :=
  let '(buffers, e) := rendered reader in
  concat (body_piece <$> buffer_pieces buffers) ++
  match e with Ok _ => encode_chunk [] | _ => [] end.

Lemma rendered_csv reader :
  match parquet_csv o reader with
  | Ok data => (rendered reader).2 = Ok () ∧ concat (rendered reader).1 = data
  | Err e => (rendered reader).2 = Err e
  | Panic => ∃ text, (rendered reader).2 = Err (StreamError text)
  end.
Proof.
  unfold parquet_csv.
  assert (∀ acc, match render_parquet_csv o (λ b s, (Ok (), s ++ b)) reader acc with
                 | (Ok _, data) => (rendered reader).2 = Ok () ∧ acc ++ concat (rendered reader).1 = data
                 | (Err e, _) => (rendered reader).2 = Err e
                 | (Panic, _) => ∃ text, (rendered reader).2 = Err (StreamError text)
                 end) as Hgen.
  { induction reader as [|b reader IH]; intros acc; cbn [render_parquet_csv rendered].
    { split; [done|]. apply app_nil_r. }
    unfold mbind, action_bind, pure_call.
    destruct (render_batch o b) as [buffer|e|]; [|done|by eexists].
    specialize (IH (acc ++ buffer)). destruct (rendered reader) as [buffers e]. cbn [fst snd concat] in *.
    by rewrite app_assoc. }
  specialize (Hgen []). by destruct (render_parquet_csv _ _ _ _) as [[u|e|] data].
Qed.

Section Sent.
Context `{Consumer}.
Context (c : HttpTransportClient) (io : TunnelIo) (x : X).
Context (Hrep : ∀ z, representable z = true) (Hwrite : pure_write).

Lemma stream_batches_end reader k :
  ends (stream_batches reader) (on c io k, x) (map_err ImportFailed (rendered reader).2)
    (on c io (put k (csv_body reader)), x).
Proof.
  revert k. induction reader as [|b reader IH]; intros k; cbn [stream_batches rendered].
  { unfold csv_body. cbn. by apply (final_chunk_ends c io x Hrep Hwrite). }
  unfold csv_body. cbn [rendered]. destruct (render_batch o b) as [buffer|e|].
  - specialize (IH (put k (concat (body_piece <$> chunks (Z.to_nat CHUNK_SIZE) buffer)))).
    unfold csv_body in IH. destruct (rendered reader) as [buffers e]. unfold buffer_pieces in *.
    cbn [fmap list_fmap concat snd] in *. rewrite fmap_app, concat_app, <- app_assoc, <- put_put.
    eapply ends_bind; [apply (write_chunks_ends c io x Hrep Hwrite)|exact IH].
  - cbn. rewrite put_nil. intros w Hw. exists w. done.
  - cbn. rewrite put_nil. intros w Hw. exists w. done.
Qed.

Lemma csv_body_whole reader :
  (rendered reader).2 = Ok () → reads_whole (csv_body reader) (concat (rendered reader).1).
Proof.
  unfold csv_body. destruct (rendered reader) as [buffers e]. cbn [fst snd]. intros ->.
  intros k sink rest Hk Hi. assert (0 < Z.to_nat CHUNK_SIZE)%nat as Hpos by (unfold CHUNK_SIZE; lia).
  destruct (import_body_read (buffer_pieces buffers) k sink rest) as (sink' & He & Hd); [|done..|].
  { apply chunk_pieces_fit; [done|]. unfold CHUNK_SIZE. rewrite Z2Nat.id by lia. done. }
  exists sink'. split; [exact He|]. rewrite Hd. f_equal. unfold buffer_pieces.
  clear Hi Hd He. induction buffers as [|b bs IH]; [done|]. cbn [fmap list_fmap concat].
  by rewrite concat_app, IH, concat_chunks.
Qed.

Lemma csv_body_refused reader e : (rendered reader).2 = Err e → refuses (csv_body reader).
Proof.
  unfold csv_body. destruct (rendered reader) as [buffers r]. cbn [snd]. intros -> k sink Hi.
  rewrite app_nil_r in Hi. eapply import_body_cut; [|exact Hi].
  apply chunk_pieces_fit; [unfold CHUNK_SIZE; lia|]. unfold CHUNK_SIZE. rewrite Z2Nat.id by lia. done.
Qed.

(** C29: A Parquet file streamed as CSV: in whatever way its producer and the tunnel
    interleave, the stream ends as it would batch behind batch. Over a connection on which
    Exasol's request stands, a file that converts is sent as one complete body with exactly
    its CSV, which is what the import of its record batches sends; from one that does not,
    the stream returns the error of the first batch or value that failed - or says that
    the task panicked -, and the body it sent has no end, so that it is refused. *)
Theorem parquet_streamed reader rest w0 s1 req p r :
  requested c io rest → cutoff w0 = None →
  transport request_failed handle_import_request (w0, (c, x)) = (Ok req, s1) →
  rtc pipe_next (pipe_start reader s1) p → over p = Some (StreamOver r) →
  (r, at_tunnel p) = stream_parquet_csv reader (w0, (c, x)) ∧
  (∃ w body,
    at_tunnel p = (w, (on c io (put (got (socket_of io) rest)
                                  (build_chunked_response_headers ++ body)), x)) ∧
    match parquet_csv o reader with
    | Ok data => r = Ok () ∧ reads_whole body data
    | Err e => r = Err (ImportFailed e) ∧ refuses body
    | Panic => (∃ text, r = Err (ImportFailed (StreamError text))) ∧ refuses body
    end) ∧
  ∀ bs, reader = inl <$> bs →
    parquet_csv o reader = ArrowCsv.record_batches_to_csv bs (row_options o newline_char).
Proof.
  intros (Hs & path & hs & Hp & Hh & Hin) Hcut Hreq Hrun Hover.
  destruct (pipe_on_course _ _ _ Hrun) as [_ Hcourse]. rewrite Hover in Hcourse.
  split; [unfold stream_parquet_csv; by erewrite run_bind by exact Hreq|].
  split; [|intros bs ->; apply parquet_csv_arrow].
  pose proof (handle_import_ends c io x path hs rest Hrep Hwrite Hs Hp Hh Hin) as Hhandle.
  destruct (transport_ends request_failed _ _ _ _ Hhandle w0 Hcut) as (w1 & Hrun1 & Hw1).
  rewrite Hreq in Hrun1. injection Hrun1 as -> ->.
  destruct (stream_batches_end reader (put (got (socket_of io) rest) build_chunked_response_headers)
    w1 Hw1) as (w2 & Hend & _).
  rewrite Hend in Hcourse. injection Hcourse as -> ->. exists w2, (csv_body reader).
  split; [by rewrite put_put|]. pose proof (rendered_csv reader) as Hcsv.
  destruct (parquet_csv o reader) as [data|e|].
  - destruct Hcsv as [Hok <-]. rewrite Hok. split; [done|]. by apply csv_body_whole.
  - rewrite Hcsv. split; [done|]. by eapply csv_body_refused.
  - destruct Hcsv as [text Herr]. rewrite Herr. split; [by exists text|]. by eapply csv_body_refused.
Qed.
End Sent.
End Pipe.

(** ** What is sent before an import *)
Section Guarded.
Context `{ArrowTypeLib, UnicodeCase, ParquetFiles, Infer.SchemaFiles}.
Context {S : Type} `{!SqlRunner S}.

Lemma list_find_none {A} (P : A → Prop) `{∀ a, Decision (P a)} xs :
  list_find P xs = None → Forall (λ a, ¬ P a) xs.
Proof. by rewrite list_find_None. Qed.

(** What a footer that is accepted for the creation of a table promises. *)
Definition footer_accepted (use_native : bool) (path : string) : Prop :=
  ∃ footer, path_footer path = inl footer ∧
    if use_native : bool then
      Forall (λ f, native_auto_create_accepts (f_data_type f) = true) (footer_fields footer)
    else
      (∃ keys, footer_keys footer = Some keys ∧ ARROW_SCHEMA_META_KEY ∈ keys) ∨
      Forall (λ f, is_interval (f_data_type f) = false) (footer_fields footer).

Lemma check_accepted use_native path u :
  check_auto_create_footer use_native path = Ok u → footer_accepted use_native path.
Proof.
  unfold check_auto_create_footer, check_native_auto_create_footer, check_csv_auto_create_footer.
  unfold read_footer, footer_accepted.
  destruct use_native; destruct (path_footer path) as [footer|e]; try done;
    cbn [mbind outcome_bind]; intros Hc; exists footer; (split; [done|]); revert Hc.
  - unfold check_native_auto_create_types.
    destruct (list_find _ _) as [[i f]|] eqn:Hf; [done|]. intros _.
    apply list_find_none in Hf. eapply Forall_impl; [exact Hf|]. intros f'. cbn.
    by destruct (native_auto_create_accepts _).
  - unfold check_intervals_keep_month_part. destruct (footer_keys footer) as [keys|].
    + destruct (bool_decide_reflect (ARROW_SCHEMA_META_KEY ∈ keys)) as [Hin|Hn].
      { intros _. left. by exists keys. }
      destruct (list_find _ _) as [[i f]|] eqn:Hf; [done|]. intros _. right.
      apply list_find_none in Hf. eapply Forall_impl; [exact Hf|]. intros f'. cbn.
      by destruct (is_interval _).
    + destruct (list_find _ _) as [[i f]|] eqn:Hf; [done|]. intros _. right.
      apply list_find_none in Hf. eapply Forall_impl; [exact Hf|]. intros f'. cbn.
      by destruct (is_interval _).
Qed.

Lemma mapM_each {A B} (f : A → outcome ImportError B) xs ys :
  mapM f xs = Ok ys → Forall (λ x, ∃ y, f x = Ok y) xs.
Proof.
  revert ys. induction xs as [|x xs IH]; intros ys; cbn; [constructor|].
  destruct (f x) as [y|e|] eqn:Hx; [|done..]. cbn.
  destruct (mapM f xs) as [ys'|e|]; [|done..]. intros _. constructor; [by exists y|by eapply IH].
Qed.

(** Before it connects, an import of one or of several Parquet files sends nothing but the
    CREATE TABLE of the schema inferred from them, and that only if it is to create the table
    and the footer of every file was read and accepted: on the native path no column of a
    type that it cannot load, on the CSV path no interval that would lose its months. A
    table that exists already is no error, and behind any other failure of the statement no
    file is opened. *)
Theorem created_when_accepted table paths o use_native s :
  let r := plan_parquet_files table paths o use_native s in
  (2 ≤ length paths)%nat →
  (r.2 = s ∨
   create_table_if_not_exists o = true ∧ Forall (footer_accepted use_native) paths ∧
   ∃ inferred, Infer.infer_schema_from_parquet_files paths (column_name_mode o) = Ok inferred ∧
     r.2 = (run_sql (Infer.to_ddl inferred table (schema o)) s).2 ∧
     (∀ e, (run_sql (Infer.to_ddl inferred table (schema o)) s).1 = Err e →
        contains_str DDL_ALREADY_EXISTS_MARKER (to_lowercase e) = false → r.1 = Err (SqlError e))) ∧
  (create_table_if_not_exists o = false → r.2 = s).
Proof.
  intros r Hl. subst r. unfold plan_parquet_files, into_sources, paths_sources.
  destruct paths as [|p1 [|p2 ps]]; cbn in Hl; [lia..|]. clear Hl. set (paths := p1 :: p2 :: ps).
  assert (∀ s, (if use_native then mret (ServeFiles paths)
                else files ← pure_call (open_parquet_csv_files paths o);
                     mret (if forallb (λ '(_, source), row_count source =? 0) files then NoRowsInAny
                           else ServeFilesCsv (prod_map id batches <$> files))
                : action ImportError S parquet_files_plan) s =
               (((if use_native then mret (ServeFiles paths)
                else files ← pure_call (open_parquet_csv_files paths o);
                     mret (if forallb (λ '(_, source), row_count source =? 0) files then NoRowsInAny
                           else ServeFilesCsv (prod_map id batches <$> files))
                : action ImportError S parquet_files_plan) s).1, s)) as Hopen.
  { intros s'. destruct use_native; [done|]. unfold mbind, action_bind, pure_call.
    by destruct (open_parquet_csv_files paths o). }
  destruct (create_table_if_not_exists o); [|split; [left|intros _]; rewrite Hopen; done].
  split; [|done]. unfold mbind, action_bind, pure_call.
  destruct (Infer.infer_schema_from_parquet_files paths _) as [inferred|e|]; [|by left..].
  destruct (mapM (check_auto_create_footer use_native) paths) as [us|e|] eqn:Hchecks; [|by left..].
  right. split; [done|]. split.
  { apply mapM_each in Hchecks. eapply Forall_impl; [exact Hchecks|]. intros p [u Hu].
    by eapply check_accepted. }
  exists inferred. split; [done|]. unfold create_table_from_ddl.
  destruct (run_sql _ s) as [[n|e|] s']; cbn [fst snd].
  - unfold mbind, action_bind, pure_call in Hopen. rewrite Hopen. by split.
  - destruct (contains_str _ _) eqn:He.
    + unfold mbind, action_bind, pure_call in Hopen. rewrite Hopen. split; [done|].
      intros e' [= <-]. congruence.
    + split; [done|]. by intros e' [= <-].
  - by split.
Qed.
End Guarded.

(** ** At concrete inputs *)
#[local] Existing Instances ArrowRows.key_types DateTime.calendar_chrono StatementSafety.hex_text.
#[local] Existing Instances TunnelWitness.unbounded_clock TunnelWitness.ascii_only
  TunnelWitness.calm TunnelWitness.easy_tls TunnelWitness.one_certificate TunnelWitness.no_digest
  TunnelWitness.prompt TunnelWitness.plain_join_errors.

Definition two_batches : list (ArrowCsv.InputBatch + string) :=
  [inl ArrowRows.quoted_batch; inl ArrowRows.quoted_batch].

(** The first batch is on its way while the second one is rendered. *)
Definition interleaved : list pipe_event :=
  [RenderBatch; SendBuffer; RenderBatch; TakeBuffer; SendBuffer; TakeBuffer; RenderBatch;
   FinishStream].

Definition after_request : World * (HttpTransportClient * unit) :=
  (transport request_failed handle_import_request
     (TunnelWitness.quiet, (TunnelWitness.open_client TunnelWitness.get_request, ()))).2.

Definition streamed : Pipe :=
  let p := pipe_start two_batches after_request in
  default p (pipe_run ParquetImportOptions_default interleaved p).

Lemma parquet_stream_ends_witness :
  (length (queue streamed) ≤ 2)%nat ∧
  ((over streamed ≠ None ∧ ∃ e, producer streamed = ProducerDone e) ∨
   ∃ ev p', ev ≠ DropStream ∧ pipe_step ParquetImportOptions_default ev streamed = Some p').
Proof.
  destruct (parquet_stream_ends ParquetImportOptions_default two_batches after_request streamed)
    as (Hq & _ & Hend).
  - apply (pipe_run_rtc _ interleaved). vm_compute. reflexivity.
  - split; [exact Hq|exact Hend].
Defined.

Lemma parquet_streamed_witness :
  ∃ body data, at_tunnel streamed =
      (fst (at_tunnel streamed),
       (on (TunnelWitness.open_client TunnelWitness.get_request)
          (PlainIo (TunnelWitness.the_socket_with TunnelWitness.get_request))
          (put (TunnelWitness.the_socket_with []) (build_chunked_response_headers ++ body)), ())) ∧
    parquet_csv ParquetImportOptions_default two_batches = Ok data ∧ reads_whole body data.
Proof.
  destruct (parquet_streamed ParquetImportOptions_default
    (TunnelWitness.open_client TunnelWitness.get_request)
    (PlainIo (TunnelWitness.the_socket_with TunnelWitness.get_request)) ()
    (λ _, eq_refl) TunnelWitness.calm_writes two_batches [] TunnelWitness.quiet after_request
    {| method := Get; path := "/001.csv"; headers := headers_of [] |} streamed (Ok ()))
    as (_ & (w & body & Hat & Hbody) & _).
  - split; [by left|]. exists "/001.csv"%string, []. split; [by split|].
    split; [constructor|by rewrite app_nil_r].
  - reflexivity.
  - vm_compute. reflexivity.
  - apply (pipe_run_rtc _ interleaved). vm_compute. reflexivity.
  - vm_compute. reflexivity.
  - destruct (parquet_csv ParquetImportOptions_default two_batches) as [data|e|];
      [|destruct Hbody; discriminate|destruct Hbody as [[? ?] _]; discriminate].
    exists body, data. split; [rewrite Hat; reflexivity|]. split; [reflexivity|apply Hbody].
Defined.
