(* ===== verification/Connection.v ===== *)
(** * Connections

    [adbc/connection.rs]: a connection as its transport, its session and its parameters;
    the operations on it - login, statements, prepared statements, transactions, schemas,
    metadata queries, closing - over the interface that all transports implement. *)
From S2P Require Import Prelude MachineInt RustStr StrText Float64 Json Errors Effect.
From S2P Require Import ExasolTypes ResultParser Messages Lifecycle Session ArrayBuilders.
From S2P Require Import ArrowConverter JsonColumns ResultSets.
From S2P Require Statement ConnectionString.

#[local] Open Scope Z_scope.

(** The operations of [TransportProtocol], on a state that holds the transport. *)
Class TransportProtocol `{SerdeJson} (S : Type) := {
  #[export] transport_results :: ResultTransport S;
  transport_connect : ConnectionParams → action stop S unit;
  transport_authenticate : Credentials → action stop S SessionInfo;
  transport_execute : string → action stop S QueryResult;
  transport_prepare : string → action stop S PreparedStatementHandle;
  transport_execute_prepared :
    PreparedStatementHandle → option (list (list json)) → action stop S QueryResult;
  transport_close_prepared : PreparedStatementHandle → action stop S unit;
  transport_set_query_timeout : Z → action stop S unit;
  transport_set_autocommit : bool → action stop S unit;
  transport_set_schema : string → action stop S unit;
  transport_refresh_schema : action stop S (option string);
  transport_close : action stop S unit;
  transport_current_schema : S → option string;
  transport_is_connected : S → bool;
}.

(** [Display] of the errors. *)
(* code: error.rs 27-61 ConnectionError *)
Definition show_connection_error (e : ConnectionError) : string :=
  match e with
  | ConnectionFailed host port message =>
    "Failed to connect to " +:+ host +:+ ":" +:+ show_int port +:+ ": " +:+ message
  | AuthenticationFailed m => "Authentication failed: " +:+ m
  | InvalidParameter parameter message =>
    "Invalid connection parameter '" +:+ parameter +:+ "': " +:+ message
  | ParseError m => "Failed to parse connection string: " +:+ m
  | Timeout timeout_ms => "Connection timeout after " +:+ show_int timeout_ms +:+ "ms"
  | ConnectionClosed => "Connection is closed"
  | ConnectionTlsError m => "TLS error: " +:+ m
  end.

(* code: error.rs 63-105 QueryError *)
Definition show_query_error (e : QueryError) : string :=
  match e with
  | SyntaxError position message =>
    "SQL syntax error at position " +:+ show_count position +:+ ": " +:+ message
  | ExecutionFailed m => "Query execution failed: " +:+ m
  | QueryTimeout timeout_ms => "Query timeout after " +:+ show_int timeout_ms +:+ "ms"
  | InvalidState m => "Invalid query state: " +:+ m
  | ParameterBindingError index message =>
    "Parameter binding error for parameter " +:+ show_count index +:+ ": " +:+ message
  | NoResultSet m => "Result set not available: " +:+ m
  | TransactionError m => "Transaction error: " +:+ m
  | SqlInjectionDetected => "Potential SQL injection detected"
  | StatementClosed => "Prepared statement has been closed"
  | UnexpectedResultSet => "Expected row count but received result set"
  end.

(** ** Timeouts *)
(** A [Duration] is its milliseconds: the code makes no finer ones. *)
(* code: adbc/connection.rs 45-52 secs_ceil *)
Definition secs_ceil (ms : Z) : Z :=
  let secs := ms / 1000 in
  if 0 <? ms mod 1000 then saturating U64 (secs + 1) else secs.

(* code: adbc/connection.rs 69-79 map_execution_error *)
Definition map_execution_error (err : TransportError) (timeout_ms : Z) : QueryError :=
  let message := show_transport_error err in
  let is_query_timeout := (0 <? timeout_ms) &&
    (contains_str "R0001" message
     || contains_str "Query terminated because timeout has been reached" message) in
  if is_query_timeout then QueryTimeout timeout_ms else ExecutionFailed message.

Definition with_query_timeout (t : option Z) (s : Session) : Session :=
  {| s_release_version := s_release_version s;
     s_config := {| max_retries := max_retries (s_config s); auto_commit := auto_commit (s_config s);
                    default_fetch_size := default_fetch_size (s_config s); query_timeout := t |};
     s_state := s_state s; s_query_count := s_query_count s;
     s_in_transaction := s_in_transaction s |}.

Definition seconds_of (t : option Z) : Z := match t with Some ms => secs_ceil ms | None => 0 end.

Section Connection.
Context `{J : SerdeJson, !ColumnText, !Statement.ParameterText, PowI, BuildProfile}.
Context `{TypeJson, ArrowLib, EmptyBatchError, UnicodeCase, !Statement.JsonFloat}.
Context {S : Type} `{TP : !TransportProtocol S}.

(* code: adbc/connection.rs 91-109 Connection *)
Record Connection := {
  transport : S;
  session : Session;
  params : ConnectionString.ConnectionParams;
}.

Abbreviation cio := (action query_stop Connection).

Definition with_transport (s : S) (c : Connection) : Connection :=
  {| transport := s; session := session c; params := params c |}.
Definition with_session (s : Session) (c : Connection) : Connection :=
  {| transport := transport c; session := s; params := params c |}.

(** An operation of the transport with its error as a query error; and with its error as a
    value. *)
Definition on_transport {A} (err : TransportError → QueryError) (m : action stop S A) : cio A := λ c,
  let '(o, s) := map_stop err m (transport c) in (o, with_transport s c).

Definition attempt {A} (m : action stop S A) : cio (A + TransportError) := λ c,
  match m (transport c) with
  | (Ok a, s) => (Ok (inl a), with_transport s c)
  | (Err (Failed e), s) => (Ok (inr e), with_transport s c)
  | (Err Cancelled, s) => (Err QueryCancelled, with_transport s c)
  | (Panic, s) => (Panic, with_transport s c)
  end.

(** An operation of a result set, which shares the transport. *)
Definition on_results {A} (m : action query_stop S A) : cio A := λ c,
  let '(o, s) := m (transport c) in (o, with_transport s c).

(** An operation of the session. *)
Definition on_session (err : ConnectionError → QueryError) (p : proc) : cio unit := λ c,
  let '(o, s) := run p (session c) in (map_err (λ e, QueryFailed (err e)) o, with_session s c).

Definition invalid_state (e : ConnectionError) : QueryError := InvalidState (show_connection_error e).
Definition fail_query {A} (e : QueryError) : cio A := pure_call (Err (QueryFailed e)).
Definition query_result {A} (m : outcome QueryError A) : cio A := pure_call (map_err QueryFailed m).

Definition check_ready : cio unit := on_session invalid_state (validate_ready (Done (Ok ()))).
Definition count_query : cio unit := on_session invalid_state (increment_query_count (Done (Ok ()))).

(** ** Statements *)
(* code: adbc/connection.rs 298-304 Connection::create_statement *)
Definition create_statement (c : Connection) (sql : string) : Statement.Statement :=
  let stmt := Statement.Statement_new sql in
  match ConnectionString.query_timeout (params c) with
  | Some secs => Statement.Statement_set_timeout stmt (Z.min (secs * 1000) (imax U64))
  | None => stmt
  end.

(* code: adbc/connection.rs 326-380 Connection::execute_statement *)
Definition execute_statement (stmt : Statement.Statement) : cio ResultSetInner :=
  _ ← check_ready;
  _ ← count_query;
  final_sql ← query_result (Statement.build_sql stmt);
  c ← get;
  let target_secs := seconds_of (Statement.st_timeout_ms stmt) in
  let applied_secs := seconds_of (query_timeout (s_config (session c))) in
  let needs_reconcile := negb (target_secs =? applied_secs) in
  _ ← (if needs_reconcile then
         on_transport execution_failed (transport_set_query_timeout target_secs)
       else mret ());
  exec_result ← attempt (transport_execute final_sql);
  _ ← (if needs_reconcile then
         modify (λ c, with_session (with_query_timeout (Statement.st_timeout_ms stmt) (session c)) c)
       else mret ());
  match exec_result with
  | inr e => fail_query (map_execution_error e (saturating U64 (target_secs * 1000)))
  | inl result => query_result (from_transport_result result)
  end.

(* code: adbc/connection.rs 398-404 Connection::execute_statement_update *)
Definition execute_statement_update (stmt : Statement.Statement) : cio Z :=
  result_set ← execute_statement stmt;
  query_result (ok_or (NoResultSet "Expected row count, got result set") (row_count result_set)).

(* code: adbc/connection.rs 690-693 Connection::execute *)
Definition execute (sql : string) : cio ResultSetInner :=
  c ← get; execute_statement (create_statement c sql).

(* code: adbc/connection.rs 713-716 Connection::query *)
Definition query (exhausted : action query_stop S (list Batch)) (fuel : nat) (sql : string)
    : cio (list Batch) :=
  result_set ← execute sql;
  on_results (fetch_all exhausted fuel result_set).

(* code: adbc/connection.rs 734-737 Connection::execute_update *)
Definition execute_update (sql : string) : cio Z :=
  c ← get; execute_statement_update (create_statement c sql).

(** ** Prepared statements *)
(* code: adbc/connection.rs 429-448 Connection::prepare *)
Definition prepare (sql : string) : cio Statement.PreparedStatement :=
  _ ← check_ready;
  handle ← on_transport execution_failed (transport_prepare sql);
  query_result (Statement.PreparedStatement_new handle).

(** The parameters of an execution: those bound, or rows of a batch. *)
Definition parameters_data (stmt : Statement.PreparedStatement)
    (rows : option (list (list Statement.SqlParam)))
    : outcome QueryError (option (list (list json))) :=
  match rows with
  | None => Statement.build_parameters_data stmt
  | Some rows => Statement.build_batch_parameters_data stmt rows
  end.

Definition run_prepared (stmt : Statement.PreparedStatement)
    (rows : option (list (list Statement.SqlParam))) : cio QueryResult :=
  params_data ← query_result (parameters_data stmt rows);
  on_transport execution_failed
    (transport_execute_prepared (Statement.p_handle stmt) params_data).

Definition check_open (stmt : Statement.PreparedStatement) : cio unit :=
  if Statement.p_closed stmt then fail_query StatementClosed else mret ().

(** [execute_prepared] and [execute_batch]: they count as queries. *)
Definition execute_for_results (stmt : Statement.PreparedStatement)
    (rows : option (list (list Statement.SqlParam))) : cio ResultSetInner :=
  _ ← check_open stmt;
  _ ← check_ready;
  _ ← count_query;
  result ← run_prepared stmt rows;
  query_result (from_transport_result result).

Definition execute_for_count (stmt : Statement.PreparedStatement)
    (rows : option (list (list Statement.SqlParam))) : cio Z :=
  _ ← check_open stmt;
  _ ← check_ready;
  result ← run_prepared stmt rows;
  match result with
  | QRowCount count => mret count
  | QResultSet _ _ => fail_query UnexpectedResultSet
  end.

(* code: adbc/connection.rs 466-495 Connection::execute_prepared *)
Definition execute_prepared (stmt : Statement.PreparedStatement) : cio ResultSetInner :=
  execute_for_results stmt None.

(* code: adbc/connection.rs 512-541 Connection::execute_prepared_update *)
Definition execute_prepared_update (stmt : Statement.PreparedStatement) : cio Z :=
  execute_for_count stmt None.

(* code: adbc/connection.rs 561-591 Connection::execute_batch_update *)
Definition execute_batch_update (stmt : Statement.PreparedStatement)
    (rows : list (list Statement.SqlParam)) : cio Z := execute_for_count stmt (Some rows).

(* code: adbc/connection.rs 609-639 Connection::execute_batch *)
Definition execute_batch (stmt : Statement.PreparedStatement)
    (rows : list (list Statement.SqlParam)) : cio ResultSetInner := execute_for_results stmt (Some rows).

(** The statement is consumed: whether it was closed is not seen again. *)
(* code: adbc/connection.rs 653-666 Connection::close_prepared *)
Definition close_prepared (stmt : Statement.PreparedStatement) : cio unit :=
  if Statement.p_closed stmt then mret ()
  else on_transport execution_failed (transport_close_prepared (Statement.p_handle stmt)).

(** ** Transactions *)
Definition transaction_failed (e : ConnectionError) : QueryError :=
  TransactionError (show_connection_error e).

(* code: adbc/connection.rs 753-775 Connection::begin_transaction *)
Definition connection_begin : cio unit :=
  _ ← on_session transaction_failed (ensure_can_begin_transaction (Done (Ok ())));
  _ ← on_transport (λ e, TransactionError (show_transport_error e)) (transport_set_autocommit false);
  on_session transaction_failed begin_transaction.

(* code: adbc/connection.rs 812-814 Connection::in_transaction *)
Definition in_transaction (c : Connection) : bool := s_in_transaction (session c).

(* code: adbc/connection.rs 777-790 Connection::commit *)
Definition commit : cio unit :=
  c ← get;
  if negb (in_transaction c) then mret ()
  else
    _ ← execute_update "COMMIT";
    on_session transaction_failed commit_transaction.

(* code: adbc/connection.rs 792-805 Connection::rollback *)
Definition rollback : cio unit :=
  c ← get;
  if negb (in_transaction c) then mret ()
  else
    _ ← execute_update "ROLLBACK";
    on_session transaction_failed rollback_transaction.

(** ** Schemas *)
(* code: adbc/connection.rs 831-833 Connection::current_schema *)
Definition current_schema (c : Connection) : option string := transport_current_schema (transport c).

(* code: adbc/connection.rs 853-865 Connection::set_schema *)
Definition set_schema (schema : string) : cio unit :=
  _ ← check_ready;
  on_transport execution_failed (transport_set_schema schema).

(* code: adbc/connection.rs 874-886 Connection::refresh_current_schema *)
Definition refresh_current_schema : cio (option string) :=
  _ ← check_ready;
  on_transport execution_failed transport_refresh_schema.

(** ** Closing *)
(* code: adbc/connection.rs 1059-1061 Connection::is_closed *)
Definition is_closed (c : Connection) : bool :=
  bool_decide (s_state (session c) = Closed) || negb (transport_is_connected (transport c)).

(** Why an operation of the connection itself ended. *)
Inductive connection_stop := ConnectFailed (e : ConnectionError) | ConnectCancelled.

Definition on_connection {A} (err : TransportError → ConnectionError) (m : action stop S A)
    : action connection_stop S A := λ s,
  match m s with
  | (Ok a, s) => (Ok a, s)
  | (Err (Failed e), s) => (Err (ConnectFailed (err e)), s)
  | (Err Cancelled, s) => (Err ConnectCancelled, s)
  | (Panic, s) => (Panic, s)
  end.

Definition connection_failed (p : ConnectionString.ConnectionParams) (message : string)
    : ConnectionError :=
  ConnectionFailed (ConnectionString.host p) (ConnectionString.port p) message.

(** [close] and [shutdown]: the session first, and then the transport. *)
(* code: adbc/connection.rs 1096-1110 Connection::shutdown *)
Definition shutdown : action connection_stop Connection unit := λ c,
  match run Session.close (session c) with
  | (Ok _, s) =>
    let '(o, t) := on_connection (λ e, connection_failed (params c) (show_transport_error e))
                     transport_close (transport c) in
    (o, with_transport t (with_session s c))
  | (Err e, s) => (Err (ConnectFailed e), with_session s c)
  | (Panic, s) => (Panic, with_session s c)
  end.

(** ** Login *)
(* code: adbc/connection.rs 168-175 Connection::connect_with_transport *)
Definition transport_params (p : ConnectionString.ConnectionParams) : ConnectionParams :=
  {| host := ConnectionString.host p; port := ConnectionString.port p;
     use_tls := ConnectionString.use_tls p;
     validate_server_certificate := ConnectionString.validate_server_certificate p;
     certificate_fingerprint := ConnectionString.certificate_fingerprint p;
     timeout_ms := wrap U64 (ConnectionString.connection_timeout p * 1000) |}.

(* code: adbc/connection.rs 185-187 Connection::connect_with_transport *)
Definition credentials (p : ConnectionString.ConnectionParams) : Credentials :=
  {| username := ConnectionString.username p; password := ConnectionString.password p;
     client_name := ConnectionString.client_name p;
     client_version := ConnectionString.client_version p |}.

(* code: adbc/connection.rs 206-229 Connection::connect_with_transport *)
Definition new_connection (p : ConnectionString.ConnectionParams) (info : SessionInfo) (s : S)
    : Connection :=
  let config := {| max_retries := max_retries SessionConfig_default;
                   auto_commit := auto_commit SessionConfig_default;
                   default_fetch_size := default_fetch_size SessionConfig_default;
                   query_timeout := (λ secs, secs * 1000) <$> ConnectionString.query_timeout p |} in
  {| transport := s; session := Session_new (release_version info) config; params := p |}.

(** The schema of the parameters: if it is refused, the connection is shut down. *)
(* code: adbc/connection.rs 240-263 Connection::connect_with_transport *)
Definition apply_schema (c : Connection) : outcome connection_stop Connection * S :=
  match ConnectionString.schema (params c) with
  | None => (Ok c, transport c)
  | Some schema_name =>
    match set_schema schema_name c with
    | (Ok _, c) => (Ok c, transport c)
    | (Err (QueryFailed query_err), c) =>
      match shutdown c with
      | (Ok _, c') | (Err (ConnectFailed _), c') =>
        (Err (ConnectFailed (connection_failed (params c)
           ("failed to set schema '" +:+ schema_name +:+ "' from the connection parameters: "
            +:+ show_query_error query_err))), transport c')
      | (Err ConnectCancelled, c') => (Err ConnectCancelled, transport c')
      | (Panic, c') => (Panic, transport c')
      end
    | (Err QueryCancelled, c) => (Err ConnectCancelled, transport c)
    | (Panic, c) => (Panic, transport c)
    end
  end.

Definition open_session (p : ConnectionString.ConnectionParams) (info : SessionInfo)
    : action connection_stop S Connection := λ s, apply_schema (new_connection p info s).

(* code: adbc/connection.rs 164-266 Connection::connect_with_transport *)
Definition connect_with_transport (p : ConnectionString.ConnectionParams)
    : action connection_stop S Connection :=
  _ ← on_connection (λ e, connection_failed p (show_transport_error e))
        (transport_connect (transport_params p));
  session_info ← on_connection (λ e, AuthenticationFailed (show_transport_error e))
                   (transport_authenticate (credentials p));
  _ ← match ConnectionString.query_timeout p with
      | Some secs =>
        on_connection (λ e, connection_failed p ("failed to set query timeout: "
                              +:+ show_transport_error e))
          (transport_set_query_timeout (secs_ceil (secs * 1000)))
      | None => mret ()
      end;
  open_session p session_info.

(** ** Metadata queries *)
Definition condition (column value : string) : string := column +:+ " = " +:+ quoted squote value.
Definition conditions (filters : list (string * option string)) : list string :=
  omap (λ '(column, value), condition column <$> value) filters.

(* code: adbc/connection.rs 901-904 Connection::get_catalogs *)
Definition get_catalogs : cio ResultSetInner :=
  execute "SELECT DISTINCT SCHEMA_NAME AS CATALOG_NAME FROM SYS.EXA_ALL_SCHEMAS ORDER BY CATALOG_NAME".

(* code: adbc/connection.rs 919-928 Connection::get_schemas *)
Definition schemas_sql (catalog : option string) : string :=
  match catalog with
  | Some cat => "SELECT SCHEMA_NAME FROM SYS.EXA_ALL_SCHEMAS WHERE "
                +:+ condition "SCHEMA_NAME" cat +:+ " ORDER BY SCHEMA_NAME"
  | None => "SELECT SCHEMA_NAME FROM SYS.EXA_ALL_SCHEMAS ORDER BY SCHEMA_NAME"
  end.

(* code: adbc/connection.rs 919-929 Connection::get_schemas *)
Definition get_schemas (catalog : option string) : cio ResultSetInner := execute (schemas_sql catalog).

(* code: adbc/connection.rs 952-969 Connection::get_tables *)
Definition tables_sql (schema table : option string) : string :=
  "SELECT ROOT_NAME AS TABLE_SCHEMA, OBJECT_NAME AS TABLE_NAME, OBJECT_TYPE AS TABLE_TYPE FROM SYS.EXA_ALL_OBJECTS WHERE "
  +:+ String.concat " AND " ("OBJECT_TYPE IN ('TABLE', 'VIEW')"
        :: conditions [("ROOT_NAME", schema); ("OBJECT_NAME", table)])
  +:+ " ORDER BY ROOT_NAME, OBJECT_NAME".

(** The catalog does not filter. *)
(* code: adbc/connection.rs 946-971 Connection::get_tables *)
Definition get_tables (catalog schema table : option string) : cio ResultSetInner :=
  execute (tables_sql schema table).

(* code: adbc/connection.rs 996-1022 Connection::get_columns *)
Definition columns_sql (catalog schema table column : option string) : string :=
  let where_clause :=
    match conditions [("COLUMN_SCHEMA", catalog); ("COLUMN_SCHEMA", schema);
                      ("COLUMN_TABLE", table); ("COLUMN_NAME", column)] with
    | [] => ""
    | cs => "WHERE " +:+ String.concat " AND " cs
    end in
  "SELECT COLUMN_SCHEMA, COLUMN_TABLE, COLUMN_NAME, COLUMN_TYPE, COLUMN_NUM_PREC, COLUMN_NUM_SCALE, COLUMN_IS_NULLABLE FROM SYS.EXA_ALL_COLUMNS "
  +:+ where_clause +:+ " ORDER BY COLUMN_SCHEMA, COLUMN_TABLE, ORDINAL_POSITION".

(* code: adbc/connection.rs 989-1024 Connection::get_columns *)
Definition get_columns (catalog schema table column : option string) : cio ResultSetInner :=
  execute (columns_sql catalog schema table column).

(** ** Imports *)
(** The statement of an import, on the transport as it is. *)
(* code: adbc/connection.rs 1127-1145 Connection::make_sql_executor *)
Definition sql_executor (sql : string) : action stop S Z := λ s,
  match transport_execute sql s with
  | (Ok (QRowCount count), s) => (Ok (wrap U64 count), s)
  | (Ok (QResultSet _ _), s) => (Ok 0, s)
  | (Err e, s) => (Err e, s)
  | (Panic, s) => (Panic, s)
  end.

(* code: adbc/connection.rs 1433-1440 Connection::resolve_native_parquet *)
Definition resolve_native_parquet (c : Connection) (native_parquet_override : option bool) : bool :=
  default (session_supports_parquet (session c)) native_parquet_override.
End Connection.

(** The transport that is asked for, with both features on. *)
Inductive TransportKind := NativeTcp | WebSocket.

(* code: adbc/connection.rs 131-161 Connection::from_params *)
Definition choose_transport (native websocket : bool) (requested : option string)
    : outcome ConnectionError TransportKind :=
  let unavailable t := Err (InvalidParameter "transport"
    ("Transport '" +:+ t +:+ "' is not available. Check feature flags.")) in
  match requested with
  | Some t =>
    if native && String.eqb t "native" then Ok NativeTcp
    else if websocket && String.eqb t "websocket" then Ok WebSocket
    else unavailable t
  | None =>
    if native then Ok NativeTcp
    else if websocket then Ok WebSocket
    else Err (InvalidParameter "transport"
                "No transport feature enabled. Enable 'native' or 'websocket'.")
  end.
