(* ===== verification/ConnectionRules.v ===== *)
(** * What a connection keeps in step with its server

    The query timeout that the server enforces is the one that the session recorded, a closed
    session sends nothing, and what a transaction leaves behind. *)
From S2P Require Import Prelude MachineInt RustStr StrText Float64 Json Errors Effect.
From S2P Require Import ExasolTypes ResultParser Messages Lifecycle Session ArrayBuilders.
From S2P Require Import ArrowConverter JsonColumns ResultSets Connection.
From S2P Require Statement ConnectionString.

#[local] Open Scope Z_scope.

(** What a server keeps for a session: the query timeout in seconds and autocommit. A request
    that sets one of them does so, or fails and changes nothing; the others leave both, a
    statement if it is none that alters the session. *)
Class SessionSettings `{SerdeJson} (S : Type) `{TP : !TransportProtocol S} := {
  settings : S → Z * bool;
  alters_session : string → bool;
  commit_alters_nothing : alters_session "COMMIT" = false;
  rollback_alters_nothing : alters_session "ROLLBACK" = false;
  settings_timeout n s :
    match transport_set_query_timeout n s with
    | (Ok _, s') => settings s' = (n, (settings s).2)
    | (Err (Failed _), s') => settings s' = settings s
    | _ => True
    end;
  settings_timeout_only n s : (settings (transport_set_query_timeout n s).2).2 = (settings s).2;
  settings_autocommit b s :
    match transport_set_autocommit b s with
    | (Ok _, s') => settings s' = ((settings s).1, b)
    | (Err (Failed _), s') => settings s' = settings s
    | _ => True
    end;
  settings_execute sql s :
    alters_session sql = false → settings (transport_execute sql s).2 = settings s;
  settings_authenticate k s : settings (transport_authenticate k s).2 = settings s;
  settings_connect p s : settings (transport_connect p s).2 = settings s;
  settings_schema n s : settings (transport_set_schema n s).2 = settings s;
}.

Section Rules.
Context `{J : SerdeJson, !ColumnText, !Statement.ParameterText, PowI, BuildProfile}.
Context `{TypeJson, ArrowLib, EmptyBatchError, UnicodeCase, !Statement.JsonFloat}.
Context {S : Type} `{TP : !TransportProtocol S}.
Abbreviation Conn := (@Connection S).
Implicit Types (c : Conn) (s : S).

(** ** Steps of an operation *)
Lemma check_ready_run c :
  check_ready c = if can_execute (s_state (session c)) then (Ok (), c)
                  else (Err (QueryFailed (InvalidState "Connection is closed")), c).
Proof.
  unfold check_ready, on_session, validate_ready, read. cbn [run].
  destruct c as [t se p]. cbn. by destruct (can_execute (s_state se)).
Qed.

Definition counted c : Conn :=
  with_session (with_count (wrap U64 (s_query_count (session c) + 1)) (session c)) c.

Lemma count_query_run c : count_query c = (Ok (), counted c).
Proof. reflexivity. Qed.

(** A connection that cannot execute. *)
Lemma not_ready c : can_execute (s_state (session c)) = false →
  check_ready c = (Err (QueryFailed (InvalidState "Connection is closed")), c).
Proof. intros E. by rewrite check_ready_run, E. Qed.

Lemma bind_err {E X A B} (m : action E X A) (k : A → action E X B) x e x' :
  m x = (Err e, x') → (m ≫= k) x = (Err e, x').
Proof. unfold mbind, action_bind. by intros ->. Qed.

Lemma bind_done {E X A B} (m : action E X A) (k : A → action E X B) x a x' :
  m x = (Ok a, x') → (m ≫= k) x = k a x'.
Proof. unfold mbind, action_bind. by intros ->. Qed.

Lemma execute_as sql c : execute sql c = execute_statement (create_statement c sql) c.
Proof. unfold execute. by rewrite (bind_done get _ c c c eq_refl). Qed.

Lemma execute_update_as sql c :
  execute_update sql c = execute_statement_update (create_statement c sql) c.
Proof. unfold execute_update. by rewrite (bind_done get _ c c c eq_refl). Qed.

(** A connection whose session is closing or closed sends nothing: statements, prepared
    statements, transactions and schema changes fail with the transport and the session as
    they were; and a shutdown closes the session whatever the transport makes of it. *)
Theorem closed_connection_quiet c :
  (∀ o c', shutdown c = (o, c') →
     s_state (session c') = Closed ∧ s_in_transaction (session c') = false) ∧
  (can_execute (s_state (session c)) = false →
   let closed A (m : action query_stop Conn A) :=
     m c = (Err (QueryFailed (InvalidState "Connection is closed")), c) in
   (∀ stmt, closed _ (execute_statement stmt)) ∧ (∀ stmt, closed _ (execute_statement_update stmt)) ∧
   (∀ sql, closed _ (execute sql)) ∧ (∀ sql, closed _ (execute_update sql)) ∧
   (∀ sql, closed _ (prepare sql)) ∧ (∀ name, closed _ (set_schema name)) ∧
   closed _ refresh_current_schema ∧
   (∀ stmt, Statement.p_closed stmt = false →
      closed _ (execute_prepared stmt) ∧ closed _ (execute_prepared_update stmt) ∧
      ∀ rows, closed _ (execute_batch stmt rows) ∧ closed _ (execute_batch_update stmt rows)) ∧
   connection_begin c = (Err (QueryFailed (TransactionError "Connection is closed")), c) ∧
   (in_transaction c = false → commit c = (Ok (), c) ∧ rollback c = (Ok (), c))).
Proof.
  split.
  - intros o c'. unfold shutdown.
    assert (∃ se, run Session.close (session c) = (Ok (), se) ∧ s_state se = Closed ∧
      s_in_transaction se = false) as (se & -> & Hs & Ht).
    { destruct (session c) as [v g st n []]; by eexists. }
    destruct (on_connection _ _ _) as [o' t]. by intros [= <- <-].
  - intros E closed. pose proof (not_ready c E) as Hr.
    assert (∀ stmt, closed _ (execute_statement stmt)) as He by (intros; by apply bind_err).
    assert (∀ stmt, closed _ (execute_statement_update stmt)) as Hu
      by (intros; apply bind_err; apply He).
    assert (∀ stmt rows, Statement.p_closed stmt = false →
      closed _ (execute_for_results stmt rows) ∧ closed _ (execute_for_count stmt rows)) as Hp.
    { intros stmt rows Ho. assert (check_open stmt c = (Ok (), c)) as Hopen
        by (unfold check_open; by rewrite Ho).
      unfold closed, execute_for_results, execute_for_count.
      rewrite !(bind_done _ _ _ _ _ Hopen). split; by apply bind_err. }
    split; [exact He|]. split; [exact Hu|].
    split; [intros sql; unfold closed; rewrite execute_as; apply He|].
    split; [intros sql; unfold closed; rewrite execute_update_as; apply Hu|].
    split; [intros sql; by apply bind_err|]. split; [intros name; by apply bind_err|].
    split; [by apply bind_err|].
    split; [intros stmt Ho; split; [by apply (Hp stmt None)|]; split; [by apply (Hp stmt None)|];
            intros rows; split; by apply (Hp stmt (Some rows))|].
    split.
    + unfold connection_begin. apply bind_err. unfold on_session, ensure_can_begin_transaction,
        validate_ready, read. cbn [run]. destruct c as [t se p]. cbn in *. by rewrite E.
    + unfold commit, rollback. intros Ht. by split; unfold mbind, action_bind, get; rewrite Ht.
Qed.

(** ** Timeouts *)
Context `{SS : !SessionSettings S}.

Definition timeout_inv c : Prop :=
  (settings (transport c)).1 = seconds_of (query_timeout (s_config (session c))).

Definition applied c : Z := seconds_of (query_timeout (s_config (session c))).

(** The state in which a statement is executed. *)
Inductive executes_at (stmt : Statement.Statement) c (sql : string) : Conn → Prop :=
| same_timeout :
    seconds_of (Statement.st_timeout_ms stmt) = applied c → executes_at stmt c sql (counted c)
| new_timeout s :
    seconds_of (Statement.st_timeout_ms stmt) ≠ applied c →
    transport_set_query_timeout (seconds_of (Statement.st_timeout_ms stmt)) (transport c) = (Ok (), s) →
    executes_at stmt c sql (with_transport s (counted c)).

(** What the connection is after the execution. *)
Definition recorded (stmt : Statement.Statement) c (s : S) : Conn :=
  if seconds_of (Statement.st_timeout_ms stmt) =? applied c then with_transport s (counted c)
  else with_session (with_query_timeout (Statement.st_timeout_ms stmt) (session (counted c)))
         (with_transport s (counted c)).

(** A statement of a ready connection: its timeout is applied, or nothing is executed; and
    then it is executed. *)
Lemma execute_statement_run stmt c sql :
  can_execute (s_state (session c)) = true → Statement.build_sql stmt = Ok sql →
  let target := seconds_of (Statement.st_timeout_ms stmt) in
  (target ≠ applied c ∧ ∃ r s,
     transport_set_query_timeout target (transport c) = (r, s) ∧ r ≠ Ok () ∧
     execute_statement stmt c
     = (match r with
        | Ok _ => Panic
        | Err (Failed e) => Err (QueryFailed (execution_failed e))
        | Err Cancelled => Err QueryCancelled
        | Panic => Panic
        end, with_transport s (counted c))) ∨
  (∃ c1, executes_at stmt c sql c1 ∧
     execute_statement stmt c
     = match transport_execute sql (transport c1) with
       | (Ok r, s) => (map_err QueryFailed (from_transport_result r), recorded stmt c s)
       | (Err (Failed e), s) =>
         (Err (QueryFailed (map_execution_error e (saturating U64 (target * 1000)))), recorded stmt c s)
       | (Err Cancelled, s) => (Err QueryCancelled, with_transport s (counted c))
       | (Panic, s) => (Panic, with_transport s (counted c))
       end).
Proof.
  intros Hr Hsql target. unfold execute_statement.
  assert (check_ready c = (Ok (), c)) as Hready by (by rewrite check_ready_run, Hr).
  rewrite (bind_done _ _ _ _ _ Hready), (bind_done _ _ _ _ _ (count_query_run c)).
  rewrite Hsql.
  rewrite (bind_done (query_result (Ok sql)) _ (counted c) sql (counted c) eq_refl).
  rewrite (bind_done get _ (counted c) (counted c) (counted c) eq_refl). cbn zeta. fold target.
  change (seconds_of (query_timeout (s_config (session (counted c))))) with (applied c).
  destruct (Z.eqb_spec target (applied c)) as [Ht|Ht]; cbn [negb].
  - right. exists (counted c). split; [by constructor|].
    rewrite (bind_done (mret ()) _ (counted c) () (counted c) eq_refl).
    unfold recorded. fold target. rewrite (proj2 (Z.eqb_eq _ _)) by done.
    unfold mbind, action_bind, attempt.
    by destruct (transport_execute sql (transport (counted c))) as [[r|[e|]|] s].
  - destruct (transport_set_query_timeout target (transport c)) as [r s] eqn:Es.
    assert (on_transport execution_failed (transport_set_query_timeout target) (counted c)
      = (match r with
         | Ok a => Ok a
         | Err (Failed e) => Err (QueryFailed (execution_failed e))
         | Err Cancelled => Err QueryCancelled
         | Panic => Panic
         end, with_transport s (counted c))) as Hset.
    { unfold on_transport, map_stop. change (transport (counted c)) with (transport c).
      rewrite Es. by destruct r as [|[]|]. }
    destruct r as [[]|r|].
    + right. exists (with_transport s (counted c)). split; [by constructor|].
      rewrite (bind_done _ _ _ _ _ Hset).
      unfold recorded. fold target. rewrite (proj2 (Z.eqb_neq _ _)) by done.
      unfold mbind, action_bind, attempt.
      by destruct (transport_execute sql (transport (with_transport s (counted c)))) as [[r|[e|]|] s'].
    + left. split; [done|]. exists (Err r), s. split; [done|]. split; [done|].
      unfold mbind at 1, action_bind at 1. rewrite Hset. by destruct r.
    + left. split; [done|]. exists Panic, s. split; [done|]. split; [done|].
      unfold mbind at 1, action_bind at 1. by rewrite Hset.
Qed.
Lemma recorded_inv stmt c c1 sql :
  timeout_inv c → executes_at stmt c sql c1 → alters_session sql = false →
  (settings (transport c1)).1 = seconds_of (Statement.st_timeout_ms stmt) ∧
  ∀ s, settings s = settings (transport c1) → timeout_inv (recorded stmt c s).
Proof.
  intros Hinv He Hsql. destruct He as [Ht|s Ht Hs].
  - split; [by rewrite Ht|]. intros s E. unfold recorded, timeout_inv.
    rewrite (proj2 (Z.eqb_eq _ _)) by done. unfold with_transport; cbn [transport session]. rewrite E. exact Hinv.
  - pose proof (settings_timeout (seconds_of (Statement.st_timeout_ms stmt)) (transport c)) as Hset.
    rewrite Hs in Hset. split; [cbn; by rewrite Hset|]. intros s' E. unfold recorded, timeout_inv.
    rewrite (proj2 (Z.eqb_neq _ _)) by done. unfold with_session, with_transport; cbn [transport session]. rewrite E. cbn. by rewrite Hset.
Qed.

Lemma on_connection_state {A} err (m : action stop S A) s : (on_connection err m s).2 = (m s).2.
Proof. unfold on_connection. by destruct (m s) as [[a|[e|]|] s']. Qed.

Lemma connected_timeout p s c s' :
  connect_with_transport p s = (Ok c, s') → (settings s).1 = 0 → timeout_inv c.
Proof.
  unfold connect_with_transport. intros Hc Hs.
  unfold mbind at 1, action_bind at 1 in Hc.
  pose proof (on_connection_state (λ e, connection_failed p (show_transport_error e))
    (transport_connect (transport_params p)) s) as E1.
  destruct (on_connection _ (transport_connect _) s) as [[[]|?|] s1]; [|done..].
  unfold mbind at 1, action_bind at 1 in Hc.
  pose proof (on_connection_state (λ e, AuthenticationFailed (show_transport_error e))
    (transport_authenticate (credentials p)) s1) as E2.
  destruct (on_connection _ (transport_authenticate _) s1) as [[info|?|] s2]; [|done..].
  cbn [snd] in E1, E2. assert (settings s2 = settings s) as E.
  { by rewrite E2, settings_authenticate, E1, settings_connect. }
  assert (∃ s3, open_session p info s3 = (Ok c, s') ∧
    (settings s3).1 = seconds_of ((λ secs, secs * 1000) <$> ConnectionString.query_timeout p))
    as (s3 & Ho & Hset).
  { unfold mbind at 1, action_bind at 1 in Hc.
    destruct (ConnectionString.query_timeout p) as [secs|]; [|exists s2; split; [exact Hc|by rewrite E]].
    unfold on_connection in Hc. pose proof (settings_timeout (secs_ceil (secs * 1000)) s2) as Ht.
    destruct (transport_set_query_timeout _ s2) as [[[]|[e|]|] s3]; [|done..].
    exists s3. split; [exact Hc|by rewrite Ht]. }
  unfold open_session, apply_schema in Ho. cbn [new_connection params] in Ho.
  destruct (ConnectionString.schema p) as [name|]; [|injection Ho as <- _; exact Hset].
  destruct (set_schema name (new_connection p info s3)) as [o c'] eqn:Es.
  assert (settings (transport c') = settings s3 ∧ s_config (session c') = s_config (session (new_connection p info s3)))
    as [Ek Ec].
  { revert Es. unfold set_schema. unfold mbind, action_bind. rewrite check_ready_run.
    cbn [new_connection session Session_new s_state can_execute]. unfold on_transport, map_stop.
    cbn [transport new_connection]. pose proof (settings_schema name s3) as Hk.
    destruct (transport_set_schema name s3) as [[u|[e|]|] s4]; intros [= <- <-]; by split. }
  destruct o as [u|[q|]|]; [|destruct (shutdown c') as [[u|[e|]|] c'']; done|done..].
  injection Ho as <- _. unfold timeout_inv. rewrite Ek, Ec. exact Hset.
Qed.

Lemma recorded_applied stmt c s :
  applied (recorded stmt c s) = seconds_of (Statement.st_timeout_ms stmt).
Proof. unfold recorded. by destruct (Z.eqb_spec (seconds_of (Statement.st_timeout_ms stmt)) (applied c)). Qed.

(** A plain statement of a connection in step with its server. *)
Lemma statement_timeout stmt sql c o c' :
  timeout_inv c → can_execute (s_state (session c)) = true →
  Statement.build_sql stmt = Ok sql → alters_session sql = false →
  execute_statement stmt c = (o, c') →
  let target := seconds_of (Statement.st_timeout_ms stmt) in
  ((∃ c1, executes_at stmt c sql c1 ∧ (settings (transport c1)).1 = target ∧
      transport c' = (transport_execute sql (transport c1)).2 ∧
      (o ≠ Err QueryCancelled → o ≠ Panic → applied c' = target) ∧
      ((transport_execute sql (transport c1)).1 = Err Cancelled → target ≠ applied c →
       o = Err QueryCancelled ∧ ¬ timeout_inv c')) ∨
   transport c' = (transport_set_query_timeout target (transport c)).2) ∧
  (o ≠ Err QueryCancelled → o ≠ Panic → timeout_inv c').
Proof.
  intros Hinv Hr Hsql Hn He target.
  destruct (execute_statement_run stmt c sql Hr Hsql) as [(Ht & r & s & Hs & Hne & E)|(c1 & Hc1 & E)];
    rewrite He in E; fold target in E.
  - fold target in Ht, Hs. pose proof (settings_timeout target (transport c)) as Hset.
    rewrite Hs in Hset |- *. injection E as -> ->. split; [by right|].
    destruct r as [[]|[e|]|]; [done| |done..]. intros _ _. unfold timeout_inv in *. cbn.
    by rewrite Hset.
  - destruct (recorded_inv stmt c c1 sql Hinv Hc1 Hn) as [Hat Hrec]. fold target in Hat.
    pose proof (settings_execute sql (transport c1) Hn) as Hex.
    destruct (transport_execute sql (transport c1)) as [r s] eqn:Et. cbn [snd] in Hex.
    assert (transport c' = s) as Htr.
    { destruct r as [?|[]|]; injection E as _ ->; unfold recorded; try destruct (seconds_of (Statement.st_timeout_ms stmt) =? applied c); reflexivity. }
    split.
    + left. exists c1. rewrite Et. split; [done|]. split; [done|]. split; [done|]. cbn [fst]. split.
      * destruct r as [?|[]|]; injection E as -> ->; try done; intros _ _; apply recorded_applied.
      * intros -> Hd. injection E as -> ->. split; [done|].
        unfold timeout_inv. cbn. rewrite Hex, Hat. exact Hd.
    + destruct r as [?|[]|]; injection E as -> ->; try done; intros _ _; by apply Hrec.
Qed.

(** An execution of a prepared statement sends nothing but itself. *)
Definition prepared_run {A} (m : action query_stop Conn A) stmt rows c : Prop :=
  ∀ data, parameters_data stmt rows = Ok data →
  transport (m c).2 = (transport_execute_prepared (Statement.p_handle stmt) data (transport c)).2 ∧
  applied (m c).2 = applied c.

Lemma run_prepared_run stmt rows c : prepared_run (run_prepared stmt rows) stmt rows c.
Proof.
  intros data Hd. unfold run_prepared. rewrite Hd.
  rewrite (bind_done (query_result (Ok data)) _ c data c eq_refl). unfold on_transport, map_stop.
  by destruct (transport_execute_prepared _ data (transport c)) as [[r|[e|]|] s].
Qed.

Lemma prepared_runs stmt rows c :
  can_execute (s_state (session c)) = true → Statement.p_closed stmt = false →
  prepared_run (execute_for_results stmt rows) stmt rows c ∧
  prepared_run (execute_for_count stmt rows) stmt rows c.
Proof.
  intros Hr Ho. assert (check_open stmt c = (Ok (), c)) as Hopen by (unfold check_open; by rewrite Ho).
  assert (check_ready c = (Ok (), c)) as Hready by (by rewrite check_ready_run, Hr).
  split; intros data Hd; unfold execute_for_results, execute_for_count;
    rewrite (bind_done _ _ _ _ _ Hopen), (bind_done _ _ _ _ _ Hready).
  - rewrite (bind_done _ _ _ _ _ (count_query_run c)).
    pose proof (run_prepared_run stmt rows (counted c) data Hd) as Hrun.
    unfold mbind, action_bind. by destruct (run_prepared stmt rows (counted c)) as [[r|e|] c'].
  - pose proof (run_prepared_run stmt rows c data Hd) as Hrun.
    unfold mbind, action_bind. by destruct (run_prepared stmt rows c) as [[[]|e|] c'].
Qed.

(** C33: query timeouts. A new connection has told the server the timeout of its parameters.
    A plain statement that does not alter the session is executed under its own timeout,
    which the server was told first unless it was the one in force - and not at all if the
    server refuses it -, and this is the timeout that the session records. What the session
    records stays what the server enforces, after success, failure and refusal, but not
    after a cancellation: a statement with another timeout that is cancelled while it runs
    leaves the two apart. An execution of a prepared statement, on the other hand, has no
    timeout of its own: the server is not told one, so that it runs under the timeout that
    the last plain statement left, and it keeps record and server in step if it leaves the
    settings of the session. *)
Theorem timeouts_reconciled :
  (∀ p s c s', connect_with_transport p s = (Ok c, s') → (settings s).1 = 0 → timeout_inv c) ∧
  (∀ stmt sql c o c', timeout_inv c → can_execute (s_state (session c)) = true →
     Statement.build_sql stmt = Ok sql → alters_session sql = false →
     execute_statement stmt c = (o, c') →
     let target := seconds_of (Statement.st_timeout_ms stmt) in
     ((∃ c1, executes_at stmt c sql c1 ∧ (settings (transport c1)).1 = target ∧
         transport c' = (transport_execute sql (transport c1)).2 ∧
         (o ≠ Err QueryCancelled → o ≠ Panic → applied c' = target) ∧
         ((transport_execute sql (transport c1)).1 = Err Cancelled → target ≠ applied c →
          o = Err QueryCancelled ∧ ¬ timeout_inv c')) ∨
      transport c' = (transport_set_query_timeout target (transport c)).2) ∧
     (o ≠ Err QueryCancelled → o ≠ Panic → timeout_inv c')) ∧
  (∀ stmt rows data c c', timeout_inv c → can_execute (s_state (session c)) = true →
     Statement.p_closed stmt = false → parameters_data stmt rows = Ok data →
     c' = (execute_for_results stmt rows c).2 ∨ c' = (execute_for_count stmt rows c).2 →
     transport c' = (transport_execute_prepared (Statement.p_handle stmt) data (transport c)).2 ∧
     (settings (transport c)).1 = applied c ∧ applied c' = applied c ∧
     (settings (transport c') = settings (transport c) → timeout_inv c')).
Proof.
  split; [apply connected_timeout|]. split; [exact statement_timeout|].
  intros stmt rows data c c' Hinv Hr Ho Hd Hc.
  destruct (prepared_runs stmt rows c Hr Ho) as [Hres Hcount].
  assert (transport c' = (transport_execute_prepared (Statement.p_handle stmt) data (transport c)).2 ∧
    applied c' = applied c) as [Ht Ha] by (destruct Hc as [-> | ->]; auto).
  split; [done|]. split; [done|]. split; [done|]. intros E. unfold timeout_inv. rewrite E.
  change (seconds_of (query_timeout (s_config (session c')))) with (applied c'). by rewrite Ha.
Qed.

(** ** Transactions *)
(** The session's part in transactions and the server's. *)
Definition transaction_view c : SessionState * bool * bool :=
  (s_state (session c), s_in_transaction (session c), (settings (transport c)).2).

Lemma recorded_view stmt c s :
  transaction_view (recorded stmt c s)
  = (s_state (session c), s_in_transaction (session c), (settings s).2).
Proof. unfold recorded. by destruct (_ =? _). Qed.

Lemma executed_view stmt sql c : can_execute (s_state (session c)) = true →
  Statement.build_sql stmt = Ok sql → alters_session sql = false →
  transaction_view (execute_statement stmt c).2 = transaction_view c.
Proof.
  intros Hr Hsql Hn.
  destruct (execute_statement_run stmt c sql Hr Hsql) as [(_ & r & s & Hs & _ & ->)|(c1 & Hc1 & ->)].
  - pose proof (settings_timeout_only (seconds_of (Statement.st_timeout_ms stmt)) (transport c)) as Hk.
    rewrite Hs in Hk. unfold transaction_view. cbn in *. by rewrite Hk.
  - assert ((settings (transport c1)).2 = (settings (transport c)).2) as Hk.
    { destruct Hc1 as [_|s _ Hs]; [done|].
      pose proof (settings_timeout_only (seconds_of (Statement.st_timeout_ms stmt)) (transport c)) as Hk.
      by rewrite Hs in Hk. }
    pose proof (settings_execute sql (transport c1) Hn) as He.
    destruct (transport_execute sql (transport c1)) as [[r|[e|]|] s]; cbn [snd] in *;
      rewrite ?recorded_view; unfold transaction_view; cbn; by rewrite He, Hk.
Qed.

Lemma updated_view sql c : can_execute (s_state (session c)) = true →
  Statement.build_sql (create_statement c sql) = Ok sql → alters_session sql = false →
  transaction_view (execute_update sql c).2 = transaction_view c.
Proof.
  intros Hr Hsql Hn. rewrite execute_update_as.
  pose proof (executed_view (create_statement c sql) sql c Hr Hsql Hn) as Hv.
  unfold execute_statement_update, mbind, action_bind.
  by destruct (execute_statement _ c) as [[rs|[e|]|] c'].
Qed.

Lemma plain_sql c sql : Statement.scan_placeholders sql = [] →
  Statement.build_sql (create_statement c sql) = Ok sql.
Proof.
  intros Hs. unfold create_statement, Statement.build_sql.
  destruct (ConnectionString.query_timeout (params c));
    cbn [Statement.Statement_set_timeout Statement.Statement_new Statement.sql]; by rewrite Hs.
Qed.

(** The two ends of a transaction. *)
Definition ended c : Conn :=
  with_session (with_state Ready (with_transaction false (session c))) c.

Lemma end_run sql p c : p = end_transaction → in_transaction c = true →
  can_execute (s_state (session c)) = true →
  Statement.scan_placeholders sql = [] → alters_session sql = false →
  let '(o, c1) := execute_update sql c in
  (execute_update sql ≫= λ _, on_session transaction_failed p) c
  = (match o with Ok _ => Ok () | Err e => Err e | Panic => Panic end,
     match o with Ok _ => ended c1 | _ => c1 end).
Proof.
  intros -> Ht Hr Hp Hn.
  pose proof (updated_view sql c Hr (plain_sql c sql Hp) Hn) as Hv.
  unfold mbind, action_bind. destruct (execute_update sql c) as [[n|e|] c1]; [|done..].
  injection Hv as _ Hin _. unfold in_transaction in Ht. rewrite Ht in Hin.
  destruct c1 as [t [v g st k i] q]. cbn in Hin |- *. by rewrite Hin.
Qed.

(** What the end of a transaction does, whichever statement ends it. *)
Lemma end_law sql (op : action query_stop Conn unit) c :
  in_transaction c = true → can_execute (s_state (session c)) = true →
  Statement.scan_placeholders sql = [] → alters_session sql = false →
  op c = (execute_update sql ≫= λ _, on_session transaction_failed end_transaction) c →
  ((op c).1 = Ok () ↔ ∃ n, (execute_update sql c).1 = Ok n) ∧
  transport (op c).2 = transport (execute_update sql c).2 ∧
  ((op c).1 = Ok () → transaction_view (op c).2 = (Ready, false, (settings (transport c)).2) ∧
     ∀ next, Statement.scan_placeholders next = [] → alters_session next = false →
       let c2 := (execute_update next (op c).2).2 in
       (settings (transport c2)).2 = (settings (transport c)).2 ∧ commit c2 = (Ok (), c2)) ∧
  ((op c).1 ≠ Ok () → transaction_view (op c).2 = transaction_view c).
Proof.
  intros Ht Hr Hp Hn Hop. rewrite Hop.
  pose proof (end_run sql _ c eq_refl Ht Hr Hp Hn) as He.
  pose proof (updated_view sql c Hr (plain_sql c sql Hp) Hn) as Hv.
  destruct (execute_update sql c) as [[n|e|] c1]; rewrite He; cbn [fst snd] in *;
    [|by (split; [split; [done|intros [? ?]; done]|])..].
  split; [by split; [exists n|]|]. split; [done|]. split; [|done]. intros _.
  assert (transaction_view (ended c1) = (Ready, false, (settings (transport c)).2)) as Hended.
  { injection Hv as _ _ Ha. unfold transaction_view. cbn. by rewrite Ha. }
  split; [done|]. intros next Hnp Hna.
  pose proof (updated_view next (ended c1) eq_refl (plain_sql _ next Hnp) Hna) as Hv2.
  rewrite Hended in Hv2. injection Hv2 as _ Hin Ha. split; [done|].
  unfold commit, mbind, action_bind, get, in_transaction. by rewrite Hin.
Qed.

Lemma begin_run c : can_execute (s_state (session c)) = true → in_transaction c = false →
  let '(o, s) := transport_set_autocommit false (transport c) in
  transport (connection_begin c).2 = s ∧
  (o = Ok () → (connection_begin c).1 = Ok () ∧
     transaction_view (connection_begin c).2 = (InTransaction, true, false)) ∧
  (o ≠ Ok () → (connection_begin c).1 ≠ Ok () ∧ session (connection_begin c).2 = session c).
Proof.
  intros Hr Ht. destruct c as [t [v g st n act] p]. unfold in_transaction in Ht. cbn in Hr, Ht. subst act.
  set (c := {| transport := t; session := _; params := p |}).
  assert (on_session transaction_failed (ensure_can_begin_transaction (Done (Ok ()))) c = (Ok (), c)) as Hopen.
  { unfold c, on_session, ensure_can_begin_transaction, validate_ready, read. cbn. by rewrite Hr. }
  pose proof (settings_autocommit false t) as Ha. cbn [transport].
  unfold connection_begin. rewrite (bind_done _ _ _ _ _ Hopen).
  unfold mbind, action_bind, on_transport, map_stop. cbn [c transport].
  destruct (transport_set_autocommit false t) as [[[]|[e|]|] s]; cbn [fst snd];
    [|split; [done|]; split; [done|]; intros _; by split..].
  assert (on_session transaction_failed begin_transaction (with_transport s c)
    = (Ok (), with_session (with_state InTransaction (with_transaction true (session c)))
        (with_transport s c))) as Hbegun.
  { unfold c, on_session, begin_transaction, ensure_can_begin_transaction, validate_ready, read.
    cbn. by rewrite Hr. }
  rewrite Hbegun. split; [done|]. split; [|done]. intros _. split; [done|].
  unfold transaction_view. cbn. by rewrite Ha.
Qed.

Lemma begin_refused c : in_transaction c = true →
  ∃ e, connection_begin c = (Err (QueryFailed (TransactionError e)), c).
Proof.
  destruct c as [t [v g st n act] p]. unfold in_transaction. cbn. intros ->.
  unfold connection_begin, mbind, action_bind, on_session, ensure_can_begin_transaction,
    validate_ready, read. cbn. destruct (can_execute st) eqn:E; cbn; by eexists.
Qed.

(** C34: transactions. A transaction begins only in an open session without one, before any
    request otherwise; it begins when the server has turned autocommit off. Commit and
    rollback send their statement only in a transaction, and end it only if the server
    accepts. They leave autocommit off: what is executed after a commit is again not
    committed by the server, and the next commit sends nothing and reports success. *)
Theorem transaction_lifecycle c :
  (can_execute (s_state (session c)) = true → in_transaction c = false →
   let '(o, s) := transport_set_autocommit false (transport c) in
   transport (connection_begin c).2 = s ∧
   (o = Ok () → (connection_begin c).1 = Ok () ∧
      transaction_view (connection_begin c).2 = (InTransaction, true, false)) ∧
   (o ≠ Ok () → (connection_begin c).1 ≠ Ok () ∧ session (connection_begin c).2 = session c)) ∧
  (in_transaction c = true → ∃ e, connection_begin c = (Err (QueryFailed (TransactionError e)), c)) ∧
  (in_transaction c = false → commit c = (Ok (), c) ∧ rollback c = (Ok (), c)) ∧
  (in_transaction c = true → can_execute (s_state (session c)) = true →
   Forall (λ '(op, sql),
     ((op c).1 = Ok () ↔ ∃ n, (execute_update sql c).1 = Ok n) ∧
     transport (op c).2 = transport (execute_update sql c).2 ∧
     ((op c).1 = Ok () → transaction_view (op c).2 = (Ready, false, (settings (transport c)).2) ∧
        ∀ next, Statement.scan_placeholders next = [] → alters_session next = false →
          let c2 := (execute_update next (op c).2).2 in
          (settings (transport c2)).2 = (settings (transport c)).2 ∧ commit c2 = (Ok (), c2)) ∧
     ((op c).1 ≠ Ok () → transaction_view (op c).2 = transaction_view c))
   [(commit, "COMMIT"); (rollback, "ROLLBACK")]).
Proof.
  split; [|split; [|split]].
  - intros Hr Ht. exact (begin_run c Hr Ht).
  - intros Ht. exact (begin_refused c Ht).
  - intros Ht. unfold commit, rollback. by split; unfold mbind at 1, action_bind at 1, get; rewrite Ht.
  - intros Ht Hr. apply Forall_cons. split; [|apply Forall_cons; split; [|done]].
    + apply (end_law "COMMIT"); [exact Ht|exact Hr|reflexivity|apply commit_alters_nothing|].
      unfold commit. unfold mbind at 1, action_bind at 1, get. by rewrite Ht.
    + apply (end_law "ROLLBACK"); [exact Ht|exact Hr|reflexivity|apply rollback_alters_nothing|].
      unfold rollback. unfold mbind at 1, action_bind at 1, get. by rewrite Ht.
Qed.
End Rules.
