(* ===== verification/ParquetExport.v ===== *)
(** * Parquet export

    [export/parquet.rs]: the fields of CSV rows become typed columns of record batches, and
    these a file. The writer of the parquet crate and the file system are classes. The
    theorems: the batches hold every row once, in order, each field as its column reads it,
    or an error names a row that does not fit; the schema of a source is one the conversion
    supports; and a file exists only when all of it was written. *)
From S2P Require Import Prelude MachineInt RustStr StrText Errors HttpWire Effect Float64.
From S2P Require Import Json ExasolTypes DateTime Interval ResultParser Messages.
From S2P Require Import ArrayBuilders Lifecycle Connection.
From S2P Require ExportQuery Csv CsvExport ArrowExport Conversions Statement.

#[local] Open Scope Z_scope.

(* code: export/parquet.rs 61-83 ParquetExportError *)
Inductive ParquetExportError :=
| ParquetIo (message : string)
| Parquet (message : string)
| ParquetArrow (message : string)
| CsvParse (row : nat) (message : string)
| ParquetSchema (message : string).

(* code: export/parquet.rs 61-83 ParquetExportError *)
Definition show_parquet_error (e : ParquetExportError) : string :=
  match e with
  | ParquetIo m => "IO error: " +:+ m
  | Parquet m => "Parquet error: " +:+ m
  | ParquetArrow m => "Arrow error: " +:+ m
  | CsvParse row m => "CSV parsing error at row " +:+ show_count row +:+ ": " +:+ m
  | ParquetSchema m => "Schema error: " +:+ m
  end.

(** The codecs are those of the parquet crate, with their default levels. *)
(* code: export/parquet.rs 97-124 ParquetCompression *)
Inductive ParquetCompression := NoCompression | Snappy | Gzip | Lz4 | Zstd.

(* code: export/parquet.rs 126-154 ParquetExportOptions *)
Record ParquetExportOptions := {
  batch_size : Z;
  compression : ParquetCompression;
  with_column_names : bool;
  column_separator : string;
  column_delimiter : string;
  null_value : option string;
  host : string;
  port : Z;
  use_tls : bool;
}.

(* code: export/parquet.rs 156-170 ParquetExportOptions::default *)
Definition ParquetExportOptions_default : ParquetExportOptions := {|
  batch_size := 1024; compression := Snappy; with_column_names := true;
  column_separator := ","; column_delimiter := String dquote ""; null_value := None;
  host := ""; port := 0; use_tls := false;
|}.

Section Setters.
Context (o : ParquetExportOptions).

(* code: export/parquet.rs 179-183 ParquetExportOptions::with_batch_size *)
Definition set_batch_size (n : Z) : ParquetExportOptions := {|
  batch_size := n; compression := compression o; with_column_names := with_column_names o;
  column_separator := column_separator o; column_delimiter := column_delimiter o; null_value :=
  null_value o; host := host o; port := port o; use_tls := use_tls o |}.

(* code: export/parquet.rs 185-189 ParquetExportOptions::with_compression *)
Definition set_compression (c : ParquetCompression) : ParquetExportOptions := {|
  batch_size := batch_size o; compression := c; with_column_names := with_column_names o;
  column_separator := column_separator o; column_delimiter := column_delimiter o; null_value :=
  null_value o; host := host o; port := port o; use_tls := use_tls o |}.

(* code: export/parquet.rs 191-195 ParquetExportOptions::with_column_names *)
Definition set_with_column_names (b : bool) : ParquetExportOptions := {|
  batch_size := batch_size o; compression := compression o; with_column_names := b;
  column_separator := column_separator o; column_delimiter := column_delimiter o; null_value :=
  null_value o; host := host o; port := port o; use_tls := use_tls o |}.

(* code: export/parquet.rs 197-201 ParquetExportOptions::with_column_separator *)
Definition set_column_separator (c : string) : ParquetExportOptions := {|
  batch_size := batch_size o; compression := compression o; with_column_names :=
  with_column_names o; column_separator := c; column_delimiter := column_delimiter o; null_value
  := null_value o; host := host o; port := port o; use_tls := use_tls o |}.

(* code: export/parquet.rs 203-207 ParquetExportOptions::with_column_delimiter *)
Definition set_column_delimiter (c : string) : ParquetExportOptions := {|
  batch_size := batch_size o; compression := compression o; with_column_names :=
  with_column_names o; column_separator := column_separator o; column_delimiter := c; null_value
  := null_value o; host := host o; port := port o; use_tls := use_tls o |}.

(* code: export/parquet.rs 209-213 ParquetExportOptions::with_null_value *)
Definition set_null_value (s : string) : ParquetExportOptions := {|
  batch_size := batch_size o; compression := compression o; with_column_names :=
  with_column_names o; column_separator := column_separator o; column_delimiter :=
  column_delimiter o; null_value := Some s; host := host o; port := port o; use_tls := use_tls o
  |}.

(* code: export/parquet.rs 215-222 ParquetExportOptions::exasol_host *)
Definition exasol_host (s : string) : ParquetExportOptions := {|
  batch_size := batch_size o; compression := compression o; with_column_names :=
  with_column_names o; column_separator := column_separator o; column_delimiter :=
  column_delimiter o; null_value := null_value o; host := s; port := port o; use_tls := use_tls
  o |}.

(* code: export/parquet.rs 224-231 ParquetExportOptions::exasol_port *)
Definition exasol_port (p : Z) : ParquetExportOptions := {|
  batch_size := batch_size o; compression := compression o; with_column_names :=
  with_column_names o; column_separator := column_separator o; column_delimiter :=
  column_delimiter o; null_value := null_value o; host := host o; port := p; use_tls := use_tls
  o |}.

(* code: export/parquet.rs 233-238 ParquetExportOptions::use_tls *)
Definition set_use_tls (v : bool) : ParquetExportOptions := {|
  batch_size := batch_size o; compression := compression o; with_column_names :=
  with_column_names o; column_separator := column_separator o; column_delimiter :=
  column_delimiter o; null_value := null_value o; host := host o; port := port o; use_tls := v
  |}.
End Setters.

(** ** Columns *)
Section Columns.
Context `{UnicodeCase, SerdeJson, !ColumnText, ArrowTypeLib, BuildProfile, ArrowExport.BatchChecks}.

(* code: export/parquet.rs 471-477 field_value *)
Definition field_value (field : string) (null_value : option string) : option string :=
  let is_null := match null_value with
                 | Some marker => String.eqb field marker
                 | None => String.eqb field ""
                 end in
  if is_null then None else Some field.

(** The loop of a builder: nulls as they are, and a value by [read] or the error of its row. *)
Definition build_with (read : string → outcome string Cell) (values : list (option string))
    : outcome ParquetExportError (list (option Cell)) :=
  mapM (λ '(row_idx, value),
    match value with
    | None => Ok None
    | Some s => Some <$> map_err (CsvParse row_idx) (read s)
    end) (imap pair values).

Definition at_column (col_idx : nat) (e : string) : string :=
  "at column " +:+ show_count col_idx +:+ ": " +:+ e.
Definition invalid_at (what : string) (col_idx : nat) (s : string) : string :=
  "Invalid " +:+ what +:+ " value at column " +:+ show_count col_idx +:+ ": " +:+ s.

(* code: export/parquet.rs 516-523 build_boolean_array_from_csv *)
Definition read_boolean (col_idx : nat) (s : string) : outcome string Cell :=
  CBoolean <$> ok_or (invalid_at "boolean" col_idx s) (ArrowExport.boolean_of s).

(* code: export/parquet.rs 504-532 build_boolean_array_from_csv *)
Definition build_boolean_array_from_csv (values : list (option string)) (col_idx : nat) :=
  build_with (read_boolean col_idx) values.

(* code: export/parquet.rs 534-549 build_string_array_from_csv *)
Definition build_string_array_from_csv (values : list (option string)) (_col_idx : nat) :=
  build_with (λ s, Ok (CUtf8 s)) values.

(* code: export/parquet.rs 562-565 build_float64_array_from_csv *)
Definition read_float64 (col_idx : nat) (s : string) : outcome string Cell :=
  CFloat64 <$> ok_or (invalid_at "float" col_idx s) (parse_f64 s).

(* code: export/parquet.rs 551-572 build_float64_array_from_csv *)
Definition build_float64_array_from_csv (values : list (option string)) (col_idx : nat) :=
  build_with (read_float64 col_idx) values.

(* code: export/parquet.rs 598-609 parse_decimal_to_i128 *)
Definition read_decimal128 (scale : Z) (col_idx : nat) (s : string) : outcome string Cell :=
  CDecimal128 <$> map_err (at_column col_idx) (parse_decimal_to_i128 s scale).

(* code: export/parquet.rs 574-596 build_decimal128_array_from_csv *)
Definition build_decimal128_array_from_csv (values : list (option string)) (precision scale : Z)
    (col_idx : nat) : outcome ParquetExportError (list (option Cell)) :=
  match precision_scale_error precision scale with
  | Some e => Err (ParquetArrow e)
  | None => build_with (read_decimal128 scale col_idx) values
  end.

(* code: export/parquet.rs 631-641 parse_date_to_days *)
Definition read_date32 (col_idx : nat) (s : string) : outcome string Cell :=
  CDate32 <$> map_err (at_column col_idx) (parse_date_to_days s).

(* code: export/parquet.rs 611-629 build_date32_array_from_csv *)
Definition build_date32_array_from_csv (values : list (option string)) (col_idx : nat) :=
  build_with (read_date32 col_idx) values.

(* code: export/parquet.rs 664-674 parse_timestamp_to_micros *)
Definition read_timestamp (col_idx : nat) (s : string) : outcome string Cell :=
  CTimestamp <$> map_err (at_column col_idx) (parse_timestamp_to_micros s).

(* code: export/parquet.rs 643-662 build_timestamp_array_from_csv *)
Definition build_timestamp_array_from_csv (values : list (option string)) (_tz : option string)
    (col_idx : nat) :=
  build_with (read_timestamp col_idx) values.

(* code: export/parquet.rs 689-693 build_int64_array_from_csv *)
Definition read_int64 (col_idx : nat) (s : string) : outcome string Cell :=
  CInt64 <$> ok_or (invalid_at "integer" col_idx s) (parse_int I64 s).

(* code: export/parquet.rs 676-699 build_int64_array_from_csv *)
Definition build_int64_array_from_csv (values : list (option string)) (col_idx : nat) :=
  build_with (read_int64 col_idx) values.

(** An array with its type: a timestamp array has no time zone, whatever its field says. *)
(* code: export/parquet.rs 479-502 build_array_from_csv_column *)
Definition build_array_from_csv_column (values : list (option string)) (field : Field)
    (col_idx : nat) : outcome ParquetExportError (ArrowType * list (option Cell)) :=
  match f_data_type field with
  | ABoolean => pair ABoolean <$> build_boolean_array_from_csv values col_idx
  | AUtf8 => pair AUtf8 <$> build_string_array_from_csv values col_idx
  | AFloat64 => pair AFloat64 <$> build_float64_array_from_csv values col_idx
  | ADecimal128 precision scale =>
    pair (ADecimal128 precision scale)
      <$> build_decimal128_array_from_csv values precision scale col_idx
  | ADate32 => pair ADate32 <$> build_date32_array_from_csv values col_idx
  | ATimestamp Microsecond tz =>
    pair (ATimestamp Microsecond None) <$> build_timestamp_array_from_csv values tz col_idx
  | AInt64 => pair AInt64 <$> build_int64_array_from_csv values col_idx
  | t => Err (ParquetSchema ("Unsupported data type for Parquet export: " +:+ show_arrow_type t))
  end.

(** ** Batches *)
(** The column of a chunk: [row[col_idx]] panics for a row that is too short. *)
(* code: export/parquet.rs 460-463 chunk_to_record_batch *)
Definition column_values (rows : list (list string)) (null_value : option string) (col_idx : nat)
    : outcome ParquetExportError (list (option string)) :=
  mapM (λ row : list string,
    match row !! col_idx with Some s => Ok (field_value s null_value) | None => Panic end) rows.

(* code: export/parquet.rs 450-469 chunk_to_record_batch *)
Definition chunk_to_record_batch (rows : list (list string)) (fields : list Field)
    (null_value : option string) : outcome ParquetExportError RecordBatch :=
  arrays ← mapM (λ '(col_idx, field),
    values ← column_values rows null_value col_idx;
    build_array_from_csv_column values field col_idx) (imap pair fields);
  ArrowExport.checked_batch ParquetArrow fields arrays.

(** One chunk of at most [n] rows, of which [len] are taken, and the rows behind it. *)
(* code: export/parquet.rs 417-427 rows_to_record_batches *)
Fixpoint take_chunk (n num_columns first_row_of_chunk len : nat)
    (rows : list (outcome ParquetExportError (list string)))
    : outcome ParquetExportError (list (list string) * list (outcome ParquetExportError (list string))) :=
  match n, rows with
  | O, _ | _, [] => Ok ([], rows)
  | S n, row :: rows =>
    row ← row;
    if (length row =? num_columns)%nat then
      '(chunk, rows) ← take_chunk n num_columns first_row_of_chunk (S len) rows;
      Ok (row :: chunk, rows)
    else Err (CsvParse (first_row_of_chunk + len)
                ("Expected " +:+ show_count num_columns +:+ " columns, found " +:+
                 show_count (length row)))
  end.

(* code: export/parquet.rs 432-438 rows_to_record_batches *)
Definition shift_row (first_row_of_chunk : nat) (e : ParquetExportError) : ParquetExportError :=
  match e with CsvParse row message => CsvParse (first_row_of_chunk + row) message | e => e end.

(** The loop over the chunks; [fuel] bounds the chunks, and each takes a row. *)
(* code: export/parquet.rs 415-442 rows_to_record_batches *)
Fixpoint chunk_batches (fuel n : nat) (fields : list Field) (null_value : option string)
    (first_row_of_chunk : nat) (rows : list (outcome ParquetExportError (list string)))
    : outcome ParquetExportError (list RecordBatch) :=
  match fuel with
  | O => Panic
  | S fuel =>
    '(chunk, rows) ← take_chunk n (length fields) first_row_of_chunk 0 rows;
    match chunk with
    | [] => Ok []
    | _ =>
      batch ← map_err (shift_row first_row_of_chunk) (chunk_to_record_batch chunk fields null_value);
      batches ← chunk_batches fuel n fields null_value (first_row_of_chunk + length chunk) rows;
      Ok (batch :: batches)
    end
  end.

(** [RecordBatch::new_empty]. *)
Definition new_empty (fields : list Field) : RecordBatch :=
  {| rb_fields := fields; rb_columns := replicate (length fields) []; rb_rows := 0 |}.

(* code: export/parquet.rs 399-448 rows_to_record_batches *)
Definition rows_to_record_batches (rows : list (outcome ParquetExportError (list string)))
    (fields : list Field) (null_value : option string) (batch_size : Z)
    : outcome ParquetExportError (list RecordBatch) :=
  batches ← chunk_batches (S (length rows)) (Z.to_nat (Z.max batch_size 1)) fields null_value 0 rows;
  Ok (match batches with [] => [new_empty fields] | _ => batches end).

(* code: export/parquet.rs 384-397 csv_parse_error *)
Definition csv_parse_error (e : CsvExport.ExportError) (header_rows : nat) : ParquetExportError :=
  match e with
  | CsvExport.CsvParseError row message => CsvParse (row - header_rows) message
  | other => ParquetArrow (CsvExport.show_export_error other)
  end.

(** What is left of the iterator [csv_rows]: it ends behind an error, and a row takes at
    least a character. *)
Fixpoint remaining_rows (fuel : nat) (separator delimiter : string) (s : Csv.CsvRows)
    : list (outcome CsvExport.ExportError (list string)) :=
  match fuel with
  | O => []
  | S fuel =>
    match Csv.next_row separator delimiter s with
    | (None, _) => []
    | (Some r, s) =>
      map_err (λ row, CsvExport.CsvParseError row "Unclosed quote at end of data") r
      :: remaining_rows fuel separator delimiter s
    end
  end.

(* code: export/parquet.rs 335-382 csv_to_record_batches *)
Definition csv_to_record_batches (csv_data : list byte) (fields : list Field)
    (o : ParquetExportOptions) : outcome ParquetExportError (list RecordBatch) :=
  csv_str ← map_err (λ e, CsvParse 0 ("Invalid UTF-8: " +:+ show_utf8_error e)) (from_utf8 csv_data);
  let header_rows := if with_column_names o then 1%nat else 0%nat in
  let rows := remaining_rows (S (length (chars csv_str))) (column_separator o) (column_delimiter o)
                (Csv.csv_rows csv_str) in
  data_rows ←
    (if with_column_names o then
       match rows with
       | Err e :: _ => Err (csv_parse_error e header_rows)
       | Panic :: _ => Panic
       | _ => Ok (tail rows)
       end
     else Ok rows);
  rows_to_record_batches (map_err (λ e, csv_parse_error e header_rows) <$> data_rows)
    fields (null_value o) (batch_size o).
End Columns.

(** ** Schemas *)
(* code: export/parquet.rs 701-729 exasol_types_to_arrow_schema *)
Definition exasol_types_to_arrow_schema (column_names : list string) (column_types : list ExasolType)
    : outcome ParquetExportError (list Field) :=
  if (length column_names =? length column_types)%nat then
    mapM (λ '(name, t),
      arrow_type ← map_err ParquetSchema (parquet_type_to_arrow t);
      Ok {| f_name := name; f_data_type := arrow_type; f_nullable := true |})
      (zip column_names column_types)
  else Err (ParquetSchema ("Column names count (" +:+ show_count (length column_names) +:+
              ") doesn't match types count (" +:+ show_count (length column_types) +:+ ")")).

(* code: export/parquet.rs 845-873 schema_of_result_columns *)
Definition schema_of_result_columns (columns : list ColumnInfo)
    : outcome CsvExport.ExportError (list Field) :=
  match columns with
  | [] =>
    Err (CsvExport.SqlExecutionError
      "The export source produces no result set; export a table or a SELECT query")
  | _ =>
    types ← mapM (λ column,
      map_err (λ _, CsvExport.SqlExecutionError
        ("Cannot export column " +:+ ci_name column +:+ " of Exasol type " +:+
         dt_type_name (ci_data_type column) +:+ ": no Arrow type maps to it"))
        (exasol_type_of (ci_data_type column))) columns;
    map_err (λ e, CsvExport.SqlExecutionError
      ("Cannot derive the export schema: " +:+ show_parquet_error e))
      (exasol_types_to_arrow_schema (ci_name <$> columns) types)
  end.

(* code: export/parquet.rs 888-899 export_error *)
Definition export_error (e : ParquetExportError) : CsvExport.ExportError :=
  match e with
  | ParquetIo e => CsvExport.ExportIoError e
  | CsvParse row message => CsvExport.CsvParseError row message
  | other => CsvExport.CsvParseError 0 (show_parquet_error other)
  end.

(** ** Files *)
(** The writer of the parquet crate, on the bytes of its file: an error of the file is one
    of the writer. *)
Class ParquetWriterLib := {
  arrow_writer : Type;
  ArrowWriter_try_new : ParquetCompression → list Field → action string (list byte) arrow_writer;
  ArrowWriter_write : arrow_writer → RecordBatch → action string (list byte) arrow_writer;
  ArrowWriter_close : arrow_writer → action string (list byte) unit;
}.

(** A file system, and the errors of creating and removing a file. *)
Abbreviation files := (gmap string (list byte)).
Class FileErrors := {
  create_error : files → string → option string;
  remove_error : files → string → option string;
}.

(** An export that failed, or that was dropped at an [await]. *)
Inductive export_stop := ExportFailed (e : CsvExport.ExportError) | ExportDropped.

Section ToFile.
Context `{UnicodeCase, J : SerdeJson, !ColumnText, ArrowTypeLib, BuildProfile}.
Context `{ArrowExport.BatchChecks, ParquetWriterLib, FileErrors}.
Context {S : Type} `{TP : !TransportProtocol S}.

Fixpoint write_each (w : arrow_writer) (batches : list RecordBatch)
    : action string (list byte) arrow_writer :=
  match batches with
  | [] => mret w
  | batch :: batches => w ← ArrowWriter_write w batch; write_each w batches
  end.

(* code: export/parquet.rs 314-333 write_parquet *)
Definition write_parquet (fields : list Field) (batches : list RecordBatch) (c : ParquetCompression)
    : action ParquetExportError (list byte) unit :=
  map_error Parquet (
    w ← ArrowWriter_try_new c fields;
    w ← write_each w batches;
    ArrowWriter_close w).

(** [batches.iter().map(|b| b.num_rows() as u64).sum()]. *)
Definition total_rows {E} (batches : list RecordBatch) : outcome E Z :=
  foldl (λ total b, total ← total; arith U64 (total + Z.of_nat (rb_rows b))) (Ok 0) batches.

(* code: export/parquet.rs 300-312 export_to_parquet_stream *)
Definition export_to_parquet_stream (csv_data : list byte) (fields : list Field)
    (o : ParquetExportOptions) : action ParquetExportError (list byte) Z :=
  batches ← pure_call (csv_to_record_batches csv_data fields o);
  total ← pure_call (total_rows batches);
  _ ← write_parquet fields batches (compression o);
  mret total.

(** The file is there, with what was written, also when [write] fails. *)
(* code: export/parquet.rs 266-274 export_to_parquet *)
Definition export_to_parquet (csv_data : list byte) (fields : list Field) (path : string)
    (o : ParquetExportOptions) : action ParquetExportError files Z := λ fs,
  match create_error fs path with
  | Some e => (Err (ParquetIo e), fs)
  | None =>
    let '(r, bytes) := export_to_parquet_stream csv_data fields o [] in (r, <[path := bytes]> fs)
  end.

(* code: export/parquet.rs 875-886 write_output_file *)
Definition write_output_file (path : string) (write : action ParquetExportError (list byte) unit)
    : action ParquetExportError files unit := λ fs,
  match create_error fs path with
  | Some e => (Err (ParquetIo e), fs)
  | None =>
    let '(r, bytes) := write [] in
    let fs := <[path := bytes]> fs in
    match r with
    | Err e => (Err e, match remove_error fs path with Some _ => fs | None => delete path fs end)
    | r => (r, fs)
    end
  end.

(** The statement is closed also when its columns are rejected, which takes precedence. *)
(* code: export/parquet.rs 836-842 export_schema *)
Definition close_with (schema : outcome CsvExport.ExportError (list Field))
    (handle : PreparedStatementHandle) : action export_stop S (list Field) := λ s,
  match transport_close_prepared handle s with
  | (Ok closed, s) => (map_err ExportFailed schema, s)
  | (Err (Failed e), s) =>
    (_ ← map_err ExportFailed schema; Err (ExportFailed (CsvExport.ExportTransportError e)), s)
  | (Err Cancelled, s) => (Err ExportDropped, s)
  | (Panic, s) => (Panic, s)
  end.

Definition prepare_failed (e : stop) : export_stop :=
  match e with
  | Failed e => ExportFailed (CsvExport.SqlExecutionError
      ("Failed to prepare the export source to read its columns: " +:+ show_transport_error e))
  | Cancelled => ExportDropped
  end.

(* code: export/parquet.rs 822-843 export_schema *)
Definition export_schema (source : ExportQuery.ExportSource) : action export_stop S (list Field) :=
  handle ← map_error prepare_failed (transport_prepare (ExportQuery.select_statement source));
  close_with (schema_of_result_columns (result_columns handle)) handle.

(** The EXPORT, whose statement, consumer and tunnel run at once: [CsvExport]. *)
Context (export_to_list :
  ExportQuery.ExportSource → CsvExport.CsvExportOptions → action export_stop S (list (list string))).

(* code: export/parquet.rs 800-806 export_to_parquet_via_transport *)
Definition csv_options (o : ParquetExportOptions) : CsvExport.CsvExportOptions :=
  CsvExport.shared_csv_export_options {|
    CsvExport.sp_column_separator := column_separator o;
    CsvExport.sp_column_delimiter := column_delimiter o;
    CsvExport.sp_host := host o; CsvExport.sp_port := port o;
    CsvExport.sp_use_tls := use_tls o |}.

Definition on_server {A} (m : action export_stop S A) : action export_stop (S * files) A :=
  λ '(s, fs), let '(r, s) := m s in (r, (s, fs)).
Definition on_files {A} (m : action ParquetExportError files A) : action export_stop (S * files) A :=
  λ '(s, fs), let '(r, fs) := m fs in (map_err (λ e, ExportFailed (export_error e)) r, (s, fs)).

(* code: export/parquet.rs 755-820 export_to_parquet_via_transport *)
Definition export_to_parquet_via_transport (source : ExportQuery.ExportSource) (path : string)
    (o : ParquetExportOptions) : action export_stop (S * files) Z :=
  fields ← on_server (export_schema source);
  rows ← on_server (export_to_list source (csv_options o));
  batches ← pure_call (map_err (λ e, ExportFailed (export_error e))
    (rows_to_record_batches (Ok <$> rows) fields None (batch_size o)));
  total ← pure_call (total_rows batches);
  _ ← on_files (write_output_file path (write_parquet fields batches (compression o)));
  mret total.
End ToFile.

(** ** What the conversion keeps *)
Section Rows.
Context `{UnicodeCase, SerdeJson, !ColumnText, ArrowTypeLib, BuildProfile, ArrowExport.BatchChecks}.

(** A value of a column of a type. *)
Definition read_value (t : ArrowType) (col_idx : nat) (s : string) : outcome string Cell :=
  match t with
  | ABoolean => read_boolean col_idx s
  | AUtf8 => Ok (CUtf8 s)
  | AFloat64 => read_float64 col_idx s
  | ADecimal128 _ scale => read_decimal128 scale col_idx s
  | ADate32 => read_date32 col_idx s
  | ATimestamp _ _ => read_timestamp col_idx s
  | AInt64 => read_int64 col_idx s
  | _ => Panic
  end.

(** The types that have a conversion whose array has the type of the field. *)
Definition convertible (t : ArrowType) : Prop :=
  match t with
  | ABoolean | AUtf8 | AFloat64 | ADate32 | AInt64 | ATimestamp Microsecond None => True
  | ADecimal128 precision scale => precision_scale_error precision scale = None
  | _ => False
  end.

Definition cell_of (t : ArrowType) (col_idx : nat) (value : option string)
    : outcome string (option Cell) :=
  match value with None => Ok None | Some s => Some <$> read_value t col_idx s end.

(** A field and its column's cell, at every place of a row. *)
Definition row_reads (fields : list Field) (null_value : option string) (row : list string)
    (cells : list (option Cell)) : Prop :=
  length row = length fields ∧ length cells = length fields ∧
  ∀ j f s, fields !! j = Some f → row !! j = Some s →
    ∃ c, cells !! j = Some c ∧ cell_of (f_data_type f) j (field_value s null_value) = Ok c.

(** A value of the row whose reading ends like this. *)
Definition value_ends (fields : list Field) (null_value : option string) (row : list string)
    (o : outcome string Cell) : Prop :=
  ∃ j f s v, fields !! j = Some f ∧ row !! j = Some s ∧ field_value s null_value = Some v ∧
             read_value (f_data_type f) j v = o.

(** A null where the column takes none. *)
Definition null_misplaced (fields : list Field) (null_value : option string) (row : list string)
    : Prop :=
  ∃ j f s, fields !! j = Some f ∧ row !! j = Some s ∧ f_nullable f = false ∧
           field_value s null_value = None.

Lemma build_with_result read values :
  match build_with read values with
  | Ok cells => length cells = length values ∧
      ∀ i v, values !! i = Some v →
        ∃ c, cells !! i = Some c ∧
             match v with None => Ok None | Some s => Some <$> read s end = Ok c
  | Err e => ∃ i s m, values !! i = Some (Some s) ∧ read s = Err m ∧ e = CsvParse i m
  | Panic => ∃ i s, values !! i = Some (Some s) ∧ read s = Panic
  end.
Proof.
  unfold build_with.
  pose proof (Conversions.mapM_enumerate (λ row_idx value,
    match value with
    | None => Ok None
    | Some s => Some <$> map_err (CsvParse row_idx) (read s)
    end) values) as Hm.
  destruct (mapM _ _) as [cells|e|].
  - destruct Hm as [Hl Hi]. split; [done|]. intros i v Hv. destruct (Hi i v Hv) as (c & Hc & Hr).
    exists c. split; [done|]. destruct v as [s|]; [|by injection Hr as <-].
    destruct (read s); [by injection Hr as <-|done..].
  - destruct Hm as (i & [s|] & Hv & Hr); [|done]. destruct (read s) as [|m|] eqn:Er; [done| |done].
    injection Hr as <-. by exists i, s, m.
  - destruct Hm as (i & [s|] & Hv & Hr); [|done]. exists i, s. by destruct (read s).
Qed.

Definition array_type (t : ArrowType) : ArrowType :=
  match t with ATimestamp Microsecond _ => ATimestamp Microsecond None | t => t end.

Lemma build_column_cases values f j :
  build_array_from_csv_column values f j
    = pair (array_type (f_data_type f)) <$> build_with (read_value (f_data_type f) j) values ∧
    (convertible (f_data_type f) ∨ ∃ tz, f_data_type f = ATimestamp Microsecond (Some tz)) ∨
  ¬ convertible (f_data_type f) ∧ ∃ e, build_array_from_csv_column values f j = Err e.
Proof.
  unfold build_array_from_csv_column.
  destruct (f_data_type f) as [| | | | | | | | | | | | | | | | | | | |[] [tz|]| | | | |];
    try (right; split; [tauto|by eexists]); try (left; split; [done|by (left + (right; eexists))]).
  unfold build_decimal128_array_from_csv. cbn [convertible].
  destruct (precision_scale_error precision scale) eqn:Ep; [right|left; split; [done|by left]].
  split; [done|by eexists].
Qed.

Lemma column_values_ok rows null_value j :
  Forall (λ row : list string, j < length row)%nat rows →
  column_values rows null_value j
    = Ok ((λ row : list string, field_value (default "" (row !! j)) null_value) <$> rows).
Proof.
  intros Hw. apply mapM_outcome_ok. induction Hw as [|row rows Hr _ IH]; [constructor|].
  cbn [fmap list_fmap]. constructor; [|done].
  apply lookup_lt_is_Some in Hr as [s ->]. done.
Qed.

(** One column of a chunk whose rows are wide enough. *)
Lemma column_result rows fields null_value j f :
  Forall (λ row : list string, length row = length fields) rows → fields !! j = Some f →
  convertible (f_data_type f) →
  match
    values ← column_values rows null_value j;
    build_array_from_csv_column values f j
  with
  | Ok (t, cells) => t = f_data_type f ∧ length cells = length rows ∧
      ∀ i row s, rows !! i = Some row → row !! j = Some s →
        ∃ c, cells !! i = Some c ∧ cell_of t j (field_value s null_value) = Ok c
  | Err e => ∃ i row m, e = CsvParse i m ∧ rows !! i = Some row ∧
      value_ends fields null_value row (Err m)
  | Panic => ∃ i row, rows !! i = Some row ∧ value_ends fields null_value row Panic
  end.
Proof.
  intros Hw Hf Hc. rewrite column_values_ok
    by (eapply Forall_impl; [done|]; cbn; intros row ->; by eapply lookup_lt_Some).
  cbn [mbind outcome_bind].
  set (values := _ <$> rows).
  assert (Hv : ∀ i v, values !! i = Some v →
    ∃ row s, rows !! i = Some row ∧ row !! j = Some s ∧ v = field_value s null_value).
  { intros i v (row & -> & Hi)%list_lookup_fmap_Some_1.
    assert (is_Some (row !! j)) as [s Hs].
    { apply lookup_lt_is_Some. rewrite Forall_forall in Hw. rewrite (Hw row) by by eapply list_elem_of_lookup_2.
      by eapply lookup_lt_Some. }
    exists row, s. by rewrite Hs. }
  destruct (build_column_cases values f j) as [[-> _]|[? _]]; [|done].
  pose proof (build_with_result (read_value (f_data_type f) j) values) as Hb.
  destruct (build_with _ values) as [cells|e|]; cbn [fmap outcome_fmap].
  - destruct Hb as [Hl Hi]. split; [by destruct (f_data_type f) as [| | | | | | | | | | | | | | | | | | | |[] []| | | | |]|].
    split; [unfold values in Hl; by rewrite length_fmap in Hl|].
    intros i row s Hr Hs. destruct (Hi i (field_value s null_value)) as (c & ? & Hcell).
    { unfold values. by rewrite list_lookup_fmap, Hr; cbn; rewrite Hs. }
    exists c. split; [done|].
    replace (array_type (f_data_type f)) with (f_data_type f); [done|].
    by destruct (f_data_type f) as [| | | | | | | | | | | | | | | | | | | |[] []| | | | |].
  - destruct Hb as (i & v & m & Hi & Hr & ->). destruct (Hv _ _ Hi) as (row & s & ? & ? & ?).
    exists i, row, m. split; [done|]. split; [done|]. by exists j, f, s, v.
  - destruct Hb as (i & v & Hi & Hr). destruct (Hv _ _ Hi) as (row & s & ? & ? & ?).
    exists i, row. split; [done|]. by exists j, f, s, v.
Qed.
End Rows.

(** ** Chunks *)
Section Chunks.
Context `{UnicodeCase, SerdeJson, !ColumnText, ArrowTypeLib, BuildProfile}.
Context `{B : ArrowExport.BatchChecks, !ArrowExport.BatchChecksLaws B}.
Context (fields : list Field) (null_value : option string).
Context (Hne : fields ≠ []) (Hc : Forall (λ f, convertible (f_data_type f)) fields).

(** The arrays of a chunk hold the cells of its rows. *)
Definition arrays_read (rows : list (list string))
    (arrays : list (ArrowType * list (option Cell))) : Prop :=
  length arrays = length fields ∧
  ∀ j f, fields !! j = Some f → ∃ cells,
    arrays !! j = Some (f_data_type f, cells) ∧ length cells = length rows ∧
    ∀ i row s, rows !! i = Some row → row !! j = Some s →
      ∃ c, cells !! i = Some c ∧ cell_of (f_data_type f) j (field_value s null_value) = Ok c.

Lemma arrays_result rows :
  Forall (λ row : list string, length row = length fields) rows →
  match mapM (λ '(col_idx, field),
      values ← column_values rows null_value col_idx;
      build_array_from_csv_column values field col_idx) (imap pair fields) with
  | Ok arrays => arrays_read rows arrays
  | Err e => ∃ i row m, e = CsvParse i m ∧ rows !! i = Some row ∧
      value_ends fields null_value row (Err m)
  | Panic => ∃ i row, rows !! i = Some row ∧ value_ends fields null_value row Panic
  end.
Proof.
  intros Hw.
  pose proof (Conversions.mapM_enumerate (λ col_idx field,
    values ← column_values rows null_value col_idx;
    build_array_from_csv_column values field col_idx) fields) as Hm.
  assert (∀ j f, fields !! j = Some f → convertible (f_data_type f)) as Hcj.
  { intros j f Hf. rewrite Forall_forall in Hc. by apply Hc, list_elem_of_lookup_2 with j. }
  destruct (mapM _ _) as [arrays|e|].
  - destruct Hm as [Hl Hj]. split; [done|]. intros j f Hf.
    destruct (Hj j f Hf) as ([t cells] & Ha & Hr).
    pose proof (column_result rows fields null_value j f Hw Hf (Hcj _ _ Hf)) as Hcol.
    rewrite Hr in Hcol. destruct Hcol as (-> & ? & ?). by exists cells.
  - destruct Hm as (j & f & Hf & Hr).
    pose proof (column_result rows fields null_value j f Hw Hf (Hcj _ _ Hf)) as Hcol.
    by rewrite Hr in Hcol.
  - destruct Hm as (j & f & Hf & Hr).
    pose proof (column_result rows fields null_value j f Hw Hf (Hcj _ _ Hf)) as Hcol.
    by rewrite Hr in Hcol.
Qed.

Lemma arrays_batch_rows rows arrays :
  Forall (λ row : list string, length row = length fields) rows → arrays_read rows arrays →
  Forall2 (row_reads fields null_value) rows
    ((λ i, (λ a : ArrowType * list (option Cell), default None (a.2 !! i)) <$> arrays)
       <$> seq 0 (length rows)).
Proof.
  intros Hw [Hl Hj]. apply Forall2_fmap_r, Forall2_same_length_lookup.
  split; [by rewrite length_seq|]. intros i row n Hrow [-> Hi]%lookup_seq. cbn.
  rewrite Forall_forall in Hw. split; [by eapply Hw, list_elem_of_lookup_2|].
  split; [by rewrite length_fmap|]. intros j f s Hf Hs.
  destruct (Hj j f Hf) as (cells & Ha & _ & Hcells).
  destruct (Hcells i row s Hrow Hs) as (c & Hci & Hcell).
  exists c. split; [|done]. by rewrite list_lookup_fmap, Ha; cbn; rewrite Hci.
Qed.

(** An array that does not fit holds a null that its field does not take. *)
Lemma arrays_rejected rows arrays :
  Forall (λ row : list string, length row = length fields) rows → arrays_read rows arrays →
  (∀ row, row ∈ rows → ¬ null_misplaced fields null_value row) →
  Forall2 (ArrowExport.array_fits (length rows)) fields arrays.
Proof.
  intros Hw [Hl Hj] Hn. apply Forall2_same_length_lookup. split; [done|]. intros j f a Hf Ha.
  destruct (Hj j f Hf) as (cells & Ha' & Hlen & Hcells). simplify_eq. split; [done|].
  split; [done|]. destruct (f_nullable f) eqn:En; [by left|right]. apply Forall_lookup.
  cbn [snd]. intros i c Hci. assert (is_Some (rows !! i)) as [row Hrow].
  { apply lookup_lt_is_Some. rewrite <- Hlen. by eapply lookup_lt_Some. }
  rewrite Forall_forall in Hw. assert (row ∈ rows) as Hin by by eapply list_elem_of_lookup_2.
  assert (is_Some (row !! j)) as [s Hs].
  { apply lookup_lt_is_Some. rewrite (Hw row) by done. by eapply lookup_lt_Some. }
  destruct (Hcells i row s Hrow Hs) as (c' & ? & Hcell). simplify_eq.
  destruct (field_value s null_value) eqn:Ev.
  - cbn [cell_of] in Hcell. apply fmap_ok in Hcell as (? & _ & ->). by eexists.
  - exfalso. eapply Hn; [done|]. by exists j, f, s.
Qed.

(** The outcome of a chunk. *)
Definition chunk_outcome (rows : list (list string)) (o : outcome ParquetExportError RecordBatch)
    : Prop :=
  match o with
  | Ok b => rb_fields b = fields ∧ rb_rows b = length rows ∧
      Forall2 (row_reads fields null_value) rows (ArrowExport.batch_rows b)
  | Err (CsvParse i m) =>
      ∃ row, rows !! i = Some row ∧ value_ends fields null_value row (Err m)
  | Err (ParquetArrow _) => ∃ row, row ∈ rows ∧ null_misplaced fields null_value row
  | Err _ => False
  | Panic => ∃ row, row ∈ rows ∧ value_ends fields null_value row Panic
  end.

#[local] Instance null_misplaced_dec row : Decision (null_misplaced fields null_value row).
Proof.
  refine (cast_if (decide (Exists (λ '(f, s),
    f_nullable f = false ∧ field_value s null_value = None) (zip fields row)))).
  - abstract (apply Exists_exists in e as ([f s] & (j & Hj)%list_elem_of_lookup & ? & ?);
      apply lookup_zip_Some in Hj as [? ?]; by exists j, f, s).
  - abstract (intros (j & f & s & Hf & Hs & Hn & Hv); apply n, Exists_exists; exists (f, s);
      split; [apply list_elem_of_lookup; exists j; by apply lookup_zip_Some|done]).
Qed.

Lemma chunk_result rows :
  Forall (λ row : list string, length row = length fields) rows →
  chunk_outcome rows (chunk_to_record_batch rows fields null_value).
Proof.
  intros Hw. unfold chunk_to_record_batch.
  pose proof (arrays_result rows Hw) as Hr. destruct (mapM _ _) as [arrays|e|];
    cbn [mbind outcome_bind].
  - unfold ArrowExport.checked_batch.
    assert (∃ a, head arrays = Some a ∧ length a.2 = length rows) as (a & Ha & Hlen).
    { destruct Hr as [Hl Hj]. destruct fields as [|f fs]; [done|].
      destruct (Hj O f eq_refl) as (cells & Ha & ? & _). exists (f_data_type f, cells).
      by destruct arrays. }
    destruct (ArrowExport.batch_error fields arrays) eqn:Eb; cbn.
    + destruct (Exists_dec (null_misplaced fields null_value) rows) as [He|He].
      { apply Exists_exists in He as (row & ? & ?). by exists row. }
      exfalso. enough (ArrowExport.batch_error fields arrays = None) by congruence.
      apply ArrowExport.batch_accepted. exists a. rewrite Hlen. split; [done|].
      apply arrays_rejected; [done..|]. intros row Hrow Hn. apply He, Exists_exists. by exists row.
    + assert (length a.2 = match arrays with [] => 0%nat | a :: _ => length a.2 end) as Hz
        by (destruct arrays; [done|]; by injection Ha as <-).
      split; [done|]. cbn [rb_rows]. split; [by rewrite <- Hz|].
      unfold ArrowExport.batch_rows, ArrowExport.row_at. cbn [rb_columns rb_rows]. rewrite <- Hz, Hlen.
      pose proof (arrays_batch_rows rows arrays Hw Hr) as Hrows.
      erewrite list_fmap_ext; [exact Hrows|]. intros i n _. cbn. by rewrite <- list_fmap_compose.
  - destruct Hr as (i & row & m & -> & ? & ?). by exists row.
  - destruct Hr as (i & row & Hi & ?). exists row. split; [by eapply list_elem_of_lookup_2|done].
Qed.

Lemma zoned_refused f j values a :
  build_array_from_csv_column values f j = Ok a → f_data_type f = a.1 → convertible (f_data_type f).
Proof.
  intros Hb Ht. destruct (build_column_cases values f j) as [[Hrun [Hcv|(tz & Htz)]]|[_ [e He]]];
    [done| |congruence].
  rewrite Hrun, Htz in Hb. rewrite Htz in Ht. apply fmap_ok in Hb as (cells & _ & ->). done.
Qed.
End Chunks.

(** ** The loop *)
Section Loop.
Context `{UnicodeCase, SerdeJson, !ColumnText, ArrowTypeLib, BuildProfile}.
Context `{B : ArrowExport.BatchChecks, !ArrowExport.BatchChecksLaws B}.
Context (fields : list Field) (null_value : option string).
Context (Hne : fields ≠ []) (Hc : Forall (λ f, convertible (f_data_type f)) fields).

(** A row that a conversion error may name. *)
Definition row_rejected (row : list string) (message : string) : Prop :=
  length row ≠ length fields ∧
    message = "Expected " +:+ show_count (length fields) +:+ " columns, found " +:+
              show_count (length row) ∨
  value_ends fields null_value row (Err message).

(** The outcome for [rows], of which the first has the index [first]. *)
Definition rows_outcome (first : nat) (n : nat) (rows : list (list string))
    (o : outcome ParquetExportError (list RecordBatch)) : Prop :=
  match o with
  | Ok bs => Forall2 (row_reads fields null_value) rows (bs ≫= ArrowExport.batch_rows) ∧
      Forall (λ b, rb_fields b = fields ∧ rb_rows b ≤ n)%nat bs
  | Err (CsvParse k m) => ∃ i row, k = (first + i)%nat ∧ rows !! i = Some row ∧ row_rejected row m
  | Err (ParquetArrow _) => ∃ row, row ∈ rows ∧ null_misplaced fields null_value row
  | Err _ => False
  | Panic => ∃ row, row ∈ rows ∧ value_ends fields null_value row Panic
  end.

Lemma take_chunk_result n first len rows :
  match take_chunk n (length fields) first len (Ok <$> rows) with
  | Ok (chunk, rest) => chunk = take n rows ∧ rest = Ok <$> drop n rows ∧
      Forall (λ row : list string, length row = length fields) chunk
  | Err e => ∃ i row m, e = CsvParse (first + (len + i)) m ∧ rows !! i = Some row ∧
      row_rejected row m
  | Panic => False
  end.
Proof.
  induction n as [|n IH] in len, rows |- *; [done|]. destruct rows as [|row rows]; [done|].
  cbn [fmap list_fmap take_chunk mbind outcome_bind].
  destruct (Nat.eqb_spec (length row) (length fields)) as [Hw|Hw].
  - specialize (IH (S len) rows). destruct (take_chunk _ _ _ _ _) as [[chunk rest]|e|]; [| |done].
    + destruct IH as (-> & -> & ?). split; [done|]. split; [done|]. by constructor.
    + destruct IH as (i & r & m & -> & ? & ?). exists (S i), r, m.
      by rewrite Nat.add_succ_r.
  - eexists O, row, _. rewrite Nat.add_0_r. split; [done|]. split; [done|]. by left.
Qed.

Lemma chunk_batches_result fuel n first rows :
  (0 < n)%nat → (length rows < fuel)%nat →
  rows_outcome first n rows (chunk_batches fuel n fields null_value first (Ok <$> rows)).
Proof.
  intros Hn. induction fuel as [|fuel IH] in first, rows |- *; intros Hf; [lia|].
  cbn [chunk_batches]. pose proof (take_chunk_result n first 0 rows) as Ht.
  destruct (take_chunk _ _ _ _ _) as [[chunk rest]|e|]; cbn [mbind outcome_bind]; [| |done].
  2: { destruct Ht as (i & row & m & -> & ? & ?). by exists i, row. }
  destruct Ht as (Hchunk & -> & Hw). destruct chunk as [|row chunk].
  { destruct rows; [by repeat constructor|]. by destruct n; [lia|]. }
  assert (Hlen : (0 < length (row :: chunk) ≤ n)%nat).
  { rewrite Hchunk, length_take. cbn [length]. destruct rows; [|cbn [length] in *; lia].
    by destruct n. }
  remember (row :: chunk) as c eqn:Ec. clear Ec.
  assert (Hsub : ∀ i r, c !! i = Some r → rows !! i = Some r).
  { intros i r. rewrite Hchunk. by intros [? _]%lookup_take_Some. }
  assert (Hdrop : ∀ i r, drop n rows !! i = Some r → rows !! (length c + i)%nat = Some r).
  { intros i r Hi. assert (length c = n) as ->; [|by rewrite <- lookup_drop].
    apply lookup_lt_Some in Hi. rewrite Hchunk, length_take. rewrite length_drop in Hi. lia. }
  pose proof (chunk_result fields null_value Hne Hc c Hw) as Hb.
  destruct (chunk_to_record_batch _ _ _) as [b|e|]; cbn [map_err mbind outcome_bind chunk_outcome] in *.
  - specialize (IH (first + length c)%nat (drop n rows)).
    assert (length (drop n rows) < fuel)%nat as Hl
      by (rewrite length_drop; rewrite Hchunk, length_take in Hlen; lia).
    specialize (IH Hl).
    destruct (chunk_batches _ _ _ _ _ _) as [bs|e|]; cbn [rows_outcome] in *.
    + destruct IH as [Hrows Hbs], Hb as (Hfields & Hcount & Hread). split.
      * rewrite <- (take_drop n rows), <- Hchunk. cbn [mbind list_bind]. by apply Forall2_app.
      * constructor; [|done]. split; [done|]. lia.
    + destruct e as [| | |k m|]; try done.
      * destruct IH as (r & (i & Hi)%list_elem_of_lookup & ?). exists r.
        split; [|done]. by eapply list_elem_of_lookup_2, Hdrop.
      * destruct IH as (i & r & -> & Hi & ?). exists (length c + i)%nat, r.
        split; [lia|]. split; [by apply Hdrop|done].
    + destruct IH as (r & (i & Hi)%list_elem_of_lookup & ?). exists r.
      split; [|done]. by eapply list_elem_of_lookup_2, Hdrop.
  - destruct e as [| | |k m|]; cbn [shift_row rows_outcome]; try done.
    + destruct Hb as (r & (i & Hi)%list_elem_of_lookup & ?). exists r.
      split; [|done]. by eapply list_elem_of_lookup_2, Hsub.
    + destruct Hb as (r & Hk & ?). exists k, r. split; [done|]. split; [by apply Hsub|by right].
  - destruct Hb as (r & (i & Hi)%list_elem_of_lookup & ?). exists r.
    split; [|done]. by eapply list_elem_of_lookup_2, Hsub.
Qed.
End Loop.

(** A batch was made, so all its columns have a conversion. *)
Lemma chunk_convertible `{UnicodeCase, SerdeJson, !ColumnText, ArrowTypeLib, BuildProfile}
    `{B : ArrowExport.BatchChecks, !ArrowExport.BatchChecksLaws B} rows fields null_value b :
  chunk_to_record_batch rows fields null_value = Ok b →
  fields ≠ [] ∧ Forall (λ f, convertible (f_data_type f)) fields.
Proof.
  unfold chunk_to_record_batch.
  pose proof (Conversions.mapM_enumerate (λ col_idx field,
    values ← column_values rows null_value col_idx;
    build_array_from_csv_column values field col_idx) fields) as Hm.
  destruct (mapM _ _) as [arrays| |]; [|done..]. cbn [mbind outcome_bind].
  unfold ArrowExport.checked_batch.
  destruct (ArrowExport.batch_error fields arrays) eqn:Eb; [done|]. intros _.
  apply ArrowExport.batch_accepted in Eb as (a & Hhead & Hfit).
  split; [intros ->; apply Forall2_nil_inv_l in Hfit; by subst|].
  destruct Hm as [_ Hj]. apply Forall_lookup. intros j f Hf.
  destruct (Hj j f Hf) as (a' & Ha' & (values & _ & Hrun)%bind_ok).
  eapply Forall2_lookup_lr in Hfit as [Ht _]; [|done..]. by eapply zoned_refused.
Qed.

Lemma rows_result `{UnicodeCase, SerdeJson, !ColumnText, ArrowTypeLib, BuildProfile}
    `{B : ArrowExport.BatchChecks, !ArrowExport.BatchChecksLaws B}
    fields null_value batch_size (rows : list (list string)) :
  fields ≠ [] → Forall (λ f, convertible (f_data_type f)) fields →
  let o := rows_to_record_batches (Ok <$> rows) fields null_value batch_size in
  rows_outcome fields null_value 0 (Z.to_nat (Z.max batch_size 1)) rows o ∧ o ≠ Ok [].
Proof.
  intros Hne Hc. unfold rows_to_record_batches.
  pose proof (chunk_batches_result fields null_value Hne Hc (S (length rows))
    (Z.to_nat (Z.max batch_size 1)) 0 rows ltac:(lia) ltac:(lia)) as Hr.
  rewrite length_fmap. destruct (chunk_batches _ _ _ _ _ _) as [[|b bs]|e|];
    cbn [mbind outcome_bind]; try done.
  destruct Hr as [Hrows _]. split; [|done]. split; [done|]. constructor; [|done]. split; [done|].
  cbn. lia.
Qed.

(** ** The theorems *)
(** C12: The record batches of a Parquet export, for a schema whose types the conversion
    supports. If it succeeds, the batches hold every row once and in order, each field as the
    cell that its column's type reads, in batches of at most [batch_size] rows, and there is
    a batch even for no rows. It fails only for a reason that the rows give: a CSV error
    carries the index of a row, in the whole input, that has another number of fields or a
    value that its column cannot read, and an Arrow error means a null in a column that takes
    none. *)
Theorem parquet_rows_complete `{UnicodeCase, SerdeJson, !ColumnText, ArrowTypeLib, BuildProfile}
    `{B : ArrowExport.BatchChecks, !ArrowExport.BatchChecksLaws B}
    fields null_value batch_size (rows : list (list string)) :
  fields ≠ [] → Forall (λ f, convertible (f_data_type f)) fields →
  match rows_to_record_batches (Ok <$> rows) fields null_value batch_size with
  | Ok bs => Forall2 (row_reads fields null_value) rows (bs ≫= ArrowExport.batch_rows) ∧ bs ≠ [] ∧
      Forall (λ b, rb_fields b = fields ∧ Z.of_nat (rb_rows b) ≤ Z.max batch_size 1) bs
  | Err (CsvParse k m) => ∃ row, rows !! k = Some row ∧ row_rejected fields null_value row m
  | Err (ParquetArrow _) => ∃ row, row ∈ rows ∧ null_misplaced fields null_value row
  | Err _ => False
  | Panic => ∃ row, row ∈ rows ∧ value_ends fields null_value row Panic
  end.
Proof.
  intros Hne Hc. pose proof (rows_result fields null_value batch_size rows Hne Hc) as [Hr He].
  destruct (rows_to_record_batches _ _ _ _) as [bs|e|]; cbn [rows_outcome] in Hr; [| |done].
  - destruct Hr as [Hrows Hbs]. split; [done|]. split; [by intros ->|].
    eapply Forall_impl; [done|]. cbn. intros b [? ?]. split; [done|lia].
  - destruct e as [| | |k m|]; try done. destruct Hr as (i & row & -> & ? & ?). by exists row.
Qed.

(** The schema of an export takes nulls everywhere and has the source's column names, and
    every type of it is supported, up to decimals that arrow refuses. *)
Theorem schema_convertible `{SerdeJson, !ColumnText} columns fields :
  schema_of_result_columns columns = Ok fields →
  Forall2 (λ c f, f_name f = ci_name c ∧ f_nullable f = true ∧
    ∃ t, exasol_type_of (ci_data_type c) = Ok t ∧
         (convertible (f_data_type f) ∨
          ∃ p s, t = Decimal p s ∧ is_Some (precision_scale_error p s))) columns fields ∧
  fields ≠ [].
Proof.
  unfold schema_of_result_columns. destruct columns as [|c0 cs]; [done|].
  generalize (c0 :: cs), (nil_cons (x := c0) (l := cs)). intros columns Hne.
  intros (types & Ht & Hf)%bind_ok.
  apply mapM_outcome_ok in Ht. unfold exasol_types_to_arrow_schema in Hf.
  destruct (_ =? _)%nat eqn:El; [|done]. clear El.
  destruct (mapM _ _) as [fs|e|] eqn:Em; [|done..]. cbn in Hf. simplify_eq.
  apply mapM_outcome_ok in Em. split.
  - clear Hne. induction Ht as [|c t columns types Hct _ IH] in fields, Em |- *.
    { by inversion Em. }
    inversion Em as [|? f ? fs Hf Hfs]; subst. constructor; [|by apply IH].
    apply bind_ok in Hf as (a & Ha & [= <-]). cbn. split; [done|]. split; [done|].
    destruct (exasol_type_of (ci_data_type c)) as [t'|e|] eqn:Et; [|done..].
    injection Hct as ->. exists t. split; [done|].
    destruct t as [| | | |precision scale| |[]| | | |]; cbn in Ha; simplify_eq; try by left.
    cbn. destruct (precision_scale_error precision scale) eqn:Ep; [right|by left].
    exists precision, scale. by rewrite Ep.
  - destruct Ht; [done|]. by inversion Em.
Qed.

Section Exported.
Context `{UnicodeCase, J : SerdeJson, !ColumnText, ArrowTypeLib, BuildProfile}.
Context `{B : ArrowExport.BatchChecks, !ArrowExport.BatchChecksLaws B}.
Context `{ParquetWriterLib, FileErrors}.
Context {S : Type} `{TP : !TransportProtocol S}.

Lemma wrap_add_l t a b : wrap t (wrap t a + b) = wrap t (a + b).
Proof.
  apply wrap_congr. rewrite <- Zplus_mod_idemp_l, wrap_mod. by rewrite Zplus_mod_idemp_l.
Qed.

Lemma arith_wrap {E} t z r : arith (E := E) t z = Ok r → r = wrap t z.
Proof.
  unfold arith. destruct (in_rangeb t z) eqn:Ez.
  - intros [= <-]. symmetry. by apply wrap_id, in_rangeb_true.
  - destruct overflow_checks; [done|]. by intros [= <-].
Qed.

(** The sum of the row counts is the number of rows, at its width. *)
Lemma total_rows_count {E} bs total :
  total_rows (E := E) bs = Ok total → total = wrap U64 (Z.of_nat (length (bs ≫= ArrowExport.batch_rows))).
Proof.
  unfold total_rows. change 0 with (wrap U64 0) at 1.
  set (sum := length _). cut (∀ a, foldl (λ total b, total ← total;
      arith U64 (total + Z.of_nat (rb_rows b))) (Ok (wrap U64 a)) bs = Ok (E := E) total →
    total = wrap U64 (a + Z.of_nat sum)); [intros Hg; by apply (Hg 0)|]. subst sum.
  induction bs as [|b bs IH]; intros a; cbn [foldl mbind list_bind outcome_bind].
  { intros [= <-]. f_equal. cbn. lia. }
  rewrite length_app. unfold ArrowExport.batch_rows at 1. rewrite length_fmap, length_seq.
  destruct (arith U64 _) as [r|e|] eqn:Ea.
  - apply arith_wrap in Ea as ->. rewrite wrap_add_l. intros Hr%IH. rewrite Hr. f_equal. lia.
  - intros Hr. exfalso. clear -Hr. by induction bs.
  - intros Hr. exfalso. clear -Hr. by induction bs.
Qed.

(** The rows of the batches when a conversion succeeds, whatever the schema. *)
Lemma converted_rows fields null_value n (rows : list (list string)) bs :
  rows_to_record_batches (Ok <$> rows) fields null_value n = Ok bs →
  Forall2 (row_reads fields null_value) rows (bs ≫= ArrowExport.batch_rows).
Proof.
  intros Hr. destruct rows as [|row rows].
  { unfold rows_to_record_batches in Hr. cbn in Hr.
    by destruct (Z.to_nat (Z.max n 1)); injection Hr as <-. }
  assert (fields ≠ [] ∧ Forall (λ f, convertible (f_data_type f)) fields) as [Hne Hc].
  { unfold rows_to_record_batches in Hr. rewrite length_fmap in Hr. cbn [length chunk_batches] in Hr.
    pose proof (take_chunk_result fields null_value (Z.to_nat (Z.max n 1)) 0 0 (row :: rows)) as Ht.
    destruct (take_chunk _ _ _ _ _) as [[chunk rest]|e|]; [|done..].
    destruct Ht as (Hchunk & _ & _). cbn [mbind outcome_bind] in Hr. destruct chunk as [|r chunk].
    { destruct (Z.to_nat (Z.max n 1)) eqn:En; [lia|done]. }
    destruct (chunk_to_record_batch _ _ _) as [b|e|] eqn:Eb; [|done..].
    by eapply chunk_convertible. }
  pose proof (rows_result fields null_value n (row :: rows) Hne Hc) as [Hp _].
  cbv zeta in Hp. rewrite Hr in Hp. by destruct Hp.
Qed.

Lemma write_output_file_result path write fs :
  match write_output_file path write fs with
  | (Ok (), fs') => ∃ bytes, write [] = (Ok (), bytes) ∧ fs' = <[path := bytes]> fs
  | (Err _, fs') => fs' = fs ∨ fs' = delete path fs ∨
      ∃ bytes, fs' = <[path := bytes]> fs ∧ is_Some (remove_error fs' path)
  | (Panic, _) => True
  end.
Proof.
  unfold write_output_file. destruct (create_error fs path); [by left|].
  destruct (write []) as [[[]|e|] bytes]; [by exists bytes| |done].
  destruct (remove_error _ path) eqn:Er; right; [right; exists bytes; by rewrite Er|].
  left. apply delete_insert_eq.
Qed.

(** An export to a Parquet file. If it succeeds, the count is that of the rows that the
    EXPORT statement gave, the batches hold these rows in order as the columns of the
    prepared source read them, and the file holds what the writer made of them. If it fails,
    the file system is as before, or without the file, unless the file cannot be removed. *)
Theorem parquet_export_complete export_to_list source path o s fs :
  match export_to_parquet_via_transport export_to_list source path o (s, fs) with
  | (Ok total, (s', fs')) => ∃ fields rows bs bytes s1,
      export_schema source s = (Ok fields, s1) ∧
      export_to_list source (csv_options o) s1 = (Ok rows, s') ∧
      total = wrap U64 (Z.of_nat (length rows)) ∧
      Forall2 (row_reads fields None) rows (bs ≫= ArrowExport.batch_rows) ∧
      write_parquet fields bs (compression o) [] = (Ok (), bytes) ∧ fs' = <[path := bytes]> fs
  | (Err _, (_, fs')) => fs' = fs ∨ fs' = delete path fs ∨
      ∃ bytes, fs' = <[path := bytes]> fs ∧ is_Some (remove_error fs' path)
  | (Panic, _) => True
  end.
Proof.
  unfold export_to_parquet_via_transport, on_server, on_files, pure_call, mbind, action_bind.
  destruct (export_schema source s) as [[fields|e|] s1] eqn:Es; [|by left|done].
  destruct (export_to_list source (csv_options o) s1) as [[rows|e|] s2] eqn:Er; [|by left|done].
  destruct (rows_to_record_batches _ _ _ _) as [bs|e|] eqn:Eb; [|by left|done]. cbn [map_err].
  destruct (total_rows bs) as [total|e|] eqn:Et; [|by left|done].
  pose proof (write_output_file_result path (write_parquet fields bs (compression o)) fs) as Hw.
  destruct (write_output_file _ _ fs) as [[[]|e|] fs']; cbn in Hw |- *; [|done..].
  destruct Hw as (bytes & Hw & ->). apply converted_rows in Eb as Hrows.
  apply total_rows_count in Et. rewrite <- (Forall2_length _ _ _ Hrows) in Et.
  by exists fields, rows, bs, bytes, s1.
Qed.
End Exported.


(** ** At concrete inputs *)
#[local] Existing Instances int_numbers dev_profile ArrowExport.documented_checks
  ArrowExport.documented_checks_laws ExasolTypes.type_map_lib.

Definition known_case : UnicodeCase := {| unicode_uppercase s := s; unicode_lowercase s := s |}.
Definition bounded_decimals : ColumnText := {|
  json_debug := json_display;
  display_arrow_type _ := "a type";
  precision_scale_error p s :=
    if (p <? 1) || (38 <? p) || (p <? s) then Some "invalid precision or scale" else None;
|}.
#[local] Existing Instances known_case bounded_decimals.

Definition priced : list Field :=
  [{| f_name := "ID"; f_data_type := AInt64; f_nullable := false |};
   {| f_name := "PRICE"; f_data_type := ADecimal128 9 2; f_nullable := true |};
   {| f_name := "SOLD"; f_data_type := ADate32; f_nullable := true |}].

Definition three_rows : list (list string) :=
  [["1"; "1.50"; "2024-02-29"]; ["2"; "-0.07"; ""]; ["3"; ""; "1970-01-01"]]%string.
Definition fourth_row : list string := ["4"; "a lot"; ""]%string.

(** Three rows in two batches; and a fourth row that the second batch does not convert. *)
Lemma parquet_rows_complete_witness :
  (∃ bs, rows_to_record_batches (Ok <$> three_rows) priced None 2 = Ok bs ∧ length bs = 2%nat ∧
     Forall2 (row_reads priced None) three_rows (bs ≫= ArrowExport.batch_rows) ∧
     (bs ≫= ArrowExport.batch_rows) !! 1%nat = Some [Some (CInt64 2); Some (CDecimal128 (-7)); None]) ∧
  ∃ m, rows_to_record_batches (Ok <$> (three_rows ++ [fourth_row])) priced None 2 = Err (CsvParse 3 m) ∧
     row_rejected priced None fourth_row m.
Proof.
  assert (Forall (λ f, convertible (f_data_type f)) priced) as Hc by (repeat constructor).
  split.
  - pose proof (parquet_rows_complete priced None 2 three_rows ltac:(discriminate) Hc) as Hp.
    destruct (rows_to_record_batches (Ok <$> three_rows) priced None 2) as [bs|e|] eqn:E;
      [|vm_compute in E; discriminate..].
    exists bs. destruct Hp as [Hr _]. vm_compute in E. injection E as <-.
    split; [reflexivity|]. split; [reflexivity|]. split; [exact Hr|reflexivity].
  - pose proof (parquet_rows_complete priced None 2 (three_rows ++ [fourth_row])
      ltac:(discriminate) Hc) as Hp.
    destruct (rows_to_record_batches _ priced None 2) as [bs|[| | |k m|]|] eqn:E;
      vm_compute in E; try discriminate.
    injection E as <- Em. exists m. destruct Hp as (row & Hrow & Hrej).
    injection Hrow as <-. split; [rewrite <- Em; reflexivity|exact Hrej].
Defined.
