(* ===== verification/AdbcFfi.v ===== *)
(** * The ADBC driver

    [adbc_ffi.rs]: the SQL text of the driver, catalog objects and table schemas from the
    system views, bound rows, and databases, connections and statements with their options. *)
From S2P Require Import Prelude MachineInt RustStr StrText Float64 Json Errors Effect DateTime.
From S2P Require Import ExasolTypes ResultParser Messages Lifecycle Session ArrayBuilders.
From S2P Require Import ArrowConverter JsonColumns ArrowCsv ResultSets Connection.
From S2P Require Statement ConnectionString CsvImport.
From Stdlib Require Import Ascii Floats.SpecFloat.

#[local] Open Scope Z_scope.

(** ** Errors *)
Inductive AdbcStatus :=
| Internal | StatusInvalidArguments | StatusInvalidState | NotImplemented | NotFound.

Record AdbcError := { ae_message : string; ae_status : AdbcStatus }.

Abbreviation adbc := (outcome AdbcError).

Definition adbc_error (message : string) (status : AdbcStatus) : AdbcError :=
  {| ae_message := message; ae_status := status |}.

(* code: adbc_ffi.rs 1769-1771 invalid_argument *)
Definition invalid_argument (message : string) : AdbcError := adbc_error message StatusInvalidArguments.

(** [to_adbc_error] of an error with its [Display] text. *)
(* code: adbc_ffi.rs 115-118 to_adbc_error *)
Definition to_adbc_error (message : string) : AdbcError := adbc_error message Internal.

(** ** SQL text *)
(* code: adbc_ffi.rs 123-126 quote_identifier *)
Definition quote_identifier (name : string) : string := quoted dquote name.

(* code: adbc_ffi.rs 128-146 build_qualified_table_name *)
Definition build_qualified_table_name (schema : option string) (table : string) : string :=
  match schema with
  | Some schema => quote_identifier schema +:+ "." +:+ quote_identifier table
  | None =>
    match split_once "." table with
    | Some (schema_part, table_part) =>
      quote_identifier schema_part +:+ "." +:+ quote_identifier table_part
    | None => quote_identifier table
    end
  end.

Definition column_definition (field : Field) (ddl_type : string) : string :=
  quote_identifier (f_name field) +:+ " " +:+ ddl_type
  +:+ (if f_nullable field then "" else " NOT NULL").

(* code: adbc_ffi.rs 148-184 generate_create_table_ddl *)
Definition generate_create_table_ddl `{ArrowTypeLib} (table_name : string) (fields : list Field)
    : adbc string :=
  columns ← mapM (λ field,
    exasol_type ← map_err (λ e, invalid_argument ("Cannot map Arrow type "
                    +:+ show_arrow_type (f_data_type field) +:+ " for column '" +:+ f_name field
                    +:+ "': " +:+ show_conversion_error e))
                  (arrow_to_exasol (f_data_type field));
    Ok (column_definition field (to_ddl_type exasol_type))) fields;
  Ok ("CREATE TABLE " +:+ table_name +:+ " (" +:+ String.concat ", " columns +:+ ")").

(** [s.replace(from, to)] for a text [from] that is not empty: [skip] characters belong to
    the occurrence before. *)
Fixpoint replace_at (from to : string) (skip : nat) (s : string) : string :=
  match s with
  | EmptyString => ""
  | String a s' =>
    match skip with
    | S skip => replace_at from to skip s'
    | O => if starts_with from s then to +:+ replace_at from to (str_len from - 1) s'
           else String a (replace_at from to O s')
    end
  end.
Definition replace_str (from to s : string) : string := replace_at from to O s.

(* code: adbc_ffi.rs 2194-2196 FfiStatement::execute_bulk_ingest *)
Definition if_not_exists (ddl : string) : string :=
  replace_str "CREATE TABLE" "CREATE TABLE IF NOT EXISTS" ddl.

(* code: adbc_ffi.rs 576-580 like_condition *)
Definition like_condition (column pattern : string) : string :=
  column +:+ " LIKE " +:+ quoted squote pattern.

(* code: adbc_ffi.rs 582-590 append_where_clause *)
Definition append_where_clause (sql : string) (conditions : list string) : string :=
  match conditions with
  | [] => sql
  | _ => sql +:+ " WHERE " +:+ String.concat " AND " conditions
  end.

(** The conditions of the filters that are present. *)
Definition likes (filters : list (string * option string)) : list string :=
  omap (λ '(column, pattern), like_condition column <$> pattern) filters.

(* code: adbc_ffi.rs 592-601 get_objects_schemas_query *)
Definition get_objects_schemas_query (db_schema : option string) : string :=
  append_where_clause "SELECT SCHEMA_NAME FROM SYS.EXA_ALL_SCHEMAS" (likes [("SCHEMA_NAME", db_schema)])
  +:+ " ORDER BY SCHEMA_NAME".

(* code: adbc_ffi.rs 603-630 get_objects_tables_query *)
Definition get_objects_tables_query (db_schema table_name : option string)
    (table_type : option (list string)) : string :=
  append_where_clause "SELECT OBJECT_NAME, OBJECT_TYPE, ROOT_NAME FROM SYS.EXA_ALL_OBJECTS"
    (["OBJECT_TYPE IN ('TABLE', 'VIEW')"]
     ++ likes [("ROOT_NAME", db_schema); ("OBJECT_NAME", table_name)]
     ++ match table_type with
        | Some types => ["OBJECT_TYPE IN (" +:+ String.concat "," (quoted squote <$> types) +:+ ")"]
        | None => []
        end)
  +:+ " ORDER BY ROOT_NAME, OBJECT_NAME".

(* code: adbc_ffi.rs 632-652 get_objects_columns_query *)
Definition get_objects_columns_query (db_schema table_name column_name : option string) : string :=
  append_where_clause
    "SELECT COLUMN_NAME, COLUMN_ORDINAL_POSITION, COLUMN_TYPE, COLUMN_SCHEMA, COLUMN_TABLE FROM SYS.EXA_ALL_COLUMNS"
    (likes [("COLUMN_SCHEMA", db_schema); ("COLUMN_TABLE", table_name); ("COLUMN_NAME", column_name)])
  +:+ " ORDER BY COLUMN_SCHEMA, COLUMN_TABLE, COLUMN_ORDINAL_POSITION".

(* code: adbc_ffi.rs 654-671 table_schema_query *)
Definition table_schema_query (db_schema : option string) (table_name : string) : string :=
  "SELECT COLUMN_NAME, COLUMN_TYPE, COLUMN_MAXSIZE, COLUMN_NUM_PREC, COLUMN_NUM_SCALE, COLUMN_IS_NULLABLE FROM SYS.EXA_ALL_COLUMNS WHERE COLUMN_TABLE = "
  +:+ quoted squote table_name
  +:+ match db_schema with
      | Some schema => " AND COLUMN_SCHEMA = " +:+ quoted squote schema
      | None => ""
      end
  +:+ " ORDER BY COLUMN_ORDINAL_POSITION".

(** ** Columns of the system views *)
(** Column [index] of a batch: out of range, the access panics. *)
Definition batch_column (b : Batch) (index : nat) : adbc (ArrowType * list (option Cell)) :=
  match fields_of (b_schema b) !! index, b_columns b !! index with
  | Some field, Some cells => Ok (f_data_type field, cells)
  | _, _ => Panic
  end.

(** The value of a string array at a row: what stands under a null is the empty text. *)
Definition text_value (cell : option Cell) : string :=
  match cell with Some (CUtf8 s) => s | _ => "" end.

(* code: adbc_ffi.rs 698-717 string_column *)
Definition string_column (b : Batch) (index : nat) (field : string) : adbc (list (option Cell)) :=
  '(t, cells) ← batch_column b index;
  if decide (t = AUtf8) then Ok cells
  else Err (to_adbc_error ("Expected string column for " +:+ field)).

(* code: adbc_ffi.rs 1006-1021 get_int_value *)
Definition get_int_value (t : ArrowType) (cell : option Cell) : option Z :=
  match t, cell with
  | AFloat64, Some (CFloat64 bits) => Some (f64_to_int I32 (f64_decode bits))
  | ADecimal128 _ _, Some (CDecimal128 v) => Some (wrap I32 v)
  | _, _ => None
  end.

(* code: adbc_ffi.rs 1050-1053 spells_affirmative *)
Definition spells_affirmative `{UnicodeCase} (flag : string) : bool :=
  bool_decide (to_uppercase flag ∈ ["TRUE"; "YES"; "1"]).

(* code: adbc_ffi.rs 1023-1048 get_nullable_value *)
Definition get_nullable_value `{UnicodeCase} (t : ArrowType) (cell : option Cell) : bool :=
  match t, cell with
  | ABoolean, Some (CBoolean b) => b
  | AUtf8, Some (CUtf8 s) => spells_affirmative s
  | _, _ => true
  end.

(** The cell of a column at a row of the batch: [value] panics behind its end. *)
Definition cell_at (cells : list (option Cell)) (row : nat) : adbc (option Cell) :=
  match cells !! row with Some cell => Ok cell | None => Panic end.
Definition text_at (cells : list (option Cell)) (row : nat) : adbc string :=
  text_value <$> cell_at cells row.

(** What each row of each batch gives, in order. *)
Definition over_rows {A} (b : Batch) (f : nat → adbc A) : adbc (list A) := mapM f (seq 0 (b_rows b)).
Definition over_batches {A} (f : Batch → adbc (list A)) (bs : list Batch) : adbc (list A) :=
  mjoin <$> mapM f bs.

(* code: adbc_ffi.rs 673-696 table_schema_fields_from *)
Definition table_schema_fields_from `{UnicodeCase} : list Batch → adbc (list Field) :=
  over_batches (λ b,
    names ← string_column b 0 "COLUMN_NAME";
    types ← string_column b 1 "COLUMN_TYPE";
    '(flag_type, nullable_flags) ← batch_column b 5;
    over_rows b (λ row,
      flag ← cell_at nullable_flags row;
      let nullable := get_nullable_value flag_type flag in
      type_name ← text_at types row;
      exasol_type ← map_err to_adbc_error (parse_exasol_type_string type_name);
      arrow_type ← map_err (λ e, to_adbc_error (show_conversion_error e))
                     (exasol_to_arrow exasol_type nullable);
      name ← text_at names row;
      Ok {| f_name := name; f_data_type := arrow_type; f_nullable := nullable |})).

(* code: adbc_ffi.rs 719-731 schema_names_from *)
Definition schema_names_from : list Batch → adbc (list string) :=
  over_batches (λ b,
    column ← string_column b 0 "SCHEMA_NAME";
    Ok (omap (M := list) (λ cell : option Cell, (λ c, text_value (Some c)) <$> cell) column)).

(** [map.entry(k).or_default().push(x)]. *)
Definition push_entry {K A} `{Countable K} (k : K) (x : A) (m : gmap K (list A)) : gmap K (list A) :=
  <[k := default [] (m !! k) ++ [x]]> m.

(** The rows grouped by their key, each group in the order of the rows. *)
Definition grouped {K A} `{Countable K} (rows : list (K * A)) : gmap K (list A) :=
  foldl (λ m '(k, x), push_entry k x m) ∅ rows.

(* code: adbc_ffi.rs 487-489 TablesBySchema *)
Abbreviation TablesBySchema := (gmap string (list (string * string))).
(* code: adbc_ffi.rs 120-121 ColumnMetadataMap *)
Abbreviation ColumnMetadataMap := (gmap (string * string) (list (string * Z * string))).

(* code: adbc_ffi.rs 733-748 tables_by_schema_from *)
Definition tables_by_schema_from (batches : list Batch) : adbc TablesBySchema :=
  grouped <$> over_batches (λ b,
    names ← string_column b 0 "OBJECT_NAME";
    types ← string_column b 1 "OBJECT_TYPE";
    schemas ← string_column b 2 "ROOT_NAME";
    over_rows b (λ row,
      schema ← text_at schemas row; name ← text_at names row; type ← text_at types row;
      Ok (schema, (name, type)))) batches.

(* code: adbc_ffi.rs 750-778 columns_by_table_from *)
Definition columns_by_table_from `{BuildProfile} (batches : list Batch) : adbc ColumnMetadataMap :=
  grouped <$> over_batches (λ b,
    names ← string_column b 0 "COLUMN_NAME";
    '(ordinal_type, ordinals) ← batch_column b 1;
    types ← string_column b 2 "COLUMN_TYPE";
    schemas ← string_column b 3 "COLUMN_SCHEMA";
    tables ← string_column b 4 "COLUMN_TABLE";
    over_rows b (λ row,
      cell ← cell_at ordinals row;
      position ← arith I32 (wrap I32 (Z.of_nat row) + 1);
      let ordinal := default position (get_int_value ordinal_type cell) in
      schema ← text_at schemas row; table ← text_at tables row;
      name ← text_at names row; type ← text_at types row;
      Ok ((schema, table), (name, ordinal, type)))) batches.

(** ** Catalog objects *)
Inductive ObjectDepth := DepthAll | DepthCatalogs | DepthSchemas | DepthTables | DepthColumns.

(* code: adbc_ffi.rs 780-790 ObjectDepthLevels *)
Record ObjectDepthLevels := { level_schemas : bool; level_tables : bool; level_columns : bool }.

(* code: adbc_ffi.rs 793-808 ObjectDepthLevels::from *)
Definition levels_of (depth : ObjectDepth) : ObjectDepthLevels :=
  match depth with
  | DepthCatalogs => {| level_schemas := false; level_tables := false; level_columns := false |}
  | DepthSchemas => {| level_schemas := true; level_tables := false; level_columns := false |}
  | DepthTables => {| level_schemas := true; level_tables := true; level_columns := false |}
  | DepthColumns | DepthAll =>
    {| level_schemas := true; level_tables := true; level_columns := true |}
  end.

(** The nested row of the result; a null list is [None]. The builders of the nested columns
    have the types that the batch's schema gives them, and the constraints are null. *)
Record ColumnEntry := { ce_name : string; ce_ordinal : Z; ce_type : string }.
Record TableEntry := { te_name : string; te_type : string; te_columns : option (list ColumnEntry) }.
Record SchemaEntry := { se_name : string; se_tables : option (list TableEntry) }.
Record CatalogEntry := { cat_name : string; cat_schemas : option (list SchemaEntry) }.

(* code: adbc_ffi.rs 859-877 append_table_columns *)
Definition append_table_columns (table_columns : list (string * Z * string)) : list ColumnEntry :=
  (λ '(name, ordinal, type), {| ce_name := name; ce_ordinal := ordinal; ce_type := type |})
    <$> table_columns.

(* code: adbc_ffi.rs 879-910 append_table_entry *)
Definition append_table_entry (table_name table_type : string)
    (table_columns : option (list (string * Z * string))) (include_columns : bool) : TableEntry :=
  {| te_name := table_name; te_type := table_type;
     te_columns := if include_columns then Some (append_table_columns (default [] table_columns))
                   else None |}.

(* code: adbc_ffi.rs 912-946 append_schema_entry *)
Definition append_schema_entry (schema_name : string) (tables : TablesBySchema)
    (columns : ColumnMetadataMap) (levels : ObjectDepthLevels) : SchemaEntry :=
  {| se_name := schema_name;
     se_tables :=
       if level_tables levels then
         Some ((λ '(table_name, table_type),
           append_table_entry table_name table_type (columns !! (schema_name, table_name))
             (level_columns levels)) <$> default [] (tables !! schema_name))
       else None |}.

(* code: adbc_ffi.rs 948-989 build_get_objects_batch *)
Definition build_get_objects_batch (schemas : list string) (tables : TablesBySchema)
    (columns : ColumnMetadataMap) (levels : ObjectDepthLevels) : CatalogEntry :=
  {| cat_name := "EXA";
     cat_schemas :=
       if level_schemas levels then
         Some ((λ schema_name, append_schema_entry schema_name tables columns levels) <$> schemas)
       else None |}.

(** ** Options *)
Inductive OptionValue :=
| OptString (s : string) | OptBytes (bs : list byte) | OptInt (i : Z) | OptDouble (bits : Z).

(** [Debug] of a text and of an option value, and [as_ref] of the standard options that a
    connection only keeps. *)
Class OptionText := {
  debug_string : string → string;
  debug_option : OptionValue → string;
  ReadOnly_key : string;
  IsolationLevel_key : string;
}.

Abbreviation Options := (gmap string OptionValue).

(* code: adbc_ffi.rs 547-556 require_string_option *)
Definition require_string_option (value : OptionValue) (requirement : string) : adbc string :=
  match value with
  | OptString text => Ok text
  | _ => Err (invalid_argument requirement)
  end.

Definition string_option (options : Options) (key : string) : option string :=
  match options !! key with Some (OptString s) => Some s | _ => None end.
Definition bytes_option (options : Options) (key : string) : option (list byte) :=
  match options !! key with Some (OptBytes b) => Some b | _ => None end.
Definition int_option (options : Options) (key : string) : option Z :=
  match options !! key with Some (OptInt i) => Some i | _ => None end.
Definition double_option (options : Options) (key : string) : option Z :=
  match options !! key with Some (OptDouble d) => Some d | _ => None end.

Definition not_found (message : string) : AdbcError := adbc_error message NotFound.

(* code: adbc_ffi.rs 558-563 catalog_is_exasol *)
Definition catalog_is_exasol (catalog : option string) : bool :=
  match catalog with None => true | Some name => eq_ignore_ascii_case name "EXA" end.

(* code: adbc_ffi.rs 200-205 unsupported_target_catalog *)
Definition unsupported_target_catalog (value : string) : AdbcError :=
  invalid_argument ("Target catalog " +:+ value +:+ " is not supported: Exasol has only the catalog EXA").

(* code: adbc_ffi.rs 186-198 check_ingest_target_catalog *)
Definition check_ingest_target_catalog `{OptionText} (catalog : option OptionValue) : adbc unit :=
  match catalog with
  | None => Ok ()
  | Some (OptString name) =>
    if catalog_is_exasol (Some name) then Ok ()
    else Err (unsupported_target_catalog (debug_string name))
  | Some other => Err (unsupported_target_catalog (debug_option other))
  end.

(* code: adbc_ffi.rs 207-229 check_ingest_column_types *)
Definition check_ingest_column_types `{ArrowTypeLib} (fields : list Field) : adbc unit :=
  _ ← mapM (λ field,
    map_err (λ e, invalid_argument ("Cannot ingest column '" +:+ f_name field +:+ "' of Arrow type "
              +:+ show_arrow_type (f_data_type field) +:+ ": " +:+ show_conversion_error e))
      (arrow_to_exasol (f_data_type field))) fields;
  map_err (λ e, invalid_argument ("Cannot ingest the bound columns: " +:+ show_import_error e))
    (check_schema_converts fields).

(** ** Databases *)
(** An option that the driver does not know is [FutureDatabaseOption]. *)
Inductive OptionDatabase :=
| DbUri | DbUsername | DbPassword | DbOther (key : string) | FutureDatabaseOption.

(* code: adbc_ffi.rs 1092-1108 FfiDatabase *)
Record FfiDatabase := {
  db_uri : option string;
  db_username : option string;
  db_password : option string;
  db_options : Options;
}.

(* code: adbc_ffi.rs 1111-1118 FfiDatabase::new *)
Definition FfiDatabase_new : FfiDatabase :=
  {| db_uri := None; db_username := None; db_password := None; db_options := ∅ |}.

(* code: adbc_ffi.rs 1149-1193 FfiDatabase::set_option *)
Definition db_set_option (key : OptionDatabase) (value : OptionValue) (db : FfiDatabase)
    : adbc unit * FfiDatabase :=
  match key, value with
  | DbUri, OptString s =>
    (Ok (), {| db_uri := Some s; db_username := db_username db; db_password := db_password db;
               db_options := db_options db |})
  | DbUri, _ => (Err (invalid_argument "URI must be a string"), db)
  | DbUsername, OptString s =>
    (Ok (), {| db_uri := db_uri db; db_username := Some s; db_password := db_password db;
               db_options := db_options db |})
  | DbUsername, _ => (Err (invalid_argument "Username must be a string"), db)
  | DbPassword, OptString s =>
    (Ok (), {| db_uri := db_uri db; db_username := db_username db; db_password := Some s;
               db_options := db_options db |})
  | DbPassword, _ => (Err (invalid_argument "Password must be a string"), db)
  | DbOther key, value =>
    (Ok (), {| db_uri := db_uri db; db_username := db_username db; db_password := db_password db;
               db_options := <[key := value]> (db_options db) |})
  | FutureDatabaseOption, _ => (Err (adbc_error "Unsupported database option" NotImplemented), db)
  end.

(* code: adbc_ffi.rs 1195-1222 FfiDatabase::get_option_string *)
Definition db_get_option_string (db : FfiDatabase) (key : OptionDatabase) : adbc string :=
  match key with
  | DbUri => ok_or (not_found "URI not set") (db_uri db)
  | DbUsername => ok_or (not_found "Username not set") (db_username db)
  | DbPassword => Err (invalid_argument "Password cannot be retrieved")
  | DbOther key => ok_or (not_found ("Option " +:+ key +:+ " not found or not a string"))
                     (string_option (db_options db) key)
  | FutureDatabaseOption => Err (not_found "Option not found")
  end.

(** The options of a key that is not a standard one. *)
Definition other_db_key (key : OptionDatabase) : option string :=
  match key with DbOther key => Some key | _ => None end.

(* code: adbc_ffi.rs 1224-1234 FfiDatabase::get_option_bytes *)
Definition db_get_option_bytes (db : FfiDatabase) (key : OptionDatabase) : adbc (list byte) :=
  ok_or (not_found "Option not found or not bytes")
    (key ← other_db_key key; bytes_option (db_options db) key).
(* code: adbc_ffi.rs 1236-1246 FfiDatabase::get_option_int *)
Definition db_get_option_int (db : FfiDatabase) (key : OptionDatabase) : adbc Z :=
  ok_or (not_found "Option not found or not an integer")
    (key ← other_db_key key; int_option (db_options db) key).
(* code: adbc_ffi.rs 1248-1258 FfiDatabase::get_option_double *)
Definition db_get_option_double (db : FfiDatabase) (key : OptionDatabase) : adbc Z :=
  ok_or (not_found "Option not found or not a double")
    (key ← other_db_key key; double_option (db_options db) key).

(* code: adbc_ffi.rs 1076-1085 FfiDriver::new_database_with_opts *)
Definition new_database_with_opts (opts : list (OptionDatabase * OptionValue)) : adbc FfiDatabase :=
  foldl (λ r '(key, value), db ← r; match db_set_option key value db with
                                    | (Ok _, db) => Ok db
                                    | (Err e, _) => Err e
                                    | (Panic, _) => Panic
                                    end) (Ok FfiDatabase_new) opts.

(** ** Catalog listings *)
(** The text in a column of a batch at a row. *)
Definition text_in (b : Batch) (col row : nat) : string :=
  text_value (default None (default [] (b_columns b !! col) !! row)).

Definition type_in (b : Batch) (col : nat) : ArrowType :=
  match fields_of (b_schema b) !! col with Some f => f_data_type f | None => AUtf8 end.

(** The rows of a listing in order, each as [f] reads it. *)
Definition listing {A} (f : Batch → nat → A) (bs : list Batch) : list A :=
  b ← bs; f b <$> seq 0 (b_rows b).

Definition table_listed (b : Batch) (row : nat) : string * (string * string) :=
  (text_in b 2 row, (text_in b 0 row, text_in b 1 row)).

(** A position that is no number the driver reads is the row's own, from 1. *)
Definition ordinal_in (b : Batch) (row : nat) : Z :=
  default (wrap I32 (wrap I32 (Z.of_nat row) + 1))
    (get_int_value (type_in b 1) (default None (default [] (b_columns b !! 1%nat) !! row))).

Definition column_listed (b : Batch) (row : nat) : (string * string) * (string * Z * string) :=
  ((text_in b 3 row, text_in b 4 row), (text_in b 0 row, ordinal_in b row, text_in b 2 row)).

Lemma over_batches_listing {A} (f : Batch → adbc (list A)) (g : Batch → nat → A) bs rows :
  (∀ b l, f b = Ok l → l = g b <$> seq 0 (b_rows b)) →
  over_batches f bs = Ok rows → rows = listing g bs.
Proof.
  intros Hf Hr. apply fmap_ok in Hr as (ls & Hm & ->). unfold listing.
  apply mapM_outcome_ok in Hm. induction Hm as [|b l bs ls Hb _ IH]; [done|].
  cbn. rewrite (Hf _ _ Hb). f_equal. exact IH.
Qed.

Lemma over_rows_listing {A} b (f : nat → adbc A) (g : nat → A) l :
  (∀ row y, f row = Ok y → y = g row) → over_rows b f = Ok l → l = g <$> seq 0 (b_rows b).
Proof.
  intros Hf Hr. apply mapM_outcome_ok in Hr.
  induction Hr as [|row y rows ys Hy _ IH]; [done|]. cbn. by rewrite (Hf _ _ Hy), IH.
Qed.

Lemma string_column_in b i field cells : string_column b i field = Ok cells →
  b_columns b !! i = Some cells.
Proof.
  unfold string_column, batch_column. unfold_monad.
  destruct (fields_of _ !! i), (b_columns b !! i); try done. case_decide; [|done]. by intros [= ->].
Qed.

Lemma text_at_in b i cells row s : b_columns b !! i = Some cells → text_at cells row = Ok s →
  s = text_in b i row.
Proof.
  intros Hc Ht. apply fmap_ok in Ht as (cell & Hcell & ->). unfold text_in. rewrite Hc. cbn.
  revert Hcell. unfold cell_at. by destruct (cells !! row); [intros [= ->]|].
Qed.

Lemma grouped_app {K A} `{Countable K} (rows : list (K * A)) k x :
  grouped (rows ++ [(k, x)]) = push_entry k x (grouped rows).
Proof. unfold grouped. by rewrite foldl_app. Qed.

(** The group of a key: its rows in order. *)
Lemma grouped_lookup {K A} `{Countable K} (rows : list (K * A)) k :
  default [] (grouped rows !! k) = snd <$> filter (λ r, r.1 = k) rows.
Proof.
  induction rows as [|[k' x] rows IH] using rev_ind; [by cbn; rewrite lookup_empty|].
  rewrite grouped_app, filter_app, fmap_app. unfold push_entry.
  destruct (decide (k' = k)) as [->|Hne].
  - rewrite lookup_insert_eq. cbn [default]. rewrite IH, filter_cons_True by done. done.
  - rewrite lookup_insert_ne by done. rewrite IH, filter_cons_False by done. cbn. by rewrite app_nil_r.
Qed.

Ltac listed_columns :=
  repeat match goal with
  | H : mbind _ ?m = Ok _ |- _ => apply bind_ok in H as (? & ? & H)
  | H : string_column _ _ _ = Ok _ |- _ => apply string_column_in in H
  end.

Lemma tables_listed bs tables : tables_by_schema_from bs = Ok tables →
  tables = grouped (listing table_listed bs).
Proof.
  intros Ht. apply fmap_ok in Ht as (rows & Hr & ->). f_equal.
  revert Hr. apply over_batches_listing. intros b l Hl. listed_columns.
  revert Hl. apply over_rows_listing. intros row y Hy. listed_columns. injection Hy as <-.
  unfold table_listed. repeat f_equal; by eapply text_at_in.
Qed.

Lemma columns_listed `{BuildProfile} bs columns : columns_by_table_from bs = Ok columns →
  columns = grouped (listing column_listed bs).
Proof.
  intros Ht. apply fmap_ok in Ht as (rows & Hr & ->). f_equal.
  revert Hr. apply over_batches_listing. intros b l Hl. listed_columns.
  destruct x0 as [t ordinals]. listed_columns.
  revert Hl. apply over_rows_listing. intros row y Hy. do 2 (apply bind_ok in Hy as (? & ? & Hy)).
  cbn zeta in Hy. listed_columns. injection Hy as <-.
  unfold column_listed.
  rewrite <- (text_at_in b 3 _ row _ ltac:(eassumption) ltac:(eassumption)).
  rewrite <- (text_at_in b 4 _ row _ ltac:(eassumption) ltac:(eassumption)).
  rewrite <- (text_at_in b 0 _ row _ ltac:(eassumption) ltac:(eassumption)).
  rewrite <- (text_at_in b 2 _ row _ ltac:(eassumption) ltac:(eassumption)).
  do 3 f_equal. unfold ordinal_in. f_equal.
  - revert H6. unfold arith. case_match; [|by destruct overflow_checks; intros [= <-]].
    intros [= <-]. symmetry. by apply wrap_id, in_rangeb_true.
  - unfold type_in. revert H1. unfold batch_column.
    destruct (fields_of _ !! 1%nat), (b_columns b !! 1%nat); try done. intros [= <- <-]. cbn.
    revert H5. unfold cell_at. by case_match; [intros [= <-]|].
Qed.

Lemma schemas_listed bs names : schema_names_from bs = Ok names →
  names = (b ← bs; omap (λ cell : option Cell, (λ c, text_value (Some c)) <$> cell)
                     (default [] (b_columns b !! O))).
Proof.
  intros Hs. apply fmap_ok in Hs as (ls & Hm & ->). apply mapM_outcome_ok in Hm.
  induction Hm as [|b l bs ls Hb _ IH]; [done|]. cbn. apply bind_ok in Hb as (cells & Hc & Hb).
  injection Hb as <-. apply string_column_in in Hc. rewrite Hc. cbn. f_equal. exact IH.
Qed.

(** C39: catalog objects at full depth: under every schema of the schema listing, and in its
    order, stand exactly the tables that the table listing has for it, in the listing's
    order, and under every table exactly the columns listed for it, with a position of their
    own row where theirs is no number; at a lower depth the deeper lists are null. *)
Theorem catalog_complete `{BuildProfile} sbatches tbatches cbatches schemas tables columns :
  schema_names_from sbatches = Ok schemas →
  tables_by_schema_from tbatches = Ok tables →
  columns_by_table_from cbatches = Ok columns →
  let columns_of schema table := filter (λ r, r.1 = (schema, table)) (listing column_listed cbatches) in
  let tables_of schema := filter (λ r, r.1 = schema) (listing table_listed tbatches) in
  schemas = (b ← sbatches; omap (λ cell : option Cell, (λ c, text_value (Some c)) <$> cell)
               (default [] (b_columns b !! O))) ∧
  build_get_objects_batch schemas tables columns (levels_of DepthAll)
  = {| cat_name := "EXA";
       cat_schemas := Some ((λ schema,
         {| se_name := schema;
            se_tables := Some ((λ '(_, (table, type)),
              {| te_name := table; te_type := type;
                 te_columns := Some ((λ '(_, (name, ordinal, type)),
                   {| ce_name := name; ce_ordinal := ordinal; ce_type := type |})
                   <$> columns_of schema table) |}) <$> tables_of schema) |}) <$> schemas) |} ∧
  (∀ schema, schema ∈ default [] (cat_schemas (build_get_objects_batch schemas tables columns
               (levels_of DepthTables))) →
     Forall (λ table, te_columns table = None) (default [] (se_tables schema))) ∧
  cat_schemas (build_get_objects_batch schemas tables columns (levels_of DepthSchemas))
  = Some ((λ schema, {| se_name := schema; se_tables := None |}) <$> schemas) ∧
  cat_schemas (build_get_objects_batch schemas tables columns (levels_of DepthCatalogs)) = None.
Proof.
  intros Hs Ht Hc columns_of tables_of. split; [by apply schemas_listed|].
  apply tables_listed in Ht as ->. apply columns_listed in Hc as ->.
  split; [|split; [|done]].
  - unfold build_get_objects_batch. cbn [level_schemas levels_of]. do 2 f_equal.
    apply list_fmap_ext. intros _ schema _. unfold append_schema_entry. cbn [level_tables levels_of].
    do 2 f_equal. rewrite grouped_lookup, <- list_fmap_compose. apply list_fmap_ext.
    intros _ [s [table type]] _. cbn. unfold append_table_entry. do 2 f_equal.
    unfold append_table_columns. rewrite grouped_lookup, <- list_fmap_compose.
    by apply list_fmap_ext; intros _ [? [[? ?] ?]] _.
  - intros schema (name & -> & _)%list_elem_of_fmap. cbn. apply Forall_fmap, Forall_forall.
    by intros [table type] _.
Qed.

(** ** CREATE TABLE *)
(** A reader of the table's name, quoted in one or two parts. *)
Definition read_table (s : string) : option (list string * string) :=
  '(a, rest) ← read_quoted dquote s;
  match strip_prefix "." rest with
  | Some rest => '(b, rest) ← read_quoted dquote rest; Some ([a; b], rest)
  | None => Some ([a], rest)
  end.

(** And of the columns: a quoted name and a text without quotes. *)
Fixpoint read_columns (fuel : nat) (s : string) : option (list (string * string)) :=
  match fuel with
  | O => None
  | S fuel =>
    '(name, rest) ← read_quoted dquote s;
    match split_once dquote rest with
    | None => type ← strip_suffix ")" rest; Some [(name, type)]
    | Some (type, after) =>
      type ← strip_suffix ", " type;
      more ← read_columns fuel (String dquote after);
      Some ((name, type) :: more)
    end
  end.

Definition read_create (head ddl : string) : option (list string * list (string * string)) :=
  s ← strip_prefix (head +:+ " ") ddl;
  '(table, rest) ← read_table s;
  columns ← strip_prefix " (" rest;
  cs ← read_columns (str_len columns) columns;
  Some (table, cs).

Definition table_parts (schema : option string) (table : string) : list string :=
  match schema with
  | Some schema => [schema; table]
  | None => match split_once "." table with Some (a, b) => [a; b] | None => [table] end
  end.

Definition type_text (f : Field) (e : ExasolType) : string :=
  " " +:+ to_ddl_type e +:+ (if f_nullable f then "" else " NOT NULL").

Lemma type_text_quoteless f e : contains_char dquote (type_text f e) = false.
Proof.
  unfold type_text. rewrite !contains_char_app.
  assert (contains_char dquote (to_ddl_type e) = false) as ->.
  { destruct e as [| | | | | |[]| | |[]|]; cbn [to_ddl_type];
      rewrite ?contains_char_app, ?show_int_no_char by done; reflexivity. }
  by destruct (f_nullable f).
Qed.

Lemma column_definition_text f e :
  column_definition f (to_ddl_type e) = quoted dquote (f_name f) +:+ type_text f e.
Proof. unfold column_definition, type_text, quote_identifier. done. Qed.

(** A table's name from its parts, and a statement from its columns. *)
Definition table_name (parts : list string) : string := String.concat "." (quote_identifier <$> parts).

Definition column_text (c : string * string) : string := quote_identifier c.1 +:+ c.2.

Definition create_text (head : string) (parts : list string) (columns : list (string * string))
    : string :=
  head +:+ " " +:+ table_name parts +:+ " (" +:+ String.concat ", " (column_text <$> columns) +:+ ")".

Lemma qualified_parts schema table :
  build_qualified_table_name schema table = table_name (table_parts schema table) ∧
  (length (table_parts schema table) = 1 ∨ length (table_parts schema table) = 2)%nat.
Proof.
  unfold build_qualified_table_name, table_parts. destruct schema; [by auto|].
  destruct (split_once "." table) as [[]|]; by auto.
Qed.

Lemma read_table_name parts rest :
  (length parts = 1 ∨ length parts = 2)%nat →
  not_quote_head dquote rest = true → strip_prefix "." rest = None →
  read_table (table_name parts +:+ rest) = Some (parts, rest).
Proof.
  intros Hl Hq Hd. unfold table_name, read_table, quote_identifier.
  destruct parts as [|x [|y [|]]]; cbn in Hl; try lia; cbn [fmap list_fmap String.concat].
  - rewrite read_quoted_quoted by done. cbn [mbind option_bind]. by rewrite Hd.
  - rewrite !str_app_assoc. rewrite read_quoted_quoted by done. cbn [mbind option_bind].
    rewrite strip_prefix_app. by rewrite read_quoted_quoted.
Qed.

(** Text behind a column's name: it has no quote, and is no part of the words CREATE TABLE. *)
Definition type_like (t : string) : Prop :=
  contains_char dquote t = false ∧ not_quote_head dquote t = true ∧
  (contains_char "B" t = false ∨ contains_char "C" t = false).

Lemma read_columns_text (cs : list (string * string)) fuel :
  cs ≠ [] → Forall (type_like ∘ snd) cs → (length cs ≤ fuel)%nat →
  read_columns fuel (String.concat ", " (column_text <$> cs) +:+ ")") = Some cs.
Proof.
  intros Hne Hcs. revert fuel Hne. induction Hcs as [|[name type] cs (Ht & Hq & _) Hcs IH]; [done|].
  intros fuel _ Hf. cbn [snd compose] in Ht, Hq.
  destruct fuel as [|fuel]; [cbn in Hf; lia|]. cbn [read_columns].
  destruct cs as [|c2 cs].
  - cbn [fmap list_fmap String.concat]. unfold column_text, quote_identifier. cbn [fst snd].
    rewrite str_app_assoc, read_quoted_quoted by (by destruct type). cbn [mbind option_bind].
    rewrite split_once_absent; [by rewrite strip_suffix_app|]. by rewrite contains_char_app, Ht.
  - set (more := c2 :: cs) in *.
    assert (String.concat ", " (column_text <$> (name, type) :: more) +:+ ")"
      = quoted dquote name +:+ (type +:+ ", ") +:+
        (String.concat ", " (column_text <$> more) +:+ ")")) as ->.
    { transitivity ((column_text (name, type) +:+ ", " +:+
        String.concat ", " (column_text <$> more)) +:+ ")"); [reflexivity|].
      unfold column_text, quote_identifier. cbn [fst snd]. by rewrite !str_app_assoc. }
    rewrite read_quoted_quoted by (by destruct type). cbn [mbind option_bind].
    assert (∃ after, String.concat ", " (column_text <$> more) +:+ ")" = String dquote after)
      as [after Ha].
    { unfold more. destruct cs; cbn [fmap list_fmap String.concat];
        unfold column_text, quote_identifier, quoted; rewrite !str_app_cons; by eexists. }
    rewrite Ha. rewrite split_once_cons by (by rewrite contains_char_app, Ht).
    rewrite strip_suffix_app. cbn [mbind option_bind].
    rewrite <- Ha, IH; [done|by unfold more|cbn [length] in Hf; lia].
Qed.

Lemma concat_length sep ws :
  Forall (λ w, 1 ≤ str_len w)%nat ws → (length ws ≤ str_len (String.concat sep ws))%nat.
Proof.
  induction 1 as [|w ws Hw Hws IH]; [cbn; lia|]. destruct ws as [|w2 ws]; [exact Hw|].
  transitivity (str_len (w +:+ sep +:+ String.concat sep (w2 :: ws))); [|reflexivity].
  rewrite !str_len_app. cbn [length] in *. lia.
Qed.

Lemma read_create_text head parts columns :
  (length parts = 1 ∨ length parts = 2)%nat → columns ≠ [] → Forall (type_like ∘ snd) columns →
  read_create head (create_text head parts columns) = Some (parts, columns).
Proof.
  intros Hp Hne Hc. unfold read_create, create_text. rewrite <- str_app_assoc, strip_prefix_app.
  cbn [mbind option_bind]. rewrite read_table_name by done. cbn [mbind option_bind].
  rewrite strip_prefix_app. cbn [mbind option_bind]. rewrite read_columns_text; [done..|].
  rewrite str_len_app. etrans; [|apply Nat.le_add_r].
  etrans; [|apply concat_length, Forall_fmap, Forall_forall; intros c _;
            cbn; unfold column_text, quote_identifier, quoted; rewrite str_app_cons; cbn; lia].
  by rewrite length_fmap.
Qed.

(** ** Replacing a text *)
Section Replace.
Context (p to : string) (c : ascii).
Context (p_nonempty : p ≠ ""%string) (p_free : contains_char c p = false)
  (to_free : contains_char c to = false).

Lemma starts_with_split a b : starts_with p (a +:+ String c b) = starts_with p a.
Proof using p_free.
  clear p_nonempty to_free to. unfold starts_with. revert a p_free.
  induction p as [|x p' IH]; intros a Hp; [by destruct a|]. cbn [contains_char] in Hp.
  apply orb_false_iff in Hp as [Hx Hp]. destruct a as [|y a].
  - cbn [strip_prefix]. rewrite str_app_nil_l. cbn [strip_prefix]. by rewrite Hx.
  - rewrite str_app_cons. cbn [strip_prefix]. destruct (Ascii.eqb x y); [by apply IH|done].
Qed.

Lemma starts_with_length s : starts_with p s = true → (str_len p ≤ str_len s)%nat.
Proof.
  unfold starts_with. destruct (strip_prefix p s) as [r|] eqn:E; [|done].
  intros _. apply strip_prefix_Some in E as ->. rewrite str_len_app. lia.
Qed.

(** An occurrence lies on one side of a character that the text does not have. *)
Lemma replace_split a b k :
  (k ≤ str_len a)%nat →
  replace_at p to k (a +:+ String c b) = replace_at p to k a +:+ String c (replace_at p to 0 b).
Proof using p_nonempty p_free.
  revert k. induction a as [|x a IH]; intros k Hk.
  - assert (k = 0)%nat as -> by (cbn in Hk; lia). rewrite str_app_nil_l. cbn [replace_at].
    assert (starts_with p (String c b) = false) as ->; [|by rewrite str_app_nil_l].
    rewrite <- (str_app_nil_l (String c b)), starts_with_split. by destruct p.
  - rewrite str_app_cons. cbn [replace_at]. destruct k as [|k].
    + rewrite <- str_app_cons, starts_with_split.
      destruct (starts_with p (String x a)) eqn:E.
      * rewrite IH, str_app_assoc; [done|]. apply starts_with_length in E.
        unfold str_len in *. cbn [String.length] in E. lia.
      * rewrite IH, str_app_cons by lia. done.
    + apply IH. unfold str_len in *. cbn [String.length] in Hk. lia.
Qed.

Lemma replace_char_free k s : contains_char c s = false → contains_char c (replace_at p to k s) = false.
Proof using to_free.
  revert k. induction s as [|a s IH]; intros k Hs; [done|]. cbn [contains_char] in Hs.
  apply orb_false_iff in Hs as [Ha Hs]. cbn [replace_at]. destruct k; [|by apply IH].
  destruct (starts_with p _); [by rewrite contains_char_app, to_free, IH|].
  cbn [contains_char]. by rewrite Ha, IH.
Qed.

Lemma replace_head b : replace_at p to 0 (String c b) = String c (replace_at p to 0 b).
Proof using p_nonempty p_free.
  rewrite <- (str_app_nil_l (String c b)), replace_split by (cbn; lia). done.
Qed.

(** It is replaced inside a quoted name as inside the name. *)
Lemma replace_doubled s rest :
  replace_str p to (replace_char c (String c (String c "")) s +:+ String c rest)
  = replace_char c (String c (String c "")) (replace_str p to s) +:+ String c (replace_str p to rest).
Proof using p_nonempty p_free to_free.
  unfold replace_str. induction s as [s IH] using (induction_ltof1 _ str_len). unfold ltof in IH.
  destruct (split_once c s) as [[a b]|] eqn:E.
  - apply split_once_Some in E as [-> Ha].
    rewrite (replace_split a b), !replace_char_app, !replace_char_absent
      by (lia || done || by apply replace_char_free).
    cbn [replace_char]. rewrite Ascii.eqb_refl.
    rewrite ?str_app_assoc, ?str_app_cons, ?str_app_nil_l.
    rewrite (replace_split a), replace_head, IH by (lia || (rewrite str_len_app; unfold str_len; cbn [String.length]; lia)).
    by rewrite (replace_char_absent c _ (replace_at p to 0 a)) by (by apply replace_char_free).
  - apply split_once_None in E.
    rewrite !replace_char_absent by (done || by apply replace_char_free). by rewrite replace_split by lia.
Qed.

Lemma replace_quoted name rest :
  replace_str p to (quoted c name +:+ rest)
  = quoted c (replace_str p to name) +:+ replace_str p to rest.
Proof using p_nonempty p_free to_free.
  unfold quoted. rewrite !str_app_cons, !str_app_assoc, !str_app_cons, !str_app_nil_l.
  unfold replace_str at 1.
  rewrite replace_head. f_equal. apply replace_doubled.
Qed.

Lemma replace_before a b :
  replace_str p to (a +:+ String c b) = replace_str p to a +:+ replace_str p to (String c b).
Proof using p_nonempty p_free.
  unfold replace_str. by rewrite replace_split, replace_head by lia.
Qed.
End Replace.

Lemma replace_absent p to s : contains_str p s = false → replace_str p to s = s.
Proof.
  unfold replace_str. induction s as [|a s IH]; [done|]. cbn [contains_str replace_at].
  intros [Hp Hs]%orb_false_iff. by rewrite Hp, IH.
Qed.

(** A longer text makes the text longer where it is put in. *)
Lemma replace_length p to k s :
  (1 ≤ str_len p ≤ str_len to)%nat → (str_len s ≤ str_len (replace_at p to k s) + k)%nat.
Proof.
  intros Hl. revert k. induction s as [|a s IH]; intros k; [cbn; lia|]. cbn [replace_at].
  destruct k as [|k]; [|specialize (IH k); unfold str_len in *; cbn [String.length]; lia].
  destruct (starts_with p _) eqn:E.
  - apply starts_with_length in E. rewrite str_len_app. specialize (IH (str_len p - 1)%nat).
    unfold str_len in *. cbn [String.length] in *. lia.
  - specialize (IH O). unfold str_len in *. cbn [String.length]. lia.
Qed.

Lemma replace_longer p to s :
  (1 ≤ str_len p < str_len to)%nat → contains_str p s = true →
  (str_len s < str_len (replace_str p to s))%nat.
Proof.
  unfold replace_str. intros Hl. induction s as [|a s IH]; cbn [contains_str replace_at].
  - rewrite orb_false_r. intros E%starts_with_length. cbn in E. lia.
  - destruct (starts_with p (String a s)) eqn:E; cbn [orb]; intros Hs.
    + apply starts_with_length in E. rewrite str_len_app.
      pose proof (replace_length p to (str_len p - 1) s ltac:(lia)).
      unfold str_len in *. cbn [String.length] in *. lia.
    + specialize (IH Hs). unfold str_len in *. cbn [String.length]. lia.
Qed.

(** ** The words IF NOT EXISTS *)
Lemma contains_str_char c p s :
  contains_char c p = true → contains_char c s = false → contains_str p s = false.
Proof.
  intros Hp. assert (∀ p s, contains_char c p = true → contains_char c s = false →
    starts_with p s = false) as Hs.
  { clear. intros p. unfold starts_with. induction p as [|a p IH]; [done|]. intros [|b s]; [done|].
    cbn [contains_char strip_prefix]. intros Hp [Hb Hs]%orb_false_iff.
    destruct (Ascii.eqb_spec a b) as [->|]; [|done]. rewrite Hb in Hp. by apply IH. }
  induction s as [|a s IH]; intros Hc; cbn [contains_str]; rewrite Hs by done; [done|].
  cbn [contains_char] in Hc. apply orb_false_iff in Hc as [_ Hc]. by apply IH.
Qed.

Lemma unchanged_type t suffix :
  contains_char "B" t = false ∨ contains_char "C" t = false →
  suffix = ")" ∨ suffix = ", " → if_not_exists (t +:+ suffix) = t +:+ suffix.
Proof.
  intros Ht Hs. apply replace_absent.
  destruct Ht as [Ht|Ht]; [apply (contains_str_char "B")|apply (contains_str_char "C")]; try done;
    rewrite contains_char_app, Ht; by destruct Hs as [->| ->].
Qed.

Lemma inserted_before a b :
  if_not_exists (a +:+ String dquote b) = if_not_exists a +:+ if_not_exists (String dquote b).
Proof. by apply replace_before. Qed.

Lemma inserted_name name rest :
  if_not_exists (quote_identifier name +:+ rest)
  = quote_identifier (if_not_exists name) +:+ if_not_exists rest.
Proof. by apply replace_quoted. Qed.

Definition renamed (c : string * string) : string * string := (if_not_exists c.1, c.2).

Lemma columns_head cs :
  cs ≠ [] → ∃ after, String.concat ", " (column_text <$> cs) +:+ ")" = String dquote after.
Proof.
  destruct cs as [|c [|c2 cs]]; [done|..]; intros _; cbn [fmap list_fmap String.concat];
    unfold column_text, quote_identifier, quoted; rewrite !str_app_cons; by eexists.
Qed.

Lemma inserted_columns cs :
  cs ≠ [] → Forall (type_like ∘ snd) cs →
  if_not_exists (String.concat ", " (column_text <$> cs) +:+ ")")
  = String.concat ", " (column_text <$> (renamed <$> cs)) +:+ ")".
Proof.
  intros Hne Hcs. revert Hne. induction Hcs as [|[name type] cs (_ & _ & Ht) Hcs IH]; [done|].
  intros _. cbn [snd] in Ht. destruct cs as [|c2 cs].
  - cbn [fmap list_fmap String.concat]. unfold column_text, renamed. cbn [fst snd].
    by rewrite !str_app_assoc, inserted_name, unchanged_type by auto.
  - set (more := c2 :: cs) in *. destruct (columns_head more ltac:(done)) as [after Ha].
    assert (∀ c, String.concat ", " (column_text <$> c :: more) +:+ ")"
      = quote_identifier c.1 +:+ (c.2 +:+ ", ") +:+ (String.concat ", " (column_text <$> more) +:+ ")"))
      as Hc.
    { intros c. transitivity ((column_text c +:+ ", " +:+
        String.concat ", " (column_text <$> more)) +:+ ")"); [reflexivity|].
      unfold column_text. by rewrite !str_app_assoc. }
    rewrite Hc, inserted_name, Ha, inserted_before, <- Ha, IH by done.
    rewrite unchanged_type by auto. unfold more. cbn [fmap list_fmap].
    transitivity ((column_text (renamed (name, type)) +:+ ", " +:+
      String.concat ", " (column_text <$> (renamed <$> c2 :: cs))) +:+ ")"); [|reflexivity].
    unfold column_text at 3, renamed at 3. cbn [fst snd]. by rewrite !str_app_assoc.
Qed.

Lemma inserted_between a name rest :
  if_not_exists (a +:+ quote_identifier name +:+ rest)
  = if_not_exists a +:+ quote_identifier (if_not_exists name) +:+ if_not_exists rest.
Proof.
  rewrite <- inserted_name. unfold quote_identifier, quoted. rewrite !str_app_cons.
  apply inserted_before.
Qed.

Lemma inserted_text parts columns :
  (length parts = 1 ∨ length parts = 2)%nat → columns ≠ [] → Forall (type_like ∘ snd) columns →
  if_not_exists (create_text "CREATE TABLE" parts columns)
  = create_text "CREATE TABLE IF NOT EXISTS" (if_not_exists <$> parts) (renamed <$> columns).
Proof.
  intros Hl Hne Hc. destruct (columns_head columns Hne) as [after Ha].
  pose proof (inserted_columns columns Hne Hc) as Hcols. unfold create_text.
  set (text := String.concat ", " (column_text <$> columns) +:+ ")") in *.
  assert (if_not_exists (" (" +:+ text) = " (" +:+ if_not_exists text) as Hrest
    by (by rewrite Ha, inserted_before).
  rewrite <- Hcols. unfold table_name.
  destruct parts as [|x [|y [|]]]; cbn in Hl; try lia; cbn [fmap list_fmap String.concat].
  - change ("CREATE TABLE" +:+ " " +:+ ?t) with ("CREATE TABLE " +:+ t).
    by rewrite inserted_between, Hrest.
  - rewrite !str_app_assoc.
    change ("CREATE TABLE" +:+ " " +:+ ?t) with ("CREATE TABLE " +:+ t).
    by rewrite inserted_between, inserted_between, Hrest.
Qed.

Lemma type_text_like f e : type_like (type_text f e).
Proof.
  split; [apply type_text_quoteless|]. split; [done|]. unfold type_text.
  destruct e as [| | | | | |[]| | |[]|], (f_nullable f); cbn [to_ddl_type];
    rewrite ?contains_char_app, ?show_int_no_char by done; vm_compute; auto.
Qed.

(** C40: the CREATE TABLE statement of an ingest reads back as its table, in one or two parts,
    and its columns with their types, whatever the names hold, and has no column of a type
    without an Exasol counterpart. The statement for existing tables reads back as the same
    with the words IF NOT EXISTS, except that every name that holds the words CREATE TABLE
    is another name there: the words IF NOT EXISTS are put into it as well. *)
Theorem ddl_reads_back `{ArrowTypeLib} schema table fields ddl : fields ≠ [] →
  generate_create_table_ddl (build_qualified_table_name schema table) fields = Ok ddl →
  ∃ types, Forall2 (λ f e, arrow_to_exasol (f_data_type f) = Ok e) fields types ∧
    let columns := zip_with (λ f e, (f_name f, type_text f e)) fields types in
    read_create "CREATE TABLE" ddl = Some (table_parts schema table, columns) ∧
    read_create "CREATE TABLE IF NOT EXISTS" (if_not_exists ddl)
    = Some (if_not_exists <$> table_parts schema table,
            (λ c, (if_not_exists c.1, c.2)) <$> columns) ∧
    ∀ name, if_not_exists name = name ↔ contains_str "CREATE TABLE" name = false.
Proof.
  intros Hne Hd. apply bind_ok in Hd as (texts & Hc & Hd). injection Hd as <-.
  apply mapM_outcome_ok in Hc.
  assert (∃ types, Forall2 (λ f e, arrow_to_exasol (f_data_type f) = Ok e) fields types ∧
    texts = column_text <$> zip_with (λ f e, (f_name f, type_text f e)) fields types)
    as (types & Ht & ->).
  { clear Hne. induction Hc as [|f c fields texts Hf _ (types & Ht & ->)]; [by exists []|].
    apply bind_ok in Hf as (e & He & Hf). injection Hf as <-.
    exists (e :: types). split; [|done]. constructor; [|done].
    by destruct (arrow_to_exasol (f_data_type f)); [injection He as ->| |]. }
  exists types. split; [done|]. cbn zeta. set (columns := zip_with _ _ _).
  destruct (qualified_parts schema table) as [-> Hp].
  change ("CREATE TABLE " +:+ ?t) with ("CREATE TABLE" +:+ " " +:+ t).
  fold (create_text "CREATE TABLE" (table_parts schema table) columns).
  assert (columns ≠ []) as Hcs by (unfold columns; by destruct Ht).
  assert (Forall (type_like ∘ snd) columns) as Hlike.
  { unfold columns. clear. revert types. induction fields; intros [|e types]; constructor;
      [apply type_text_like|done]. }
  split; [by apply read_create_text|]. split.
  - rewrite inserted_text by done. apply read_create_text.
    + by rewrite length_fmap.
    + by destruct columns.
    + by rewrite Forall_fmap.
  - intros name. split; [|apply replace_absent].
    intros Hn. destruct (contains_str "CREATE TABLE" name) eqn:E; [|done].
    apply (replace_longer _ "CREATE TABLE IF NOT EXISTS") in E; [|cbn; lia].
    fold (if_not_exists name) in E. rewrite Hn in E. lia.
Qed.
(** ** At a concrete listing *)
Definition text_batch (columns : list (list string)) (rows : nat) : Batch :=
  {| b_schema := {| s_fields := (λ _ : list string, {| mf_field := {| f_name := "C"; f_data_type := AUtf8;
                      f_nullable := true |}; mf_metadata := ∅ |}) <$> columns;
                    s_metadata := ∅ |};
     b_columns := (λ cells : list string, (λ s, Some (CUtf8 s)) <$> cells) <$> columns;
     b_rows := rows |}.

Lemma catalog_complete_witness :
  cat_schemas (build_get_objects_batch ["S"; "T"]
    (grouped [("S", ("A", "TABLE")); ("T", ("B", "VIEW")); ("S", ("C", "VIEW"))]%string)
    (grouped [(("S", "A"), ("X", 1, "DATE")); (("S", "A"), ("Y", 2, "BOOLEAN"))]%string)
    (levels_of DepthSchemas))
  = Some [{| se_name := "S"; se_tables := None |}; {| se_name := "T"; se_tables := None |}].
Proof.
  assert (schema_names_from [text_batch [["S"; "T"]]%string 2] = Ok ["S"; "T"]%string) as H1
    by reflexivity.
  assert (tables_by_schema_from [text_batch [["A"; "B"; "C"]; ["TABLE"; "VIEW"; "VIEW"];
    ["S"; "T"; "S"]]%string 3]
    = Ok (grouped [("S", ("A", "TABLE")); ("T", ("B", "VIEW")); ("S", ("C", "VIEW"))]%string)) as H2
    by reflexivity.
  assert (columns_by_table_from (H := dev_profile) [text_batch [["X"; "Y"]; ["?"; "?"];
    ["DATE"; "BOOLEAN"]; ["S"; "S"]; ["A"; "A"]]%string 2]
    = Ok (grouped [(("S", "A"), ("X", 1, "DATE")); (("S", "A"), ("Y", 2, "BOOLEAN"))]%string)) as H3
    by reflexivity.
  apply (catalog_complete (H := dev_profile) _ _ _ _ _ _ H1 H2 H3).
Defined.

Definition plain_types : ArrowTypeLib :=
  {| is_dictionary_key_type _ := false; show_arrow_type _ := "a type" |}.

Definition odd_fields : list Field :=
  [{| f_name := "CREATE TABLE"; f_data_type := ADate32; f_nullable := false |};
   {| f_name := "b"; f_data_type := AFloat64; f_nullable := true |}].

(** The variant for existing tables renames the first column. *)
Lemma ddl_reads_back_witness :
  ∃ ddl, read_create "CREATE TABLE" ddl
      = Some (["S"; "T"], [("CREATE TABLE", " DATE NOT NULL"); ("b", " DOUBLE")])%string ∧
    read_create "CREATE TABLE IF NOT EXISTS" (if_not_exists ddl)
      = Some (["S"; "T"],
              [("CREATE TABLE IF NOT EXISTS", " DATE NOT NULL"); ("b", " DOUBLE")])%string.
Proof.
  assert (∃ ddl, generate_create_table_ddl (H := plain_types)
    (build_qualified_table_name (Some "S"%string) "T") odd_fields = Ok ddl) as [ddl E]
    by (eexists; reflexivity).
  assert (odd_fields ≠ []) as Hne by done.
  exists ddl. destruct (ddl_reads_back (Some "S"%string) "T" odd_fields ddl Hne E)
    as (types & Ht & Hr & Hi & _).
  assert (types = [Date; Double]) as ->.
  { destruct types as [|e1 [|e2 [|]]]; unfold odd_fields in Ht; rewrite ?Forall2_cons in Ht.
    - by inversion Ht.
    - destruct Ht as (_ & Ht). by inversion Ht.
    - destruct Ht as (He1 & He2 & _). vm_compute in He1, He2.
      injection He1 as <-. by injection He2 as <-.
    - destruct Ht as (_ & _ & Ht). by inversion Ht. }
  split; [exact Hr|exact Hi].
Defined.
