(* ===== verification/AdbcDriver.v ===== *)
(** * Connections and statements of the ADBC driver

    [adbc_ffi.rs], stateful part: a driver connection dials when it is first used and shares
    its connection with its statements; a statement executes SQL, a prepared statement on
    bound rows, or a bulk ingest. *)
From S2P Require Import Prelude MachineInt RustStr StrText Float64 Json Errors Effect DateTime.
From S2P Require Import ExasolTypes ResultParser Messages Lifecycle Session ArrayBuilders.
From S2P Require Import ArrowConverter JsonColumns ArrowCsv ResultSets Connection AdbcFfi.
From S2P Require Statement ConnectionString CsvImport.
From Stdlib Require Import Ascii Floats.SpecFloat.

#[local] Open Scope Z_scope.

(** ** Bound rows *)
Section Bound.
Context `{ArrowTypeLib, Chrono, Statement.ParameterText, BuildProfile}.

(** [downcast_ref().expect()] of the value of an array of type [t]. *)
(* code: adbc_ffi.rs 1901-1922 arrow_value_to_parameter *)
Definition decimal_parameter (raw scale : Z) : adbc Statement.SqlParam :=
  if scale <=? 0 then Ok (Statement.Text (show_int raw))
  else
    divisor ← arith I128 (10 ^ scale);
    let whole := Z.quot raw divisor in
    let frac := Z.abs (Z.rem raw divisor) in
    Ok (Statement.Text ((if (raw <? 0) && (whole =? 0) then "-" else "") +:+ show_int whole
                        +:+ "." +:+ show_padded (Z.to_nat scale) frac)).

(** The value of an array that is not null, by the type of the array. *)
(* code: adbc_ffi.rs 1792-1927 arrow_value_to_parameter *)
Definition typed_value_to_parameter (t : ArrowType) (v : ArrowValue) : adbc Statement.SqlParam :=
  match t, v with
  | ABoolean, BoolValue b => Ok (Statement.Boolean b)
  | (AInt16 | AInt32 | AInt64), IntValue z => Ok (Statement.Integer z)
  | AFloat32, Float32Value bits => Ok (Statement.Float (f32_widen bits))
  | AFloat64, Float64Value bits => Ok (Statement.Float (f64_decode bits))
  | (AUtf8 | ALargeUtf8), TextValue s => Ok (Statement.Text s)
  | (ABinary | ALargeBinary), BytesValue bs => Ok (Statement.Binary bs)
  | ADate32, IntValue days => map_err invalid_argument (Statement.Text <$> DateTime.format_date32 days)
  | ATimestamp unit _, IntValue value =>
    map_err invalid_argument (Statement.Text <$> DateTime.format_timestamp unit value)
  | ADecimal128 _ scale, IntValue raw => decimal_parameter raw scale
  | (ABoolean | AInt16 | AInt32 | AInt64 | AFloat32 | AFloat64 | AUtf8 | ALargeUtf8 | ABinary
     | ALargeBinary | ADate32 | ATimestamp _ _ | ADecimal128 _ _), _ => Panic
  | t, _ => Err (adbc_error ("Unsupported Arrow type for parameter binding: " +:+ show_arrow_type t)
                   NotImplemented)
  end.

(** A row behind the end panics; a dictionary's value is null where its key is. *)
(* code: adbc_ffi.rs 1773-1928 arrow_value_to_parameter *)
Definition arrow_value_to_parameter (array : ArrowArray) (row : nat) : adbc Statement.SqlParam :=
  match array with
  | FlatArray t values =>
    match values !! row with
    | None => Panic
    | Some None => Ok Statement.Null
    | Some (Some v) => typed_value_to_parameter t v
    end
  | DictionaryArray _ keys _ =>
    match keys !! row with
    | None => Panic
    | Some None => Ok Statement.Null
    | Some (Some _) => Err (adbc_error ("Unsupported Arrow type for parameter binding: "
                             +:+ show_arrow_type (array_type array)) NotImplemented)
    end
  end.

Definition located (col row : nat) (e : AdbcError) : AdbcError :=
  adbc_error ("column " +:+ show_count col +:+ ", row " +:+ show_count row +:+ ": " +:+ ae_message e)
    (ae_status e).

(* code: adbc_ffi.rs 507-517 bound_rows *)
Definition bound_row (b : InputBatch) (row : nat) : adbc (list Statement.SqlParam) :=
  mapM (λ '(col, array), map_err (located col row) (arrow_value_to_parameter array row))
    (imap pair (ib_columns b)).

(* code: adbc_ffi.rs 501-518 bound_rows *)
Definition bound_rows (b : InputBatch) : adbc (list (list Statement.SqlParam)) :=
  mapM (bound_row b) (seq 0 (ib_rows b)).
End Bound.

(* code: adbc_ffi.rs 494-499 runs_per_row *)
Definition runs_per_row (prepared : Statement.PreparedStatement) (rows : list (list Statement.SqlParam))
    : bool :=
  negb (bool_decide (result_columns (Statement.p_handle prepared) = []))
  || match rows with [] :: _ => true | _ => false end.

(** [rows.chunks(1)] or all rows at once. *)
Definition executions_of (prepared : Statement.PreparedStatement)
    (rows : list (list Statement.SqlParam)) : list (list (list Statement.SqlParam)) :=
  if runs_per_row prepared rows then (λ row, [row]) <$> rows else [rows].

(* code: adbc_ffi.rs 520-528 batch_execution_error *)
Definition batch_execution_error (err : QueryError) : AdbcError :=
  match err with
  | ParameterBindingError _ _ => invalid_argument (show_query_error err)
  | other => to_adbc_error (show_query_error other)
  end.

Definition query_failure (err : QueryError) : AdbcError := to_adbc_error (show_query_error err).

(** Batches with the schema of the first of them. *)
(* code: adbc_ffi.rs 538-545 reader_over_batches *)
Definition reader_over_batches (batches : list Batch) : Schema * list Batch :=
  (match batches with b :: _ => b_schema b | [] => {| s_fields := []; s_metadata := ∅ |} end, batches).

(** Why an operation of the driver ended without a result. [block_on] runs a future to its
    end, so that none is dropped. *)
Inductive ffi_stop := FfiFailed (e : AdbcError) | FfiCancelled.

Definition adbc_call {X A} (m : adbc A) : action ffi_stop X A := pure_call (map_err FfiFailed m).
Definition ffi_fail {X A} (e : AdbcError) : action ffi_stop X A := adbc_call (Err e).

(** The outcome of a future that [block_on] has run, its error as one of the driver. *)
Definition blocked {A} (err : QueryError → AdbcError) (o : outcome query_stop A) : outcome ffi_stop A :=
  match o with
  | Ok a => Ok a
  | Err (QueryFailed e) => Err (FfiFailed (err e))
  | Err QueryCancelled => Err FfiCancelled
  | Panic => Panic
  end.

(** The features that the crate is built with. *)
Class Features := { feature_native : bool; feature_websocket : bool }.

(** A transport that is not connected, of either kind, in a world; and the import of a CSV
    stream through a connection, which [import/csv.rs] does on a tunnel of its own. *)
Class DriverWorld `{SerdeJson} (S : Type) `{!TransportProtocol S} := {
  transport_new : TransportKind → S → S;
  import_from_stream : string → list byte → CsvImport.CsvImportOptions →
    Connection (S := S) → outcome ImportError Z * Connection (S := S);
}.

Section Driver.
Context `{J : SerdeJson, !ColumnText, !Statement.ParameterText, PowI, BP : BuildProfile}.
Context `{TypeJson, ArrowLib, EmptyBatchError, UC : UnicodeCase, !Statement.JsonFloat}.
Context `{ArrowTypeLib, Chrono, OptionText, Features}.
Context {S : Type} `{TP : !TransportProtocol S, DW : !DriverWorld S}.
(** The rounds that a fetch may take, and what happens behind them. *)
Context (exhausted : action query_stop S (list Batch)) (fuel : nat).
Abbreviation Conn := (@Connection S).

(** ** Connections *)
(** [inner] before the connection is made is the world it will be made in. *)
(* code: adbc_ffi.rs 1284-1298 FfiConnection *)
Record FfiConnection := {
  fc_params : ConnectionString.ConnectionParams;
  fc_inner : S + Conn;
  fc_options : Options;
  fc_auto_commit : bool;
}.
Abbreviation fio := (action ffi_stop FfiConnection).

(* code: adbc_ffi.rs 1301-1308 FfiConnection::new *)
Definition FfiConnection_new (p : ConnectionString.ConnectionParams) (world : S) : FfiConnection :=
  {| fc_params := p; fc_inner := inl world; fc_options := ∅; fc_auto_commit := true |}.

Definition with_inner (i : S + Conn) (c : FfiConnection) : FfiConnection :=
  {| fc_params := fc_params c; fc_inner := i; fc_options := fc_options c;
     fc_auto_commit := fc_auto_commit c |}.
Definition with_option (key : string) (value : OptionValue) (c : FfiConnection) : FfiConnection :=
  {| fc_params := fc_params c; fc_inner := fc_inner c; fc_options := <[key := value]> (fc_options c);
     fc_auto_commit := fc_auto_commit c |}.
Definition with_auto_commit (b : bool) (c : FfiConnection) : FfiConnection :=
  {| fc_params := fc_params c; fc_inner := fc_inner c; fc_options := fc_options c;
     fc_auto_commit := b |}.

(* code: adbc/connection.rs 131-161 Connection::from_params *)
Definition from_params (p : ConnectionString.ConnectionParams) : action connection_stop S Conn := λ s,
  match choose_transport feature_native feature_websocket (ConnectionString.transport p) with
  | Ok kind => connect_with_transport p (transport_new kind s)
  | Err e => (Err (ConnectFailed e), s)
  | Panic => (Panic, s)
  end.

(* code: adbc_ffi.rs 1398-1407 FfiConnection::ensure_connected *)
Definition ensure_connected : fio unit := λ c,
  match fc_inner c with
  | inr _ => (Ok (), c)
  | inl world =>
    match from_params (fc_params c) world with
    | (Ok conn, _) => (Ok (), with_inner (inr conn) c)
    | (Err (ConnectFailed e), world) =>
      (Err (FfiFailed (to_adbc_error (show_connection_error e))), with_inner (inl world) c)
    | (Err ConnectCancelled, world) => (Err FfiCancelled, with_inner (inl world) c)
    | (Panic, world) => (Panic, with_inner (inl world) c)
    end
  end.

(** An operation of the established connection; without one the state is reported. *)
(* code: adbc_ffi.rs 1310-1322 FfiConnection::require_connection *)
Definition on_inner {A} (err : QueryError → AdbcError) (m : action query_stop Conn A) : fio A := λ c,
  match fc_inner c with
  | inl _ => (Err (FfiFailed (adbc_error
      "Connection not established. Call new_statement() or connect first." StatusInvalidState)), c)
  | inr conn => let '(o, conn) := m conn in (blocked err o, with_inner (inr conn) c)
  end.

(* code: adbc_ffi.rs 1343-1352 FfiConnection::open_transaction *)
Definition open_transaction : fio unit :=
  _ ← ensure_connected; on_inner query_failure connection_begin.

(* code: adbc_ffi.rs 1354-1366 FfiConnection::commit_open_transaction *)
Definition commit_open_transaction : fio unit :=
  _ ← ensure_connected;
  on_inner query_failure (conn ← get; if in_transaction conn then Connection.commit else mret ()).

(** The flag changes before the server is asked. *)
(* code: adbc_ffi.rs 1324-1341 FfiConnection::apply_auto_commit *)
Definition apply_auto_commit (enabled : bool) : fio unit :=
  c ← get;
  let was_enabled := fc_auto_commit c in
  _ ← modify (with_auto_commit enabled);
  if Bool.eqb was_enabled enabled then mret ()
  else if enabled then commit_open_transaction
  else open_transaction.

(* code: adbc_ffi.rs 1368-1377 FfiConnection::apply_current_schema *)
Definition apply_current_schema (schema : string) : fio unit :=
  _ ← ensure_connected; on_inner query_failure (Connection.set_schema schema).

(* code: adbc_ffi.rs 1379-1396 FfiConnection::read_current_schema *)
Definition read_current_schema : fio string :=
  c ← get;
  schema ← match fc_inner c with
           | inr _ => on_inner query_failure refresh_current_schema
           | inl _ => mret (ConnectionString.schema (fc_params c))
           end;
  adbc_call (ok_or (not_found "The session has no current schema") schema).

Inductive OptionConnection :=
| ConnAutoCommit | ConnCurrentSchema | ConnReadOnly | ConnIsolationLevel | ConnCurrentCatalog
| ConnOther (key : string) | FutureConnectionOption.

(* code: adbc_ffi.rs 1426-1456 FfiConnection::set_option *)
Definition conn_set_option (key : OptionConnection) (value : OptionValue) : fio unit :=
  match key with
  | ConnAutoCommit =>
    requested ← adbc_call (require_string_option value
                  "AutoCommit must be a string ('true' or 'false')");
    apply_auto_commit (String.eqb requested "true" || String.eqb requested "1")
  | ConnCurrentSchema =>
    schema ← adbc_call (require_string_option value "CurrentSchema must be a string");
    apply_current_schema schema
  | ConnReadOnly => modify (with_option ReadOnly_key value)
  | ConnIsolationLevel => modify (with_option IsolationLevel_key value)
  | ConnCurrentCatalog => ffi_fail (adbc_error "Exasol does not support catalogs" NotImplemented)
  | ConnOther key => modify (with_option key value)
  | FutureConnectionOption => ffi_fail (adbc_error "Unsupported connection option" NotImplemented)
  end.

(* code: adbc_ffi.rs 1458-1480 FfiConnection::get_option_string *)
Definition conn_get_option_string (key : OptionConnection) : fio string :=
  match key with
  | ConnAutoCommit => c ← get; mret (if fc_auto_commit c then "true" else "false")%string
  | ConnCurrentCatalog => mret "EXA"%string
  | ConnCurrentSchema => read_current_schema
  | ConnOther key =>
    c ← get;
    adbc_call (ok_or (not_found ("Option " +:+ key +:+ " not found")) (string_option (fc_options c) key))
  | ConnReadOnly | ConnIsolationLevel | FutureConnectionOption =>
    ffi_fail (not_found "Option not found")
  end.

(* code: adbc_ffi.rs 1722-1736 FfiConnection::commit *)
Definition ffi_commit : fio unit :=
  c ← get;
  if fc_auto_commit c then
    ffi_fail (adbc_error "Cannot commit when autocommit is enabled" StatusInvalidState)
  else _ ← ensure_connected; on_inner query_failure Connection.commit.

(* code: adbc_ffi.rs 1738-1752 FfiConnection::rollback *)
Definition ffi_rollback : fio unit :=
  c ← get;
  if fc_auto_commit c then
    ffi_fail (adbc_error "Cannot rollback when autocommit is enabled" StatusInvalidState)
  else _ ← ensure_connected; on_inner query_failure Connection.rollback.

(** The drop of a driver connection: what the shutdown makes of the session is not seen. *)
(* code: adbc_ffi.rs 1410-1421 FfiConnection::drop *)
Definition drop_connection (c : FfiConnection) : S :=
  match fc_inner c with
  | inl world => world
  | inr conn => transport (Connection.shutdown conn).2
  end.

(* code: adbc_ffi.rs 1268-1277 FfiDatabase::new_connection_with_opts *)
Definition set_options (opts : list (OptionConnection * OptionValue)) : fio unit :=
  foldr (λ '(key, value) rest, _ ← conn_set_option key value; rest) (mret ()) opts.

(** ** Catalog queries *)
(* code: adbc_ffi.rs 565-574 query_batches *)
Definition query_batches (sql : string) : fio (list Batch) :=
  on_inner query_failure (query exhausted fuel sql).

(** [require_connection] alone. *)
Definition require_connection : fio unit := on_inner query_failure (mret ()).

(** The rows of the result: none if the catalog is another one. *)
(* code: adbc_ffi.rs 1610-1656 FfiConnection::get_objects *)
Definition get_objects (depth : ObjectDepth) (catalog db_schema table_name : option string)
    (table_type : option (list string)) (column_name : option string) : fio (list CatalogEntry) :=
  if negb (catalog_is_exasol catalog) then mret []
  else
    _ ← require_connection;
    let levels := levels_of depth in
    schemas ← (if level_schemas levels then
                 batches ← query_batches (get_objects_schemas_query db_schema);
                 adbc_call (schema_names_from batches)
               else mret []);
    tables ← (if level_tables levels then
                batches ← query_batches (get_objects_tables_query db_schema table_name table_type);
                adbc_call (tables_by_schema_from batches)
              else mret ∅);
    columns ← (if level_columns levels then
                 batches ← query_batches (get_objects_columns_query db_schema table_name column_name);
                 adbc_call (columns_by_table_from batches)
               else mret ∅);
    mret [build_get_objects_batch schemas tables columns levels].

(** The catalog does not count. *)
(* code: adbc_ffi.rs 1658-1677 FfiConnection::get_table_schema *)
Definition get_table_schema (catalog db_schema : option string) (table_name : string)
    : fio (list Field) :=
  _ ← require_connection;
  batches ← query_batches (table_schema_query db_schema table_name);
  fields ← adbc_call (table_schema_fields_from batches);
  match fields with
  | [] => ffi_fail (not_found ("Table '" +:+ table_name +:+ "' not found"))
  | fields => mret fields
  end.

(** ** Statements *)
(** Whether there is a connection; it is the driver connection's, and part of the state that
    a statement's operation works on. *)
(* code: adbc_ffi.rs 1934-1953 FfiStatement *)
Record FfiStatement := {
  fs_attached : bool;
  fs_sql : option string;
  fs_bound_data : option InputBatch;
  fs_options : Options;
  fs_prepared : option Statement.PreparedStatement;
  fs_auto_commit : bool;
}.

(* code: adbc_ffi.rs 1968-1977 FfiStatement::with_connection *)
Definition FfiStatement_new : FfiStatement :=
  {| fs_attached := true; fs_sql := None; fs_bound_data := None; fs_options := ∅;
     fs_prepared := None; fs_auto_commit := true |}.

Definition with_stmt_auto_commit (b : bool) (s : FfiStatement) : FfiStatement :=
  {| fs_attached := fs_attached s; fs_sql := fs_sql s; fs_bound_data := fs_bound_data s;
     fs_options := fs_options s; fs_prepared := fs_prepared s; fs_auto_commit := b |}.
Definition with_bound_data (b : option InputBatch) (s : FfiStatement) : FfiStatement :=
  {| fs_attached := fs_attached s; fs_sql := fs_sql s; fs_bound_data := b;
     fs_options := fs_options s; fs_prepared := fs_prepared s; fs_auto_commit := fs_auto_commit s |}.
Definition with_prepared (p : option Statement.PreparedStatement) (s : FfiStatement) : FfiStatement :=
  {| fs_attached := fs_attached s; fs_sql := fs_sql s; fs_bound_data := fs_bound_data s;
     fs_options := fs_options s; fs_prepared := p; fs_auto_commit := fs_auto_commit s |}.

(* code: adbc_ffi.rs 1555-1560 FfiConnection::new_statement *)
Definition new_statement : fio FfiStatement :=
  _ ← ensure_connected;
  c ← get;
  mret (with_stmt_auto_commit (fc_auto_commit c) FfiStatement_new).

Abbreviation sio := (action ffi_stop (FfiStatement * Conn)).

(* code: adbc_ffi.rs 2238-2249 FfiStatement::set_option *)
Definition stmt_set_option (key : string) (value : OptionValue) (s : FfiStatement) : FfiStatement :=
  {| fs_attached := fs_attached s; fs_sql := fs_sql s; fs_bound_data := fs_bound_data s;
     fs_options := <[key := value]> (fs_options s); fs_prepared := fs_prepared s;
     fs_auto_commit := fs_auto_commit s |}.

(* code: adbc_ffi.rs 2251-2264 FfiStatement::get_option_string *)
Definition stmt_get_option_string (s : FfiStatement) (key : string) : adbc string :=
  ok_or (not_found "Option not found or not a string") (string_option (fs_options s) key).

(* code: adbc_ffi.rs 2440-2448 FfiStatement::set_sql_query *)
Definition set_sql_query (query : string) (s : FfiStatement) : FfiStatement :=
  {| fs_attached := fs_attached s; fs_sql := Some query; fs_bound_data := fs_bound_data s;
     fs_options := fs_options s;
     fs_prepared := if decide (fs_sql s = Some query) then fs_prepared s else None;
     fs_auto_commit := fs_auto_commit s |}.

(* code: adbc_ffi.rs 2313-2316 FfiStatement::bind *)
Definition bind (batch : InputBatch) (s : FfiStatement) : FfiStatement := with_bound_data (Some batch) s.

(** The batches of a stream, or its first error; [concat_batches] is arrow's. *)
(* code: adbc_ffi.rs 2318-2342 FfiStatement::bind_stream *)
Definition bind_stream (concat_batches : list InputBatch → outcome string InputBatch)
    (reader : list (outcome string InputBatch)) (s : FfiStatement) : adbc unit * FfiStatement :=
  match mapM (map_err to_adbc_error) reader with
  | Ok [] => (Ok (), with_bound_data None s)
  | Ok [b] => (Ok (), with_bound_data (Some b) s)
  | Ok batches =>
    match concat_batches batches with
    | Ok combined => (Ok (), with_bound_data (Some combined) s)
    | Err e => (Err (to_adbc_error e), s)
    | Panic => (Panic, s)
    end
  | Err e => (Err e, s)
  | Panic => (Panic, s)
  end.

(** An operation of the parent connection. *)
(* code: adbc_ffi.rs 1991-1996 FfiStatement::require_connection *)
Definition on_parent {A} (err : QueryError → AdbcError) (m : action query_stop Conn A) : sio A :=
  λ '(s, conn),
  if negb (fs_attached s) then
    (Err (FfiFailed (adbc_error "No connection available" StatusInvalidState)), (s, conn))
  else let '(o, conn) := m conn in (blocked err o, (s, conn)).

Definition stmt_get : sio FfiStatement := λ '(s, conn), (Ok s, (s, conn)).
Definition stmt_modify (f : FfiStatement → FfiStatement) : sio unit := λ '(s, conn), (Ok (), (f s, conn)).

(* code: adbc_ffi.rs 1984-1989 FfiStatement::require_sql *)
Definition require_sql : sio string :=
  s ← stmt_get; adbc_call (ok_or (adbc_error "SQL query not set" StatusInvalidState) (fs_sql s)).

(* code: adbc_ffi.rs 2417-2438 FfiStatement::prepare *)
Definition stmt_prepare : sio unit :=
  sql ← require_sql;
  prepared ← on_parent query_failure (prepare sql);
  stmt_modify (with_prepared (Some prepared)).

(* code: adbc_ffi.rs 1998-2016 FfiStatement::prepared_with_connection *)
Definition prepared_with_connection : sio Statement.PreparedStatement :=
  s ← stmt_get;
  _ ← match fs_prepared s with None => stmt_prepare | Some _ => mret () end;
  s ← stmt_get;
  prepared ← adbc_call (ok_or (adbc_error "Failed to prepare statement" StatusInvalidState)
                          (fs_prepared s));
  _ ← on_parent query_failure (mret ());
  mret prepared.

(* code: adbc_ffi.rs 530-536 result_batches *)
Definition result_batches (result_set : ResultSetInner) : action query_stop Conn (list Batch) :=
  match row_count result_set with
  | Some _ => mret []
  | None => on_results (fetch_all exhausted fuel result_set)
  end.

(** The executions one behind the other, with the batches of all. *)
(* code: adbc_ffi.rs 2042-2047 FfiStatement::execute_bound_batch *)
Fixpoint run_executions (prepared : Statement.PreparedStatement)
    (executions : list (list (list Statement.SqlParam))) : action query_stop Conn (list Batch) :=
  match executions with
  | [] => mret []
  | rows :: rest =>
    result_set ← execute_batch prepared rows;
    batches ← result_batches result_set;
    more ← run_executions prepared rest;
    mret (batches ++ more)
  end.

(** The same with the sum of the affected rows. *)
(* code: adbc_ffi.rs 2072-2078 FfiStatement::execute_bound_batch_update *)
Fixpoint run_update_executions (prepared : Statement.PreparedStatement)
    (executions : list (list (list Statement.SqlParam))) (affected : Z)
    : action query_stop Conn Z :=
  match executions with
  | [] => mret affected
  | rows :: rest =>
    count ← execute_batch_update prepared rows;
    affected ← pure_call (arith I64 (affected + count));
    run_update_executions prepared rest affected
  end.

(* code: adbc_ffi.rs 2018-2050 FfiStatement::execute_bound_batch *)
Definition execute_bound_batch (batch : InputBatch) : sio (list Batch) :=
  prepared ← prepared_with_connection;
  rows ← adbc_call (bound_rows batch);
  match rows with
  | [] => mret []
  | _ => on_parent batch_execution_error (run_executions prepared (executions_of prepared rows))
  end.

(* code: adbc_ffi.rs 2052-2081 FfiStatement::execute_bound_batch_update *)
Definition execute_bound_batch_update (batch : InputBatch) : sio Z :=
  prepared ← prepared_with_connection;
  rows ← adbc_call (bound_rows batch);
  match rows with
  | [] => mret 0
  | _ => on_parent batch_execution_error
           (run_update_executions prepared (executions_of prepared rows) 0)
  end.

(** A statement without a result set has no batches. *)
(* code: adbc_ffi.rs 2083-2097 FfiStatement::query_sql *)
Definition query_sql (sql : string) : sio (list Batch) :=
  on_parent query_failure (λ conn,
    match query exhausted fuel sql conn with
    | (Err (QueryFailed (NoResultSet _)), conn) => (Ok [], conn)
    | r => r
    end).

(* code: adbc_ffi.rs 2099-2109 FfiStatement::update_sql *)
Definition update_sql (sql : string) : sio Z := on_parent query_failure (Connection.execute_update sql).

(** ** Bulk ingest *)
Definition ingest_option (s : FfiStatement) (key : string) : option string :=
  string_option (fs_options s) ("adbc.ingest." +:+ key).

Inductive IngestMode := IngestCreate | IngestAppend | IngestCreateAppend | IngestReplace.

(* code: adbc_ffi.rs 2142-2163 FfiStatement::execute_bulk_ingest *)
Definition ingest_mode (s : FfiStatement) : adbc IngestMode :=
  let mode := default "adbc.ingest.mode.append" (ingest_option s "mode") in
  if String.eqb mode "adbc.ingest.mode.create" then Ok IngestCreate
  else if String.eqb mode "adbc.ingest.mode.append" then Ok IngestAppend
  else if String.eqb mode "adbc.ingest.mode.create_append" then Ok IngestCreateAppend
  else if String.eqb mode "adbc.ingest.mode.replace" then Ok IngestReplace
  else Err (invalid_argument ("Unknown ingest mode: " +:+ mode)).

(** The statements before the import, in their order. *)
(* code: adbc_ffi.rs 2183-2219 FfiStatement::execute_bulk_ingest *)
Definition ingest_ddl (mode : IngestMode) (qualified_name : string) (fields : list Field)
    : adbc (list string) :=
  match mode with
  | IngestCreate => ddl ← generate_create_table_ddl qualified_name fields; Ok [ddl]
  | IngestCreateAppend =>
    ddl ← generate_create_table_ddl qualified_name fields; Ok [if_not_exists ddl]
  | IngestReplace =>
    create_ddl ← generate_create_table_ddl qualified_name fields;
    Ok ["DROP TABLE IF EXISTS " +:+ qualified_name; create_ddl]
  | IngestAppend => Ok []
  end.

Fixpoint run_ddl (statements : list string) : action query_stop Conn unit :=
  match statements with
  | [] => mret ()
  | sql :: rest => _ ← Connection.execute_update sql; run_ddl rest
  end.

(** The host and the port are those of the connection. *)
(* code: adbc/connection.rs 1697-1716 Connection::import_from_record_batch *)
Definition import_from_record_batch (table : string) (batch : InputBatch)
    (options : ArrowImportOptions) : Conn → outcome ImportError Z * Conn := λ conn,
  let options := {| ArrowCsv.schema := ArrowCsv.schema options; columns := columns options;
                    batch_size := batch_size options; csv_options := csv_options options;
                    use_tls := use_tls options; host := ConnectionString.host (params conn);
                    port := ConnectionString.port (params conn) |} in
  match record_batch_to_csv batch (csv_options options) with
  | Ok csv_bytes => import_from_stream table csv_bytes (csv_import_options options) conn
  | Err e => (Err e, conn)
  | Panic => (Panic, conn)
  end.

Definition importing_batch (m : Conn → outcome ImportError Z * Conn) : sio Z := λ '(s, conn),
  let '(o, conn) := m conn in
  (map_err (λ e, FfiFailed (to_adbc_error (show_import_error e))) o, (s, conn)).

(** The bound batch is taken before the catalog and the columns are checked. *)
(* code: adbc_ffi.rs 2111-2232 FfiStatement::execute_bulk_ingest *)
Definition execute_bulk_ingest : sio Z :=
  s ← stmt_get;
  target_table ← adbc_call (ok_or
    (adbc_error "Target table not set for bulk ingestion" StatusInvalidState)
    (ingest_option s "target_table"));
  _ ← (if decide (ingest_option s "temporary" = Some "true") then
         ffi_fail (adbc_error "Exasol does not support temporary tables" NotImplemented)
       else mret ());
  mode ← adbc_call (ingest_mode s);
  let qualified_name := build_qualified_table_name (ingest_option s "target_db_schema") target_table in
  batch ← adbc_call (ok_or (adbc_error "No data bound for bulk ingestion" StatusInvalidState)
                       (fs_bound_data s));
  _ ← stmt_modify (with_bound_data None);
  _ ← adbc_call (check_ingest_target_catalog (fs_options s !! "adbc.ingest.target_catalog"));
  _ ← adbc_call (check_ingest_column_types (ib_fields batch));
  _ ← on_parent query_failure (mret ());
  ddl ← adbc_call (ingest_ddl mode qualified_name (ib_fields batch));
  _ ← on_parent query_failure (run_ddl ddl);
  row_count ← importing_batch
    (import_from_record_batch qualified_name batch ArrowImportOptions_default);
  mret (wrap I64 row_count).

(* code: adbc_ffi.rs 1979-1982 FfiStatement::is_bulk_ingest *)
Definition is_bulk_ingest (s : FfiStatement) : bool :=
  bool_decide (is_Some (fs_options s !! "adbc.ingest.target_table")).

(* code: adbc_ffi.rs 2344-2357 FfiStatement::execute *)
Definition stmt_execute : sio (Schema * list Batch) :=
  s ← stmt_get;
  if is_bulk_ingest s then _ ← execute_bulk_ingest; mret (reader_over_batches [])
  else
    sql ← require_sql;
    match fs_bound_data s with
    | Some batch =>
      _ ← stmt_modify (with_bound_data None);
      batches ← execute_bound_batch batch;
      mret (reader_over_batches batches)
    | None => batches ← query_sql sql; mret (reader_over_batches batches)
    end.

(* code: adbc_ffi.rs 2359-2371 FfiStatement::execute_update *)
Definition stmt_execute_update : sio (option Z) :=
  s ← stmt_get;
  if is_bulk_ingest s then n ← execute_bulk_ingest; mret (Some n)
  else
    sql ← require_sql;
    match fs_bound_data s with
    | Some batch =>
      _ ← stmt_modify (with_bound_data None);
      n ← execute_bound_batch_update batch;
      mret (Some n)
    | None => n ← update_sql sql; mret (Some n)
    end.

(* code: adbc_ffi.rs 2373-2378 FfiStatement::execute_schema *)
Definition stmt_execute_schema : sio Schema :=
  prepared ← prepared_with_connection;
  adbc_call (map_err (λ e, to_adbc_error (show_conversion_error e))
    (build_schema (result_columns (Statement.p_handle prepared)))).

(** The name of a parameter: its own if it has one. *)
Definition parameter_name (names : list (option string)) (i : nat) : string :=
  match names !! i with
  | Some (Some name) => if String.eqb name "" then "parameter_" +:+ show_count (i + 1) else name
  | _ => "parameter_" +:+ show_count (i + 1)
  end.

(* code: adbc_ffi.rs 2387-2415 FfiStatement::get_parameter_schema *)
Definition get_parameter_schema (s : FfiStatement) : adbc (list Field) :=
  prepared ← ok_or (adbc_error "Statement not prepared. Call prepare() first." StatusInvalidState)
               (fs_prepared s);
  let h := Statement.p_handle prepared in
  mapM (λ '(i, param_type),
    exasol_type ← map_err to_adbc_error (transport_datatype_to_exasol param_type);
    arrow_type ← map_err (λ e, to_adbc_error (show_conversion_error e))
                   (exasol_to_arrow exasol_type true);
    Ok {| f_name := parameter_name (parameter_names h) i; f_data_type := arrow_type;
          f_nullable := true |}) (imap pair (parameter_types h)).

(** A statement's operation on the connection that it shares with its driver connection. *)
Definition on_shared {A} (m : sio A) (s : FfiStatement) : fio (A * FfiStatement) := λ c,
  match fc_inner c with
  | inl _ => (Err (FfiFailed (adbc_error "No connection available" StatusInvalidState)), c)
  | inr conn =>
    match m (s, conn) with
    | (Ok a, (s, conn)) => (Ok (a, s), with_inner (inr conn) c)
    | (Err e, (_, conn)) => (Err e, with_inner (inr conn) c)
    | (Panic, (_, conn)) => (Panic, with_inner (inr conn) c)
    end
  end.
End Driver.
