(* ===== verification/AdbcRules.v ===== *)
(** * What the ADBC driver keeps

    Bound decimals, the rows of a bound batch, the text and the order of a bulk ingest's
    statements, catalog listings, autocommit, and prepared statements. *)
From S2P Require Import Prelude MachineInt RustStr StrText Float64 Json Errors Effect DateTime.
From S2P Require Import Interval ExasolTypes ResultParser Messages Lifecycle Session.
From S2P Require Import ArrayBuilders ArrowConverter JsonColumns ArrowCsv ResultSets Connection.
From S2P Require Import ConnectionRules AdbcFfi AdbcDriver.
From S2P Require Statement ConnectionString CsvImport.
From Stdlib Require Import Ascii Floats.SpecFloat.

#[local] Open Scope Z_scope.

(** ** Decimals *)
Lemma quot_sign v p : 0 < p →
  (if (v <? 0) && (Z.quot v p =? 0) then "-" else "") +:+ show_int (Z.quot v p)
  = (if v <? 0 then "-" else "") +:+ show_nat (Z.abs v / p).
Proof.
  intros Hp. destruct (Z.ltb_spec v 0) as [Hv|Hv]; cbn [andb].
  - assert (Z.quot v p = - (Z.abs v / p)) as ->.
    { rewrite Z.abs_neq by lia. rewrite <- Z.quot_div_nonneg by lia.
      rewrite Z.quot_opp_l by lia. lia. }
    pose proof (Z.div_pos (Z.abs v) p ltac:(lia) Hp).
    destruct (Z.eqb_spec (- (Z.abs v / p)) 0) as [E|E].
    + replace (Z.abs v / p) with 0 by lia. reflexivity.
    + unfold show_int. rewrite (proj2 (Z.ltb_lt _ _)) by lia. rewrite Z.opp_involutive.
      by rewrite str_app_nil_l, str_app_char.
  - rewrite Z.quot_div_nonneg, Z.abs_eq by lia. unfold show_int.
    rewrite (proj2 (Z.ltb_ge _ _)) by (apply Z.div_pos; lia). done.
Qed.

Lemma ten_pow_i128 (s : nat) : (s ≤ 38)%nat → in_range I128 (10 ^ Z.of_nat s).
Proof.
  intros Hs. assert (0 < 10 ^ Z.of_nat s ≤ 10 ^ 38).
  { split; [by apply Z.pow_pos_nonneg; lia|]. apply Z.pow_le_mono_r; lia. }
  assert (in_range I128 (10 ^ 38)) as Hr by vm_range. unfold in_range in *. destruct Hr.
  assert (imin I128 <= 0) by (vm_compute; discriminate). lia.
Qed.

(** A decimal bound as a parameter has the text that an import writes for it, and is read
    back as its 128-bit value, at every scale from 0 to 38; at a negative scale the parameter
    is the bare integer, without the zeros that the import writes. *)
Theorem decimal_parameters_agree `{BuildProfile} v (s : nat) :
  in_range I128 v → (s ≤ 38)%nat →
  let text := format_decimal_text (show_int v) (Z.of_nat s) in
  decimal_parameter v (Z.of_nat s) = Ok (Statement.Text text) ∧
  parse_decimal_to_i128 text (Z.of_nat s) = Ok v ∧
  decimal_parameter v (- Z.of_nat s) = Ok (Statement.Text (show_int v)) ∧
  format_decimal_text (show_int v) (- Z.of_nat s) = show_int v +:+ str_repeat s "0".
Proof.
  intros Hv Hs text.
  split; [|split; [by apply decimal_text_roundtrip|split]].
  - unfold decimal_parameter. destruct (Z.leb_spec (Z.of_nat s) 0) as [H0|H0].
    + subst text. assert (s = O) as -> by lia. unfold format_decimal_text. cbn. by rewrite str_app_nil_r.
    + rewrite arith_in by (by apply ten_pow_i128). cbn [mbind outcome_bind].
      assert (0 < 10 ^ Z.of_nat s) as Hp by (apply Z.pow_pos_nonneg; lia).
      subst text. rewrite format_decimal_text_parts by lia. unfold decimal_text.
      rewrite <- Z.rem_abs, (Z.abs_eq (10 ^ Z.of_nat s)), Z.rem_mod_nonneg, Nat2Z.id by lia.
      rewrite (proj2 (Nat.eqb_neq _ _))
        by (rewrite str_len_show_padded; [lia|by apply Z.mod_pos_bound|lia]).
      by rewrite <- (str_app_assoc _ (show_int _)), quot_sign, str_app_assoc by done.
  - unfold decimal_parameter. by rewrite (proj2 (Z.leb_le _ _)) by lia.
  - unfold format_decimal_text. rewrite (proj2 (Z.leb_le _ _)) by lia.
    by rewrite Z.abs_opp, Z.abs_eq, Nat2Z.id by lia.
Qed.

Lemma decimal_parameters_agree_witness :
  decimal_parameter (H2 := dev_profile) (-5) 2 = Ok (Statement.Text "-0.05") ∧
  decimal_parameter (H2 := dev_profile) (-5) (-2) = Ok (Statement.Text "-5") ∧
  format_decimal_text "-5" (-2) = "-500"%string.
Proof.
  destruct (decimal_parameters_agree (H := dev_profile) (-5) 2) as (H1 & _ & H2 & H3);
    [vm_range|lia|]. split; [exact H1|]. split; [exact H2|exact H3].
Defined.

(** ** Bound batches *)
Section Rules.
Context `{J : SerdeJson, !ColumnText, !Statement.ParameterText, PowI, BP : BuildProfile}.
Context `{TypeJson, ArrowLib, EmptyBatchError, UC : UnicodeCase, !Statement.JsonFloat}.
Context `{ArrowTypeLib, Chrono, OptionText, Features}.
Context {S : Type} `{TP : !TransportProtocol S, DW : !DriverWorld S}.
Context (exhausted : action query_stop S (list Batch)) (fuel : nat).
Abbreviation Conn := (@Connection S).
Implicit Types (conn : Conn) (st : FfiStatement) (p : Statement.PreparedStatement).

(** Executions that all succeeded, with the rows that each affected. *)
Inductive executed p : list (list (list Statement.SqlParam)) → Conn → list Z → Conn → Prop :=
| executed_none conn : executed p [] conn [] conn
| executed_one rows rest conn n conn1 ns conn2 :
    execute_batch_update p rows conn = (Ok n, conn1) → executed p rest conn1 ns conn2 →
    executed p (rows :: rest) conn (n :: ns) conn2.

(** The affected rows as the driver sums them. *)
Definition summed (a : Z) (ns : list Z) (n : Z) : Prop :=
  n = foldl (λ a n, wrap I64 (a + n)) a ns ∧
  (overflow_checks = true → n = foldl Z.add a ns).

Lemma arith_summed {E} a n m : arith (E := E) I64 (a + n) = Ok m →
  m = wrap I64 (a + n) ∧ (overflow_checks = true → m = a + n).
Proof.
  unfold arith. destruct (in_rangeb I64 (a + n)) eqn:Er.
  - intros [= <-]. split; [|done]. symmetry. by apply wrap_id, in_rangeb_true.
  - destruct overflow_checks; [done|]. by intros [= <-].
Qed.

Lemma update_executions_ok p execs : ∀ a conn n conn',
  run_update_executions p execs a conn = (Ok n, conn') →
  ∃ ns, executed p execs conn ns conn' ∧ summed a ns n.
Proof.
  induction execs as [|rows rest IH]; intros a conn n conn'; cbn [run_update_executions].
  - intros [= <- <-]. exists []. by repeat constructor.
  - unfold mbind at 1, action_bind at 1.
    destruct (execute_batch_update p rows conn) as [[k|e|] conn1] eqn:Ek; [|done..].
    unfold mbind at 1, action_bind at 1, pure_call.
    destruct (arith I64 (a + k)) as [m|e|] eqn:Em; [|done..].
    intros (ns & Hns & Hsum & Hexact)%IH. apply arith_summed in Em as [-> Hm].
    exists (k :: ns). split; [by econstructor|]. split; [done|]. intros Ho.
    cbn [foldl]. rewrite <- (Hm Ho). by apply Hexact.
Qed.

Lemma update_executions_err p execs : ∀ a conn e conn',
  run_update_executions p execs a conn = (Err e, conn') →
  ∃ before rows after ns conn1, execs = before ++ rows :: after ∧
    executed p before conn ns conn1 ∧ execute_batch_update p rows conn1 = (Err e, conn').
Proof.
  induction execs as [|rows rest IH]; intros a conn e conn'; cbn [run_update_executions]; [done|].
  unfold mbind at 1, action_bind at 1.
  destruct (execute_batch_update p rows conn) as [[k|e'|] conn1] eqn:Ek; [| |done].
  - unfold mbind at 1, action_bind at 1, pure_call. unfold arith. intros He.
    assert (∃ m, run_update_executions p rest m conn1 = (Err e, conn')) as (m & Hr).
    { destruct (in_rangeb I64 (a + k)); [by eexists|]. destruct overflow_checks; [done|by eexists]. }
    apply IH in Hr as (before & rows' & after & ns & conn2 & -> & Hb & Hr').
    exists (rows :: before), rows', after, (k :: ns), conn2. split; [done|].
    split; [by econstructor|done].
  - intros [= -> ->]. exists [], rows, rest, [], conn. by repeat constructor.
Qed.

Lemma executions_cover p rows :
  mjoin (executions_of p rows) = rows ∧
  (if runs_per_row p rows then Forall (λ e, length e = 1%nat) (executions_of p rows)
   else executions_of p rows = [rows]).
Proof.
  unfold executions_of. destruct (runs_per_row p rows).
  - split; [|by apply Forall_fmap, Forall_true]. induction rows as [|r rows IH]; [done|].
    cbn. f_equal. exact IH.
  - split; [apply app_nil_r|done].
Qed.

Lemma prepared_ready p st conn : fs_attached st = true → fs_prepared st = Some p →
  prepared_with_connection (st, conn) = (Ok p, (st, conn)).
Proof.
  intros Ha Hp. destruct st as [att sql bd opts pr ac]. cbn in Ha, Hp. subst. reflexivity.
Qed.

(** The first value of a batch that is no parameter. *)
Definition first_misfit (b : InputBatch) (row col : nat) (e : AdbcError) : Prop :=
  (row < ib_rows b)%nat ∧
  (∃ array, ib_columns b !! col = Some array ∧ arrow_value_to_parameter array row = Err e) ∧
  (∀ col' array, (col' < col)%nat → ib_columns b !! col' = Some array →
     ∃ v, arrow_value_to_parameter array row = Ok v) ∧
  (∀ row' array, (row' < row)%nat → array ∈ ib_columns b →
     ∃ v, arrow_value_to_parameter array row' = Ok v).

Lemma bound_rows_misfit b e : bound_rows b = Err e →
  ∃ row col e', e = located col row e' ∧ first_misfit b row col e'.
Proof.
  intros Hb. apply mapM_outcome_err in Hb as (i & row & Hi & Hrow & Hbefore).
  apply lookup_seq in Hi as [-> Hi]. cbn [Nat.add] in *.
  apply mapM_outcome_err in Hrow as (k & [col array] & Hk & He & Hcols).
  assert (k = col ∧ ib_columns b !! col = Some array) as [-> Harr].
  { rewrite list_lookup_imap in Hk. destruct (ib_columns b !! k) eqn:E; [|done].
    cbn in Hk. by injection Hk as <- <-. }
  destruct (arrow_value_to_parameter array i) as [?|e'|] eqn:Ev; cbn in He; [done| |done].
  injection He as <-. exists i, col, e'. split; [done|].
  split; [done|]. split; [by exists array|]. split.
  - intros col' array' Hlt Ha. apply (Forall_lookup_1 _ _ col' (col', array')) in Hcols.
    + destruct Hcols as [v Hv]. cbn in Hv.
      destruct (arrow_value_to_parameter array' i) as [v'|?|]; [by exists v'|done..].
    + rewrite lookup_take_lt by done. by rewrite list_lookup_imap, Ha.
  - intros row' array' Hlt Ha. apply list_elem_of_lookup in Ha as [col' Ha].
    apply (Forall_lookup_1 _ _ row' row') in Hbefore.
    + destruct Hbefore as [vs Hvs]. apply mapM_outcome_ok in Hvs.
      apply (Forall2_lookup_l _ _ _ col' (col', array')) in Hvs as (v & _ & Hv);
        [|by rewrite list_lookup_imap, Ha].
      cbn in Hv. destruct (arrow_value_to_parameter array' row') as [v'|?|]; [by exists v'|done..].
    + rewrite lookup_take_lt by done. by rewrite lookup_seq_lt by lia.
Qed.

(** C38: a bound batch: unless every value is a parameter, nothing is sent and the first value
    that is none is named with its row and column; then every row is executed exactly once
    and in order, all rows by one execution, or each by its own if the statement has a result
    set or no parameters; the affected rows of the executions are summed; and the first
    execution that fails ends the run behind those before it. *)
Theorem bound_rows_executed b st p conn :
  fs_attached st = true → fs_prepared st = Some p →
  match bound_rows b with
  | Err e => execute_bound_batch_update b (st, conn) = (Err (FfiFailed e), (st, conn)) ∧
      execute_bound_batch exhausted fuel b (st, conn) = (Err (FfiFailed e), (st, conn)) ∧
      ∃ row col e', e = located col row e' ∧ first_misfit b row col e'
  | Panic => True
  | Ok rows =>
    let execs := executions_of p rows in
    length rows = ib_rows b ∧ mjoin execs = rows ∧
    (if negb (bool_decide (result_columns (Statement.p_handle p) = []))
        || match rows with [] :: _ => true | _ => false end
     then Forall (λ e, length e = 1%nat) execs else execs = [rows]) ∧
    (∀ o st' conn', execute_bound_batch_update b (st, conn) = (o, (st', conn')) →
       st' = st ∧
       (∀ n, o = Ok n → (rows = [] ∧ n = 0 ∧ conn' = conn) ∨
          ∃ ns, executed p execs conn ns conn' ∧ summed 0 ns n) ∧
       (∀ e, o = Err (FfiFailed e) → ∃ before failed after ns conn1 err,
          execs = before ++ failed :: after ∧ executed p before conn ns conn1 ∧
          execute_batch_update p failed conn1 = (Err (QueryFailed err), conn') ∧
          e = batch_execution_error err))
  end.
Proof.
  intros Ha Hp. pose proof (prepared_ready p st conn Ha Hp) as Hready.
  destruct (bound_rows b) as [rows|e|] eqn:Hb; [| |done].
  - destruct (executions_cover p rows) as [Hj Hc].
    split; [apply mapM_outcome_ok, Forall2_length in Hb; by rewrite length_seq in Hb|].
    split; [done|]. split; [exact Hc|]. intros o st' conn' Hrun. revert Hrun.
    unfold execute_bound_batch_update. rewrite (bind_done _ _ _ _ _ Hready), Hb.
    rewrite (bind_done (adbc_call (Ok rows)) _ _ rows (st, conn) eq_refl).
    destruct rows as [|r rows]; [intros [= <- <- <-]; split; [done|]; split; [intros n [= <-]; by left|done]|].
    unfold on_parent. rewrite Ha. cbn [negb].
    destruct (run_update_executions p _ 0 conn) as [ro conn1] eqn:Er.
    intros [= <- <- <-]. split; [done|]. split.
    + intros n Hn. destruct ro as [k|[|]|]; try done. injection Hn as ->. right.
      by apply update_executions_ok.
    + intros e He. destruct ro as [k|[q|]|]; try done. injection He as <-.
      apply update_executions_err in Er as (before & failed & after & ns & conn2 & ? & ? & ?).
      by exists before, failed, after, ns, conn2, q.
  - unfold execute_bound_batch_update, execute_bound_batch.
    rewrite !(bind_done _ _ _ _ _ Hready), Hb. split; [done|]. split; [done|].
    by apply bound_rows_misfit.
Qed.

(** ** Autocommit *)
Context `{SS : !SessionSettings S}.
Implicit Types (c : @FfiConnection S).

Definition asks_on (t : string) : bool := String.eqb t "true" || String.eqb t "1".

Lemma set_auto_commit_as t c :
  conn_set_option ConnAutoCommit (OptString t) c = apply_auto_commit (asks_on t) c.
Proof. reflexivity. Qed.

Lemma ensure_keeps_flag c : fc_auto_commit (ensure_connected c).2 = fc_auto_commit c.
Proof.
  unfold ensure_connected. destruct (fc_inner c); [|done].
  by destruct (from_params (fc_params c) s) as [[conn|[e|]|] s'].
Qed.

Lemma inner_keeps_flag {A} err (m : action query_stop Conn A) c :
  fc_auto_commit (on_inner err m c).2 = fc_auto_commit c.
Proof. unfold on_inner. destruct (fc_inner c) as [s|conn]; [done|]. by destruct (m conn). Qed.

Lemma ensured_inner {A} err (m : action query_stop Conn A) c :
  fc_auto_commit ((_ ← ensure_connected; on_inner err m) c).2 = fc_auto_commit c.
Proof.
  unfold mbind, action_bind. pose proof (ensure_keeps_flag c) as He.
  destruct (ensure_connected c) as [[[]|e|] c1]; cbn [snd] in *; [|done..].
  by rewrite inner_keeps_flag.
Qed.

Lemma ensured_open {A} err (m : action query_stop Conn A) c conn : fc_inner c = inr conn →
  (_ ← ensure_connected; on_inner err m) c
  = (blocked err (m conn).1, with_inner (inr (m conn).2) c).
Proof.
  intros Hi. assert (ensure_connected c = (Ok (), c)) as He by (unfold ensure_connected; by rewrite Hi).
  rewrite (bind_done _ _ _ _ _ He). unfold on_inner. rewrite Hi. by destruct (m conn).
Qed.

(** What a switch asks the connection for. *)
Definition switch (enabled : bool) : action query_stop Conn unit :=
  if enabled then conn ← get; if in_transaction conn then Connection.commit else mret ()
  else connection_begin.

Lemma apply_auto_commit_run enabled c :
  apply_auto_commit enabled c
  = if Bool.eqb (fc_auto_commit c) enabled then (Ok (), c)
    else (_ ← ensure_connected; on_inner query_failure (switch enabled)) (with_auto_commit enabled c).
Proof.
  unfold apply_auto_commit. rewrite (bind_done get _ c c c eq_refl). cbn zeta.
  rewrite (bind_done (modify _) _ c () (with_auto_commit enabled c) eq_refl).
  destruct (Bool.eqb_spec (fc_auto_commit c) enabled) as [E|E].
  - destruct c as [p i o a]. cbn in E. by subst.
  - by destruct enabled.
Qed.

Lemma ffi_commit_idle c conn : fc_auto_commit c = false → fc_inner c = inr conn →
  in_transaction conn = false → ffi_commit c = (Ok (), c).
Proof.
  intros Ha Hi Ht. unfold ffi_commit. rewrite (bind_done get _ c c c eq_refl), Ha.
  rewrite (ensured_open _ _ c conn Hi).
  assert (Connection.commit conn = (Ok (), conn)) as ->.
  { unfold Connection.commit. rewrite (bind_done get _ conn conn conn eq_refl). by rewrite Ht. }
  destruct c as [p i o a]. cbn in Hi. by subst.
Qed.

Lemma ffi_commit_refused c : fc_auto_commit c = true →
  ffi_commit c = (Err (FfiFailed (adbc_error "Cannot commit when autocommit is enabled"
                                   StatusInvalidState)), c).
Proof. intros Ha. unfold ffi_commit. by rewrite (bind_done get _ c c c eq_refl), Ha. Qed.

(** C36: the autocommit option. The flag is the requested one afterwards, whatever happened;
    asking for the mode in force does nothing. Turning it off turns off the server's and opens
    a transaction - but where the server refuses, the flag is off without a transaction, and
    commits report success without a request. Turning it on commits and ends the transaction,
    and leaves the server's autocommit as it was, off - while a commit is now refused. *)
Theorem autocommit_switched t c :
  let enabled := asks_on t in
  let '(o, c') := conn_set_option ConnAutoCommit (OptString t) c in
  fc_auto_commit c' = enabled ∧
  (fc_auto_commit c = enabled → o = Ok () ∧ c' = c) ∧
  (∀ conn, fc_inner c = inr conn → fc_auto_commit c ≠ enabled →
     can_execute (s_state (session conn)) = true →
     ∃ conn', fc_inner c' = inr conn' ∧
     (enabled = false → in_transaction conn = false →
        let '(answer, s) := transport_set_autocommit false (transport conn) in
        transport conn' = s ∧
        (answer = Ok () → o = Ok () ∧ transaction_view conn' = (InTransaction, true, false)) ∧
        (answer ≠ Ok () → o ≠ Ok () ∧ session conn' = session conn ∧ ffi_commit c' = (Ok (), c'))) ∧
     (enabled = true → in_transaction conn = true →
        transport conn' = transport (Connection.execute_update "COMMIT" conn).2 ∧
        (o = Ok () → transaction_view conn' = (Ready, false, (settings (transport conn)).2) ∧
          ffi_commit c' = (Err (FfiFailed (adbc_error "Cannot commit when autocommit is enabled"
                             StatusInvalidState)), c')))).
Proof.
  intros enabled. rewrite set_auto_commit_as. fold enabled. clearbody enabled. rewrite apply_auto_commit_run.
  destruct (Bool.eqb_spec (fc_auto_commit c) enabled) as [E|E]; [by split_and!|].
  destruct ((_ ← ensure_connected; on_inner query_failure (switch enabled)) (with_auto_commit enabled c))
    as [o c'] eqn:Er.
  pose proof (ensured_inner query_failure (switch enabled) (with_auto_commit enabled c)) as Hf.
  rewrite Er in Hf. cbn [snd fc_auto_commit with_auto_commit] in Hf.
  split; [exact Hf|]. split; [done|]. intros conn Hi _ Hr.
  rewrite (ensured_open _ _ _ conn) in Er by (exact Hi). injection Er as <- <-.
  eexists. split; [reflexivity|]. split.
  - intros -> Ht. cbn [switch]. pose proof (begin_run conn Hr Ht) as Hb.
    destruct (transport_set_autocommit false (transport conn)) as [answer s].
    destruct Hb as (Htr & Hok & Herr). split; [done|]. split.
    + intros Ha. destruct (Hok Ha) as [-> ->]. done.
    + intros Ha. destruct (Herr Ha) as [Hne Hs].
      split; [by destruct (connection_begin conn) as [[[]|[|]|] ?]|]. split; [done|].
      eapply ffi_commit_idle; [exact Hf|reflexivity|]. unfold in_transaction. by rewrite Hs.
  - intros -> Ht.
    assert (switch true conn = Connection.commit conn) as ->.
    { unfold switch. rewrite (bind_done get _ conn conn conn eq_refl). by rewrite Ht. }
    destruct (end_law "COMMIT" Connection.commit conn Ht Hr eq_refl commit_alters_nothing)
      as (_ & Htr & Hok & _).
    { unfold Connection.commit. rewrite (bind_done get _ conn conn conn eq_refl). by rewrite Ht. }
    split; [done|]. intros Ho. split.
    + apply Hok. by destruct (Connection.commit conn) as [[[]|[|]|] ?].
    + apply ffi_commit_refused. exact Hf.
Qed.

(** ** Bulk ingest *)
Lemma call_bind {A B} (m : adbc A) (k : A → action ffi_stop (FfiStatement * Conn) B) x :
  (adbc_call m ≫= k) x = match m with
                         | Ok a => k a x
                         | Err e => (Err (FfiFailed e), x)
                         | Panic => (Panic, x)
                         end.
Proof. by destruct m. Qed.

Lemma parent_bind {A B} err (m : action query_stop Conn A)
    (k : A → action ffi_stop (FfiStatement * Conn) B) st conn :
  fs_attached st = true →
  (on_parent err m ≫= k) (st, conn)
  = match m conn with
    | (Ok a, conn) => k a (st, conn)
    | (o, conn) => (match blocked err o with Ok _ => Panic | Err e => Err e | Panic => Panic end,
                    (st, conn))
    end.
Proof.
  intros Ha. unfold mbind, action_bind, on_parent. rewrite Ha. cbn [negb].
  by destruct (m conn) as [[a|[|]|] c].
Qed.

Lemma checked_columns fields : check_ingest_column_types fields = Ok () →
  Forall (λ f, ∃ e, arrow_to_exasol (f_data_type f) = Ok e) fields ∧
  check_schema_converts fields = Ok ().
Proof.
  intros Hc. apply bind_ok in Hc as (es & Hm & Hc). split.
  - apply mapM_outcome_ok in Hm. clear Hc. induction Hm as [|f e fields es He _ IH]; [done|].
    constructor; [|done]. destruct (arrow_to_exasol (f_data_type f)) as [t|?|]; [by exists t|done..].
  - by destruct (check_schema_converts fields) as [[]|?|].
Qed.

(** What an ingest sends, once it sends anything. *)
Definition ingest_sends (b : InputBatch) (name : string) (ddl : list string) conn
    : outcome ffi_stop Z * Conn :=
  match run_ddl ddl conn with
  | (Ok _, conn1) =>
    let '(o, conn2) := import_from_record_batch name b ArrowImportOptions_default conn1 in
    (match o with
     | Ok n => Ok (wrap I64 n)
     | Err e => Err (FfiFailed (to_adbc_error (show_import_error e)))
     | Panic => Panic
     end, conn2)
  | (o, conn1) => (match blocked query_failure o with Ok _ => Panic | Err e => Err e | Panic => Panic end,
                   conn1)
  end.

(** C37: a bulk ingest sends nothing unless its mode and its options are valid and every column
    has an Exasol type and a text; then it sends the statements of its mode, and the import
    into the same table only behind them. The bound batch is gone once it was taken, even if a
    later check refuses it; and values without a text are found behind the statements. *)
Theorem ingest_checked_first st conn :
  let '(o, (st', conn')) := execute_bulk_ingest (st, conn) in
  (conn' = conn ∧ (∀ n, o ≠ Ok n) ∧ (st' = st ∨ st' = with_bound_data None st)) ∨
  ∃ table b mode ddl,
    let name := build_qualified_table_name (ingest_option st "target_db_schema") table in
    ingest_option st "target_table" = Some table ∧ ingest_option st "temporary" ≠ Some "true"%string ∧
    ingest_mode st = Ok mode ∧ fs_bound_data st = Some b ∧ fs_attached st = true ∧
    check_ingest_target_catalog (fs_options st !! "adbc.ingest.target_catalog"%string) = Ok () ∧
    Forall (λ f, ∃ e, arrow_to_exasol (f_data_type f) = Ok e) (ib_fields b) ∧
    check_schema_converts (ib_fields b) = Ok () ∧
    ingest_ddl mode name (ib_fields b) = Ok ddl ∧
    st' = with_bound_data None st ∧ ingest_sends b name ddl conn = (o, conn').
Proof.
  destruct (execute_bulk_ingest (st, conn)) as [o [st' conn']] eqn:Er. revert Er.
  unfold execute_bulk_ingest. rewrite (bind_done stmt_get _ (st, conn) st (st, conn) eq_refl).
  rewrite call_bind. destruct (ingest_option st "target_table") as [table|]; cbn [ok_or];
    [|intros [= <- <- <-]; left; split_and!; [done|done|by left]].
  destruct (decide (ingest_option st "temporary" = Some "true"%string)) as [Htmp|Htmp];
    [intros [= <- <- <-]; left; split_and!; [done|done|by left]|].
  rewrite (bind_done (mret ()) _ (st, conn) () (st, conn) eq_refl), call_bind.
  destruct (ingest_mode st) as [mode|e|]; [|intros [= <- <- <-]; left; split_and!; [done|done|by left]..].
  cbn zeta. rewrite call_bind. destruct (fs_bound_data st) as [b|]; cbn [ok_or];
    [|intros [= <- <- <-]; left; split_and!; [done|done|by left]].
  rewrite (bind_done (stmt_modify _) _ (st, conn) () (with_bound_data None st, conn) eq_refl).
  rewrite call_bind. destruct (check_ingest_target_catalog _) as [[]|e|] eqn:Hcat;
    [|intros [= <- <- <-]; left; split_and!; [done|done|by right]..].
  rewrite call_bind. destruct (check_ingest_column_types (ib_fields b)) as [[]|e|] eqn:Hcols;
    [|intros [= <- <- <-]; left; split_and!; [done|done|by right]..].
  destruct (fs_attached st) eqn:Hatt.
  2:{ unfold mbind at 1, action_bind at 1, on_parent. cbn [with_bound_data fs_attached].
      rewrite Hatt. intros [= <- <- <-]. left. split_and!; [done|done|by right]. }
  rewrite parent_bind by (exact Hatt). cbn [mret action_ret]. rewrite call_bind.
  destruct (ingest_ddl mode _ (ib_fields b)) as [ddl|e|] eqn:Hddl;
    [|intros [= <- <- <-]; left; split_and!; [done|done|by right]..].
  rewrite parent_bind by (exact Hatt). intros Er. right. exists table, b, mode, ddl.
  destruct (checked_columns _ Hcols) as [Htypes Hconv]. split_and!; try done.
  - revert Er. destruct (run_ddl ddl conn) as [[[]|e|] conn1]; [|by intros [= <- <- <-]..].
    unfold mbind, action_bind, importing_batch.
    by destruct (import_from_record_batch _ b _ conn1) as [[n|e|] conn2]; intros [= <- <- <-].
  - unfold ingest_sends. revert Er.
    destruct (run_ddl ddl conn) as [[[]|e|] conn1]; [|by intros [= <- <- <-]..].
    unfold mbind, action_bind, importing_batch.
    by destruct (import_from_record_batch _ b _ conn1) as [[n|e|] conn2]; intros [= <- <- <-].
Qed.

(** ** Prepared statements *)
(** [st'] has the SQL text of [st] and its prepared statement, or one prepared for the text. *)
Definition same_sql st st' : Prop :=
  fs_sql st' = fs_sql st ∧
  (fs_prepared st' = fs_prepared st ∨
   ∃ sql conn0 conn1 p, fs_sql st = Some sql ∧ prepare sql conn0 = (Ok p, conn1) ∧
     fs_prepared st' = Some p).

Definition keeps_sql {A} (m : action ffi_stop (FfiStatement * Conn) A) : Prop :=
  ∀ x, same_sql x.1 (m x).2.1.

Lemma same_sql_refl st : same_sql st st.
Proof. split; [done|by left]. Qed.

Lemma same_sql_trans st1 st2 st3 : same_sql st1 st2 → same_sql st2 st3 → same_sql st1 st3.
Proof.
  intros [E1 P1] [E2 P2]. split; [congruence|].
  destruct P2 as [->|(sql & c0 & c1 & p & Hs & Hp & ->)]; [done|].
  right. exists sql, c0, c1, p. by rewrite <- E1.
Qed.

Lemma keeps_bind {A B} (m : action ffi_stop (FfiStatement * Conn) A) k :
  keeps_sql m → (∀ a, keeps_sql (k a)) → keeps_sql (m ≫= k : action ffi_stop _ B).
Proof.
  intros Hm Hk x. specialize (Hm x). unfold mbind, action_bind.
  destruct (m x) as [[a|e|] x']; [|done..].
  eapply same_sql_trans; [exact Hm|apply Hk].
Qed.

Lemma keeps_ret {A} (a : A) : keeps_sql (mret a).
Proof. intros x. apply same_sql_refl. Qed.
Lemma keeps_call {A} (m : adbc A) : keeps_sql (adbc_call m).
Proof. intros x. apply same_sql_refl. Qed.
Lemma keeps_get : keeps_sql stmt_get.
Proof. intros [st conn]. apply same_sql_refl. Qed.
Lemma keeps_bound b : keeps_sql (stmt_modify (with_bound_data b)).
Proof. intros [st conn]. split; [done|by left]. Qed.
Lemma keeps_parent {A} err (m : action query_stop Conn A) : keeps_sql (on_parent err m).
Proof.
  intros [st conn]. unfold on_parent. destruct (negb _); [apply same_sql_refl|].
  destruct (m conn). apply same_sql_refl.
Qed.
Lemma keeps_importing m : keeps_sql (importing_batch m).
Proof. intros [st conn]. unfold importing_batch. destruct (m conn). apply same_sql_refl. Qed.

Lemma keeps_prepare : keeps_sql stmt_prepare.
Proof.
  intros [st conn]. unfold stmt_prepare, require_sql.
  unfold mbind, action_bind, stmt_get, adbc_call, pure_call, on_parent.
  destruct (fs_sql st) as [sql|] eqn:Hs; cbn [ok_or map_err]; [|apply same_sql_refl].
  destruct (fs_attached st); cbn [negb]; [|apply same_sql_refl].
  destruct (prepare sql conn) as [[p|[|]|] conn1] eqn:Hp; cbn [blocked]; try apply same_sql_refl.
  split; [done|]. right. by exists sql, conn, conn1, p.
Qed.

Create HintDb keeps_sql.
#[local] Hint Resolve keeps_ret keeps_call keeps_get keeps_bound keeps_parent keeps_importing
  keeps_prepare : keeps_sql.

Ltac keeps :=
  repeat first
    [ solve [auto with keeps_sql]
    | apply keeps_bind; [|intros ?]
    | match goal with |- keeps_sql (match ?x with _ => _ end) => destruct x end ].

Lemma keeps_prepared : keeps_sql prepared_with_connection.
Proof. unfold prepared_with_connection. keeps. Qed.
#[local] Hint Resolve keeps_prepared : keeps_sql.

Lemma keeps_ingest : keeps_sql execute_bulk_ingest.
Proof. unfold execute_bulk_ingest, ffi_fail. cbv zeta. keeps. Qed.
#[local] Hint Resolve keeps_ingest : keeps_sql.

Lemma keeps_execute : keeps_sql (stmt_execute exhausted fuel).
Proof. unfold stmt_execute, require_sql, execute_bound_batch, query_sql. keeps. Qed.

Lemma keeps_execute_update : keeps_sql stmt_execute_update.
Proof. unfold stmt_execute_update, require_sql, execute_bound_batch_update, update_sql. keeps. Qed.

Lemma keeps_execute_schema : keeps_sql stmt_execute_schema.
Proof. unfold stmt_execute_schema. keeps. Qed.

(** What may happen to a statement and to the connection that it shares. *)
Inductive statement_step : FfiStatement * Conn → FfiStatement * Conn → Prop :=
| step_sql query st conn : statement_step (st, conn) (set_sql_query query st, conn)
| step_option key value st conn : statement_step (st, conn) (stmt_set_option key value st, conn)
| step_bind b st conn : statement_step (st, conn) (bind b st, conn)
| step_prepare x : statement_step x (stmt_prepare x).2
| step_execute x : statement_step x (stmt_execute exhausted fuel x).2
| step_execute_update x : statement_step x (stmt_execute_update x).2
| step_execute_schema x : statement_step x (stmt_execute_schema x).2
| step_connection st conn conn' : statement_step (st, conn) (st, conn').

(** The prepared statement that a driver statement holds, if it holds one, was prepared on
    the server for the SQL text that the statement has now, whatever was set, bound, prepared
    and executed on it, and whatever failed, since it was made. *)
Theorem prepared_for_sql conn x p :
  rtc statement_step (FfiStatement_new, conn) x → fs_prepared x.1 = Some p →
  ∃ sql conn0 conn1, fs_sql x.1 = Some sql ∧ prepare sql conn0 = (Ok p, conn1).
Proof.
  intros Hr. revert p.
  assert (∀ st st', same_sql st st' →
    (∀ p, fs_prepared st = Some p → ∃ sql conn0 conn1, fs_sql st = Some sql ∧ prepare sql conn0 = (Ok p, conn1)) →
    ∀ p, fs_prepared st' = Some p → ∃ sql conn0 conn1, fs_sql st' = Some sql ∧ prepare sql conn0 = (Ok p, conn1))
    as Hkeep.
  { intros st st' [Hs Hp] IH p Hst'. rewrite Hs. destruct Hp as [E|(sql & conn0 & conn1 & q & Hq & Hc & E)].
    - apply IH. by rewrite <- E.
    - rewrite Hst' in E. injection E as <-. by exists sql, conn0, conn1. }
  apply (rtc_ind_r (R := statement_step) (λ x, ∀ p, fs_prepared x.1 = Some p →
    ∃ sql conn0 conn1, fs_sql x.1 = Some sql ∧ prepare sql conn0 = (Ok p, conn1)) (FfiStatement_new, conn));
    [done| |exact Hr].
  intros y z _ Hstep IH. destruct Hstep as [query st conn1|key value st conn1|b st conn1|y|y|y|y|st conn1 conn2];
    try (exact IH).
  - intros p. cbn. case_decide as Hq; [|done]. intros Hp. destruct (IH p Hp) as (sql & conn2 & conn3 & Hs & Hc).
    cbn in Hs. rewrite Hq in Hs. injection Hs as <-. by exists query, conn2, conn3.
  - revert IH. apply Hkeep, keeps_prepare.
  - revert IH. apply Hkeep, keeps_execute.
  - revert IH. apply Hkeep, keeps_execute_update.
  - revert IH. apply Hkeep, keeps_execute_schema.
Qed.
End Rules.
