(* ===== verification/WsPassword.v ===== *)
(** * The password of a WebSocket login

    [transport/websocket.rs], [encrypt_password] and what it calls: the PEM and DER readers
    of the server's RSA key and the PKCS#1 v1.5 encryption of the password. The theorems:
    the DER reader agrees with the native transport's, and what the server decrypts is the
    password. *)
From S2P Require Import Prelude MachineInt RustStr StrText Errors Effect Json Messages.
From S2P Require Import Lifecycle Encryption Handshake HandshakeCodec.
From Stdlib Require Import Ascii.

#[local] Open Scope Z_scope.

(** base64's standard engine. *)
Class Base64 := {
  base64_encode : list byte → string;
  base64_decode : string → option (list byte);
}.

(** Documented behaviour: the code is inverted, and its text is of letters, digits and
    [+], [/] and [=]. *)
Definition base64_char (a : ascii) : bool :=
  is_ascii_alphanumeric a || Ascii.eqb a "+" || Ascii.eqb a "/" || Ascii.eqb a "=".

Class Base64Laws (B : Base64) := {
  base64_inverse bs : base64_decode (base64_encode bs) = Some bs;
  base64_alphabet bs : str_forall base64_char (base64_encode bs) = true;
}.

(** How many zero bytes in a row the random source yields from a draw on: the code draws
    again as long as it does. *)
Class ZeroRuns `{SecureRandom} := zero_run : nat → nat.
Class ZeroRunsLaws `(Z0 : ZeroRuns) :=
  zero_run_ends k : rng_fill (k + zero_run k) 1 ≠ Some [x00].

(** The number of significant bits. *)
Class BitLengthLaws (B : BigUint) :=
  bits_range z : 0 < z → 0 < bits z ∧ 2 ^ (bits z - 1) ≤ z < 2 ^ bits z.

(** ** Reading the key *)
Abbreviation text_outcome := (outcome string).

(* code: transport/websocket.rs 334-357 read_der_length *)
Definition ws_der_length (data : list byte) : text_outcome (Z * Z) :=
  match data with
  | [] => Err "Invalid DER: truncated"
  | first :: _ =>
    if byte_val first <? 128 then Ok (byte_val first, 1)
    else
      let num_bytes := Z.land (byte_val first) 127 in
      if (num_bytes =? 0) || (3 <? num_bytes) then Err "Invalid DER: truncated"
      else if Z.of_nat (length data) <? 1 + num_bytes then Err "Invalid DER: truncated"
      else Ok (der_long_length (take (Z.to_nat num_bytes) (drop 1 data)), 1 + num_bytes)
  end.

(* code: transport/websocket.rs 359-380 read_der_integer *)
Definition ws_der_integer (data : list byte) : text_outcome (list byte * Z) :=
  match data with
  | [] => Err "Invalid DER: expected INTEGER"
  | tag :: rest =>
    if negb (byte_val tag =? 2) then Err "Invalid DER: expected INTEGER"
    else
      '(int_len, len_bytes) ← ws_der_length rest;
      let header_len := 1 + len_bytes in
      if Z.of_nat (length data) <? header_len + int_len then Err "Invalid DER: truncated"
      else
        let value := take (Z.to_nat int_len) (drop (Z.to_nat header_len) data) in
        let value :=
          match value with
          | b :: (_ :: _) as tail => if byte_val b =? 0 then tail else value
          | _ => value
          end in
        Ok (value, header_len + int_len)
  end.

Definition ws_bytes_between (pos end_ : Z) (der : list byte) : text_outcome (list byte) :=
  if (0 <=? pos) && (pos <=? end_) && (end_ <=? Z.of_nat (length der))
  then Ok (take (Z.to_nat (end_ - pos)) (drop (Z.to_nat pos) der)) else Panic.

(* code: transport/websocket.rs 280-281 pem_to_pkcs1_der *)
Definition start_marker : string := "-----BEGIN RSA PUBLIC KEY-----".
(* code: transport/websocket.rs 280-281 pem_to_pkcs1_der *)
Definition end_marker : string := "-----END RSA PUBLIC KEY-----".

(* code: transport/websocket.rs 275-294 pem_to_pkcs1_der *)
Definition pem_to_pkcs1_der `{Base64} (pem : string) : text_outcome (list byte) :=
  start ← ok_or "Missing PEM start marker" (find_str start_marker pem);
  let start := (start + str_len start_marker)%nat in
  end_ ← ok_or "Missing PEM end marker" (find_str end_marker pem);
  content ← str_slice start end_ pem;
  let base64_content := join "" (filter (λ c, c ∉ white_space) (chars content)) in
  ok_or "Invalid base64 in PEM" (base64_decode base64_content).

Section Password.
Context `{BuildProfile, BigUint, SecureRandom, !ZeroRuns, Base64}.

(* code: transport/websocket.rs 296-332 parse_rsa_public_key *)
Definition ws_parse_rsa_public_key (der : list byte) : text_outcome (Z * Z) :=
  match der with
  | tag :: rest =>
    if negb (byte_val tag =? 48) then Err "Invalid DER: expected SEQUENCE"
    else
      '(seq_len, len_bytes) ← ws_der_length rest;
      let pos := 1 + len_bytes in
      let seq_end := pos + seq_len in
      if Z.of_nat (length der) <? seq_end then Err "Invalid DER: truncated"
      else
        input ← ws_bytes_between pos seq_end der;
        '(n_bytes, consumed) ← ws_der_integer input;
        let pos := pos + consumed in
        input ← ws_bytes_between pos seq_end der;
        '(e_bytes, consumed) ← ws_der_integer input;
        let pos := pos + consumed in
        if negb (pos =? seq_end) then Err "Invalid DER: trailing bytes after SEQUENCE"
        else Ok (from_bytes_be n_bytes, from_bytes_be e_bytes)
  | [] => Err "Invalid DER: expected SEQUENCE"
  end.

(** ** The padding *)
Section Draws.
Context {T : Type}.
Abbreviation draw_action A := (action string (World * T) A).

(** [rng.fill(&mut byte)] of one byte. *)
Definition random_byte : draw_action byte := λ '(w, t),
  (match rng_fill (draws w) 1 with
   | Some bs => Ok (hd x00 bs)
   | None => Err "Failed to generate random bytes"
   end, ({| now := now w; cutoff := cutoff w; draws := S (draws w) |}, t)).

(* code: transport/websocket.rs 400-408 pkcs1_v15_pad *)
Fixpoint nonzero_byte (exhausted : draw_action byte) (fuel : nat) : draw_action byte :=
  b ← random_byte;
  if decide (b = x00) then
    match fuel with O => exhausted | S fuel => nonzero_byte exhausted fuel end
  else mret b.

Definition padding_byte : draw_action byte := λ s,
  nonzero_byte (pure_call Panic) (zero_run (draws s.1)) s.

(* code: transport/websocket.rs 397-409 pkcs1_v15_pad *)
Fixpoint padding_bytes (n : nat) : draw_action (list byte) :=
  match n with
  | O => mret []
  | S n => b ← padding_byte; bs ← padding_bytes n; mret (b :: bs)
  end.

(* code: transport/websocket.rs 382-414 pkcs1_v15_pad *)
Definition pkcs1_v15_pad (message : list byte) (k : nat) : draw_action (list byte) :=
  if (k - 11 <? length message)%nat then pure_call (Err "Message too long for RSA modulus")
  else
    ps_len ← pure_call (arith USize (Z.of_nat k - Z.of_nat (length message) - 3));
    ps ← padding_bytes (Z.to_nat ps_len);
    mret ([x00; x02] ++ ps ++ [x00] ++ message).

(** The number right-aligned in [k] bytes. *)
(* code: transport/websocket.rs 268-270 encrypt_password *)
Definition export_number (c : Z) (k : nat) : outcome TransportError (list byte) :=
  let c_bytes := to_bytes_be c in
  start ← arith USize (Z.of_nat k - Z.of_nat (length c_bytes));
  if start <=? Z.of_nat k then
    if Z.of_nat k - start =? Z.of_nat (length c_bytes) then
      Ok (replicate (Z.to_nat start) x00 ++ c_bytes)
    else Panic
  else Panic.

(* code: transport/websocket.rs 237-273 encrypt_password *)
Definition encrypt_password (password pem : string) : io T string :=
  pkcs1_der ← try (map_err (λ e, ProtocolError ("Failed to parse RSA public key PEM: " +:+ e))
                     (pem_to_pkcs1_der pem));
  '(n, e) ← try (map_err (λ e, ProtocolError ("Failed to parse RSA public key: " +:+ e))
                   (ws_parse_rsa_public_key pkcs1_der));
  let bit_len := wrap USize (bits n) in
  if (bit_len <? 1024) || (8192 <? bit_len) then
    fail (ProtocolError ("Unsupported RSA key size: " +:+ show_nat bit_len
                         +:+ " bits (expected 1024..=8192)"))
  else
    let k := Z.to_nat ((bit_len + 7) / 8) in
    em ← map_error (λ err, Failed (ProtocolError ("Failed to pad password: " +:+ err)))
           (pkcs1_v15_pad (as_bytes password) k);
    c ← match modpow (from_bytes_be em) e n with
        | Some c => mret c
        | None => pure_call Panic
        end;
    ciphertext ← try (export_number c k);
    mret (base64_encode ciphertext).
End Draws.
End Password.

(** ** The two DER readers *)
Definition agree {A} (m : outcome string A) (m' : outcome TransportError A) : Prop :=
  match m, m' with
  | Ok a, Ok b => a = b
  | Err _, Err _ | Panic, Panic => True
  | _, _ => False
  end.

Lemma agree_bind {A B} m m' (f : A → outcome string B) (f' : A → outcome TransportError B) :
  agree m m' → (∀ a, agree (f a) (f' a)) → agree (m ≫= f) (m' ≫= f').
Proof. destruct m, m'; cbn; try done. by intros ->. Qed.

Lemma der_lengths_agree data : agree (ws_der_length data) (read_der_length data).
Proof.
  unfold ws_der_length, read_der_length, der_error. destruct data as [|b bs]; [done|].
  destruct (_ <? 128); [done|]. destruct ((_ =? 0) || (3 <? _)); [done|].
  by destruct (Z.of_nat _ <? _).
Qed.

Lemma der_integers_agree data : agree (ws_der_integer data) (read_der_integer data).
Proof.
  unfold ws_der_integer, read_der_integer, der_error. destruct data as [|b bs]; [done|].
  destruct (negb _); [done|]. apply agree_bind; [apply der_lengths_agree|].
  intros [l k]. by destruct (_ <? _).
Qed.

Lemma bytes_between_agree a b der : agree (ws_bytes_between a b der) (bytes_between a b der).
Proof. unfold ws_bytes_between, bytes_between. by destruct (_ && _). Qed.

(** The two transports read the same RSA keys: the DER reader of the WebSocket transport and
    the native one accept the same bytes, as the same modulus and exponent, and neither
    panics. *)
Theorem der_readers_agree `{BigUint} der :
  agree (ws_parse_rsa_public_key der) (parse_rsa_public_key_pkcs1_der der) ∧
  no_panic (ws_parse_rsa_public_key der).
Proof.
  assert (agree (ws_parse_rsa_public_key der) (parse_rsa_public_key_pkcs1_der der)) as Ha.
  { unfold ws_parse_rsa_public_key, parse_rsa_public_key_pkcs1_der, der_error.
    destruct der as [|tag rest]; [done|]. destruct (negb _); [done|].
    apply agree_bind; [apply der_lengths_agree|]. intros [l k]. destruct (_ <? _); [done|].
    apply agree_bind; [apply bytes_between_agree|]. intros input.
    apply agree_bind; [apply der_integers_agree|]. intros [nb c1].
    apply agree_bind; [apply bytes_between_agree|]. intros input2.
    apply agree_bind; [apply der_integers_agree|]. intros [eb c2]. by destruct (negb _). }
  split; [done|]. pose proof (parse_der_safe der) as Hs. unfold no_panic in *. intros Hp.
  rewrite Hp in Ha. by destruct (parse_rsa_public_key_pkcs1_der der).
Qed.

(** ** PEM *)
Definition line_feed : ascii := "010".

(** The text with its line breaks removed. *)
Fixpoint unwrap (s : string) : string :=
  match s with
  | EmptyString => ""
  | String a s => if Ascii.eqb a line_feed then unwrap s else String a (unwrap s)
  end.

Definition pem_char (a : ascii) : bool := base64_char a || Ascii.eqb a line_feed.

Definition pem_text (body : string) : string :=
  start_marker +:+ String line_feed body +:+ end_marker.

Lemma chars_ascii s :
  str_forall is_ascii_char s = true →
  chars s = (λ a, String a "") <$> String.list_ascii_of_string s.
Proof.
  induction s as [|a s IH]; [done|]. cbn [str_forall chars String.list_ascii_of_string].
  intros [Ha Hs]%andb_true_iff. rewrite IH by done. rewrite fmap_cons.
  destruct s as [|b s]; [done|]. cbn [String.list_ascii_of_string fmap list_fmap starts_cont].
  cbn [str_forall] in Hs. apply andb_true_iff in Hs as [Hb _]. by rewrite ascii_not_cont.
Qed.

Lemma pem_char_cases a :
  pem_char a = true →
  is_ascii_char a = true ∧ Ascii.eqb a "-" = false ∧
  (if Ascii.eqb a line_feed then String a "" ∈ white_space else String a "" ∉ white_space).
Proof.
  destruct a as [[] [] [] [] [] [] [] []]; try done; intros _; split_and!; try done;
    (eapply bool_decide_eq_true; vm_compute; reflexivity).
Qed.

Lemma visible_chars body :
  str_forall pem_char body = true →
  join "" (filter (λ c, c ∉ white_space) ((λ a, String a "") <$> String.list_ascii_of_string body))
  = unwrap body.
Proof.
  induction body as [|a body IH]; [done|].
  cbn [str_forall String.list_ascii_of_string unwrap]. intros [Ha Hb]%andb_true_iff.
  apply pem_char_cases in Ha as (_ & _ & Hw). rewrite fmap_cons.
  destruct (Ascii.eqb a line_feed).
  - rewrite filter_cons_False by tauto. by apply IH.
  - rewrite filter_cons_True by done. rewrite <- IH by done. cbn [join].
    by destruct (filter _ _).
Qed.

(** The end marker is not found in the body. *)
Lemma find_end_marker body rest :
  str_forall pem_char body = true →
  find_str end_marker (body +:+ end_marker +:+ rest) = Some (str_len body).
Proof.
  induction body as [|a body IH]; intros Hb.
  - rewrite str_app_nil_l. unfold find_str, end_marker. cbn. reflexivity.
  - cbn [str_forall] in Hb. apply andb_true_iff in Hb as [(_ & Ha & _)%pem_char_cases Hb].
    rewrite str_app_cons. cbn [find_str]. 
    assert (starts_with end_marker (String a (body +:+ end_marker +:+ rest)) = false) as ->.
    { unfold starts_with, end_marker. rewrite strip_prefix_head; [done|].
      by rewrite Ascii.eqb_sym. }
    by rewrite IH.
Qed.

Lemma find_after_start s :
  find_str end_marker (start_marker +:+ String line_feed s)
  = (λ n, str_len start_marker + S n)%nat <$> find_str end_marker s.
Proof.
  unfold start_marker. rewrite !str_app_cons, str_app_nil_l.
  set (tail := find_str end_marker s). cbn. fold end_marker.
  change (find_str end_marker s) with tail. by destruct tail.
Qed.

Lemma find_at_start p s : starts_with p s = true → find_str p s = Some 0%nat.
Proof. intros Hs. by destruct s; cbn [find_str]; rewrite Hs. Qed.

Lemma pem_read `{Base64Laws} body der :
  str_forall pem_char body = true → unwrap body = base64_encode der →
  pem_to_pkcs1_der (pem_text body) = Ok der.
Proof.
  intros Hb Hu. unfold pem_to_pkcs1_der, pem_text.
  rewrite (find_at_start start_marker) by apply starts_with_app.
  cbn [ok_or mbind outcome_bind]. rewrite str_app_cons, find_after_start, Nat.add_0_l.
  pose proof (find_end_marker body "" Hb) as Hf. rewrite str_app_nil_r in Hf. rewrite Hf.
  cbn [fmap option_fmap option_map ok_or mbind outcome_bind].
  pose proof (str_slice_app (E := string) start_marker (String line_feed body) end_marker) as Hs.
  rewrite str_app_cons in Hs. change (str_len (String line_feed body)) with (S (str_len body)) in Hs.
  assert (str_forall is_ascii_char body = true) as Ha.
  { eapply str_forall_impl; [|exact Hb]. intros a Ha. by apply pem_char_cases in Ha as (? & _). }
  rewrite Hs.
  2:{ rewrite str_forall_app. cbn [str_forall]. by rewrite str_forall_app, Ha. }
  cbn [mbind outcome_bind].
  rewrite chars_ascii by (cbn [str_forall]; by rewrite Ha).
  change (fmap (M := list) (λ a, String a "") (String.list_ascii_of_string (String line_feed body)))
    with ((λ a, String a "") <$> String.list_ascii_of_string (String line_feed body)).
  rewrite visible_chars by (cbn [str_forall]; by rewrite Hb).
  cbn [unwrap]. rewrite Ascii.eqb_refl, Hu, base64_inverse. done.
Qed.

(** ** What the server decrypts *)
Fixpoint after_zero (bs : list byte) : option (list byte) :=
  match bs with
  | [] => None
  | b :: bs => if decide (b = x00) then Some bs else after_zero bs
  end.

(** The message of a PKCS#1 v1.5 encryption block. *)
Definition server_unpad (em : list byte) : option (list byte) :=
  match em with
  | x00 :: x02 :: rest => after_zero rest
  | _ => None
  end.

Definition key_bytes_of (n : Z) `{BigUint} : nat := Z.to_nat ((bits n + 7) / 8).

(** The server decodes the text, decrypts it with the private exponent and removes the padding. *)
Definition server_password `{BigUint, Base64} (d n : Z) (text : string) : option (list byte) :=
  cipher ← base64_decode text;
  server_unpad (be_bytes (key_bytes_of n) (be_val cipher ^ d mod n)).

Definition rsa_keys (n e d : Z) : Prop :=
  0 ≤ e ∧ 0 ≤ d ∧ ∀ m, 0 ≤ m < n → (m ^ e mod n) ^ d mod n = m.

Lemma after_zero_app bs message :
  Forall (λ b, b ≠ x00) bs → after_zero (bs ++ x00 :: message) = Some message.
Proof.
  induction 1 as [|b bs Hb _ IH]; cbn [app after_zero]; [done|]. by rewrite decide_False.
Qed.

Section Server.
Context `{BuildProfile, BL : BigUintLaws, !BitLengthLaws B}.
Context `{RL : SecureRandomLaws, !ZeroRuns, !ZeroRunsLaws _}.
Context `{B64 : Base64Laws}.
Context {T : Type}.
Implicit Types (w : World) (t : T).

(** The world after [k] more draws. *)
Definition drawn (k : nat) (w : World) : World :=
  {| now := now w; cutoff := cutoff w; draws := k + draws w |}.

Lemma random_byte_ok w t :
  rng_works → ∃ b, rng_fill (draws w) 1 = Some [b] ∧
    random_byte (w, t) = (Ok b, (drawn 1 w, t)).
Proof.
  intros Hr. destruct (Hr (draws w) 1%nat) as [bs Hbs].
  pose proof (rng_fill_length _ _ _ Hbs) as Hl. destruct bs as [|b [|]]; try done.
  exists b. unfold random_byte. by rewrite Hbs.
Qed.

Lemma nonzero_byte_ok exhausted fuel w t :
  rng_works → rng_fill (draws w + fuel) 1 ≠ Some [x00] →
  ∃ b k, nonzero_byte exhausted fuel (w, t) = (Ok b, (drawn k w, t)) ∧ b ≠ x00.
Proof.
  intros Hr. revert w. induction fuel as [|fuel IH]; intros w Hz;
    destruct (random_byte_ok w t Hr) as (b & Hb & Hrun); cbn [nonzero_byte];
    rewrite (run_bind _ _ _ _ _ Hrun); destruct (decide (b = x00)) as [->|Hne];
    try (eexists b, 1%nat; by split).
  - by rewrite Nat.add_0_r, Hb in Hz.
  - destruct (IH (drawn 1 w)) as (c & k & Hc & Hne).
    { cbn. by rewrite <- Nat.add_succ_r. }
    exists c, (k + 1)%nat. rewrite Hc. split; [|done]. unfold drawn. cbn.
    by rewrite <- Nat.add_assoc.
Qed.

Lemma padding_bytes_ok n w t :
  rng_works → ∃ bs k, padding_bytes n (w, t) = (Ok bs, (drawn k w, t)) ∧
    length bs = n ∧ Forall (λ b, b ≠ x00) bs.
Proof.
  intros Hr. revert w. induction n as [|n IH]; intros w.
  { exists [], O. split_and!; [by destruct w|done|constructor]. }
  destruct (nonzero_byte_ok (pure_call Panic) (zero_run (draws w)) w t Hr) as (b & k & Hb & Hne).
  { apply zero_run_ends. }
  destruct (IH (drawn k w)) as (bs & j & Hbs & Hl & Hall). exists (b :: bs), (j + k)%nat.
  cbn [padding_bytes]. erewrite run_bind by exact Hb. erewrite run_bind by exact Hbs.
  split_and!; [|cbn; by rewrite Hl|by constructor]. unfold drawn. cbn. by rewrite <- Nat.add_assoc.
Qed.

Lemma pad_ok message k w t :
  rng_works → (length message + 11 ≤ k)%nat → Z.of_nat k ≤ imax USize →
  ∃ ps j, pkcs1_v15_pad message k (w, t)
          = (Ok ([x00; x02] ++ ps ++ [x00] ++ message), (drawn j w, t)) ∧
    length ([x00; x02] ++ ps ++ [x00] ++ message) = k ∧ Forall (λ b, b ≠ x00) ps.
Proof.
  intros Hr Hk Hmax. unfold pkcs1_v15_pad.
  destruct (Nat.ltb_spec (k - 11) (length message)); [lia|].
  rewrite arith_in by range.
  destruct (padding_bytes_ok (Z.to_nat (Z.of_nat k - Z.of_nat (length message) - 3)) w t Hr)
    as (ps & j & Hps & Hl & Hne).
  exists ps, j. split; [|split; [rewrite !length_app; cbn; lia|done]].
  erewrite run_bind by reflexivity. by erewrite run_bind by exact Hps.
Qed.

Lemma export_ok c k :
  0 ≤ c < 256 ^ Z.of_nat k → (0 < k)%nat → Z.of_nat k ≤ imax USize →
  export_number c k = Ok (be_bytes k c).
Proof.
  intros Hc Hk Hmax. unfold export_number.
  pose proof (to_bytes_short c k Hc Hk) as Hl. pose proof (to_bytes_val c ltac:(lia)) as Hv.
  set (bs := to_bytes_be c) in *. run_arith.
  destruct (Z.leb_spec (Z.of_nat k - Z.of_nat (length bs)) (Z.of_nat k)); [|lia].
  destruct (Z.eqb_spec (Z.of_nat k - (Z.of_nat k - Z.of_nat (length bs))) (Z.of_nat (length bs)));
    [|lia].
  rewrite <- (be_bytes_aligned k c bs Hv Hl). repeat f_equal. lia.
Qed.

(** A block is smaller than the modulus. *)
Lemma block_below n rest :
  0 < n → key_bytes_of n = S (length rest) → (0 < length rest)%nat → 0 ≤ be_val (x00 :: rest) < n.
Proof.
  intros Hn Hk Hr. pose proof (bits_range n Hn) as (Hb & Hlow & _).
  pose proof (be_val_zeros 1 rest) as Hz. cbn [replicate app] in Hz. rewrite Hz.
  pose proof (be_val_range rest) as Hv. unfold key_bytes_of in Hk.
  assert (256 ^ Z.of_nat (length rest) = 2 ^ (8 * Z.of_nat (length rest))) as H256
    by (rewrite Z.pow_mul_r by lia; done).
  assert (8 * Z.of_nat (length rest) ≤ bits n - 1).
  { pose proof (Z.div_mod (bits n + 7) 8 ltac:(lia)).
    pose proof (Z.mod_pos_bound (bits n + 7) 8 ltac:(lia)). lia. }
  assert (2 ^ (8 * Z.of_nat (length rest)) ≤ 2 ^ (bits n - 1)) as Hpow
    by (apply Z.pow_le_mono_r; lia).
  rewrite H256 in Hv. lia.
Qed.

Lemma number_fits n c : 0 < n → 0 ≤ c < n → c < 256 ^ Z.of_nat (key_bytes_of n).
Proof.
  intros Hn Hc. pose proof (bits_range n Hn) as (Hb & _ & Hup). unfold key_bytes_of.
  assert (0 ≤ (bits n + 7) / 8) by (apply Z.div_pos; lia). rewrite Z2Nat.id by done.
  change 256 with (2 ^ 8). rewrite <- Z.pow_mul_r by lia.
  pose proof (Z.div_mod (bits n + 7) 8 ltac:(lia)).
  pose proof (Z.mod_pos_bound (bits n + 7) 8 ltac:(lia)).
  assert (2 ^ bits n ≤ 2 ^ (8 * ((bits n + 7) / 8))) by (apply Z.pow_le_mono_r; lia). lia.
Qed.

Lemma ws_der_key nb eb :
  (length (der_integer nb ++ der_integer eb) < 256 ^ 3)%nat →
  (length nb < 256 ^ 3)%nat → (length eb < 256 ^ 3)%nat →
  ws_parse_rsa_public_key (der_key nb eb) = Ok (be_val nb, be_val eb).
Proof.
  intros Hl Hn He. destruct (der_readers_agree (der_key nb eb)) as [Ha _].
  pose proof (parse_der_key nb eb Hl Hn He) as Hp. unfold parse_rsa_public_key, der_key in Hp.
  cbn [head fmap option_fmap option_map] in Hp. rewrite bool_decide_true in Hp by done.
  fold (der_key nb eb) in Hp. rewrite Hp in Ha.
  by destruct (ws_parse_rsa_public_key _) as [[n e]|e|]; cbn in Ha; [rewrite Ha|..].
Qed.

(** C17: The password of a WebSocket login reaches the server: with a PKCS#1 key of 1024 to 8192
    bits in PEM, wrapped in any way, and a password that leaves room for the padding, what is
    sent decodes, decrypts with the private exponent and unpads to the password; whatever
    the random source draws, zeros included, nothing but the number of draws changes. *)
Theorem password_reaches_server pwd body nb eb d w t :
  rng_works →
  (length (der_integer nb ++ der_integer eb) < 256 ^ 3)%nat →
  (length nb < 256 ^ 3)%nat → (length eb < 256 ^ 3)%nat →
  str_forall pem_char body = true → unwrap body = base64_encode (der_key nb eb) →
  1024 ≤ bits (be_val nb) ≤ 8192 → rsa_keys (be_val nb) (be_val eb) d →
  (length (as_bytes pwd) + 11 ≤ key_bytes_of (be_val nb))%nat →
  ∃ text k, encrypt_password pwd (pem_text body) (w, t) = (Ok text, (drawn k w, t)) ∧
    server_password d (be_val nb) text = Some (as_bytes pwd).
Proof.
  intros Hr Hl Hn He Hb Hu Hbits (Hepos & Hd & Hrsa) Hlen.
  set (n := be_val nb) in *. set (e := be_val eb) in *.
  assert (0 < n) as Hnpos.
  { destruct (decide (n = 0)) as [Hz|]; [|pose proof (be_val_range nb); lia].
    pose proof (proj2 (bits_zero n ltac:(lia)) Hz). lia. }
  assert (Z.of_nat (key_bytes_of n) ≤ 1024) as Hkmax.
  { unfold key_bytes_of. assert ((bits n + 7) / 8 < 1025) by (apply Z.div_lt_upper_bound; lia). lia. }
  assert (1024 ≤ imax USize) as Hmax by done.
  destruct (pad_ok (as_bytes pwd) (key_bytes_of n) w t Hr Hlen ltac:(lia)) as (ps & k & Hpad & Hem & Hps).
  set (em := [x00; x02] ++ ps ++ [x00] ++ as_bytes pwd) in *.
  assert (0 ≤ be_val em < n) as Hm.
  { apply (block_below n (tl em)); [done|by rewrite <- Hem|cbn; lia]. }
  pose proof (Z.mod_pos_bound (be_val em ^ e) n Hnpos) as Hc.
  assert (0 ≤ be_val em ^ e mod n < 256 ^ Z.of_nat (key_bytes_of n)) as Hfit
    by (split; [lia|by apply number_fits]).
  exists (base64_encode (be_bytes (key_bytes_of n) (be_val em ^ e mod n))), k. split.
  - unfold encrypt_password. rewrite pem_read with (der := der_key nb eb) by done.
    erewrite run_bind by reflexivity. rewrite ws_der_key by done. erewrite run_bind by reflexivity.
    cbv beta iota zeta. fold n e. rewrite wrap_id by range.
    destruct (Z.ltb_spec (bits n) 1024); [lia|]. destruct (Z.ltb_spec 8192 (bits n)); [lia|].
    cbn [orb]. fold (key_bytes_of n). unfold map_error.
    erewrite run_bind by (rewrite Hpad; reflexivity).
    rewrite from_bytes_val, modpow_val by done. erewrite run_bind by reflexivity.
    rewrite export_ok by (done || lia). by erewrite run_bind by reflexivity.
  - unfold server_password. rewrite base64_inverse. cbn [mbind option_bind].
    rewrite be_val_bytes, (Z.mod_small (be_val em ^ e mod n)) by exact Hfit. rewrite Hrsa by exact Hm.
    rewrite <- Hem, be_bytes_val. subst em. cbn [app server_unpad]. by apply after_zero_app.
Qed.
End Server.

(** ** A key of 1024 bits, and base64 as hexadecimal digits *)
Definition hex_value (a : ascii) : option Z :=
  let c := ascii_code a in
  if is_digit a then Some (c - 48)
  else if (97 <=? c) && (c <=? 102) then Some (c - 87) else None.

Fixpoint hex_bytes (s : string) : option (list byte) :=
  match s with
  | EmptyString => Some []
  | String a (String b s) =>
    x ← hex_value a; y ← hex_value b; bs ← hex_bytes s; Some (byte_of (16 * x + y) :: bs)
  | String _ EmptyString => None
  end.

Definition hex_base64 : Base64 :=
  {| base64_encode bs := join "" (show_hex_byte <$> bs); base64_decode := hex_bytes |}.

#[global] Instance hex_base64_laws : Base64Laws hex_base64.
Proof.
  assert (∀ b s, hex_bytes (show_hex_byte b +:+ s) = bs ← hex_bytes s; Some (b :: bs)) as Hb
    by (intros [] s; reflexivity).
  assert (∀ b, str_forall base64_char (show_hex_byte b) = true) as Hc by (by intros []).
  assert (∀ b bs, join "" (show_hex_byte <$> b :: bs) = show_hex_byte b +:+ join "" (show_hex_byte <$> bs))
    as Hj by (intros b [|c bs]; cbn; [by rewrite str_app_nil_r|by rewrite str_app_nil_l]).
  split; cbn [base64_encode base64_decode hex_base64]; intros bs;
    induction bs as [|b bs IH]; try done; rewrite Hj.
  - by rewrite Hb, IH.
  - by rewrite str_forall_app, Hc, IH.
Qed.

#[global] Instance z_bit_length : BitLengthLaws z_biguint.
Proof.
  intros z Hz. cbn [bits z_biguint]. destruct (Z.eqb_spec z 0); [lia|].
  pose proof (Z.log2_nonneg z). pose proof (Z.log2_spec z Hz) as [Hlow Hup].
  rewrite Z.add_simpl_r. rewrite Z.add_1_r. split; [lia|done].
Qed.

Definition no_zeros : ZeroRuns (H := sevens) := λ _, O.
#[global] Instance no_zeros_laws : ZeroRunsLaws no_zeros.
Proof. intros k. by vm_compute. Qed.

Definition modulus_bytes : list byte := x80 :: replicate 127 x00.
Definition exponent_bytes : list byte := [x01].
Definition sample_pem : string :=
  base64_encode (Base64 := hex_base64) (der_key modulus_bytes exponent_bytes).

Lemma below_pem_limit n : (n < 1000)%nat → (n < 256 ^ 3)%nat.
Proof.
  intros Hn. apply Nat2Z.inj_lt. rewrite Nat2Z.inj_pow.
  change (Z.of_nat 256 ^ Z.of_nat 3) with 16777216. lia.
Qed.

Lemma password_reaches_server_witness :
  ∃ text k, encrypt_password (H := dev_profile) (H0 := z_biguint) (H1 := sevens)
            (H2 := no_zeros) (H3 := hex_base64) "exasol" (pem_text sample_pem)
            ({| now := 0; cutoff := None; draws := 0 |}, tt)
          = (Ok text, (drawn k {| now := 0; cutoff := None; draws := 0 |}, tt)) ∧
    server_password (H := z_biguint) (H0 := hex_base64) 1 (be_val modulus_bytes) text
    = Some (as_bytes "exasol").
Proof.
  destruct (password_reaches_server (H := dev_profile) (BL := z_biguint_laws)
    (RL := sevens_laws) (ZeroRunsLaws0 := no_zeros_laws) (B64 := hex_base64_laws)
    "exasol" sample_pem modulus_bytes exponent_bytes 1 {| now := 0; cutoff := None; draws := 0 |} tt)
    as (text & k & Hrun & Hread).
  - intros k n. by eexists.
  - apply below_pem_limit. by_decision.
  - apply below_pem_limit. by_decision.
  - apply below_pem_limit. by_decision.
  - vm_compute. reflexivity.
  - vm_compute. reflexivity.
  - by_decision.
  - split; [done|]. split; [done|]. intros m Hm.
    change (be_val exponent_bytes) with 1. rewrite !Z.pow_1_r.
    by rewrite (Z.mod_small m) by exact Hm; apply Z.mod_small.
  - by_decision.
  - exists text, k. split; [exact Hrun|exact Hread].
Defined.
