(* ===== verification/WsMessages.v ===== *)
(** * WebSocket messages

    The JSON messages of [transport/messages.rs]: requests as the objects that their
    [Serialize] writes, members in the order of the struct, and responses as their
    [Deserialize] reads them: members by name, unknown ones skipped, an absent [Option] is
    [None], a known member that is repeated is an error. *)
From S2P Require Import Prelude MachineInt RustStr Json ExasolTypes ResultParser Messages.
From S2P Require Import RowMajor.

#[local] Open Scope Z_scope.

(** ** Reading values *)
Section Readers.
Context `{SerdeJson}.

Definition de_string (v : json) : option string := json_as_str v.
Definition de_bool (v : json) : option bool := json_as_bool v.
Definition de_i64 (v : json) : option Z := json_as_i64 v.
Definition de_i32 (v : json) : option Z := json_as_i64 v ≫= checked I32.

Definition de_option {A} (de : json → option A) (v : json) : option (option A) :=
  match v with JNull => Some None | v => Some <$> de v end.
Definition de_list {A} (de : json → option A) (v : json) : option (list A) :=
  match v with JArray vs => mapM de vs | _ => None end.
Definition de_string_map (v : json) : option (gmap string string) :=
  match v with
  | JObject ms =>
    entries ← mapM (λ '(k, v), pair k <$> de_string v) ms;
    Some (foldl (λ m '(k, v), <[k := v]> m) ∅ entries)
  | _ => None
  end.

(** The members of a struct: an object has them by name; an array has the values in the
    order of the fields [names], of which those behind the first [required] have a default. *)
Definition members_of (names : list string) (required : nat) (v : json)
    : option (list (string * json)) :=
  match v with
  | JObject ms => Some ms
  | JArray vs =>
    if ((required <=? length vs) && (length vs <=? length names))%nat
    then Some (zip names vs) else None
  | _ => None
  end.

Definition values_of (name : string) (ms : list (string * json)) : list json :=
  snd <$> filter (λ m, m.1 = name) ms.

Definition field {A} (de : json → option A) (name : string) (ms : list (string * json))
    : option A :=
  match values_of name ms with [v] => de v | _ => None end.

(** [Option<A>], and a field with [#[serde(default)]]. *)
Definition optional {A} (de : json → option A) (name : string) (ms : list (string * json))
    : option (option A) :=
  match values_of name ms with [] => Some None | [v] => de_option de v | _ => None end.
End Readers.

(** ** Common types *)
(* code: transport/messages.rs 975-983 ExceptionInfo *)
Record ExceptionInfo := { ex_sql_code : option string; ex_text : string }.

(* code: transport/messages.rs 925-937 ResponseAttributes *)
Record ResponseAttributes := { ra_current_schema : option string }.

Section Common.
Context `{SerdeJson}.

(* code: transport/messages.rs 975-983 ExceptionInfo *)
Definition de_exception (v : json) : option ExceptionInfo :=
  ms ← members_of ["sqlCode"; "text"] 2 v;
  code ← optional de_string "sqlCode" ms;
  text ← field de_string "text" ms;
  Some {| ex_sql_code := code; ex_text := text |}.

(* code: transport/messages.rs 925-937 ResponseAttributes *)
Definition de_attributes (v : json) : option ResponseAttributes :=
  ms ← members_of ["currentSchema"] 1 v;
  schema ← optional de_string "currentSchema" ms;
  Some {| ra_current_schema := schema |}.

(* code: transport/messages.rs 376-404 DataType *)
Definition de_data_type (v : json) : option DataType :=
  ms ← members_of ["type"; "precision"; "scale"; "size"; "characterSet"; "withLocalTimeZone";
                   "fraction"; "srid"] 8 v;
  name ← field de_string "type" ms;
  precision ← optional de_i32 "precision" ms;
  scale ← optional de_i32 "scale" ms;
  size ← optional de_i64 "size" ms;
  charset ← optional de_string "characterSet" ms;
  local ← optional de_bool "withLocalTimeZone" ms;
  fraction ← optional de_i32 "fraction" ms;
  srid ← optional de_i32 "srid" ms;
  Some {| dt_type_name := name; dt_precision := precision; dt_scale := scale; dt_size := size;
          dt_character_set := charset; dt_with_local_time_zone := local;
          dt_fraction := fraction; dt_srid := srid |}.

(* code: transport/messages.rs 366-374 ColumnInfo *)
Definition de_column (v : json) : option ColumnInfo :=
  ms ← members_of ["name"; "dataType"] 2 v;
  name ← field de_string "name" ms;
  dt ← field de_data_type "dataType" ms;
  Some {| ci_name := name; ci_data_type := dt |}.
End Common.

(** ** Responses

    Every response struct has [status], [exception] and [attributes]; the first kind also
    has [response_data] of its own type. *)
(* code: transport/messages.rs 43-58 PublicKeyResponse *)
Record DataResponse (D : Type) := {
  status : string;
  response_data : option D;
  exception : option ExceptionInfo;
  attributes : option ResponseAttributes;
}.
Arguments status {D} _.
Arguments response_data {D} _.
Arguments exception {D} _.
Arguments attributes {D} _.

(* code: transport/messages.rs 567-577 CloseResultSetResponse *)
Record PlainResponse := {
  p_status : string;
  p_exception : option ExceptionInfo;
  p_attributes : option ResponseAttributes;
}.

(** A type that a response is read as: its name, its reader and its attributes. *)
(* code: transport/messages.rs 939-972 AttributedResponse *)
Record ResponseType `{SerdeJson} (R : Type) := {
  response_name : string;
  de_response : json → option R;
  reported_attributes : R → option ResponseAttributes;
}.
Arguments response_name {_ R} _.
Arguments de_response {_ R} _ _.
Arguments reported_attributes {_ R} _ _.

(* code: transport/messages.rs 60-70 PublicKeyData *)
Record PublicKeyData := {
  public_key_pem : string;
  public_key_modulus : string;
  public_key_exponent : string;
}.

(* code: transport/messages.rs 206-232 LoginResponseData *)
Record LoginResponseData := {
  lr_session_id : Z;
  lr_protocol_version : Z;
  lr_release_version : string;
  lr_database_name : string;
  lr_product_name : string;
  lr_max_data_message_size : option Z;
  lr_max_varchar_size : option Z;
  lr_max_identifier_length : option Z;
  lr_identifier_quote_string : option string;
  lr_time_zone : option string;
  lr_time_zone_behavior : option string;
}.

(* code: transport/messages.rs 1004-1016 SessionInfo::from *)
Definition session_of (d : LoginResponseData) : SessionInfo := {|
  session_id := show_int (lr_session_id d);
  protocol_version := lr_protocol_version d;
  release_version := lr_release_version d;
  database_name := lr_database_name d;
  product_name := lr_product_name d;
  max_data_message_size := default (1024 * 1024) (lr_max_data_message_size d);
  time_zone := lr_time_zone d;
|}.

Section Results.
Context `{SerdeJson}.

(* code: transport/messages.rs 343-364 ResultSetData *)
Record ResultSetData := {
  rs_handle : option Z;
  rs_num_columns : option Z;
  rs_num_rows : option Z;
  rs_num_rows_in_message : option Z;
  rs_columns : option (list ColumnInfo);
  rs_data : option (list (list json));
}.

(* code: transport/messages.rs 306-316 ResultSetInfo *)
Record ResultSetInfo := {
  result_type : string;
  ri_row_count : option Z;
  ri_result_set : option ResultSetData;
}.

(* code: transport/messages.rs 294-304 ExecuteResponseData *)
Record ExecuteResponseData := {
  num_results : Z;
  results : list ResultSetInfo;
  result_attributes : option (gmap string string);
}.

(* code: transport/messages.rs 528-541 FetchResponseData *)
Record FetchResponseData := { f_num_rows : Z; f_data : list (list json) }.

(* code: transport/messages.rs 619-628 ParameterInfo *)
Record ParameterInfo := { pi_name : option string; pi_data_type : DataType }.

(* code: transport/messages.rs 630-638 ParameterData *)
Record ParameterData := { pd_num_columns : Z; pd_columns : list ParameterInfo }.

(* code: transport/messages.rs 654-666 PreparedStatementResponseData *)
Record PreparedStatementResponseData := {
  pr_statement_handle : Z;
  pr_parameter_data : option ParameterData;
  pr_num_results : option Z;
  pr_results : option (list ResultSetInfo);
}.

(* code: transport/messages.rs 318-330 ResultEntryKind *)
Inductive ResultEntryKind := KindResultSet | KindRowCount | KindUnknown.

(* code: transport/messages.rs 333-340 ResultSetInfo::kind *)
Definition kind (r : ResultSetInfo) : ResultEntryKind :=
  if String.eqb (result_type r) "resultSet" then KindResultSet
  else if String.eqb (result_type r) "rowCount" then KindRowCount
  else KindUnknown.

Definition is_result_set (r : ResultSetInfo) : bool :=
  match kind r with KindResultSet => true | _ => false end.

(* code: transport/messages.rs 669-684 result_set_columns *)
Definition result_set_columns (d : PreparedStatementResponseData) : list ColumnInfo :=
  default []
    (entry ← head (filter (λ r, is_result_set r = true) (default [] (pr_results d)));
     set ← ri_result_set entry;
     rs_columns set).

(** ** Reading responses *)
Context `{!SerdeErrors}.

Definition of_outcome {A} (m : outcome string A) : option A :=
  match m with Ok a => Some a | _ => None end.

(* code: transport/messages.rs 60-70 PublicKeyData *)
Definition de_public_key (v : json) : option PublicKeyData :=
  ms ← members_of ["publicKeyPem"; "publicKeyModulus"; "publicKeyExponent"] 3 v;
  pem ← field de_string "publicKeyPem" ms;
  modulus ← field de_string "publicKeyModulus" ms;
  exponent ← field de_string "publicKeyExponent" ms;
  Some {| public_key_pem := pem; public_key_modulus := modulus; public_key_exponent := exponent |}.

(* code: transport/messages.rs 206-232 LoginResponseData *)
Definition de_login (v : json) : option LoginResponseData :=
  ms ← members_of ["sessionId"; "protocolVersion"; "releaseVersion"; "databaseName";
                   "productName"; "maxDataMessageSize"; "maxVarcharSize"; "maxIdentifierLength";
                   "identifierQuoteString"; "timeZone"; "timeZoneBehavior"] 11 v;
  session ← field de_i64 "sessionId" ms;
  protocol ← field de_i32 "protocolVersion" ms;
  release ← field de_string "releaseVersion" ms;
  database ← field de_string "databaseName" ms;
  product ← field de_string "productName" ms;
  message_size ← optional de_i64 "maxDataMessageSize" ms;
  varchar_size ← optional de_i64 "maxVarcharSize" ms;
  identifier_length ← optional de_i64 "maxIdentifierLength" ms;
  quote ← optional de_string "identifierQuoteString" ms;
  zone ← optional de_string "timeZone" ms;
  behavior ← optional de_string "timeZoneBehavior" ms;
  Some {| lr_session_id := session; lr_protocol_version := protocol;
          lr_release_version := release; lr_database_name := database;
          lr_product_name := product; lr_max_data_message_size := message_size;
          lr_max_varchar_size := varchar_size; lr_max_identifier_length := identifier_length;
          lr_identifier_quote_string := quote; lr_time_zone := zone;
          lr_time_zone_behavior := behavior |}.

(* code: transport/messages.rs 360-363 ResultSetData::data *)
Definition optional_rows (ms : list (string * json)) : option (option (list (list json))) :=
  match values_of "data" ms with
  | [] => Some None
  | [v] => of_outcome (to_row_major_option v)
  | _ => None
  end.

(* code: transport/messages.rs 343-364 ResultSetData *)
Definition de_result_set (v : json) : option ResultSetData :=
  ms ← members_of ["resultSetHandle"; "numColumns"; "numRows"; "numRowsInMessage"; "columns";
                   "data"] 5 v;
  handle ← optional de_i32 "resultSetHandle" ms;
  num_columns ← optional de_i32 "numColumns" ms;
  num_rows ← optional de_i64 "numRows" ms;
  in_message ← optional de_i64 "numRowsInMessage" ms;
  columns ← optional (de_list de_column) "columns" ms;
  data ← optional_rows ms;
  Some {| rs_handle := handle; rs_num_columns := num_columns; rs_num_rows := num_rows;
          rs_num_rows_in_message := in_message; rs_columns := columns; rs_data := data |}.

(* code: transport/messages.rs 306-316 ResultSetInfo *)
Definition de_result_info (v : json) : option ResultSetInfo :=
  ms ← members_of ["resultType"; "rowCount"; "resultSet"] 3 v;
  type ← field de_string "resultType" ms;
  count ← optional de_i64 "rowCount" ms;
  set ← optional de_result_set "resultSet" ms;
  Some {| result_type := type; ri_row_count := count; ri_result_set := set |}.

(* code: transport/messages.rs 294-304 ExecuteResponseData *)
Definition de_execute (v : json) : option ExecuteResponseData :=
  ms ← members_of ["numResults"; "results"; "attributes"] 3 v;
  n ← field de_i32 "numResults" ms;
  results ← field (de_list de_result_info) "results" ms;
  attributes ← optional de_string_map "attributes" ms;
  Some {| num_results := n; results := results; result_attributes := attributes |}.

(* code: transport/messages.rs 528-541 FetchResponseData *)
Definition de_fetch (v : json) : option FetchResponseData :=
  ms ← members_of ["numRows"; "data"] 2 v;
  n ← field de_i64 "numRows" ms;
  data ← field (λ v, of_outcome (to_row_major v)) "data" ms;
  Some {| f_num_rows := n; f_data := data |}.

(* code: transport/messages.rs 619-628 ParameterInfo *)
Definition de_parameter (v : json) : option ParameterInfo :=
  ms ← members_of ["name"; "dataType"] 2 v;
  name ← optional de_string "name" ms;
  dt ← field de_data_type "dataType" ms;
  Some {| pi_name := name; pi_data_type := dt |}.

(* code: transport/messages.rs 630-638 ParameterData *)
Definition de_parameters (v : json) : option ParameterData :=
  ms ← members_of ["numColumns"; "columns"] 2 v;
  n ← field de_i32 "numColumns" ms;
  columns ← field (de_list de_parameter) "columns" ms;
  Some {| pd_num_columns := n; pd_columns := columns |}.

(* code: transport/messages.rs 654-666 PreparedStatementResponseData *)
Definition de_prepared (v : json) : option PreparedStatementResponseData :=
  ms ← members_of ["statementHandle"; "parameterData"; "numResults"; "results"] 4 v;
  handle ← field de_i32 "statementHandle" ms;
  parameters ← optional de_parameters "parameterData" ms;
  n ← optional de_i32 "numResults" ms;
  results ← optional (de_list de_result_info) "results" ms;
  Some {| pr_statement_handle := handle; pr_parameter_data := parameters;
          pr_num_results := n; pr_results := results |}.

Definition de_data_response {D} (de : json → option D) (v : json) : option (DataResponse D) :=
  ms ← members_of ["status"; "responseData"; "exception"; "attributes"] 4 v;
  status ← field de_string "status" ms;
  data ← optional de "responseData" ms;
  exception ← optional de_exception "exception" ms;
  attributes ← optional de_attributes "attributes" ms;
  Some {| status := status; response_data := data; exception := exception;
          attributes := attributes |}.

Definition de_plain_response (v : json) : option PlainResponse :=
  ms ← members_of ["status"; "exception"; "attributes"] 3 v;
  status ← field de_string "status" ms;
  exception ← optional de_exception "exception" ms;
  attributes ← optional de_attributes "attributes" ms;
  Some {| p_status := status; p_exception := exception; p_attributes := attributes |}.

Definition data_type_of {D} (name : string) (de : json → option D) : ResponseType (DataResponse D) :=
  {| response_name := name; de_response := de_data_response de; reported_attributes := attributes |}.
Definition plain_type_of (name : string) : ResponseType PlainResponse :=
  {| response_name := name; de_response := de_plain_response; reported_attributes := p_attributes |}.

(* code: transport/messages.rs 43-58 PublicKeyResponse *)
Definition PublicKeyResponse := data_type_of "PublicKeyResponse" de_public_key.
(* code: transport/messages.rs 189-204 LoginResponse *)
Definition LoginResponse := data_type_of "LoginResponse" de_login.
(* code: transport/messages.rs 280-292 ExecuteResponse *)
Definition ExecuteResponse := data_type_of "ExecuteResponse" de_execute.
(* code: transport/messages.rs 514-526 FetchResponse *)
Definition FetchResponse := data_type_of "FetchResponse" de_fetch.
(* code: transport/messages.rs 640-652 CreatePreparedStatementResponse *)
Definition CreatePreparedStatementResponse :=
  data_type_of "CreatePreparedStatementResponse" de_prepared.
(* code: transport/messages.rs 567-577 CloseResultSetResponse *)
Definition CloseResultSetResponse := plain_type_of "CloseResultSetResponse".
(* code: transport/messages.rs 783-793 ClosePreparedStatementResponse *)
Definition ClosePreparedStatementResponse := plain_type_of "ClosePreparedStatementResponse".
(* code: transport/messages.rs 822-832 DisconnectResponse *)
Definition DisconnectResponse := plain_type_of "DisconnectResponse".
(* code: transport/messages.rs 878-888 SetAttributesResponse *)
Definition SetAttributesResponse := plain_type_of "SetAttributesResponse".
(* code: transport/messages.rs 913-923 GetAttributesResponse *)
Definition GetAttributesResponse := plain_type_of "GetAttributesResponse".
End Results.

(** ** Requests *)
Section Requests.
Context `{SerdeJson}.

Definition json_int (z : Z) : json := JNumber (number_of_i64 z).

(** [#[serde(skip_serializing_if = "Option::is_none")]]. *)
Definition present {A} (name : string) (ser : A → json) (v : option A) : list (string * json) :=
  match v with Some a => [(name, ser a)] | None => [] end.

(* code: transport/messages.rs 376-404 DataType *)
Definition ser_data_type (t : DataType) : json :=
  JObject ([("type", JString (dt_type_name t))]
    ++ present "precision" json_int (dt_precision t) ++ present "scale" json_int (dt_scale t)
    ++ present "size" json_int (dt_size t) ++ present "characterSet" JString (dt_character_set t)
    ++ present "withLocalTimeZone" JBool (dt_with_local_time_zone t)
    ++ present "fraction" json_int (dt_fraction t) ++ present "srid" json_int (dt_srid t)).

(* code: transport/messages.rs 366-374 ColumnInfo *)
Definition ser_column (c : ColumnInfo) : json :=
  JObject [("name", JString (ci_name c)); ("dataType", ser_data_type (ci_data_type c))].

Definition command_member (name : string) : string * json := ("command", JString name).

(* code: transport/messages.rs 27-35 LoginInitRequest::new *)
Definition LoginInitRequest : json :=
  JObject [command_member "login"; ("protocolVersion", json_int 3)].

(* code: transport/messages.rs 72-97 AuthRequest *)
Record AuthRequest := {
  ar_username : string;
  ar_password : string;
  ar_use_compression : bool;
  ar_client_name : string;
  ar_driver_name : string;
  ar_client_version : string;
  ar_client_os_username : option string;
  ar_attributes : option (list (string * json));
}.

(* code: transport/messages.rs 72-97 AuthRequest *)
Definition ser_auth (r : AuthRequest) : json :=
  JObject ([("username", JString (ar_username r)); ("password", JString (ar_password r));
            ("useCompression", JBool (ar_use_compression r));
            ("clientName", JString (ar_client_name r)); ("driverName", JString (ar_driver_name r));
            ("clientVersion", JString (ar_client_version r))]
    ++ present "clientOsUsername" JString (ar_client_os_username r)
    ++ present "attributes" JObject (ar_attributes r)).

(* code: transport/messages.rs 255-263 ExecuteRequest::new *)
Definition ExecuteRequest (sql : string) : json :=
  JObject [command_member "execute"; ("sqlText", JString sql)].

(* code: transport/messages.rs 503-511 FetchRequest::new *)
Definition FetchRequest (handle start_position num_bytes : Z) : json :=
  JObject [command_member "fetch"; ("resultSetHandle", json_int handle);
           ("startPosition", json_int start_position); ("numBytes", json_int num_bytes)].

(* code: transport/messages.rs 558-564 CloseResultSetRequest::new *)
Definition CloseResultSetRequest (handles : list Z) : json :=
  JObject [command_member "closeResultSet";
           ("resultSetHandles", JArray (json_int <$> handles))].

(* code: transport/messages.rs 600-610 CreatePreparedStatementRequest::new *)
Definition CreatePreparedStatementRequest (sql : string) : json :=
  JObject [command_member "createPreparedStatement"; ("sqlText", JString sql)].

(* code: transport/messages.rs 687-711 ExecutePreparedStatementRequest *)
Record ExecutePreparedStatementRequest := {
  ep_statement_handle : Z;
  ep_num_columns : Z;
  ep_num_rows : Z;
  ep_columns : option (list ColumnInfo);
  ep_data : option (list (list json));
  ep_attributes : option json;
}.

(* code: transport/messages.rs 714-728 ExecutePreparedStatementRequest::new *)
Definition ExecutePreparedStatementRequest_new (handle : Z) : ExecutePreparedStatementRequest :=
  {| ep_statement_handle := handle; ep_num_columns := 0; ep_num_rows := 0; ep_columns := None;
     ep_data := None; ep_attributes := None |}.

(* code: transport/messages.rs 730-749 with_data *)
Definition with_data (columns : list ColumnInfo) (data : list (list json))
    (r : ExecutePreparedStatementRequest) : ExecutePreparedStatementRequest :=
  {| ep_statement_handle := ep_statement_handle r;
     ep_num_columns := wrap I32 (Z.of_nat (length columns));
     ep_num_rows := match data with [] => 0 | c :: _ => wrap I32 (Z.of_nat (length c)) end;
     ep_columns := Some columns; ep_data := Some data; ep_attributes := ep_attributes r |}.

(* code: transport/messages.rs 687-711 ExecutePreparedStatementRequest *)
Definition ser_execute_prepared (r : ExecutePreparedStatementRequest) : json :=
  JObject ([command_member "executePreparedStatement";
            ("statementHandle", json_int (ep_statement_handle r));
            ("numColumns", json_int (ep_num_columns r)); ("numRows", json_int (ep_num_rows r))]
    ++ present "columns" (λ cs, JArray (ser_column <$> cs)) (ep_columns r)
    ++ present "data" (λ cs, JArray (JArray <$> cs)) (ep_data r)
    ++ present "attributes" id (ep_attributes r)).

(* code: transport/messages.rs 771-780 ClosePreparedStatementRequest::new *)
Definition ClosePreparedStatementRequest (handle : Z) : json :=
  JObject [command_member "closePreparedStatement"; ("statementHandle", json_int handle)].

(* code: transport/messages.rs 808-813 DisconnectRequest::new *)
Definition DisconnectRequest : json := JObject [command_member "disconnect"].

(** A map with one entry. *)
(* code: transport/messages.rs 845-851 SetAttributesRequest::new *)
Definition SetAttributesRequest (name : string) (v : json) : json :=
  JObject [command_member "setAttributes"; ("attributes", JObject [(name, v)])].

(* code: transport/messages.rs 853-858 SetAttributesRequest::autocommit *)
Definition autocommit_request (enabled : bool) : json :=
  SetAttributesRequest "autocommit" (JBool enabled).

(* code: transport/messages.rs 860-865 SetAttributesRequest::query_timeout *)
Definition query_timeout_request (seconds : Z) : json :=
  SetAttributesRequest "queryTimeout" (JNumber (number_of_u64 seconds)).

(* code: transport/messages.rs 867-875 SetAttributesRequest::current_schema *)
Definition current_schema_request (schema : string) : json :=
  SetAttributesRequest "currentSchema" (JString schema).

(* code: transport/messages.rs 899-904 GetAttributesRequest::new *)
Definition GetAttributesRequest : json := JObject [command_member "getAttributes"].
End Requests.
