(* ===== verification/WebSocket.v ===== *)
(** * The WebSocket transport

    [transport/websocket.rs]: the state of a WebSocket connection and its operations. A
    request is one text message, its response the next text message that is a JSON object;
    what the server says in between is skipped. *)
From S2P Require Import Prelude MachineInt RustStr StrText Errors Effect Float64 Json.
From S2P Require Import ExasolTypes ResultParser Messages RowMajor Lifecycle Handshake Tls.
From S2P Require Import WsPassword WsMessages.

#[local] Open Scope Z_scope.

(** ** The library under the transport *)
(** A message as its text or the error of reading it as text, or an error of the stream. *)
Inductive ws_item := Received (text : string + string) | Broken (message : string).

(** A WebSocket: the messages to come until the connection ends, and those sent. *)
Record WsStream := { incoming : list ws_item; outgoing : list string }.

Inductive MaybeTlsStream := PlainStream (s : Socket) | RustlsStream (s : Socket).

(** tokio and tungstenite: how long operations wait, the outcome of a TCP connect and of the
    upgrade, and the error of a send, with whether the message had left by then. *)
Class WebSocketLib := {
  ws_connect_delay : nat;
  ws_tcp_connect : string → Z → Socket + string;
  ws_upgrade_delay : MaybeTlsStream → nat;
  ws_upgrade : string → MaybeTlsStream → WsStream + string;
  ws_delay : WsStream → nat;
  ws_send_error : WsStream → string → option (bool * string);
}.

(** serde_json: the text of a value with its members in order; the value of a text, every
    member kept; and the [Display] of the error of reading a text as a type. *)
Class JsonText `{SerdeJson} := {
  json_to_string : json → string;
  json_from_str : string → option json;
  json_error : string → string → string;
}.

(** The [Debug] text of a result. *)
Class ResultDebug `{SerdeJson} := debug_result : ResultSetInfo → string.

(** [tokio::time::timeout]: whether the action ended in time. *)
Definition timeout {T} (duration : Z) (m : io T unit) : io T bool := λ '(w, t),
  let at_ := now w + duration in
  let inner := match cutoff w with Some c => Z.min c at_ | None => at_ end in
  let '(o, (w', t')) := m ({| now := now w; cutoff := Some inner; draws := draws w |}, t) in
  let w' := {| now := now w'; cutoff := cutoff w; draws := draws w' |} in
  (match o with
   | Ok _ => Ok true
   | Err Cancelled => if inner =? at_ then Ok false else Err Cancelled
   | Err e => Err e
   | Panic => Panic
   end, (w', t')).

(** ** The state *)
(* code: transport/websocket.rs 39-51 WebSocketTransport *)
Record WebSocketTransport := {
  ws_stream : option WsStream;
  ws_session_info : option SessionInfo;
  ws_lifecycle : ConnectionLifecycle;
  ws_fetch_positions : gmap Z Z;
  ws_current_schema : option string;
}.

(* code: transport/websocket.rs 54-63 WebSocketTransport::new *)
Definition WebSocketTransport_new : WebSocketTransport := {|
  ws_stream := None; ws_session_info := None; ws_lifecycle := ConnectionLifecycle_new;
  ws_fetch_positions := ∅; ws_current_schema := None;
|}.

Section Updates.
Context (t : WebSocketTransport).

Definition set_ws_stream (v : option WsStream) : WebSocketTransport := {|
  ws_stream := v; ws_session_info := ws_session_info t; ws_lifecycle := ws_lifecycle t;
  ws_fetch_positions := ws_fetch_positions t; ws_current_schema := ws_current_schema t |}.
Definition set_ws_session (v : option SessionInfo) : WebSocketTransport := {|
  ws_stream := ws_stream t; ws_session_info := v; ws_lifecycle := ws_lifecycle t;
  ws_fetch_positions := ws_fetch_positions t; ws_current_schema := ws_current_schema t |}.
Definition set_ws_lifecycle (v : ConnectionLifecycle) : WebSocketTransport := {|
  ws_stream := ws_stream t; ws_session_info := ws_session_info t; ws_lifecycle := v;
  ws_fetch_positions := ws_fetch_positions t; ws_current_schema := ws_current_schema t |}.
Definition set_ws_positions (v : gmap Z Z) : WebSocketTransport := {|
  ws_stream := ws_stream t; ws_session_info := ws_session_info t; ws_lifecycle := ws_lifecycle t;
  ws_fetch_positions := v; ws_current_schema := ws_current_schema t |}.
Definition set_ws_schema (v : option string) : WebSocketTransport := {|
  ws_stream := ws_stream t; ws_session_info := ws_session_info t; ws_lifecycle := ws_lifecycle t;
  ws_fetch_positions := ws_fetch_positions t; ws_current_schema := v |}.
End Updates.

Abbreviation wio := (io WebSocketTransport).

Definition ws_this : wio WebSocketTransport := λ s, (Ok s.2, s).
Definition ws_update (f : WebSocketTransport → WebSocketTransport) : wio unit :=
  modify (λ '(w, t), (w, f t)).

Section WebSocket.
Context `{BuildProfile, SerdeJson, !SerdeErrors, !JsonText, !ResultDebug, Clock, Rustls}.
Context `{WebSocketLib, BigUint, SecureRandom, !ZeroRuns, Base64}.

(** ** Requests and responses *)
Definition ws_not_connected : TransportError := ProtocolError "Not connected".

(* code: transport/websocket.rs 79-83 send_receive *)
Definition ws_stream_mut : wio WsStream :=
  t ← ws_this; try (ok_or ws_not_connected (ws_stream t)).

Definition put_stream (k : WsStream) : wio unit := ws_update (λ t, set_ws_stream t (Some k)).

(* code: transport/websocket.rs 85-89 send_receive *)
Definition ws_send (text : string) : wio unit :=
  k ← ws_stream_mut;
  _ ← await (ws_delay k);
  let sent := {| incoming := incoming k; outgoing := outgoing k ++ [text] |} in
  match ws_send_error k text with
  | Some (gone, e) =>
    _ ← (if gone : bool then put_stream sent else mret ());
    fail (SendError e)
  | None => put_stream sent
  end.

(** The messages to come are skipped up to the first JSON object. *)
(* code: transport/websocket.rs 91-109 send_receive *)
Fixpoint ws_receive (sent : list string) (items : list ws_item) : wio string :=
  _ ← await (ws_delay {| incoming := items; outgoing := sent |});
  match items with
  | [] => fail (ReceiveError "Connection closed")
  | item :: items =>
    _ ← put_stream {| incoming := items; outgoing := sent |};
    match item with
    | Broken e => fail (ReceiveError e)
    | Received (inr e) => fail (ProtocolError ("Invalid message format: " +:+ e))
    | Received (inl text) => if starts_with "{" text then mret text else ws_receive sent items
    end
  end.

(** [text.chars().take(200)]. *)
Definition preview (text : string) : string := join "" (take 200 (chars text)).

(* code: transport/websocket.rs 111-118 send_receive *)
Definition read_response {R} (type : ResponseType R) (text : string) : outcome TransportError R :=
  match json_from_str text ≫= de_response type with
  | Some response => Ok response
  | None =>
    Err (InvalidResponse ("JSON parse error: " +:+ json_error (response_name type) text
                          +:+ ". Response preview: '" +:+ preview text +:+ "'"))
  end.

(* code: transport/websocket.rs 126-130 record_current_schema *)
Definition record_current_schema (attributes : option ResponseAttributes)
    (t : WebSocketTransport) : WebSocketTransport :=
  match attributes ≫= ra_current_schema with
  | Some schema => set_ws_schema t (if String.eqb schema "" then None else Some schema)
  | None => t
  end.

(* code: transport/websocket.rs 65-122 send_receive *)
Definition send_receive {R} (type : ResponseType R) (request : json) : wio R :=
  _ ← ws_send (json_to_string request);
  k ← ws_stream_mut;
  text ← ws_receive (outgoing k) (incoming k);
  response ← try (read_response type text);
  _ ← ws_update (record_current_schema (reported_attributes type response));
  mret response.

(* code: transport/websocket.rs 146-166 check_status *)
Definition check_status (status : string) (exception : option ExceptionInfo)
    : outcome TransportError unit :=
  if String.eqb status "ok" then Ok ()
  else Err (ProtocolError
    match exception with
    | Some e => ex_text e +:+ " (SQL code: " +:+ default "unknown" (ex_sql_code e) +:+ ")"
    | None => "Unknown error"
    end).

Definition check_data {D} (r : DataResponse D) : outcome TransportError unit :=
  check_status (status r) (exception r).
Definition check_plain (r : PlainResponse) : outcome TransportError unit :=
  check_status (p_status r) (p_exception r).

Definition missing_data (what : string) : TransportError := InvalidResponse ("Missing " +:+ what).

(** The guard at the head of an operation. *)
Definition ws_require (message : string) : wio unit :=
  t ← ws_this; try (require (ws_lifecycle t) Authenticated message).

(* code: transport/websocket.rs 132-144 set_attributes *)
Definition ws_set_attributes (request : json) : wio unit :=
  _ ← ws_require "Must authenticate before setting attributes";
  response ← send_receive SetAttributesResponse request;
  try (check_plain response).

Definition set_position (handle position : Z) : wio unit :=
  ws_update (λ t, set_ws_positions t (<[handle := position]> (ws_fetch_positions t))).

(* code: transport/websocket.rs 192-224 query_result_from_response *)
Definition result_set_of (result : ResultSetInfo) : wio QueryResult :=
  set ← try (ok_or (missing_data ("result_set data. Result: " +:+ debug_result result))
               (ri_result_set result));
  columns ← try (ok_or (missing_data "columns") (rs_columns set));
  let rows := default [] (rs_data set) in
  _ ← match rs_handle set with
      | Some handle => set_position handle (wrap I64 (Z.of_nat (length rows)))
      | None => mret ()
      end;
  mret (QResultSet (rs_handle set)
          {| rd_columns := columns; rd_data := PayloadJson rows;
             rd_total_rows := default 0 (rs_num_rows set) |}).

(* code: transport/websocket.rs 168-235 query_result_from_response *)
Definition query_result_from_response (response : DataResponse ExecuteResponseData)
    : wio QueryResult :=
  _ ← try (check_data response);
  data ← try (ok_or (missing_data "response data") (response_data response));
  match results data with
  | [] => fail (InvalidResponse "No results returned")
  | result :: _ =>
    match kind result with
    | KindResultSet => result_set_of result
    | KindRowCount => mret (QRowCount (default 0 (ri_row_count result)))
    | KindUnknown => fail (InvalidResponse ("Unknown result type: " +:+ result_type result))
    end
  end.

(** ** Login and closing *)
(* code: transport/websocket.rs 423-431 auth_request *)
Definition auth_request (credentials : Credentials) (encrypted_password : string) : AuthRequest := {|
  ar_username := username credentials;
  ar_password := encrypted_password;
  ar_use_compression := false;
  ar_client_name := client_name credentials;
  ar_driver_name := DRIVER_NAME;
  ar_client_version := client_version credentials;
  ar_client_os_username := None;
  ar_attributes := None;
|}.

(* code: transport/websocket.rs 439-475 login_exchange *)
Definition ws_login_exchange (credentials : Credentials) : wio SessionInfo :=
  key_response ← send_receive PublicKeyResponse LoginInitRequest;
  _ ← try (check_data key_response);
  key ← try (ok_or (missing_data "public key data in response") (response_data key_response));
  encrypted_password ← encrypt_password (password credentials) (public_key_pem key);
  login_response ← send_receive LoginResponse (ser_auth (auth_request credentials encrypted_password));
  _ ← try (check_data login_response);
  session ← try (ok_or (missing_data "response data") (response_data login_response));
  _ ← ws_update (λ t, set_ws_session t (Some (session_of session)));
  mret (session_of session).

(** 100 ms. *)
(* code: transport/websocket.rs 494-498 send_disconnect *)
Definition drain_timeout : Z := 100 * 10 ^ 6.

(** The messages of a stream that is closing, until it ends or is silent. *)
(* code: transport/websocket.rs 494-498 send_disconnect *)
Fixpoint drain_stream (sent : list string) (items : list ws_item) : wio unit :=
  in_time ← timeout drain_timeout (await (ws_delay {| incoming := items; outgoing := sent |}));
  match items with
  | _ :: items => if in_time : bool then drain_stream sent items else mret ()
  | [] => mret ()
  end.

(** An error of the disconnect exchange or of the close frame is ignored. *)
(* code: transport/websocket.rs 477-500 send_disconnect *)
Definition ws_send_disconnect : wio unit :=
  t ← ws_this;
  _ ← (if decide (lc_state (ws_lifecycle t) = Authenticated) then
         ignore_err (λ e, bool_decide (e = Cancelled))
           (send_receive DisconnectResponse DisconnectRequest)
       else mret ());
  t ← ws_this;
  match ws_stream t with
  | Some k =>
    _ ← ws_update (λ t, set_ws_stream t None);
    _ ← await (ws_delay k);
    drain_stream (outgoing k) (incoming k)
  | None => mret ()
  end.

(* code: transport/websocket.rs 502-506 release_connection *)
Definition ws_release_connection (t : WebSocketTransport) : WebSocketTransport :=
  set_ws_schema (set_ws_session (set_ws_stream t None) None) None.

(* code: transport/websocket.rs 433-507 LifecycleSteps *)
#[export] Instance ws_steps : LifecycleSteps WebSocketTransport := {|
  lifecycle := ws_lifecycle;
  set_lifecycle lc t := set_ws_lifecycle t lc;
  login_exchange := ws_login_exchange;
  send_disconnect := ws_send_disconnect;
  release_connection := ws_release_connection;
|}.

(** ** The operations of the driver *)
(* code: transport/websocket.rs 514-520 connect *)
Definition ws_connect_tcp (params : ConnectionParams) : wio Socket :=
  _ ← await ws_connect_delay;
  match ws_tcp_connect (host params) (port params) with
  | inl k => mret k
  | inr e => fail (WebSocketError e)
  end.

(* code: transport/websocket.rs 542-552 connect *)
Definition ws_open (params : ConnectionParams) (stream : MaybeTlsStream) : wio WsStream :=
  _ ← await (ws_upgrade_delay stream);
  match ws_upgrade (to_websocket_url params) stream with
  | inl k => mret k
  | inr e => fail (WebSocketError e)
  end.

(* code: transport/websocket.rs 511-557 connect *)
Definition ws_connect (params : ConnectionParams) : wio unit :=
  t ← ws_this;
  d ← begin_connect (ws_lifecycle t) (timeout_ms params);
  tcp ← deadline_run d TcpConnect (ws_connect_tcp params);
  stream ← (if use_tls params then
              k ← deadline_run d TlsHandshake (client_handshake tcp (host params)
                    (client_config (certificate_fingerprint params)
                                   (validate_server_certificate params)));
              mret (RustlsStream k)
            else mret (PlainStream tcp));
  k ← deadline_run d WebSocketUpgrade (ws_open params stream);
  _ ← put_stream k;
  ws_update (λ t, set_ws_lifecycle t (connected (ws_lifecycle t) d)).

(* code: transport/websocket.rs 566-577 execute_query *)
Definition execute_query (sql : string) : wio QueryResult :=
  _ ← ws_require "Must authenticate before executing queries";
  response ← send_receive ExecuteResponse (ExecuteRequest sql);
  query_result_from_response response.

(** [session_info.map(|s| s.max_data_message_size).unwrap_or(1024 * 1024)]. *)
(* code: transport/websocket.rs 588-593 fetch_results *)
Definition ws_message_size (t : WebSocketTransport) : Z :=
  match ws_session_info t with Some s => max_data_message_size s | None => 1024 * 1024 end.

(* code: transport/websocket.rs 579-625 fetch_results *)
Definition fetch_results (handle : Z) : wio ResultData :=
  _ ← ws_require "Must authenticate before fetching results";
  t ← ws_this;
  let start := default 0 (ws_fetch_positions t !! handle) in
  response ← send_receive FetchResponse (FetchRequest handle start (ws_message_size t));
  _ ← try (check_data response);
  data ← try (ok_or (missing_data "response data") (response_data response));
  position ← pure_call (arith I64 (start + wrap I64 (Z.of_nat (length (f_data data)))));
  _ ← set_position handle position;
  mret {| rd_columns := []; rd_data := PayloadJson (f_data data); rd_total_rows := f_num_rows data |}.

(* code: transport/websocket.rs 627-643 close_result_set *)
Definition close_result_set (handle : Z) : wio unit :=
  _ ← ws_require "Must authenticate before closing result sets";
  _ ← ws_update (λ t, set_ws_positions t (delete handle (ws_fetch_positions t)));
  response ← send_receive CloseResultSetResponse (CloseResultSetRequest [handle]);
  try (check_plain response).

(* code: transport/websocket.rs 661-688 create_prepared_statement *)
Definition ws_prepared_handle (d : PreparedStatementResponseData) : PreparedStatementHandle :=
  let '(num_params, types, names) :=
    match pr_parameter_data d with
    | Some p => (pd_num_columns p, pi_data_type <$> pd_columns p, pi_name <$> pd_columns p)
    | None => (0, [], [])
    end in
  with_result_columns (PreparedStatementHandle_new (pr_statement_handle d) num_params types names)
    (result_set_columns d).

(* code: transport/websocket.rs 645-689 create_prepared_statement *)
Definition create_prepared_statement (sql : string) : wio PreparedStatementHandle :=
  _ ← ws_require "Must authenticate before creating prepared statements";
  response ← send_receive CreatePreparedStatementResponse (CreatePreparedStatementRequest sql);
  _ ← try (check_data response);
  data ← try (ok_or (missing_data "response data") (response_data response));
  mret (ws_prepared_handle data).

(** The types of the handle, or of the first values. *)
(* code: transport/websocket.rs 706-731 execute_prepared_statement *)
Definition prepared_columns (handle : PreparedStatementHandle) (data : list (list json))
    : list ColumnInfo :=
  let types :=
    match parameter_types handle with
    | [] => (λ values, match head values with
                       | Some v => infer_from_json v
                       | None => dt_varchar 2000000
                       end) <$> data
    | types => types
    end in
  imap (λ i dt, {| ci_name := "param" +:+ show_nat (Z.of_nat i); ci_data_type := dt |}) types.

(* code: transport/websocket.rs 691-741 execute_prepared_statement *)
Definition execute_prepared_request (handle : PreparedStatementHandle)
    (parameters : option (list (list json))) : ExecutePreparedStatementRequest :=
  let request := ExecutePreparedStatementRequest_new (ps_handle handle) in
  match parameters with
  | Some data => with_data (prepared_columns handle data) data request
  | None => request
  end.

(* code: transport/websocket.rs 691-741 execute_prepared_statement *)
Definition execute_prepared_statement (handle : PreparedStatementHandle)
    (parameters : option (list (list json))) : wio QueryResult :=
  _ ← ws_require "Must authenticate before executing prepared statements";
  response ← send_receive ExecuteResponse
               (ser_execute_prepared (execute_prepared_request handle parameters));
  query_result_from_response response.

(* code: transport/websocket.rs 743-760 close_prepared_statement *)
Definition close_prepared_statement (handle : PreparedStatementHandle) : wio unit :=
  _ ← ws_require "Must authenticate before closing prepared statements";
  response ← send_receive ClosePreparedStatementResponse
               (ClosePreparedStatementRequest (ps_handle handle));
  try (check_plain response).

(* code: transport/websocket.rs 774-777 set_autocommit *)
Definition set_autocommit (enabled : bool) : wio unit :=
  ws_set_attributes (autocommit_request enabled).

(* code: transport/websocket.rs 779-782 set_query_timeout *)
Definition set_query_timeout (timeout_secs : Z) : wio unit :=
  ws_set_attributes (query_timeout_request timeout_secs).

(* code: transport/websocket.rs 791-801 refresh_current_schema *)
Definition refresh_current_schema : wio (option string) :=
  _ ← ws_require "Must authenticate before reading attributes";
  response ← send_receive GetAttributesResponse GetAttributesRequest;
  _ ← try (check_plain response);
  t ← ws_this;
  mret (ws_current_schema t).

(* code: transport/websocket.rs 784-789 set_current_schema *)
Definition set_current_schema (schema : string) : wio unit :=
  _ ← ws_set_attributes (current_schema_request schema);
  _ ← refresh_current_schema;
  mret ().
End WebSocket.
