(* ===== verification/WsRules.v ===== *)
(** * What the WebSocket transport promises

    The transport follows the login and close rules of [Lifecycle], a request is answered
    by the next JSON object, and the pages of a result set are the server's windows. *)
From S2P Require Import Prelude MachineInt RustStr StrText Errors Effect Float64 Json.
From S2P Require Import ExasolTypes ResultParser Messages RowMajor Lifecycle Handshake Tls.
From S2P Require Import WsPassword WsMessages WebSocket ArrayBuilders ArrowConverter.
From S2P Require Import JsonColumns ResultSets ResultPages Connection.
From S2P Require Statement.
From stdpp Require Import relations.

#[local] Open Scope Z_scope.

(** ** Time and fields *)
Definition ws_step : relation (World * WebSocketTransport) := λ s s',
  in_time s s' ∧ ws_lifecycle s'.2 = ws_lifecycle s.2.

#[global] Instance ws_step_preorder : PreOrder ws_step.
Proof.
  split; [done|]. intros s1 s2 s3 [H1 H2] [H3 H4]. split; [by etransitivity|congruence].
Qed.

(** Only time passes, and draws are made. *)
Definition draws_only {T} : relation (World * T) := λ s s', in_time s s' ∧ s'.2 = s.2.

#[global] Instance draws_only_preorder T : PreOrder (draws_only (T := T)).
Proof.
  split; [done|]. intros s1 s2 s3 [H1 H2] [H3 H4]. split; [by etransitivity|congruence].
Qed.

Lemma same_time {T} w (t t' : T) k :
  in_time (w, t) ({| now := now w; cutoff := cutoff w; draws := k |}, t').
Proof. unfold in_time. cbn. split_and!; [done|lia|intros; lia]. Qed.

Lemma effects_map_error {E E' S A} (R : relation S) (f : E → E') (m : action E S A) :
  effects R m → effects R (map_error f m).
Proof. intros Hm s. unfold map_error. specialize (Hm s). by destruct (m s). Qed.

Lemma ws_step_fields w t t' : ws_lifecycle t' = ws_lifecycle t → ws_step (w, t) (w, t').
Proof. intros Hl. split; [|done]. destruct w. apply same_time. Qed.

Lemma effects_ws_this : effects ws_step ws_this.
Proof. intros s. cbn. reflexivity. Qed.

Lemma effects_ws_update f :
  (∀ t, ws_lifecycle (f t) = ws_lifecycle t) → effects ws_step (ws_update f).
Proof. intros Hf [w t]. apply ws_step_fields, Hf. Qed.

Lemma effects_ws_await delay : effects ws_step (await delay).
Proof.
  intros [w t]. split; [apply await_in_time|]. unfold await. by repeat case_match.
Qed.

#[export] Hint Resolve effects_ws_this effects_ws_await effects_map_error : effects.
#[export] Hint Extern 2 (effects ws_step (ws_update _)) =>
  (apply effects_ws_update; intros ?; reflexivity) : effects.

Section Steps.
Context `{BuildProfile, J : SerdeJson, !SerdeErrors, !JsonText, !ResultDebug, Clock, Rustls}.
Context `{WebSocketLib, BigUint, SecureRandom, !ZeroRuns, Base64}.

Lemma stream_mut_step : effects ws_step ws_stream_mut.
Proof. unfold ws_stream_mut. effects. Qed.

Lemma put_stream_step k : effects ws_step (put_stream k).
Proof. unfold put_stream. effects. Qed.

Hint Resolve stream_mut_step put_stream_step : effects.

Lemma send_step text : effects ws_step (ws_send text).
Proof. unfold ws_send. effects. Qed.

Lemma receive_step sent items : effects ws_step (ws_receive sent items).
Proof. induction items as [|item items IH]; cbn [ws_receive]; effects. Qed.

Lemma recorded_lifecycle a t : ws_lifecycle (record_current_schema a t) = ws_lifecycle t.
Proof. unfold record_current_schema. by destruct (a ≫= _). Qed.

Hint Resolve send_step receive_step : effects.

Lemma send_receive_step {R} (type : ResponseType R) request :
  effects ws_step (send_receive type request).
Proof.
  unfold send_receive. effects. apply effects_ws_update. intros t. apply recorded_lifecycle.
Qed.

Hint Resolve send_receive_step : effects.

(** ** The login *)
Lemma random_byte_step {T} : effects (draws_only (T := T)) random_byte.
Proof. intros [w t]. split; [apply same_time|done]. Qed.

Lemma nonzero_byte_step {T} exhausted fuel :
  effects draws_only exhausted → effects (draws_only (T := T)) (nonzero_byte exhausted fuel).
Proof.
  intros He. pose proof (random_byte_step (T := T)). induction fuel as [|fuel IH];
    cbn [nonzero_byte]; effects.
Qed.

Lemma padding_bytes_step {T} n : effects (draws_only (T := T)) (padding_bytes n).
Proof.
  assert (effects (draws_only (T := T)) padding_byte).
  { intros s. unfold padding_byte. apply nonzero_byte_step. apply effects_pure, _. }
  induction n as [|n IH]; cbn [padding_bytes]; effects.
Qed.

Lemma encrypt_password_step pwd pem : effects ws_step (encrypt_password pwd pem).
Proof.
  assert (effects draws_only (encrypt_password (T := WebSocketTransport) pwd pem)) as He.
  { pose proof (padding_bytes_step (T := WebSocketTransport)).
    unfold encrypt_password, pkcs1_v15_pad. effects. apply effects_map_error. effects. }
  intros s. destruct (He s) as [Ht Hs]. split; [done|]. by rewrite Hs.
Qed.

Lemma login_step credentials : effects ws_step (ws_login_exchange credentials).
Proof.
  pose proof (encrypt_password_step). unfold ws_login_exchange. effects.
Qed.

(** ** The disconnect *)
Lemma timeout_step m :
  effects ws_step m → effects ws_step (timeout drain_timeout m).
Proof.
  intros Hm [w t]. unfold timeout.
  set (inner := match cutoff w with Some c => _ | None => _ end).
  specialize (Hm ({| now := now w; cutoff := Some inner; draws := draws w |}, t)).
  destruct (m _) as [o [w' t']]. destruct Hm as [(_ & Hn & Hc) Hl]. cbn in *.
  split; [|done]. unfold in_time. cbn. split_and!; [done|lia|]. intros c Hw.
  specialize (Hc _ eq_refl). subst inner. rewrite Hw in Hc. lia.
Qed.

Lemma drain_step sent items : effects ws_step (drain_stream sent items).
Proof.
  pose proof timeout_step. induction items as [|item items IH]; cbn [drain_stream]; effects.
Qed.

Lemma disconnect_step : effects ws_step ws_send_disconnect.
Proof. pose proof drain_step. unfold ws_send_disconnect. effects. Qed.

(** Without a timer of the caller nothing is cancelled, and errors are ignored. *)
Lemma uncut_ws_this : uncut ws_this.
Proof. by intros s Hs. Qed.

Lemma uncut_ws_update f : uncut (ws_update f).
Proof. apply uncut_modify. by intros [w t]. Qed.

Hint Resolve uncut_ws_this uncut_ws_update : uncut.

Lemma uncut_ws_send text : uncut (ws_send text).
Proof. unfold ws_send, ws_stream_mut, put_stream. uncut. Qed.

Lemma uncut_ws_receive sent items : uncut (ws_receive sent items).
Proof. induction items; cbn [ws_receive]; unfold put_stream; uncut. Qed.

Hint Resolve uncut_ws_send uncut_ws_receive : uncut.

Lemma uncut_ws_request {R} (type : ResponseType R) request : uncut (send_receive type request).
Proof. unfold send_receive, ws_stream_mut. uncut. Qed.

Lemma uncut_drain sent items : uncut (drain_stream sent items).
Proof.
  assert (∀ n, uncut (timeout (T := WebSocketTransport) drain_timeout (await n))) as Ht.
  { intros n [w t] Hw. cbn in Hw. unfold timeout. rewrite Hw. cbn [fst snd].
    destruct (await n _) as [o [w' t']]. cbn. split; [|done].
    destruct o as [[]|[e|]|]; try done. by rewrite Z.eqb_refl. }
  induction items as [|item items IH]; cbn [drain_stream]; uncut.
Qed.
End Steps.

Section Rules.
Context `{BuildProfile, J : SerdeJson, !SerdeErrors, !JsonText, !ResultDebug, Clock, Rustls}.
Context `{WebSocketLib, BigUint, SecureRandom, !ZeroRuns, Base64}.

Lemma uncut_disconnect : uncut ws_send_disconnect.
Proof.
  assert (uncut (ignore_err (λ e, bool_decide (e = Cancelled))
    (send_receive DisconnectResponse DisconnectRequest))) as Hi.
  { intros s Hs. pose proof (uncut_ws_request DisconnectResponse DisconnectRequest s Hs) as [Hr Hc].
    unfold ignore_err. destruct (send_receive _ _ s) as [[a|e|] s1]; cbn in *; split; try done.
    case_bool_decide as He; [|done]. by subst. }
  pose proof uncut_drain. unfold ws_send_disconnect. uncut.
  - apply uncut_ws_this.
  - apply uncut_ws_this.
  - apply uncut_ws_update.
Qed.

Lemma ignored_err {A} (m : wio A) s e s' :
  ignore_err (λ e, bool_decide (e = Cancelled)) m s = (Err e, s') → e = Cancelled.
Proof.
  unfold ignore_err. destruct (m s) as [[a|e'|] s1]; try done.
  destruct (bool_decide (e' = Cancelled)) eqn:E; [|done]. apply bool_decide_eq_true in E as ->.
  by intros [= <- _].
Qed.

(** What an action fails with. *)
Definition only_cancelled {A} (m : wio A) : Prop := ∀ s e s', m s = (Err e, s') → e = Cancelled.

Lemma only_cancelled_bind {A B} (m : wio A) (k : A → wio B) :
  only_cancelled m → (∀ a, only_cancelled (k a)) → only_cancelled (m ≫= k).
Proof.
  intros Hm Hk s e s'. unfold mbind, action_bind.
  destruct (m s) as [[a|e1|] s1] eqn:E; [apply Hk|intros [= <- _]; by eapply Hm|done].
Qed.

Lemma only_cancelled_await n : only_cancelled (await n).
Proof. intros [w t] e s'. unfold await. repeat case_match; congruence. Qed.

Lemma only_cancelled_drain sent items : only_cancelled (drain_stream sent items).
Proof.
  assert (∀ n, only_cancelled (A := bool) (timeout drain_timeout (await n))) as Ht.
  { intros n [w t] e s'. unfold timeout. destruct (await n _) as [o [w' t']] eqn:E.
    destruct o as [[]|e1|]; try done. apply only_cancelled_await in E as ->.
    destruct (_ =? _); [done|]. by intros [= <- _]. }
  induction items as [|item items IH]; cbn [drain_stream]; apply only_cancelled_bind; try done.
  intros []; [apply IH|done].
Qed.

Lemma only_cancelled_disconnect : only_cancelled ws_send_disconnect.
Proof.
  unfold ws_send_disconnect. apply only_cancelled_bind; [done|]. intros t.
  apply only_cancelled_bind.
  { destruct (decide _); [|done]. intros s err s'. apply ignored_err. }
  intros _. apply only_cancelled_bind; [done|]. intros t'. destruct (ws_stream t'); [|done].
  apply only_cancelled_bind; [by intros [w2 t2]|]. intros _.
  apply only_cancelled_bind; [apply only_cancelled_await|]. intros _. apply only_cancelled_drain.
Qed.

(** The WebSocket transport keeps the contract of [LifecycleSteps], so that the login and the
    close rules hold of it. *)
#[export] Instance ws_lifecycle_laws : LifecycleLaws WebSocketTransport.
Proof.
  split.
  - done.
  - done.
  - intros credentials s. apply (login_step credentials s).
  - intros credentials s. apply (login_step credentials s).
  - intros s. apply (disconnect_step s).
  - intros s err s' Hs. change send_disconnect with ws_send_disconnect in Hs.
    pose proof (only_cancelled_disconnect s err s' Hs) as ->. split; [done|].
    destruct (cutoff s.1) as [c|] eqn:Ec; [by exists c|].
    pose proof (uncut_disconnect s Ec) as [Hu _]. by rewrite Hs in Hu.
Qed.
End Rules.

(** ** Requests and their answers *)
Section Requests.
Context `{BuildProfile, J : SerdeJson, !SerdeErrors, !JsonText, !ResultDebug, Clock, Rustls}.
Context `{WebSocketLib, BigUint, SecureRandom, !ZeroRuns, Base64}.
Implicit Types (w : World) (t : WebSocketTransport).

Definition arrives (text : string) : ws_item := Received (inl text).
Definition status_text (text : string) : Prop := starts_with "{" text = false.

(** The stream [k] holds status texts, then the JSON object [text]; [rest] comes after. *)
Definition holds_answer (k : WsStream) (text : string) (rest : list ws_item) : Prop :=
  ∃ statuses, incoming k = (arrives <$> statuses) ++ arrives text :: rest ∧
    Forall status_text statuses ∧ starts_with "{" text = true.

(** The transport after [request] was sent and the answer [r] taken. *)
Definition answered {R} (type : ResponseType R) (request : json) (k : WsStream)
    (rest : list ws_item) (r : R) t : WebSocketTransport :=
  record_current_schema (reported_attributes type r)
    (set_ws_stream t (Some {| incoming := rest;
                              outgoing := outgoing k ++ [json_to_string request] |})).

(** Sends that always succeed. *)
Definition sends_work : Prop := ∀ k text, ws_send_error k text = None.

Lemma await_ok {T} delay w (t t' : T) u w' :
  await delay (w, t) = (Ok u, (w', t')) → t' = t ∧ cutoff w' = cutoff w.
Proof. unfold await. repeat case_match; intros [= <- <-]; done. Qed.

Lemma await_uncut {T} delay w (t : T) :
  cutoff w = None → ∃ w', await delay (w, t) = (Ok (), (w', t)) ∧ cutoff w' = None.
Proof. intros Hw. unfold await. rewrite Hw. by eexists. Qed.

Lemma ws_receive_sound sent items w t text w' t' :
  ws_receive sent items (w, t) = (Ok text, (w', t')) →
  ∃ rest, holds_answer {| incoming := items; outgoing := sent |} text rest ∧
    t' = set_ws_stream t (Some {| incoming := rest; outgoing := sent |}).
Proof.
  revert w t. induction items as [|item items IH]; intros w t; cbn [ws_receive];
    unfold mbind, action_bind;
    destruct (await _ (w, t)) as [[u|e|] [w1 t1]] eqn:Ea; try done;
    apply await_ok in Ea as [-> _].
  unfold put_stream, ws_update, modify. cbn [fst snd].
  destruct item as [[got|e]|e]; [|done..].
  destruct (starts_with "{" got) eqn:Es.
  - intros [= <- _ <-]. exists items. split; [|done]. exists []. by split_and!.
  - intros (rest & (statuses & Hi & Hs & Ht) & ->)%IH. exists rest. split; [|by destruct t].
    exists (got :: statuses). cbn in *. rewrite Hi. by split_and!; [|constructor|].
Qed.

Lemma ws_receive_complete sent statuses text rest w t :
  cutoff w = None → Forall status_text statuses → starts_with "{" text = true →
  ∃ w', ws_receive sent ((arrives <$> statuses) ++ arrives text :: rest) (w, t)
    = (Ok text, (w', set_ws_stream t (Some {| incoming := rest; outgoing := sent |}))) ∧
    cutoff w' = None.
Proof.
  intros Hw Hs Ht. revert w t Hw. induction Hs as [|s statuses Hs _ IH]; intros w t Hw;
    cbn [fmap list_fmap app ws_receive arrives]; unfold mbind, action_bind;
    match goal with |- context [await ?n (w, t)] =>
      destruct (await_uncut n w t Hw) as (w1 & -> & Hw1) end;
    unfold put_stream, ws_update, modify; cbn [fst snd].
  - rewrite Ht. by exists w1.
  - rewrite Hs. destruct (IH w1 (set_ws_stream t (Some {| incoming :=
      (arrives <$> statuses) ++ arrives text :: rest; outgoing := sent |})) Hw1) as (w2 & -> & Hw2).
    by exists w2.
Qed.

Lemma send_receive_sound {R} (type : ResponseType R) request w t r w' t' :
  send_receive type request (w, t) = (Ok r, (w', t')) →
  ∃ k text rest, ws_stream t = Some k ∧ holds_answer k text rest ∧
    read_response type text = Ok r ∧ t' = answered type request k rest r t.
Proof.
  unfold send_receive, ws_send, ws_stream_mut, ws_this, put_stream, ws_update, modify, try,
    pure_call, mbind, action_bind. cbn [fst snd].
  destruct (ws_stream t) as [k|] eqn:Ek; [|done]. cbn [ok_or map_err].
  destruct (await _ (w, t)) as [[u|e|] [w1 t1]] eqn:Ea; try done. apply await_ok in Ea as [-> _].
  destruct (ws_send_error _ _) as [[[] e]|]; [done..|].
  cbn [ws_stream set_ws_stream ok_or map_err fst snd outgoing incoming].
  destruct (ws_receive _ _ _) as [[text|e|] [w2 t2]] eqn:Er; try done.
  apply ws_receive_sound in Er as (rest & (statuses & Hi & Hst & Ht) & ->).
  destruct (read_response type text) as [r0|e|] eqn:Ed; try done. cbn [map_err fst snd].
  intros [= -> _ <-]. exists k, text, rest. split_and!; [done|by exists statuses|done|].
  unfold answered. by destruct t.
Qed.

Lemma send_receive_complete {R} (type : ResponseType R) request k text rest w t r :
  sends_work → cutoff w = None → ws_stream t = Some k → holds_answer k text rest →
  read_response type text = Ok r →
  ∃ w', send_receive type request (w, t) = (Ok r, (w', answered type request k rest r t)) ∧
    cutoff w' = None.
Proof.
  intros Hsend Hw Hk (statuses & Hi & Hst & Ht) Hr.
  unfold send_receive, ws_send, ws_stream_mut, ws_this, put_stream, ws_update, modify, try,
    pure_call, mbind, action_bind. cbn [fst snd].
  rewrite Hk. cbn [ok_or map_err]. destruct (await_uncut (ws_delay k) w t Hw) as (w1 & -> & Hw1).
  rewrite Hsend.
  cbn [ws_stream set_ws_stream ok_or map_err outgoing incoming fst snd]. rewrite Hi.
  edestruct (ws_receive_complete (outgoing k ++ [json_to_string request]) statuses text rest w1)
    as (w2 & Hrun & Hw2); [done..|]. rewrite Hrun, Hr. cbn [map_err fst snd].
  exists w2. by split.
Qed.

(** C7: A request over a WebSocket and its answer: a response that a request returned is the
    first JSON object after any number of status texts, read as the request's response
    type; the request left as one message; nothing behind the answer was read; and the
    recorded schema is the one that the answer reports, if it does. Conversely every such
    answer is returned, where sends work and no timer cancels the request. *)
Theorem ws_request_answered {R} (type : ResponseType R) request w t r t' :
  ((∃ w', send_receive type request (w, t) = (Ok r, (w', t'))) →
   ∃ k text rest, ws_stream t = Some k ∧ holds_answer k text rest ∧
     read_response type text = Ok r ∧ t' = answered type request k rest r t) ∧
  (sends_work → cutoff w = None →
   (∃ k text rest, ws_stream t = Some k ∧ holds_answer k text rest ∧
      read_response type text = Ok r ∧ t' = answered type request k rest r t) →
   ∃ w', send_receive type request (w, t) = (Ok r, (w', t')) ∧ cutoff w' = None).
Proof.
  split.
  - intros [w' Hr]. by eapply send_receive_sound.
  - intros Hs Hw (k & text & rest & Hk & Ha & Hr & ->). by eapply send_receive_complete.
Qed.
End Requests.

(** ** Result sets and connections over a WebSocket *)
Section Results.
Context `{BuildProfile, ArrowLib, J : SerdeJson, !SerdeJsonLaws J, PowI, !SerdeErrors, !JsonText}.
Context `{!ResultDebug, Clock, Rustls, WebSocketLib, BigUint, SecureRandom, !ZeroRuns, Base64}.
Context `{!ColumnText, Statement.ParameterText, TypeJson, EmptyBatchError}.
Implicit Types (w : World) (t : WebSocketTransport).

(* code: transport/websocket.rs 509-806 TransportProtocol *)
#[export] Instance ws_protocol : TransportProtocol (World * WebSocketTransport) := {|
  transport_results := {|
    fetch_results := WebSocket.fetch_results;
    close_result_set := WebSocket.close_result_set;
  |};
  transport_connect := ws_connect;
  transport_authenticate := authenticate_within_deadline;
  transport_execute := WebSocket.execute_query;
  transport_prepare := WebSocket.create_prepared_statement;
  transport_execute_prepared := WebSocket.execute_prepared_statement;
  transport_close_prepared := WebSocket.close_prepared_statement;
  transport_set_query_timeout := WebSocket.set_query_timeout;
  transport_set_autocommit := WebSocket.set_autocommit;
  transport_set_schema := WebSocket.set_current_schema;
  transport_refresh_schema := WebSocket.refresh_current_schema;
  transport_close := close_gracefully;
  transport_current_schema s := ws_current_schema s.2;
  transport_is_connected s := is_open (ws_lifecycle s.2);
|}.

(** The server's answer to a fetch, with the rows in columns. *)
Definition fetch_reply (rows : Z) (columns : list (list json)) : json :=
  JObject [("status", JString "ok");
           ("responseData", JObject [("numRows", json_int rows);
                                     ("data", JArray (JArray <$> columns))])].

(** A turn of the server: status texts, and a text that is such an answer. *)
Record FetchTurn := {
  ft_statuses : list string;
  ft_text : string;
  ft_rows : Z;
  ft_columns : list (list json);
}.

Definition turn_items (turn : FetchTurn) : list ws_item :=
  (arrives <$> ft_statuses turn) ++ [arrives (ft_text turn)].

Definition fetch_turn (turn : FetchTurn) : Prop :=
  Forall status_text (ft_statuses turn) ∧ starts_with "{" (ft_text turn) = true ∧
  json_from_str (ft_text turn) = Some (fetch_reply (ft_rows turn) (ft_columns turn)) ∧
  in_range I64 (ft_rows turn).

Definition turn_height (turn : FetchTurn) : Z := Z.of_nat (height (ft_columns turn)).

Definition turn_data (turn : FetchTurn) : ResultData :=
  {| rd_columns := []; rd_data := PayloadJson (transposed (ft_columns turn));
     rd_total_rows := ft_rows turn |}.

(** The fetch requests of the turns: each starts where the rows received so far end. *)
Fixpoint fetch_requests (handle position limit : Z) (turns : list FetchTurn) : list string :=
  match turns with
  | [] => []
  | turn :: turns =>
    json_to_string (FetchRequest handle position limit)
      :: fetch_requests handle (position + turn_height turn) limit turns
  end.

Definition turns_height (turns : list FetchTurn) : Z := foldr Z.add 0 (turn_height <$> turns).

(** A transport with the result set [handle] read up to [position]. *)
Definition fetching (handle position limit : Z) (k : WsStream) t : Prop :=
  lc_state (ws_lifecycle t) = Authenticated ∧ ws_stream t = Some k ∧
  default 0 (ws_fetch_positions t !! handle) = position ∧ ws_message_size t = limit.

Lemma de_fetch_data n columns :
  in_range I64 n →
  de_fetch (JObject [("numRows", json_int n); ("data", JArray (JArray <$> columns))])
  = Some {| f_num_rows := n; f_data := transposed columns |}.
Proof.
  intros Hn. unfold de_fetch. cbn [members_of mbind option_bind].
  change (field de_i64 "numRows" _) with (number_as_i64 (number_of_i64 n)).
  rewrite as_i64_of by done. cbn [mbind option_bind].
  change (field _ "data" _) with (of_outcome (to_row_major (JArray (JArray <$> columns)))).
  destruct (proj1 to_row_major_transposes columns) as [Hm _]. by rewrite Hm.
Qed.

Lemma read_fetch_reply turn :
  fetch_turn turn →
  read_response FetchResponse (ft_text turn)
  = Ok {| status := "ok"; exception := None; attributes := None;
          response_data := Some {| f_num_rows := ft_rows turn;
                                   f_data := transposed (ft_columns turn) |} |}.
Proof.
  intros (_ & _ & Ht & Hr). unfold read_response. rewrite Ht. cbn [mbind option_bind].
  unfold FetchResponse, data_type_of, de_response, de_data_response, fetch_reply.
  cbn [members_of mbind option_bind].
  match goal with |- context [field de_string ?n ?ms] =>
    assert (field de_string n ms = Some "ok") as -> by reflexivity end.
  cbn [mbind option_bind].
  match goal with |- context [optional de_fetch ?n ?ms] =>
    change (optional de_fetch n ms) with (Some <$> de_fetch
      (JObject [("numRows", json_int (ft_rows turn)); ("data", JArray (JArray <$> ft_columns turn))]))
  end.
  by rewrite de_fetch_data.
Qed.

Lemma fetch_turn_runs handle position limit k t w turn rest :
  sends_work → cutoff w = None → fetching handle position limit k t → fetch_turn turn →
  incoming k = turn_items turn ++ rest → in_range I64 (position + turn_height turn) →
  Z.of_nat (height (ft_columns turn)) ≤ imax I64 →
  ∃ w' t', WebSocket.fetch_results handle (w, t) = (Ok (turn_data turn), (w', t')) ∧
    cutoff w' = None ∧
    fetching handle (position + turn_height turn) limit
      {| incoming := rest;
         outgoing := outgoing k ++ [json_to_string (FetchRequest handle position limit)] |} t'.
Proof.
  intros Hs Hw (Ha & Hk & Hp & Hl) Ht Hi Hr Hh.
  unfold WebSocket.fetch_results, ws_require, require.
  erewrite run_bind by (unfold mbind, action_bind, ws_this, try, pure_call; cbn [fst snd];
    rewrite Ha; reflexivity).
  erewrite run_bind by reflexivity. cbn [snd]. rewrite Hp, Hl.
  edestruct (send_receive_complete FetchResponse (FetchRequest handle position limit) k
    (ft_text turn) rest w t) as (w' & Hrun & Hw'); [done..| | |].
  { exists (ft_statuses turn). unfold turn_items in Hi. rewrite <- app_assoc in Hi.
    split; [exact Hi|]. by destruct Ht as (? & ? & _). }
  { by apply read_fetch_reply. }
  rewrite (run_bind _ _ _ _ _ Hrun). erewrite run_bind by reflexivity.
  erewrite run_bind by reflexivity. cbn [f_data f_num_rows]. rewrite length_transposed.
  fold (turn_height turn). rewrite wrap_id by (unfold turn_height; range).
  rewrite arith_in by done. erewrite run_bind by reflexivity. erewrite run_bind by reflexivity.
  eexists _, _. split_and!; [reflexivity|done|..]. unfold fetching, answered. cbn.
  by rewrite lookup_insert_eq.
Qed.

Lemma fetches_of_turns handle limit turns rest position k t w :
  sends_work → cutoff w = None → fetching handle position limit k t → Forall fetch_turn turns →
  incoming k = concat (turn_items <$> turns) ++ rest →
  0 ≤ position → position + turns_height turns ≤ imax I64 →
  ∃ w' t', fetches handle (w, t) (turn_data <$> turns) (w', t') ∧ cutoff w' = None ∧
    fetching handle (position + turns_height turns) limit
      {| incoming := rest;
         outgoing := outgoing k ++ fetch_requests handle position limit turns |} t'.
Proof.
  intros Hs. revert position k t w.
  induction turns as [|turn turns IH]; intros position k t w Hw Hf Hts Hi Hp Hmax.
  { exists w, t. cbn in *. rewrite app_nil_r, Z.add_0_r, <- Hi.
    split_and!; [constructor|done|by destruct k]. }
  apply Forall_cons in Hts as [Ht Hts]. cbn [fmap list_fmap concat] in Hi.
  rewrite <- app_assoc in Hi.
  assert (turns_height (turn :: turns) = turn_height turn + turns_height turns) as Hsum by done.
  assert (0 ≤ turn_height turn) by (unfold turn_height; lia).
  assert (0 ≤ turns_height turns) as Hpos.
  { clear. induction turns as [|u us IH]; [done|]. unfold turns_height, turn_height in *. cbn. lia. }
  destruct (fetch_turn_runs handle position limit k t w turn _ Hs Hw Hf Ht Hi)
    as (w1 & t1 & Hrun & Hw1 & Hf1); [range|unfold turn_height in *; lia|].
  destruct (IH _ _ _ _ Hw1 Hf1 Hts eq_refl ltac:(lia) ltac:(lia)) as (w2 & t2 & Hrest & Hw2 & Hf2).
  exists w2, t2. split_and!; [by econstructor|done|].
  cbn [outgoing fetch_requests] in *. rewrite <- app_assoc in Hf2. rewrite Hsum, Z.add_assoc.
  exact Hf2.
Qed.

(** C6: All rows of a result set over a WebSocket: with a server that answers each fetch, after
    any status texts, with the next rows in columns, and rows that complete the announced
    total, [fetch_all] returns the buffered batches and then the transposed rows of each
    answer as a batch, in the server's order; the server was asked for consecutive rows, once
    each, and nothing behind its answers was read. Then the handle is closed. *)
Theorem ws_result_set exhausted handle position limit turns rest k t w m first pages :
  sends_work → cutoff w = None → fetching handle position limit k t →
  Forall fetch_turn turns → incoming k = concat (turn_items <$> turns) ++ rest →
  0 ≤ position → position + turns_height turns ≤ imax I64 →
  Forall2 (page_of m) (turn_data <$> turns) pages →
  (0 < total_of m)%nat → row_count_of (first ++ pages) = total_of m →
  ∃ s', fetch_all exhausted (pages_left m first) (Stream (Some handle) m first false) (w, t)
        = close_after (Some handle) (Ok (first ++ pages), s') ∧
    fetching handle (position + turns_height turns) limit
      {| incoming := rest;
         outgoing := outgoing k ++ fetch_requests handle position limit turns |} s'.2.
Proof.
  intros Hs Hw Hf Hts Hi Hp Hmax Hpages Ht Hrows.
  destruct (fetches_of_turns handle limit turns rest position k t w) as (w' & t' & Hrun & _ & Hf');
    [done..|].
  exists (w', t'). split; [|done]. cbn [fetch_all]. f_equal.
  rewrite <- (paginate_bounded exhausted exhausted
    (pages_left m first + S (length (turn_data <$> turns)))) by (done || lia).
  eapply paginate_complete; [exact Hrun|done|done|done|lia].
Qed.
End Results.
