(* ===== verification/ResultWitness.v ===== *)
(** * Result sets and connections at concrete inputs

    A server that holds two pages, with the theorems on conversions and result sets applied
    to columns with values, nulls and DECIMAL texts; and a server that keeps the changes of
    each statement until they are committed, with the theorems on connections. *)
From S2P Require Import WsPassword WsMessages WebSocket WsRules Prelude MachineInt RustStr.
From S2P Require Import Float64 Json Errors Effect RowMajor ExasolTypes Interval ResultParser.
From S2P Require Import ResultSafety Messages Lifecycle ParamSplit ArrayBuilders ArrowConverter.
From S2P Require Import Conversions JsonColumns Handshake HandshakeCodec ResultCodec.
From S2P Require Import NativeTransport NativeExchange NativeConversation NativeWitness.
From S2P Require Import ResultSets ResultPages NativeResults StrText Session Connection.
From S2P Require Import ConnectionRules AdbcFfi AdbcDriver AdbcRules.
From S2P Require Statement StatementSafety ConnectionString PreparedRows ArrowCsv DateTime.

#[local] Open Scope Z_scope.

(** ** The libraries *)
#[local] Existing Instances int_numbers dev_profile small_batches table_powi
  StatementSafety.hex_text key_bytes z_biguint sevens linux any_clock no_debug no_tls one_server.

Definition plain_text : ColumnText := {|
  json_debug := json_display;
  display_arrow_type t := match t with ABoolean => "Boolean" | _ => "Decimal128(9, 2)" end;
  precision_scale_error p s :=
    if (p <? 1) || (38 <? p) || (p <? s) then Some "Invalid precision or scale" else None;
|}.
Definition named_types : TypeJson :=
  {| exasol_type_to_json := type_name; exasol_type_from_json := λ _, None |}.
Definition no_columns : EmptyBatchError := "must either specify a row count or at least one column".

#[local] Existing Instances plain_text named_types no_columns.

(** ** Columns with values and nulls *)
Definition two_columns : list ColumnInfo :=
  [{| ci_name := "FLAG"; ci_data_type := dt_boolean |};
   {| ci_name := "AMOUNT"; ci_data_type := dt_decimal 9 2 |}].

Definition row_a : list json := [JBool true; JString "1.50"].
Definition row_b : list json := [JNull; JString "-0.07"].
Definition row_c : list json := [JBool false; JNull].

Definition page (rows : list (list json)) : ResultData :=
  {| rd_columns := two_columns; rd_data := PayloadJson rows; rd_total_rows := 3 |}.

Definition two_fields : Schema :=
  match ArrowConverter_new two_columns with
  | Ok c => schema c
  | _ => {| s_fields := []; s_metadata := ∅ |}
  end.
Definition two_converter : ArrowConverter :=
  {| schema := two_fields; column_types := [Boolean; Decimal 9 2] |}.

Definition hash_columns : list ColumnInfo :=
  [{| ci_name := "H"; ci_data_type := named_type "GEOMETRY" |}].
Definition hash_converter : ArrowConverter :=
  match ArrowConverter_new hash_columns with
  | Ok c => c
  | _ => two_converter
  end.

(** A text of four bytes whose second character has two. *)
Definition split_text : string := str_of_bytes [x61; xc3; xa9; x62].

Definition hash_page : ResultData :=
  {| rd_columns := hash_columns; rd_data := PayloadJson [[JString split_text]];
     rd_total_rows := 1 |}.


Definition json_number (z : Z) : json := JNumber (inl z).

(** 1.15 as a double. *)
Definition json_fraction : json := JNumber (inr 0x3FF2666666666666).

(** Doubles without a fraction as the text of their integer. *)
Definition whole_doubles : Statement.ParameterText := {|
  Statement.show_f64 x := show_int (f64_to_int I128 x);
  Statement.hex_encode := Statement.hex_encode (ParameterText := StatementSafety.hex_text);
|}.

Definition decimal_field (precision scale : Z) : Field :=
  {| f_name := "AMOUNT"; f_data_type := ADecimal128 precision scale; f_nullable := true |}.

Section WholeDoubles.
#[local] Existing Instance whole_doubles.

End WholeDoubles.

(** ** A server with two pages *)

(** The state: the pages that were fetched, and whether the handle was closed. *)
#[local] Instance page_server : ResultTransport (nat * bool) := {|
  fetch_results _ s :=
    match [page [row_b]; page [row_c]] !! fst s, snd s with
    | Some d, false => (Ok d, (S (fst s), false))
    | _, _ => (Err (Failed (ProtocolError "no such page")), s)
    end;
  close_result_set _ s := (Ok (), (fst s, true));
|}.

Definition plain_fields : Schema :=
  {| s_fields := (λ f, {| mf_field := mf_field f; mf_metadata := ∅ |}) <$> s_fields two_fields;
     s_metadata := ∅ |}.
Definition three_rows : QueryMetadata := QueryMetadata_new plain_fields (Some 3).

Definition batch_of (rows : list (list json)) : Batch :=
  match column_major_to_record_batch rows plain_fields with
  | Ok b => b
  | _ => {| b_schema := plain_fields; b_columns := []; b_rows := 0 |}
  end.

Definition without_fuel : action query_stop (nat * bool) (list Batch) := λ s, (Panic, s).

Lemma fetch_all_exact_witness :
  (∃ pages : list Batch, length pages = 2%nat ∧ row_count_of (batch_of [row_a] :: pages) = 3%nat) ∧
  fetch_all without_fuel 9 (Stream (Some 5) three_rows
    [batch_of [row_a; row_b; row_c; row_a]] false) (O, false)
  = (Ok [batch_of [row_a; row_b; row_c; row_a]], (O, true)).
Proof.
  split.
  - destruct (fetch_all_exact without_fuel 9 (Some 5) three_rows [batch_of [row_a]] false
      (O, false)) as [Hpages _]; [vm_compute; lia|vm_compute; lia|].
    destruct (Hpages [batch_of [row_a]; batch_of [row_b]; batch_of [row_c]] (2%nat, true))
      as (pages & ds & E & _ & [Hrows|(_ & _ & _ & Hrows)] & _).
    + vm_compute. reflexivity.
    + cbn [app] in E. injection E as <-. exists [batch_of [row_b]; batch_of [row_c]]. by split.
    + vm_compute in Hrows. lia.
  - destruct (fetch_all_exact without_fuel 9 (Some 5) three_rows
      [batch_of [row_a; row_b; row_c; row_a]] false (O, false)) as [_ Hover];
      [vm_compute; lia|vm_compute; lia|].
    rewrite (Hover 5); [vm_compute; reflexivity|done|done|vm_compute; lia].
Defined.

Lemma fetch_all_terminates_witness :
  fetch_all without_fuel 1000 (Stream (Some 5) three_rows [batch_of [row_a]] false)
    (O, false)
  = (Ok [batch_of [row_a]; batch_of [row_b]; batch_of [row_c]], (2%nat, true)).
Proof.
  rewrite (fetch_all_terminates without_fuel without_fuel).
  - vm_compute. reflexivity.
  - vm_compute. lia.
  - vm_compute. lia.
Defined.

(** ** Two windows over the native transport *)
Definition date_rows (buffered : Z) : QueryMetadata :=
  QueryMetadata_new (plain_schema [{| f_name := "D"; f_data_type := ATimestamp DateTime.Second None; f_nullable := true |}])
    (Some (buffered + 3)).

Definition date_batches : list Batch := native_batch ∘ snd <$> two_windows.

Definition fetched_before : Batch :=
  {| b_schema := qm_schema (date_rows 0); b_columns := [replicate 10 None]; b_rows := 10 |}.

Lemma native_result_set_witness :
  ∃ s', fetch_all (λ s, (Panic, s)) 4 (Stream (Some 4) (date_rows 10) [fetched_before] false)
          (logged_in_over (heard two_fetches) 1000 [date_meta])
        = close_after (Some 4) (Ok (fetched_before :: date_batches), s').
Proof.
  destruct (native_result_set (λ s, (Panic, s)) 4 [date_meta] 1000 10 two_fetches two_windows
    (heard two_fetches) (said two_fetches) (ciphers_after two_fetches)
    (line (heard two_fetches)) (logged_in_over (heard two_fetches) 1000 [date_meta]) []
    (date_rows 10) [fetched_before] date_batches)
    as [(s' & Hrun & _) _].
  - exact one_server_writes.
  - apply line_connected.
  - vm_range.
  - split_and!; vm_compute; reflexivity.
  - apply converse_sound; [exact two_fetches_ok|vm_compute; reflexivity].
  - split; [reflexivity|]. split; [exists (encode_fetch 2 [(date_meta, [leap_day; None])])|].
    { split; vm_compute; reflexivity. }
    split; [vm_range|]. split; [reflexivity|]. split; [exists (encode_fetch 1 [(date_meta, [leap_day])])|].
    { split; vm_compute; reflexivity. }
    split; [vm_range|exact I].
  - symmetry. apply app_nil_r.
  - unfold two_windows, date_batches. repeat constructor; vm_compute; reflexivity.
  - vm_compute. lia.
  - vm_compute. reflexivity.
  - exists s'. exact Hrun.
Defined.

(** ** Two answers over a WebSocket *)
Definition plain_errors : SerdeErrors := λ _ expected, expected.
Definition no_result_text : ResultDebug := λ _, "".

Definition first_answer : json := fetch_reply 1 [[JNull]; [JString "-0.07"]].
Definition second_answer : json := fetch_reply 1 [[JBool false]; [JNull]].

(** A request is written as its command, and two texts are known. *)
Definition two_texts : JsonText := {|
  json_to_string v := match v with JObject ((_, JString c) :: _) => c | _ => "" end;
  json_from_str text :=
    if String.eqb text "{1}" then Some first_answer
    else if String.eqb text "{2}" then Some second_answer else None;
  json_error _ _ := "unknown text";
|}.

Definition open_socket : WebSocketLib := {|
  ws_connect_delay := O; ws_tcp_connect _ _ := inr "refused"; ws_upgrade_delay _ := O;
  ws_upgrade _ _ := inr "refused"; ws_delay _ := O; ws_send_error _ _ := None;
|}.

#[local] Existing Instances plain_errors no_result_text two_texts open_socket hex_base64 no_zeros.

Definition two_answers : list FetchTurn :=
  [{| ft_statuses := ["EXECUTING"; "FETCHING"]; ft_text := "{1}"; ft_rows := 1;
      ft_columns := [[JNull]; [JString "-0.07"]] |};
   {| ft_statuses := []; ft_text := "{2}"; ft_rows := 1; ft_columns := [[JBool false]; [JNull]] |}].

Definition later : list ws_item := [arrives "IDLE"].
Definition answering : WsStream :=
  {| incoming := concat (turn_items <$> two_answers) ++ later; outgoing := [] |}.

Definition open_set : WebSocketTransport := {|
  ws_stream := Some answering; ws_session_info := None;
  ws_lifecycle := {| lc_state := Authenticated; lc_deadline := None |};
  ws_fetch_positions := {[ 5 := 1 ]}; ws_current_schema := None;
|}.
Definition at_noon : World := {| now := 0; cutoff := None; draws := O |}.

Lemma sends_work_here : sends_work.
Proof. by intros k text. Qed.

Lemma ws_result_set_witness :
  ∃ s', fetch_all (λ s, (Panic, s)) 3
          (Stream (Some 5) three_rows [batch_of [row_a]] false) (at_noon, open_set)
        = close_after (Some 5) (Ok [batch_of [row_a]; batch_of [row_b]; batch_of [row_c]], s') ∧
    outgoing <$> ws_stream s'.2 = Some ["fetch"; "fetch"].
Proof.
  destruct (ws_result_set (λ s, (Panic, s)) 5 1 (1024 * 1024) two_answers later answering open_set
    at_noon three_rows [batch_of [row_a]] [batch_of [row_b]; batch_of [row_c]])
    as (s' & Hrun & (_ & Hk & _)).
  - exact sends_work_here.
  - reflexivity.
  - split_and!; reflexivity.
  - repeat constructor; vm_compute; try reflexivity; discriminate.
  - reflexivity.
  - lia.
  - vm_compute. discriminate.
  - repeat constructor; vm_compute; reflexivity.
  - vm_compute. lia.
  - vm_compute. reflexivity.
  - exists s'. split; [exact Hrun|]. by rewrite Hk.
Defined.

Lemma ws_request_answered_witness :
  ∃ r w', send_receive FetchResponse (FetchRequest 5 1 1000) (at_noon, open_set)
    = (Ok r, (w', answered FetchResponse (FetchRequest 5 1 1000) answering
                    (arrives "{2}" :: later) r open_set)).
Proof.
  set (r := {| status := "ok"; exception := None; attributes := None;
               response_data := Some {| f_num_rows := 1; f_data := [row_b] |} |}).
  destruct (proj2 (ws_request_answered FetchResponse (FetchRequest 5 1 1000) at_noon open_set r
      (answered FetchResponse (FetchRequest 5 1 1000) answering (arrives "{2}" :: later) r open_set))
    sends_work_here eq_refl) as (w' & Hrun & _).
  - exists answering, "{1}", (arrives "{2}" :: later). split_and!; [reflexivity|..].
    + exists ["EXECUTING"; "FETCHING"]. split_and!; [reflexivity|by repeat constructor|reflexivity].
    + reflexivity.
    + reflexivity.
  - exists r, w'. exact Hrun.
Defined.

(** ** A server of a session *)
#[local] Existing Instance PreparedRows.json_bits.

Definition same_case : UnicodeCase := {| unicode_uppercase s := s; unicode_lowercase s := s |}.

#[local] Existing Instance same_case.

Record Server := {
  sv_timeout : Z;
  sv_autocommit : bool;
  sv_pending : list string;
  sv_committed : list string;
  sv_requests : nat;
}.

Definition request (f : Server → Server) : action stop Server unit := λ s,
  let s := f s in
  (Ok (), {| sv_timeout := sv_timeout s; sv_autocommit := sv_autocommit s;
             sv_pending := sv_pending s; sv_committed := sv_committed s;
             sv_requests := S (sv_requests s) |}).

Definition run_sql (sql : string) (s : Server) : Server :=
  let keep p c := {| sv_timeout := sv_timeout s; sv_autocommit := sv_autocommit s;
                     sv_pending := p; sv_committed := c; sv_requests := sv_requests s |} in
  if String.eqb sql "COMMIT" then keep [] (sv_committed s ++ sv_pending s)
  else if String.eqb sql "ROLLBACK" then keep [] (sv_committed s)
  else if sv_autocommit s then keep (sv_pending s) (sv_committed s ++ [sql])
  else keep (sv_pending s ++ [sql]) (sv_committed s).

(** ["SLEEP"] is a statement that the caller drops while it runs. *)
Definition serve (sql : string) : action stop Server QueryResult := λ s,
  let '(_, s) := request (run_sql sql) s in
  if String.eqb sql "SLEEP" then (Err Cancelled, s) else (Ok (QRowCount 1), s).

Definition no_handle : PreparedStatementHandle :=
  PreparedStatementHandle_new 1 0 [] [].
Definition a_session : SessionInfo :=
  {| session_id := "1"; protocol_version := 3; release_version := "8.0.0"; database_name := "DB";
     product_name := "EXASolution"; max_data_message_size := 0; time_zone := None |}.

#[local] Instance server_results : ResultTransport Server := {|
  fetch_results _ s := (Err (Failed (ProtocolError "no result set")), s);
  close_result_set _ s := (Ok (), s);
|}.

#[local] Instance server_transport : TransportProtocol Server := {|
  transport_connect _ := request id;
  transport_authenticate _ s := (Ok a_session, (request id s).2);
  transport_execute := serve;
  transport_prepare _ s := (Ok no_handle, (request id s).2);
  transport_execute_prepared _ _ := serve "PREPARED";
  transport_close_prepared _ := request id;
  transport_set_query_timeout n := request (λ s,
    {| sv_timeout := n; sv_autocommit := sv_autocommit s; sv_pending := sv_pending s;
       sv_committed := sv_committed s; sv_requests := sv_requests s |});
  transport_set_autocommit b := request (λ s,
    {| sv_timeout := sv_timeout s; sv_autocommit := b; sv_pending := sv_pending s;
       sv_committed := sv_committed s; sv_requests := sv_requests s |});
  transport_set_schema _ := request id;
  transport_refresh_schema s := (Ok (Some "S"), (request id s).2);
  transport_close := request id;
  transport_current_schema _ := Some "S";
  transport_is_connected _ := true;
|}.

#[local] Program Instance server_settings : SessionSettings Server := {|
  settings s := (sv_timeout s, sv_autocommit s);
  alters_session _ := false;
|}.
Solve Obligations with
  intros; try reflexivity; unfold transport_execute, server_transport, serve, request, run_sql;
  cbv zeta; repeat case_match; reflexivity.

(** ** A connection *)
Definition fresh : Server :=
  {| sv_timeout := 0; sv_autocommit := true; sv_pending := []; sv_committed := [];
     sv_requests := O |}.

Definition some_params : ConnectionString.ConnectionParams := {|
  ConnectionString.host := "db"; ConnectionString.port := 8563;
  ConnectionString.username := "sys"; ConnectionString.password := "secret";
  ConnectionString.schema := Some "S"; ConnectionString.connection_timeout := 30;
  ConnectionString.query_timeout := Some 60; ConnectionString.use_tls := true;
  ConnectionString.validate_server_certificate := true;
  ConnectionString.certificate_fingerprint := None;
  ConnectionString.client_name := "client"; ConnectionString.client_version := "1";
  ConnectionString.transport := None;
|}.

Definition connected : Connection :=
  match connect_with_transport some_params fresh with
  | (Ok c, _) => c
  | (_, s) => new_connection some_params a_session s
  end.

Definition second_statement : Statement.Statement :=
  Statement.Statement_set_timeout (Statement.Statement_new "SLEEP") 90500.

(** A plain statement with a timeout of its own, and a prepared one behind it. *)
Definition slow_statement : Statement.Statement :=
  Statement.Statement_set_timeout (Statement.Statement_new "SELECT 1") 90500.
Definition slowed : Connection := (execute_statement slow_statement connected).2.
Definition a_prepared : Statement.PreparedStatement :=
  {| Statement.p_handle := no_handle; Statement.p_parameters := []; Statement.p_closed := false |}.

(** The prepared statement runs under the 91 seconds of the plain one. A statement with a
    timeout of its own that is dropped while it runs leaves the server with 91 seconds and
    the session with 60. *)
Lemma timeouts_reconciled_witness :
  timeout_inv connected ∧
  (settings (transport slowed)).1 = 91 ∧
  sv_timeout (transport (execute_prepared a_prepared slowed).2) = 91 ∧
  timeout_inv (execute_prepared a_prepared slowed).2 ∧
  ¬ timeout_inv (execute_statement second_statement connected).2.
Proof.
  destruct (timeouts_reconciled (S := Server)) as (Hconnect & Hplain & Hprepared).
  assert (timeout_inv connected) as Hinv.
  { apply (Hconnect some_params fresh connected (transport connected));
      [vm_compute; reflexivity|reflexivity]. }
  split; [done|].
  assert (timeout_inv slowed) as Hslow.
  { unfold slowed. destruct (execute_statement slow_statement connected) as [o c'] eqn:E.
    apply (Hplain slow_statement "SELECT 1" connected o c' Hinv eq_refl eq_refl eq_refl E);
      apply (f_equal fst) in E; vm_compute in E; rewrite <- E; discriminate. }
  destruct (Hprepared a_prepared None None slowed (execute_prepared a_prepared slowed).2 Hslow)
    as (_ & Hunder & _ & Hstep); [reflexivity..|by left|].
  split; [exact Hunder|]. split; [vm_compute; reflexivity|].
  split; [apply Hstep; vm_compute; reflexivity|].
  destruct (execute_statement second_statement connected) as [o c'] eqn:E.
  destruct (Hplain second_statement "SLEEP" connected o c' Hinv
    eq_refl eq_refl eq_refl E) as [[(c1 & _ & _ & _ & _ & Hc)|Hc] _].
  - apply Hc; [by destruct c1|]. vm_compute. discriminate.
  - exfalso. apply (f_equal snd) in E. cbn [snd] in E. rewrite <- E in Hc.
    vm_compute in Hc. discriminate Hc.
Defined.

(** ** Transactions *)
Definition in_first : Connection := (connection_begin connected).2.
Definition first_insert : Connection := (execute_update "INSERT 1" in_first).2.
Definition first_commit : Connection := (commit first_insert).2.
Definition second_insert : Connection := (execute_update "INSERT 2" first_commit).2.

(** The second commit reports success; the server received nothing and still holds the
    change that it should have committed. *)
Lemma transaction_lifecycle_witness :
  commit second_insert = (Ok (), second_insert) ∧
  sv_committed (transport second_insert) = ["INSERT 1"] ∧
  sv_pending (transport second_insert) = ["INSERT 2"] ∧
  sv_autocommit (transport second_insert) = false.
Proof.
  destruct (transaction_lifecycle first_insert) as (_ & _ & _ & Hend).
  specialize (Hend eq_refl eq_refl). apply Forall_cons in Hend as [(_ & _ & Hok & _) _].
  destruct (Hok ltac:(vm_compute; reflexivity)) as [_ Hnext].
  destruct (Hnext "INSERT 2" eq_refl eq_refl) as [Ha Hc].
  split; [exact Hc|]. split; [vm_compute; reflexivity|]. split; [vm_compute; reflexivity|].
  exact Ha.
Defined.

Lemma closed_connection_quiet_witness :
  (execute "SELECT 1" (shutdown connected).2).1
  = Err (QueryFailed (InvalidState "Connection is closed")).
Proof.
  destruct (shutdown connected) as [o c'] eqn:E. cbn [snd].
  destruct (proj1 (closed_connection_quiet connected) o c' E) as [Hs _].
  assert (can_execute (s_state (session c')) = false) as Hd by (rewrite Hs; reflexivity).
  destruct (proj2 (closed_connection_quiet c') Hd) as (_ & _ & Hx & _).
  rewrite (Hx "SELECT 1"). reflexivity.
Defined.

(** ** The ADBC driver on this server *)
#[local] Instance server_world : DriverWorld Server := {|
  transport_new _ s := s;
  import_from_stream _ _ _ conn := (Ok 1, conn);
|}.

Definition all_features : Features := {| feature_native := true; feature_websocket := true |}.
Definition plain_options : OptionText :=
  {| debug_string s := s; debug_option _ := "an option"; ReadOnly_key := "readonly";
     IsolationLevel_key := "isolation" |}.
#[local] Existing Instances all_features plain_options AdbcFfi.plain_types
  DateTime.calendar_chrono.

(** In a transaction that the option opened. *)
Definition manual : FfiConnection (S := Server) :=
  {| fc_params := some_params; fc_inner := inr in_first; fc_options := ∅; fc_auto_commit := false |}.

(** Back in autocommit mode, the server's autocommit is still off and commits are refused. *)
Lemma autocommit_switched_witness :
  let c := (conn_set_option ConnAutoCommit (OptString "true") manual).2 in
  ∃ conn, fc_inner c = inr conn ∧ sv_autocommit (transport conn) = false ∧
    (ffi_commit c).1 ≠ Ok ().
Proof.
  intros c. pose proof (autocommit_switched "true" manual) as Ha. cbv zeta in Ha.
  assert ((conn_set_option ConnAutoCommit (OptString "true") manual).1 = Ok ()) as Ho
    by (vm_compute; reflexivity).
  assert (can_execute (s_state (session in_first)) = true) as Hr by (vm_compute; reflexivity).
  assert (in_transaction in_first = true) as Ht by (vm_compute; reflexivity).
  assert ((settings (transport in_first)).2 = false) as Hs by (vm_compute; reflexivity).
  unfold c. clear c.
  destruct (conn_set_option ConnAutoCommit (OptString "true") manual) as [o c'].
  cbn [fst snd] in *. destruct Ha as (_ & _ & Hc).
  destruct (Hc in_first eq_refl ltac:(discriminate) Hr) as (conn' & Hi & _ & Hon).
  destruct (Hon eq_refl Ht) as [_ Hok]. destruct (Hok Ho) as [Hv Hcommit]. exists conn'.
  split; [exact Hi|]. rewrite Hs in Hv. split; [exact (f_equal snd Hv)|].
  rewrite Hcommit. discriminate.
Defined.

(** Two bound rows, of seconds since 1970. *)
Definition bound_times (seconds : Z) : ArrowCsv.InputBatch :=
  {| ArrowCsv.ib_fields := [{| f_name := "D"; f_data_type := ATimestamp DateTime.Second None; f_nullable := true |}];
     ArrowCsv.ib_columns := [ArrowCsv.FlatArray (ATimestamp DateTime.Second None)
       [Some (ArrowCsv.IntValue 0); Some (ArrowCsv.IntValue seconds)]];
     ArrowCsv.ib_rows := 2 |}.

Definition one_parameter : Statement.PreparedStatement :=
  {| Statement.p_handle := PreparedStatementHandle_new 1 1 [] []; Statement.p_parameters := [None];
     Statement.p_closed := false |}.
Definition with_one : FfiStatement := with_prepared (Some one_parameter) FfiStatement_new.

Lemma bound_rows_executed_witness :
  (execute_bound_batch_update (bound_times 1) (with_one, connected)).1 = Ok 1 ∧
  executions_of one_parameter [[Statement.Text "a"]; [Statement.Text "b"]]
  = [[[Statement.Text "a"]; [Statement.Text "b"]]] ∧
  (execute_bound_batch_update (bound_times (2 ^ 62)) (with_one, connected)).2 = (with_one, connected).
Proof.
  split; [vm_compute; reflexivity|]. split; [reflexivity|].
  pose proof (bound_rows_executed (λ s, (Panic, s)) 9 (bound_times (2 ^ 62)) with_one one_parameter
    connected eq_refl eq_refl) as Hb.
  assert (match bound_rows (bound_times (2 ^ 62)) with Err _ => true | _ => false end = true) as He
    by (vm_compute; reflexivity).
  destruct (bound_rows (bound_times (2 ^ 62))) as [rows|e|]; [discriminate He| |discriminate He].
  destruct Hb as (Hu & _). rewrite Hu. reflexivity.
Defined.

Lemma prepared_for_sql_witness :
  ∃ p, fs_prepared (stmt_prepare (set_sql_query "INSERT" FfiStatement_new, connected)).2.1 = Some p ∧
    ∃ conn0 conn1, prepare "INSERT" conn0 = (Ok p, conn1).
Proof.
  set (x := (set_sql_query "INSERT" FfiStatement_new, connected)).
  assert (rtc (statement_step (λ s, (Panic, s)) 9) (FfiStatement_new, connected) (stmt_prepare x).2)
    as Hr by (eapply rtc_l; [apply step_sql|]; eapply rtc_l; [apply step_prepare|]; apply rtc_refl).
  destruct (fs_prepared (stmt_prepare x).2.1) as [p|] eqn:E; [|vm_compute in E; discriminate].
  exists p. split; [done|].
  destruct (prepared_for_sql _ _ _ _ p Hr E) as (sql & conn0 & conn1 & Hs & Hp).
  exists conn0, conn1. assert (Some sql = Some "INSERT"%string) as Hq by (rewrite <- Hs; reflexivity).
  injection Hq as ->. exact Hp.
Defined.

(** A table is replaced although a value has no text: the table is made anew, nothing is
    imported. *)
Definition replacing : FfiStatement :=
  bind (bound_times (2 ^ 62))
    (stmt_set_option "adbc.ingest.mode" (OptString "adbc.ingest.mode.replace")
      (stmt_set_option "adbc.ingest.target_table" (OptString "T") FfiStatement_new)).

Example replaced_without_rows :
  (∀ n, (execute_bulk_ingest (replacing, connected)).1 ≠ Ok n) ∧
  length (sv_committed (transport (execute_bulk_ingest (replacing, connected)).2.2)) = 2%nat.
Proof. split; [intros n; vm_compute; discriminate|vm_compute; reflexivity]. Qed.
